(* ===== verification/_CoqProject ===== *)
-Q . S2P
Prelude.v
Spinlock.v
State.v
Printk.v
Kstring.v
Kalloc.v
Vm.v
Pgtbl.v
Vmcopy.v
Vmfree.v
Sync.v
Vmgrow.v
Pipe.v
Console.v
Consline.v
Sched.v
Bio.v
Virtio.v
Virtiosafe.v
Log.v
Fs.v
Fsblk.v
Fsinode.v
Fsfile.v
Fsrw.v
Fspath.v
Fsdir.v
File.v
Proc.v
Procops.v
Wait.v
Exec.v
Syscall.v
Sbrk.v
Execmem.v
Family.v
Sysfile.v
Plic.v
Trap.v
Kvm.v
Boot.v
Locks.v
Locksys.v
Refs.v
Ulib.v
Uprintf.v
Grep.v
Sh.v
Shparse.v
Shrun.v
Umalloc.v
Mkfs.v
Mkfsok.v
Mkfsimg.v
Uprog.v
Urun.v
Ufiles.v
Uls.v
Uinit.v
