(* ===== verification/Prelude.v ===== *)
(** * A verification development for the xv6 kernel of this repository

    The repository is xv6 for RISC-V (src/code) with a changed scheduler: the process with the
    smallest pid among the RUNNABLE ones runs until it blocks, timer interrupts do not take the
    CPU away from it, and two system calls, getppid and getidade, are added.  The development
    models the kernel, the program that builds the disk image (mkfs), and the user programs: the
    C library, the allocator, printf, the shell, grep, init and the short utilities.

    ** How code is modelled

    A routine of the kernel is a function of the monad [M] of this file over the record
    [State.kstate], which has a field for every global variable.  Its result is [Ok] with a
    value, [Panic] for a call of panic, [Fault] for what C leaves undefined (a null pointer
    followed, an index out of range), or [Block]: the process has switched to the scheduler, in
    the state the constructor carries.  What runs when it is scheduled again is a definition of
    its own, with the suffix [_resume] or [_after].  Integers are [Z] with the wrap-around of
    their C type written out ([u8], [u16], [u32], [u64], [s32], [s64]); physical memory is a map
    from addresses to bytes, and page tables and the free list are words in it.  A pointer into
    a static table is an index, a null pointer [None] or 0.

    Loops over a table are [mfor], [mfind] and [mfold] over its indexes; the others are
    fixpoints on their data or take fuel.  In the kernel the fuel is computed from the arguments,
    as a bound on the number of iterations: the bytes left for the copy loops, the pages of the
    range for the mapping loops, the buffer for the kill-line loop, 64 for the digits of a 64-bit
    number, the levels for page tables.  The fuel of malloc and free is a parameter: the theorem
    asks for twice the number of requests plus five, more than the free list can grow to.  A loop out of
    fuel is a [Fault], and the functional theorems conclude with [Ok], [Block] or a named panic,
    so they also show that the fuel is enough.

    The spin locks are modelled twice.  [Spinlock] has the lock words, the nesting counters and
    the interrupt bits of several CPUs, interleaved at the atomic exchange.  The other files run
    one CPU, whose locks are the list [held]; [Spinlock.HeldList] proves that this is what
    acquire and release do on one CPU.

    A user program is an interaction tree (of the ITree library) whose events are its system
    calls and its exit; a loop that the source writes as while or for(;;) is [iter], without
    fuel.  The system calls are operations of the class [Urun.Kernel], and the theorems hold for
    every kernel that keeps the laws of [Urun.KernelLaws].

    ** The files

    Locks, memory and output:
    - [Spinlock]: kernel/spinlock.c.  Mutual exclusion; the refinement to the list of locks.
    - [State]: the structures, constants and globals of the kernel's headers.
    - [Printk]: kernel/printk.c, the synchronous output of uart.c.  Printed numbers read back,
      and a panic prints its message whatever locks are held.
    - [Kstring]: kernel/string.c.  Copies that overlap; comparison and copy of strings.
    - [Kalloc]: kernel/kalloc.c.  The allocator is a stack of pages; kinit frees all of memory.
    - [Vm], [Pgtbl]: kernel/vm.c and the Sv39 part of riscv.h.  The page table in memory is a
      map; mappages and walkaddr, copyout and copyin.
    - [Vmcopy], [Vmfree], [Vmgrow]: the theory of uvmcopy (the memory of a child), uvmunmap,
      freewalk, uvmfree, uvmalloc, uvmdealloc and vmfault: which pages are allocated, what they
      hold, and that they are given back.

    Processes and devices:
    - [Sync]: sleep, wakeup and sched of kernel/proc.c, kernel/sleeplock.c.  No lost wake-up.
    - [Sched]: the scheduler and yield of kernel/proc.c, and those of proc_RR_backup.c, as two
      instances of one interface and a step relation over it.  One running process; the order of
      FCFS; round robin is fair and FCFS is not.
    - [Pipe]: kernel/pipe.c.  A pipe is a bounded queue across 32-bit wrap-around.
    - [Console], [Consline]: kernel/console.c, the interrupt half of uart.c, procdump.  The line
      discipline: what typing does and what a read delivers.
    - [Proc]: kernel/proc.c.  Its theory: [Procops] (kill, reparent), [Wait] (freeproc and wait:
      a child is collected with its status and all its pages), [Sbrk] (sbrk, eager and lazy, and
      page faults implement one memory) and [Family] (getppid before and after the exit of the
      parent).
    - [Virtio], [Virtiosafe]: kernel/virtio_disk.c.  Against every device that conforms to the
      virtio standard, with requests of several processes, device steps and interrupts in any
      order, the driver does the synchronous transfers that [Bio] relies on.

    Files:
    - [Bio]: kernel/bio.c.  The cache is transparent; the order of replacement.
    - [Log]: kernel/log.c.  Commits are atomic under crashes, recovery can be repeated, the log
      does not overflow, and the transaction that fills it panics.
    - [Fs]: kernel/fs.c.  Its theory, over the state [tx] of an open transaction: [Fsblk] (blocks
      and bitmap), [Fsinode] (inodes and the inode table), [Fsfile] (block maps), [Fsrw] (a
      write is read back), [Fspath] (the components of a path) and [Fsdir] (a directory is a map
      from names to inode numbers: dirlink adds to it, dirlookup reads it).
    - [File]: kernel/file.c and pipealloc.

    The kernel's boundary:
    - [Exec]: kernel/exec.c.  [Execmem]: its stack and the switch to the new image, and what its
      error exits give back.  [Syscall], [Sysfile]: kernel/syscall.c, sysproc.c, sysfile.c.
      [Trap]: kernel/trap.c, forkret and the kernel page table.
    - [Kvm]: the theory of kvmmake and proc_mapstacks: the kernel page table is exactly the
      layout of memlayout.h, and its construction does not run out of memory.
    - [Plic]: kernel/plic.c, over a class of interrupt controllers.  [Boot]: start.c over the
      machine-level registers of a hart, uartinit, and main.c on the first and the other harts.
      After start no trap enters machine mode again, and a device interrupt reaches the handler
      of its device.
    - [Locks], [Locksys]: a logic of triples for the locks that a routine needs, takes and gives
      back, and a triple for each routine of the kernel.
    - [Refs]: the reference counts of open files.  Two theorems about every trap from user
      space: locks are used correctly, and each file is counted as often as descriptors refer
      to it, on every error exit.

    User programs and the image:
    - [Ulib], [Uprintf], [Umalloc]: user/ulib.c, printf.c, umalloc.c.  printf and atoi; any
      sequence of malloc and free keeps the heap well formed and loses nothing.
    - [Grep]: the matcher and the loop of user/grep.c.  The matcher decides the meaning of
      patterns; the loop keeps the matching lines whatever the sizes in which the input arrives.
    - [Uprog]: cat, wc, ls, echo, mkdir, rm, ln, kill, sync, zombie, init and the main of grep
      as interaction trees.  [Urun]: the interface to the kernel, an instance in memory, and a
      logic of total correctness for the trees.  [Ufiles]: wc counts lines, words and bytes, and
      grep prints the matching lines of each file, for any sizes of the reads.  [Uls]: ls prints
      one line for each name in use.  [Uinit]: init has a shell running again after each exit.
    - [Sh], [Shparse]: the parser of user/sh.c.  It accepts exactly a grammar, and the words of
      the tree end where their tokens do.  [Shrun]: its runcmd and main, as trees of system
      calls: which programs a line executes, with which arguments and descriptors.
    - [Mkfs], [Mkfsok], [Mkfsimg]: mkfs/mkfs.c.  The image is one that the kernel's own
      definitions accept, and holds the files.

    ** What is assumed

    The theorems about the file system run [Bio.virtio_disk_rw], the synchronous contract that
    [Virtiosafe] proves of the driver.  The device of [Virtiosafe] and the disk interrupt of
    [Refs] are parameters with named hypotheses; their witnesses instantiate them.  The theorems
    about user programs assume the laws of [Urun.KernelLaws] (an open file is read in order, in
    pieces of any size, to its end; a write to the standard output appends); the witnesses use
    the instance in memory.  [Uinit] assumes that wait fails only without children.  The
    hardware below the kernel is assumed to do what its specifications say: the interrupt
    controller ([Plic.PlicLaws]), the delegation and enable registers of the hart
    ([Boot.HartLaws]) and the UART ([Boot.UartLaws]).

    ** What is not modelled

    Assembly (entry.S, swtch.S, kernelvec.S, trampoline.S): a context switch is [Block] and a
    step of [Sched], a trap a call of [Trap.usertrap] with the registers of the hart.
    proc_FCFS_backup.c is a copy of proc.c; proc_RR_backup.c differs from it in scheduler and
    yield, which are modelled.  usertests, grind, forktest, stressfs, logstress, forphan, dorphan
    and teste are tests.  Kernel code outside [Spinlock], [Sched] and
    [Virtiosafe] runs without interleaving between its switches to the scheduler. *)

From Stdlib Require Export ZArith Lia.
From stdpp Require Export base gmap strings numbers.
From stdpp Require Export list.
#[export] Set Default Goal Selector "!".

Open Scope Z_scope.

(** ** Results of kernel code

    A kernel routine returns a value in a new state, calls [panic], runs into
    behaviour that C leaves undefined (a null pointer dereferenced, an index out of
    range), or puts the calling process to sleep: [Block s] carries the state in which
    the process switched to the scheduler. *)
Inductive res (S A : Type) : Type :=
| Ok (a : A) (s : S)
| Panic (msg : string)
| Fault (msg : string)
| Block (s : S).
Arguments Ok {S A} _ _.
Arguments Panic {S A} _.
Arguments Fault {S A} _.
Arguments Block {S A} _.

Definition M (S A : Type) : Type := S -> res S A.

Section Monad.
Context {S : Type}.

Definition ret {A} (a : A) : M S A := fun s => Ok a s.

Definition bind {A B} (m : M S A) (k : A -> M S B) : M S B :=
    fun s =>
      match m s with
      | Ok a s' => k a s'
      | Panic e => Panic e
      | Fault e => Fault e
      | Block s' => Block s'
      end.

Definition get : M S S := fun s => Ok s s.
Definition gets {A} (f : S -> A) : M S A := fun s => Ok (f s) s.
Definition modify (f : S -> S) : M S unit := fun s => Ok tt (f s).
Definition panic {A} (msg : string) : M S A := fun _ => Panic msg.
Definition fault {A} (msg : string) : M S A := fun _ => Fault msg.

  (** [if (b) panic(msg);] *)
Definition panic_if (b : bool) (msg : string) : M S unit :=
    if b then panic msg else ret tt.

Definition when (b : bool) (m : M S unit) : M S unit :=
    if b then m else ret tt.

  (** Dereference of a pointer that may be null. *)
Definition deref {A} (msg : string) (o : option A) : M S A :=
    match o with Some a => ret a | None => fault msg end.

  (** [for (x = each element of l) body(x);] *)
Fixpoint mfor {X} (l : list X) (body : X -> M S unit) : M S unit :=
    match l with
    | [] => ret tt
    | x :: l' => bind (body x) (fun _ => mfor l' body)
    end.

  (** The same with an early exit: the loop stops at the first [Some]. *)
Fixpoint mfind {X A} (l : list X) (body : X -> M S (option A)) : M S (option A) :=
    match l with
    | [] => ret None
    | x :: l' =>
        bind (body x) (fun r => match r with
                                | Some a => ret (Some a)
                                | None => mfind l' body
                                end)
    end.

  (** The same with loop-carried variables [a]. *)
Fixpoint mfold {X A} (l : list X) (a : A) (body : A -> X -> M S A) : M S A :=
    match l with
    | [] => ret a
    | x :: l' => bind (body a x) (fun a' => mfold l' a' body)
    end.
End Monad.

(** One step of a sequence. *)
Lemma bind_ok {S A B} (m : M S A) (k : A -> M S B) s a s' : m s = Ok a s' -> bind m k s = k a s'.
Proof. unfold bind. by intros ->. Qed.
Lemma bind_block {S A B} (m : M S A) (k : A -> M S B) s s' : m s = Block s' -> bind m k s = Block s'.
Proof. unfold bind. by intros ->. Qed.

Lemma bind_inv {S A B} (m : M S A) (k : A -> M S B) s b s' : bind m k s = Ok b s' ->
  exists a s1, m s = Ok a s1 /\ k a s1 = Ok b s'.
Proof. unfold bind. destruct (m s) as [a s1| | |]; [by exists a, s1|done..]. Qed.
Lemma bind_ext {S A B} (m : M S A) (f g : A -> M S B) s : (forall a s', f a s' = g a s') -> bind m f s = bind m g s.
Proof. intros H. unfold bind. by destruct (m s). Qed.

Declare Scope kernel_scope.
Delimit Scope kernel_scope with kernel.
Notation "x ← y ; z" := (bind y (fun x => z))
  (at level 20, y at level 100, z at level 200, only parsing) : kernel_scope.
Notation "' x ← y ; z" := (bind y (fun x => z))
  (at level 20, x pattern, y at level 100, z at level 200, only parsing) : kernel_scope.
Notation "x ;; z" := (bind x (fun _ => z))
  (at level 100, z at level 200, only parsing, right associativity) : kernel_scope.
Open Scope kernel_scope.

(** ** Total correctness of a routine: it returns, and the result satisfies [Q]. *)
Definition wp {S A} (m : M S A) (Q : A -> S -> Prop) (s : S) : Prop :=
  match m s with Ok a s' => Q a s' | _ => False end.

Section Wp.
Context {S : Type}.
Implicit Types s : S.

Lemma wp_ret {A} (a : A) (Q : A -> S -> Prop) s : Q a s -> wp (ret a) Q s.
Proof. done. Qed.

Lemma wp_bind {A B} (m : M S A) (k : A -> M S B) Q s :
    wp m (fun a s' => wp (k a) Q s') s -> wp (bind m k) Q s.
Proof. unfold wp, bind. by destruct (m s). Qed.

Lemma wp_mono {A} (m : M S A) (Q Q' : A -> S -> Prop) s :
    wp m Q s -> (forall a s', Q a s' -> Q' a s') -> wp m Q' s.
Proof. unfold wp. destruct (m s); eauto. Qed.

Lemma wp_gets {A} (f : S -> A) Q s : Q (f s) s -> wp (gets f) Q s.
Proof. done. Qed.

Lemma wp_modify (f : S -> S) Q s : Q tt (f s) -> wp (modify f) Q s.
Proof. done. Qed.

Lemma wp_elim {A} (m : M S A) Q s :
    wp m Q s -> exists a s', m s = Ok a s' /\ Q a s'.
Proof. unfold wp. destruct (m s); [eauto | done..]. Qed.

Lemma wp_ok {A} (m : M S A) Q s a s' : wp m Q s -> m s = Ok a s' -> Q a s'.
Proof. unfold wp. intros H E. by rewrite E in H. Qed.

Lemma wp_intro {A} (m : M S A) Q s a s' : m s = Ok a s' -> Q a s' -> wp m Q s.
Proof. unfold wp. by intros ->. Qed.

  (** Loops: an invariant indexed by the elements done and the elements left. *)
Lemma wp_mfor {X} (l : list X) (body : X -> M S unit)
      (I : list X -> list X -> S -> Prop) (Q : unit -> S -> Prop) s :
    I [] l s ->
    (forall d x l' s', l = d ++ x :: l' -> I d (x :: l') s' ->
       wp (body x) (fun _ s'' => I (d ++ [x]) l' s'') s') ->
    (forall s', I l [] s' -> Q tt s') ->
    wp (mfor l body) Q s.
Proof.
    intros HI Hstep HQ.
    assert (Hgen : forall l' d s', l = d ++ l' -> I d l' s' -> wp (mfor l' body) Q s').
    { induction l' as [|x l' IH]; intros d s' Hl HI'; simpl.
      - rewrite app_nil_r in Hl. subst d. by apply HQ.
      - apply wp_bind. eapply wp_mono; [by eapply Hstep|].
        intros [] s'' HI''. eapply IH; [|exact HI'']. by rewrite <-app_assoc. }
    by apply (Hgen l []).
Qed.
End Wp.

(** Step through a [wp] goal: one bind, one primitive. *)
Ltac wp_step :=
  match goal with
  | |- wp (bind _ _) _ _ => apply wp_bind
  | |- wp (ret _) _ _ => apply wp_ret
  | |- wp (gets _) _ _ => apply wp_gets; cbv beta
  | |- wp (modify _) _ _ => apply wp_modify; cbv beta
  | |- wp (panic_if ?b _) _ _ => unfold panic_if
  | |- wp (when ?b _) _ _ => unfold when
  | |- wp (fun _ => _) _ _ => unfold wp at 1
  end.
Ltac wp_steps := repeat (wp_step; cbv beta).

(** ** Machine integers *)
Definition u8 (z : Z) : Z := z mod 2 ^ 8.
Definition u16 (z : Z) : Z := z mod 2 ^ 16.
Definition u32 (z : Z) : Z := z mod 2 ^ 32.
Definition u64 (z : Z) : Z := z mod 2 ^ 64.
(** The two's-complement value of the low [16], [32] bits ([short], [int]). *)
Definition s16 (z : Z) : Z := (z + 2 ^ 15) mod 2 ^ 16 - 2 ^ 15.
Definition s32 (z : Z) : Z := (z + 2 ^ 31) mod 2 ^ 32 - 2 ^ 31.

Lemma u32_small z : 0 <= z < 2 ^ 32 -> u32 z = z.
Proof. intros. unfold u32. by apply Z.mod_small. Qed.
Lemma u64_small z : 0 <= z < 2 ^ 64 -> u64 z = z.
Proof. intros. unfold u64. by apply Z.mod_small. Qed.
Lemma s32_small z : - 2 ^ 31 <= z < 2 ^ 31 -> s32 z = z.
Proof. intros. unfold s32. rewrite Z.mod_small; lia. Qed.
Lemma u32_range z : 0 <= u32 z < 2 ^ 32.
Proof. unfold u32. by apply Z.mod_pos_bound. Qed.
Lemma u64_range z : 0 <= u64 z < 2 ^ 64.
Proof. unfold u64. by apply Z.mod_pos_bound. Qed.
Lemma s32_range z : - 2 ^ 31 <= s32 z < 2 ^ 31.
Proof. unfold s32. pose proof (Z.mod_pos_bound (z + 2 ^ 31) (2 ^ 32)). lia. Qed.

Definition s64 (z : Z) : Z := (z + 2 ^ 63) mod 2 ^ 64 - 2 ^ 63.

(** The bytes of a string literal. *)
Fixpoint str (s : string) : list Z :=
  match s with
  | EmptyString => []
  | String a s' => Z.of_N (Ascii.N_of_ascii a) :: str s'
  end.

(** Case analysis on every decision of the goal, closed by arithmetic or congruence. *)
Ltac by_cases := repeat case_decide; subst; try congruence; try lia.
(** [lia] with division and remainder by constants expanded. *)
Ltac dlia := Z.div_mod_to_equations; lia.

(** ** Replacing a slice of a list: [memmove] into the middle of an array *)
Definition splice {A} (off : nat) (new l : list A) : list A :=
  take off l ++ new ++ drop (off + length new) l.

Section Splice.
Context {A : Type}.
Implicit Types l new : list A.

Lemma length_splice off new l :
    (off + length new <= length l)%nat -> length (splice off new l) = length l.
Proof. intros. unfold splice. rewrite !length_app, length_take, length_drop. lia. Qed.

Lemma lookup_splice_in off new l i :
    (off + length new <= length l)%nat -> (off <= i < off + length new)%nat ->
    splice off new l !! i = new !! (i - off)%nat.
Proof.
    intros. unfold splice.
    rewrite lookup_app_r; rewrite length_take; [|lia].
    rewrite lookup_app_l by lia. f_equal. lia.
Qed.

Lemma lookup_splice_out off new l i :
    (off + length new <= length l)%nat -> (i < off \/ off + length new <= i)%nat ->
    splice off new l !! i = l !! i.
Proof.
    intros Hl [Hi|Hi]; unfold splice.
    - rewrite lookup_app_l by (rewrite length_take; lia).
      by rewrite lookup_take_lt by lia.
    - rewrite lookup_app_r; rewrite length_take; [|lia].
      rewrite lookup_app_r by lia. rewrite lookup_drop. f_equal. lia.
Qed.

  (** A slice read back where it was written. *)
Lemma slice_splice off new l :
    (off + length new <= length l)%nat ->
    take (length new) (drop off (splice off new l)) = new.
Proof.
    intros. unfold splice.
    rewrite drop_app_length' by (rewrite length_take; lia).
    by rewrite take_app_length.
Qed.

  (** A slice read elsewhere. *)
Lemma slice_splice_ne off new l off' n :
    (off + length new <= length l)%nat ->
    (off' + n <= off \/ off + length new <= off')%nat ->
    take n (drop off' (splice off new l)) = take n (drop off' l).
Proof.
    intros Hl Hd. apply list_eq. intros i.
    destruct (decide (i < n)%nat) as [Hi|Hi].
    - rewrite !lookup_take_lt, !lookup_drop by lia.
      apply lookup_splice_out; lia.
    - rewrite !lookup_take_ge by lia. done.
Qed.
End Splice.

(** ** Little-endian encoding, as RISC-V lays integers out in memory *)
Fixpoint le_bytes (n : nat) (v : Z) : list Z :=
  match n with
  | O => []
  | S n' => v mod 256 :: le_bytes n' (v / 256)
  end.

Fixpoint le_val (l : list Z) : Z :=
  match l with
  | [] => 0
  | b :: l' => b + 256 * le_val l'
  end.

Lemma length_le_bytes n v : length (le_bytes n v) = n.
Proof. revert v. induction n; intros; simpl; [done|]. by rewrite IHn. Qed.

Lemma le_val_bytes n v : le_val (le_bytes n v) = v mod 256 ^ Z.of_nat n.
Proof.
  revert v. induction n as [|n IH]; intros v.
  - simpl. by rewrite Z.mod_1_r.
  - cbn [le_bytes le_val]. rewrite IH, Nat2Z.inj_succ, Z.pow_succ_r by lia.
    rewrite Z.rem_mul_r by lia. done.
Qed.

Lemma le_bytes_range n v b : b ∈ le_bytes n v -> 0 <= b < 256.
Proof.
  revert v. induction n as [|n IH]; intros v; simpl.
  - by intros ?%not_elem_of_nil.
  - intros [->|?]%elem_of_cons; [by apply Z.mod_pos_bound|eauto].
Qed.

(** Field access in a byte array: [n] bytes at offset [off]. *)
Definition get_le (off n : nat) (l : list Z) : Z := le_val (take n (drop off l)).
Definition put_le (off n : nat) (v : Z) (l : list Z) : list Z := splice off (le_bytes n v) l.

Lemma length_put_le off n v l :
  (off + n <= length l)%nat -> length (put_le off n v l) = length l.
Proof. intros. unfold put_le. apply length_splice. by rewrite length_le_bytes. Qed.

Lemma get_put_le off n v l :
  (off + n <= length l)%nat -> get_le off n (put_le off n v l) = v mod 256 ^ Z.of_nat n.
Proof.
  intros. unfold get_le, put_le.
  rewrite <-(length_le_bytes n v) at 1.
  rewrite slice_splice by (rewrite length_le_bytes; lia). apply le_val_bytes.
Qed.

Lemma get_put_le_ne off n v l off' n' :
  (off + n <= length l)%nat -> (off' + n' <= off \/ off + n <= off')%nat ->
  get_le off' n' (put_le off n v l) = get_le off' n' l.
Proof.
  intros. unfold get_le, put_le. f_equal.
  apply slice_splice_ne; rewrite length_le_bytes; lia.
Qed.

(** ** Physical memory: a byte for every address *)
Definition memory : Type := Z -> Z.

Definition load (m : memory) (a : Z) (n : nat) : list Z :=
  map (fun k => m (a + Z.of_nat k)) (seq 0 n).

Definition store (m : memory) (a : Z) (bs : list Z) : memory :=
  fun x =>
    if bool_decide (a <= x < a + Z.of_nat (length bs))
    then nth (Z.to_nat (x - a)) bs 0 else m x.

(** [memset(a, c, n)] on memory; [Kstring] relates it to the byte loop of string.c. *)
Definition fill (m : memory) (a c n : Z) : memory :=
  fun x => if bool_decide (a <= x < a + n) then u8 c else m x.

Definition load64 (m : memory) (a : Z) : Z := le_val (load m a 8).
Definition store64 (m : memory) (a v : Z) : memory := store m a (le_bytes 8 v).

Lemma length_load m a n : length (load m a n) = n.
Proof. unfold load. by rewrite length_map, length_seq. Qed.

Lemma lookup_load m a n i :
  (i < n)%nat -> load m a n !! i = Some (m (a + Z.of_nat i)).
Proof.
  intros. unfold load.
  rewrite list_lookup_fmap, lookup_seq_lt by lia. done.
Qed.

Lemma load_ext m m' a n :
  (forall x, a <= x < a + Z.of_nat n -> m x = m' x) -> load m a n = load m' a n.
Proof.
  intros H. apply list_eq. intros i.
  destruct (decide (i < n)%nat).
  - rewrite !lookup_load by lia. f_equal. apply H. lia.
  - rewrite !lookup_ge_None_2; [done|rewrite length_load; lia..].
Qed.

Lemma load_store m a bs : load (store m a bs) a (length bs) = bs.
Proof.
  apply list_eq. intros i. destruct (decide (i < length bs)%nat).
  - rewrite lookup_load by lia. unfold store. rewrite bool_decide_true by lia.
    rewrite Z.add_simpl_l, Nat2Z.id.
    by destruct (nth_lookup_or_length bs i 0); [|lia].
  - rewrite !lookup_ge_None_2; [done|rewrite ?length_load; lia..].
Qed.

Lemma load_store_ne m a bs a' n :
  a' + Z.of_nat n <= a \/ a + Z.of_nat (length bs) <= a' ->
  load (store m a bs) a' n = load m a' n.
Proof. intros. apply load_ext. intros. unfold store. rewrite bool_decide_false; [done|lia]. Qed.

Lemma load64_store64 m a v : load64 (store64 m a v) a = u64 v.
Proof.
  unfold load64, store64. rewrite <-(length_le_bytes 8 v) at 1.
  rewrite load_store. by rewrite le_val_bytes.
Qed.

Lemma load64_store64_ne m a v a' :
  a' + 8 <= a \/ a + 8 <= a' -> load64 (store64 m a v) a' = load64 m a'.
Proof.
  intros. unfold load64, store64.
  rewrite load_store_ne; [done|]. rewrite length_le_bytes. lia.
Qed.

Lemma load64_fill_ne m a c n a' :
  a' + 8 <= a \/ a + n <= a' -> load64 (fill m a c n) a' = load64 m a'.
Proof.
  intros. unfold load64. f_equal. apply load_ext. intros. unfold fill.
  rewrite bool_decide_false; [done|lia].
Qed.

Lemma load64_fill_0 m a n a' :
  a <= a' -> a' + 8 <= a + n -> load64 (fill m a 0 n) a' = 0.
Proof.
  intros. unfold load64.
  assert (load (fill m a 0 n) a' 8 = replicate 8 0) as ->; [|done].
  apply list_eq. intros i. destruct (decide (i < 8)%nat).
  - rewrite lookup_load, lookup_replicate_2 by lia. unfold fill.
    by rewrite bool_decide_true by lia.
  - rewrite !lookup_ge_None_2; [done|rewrite ?length_load, ?length_replicate; lia..].
Qed.

#[global] Arguments load : simpl never.
#[global] Arguments store : simpl never.
#[global] Arguments fill : simpl never.
#[global] Arguments load64 : simpl never.
#[global] Arguments store64 : simpl never.
#[global] Arguments u32 : simpl never.
#[global] Arguments u64 : simpl never.
#[global] Arguments s32 : simpl never.

(** ** The pieces of a list between separators *)
Fixpoint split_on (c : Z) (l : list Z) : list (list Z) :=
  match l with
  | [] => [[]]
  | x :: l' =>
      if x =? c then [] :: split_on c l'
      else match split_on c l' with h :: t => (x :: h) :: t | [] => [[x]] end
  end.
Lemma split_on_cons c l : exists h t, split_on c l = h :: t.
Proof. destruct l as [|x l]; cbn; [by eauto|]. destruct (x =? c); [by eauto|]. destruct (split_on c l); eauto. Qed.
