(* ===== verification/Spinlock.v ===== *)
(** * Spin locks (kernel/spinlock.c)

    The lock words, the per-CPU [push_off] depth and the interrupt-enable bit, as
    spinlock.c manipulates them.  Two uses are made of the model:

    - [Module Interleaving] runs several CPUs against each other, one atomic access at a
      time, and proves mutual exclusion and that a CPU holding a lock has interrupts off;
    - [Module HeldList] is the abstract view that the other files use, the list of locks the
      (single) CPU holds, with a refinement theorem from [acquire] and [release] to it. *)

From stdpp Require Import functions.
From S2P Require Import Prelude.

Record spinlock := mkspinlock { locked : Z; lk_name : string; lk_cpu : option nat }.
Record cpu := mkcpu { noff : Z; intena : bool; intr : bool }.

Section Spinlock.
Context {L : Type} `{EqDecision L}.

(** The CPUs and the locks; [intr] is the SIE bit of the CPU's sstatus. *)
Record mach := mkmach { cpus : nat -> cpu; lks : L -> spinlock }.

Definition set_cpu (c : nat) (f : cpu -> cpu) : M mach unit :=
  modify (fun s => {| s with cpus := <[c := f (cpus s c)]> (cpus s) |}).
Definition set_lk (l : L) (f : spinlock -> spinlock) : M mach unit :=
  modify (fun s => {| s with lks := <[l := f (lks s l)]> (lks s) |}).

Definition intr_get (c : nat) : M mach bool := gets (fun s => intr (cpus s c)).
Definition intr_on (c : nat) : M mach unit := set_cpu c (fun x => {| x with intr := true |}).
Definition intr_off (c : nat) : M mach unit := set_cpu c (fun x => {| x with intr := false |}).

Definition initlock (l : L) (name : string) : M mach unit :=
  set_lk l (fun _ => {| locked := 0; lk_name := name; lk_cpu := None |}).

Definition holding (c : nat) (l : L) : M mach bool :=
  gets (fun s => negb (locked (lks s l) =? 0) && bool_decide (lk_cpu (lks s l) = Some c)).

Definition push_off (c : nat) : M mach unit :=
  old ← intr_get c;
  intr_off c;;
  n ← gets (fun s => noff (cpus s c));
  when (n =? 0) (set_cpu c (fun x => {| x with intena := old |}));;
  set_cpu c (fun x => {| x with noff := noff x + 1 |}).

Definition pop_off (c : nat) : M mach unit :=
  i ← intr_get c;
  panic_if i "pop_off - interruptible";;
  n ← gets (fun s => noff (cpus s c));
  panic_if (n <? 1) "pop_off";;
  set_cpu c (fun x => {| x with noff := noff x - 1 |});;
  x ← gets (fun s => cpus s c);
  when ((noff x =? 0) && intena x) (intr_on c).

(** [acquire], cut at its atomic accesses: entry, one exchange, and the recording of the
    owner. *)
Definition acquire_enter (c : nat) (l : L) : M mach unit :=
  push_off c;;
  h ← holding c l;
  panic_if h "acquire".

Definition atomic_exchange (l : L) (v : Z) : M mach Z :=
  old ← gets (fun s => locked (lks s l));
  set_lk l (fun k => {| k with locked := v |});;
  ret old.

Definition acquire_finish (c : nat) (l : L) : M mach unit :=
  set_lk l (fun k => {| k with lk_cpu := Some c |}).

(** The spin loop, with fuel for the number of exchanges. *)
Fixpoint spin (fuel : nat) (l : L) : M mach unit :=
  match fuel with
  | O => fault "spin"
  | S fuel' =>
      old ← atomic_exchange l 1;
      if negb (old =? 0) then spin fuel' l else ret tt
  end.

Definition acquire (fuel : nat) (c : nat) (l : L) : M mach unit :=
  acquire_enter c l;; spin fuel l;; acquire_finish c l.

(** [release], cut before its atomic store. *)
Definition release_enter (c : nat) (l : L) : M mach unit :=
  h ← holding c l;
  panic_if (negb h) "release";;
  set_lk l (fun k => {| k with lk_cpu := None |}).

Definition release_finish (c : nat) (l : L) : M mach unit :=
  set_lk l (fun k => {| k with locked := 0 |});;
  pop_off c.

Definition release (c : nat) (l : L) : M mach unit :=
  release_enter c l;; release_finish c l.

End Spinlock.
Arguments mach : clear implicits.
Arguments mkmach {L} _ _.

Ltac fn_simpl :=
  repeat match goal with
  | |- context [ <[?a := _]> _ ?a ] => rewrite fn_lookup_insert
  | H : context [ <[?a := _]> _ ?a ] |- _ => rewrite fn_lookup_insert in H
  | H : ?a <> ?b |- context [ <[?a := _]> _ ?b ] => rewrite fn_lookup_insert_ne by done
  | H : ?b <> ?a |- context [ <[?a := _]> _ ?b ] => rewrite fn_lookup_insert_ne by done
  | H : ?a <> ?b, H' : context [ <[?a := _]> _ ?b ] |- _ =>
      rewrite fn_lookup_insert_ne in H' by done
  | H : ?b <> ?a, H' : context [ <[?a := _]> _ ?b ] |- _ =>
      rewrite fn_lookup_insert_ne in H' by done
  end.

(** ** What the routines compute *)
Section Eval.
Context {L : Type} `{EqDecision L}.
Implicit Types s : mach L.

Definition pushed (x : cpu) : cpu :=
  {| noff := noff x + 1;
     intena := if noff x =? 0 then intr x else intena x;
     intr := false |}.

Definition popped (x : cpu) : cpu :=
  {| noff := noff x - 1; intena := intena x;
     intr := (noff x - 1 =? 0) && intena x |}.

(** [s'] is [s] with the record of CPU [c] replaced by [x]. *)
Definition cpu_becomes (c : nat) (x : cpu) s s' : Prop :=
  cpus s' c = x /\ (forall c', c' <> c -> cpus s' c' = cpus s c').
(** [s'] is [s] with lock [l] replaced by [k]. *)
Definition lk_becomes (l : L) (k : spinlock) s s' : Prop :=
  lks s' l = k /\ (forall l', l' <> l -> lks s' l' = lks s l').

Lemma push_off_spec c s (Q : unit -> mach L -> Prop) :
  (forall s', cpu_becomes c (pushed (cpus s c)) s s' -> lks s' = lks s -> Q tt s') ->
  wp (push_off c) Q s.
Proof.
  intros HQ. unfold push_off, intr_get, intr_off, set_cpu. wp_steps. cbn.
  rewrite fn_lookup_insert. cbn.
  destruct (noff (cpus s c) =? 0) eqn:E; wp_steps; apply HQ; try done; split; cbn;
    unfold pushed; rewrite ?E; intros; fn_simpl; done.
Qed.

Lemma pop_off_spec c s (Q : unit -> mach L -> Prop) :
  intr (cpus s c) = false -> 1 <= noff (cpus s c) ->
  (forall s', cpu_becomes c (popped (cpus s c)) s s' -> lks s' = lks s -> Q tt s') ->
  wp (pop_off c) Q s.
Proof.
  intros Hi Hn HQ. unfold pop_off, intr_get, intr_on, set_cpu. wp_steps. rewrite Hi. wp_steps.
  destruct (Z.ltb_spec (noff (cpus s c)) 1); [lia|]. wp_steps. cbn.
  rewrite fn_lookup_insert. cbn.
  destruct ((noff (cpus s c) - 1 =? 0) && intena (cpus s c)) eqn:E; wp_steps; apply HQ;
    try done; split; cbn; unfold popped; rewrite ?E, ?Hi; intros; fn_simpl; cbn; rewrite ?Hi; done.
Qed.

(** [pop_off] undoes [push_off]: the interrupt bit and the nesting depth come back. *)
Lemma popped_pushed x : 0 <= noff x -> (0 < noff x -> intr x = false) ->
  noff (popped (pushed x)) = noff x /\ intr (popped (pushed x)) = intr x.
Proof.
  intros Hn Hi. unfold popped, pushed. cbn. rewrite Z.add_simpl_r. split; [done|].
  destruct (Z.eqb_spec (noff x) 0) as [E|E]; [done|]. by rewrite Hi by lia.
Qed.

Lemma release_finish_spec c l s (Q : unit -> mach L -> Prop) :
  intr (cpus s c) = false -> 1 <= noff (cpus s c) ->
  (forall s', cpu_becomes c (popped (cpus s c)) s s' ->
     lk_becomes l {| (lks s l) with locked := 0 |} s s' -> Q tt s') ->
  wp (release_finish c l) Q s.
Proof.
  intros Hi Hn HQ. unfold release_finish, set_lk. wp_steps. apply pop_off_spec; [done..|].
  intros s' Hc Hl. apply HQ; [done|]. split; rewrite Hl; cbn; intros; by fn_simpl.
Qed.

Lemma holding_eval c l s : exists b, holding c l s = Ok b s /\
  (b = true <-> locked (lks s l) <> 0 /\ lk_cpu (lks s l) = Some c).
Proof.
  eexists. split; [done|].
  rewrite andb_true_iff, negb_true_iff, Z.eqb_neq, bool_decide_eq_true. done.
Qed.
End Eval.

(** ** Several CPUs *)
Module Interleaving.
Section Interleaving.
Context {L : Type} `{EqDecision L}.

(** Where a CPU stands in spinlock.c; [Crashed] after a [panic]. *)
Inductive pc :=
| Run
| AcqSpin (l : L)
| AcqSet (l : L)
| RelStore (l : L)
| Crashed.

(** [owned c] lists the locks for which [acquire] has returned on CPU [c] and [release]
    has not been called since. *)
Record config := mkconfig { mc : mach L; pcs : nat -> pc; owned : nat -> list L }.

(** One atomic access by CPU [c].  Between accesses the kernel may also call [push_off] and
    [pop_off] on its own (as [myproc] does), turn interrupts off, and turn them on when no
    lock is held (as [scheduler] and [usertrap] do). *)
Inductive step (c : nat) (s : config) : config -> Prop :=
| step_acquire l m' :
    pcs s c = Run -> acquire_enter c l (mc s) = Ok tt m' ->
    step c s {| mc := m'; pcs := <[c := AcqSpin l]> (pcs s); owned := owned s |}
| step_acquire_panic l msg :
    pcs s c = Run -> acquire_enter c l (mc s) = Panic msg ->
    step c s {| s with pcs := <[c := Crashed]> (pcs s) |}
| step_exchange l old m' :
    pcs s c = AcqSpin l -> atomic_exchange l 1 (mc s) = Ok old m' ->
    step c s {| mc := m';
                pcs := <[c := if negb (old =? 0) then AcqSpin l else AcqSet l]> (pcs s);
                owned := owned s |}
| step_set l m' :
    pcs s c = AcqSet l -> acquire_finish c l (mc s) = Ok tt m' ->
    step c s {| mc := m'; pcs := <[c := Run]> (pcs s);
                owned := <[c := l :: owned s c]> (owned s) |}
| step_release l m' :
    pcs s c = Run -> release_enter c l (mc s) = Ok tt m' ->
    step c s {| mc := m'; pcs := <[c := RelStore l]> (pcs s);
                owned := <[c := filter (.≠ l) (owned s c)]> (owned s) |}
| step_release_panic l msg :
    pcs s c = Run -> release_enter c l (mc s) = Panic msg ->
    step c s {| s with pcs := <[c := Crashed]> (pcs s) |}
| step_store l m' :
    pcs s c = RelStore l -> release_finish c l (mc s) = Ok tt m' ->
    step c s {| mc := m'; pcs := <[c := Run]> (pcs s); owned := owned s |}
| step_push m' :
    pcs s c = Run -> push_off c (mc s) = Ok tt m' -> step c s {| s with mc := m' |}
| step_pop m' :
    pcs s c = Run -> Z.of_nat (length (owned s c)) < noff (cpus (mc s) c) ->
    pop_off c (mc s) = Ok tt m' -> step c s {| s with mc := m' |}
| step_intr_off m' :
    pcs s c = Run -> intr_off c (mc s) = Ok tt m' -> step c s {| s with mc := m' |}
| step_intr_on m' :
    pcs s c = Run -> noff (cpus (mc s) c) = 0 -> intr_on c (mc s) = Ok tt m' ->
    step c s {| s with mc := m' |}.

(** Boot: every lock initialised by [initlock], no interrupts, nobody in a critical
    section. *)
Definition initial (s : config) : Prop :=
  (forall l, locked (lks (mc s) l) = 0 /\ lk_cpu (lks (mc s) l) = None) /\
  (forall c, cpus (mc s) c = {| noff := 0; intena := false; intr := false |}) /\
  (forall c, pcs s c = Run /\ owned s c = []).

Inductive reachable : config -> Prop :=
| reach_init s : initial s -> reachable s
| reach_step c s s' : reachable s -> step c s s' -> reachable s'.

(** CPU [c] is in the critical section of [l], or on its way in or out of it. *)
Definition owns (s : config) (c : nat) (l : L) : Prop :=
  l ∈ owned s c \/ pcs s c = AcqSet l \/ pcs s c = RelStore l.

Definition pending (p : pc) : Z :=
  match p with AcqSpin _ | AcqSet _ | RelStore _ => 1 | Run | Crashed => 0 end.

Record inv (s : config) : Prop := {
  inv_locked : forall c l, owns s c l -> locked (lks (mc s) l) <> 0;
  inv_unique : forall c c' l, owns s c l -> owns s c' l -> c = c';
  inv_cpu : forall c l, lk_cpu (lks (mc s) l) = Some c <-> l ∈ owned s c;
  inv_nodup : forall c, NoDup (owned s c);
  inv_out : forall c l, pcs s c = AcqSet l \/ pcs s c = RelStore l -> l ∉ owned s c;
  inv_noff : forall c, Z.of_nat (length (owned s c)) + pending (pcs s c) <= noff (cpus (mc s) c);
  inv_intr : forall c, 0 < noff (cpus (mc s) c) -> intr (cpus (mc s) c) = false }.

Lemma inv_initial s : initial s -> inv s.
Proof.
  intros (Hl & Hc & Hp).
  assert (Ho : forall c l, ~ owns s c l).
  { intros c l. unfold owns. destruct (Hp c) as [-> ->]. set_solver. }
  split; try (intros; exfalso; by eapply Ho).
  - intros c l. destruct (Hl l) as [_ ->], (Hp c) as [_ ->]. split; [done|set_solver].
  - intros c. destruct (Hp c) as [_ ->]. constructor.
  - intros c l. destruct (Hp c) as [-> _]. naive_solver.
  - intros c. destruct (Hp c) as [-> ->]. by rewrite Hc.
  - intros c. by rewrite Hc.
Qed.

(** Steps that only change the CPU record of [c]. *)
Lemma inv_cpu_step s c m' x :
  inv s -> cpu_becomes c x (mc s) m' -> lks m' = lks (mc s) ->
  Z.of_nat (length (owned s c)) + pending (pcs s c) <= noff x ->
  (0 < noff x -> intr x = false) ->
  inv {| s with mc := m' |}.
Proof.
  intros Hinv [Hc Ho] Hl Hn Hi. destruct Hinv.
  split; unfold owns in *; cbn in *; rewrite ?Hl; eauto.
  - intros c'. destruct (decide (c' = c)) as [->|]; [by rewrite Hc|]. by rewrite Ho.
  - intros c'. destruct (decide (c' = c)) as [->|]; [by rewrite Hc|]. rewrite Ho by done. eauto.
Qed.

(** A CPU that moves between program points outside every lock. *)
Lemma inv_pc_step s c p :
  inv s -> pcs s c = Run \/ pcs s c = Crashed -> p = Crashed \/ (exists l, p = AcqSpin l) ->
  Z.of_nat (length (owned s c)) + pending p <= noff (cpus (mc s) c) ->
  inv {| s with pcs := <[c := p]> (pcs s) |}.
Proof.
  intros Hinv Hr Hp Hn. destruct Hinv as [I1 I2 I3 I4 I5 I6 I7].
  assert (Heq : forall c' l, owns {| s with pcs := <[c := p]> (pcs s) |} c' l <-> owns s c' l).
  { intros c' l. unfold owns. cbn. destruct (decide (c = c')) as [<-|]; fn_simpl; [|done].
    split.
    - intros [|[]]; [by left|..]; destruct Hp as [|[? ?]]; congruence.
    - intros [|[]]; [by left|..]; destruct Hr; congruence. }
  split; cbn; eauto.
  - intros. eapply I1. by apply Heq.
  - intros. eapply I2; by apply Heq.
  - intros c' l. destruct (decide (c = c')) as [<-|]; fn_simpl; [|eauto].
    intros []; destruct Hp as [|[? ?]]; congruence.
  - intros c'. destruct (decide (c = c')) as [<-|]; fn_simpl; eauto.
Qed.

Lemma inv_exchange s c l old m' :
  inv s -> pcs s c = AcqSpin l -> atomic_exchange l 1 (mc s) = Ok old m' ->
  inv {| mc := m'; pcs := <[c := if negb (old =? 0) then AcqSpin l else AcqSet l]> (pcs s);
         owned := owned s |}.
Proof.
  intros [I1 I2 I3 I4 I5 I6 I7] Hpc Hx. unfold atomic_exchange, set_lk, bind, gets, modify, ret in Hx.
  cbn in Hx. injection Hx as <- <-.
  assert (Hpc' : forall c' p, pcs s c' = p -> p <> AcqSpin l -> c <> c') by congruence.
  set (s' := {| mc := _; pcs := _; owned := _ |}).
  assert (Hown : forall c' l', owns s' c' l' ->
    owns s c' l' \/ (c' = c /\ l' = l /\ locked (lks (mc s) l) = 0)).
  { intros c' l'. unfold owns, s'. cbn.
    destruct (decide (c = c')) as [<-|]; fn_simpl; [|auto].
    destruct (Z.eqb_spec (locked (lks (mc s) l)) 0); cbn; intros [|[]]; try congruence; auto.
    right. split; [done|]. split; congruence. }
  split; unfold s' in *; cbn in *; eauto.
  - intros c' l' Ho. destruct (decide (l = l')) as [<-|]; fn_simpl; cbn; [done|].
    destruct (Hown _ _ Ho) as [|(_ & ? & _)]; [eauto|congruence].
  - intros c1 c2 l' H1 H2.
    destruct (Hown _ _ H1) as [O1|(-> & -> & E1)], (Hown _ _ H2) as [O2|(-> & E & E2)]; eauto.
    + subst l'. by destruct (I1 _ _ O1).
    + by destruct (I1 _ _ O2).
  - intros c' l'. destruct (decide (l = l')) as [<-|]; fn_simpl; cbn; eauto.
  - intros c' l' Hp. destruct (decide (c = c')) as [<-|]; fn_simpl; [|eauto].
    intros Hin. destruct (Z.eqb_spec (locked (lks (mc s) l)) 0) as [E|E]; cbn in Hp;
      destruct Hp; try congruence.
    assert (l' = l) as -> by congruence. apply (I1 c l); [by left|done].
  - intros c'. specialize (I6 c'). destruct (decide (c = c')) as [<-|]; fn_simpl; [|done].
    rewrite Hpc in I6. cbn in I6. by destruct (negb _).
Qed.

Lemma inv_set s c l m' :
  inv s -> pcs s c = AcqSet l -> acquire_finish c l (mc s) = Ok tt m' ->
  inv {| mc := m'; pcs := <[c := Run]> (pcs s); owned := <[c := l :: owned s c]> (owned s) |}.
Proof.
  intros [I1 I2 I3 I4 I5 I6 I7] Hpc Hx. unfold acquire_finish, set_lk, modify in Hx.
  injection Hx as <-. set (s' := {| mc := _; pcs := _; owned := _ |}).
  assert (Hown : forall c' l', owns s' c' l' -> owns s c' l').
  { intros c' l'. unfold owns, s'. cbn. destruct (decide (c = c')) as [<-|]; fn_simpl; [|done].
    intros [[->|]%elem_of_cons|[]]; [by right; left|by left|done..]. }
  split; unfold s' in *; cbn in *.
  - intros c' l' Ho%Hown. destruct (decide (l = l')) as [<-|]; fn_simpl; cbn; eauto.
  - eauto.
  - intros c' l'. destruct (decide (c = c')) as [<-|], (decide (l = l')) as [<-|]; fn_simpl; cbn.
    + split; [intros; by left|done].
    + rewrite elem_of_cons, I3. split; [auto|]. intros [|]; [congruence|done].
    + split; [congruence|]. intros Hin. destruct n. eapply (I2 _ _ l); [by right; left|by left].
    + apply I3.
  - intros c'. destruct (decide (c = c')) as [<-|]; fn_simpl; [|done].
    constructor; [|done]. apply I5. by left.
  - intros c' l'. destruct (decide (c = c')) as [<-|]; fn_simpl; [|eauto]. by intros [].
  - intros c'. specialize (I6 c'). destruct (decide (c = c')) as [<-|]; fn_simpl; [|done].
    rewrite Hpc in I6. cbn in *. lia.
  - eauto.
Qed.

Lemma acquire_enter_ok (s : mach L) c l m' : acquire_enter c l s = Ok tt m' ->
  cpu_becomes c (pushed (cpus s c)) s m' /\ lks m' = lks s.
Proof.
  intros Hx.
  assert (Hp : wp (push_off c)
    (fun _ s2 => cpu_becomes c (pushed (cpus s c)) s s2 /\ lks s2 = lks s) s)
    by (apply push_off_spec; auto).
  apply wp_elim in Hp as ([] & s2 & Hp & Hs2). unfold acquire_enter in Hx.
  unfold bind in Hx at 1. rewrite Hp in Hx. unfold bind, holding, gets in Hx.
  destruct (negb _ && _); [discriminate|]. cbn in Hx. by injection Hx as <-.
Qed.

Lemma release_enter_ok (s : mach L) c l m' : release_enter c l s = Ok tt m' ->
  lk_cpu (lks s l) = Some c /\
  m' = {| s with lks := <[l := {| (lks s l) with lk_cpu := None |}]> (lks s) |}.
Proof.
  unfold release_enter. intros Hx. destruct (holding_eval c l s) as (b & Hb & Hiff).
  unfold bind in Hx at 1. rewrite Hb in Hx. destruct b; [|discriminate].
  cbn in Hx. injection Hx as <-. split; [by apply Hiff|done].
Qed.

Lemma inv_release s c l m' :
  inv s -> pcs s c = Run -> release_enter c l (mc s) = Ok tt m' ->
  inv {| mc := m'; pcs := <[c := RelStore l]> (pcs s);
         owned := <[c := filter (.≠ l) (owned s c)]> (owned s) |}.
Proof.
  intros [I1 I2 I3 I4 I5 I6 I7] Hpc [Hcpu ->]%release_enter_ok.
  apply I3 in Hcpu as Hin. set (s' := {| mc := _; pcs := _; owned := _ |}).
  assert (Hown : forall c' l', owns s' c' l' -> owns s c' l').
  { intros c' l'. unfold owns, s'. cbn. destruct (decide (c = c')) as [<-|]; fn_simpl; [|done].
    rewrite list_elem_of_filter. intros [[_ ?]|[]]; [by left|done|].
    left. congruence. }
  split; unfold s' in *; cbn in *.
  - intros c' l' Ho%Hown. destruct (decide (l = l')) as [<-|]; fn_simpl; cbn; eauto.
  - eauto.
  - intros c' l'. destruct (decide (c = c')) as [<-|], (decide (l = l')) as [<-|]; fn_simpl; cbn;
      rewrite ?list_elem_of_filter.
    + split; [done|]. by intros [].
    + rewrite I3. split; [by auto|by intros []].
    + split; [done|]. intros Hin'. destruct n. eapply (I2 _ _ l); by left.
    + apply I3.
  - intros c'. destruct (decide (c = c')) as [<-|]; fn_simpl; [|done]. by apply NoDup_filter.
  - intros c' l'. destruct (decide (c = c')) as [<-|]; fn_simpl; [|eauto].
    rewrite list_elem_of_filter. intros [] []; congruence.
  - intros c'. specialize (I6 c'). destruct (decide (c = c')) as [<-|]; fn_simpl; [|done].
    rewrite Hpc in I6. cbn in *.
    assert (length (filter (.≠ l) (owned s c)) < length (owned s c))%nat; [|lia].
    eapply length_filter_lt; [exact Hin|by intros []].
  - eauto.
Qed.

Lemma inv_store s c l m' :
  inv s -> pcs s c = RelStore l -> release_finish c l (mc s) = Ok tt m' ->
  inv {| mc := m'; pcs := <[c := Run]> (pcs s); owned := owned s |}.
Proof.
  intros [I1 I2 I3 I4 I5 I6 I7] Hpc Hx.
  assert (Hn : 1 <= noff (cpus (mc s) c)).
  { specialize (I6 c). rewrite Hpc in I6. cbn in I6. lia. }
  assert (Hi : intr (cpus (mc s) c) = false) by (apply I7; lia).
  eapply wp_ok in Hx; [|apply release_finish_spec with (Q := fun _ s' =>
    cpu_becomes c (popped (cpus (mc s) c)) (mc s) s' /\
    lk_becomes l {| (lks (mc s) l) with locked := 0 |} (mc s) s'); auto].
  destruct Hx as [[Hc Hc'] [Hl Hl']]. set (s' := {| mc := _; pcs := _; owned := _ |}).
  assert (Hown : forall c' l', owns s' c' l' -> owns s c' l' /\ l' <> l).
  { intros c' l' Ho.
    assert (Ho' : owns s c' l').
    { revert Ho. unfold owns, s'. cbn. destruct (decide (c = c')) as [<-|]; fn_simpl; [|done].
      intros [|[]]; [by left|done..]. }
    split; [done|]. intros ->.
    assert (c' = c) as -> by (eapply I2; [done|by right; right]).
    revert Ho. unfold owns, s'. cbn. fn_simpl. intros [Hin|[]]; [|done..].
    revert Hin. apply I5. by right. }
  split; unfold s' in *; cbn in *.
  - intros c' l' [Ho Hne]%Hown. rewrite Hl' by done. eauto.
  - intros c1 c2 l' [H1 _]%Hown [H2 _]%Hown. eauto.
  - intros c' l'. destruct (decide (l' = l)) as [->|]; [rewrite Hl|rewrite Hl' by done]; cbn; apply I3.
  - eauto.
  - intros c' l'. destruct (decide (c = c')) as [<-|]; fn_simpl; [|eauto]. by intros [].
  - intros c'. specialize (I6 c'). destruct (decide (c = c')) as [<-|]; fn_simpl.
    + rewrite Hc, Hpc in *. cbn in *. lia.
    + by rewrite Hc'.
  - intros c'. destruct (decide (c' = c)) as [->|]; [rewrite Hc|rewrite Hc' by done; eauto].
    cbn. intros. destruct (Z.eqb_spec (noff (cpus (mc s) c) - 1) 0); [lia|done].
Qed.

Lemma inv_step s c s' : inv s -> step c s s' -> inv s'.
Proof.
  intros Hinv Hstep. pose proof (inv_noff s Hinv c) as Hno. pose proof (inv_intr s Hinv c) as Hin.
  destruct Hstep as [l m' Hpc Hx|l msg Hpc Hx|l old m' Hpc Hx|l m' Hpc Hx|l m' Hpc Hx|l msg Hpc Hx|
    l m' Hpc Hx|m' Hpc Hx|m' Hpc Hlt Hx|m' Hpc Hx|m' Hpc H0 Hx]; rewrite Hpc in Hno; cbn in Hno.
  - apply acquire_enter_ok in Hx as [Hc Hl].
    assert (Hinv' : inv {| s with mc := m' |}).
    { eapply inv_cpu_step; eauto; rewrite ?Hpc; cbn; lia. }
    apply (inv_pc_step {| s with mc := m' |} c (AcqSpin l)); cbn; [done|by left|right; by exists l|].
    destruct Hc as [-> _]. cbn. lia.
  - apply inv_pc_step; auto; cbn; lia.
  - by eapply inv_exchange.
  - by eapply inv_set.
  - by eapply inv_release.
  - apply inv_pc_step; auto; cbn; lia.
  - by eapply inv_store.
  - eapply wp_ok in Hx; [|apply push_off_spec with (Q := fun _ s' =>
      cpu_becomes c (pushed (cpus (mc s) c)) (mc s) s' /\ lks s' = lks (mc s)); auto].
    destruct Hx. eapply inv_cpu_step; eauto; cbn; rewrite ?Hpc; cbn; lia.
  - eapply wp_ok in Hx; [|apply pop_off_spec with (Q := fun _ s' =>
      cpu_becomes c (popped (cpus (mc s) c)) (mc s) s' /\ lks s' = lks (mc s)); auto; [apply Hin|]; lia].
    destruct Hx. eapply inv_cpu_step; eauto; cbn; rewrite ?Hpc; cbn; [lia|].
    intros. destruct (Z.eqb_spec (noff (cpus (mc s) c) - 1) 0); [lia|done].
  - cbn in Hx. injection Hx as <-.
    apply inv_cpu_step with (c := c) (x := {| (cpus (mc s) c) with intr := false |});
      [done|split; cbn; intros; fn_simpl; done|done|..]; cbn; rewrite ?Hpc; cbn; [lia|done].
  - cbn in Hx. injection Hx as <-.
    apply inv_cpu_step with (c := c) (x := {| (cpus (mc s) c) with intr := true |});
      [done|split; cbn; intros; fn_simpl; done|done|..]; cbn; rewrite ?Hpc; cbn; lia.
Qed.

Lemma inv_reachable s : reachable s -> inv s.
Proof. induction 1; eauto using inv_initial, inv_step. Qed.

(** C2: in every state the CPUs can reach, a CPU that has acquired a lock and not yet
    released it is alone in or around the critical section (no other CPU owns the lock or
    is past the exchange that would give it to it), [holding] answers true for it, its
    interrupts are off, and [release] goes through without a panic. *)
Theorem mutual_exclusion (s : config) (c : nat) (l : L) :
  reachable s -> l ∈ owned s c ->
  (forall c', owns s c' l -> c' = c) /\
  holding c l (mc s) = Ok true (mc s) /\
  intr (cpus (mc s) c) = false /\
  exists m', release c l (mc s) = Ok tt m'.
Proof.
  intros Hr%inv_reachable Hin. destruct Hr as [I1 I2 I3 I4 I5 I6 I7].
  assert (Ho : owns s c l) by by left.
  assert (Hh : holding c l (mc s) = Ok true (mc s)).
  { destruct (holding_eval c l (mc s)) as (b & -> & Hiff). f_equal. apply Hiff.
    split; [eauto|by apply I3]. }
  assert (Hn : 1 <= noff (cpus (mc s) c)).
  { specialize (I6 c). destruct (owned s c); [by apply not_elem_of_nil in Hin|].
    cbn in I6. destruct (pcs s c); cbn in I6; lia. }
  assert (Hi : intr (cpus (mc s) c) = false) by (apply I7; lia).
  split; [eauto|]. split; [done|]. split; [done|].
  assert (Hwp : wp (release c l) (fun _ _ => True) (mc s)).
  { unfold release, release_enter, set_lk. apply wp_bind. apply wp_bind.
    eapply wp_intro; [exact Hh|]. wp_steps. by apply release_finish_spec. }
  apply wp_elim in Hwp as ([] & m' & Hm & _). by exists m'.
Qed.
End Interleaving.

(** CPU 0 acquires lock 0 from boot. *)
Definition boot : config :=
  {| mc := {| cpus := fun _ => {| noff := 0; intena := false; intr := false |};
              lks := fun _ : nat => {| locked := 0; lk_name := "l"; lk_cpu := None |} |};
     pcs := fun _ => Run; owned := fun _ => [] |}.

Lemma mutual_exclusion_witness : exists s : config (L := nat),
  reachable s /\ (0%nat ∈ owned s 0%nat) /\ intr (cpus (mc s) 0%nat) = false.
Proof.
  assert (H0 : reachable boot) by (apply reach_init; split; [done|split; done]).
  eassert (H1 : reachable _).
  { eapply reach_step; [exact H0|]. eapply (step_acquire 0 boot 0%nat); reflexivity. }
  eassert (H2 : reachable _).
  { eapply reach_step; [exact H1|]. eapply (step_exchange 0 _ 0%nat); reflexivity. }
  eassert (H3 : reachable _).
  { eapply reach_step; [exact H2|]. eapply (step_set 0 _ 0%nat); reflexivity. }
  eexists. split; [exact H3|].
  assert (Hin : 0%nat ∈ owned {| mc := mc boot; pcs := pcs boot; owned := fun _ => [0%nat] |} 0%nat)
    by (cbn; left).
  split; [exact Hin|]. exact (proj1 (proj2 (proj2 (mutual_exclusion _ 0%nat 0%nat H3 Hin)))).
Defined.
End Interleaving.

(** ** The abstract view: the list of locks that the CPU holds *)
Module HeldList.
Section HeldList.
Context {L : Type} `{EqDecision L}.

Fixpoint remove1 (l : L) (h : list L) : list L :=
  match h with
  | [] => []
  | x :: h' => if decide (x = l) then h' else x :: remove1 l h'
  end.

(** [None] is the panic of [acquire] (already holding) and of [release] (not holding). *)
Definition held_acquire (l : L) (h : list L) : option (list L) :=
  if decide (l ∈ h) then None else Some (l :: h).
Definition held_release (l : L) (h : list L) : option (list L) :=
  if decide (l ∈ h) then Some (remove1 l h) else None.

Lemma remove1_head l h : remove1 l (l :: h) = h.
Proof. simpl. by rewrite decide_True. Qed.

Lemma elem_of_remove1 l h x : NoDup h -> x ∈ remove1 l h <-> x ∈ h /\ x <> l.
Proof.
  induction 1 as [|y h Hy Hnd IH]; simpl; [set_solver|].
  case_decide; [subst; set_solver|]. rewrite !elem_of_cons, IH. set_solver.
Qed.

Lemma NoDup_remove1 l h : NoDup h -> NoDup (remove1 l h).
Proof.
  induction 1 as [|y h Hy Hnd IH]; simpl; [constructor|].
  case_decide; [done|]. constructor; [|done]. rewrite elem_of_remove1 by done. tauto.
Qed.

Lemma length_remove1 l h : l ∈ h -> length h = S (length (remove1 l h)).
Proof.
  induction h as [|y h IH]; simpl; [by intros ?%not_elem_of_nil|].
  intros Hin. case_decide; [done|]. simpl. f_equal. apply IH. set_solver.
Qed.

(** The machine of CPU [c] represents the list [h]. *)
Record sim (c : nat) (s : mach L) (h : list L) : Prop := {
  sim_held : forall l, l ∈ h -> locked (lks s l) <> 0 /\ lk_cpu (lks s l) = Some c;
  sim_free : forall l, l ∉ h -> locked (lks s l) = 0 /\ lk_cpu (lks s l) = None;
  sim_nodup : NoDup h;
  sim_noff : noff (cpus s c) = Z.of_nat (length h);
  sim_intr : 0 < noff (cpus s c) -> intr (cpus s c) = false }.

Lemma acquire_refines c l s h fuel : (0 < fuel)%nat -> sim c s h ->
  match held_acquire l h with
  | Some h' => exists s', acquire fuel c l s = Ok tt s' /\ sim c s' h'
  | None => acquire fuel c l s = Panic "acquire"
  end.
Proof.
  intros Hf Hsim. destruct Hsim as [Hh Hfr Hnd Hn Hi].
  assert (Hp : wp (push_off c)
    (fun _ s2 => cpu_becomes c (pushed (cpus s c)) s s2 /\ lks s2 = lks s) s)
    by (apply push_off_spec; auto).
  apply wp_elim in Hp as ([] & s2 & Hp & Hs2 & Hl2).
  unfold acquire, acquire_enter, bind. rewrite Hp.
  destruct (holding_eval c l s2) as (b & -> & Hiff). rewrite Hl2 in Hiff. clear Hp.
  unfold held_acquire. destruct (decide (l ∈ h)) as [Hin|Hnin].
  - destruct (Hh l Hin). assert (b = true) as -> by by apply Hiff. done.
  - destruct (Hfr l Hnin) as [E1 E2].
    assert (b = false) as -> by (destruct b; [destruct Hiff as [[] _]; done|done]).
    destruct fuel; [lia|]. cbn. rewrite Hl2, E1. cbn. eexists. split; [reflexivity|].
    split; cbn.
    + intros l' Hl'. rewrite ?Hl2.
      destruct (decide (l = l')) as [<-|]; fn_simpl; [done|]. apply Hh. set_solver.
    + intros l' Hl'. rewrite ?Hl2. assert (l <> l') by set_solver. fn_simpl. apply Hfr. set_solver.
    + by constructor.
    + rewrite (proj1 Hs2). cbn. lia.
    + by rewrite (proj1 Hs2).
Qed.

Lemma release_refines c l s h : sim c s h ->
  match held_release l h with
  | Some h' => exists s', release c l s = Ok tt s' /\ sim c s' h'
  | None => release c l s = Panic "release"
  end.
Proof.
  intros [Hh Hfr Hnd Hn Hi]. unfold held_release.
  destruct (holding_eval c l s) as (b & Hb & Hiff). destruct (decide (l ∈ h)) as [Hin|Hnin].
  - destruct (Hh l Hin) as [E1 E2]. assert (b = true) as -> by by apply Hiff.
    pose proof (length_remove1 l h Hin) as Hlen.
    assert (Hwp : wp (release c l) (fun _ s' => cpu_becomes c (popped (cpus s c)) s s' /\
      (locked (lks s' l) = 0 /\ lk_cpu (lks s' l) = None) /\
      forall l', l' <> l -> lks s' l' = lks s l') s).
    { unfold release, release_enter, set_lk. apply wp_bind, wp_bind.
      eapply wp_intro; [exact Hb|]. wp_steps. apply release_finish_spec; cbn.
      - apply Hi. lia.
      - lia.
      - intros s' Hc [Hl Hl']. split; [done|]. rewrite Hl. cbn. fn_simpl. split; [done|].
        intros l' Hne. rewrite Hl' by done. cbn. by fn_simpl. }
    apply wp_elim in Hwp as ([] & s' & Hr & [Hc _] & Hl & Hl'). exists s'. split; [done|].
    split.
    + intros l' [Hin' Hne]%elem_of_remove1; [|done]. rewrite Hl' by done. by apply Hh.
    + intros l' Hni. rewrite elem_of_remove1 in Hni by done.
      destruct (decide (l' = l)) as [->|]; [done|]. rewrite Hl' by done. apply Hfr. tauto.
    + by apply NoDup_remove1.
    + rewrite Hc. cbn. lia.
    + rewrite Hc. cbn. intros. destruct (Z.eqb_spec (noff (cpus s c) - 1) 0); [lia|done].
  - destruct (Hfr l Hnin) as [E1 E2].
    assert (b = false) as -> by (destruct b; [destruct Hiff as [[] _]; done|done]).
    unfold release, release_enter, bind. by rewrite Hb.
Qed.

(** A sequence of lock operations and its abstract and concrete runs. *)
Inductive lockop := OpAcquire (l : L) | OpRelease (l : L).

Definition held_run1 (o : lockop) (h : list L) : option (list L) :=
  match o with OpAcquire l => held_acquire l h | OpRelease l => held_release l h end.
Definition run1 (c : nat) (o : lockop) : M (mach L) unit :=
  match o with OpAcquire l => acquire 1 c l | OpRelease l => release c l end.

Fixpoint held_run (os : list lockop) (h : list L) : option (list L) :=
  match os with
  | [] => Some h
  | o :: os' => match held_run1 o h with Some h' => held_run os' h' | None => None end
  end.

End HeldList.

End HeldList.
