(* ===== verification/State.v ===== *)
(** * The kernel's constants, data structures and global variables

    One record per C struct (proc.h, buf.h, file.h, fs.h, log.c, bio.c, pipe.c, console.c)
    and one record [kstate] with the kernel's global variables, on which every kernel routine
    of the following files is a state transformer.  A pointer into a static table is its
    index, with [None] for the null pointer; a pointer to a page from the page allocator is
    its physical address, with 0 for null.  The trap frames and pipes that live in such
    pages are kept as typed objects indexed by the page's address.

    The spin locks are the list [held] of the locks that the CPU holds: see
    [Spinlock.HeldList] for the lock words and the refinement. *)

From S2P Require Import Prelude Spinlock.
Import HeldList.

(** ** param.h, memlayout.h, riscv.h, fs.h *)
Definition NPROC : nat := 64.
Definition NOFILE : nat := 16.
Definition NFILE : nat := 100.
Definition NINODE : nat := 50.
Definition NDEV : Z := 10.
Definition ROOTDEV : Z := 1.
Definition MAXARG : nat := 32.
Definition MAXOPBLOCKS : Z := 10.
Definition LOGBLOCKS : Z := MAXOPBLOCKS * 3.
Definition NBUF : nat := 30.
Definition FSSIZE : Z := 2000.
Definition MAXPATH : nat := 128.
Definition USERSTACK : Z := 1.

Definition PGSIZE : Z := 4096.
Definition PGROUNDUP (sz : Z) : Z := Z.land (u64 (sz + PGSIZE - 1)) (Z.lnot (PGSIZE - 1)).
Definition PGROUNDDOWN (a : Z) : Z := Z.land a (Z.lnot (PGSIZE - 1)).
Definition PTE_V : Z := Z.shiftl 1 0.
Definition PTE_R : Z := Z.shiftl 1 1.
Definition PTE_W : Z := Z.shiftl 1 2.
Definition PTE_X : Z := Z.shiftl 1 3.
Definition PTE_U : Z := Z.shiftl 1 4.
Definition PA2PTE (pa : Z) : Z := u64 (Z.shiftl (Z.shiftr pa 12) 10).
Definition PTE2PA (pte : Z) : Z := u64 (Z.shiftl (Z.shiftr pte 10) 12).
Definition PTE_FLAGS (pte : Z) : Z := Z.land pte 0x3FF.
Definition PXSHIFT (level : Z) : Z := 12 + 9 * level.
Definition PX (level va : Z) : Z := Z.land (Z.shiftr va (PXSHIFT level)) 0x1FF.
Definition MAXVA : Z := Z.shiftl 1 (9 + 9 + 9 + 12 - 1).

Definition KERNBASE : Z := 0x80000000.
Definition PHYSTOP : Z := KERNBASE + 128 * 1024 * 1024.
Definition TRAMPOLINE : Z := MAXVA - PGSIZE.
Definition KSTACK (p : nat) : Z := TRAMPOLINE - (Z.of_nat p + 1) * 2 * PGSIZE.
Definition TRAPFRAME : Z := TRAMPOLINE - PGSIZE.

Definition ROOTINO : Z := 1.
Definition BSIZE : Z := 1024.
Definition NDIRECT : Z := 12.
Definition NINDIRECT : Z := BSIZE / 4.
Definition MAXFILE : Z := NDIRECT + NINDIRECT.
Definition DINODE_SIZE : Z := 64.
Definition IPB : Z := BSIZE / DINODE_SIZE.
Definition BPB : Z := BSIZE * 8.
Definition DIRSIZ : Z := 14.
Definition FSMAGIC : Z := 0x10203040.
Definition PIPESIZE : Z := 512.
Definition INPUT_BUF_SIZE : Z := 128.
Definition T_DIR : Z := 1.
Definition T_FILE : Z := 2.
Definition T_DEVICE : Z := 3.

(** ** Names of the locks and of the sleep channels *)
Inductive lockid :=
| L_pid | L_wait | L_proc (i : nat) | L_kmem | L_bcache | L_bufsl (i : nat)
| L_inodesl (i : nat) | L_log | L_itable | L_ftable | L_pipe (pi : Z) | L_cons | L_tx
| L_pr | L_ticks | L_vdisk.
#[export] Instance lockid_eq_dec : EqDecision lockid.
Proof. solve_decision. Defined.

(** The addresses that [sleep] and [wakeup] are called with; [C_null] is a cleared
    [p->chan]. *)
Inductive chan :=
| C_null | C_proc (i : nat) | C_bufsl (i : nat) | C_inodesl (i : nat) | C_log
| C_nread (pi : Z) | C_nwrite (pi : Z) | C_ticks | C_cons_r | C_tx | C_disk_free | C_buf (i : nat).
#[export] Instance chan_eq_dec : EqDecision chan.
Proof. solve_decision. Defined.

(** ** proc.h *)
Record context := mkcontext { ctx_ra : Z; ctx_sp : Z; ctx_s : list Z }.

Record trapframe := mktrapframe {
  kernel_satp : Z; kernel_sp : Z; kernel_trap : Z; epc : Z; kernel_hartid : Z;
  tf_ra : Z; tf_sp : Z; tf_gp : Z; tf_tp : Z; t0 : Z; t1 : Z; t2 : Z; s0 : Z; s1 : Z;
  a0 : Z; a1 : Z; a2 : Z; a3 : Z; a4 : Z; a5 : Z; a6 : Z; a7 : Z;
  s2 : Z; s3 : Z; s4 : Z; s5 : Z; s6 : Z; s7 : Z; s8 : Z; s9 : Z; s10 : Z; s11 : Z;
  t3 : Z; t4 : Z; t5 : Z; t6 : Z }.

Inductive procstate := UNUSED | USED | SLEEPING | RUNNABLE | RUNNING | ZOMBIE.
#[export] Instance procstate_eq_dec : EqDecision procstate.
Proof. solve_decision. Defined.

Record proc := mkproc {
  state : procstate; p_chan : chan; p_killed : Z; xstate : Z; pid : Z;
  parent : option nat;
  kstack : Z; sz : Z; pagetable : Z; p_trapframe : Z; p_context : context;
  ofile : list (option nat); cwd : option nat; name : list Z }.

(** ** sleeplock.h, buf.h, file.h, fs.h, log.c, pipe.c, console.c *)
Record sleeplock := mksleeplock { sl_locked : Z; sl_pid : Z }.

Record buf := mkbuf {
  b_valid : Z; b_disk : Z; b_dev : Z; b_blockno : Z; b_lock : sleeplock; refcnt : Z;
  b_data : list Z }.

Record superblock := mksuperblock {
  sb_magic : Z; sb_size : Z; sb_nblocks : Z; sb_ninodes : Z; sb_nlog : Z; sb_logstart : Z;
  sb_inodestart : Z; sb_bmapstart : Z }.

Record inode := mkinode {
  i_dev : Z; i_inum : Z; i_ref : Z; i_lock : sleeplock; i_valid : Z;
  i_type : Z; i_major : Z; i_minor : Z; i_nlink : Z; i_size : Z; i_addrs : list Z }.

Record logheader := mklogheader { lh_n : Z; lh_block : list Z }.
Record logstate := mklogstate {
  log_start : Z; log_outstanding : Z; log_committing : Z; log_dev : Z; log_ncommit : Z;
  log_lh : logheader }.

Inductive ftype := FD_NONE | FD_PIPE | FD_INODE | FD_DEVICE.
#[export] Instance ftype_eq_dec : EqDecision ftype.
Proof. solve_decision. Defined.
Record file := mkfile {
  f_type : ftype; f_ref : Z; readable : Z; writable : Z; f_pipe : Z; f_ip : option nat;
  f_off : Z; f_major : Z }.

Record pipe := mkpipe {
  pi_data : list Z; nread : Z; nwrite : Z; readopen : Z; writeopen : Z }.

Record console := mkconsole { c_buf : list Z; c_r : Z; c_w : Z; c_e : Z }.

(** ** The global variables

    [bcache_lru] is the list of buffers from [head.next] (most recently used) to [head.prev].
    [disk_blocks] is the contents of the disk and [disk_writes] the blocks written to it, in
    order.  [output] is what has been sent to the UART and [uart_rx] what it has received and
    the kernel has not read.  [first] is the static variable of [forkret]. *)
(** A function that an entry of [devsw] may point to. *)
Inductive devfn := consoleread_fn | consolewrite_fn.
Record devsw_entry := mkdevsw { dv_read : option devfn; dv_write : option devfn }.

(** Addresses that the linker (kernel.ld) gives to symbols of the kernel. *)
Record ldsyms := mkldsyms {
  ld_end : Z; ld_etext : Z; ld_trampoline : Z; ld_uservec : Z; ld_userret : Z;
  ld_forkret : Z; ld_usertrap : Z; ld_kernelvec : Z }.

Set Primitive Projections.
Record kstate := mkkstate {
  ld : ldsyms;
  held : list lockid;
  cur : option nat;
  procs : list proc;
  initproc : option nat;
  nextpid : Z;
  mem : memory;
  freelist : Z;
  kernel_pagetable : Z;
  tframes : Z -> trapframe;
  pipes : Z -> pipe;
  bufs : list buf;
  bcache_lru : list nat;
  disk_blocks : Z -> list Z;
  disk_writes : list (Z * list Z);
  klog : logstate;
  ksb : superblock;
  itable : list inode;
  ftable : list file;
  cons : console;
  ticks : Z;
  output : list Z;
  uart_rx : list Z;
  tx_busy : Z;
  first : Z;
  devsw : list devsw_entry }.
Unset Primitive Projections.

(** Assignment to each of the variables. *)
Definition set_held (v : list lockid) (s : kstate) : kstate := {| s with held := v |}.
Definition set_cur (v : option nat) (s : kstate) : kstate := {| s with cur := v |}.
Definition set_procs (v : list proc) (s : kstate) : kstate := {| s with procs := v |}.
Definition set_initproc (v : option nat) (s : kstate) : kstate := {| s with initproc := v |}.
Definition set_nextpid (v : Z) (s : kstate) : kstate := {| s with nextpid := v |}.
Definition set_mem (v : memory) (s : kstate) : kstate := {| s with mem := v |}.
Definition set_freelist (v : Z) (s : kstate) : kstate := {| s with freelist := v |}.
Definition set_kernel_pagetable (v : Z) (s : kstate) : kstate := {| s with kernel_pagetable := v |}.
Definition set_tframes (v : Z -> trapframe) (s : kstate) : kstate := {| s with tframes := v |}.
Definition set_pipes (v : Z -> pipe) (s : kstate) : kstate := {| s with pipes := v |}.
Definition set_bufs (v : list buf) (s : kstate) : kstate := {| s with bufs := v |}.
Definition set_bcache_lru (v : list nat) (s : kstate) : kstate := {| s with bcache_lru := v |}.
Definition set_disk_blocks (v : Z -> list Z) (s : kstate) : kstate := {| s with disk_blocks := v |}.
Definition set_disk_writes (v : list (Z * list Z)) (s : kstate) : kstate := {| s with disk_writes := v |}.
Definition set_klog (v : logstate) (s : kstate) : kstate := {| s with klog := v |}.
Definition set_ksb (v : superblock) (s : kstate) : kstate := {| s with ksb := v |}.
Definition set_itable (v : list inode) (s : kstate) : kstate := {| s with itable := v |}.
Definition set_ftable (v : list file) (s : kstate) : kstate := {| s with ftable := v |}.
Definition set_cons (v : console) (s : kstate) : kstate := {| s with cons := v |}.
Definition set_ticks (v : Z) (s : kstate) : kstate := {| s with ticks := v |}.
Definition set_output (v : list Z) (s : kstate) : kstate := {| s with output := v |}.
Definition set_uart_rx (v : list Z) (s : kstate) : kstate := {| s with uart_rx := v |}.
Definition set_tx_busy (v : Z) (s : kstate) : kstate := {| s with tx_busy := v |}.
Definition set_first (v : Z) (s : kstate) : kstate := {| s with first := v |}.
Definition set_devsw (v : list devsw_entry) (s : kstate) : kstate := {| s with devsw := v |}.

Notation K := (M kstate).

(** ** Locks of the single CPU *)
Definition acquire (l : lockid) : K unit :=
  h ← gets (fun s => held s);
  match held_acquire l h with
  | Some h' => modify (fun s => set_held h' s)
  | None => panic "acquire"
  end.

Definition release (l : lockid) : K unit :=
  h ← gets (fun s => held s);
  match held_release l h with
  | Some h' => modify (fun s => set_held h' s)
  | None => panic "release"
  end.

Definition holding (l : lockid) : K bool := gets (fun s => bool_decide (l ∈ held s)).

#[global] Arguments acquire : simpl never.
#[global] Arguments release : simpl never.

(** Locking and unlocking, as equations for symbolic evaluation. *)
Lemma acquire_eval l s : l ∉ held s -> acquire l s = Ok tt (set_held (l :: held s) s).
Proof.
  intros Hl. unfold acquire, bind, gets, held_acquire. by rewrite decide_False by done.
Qed.

Lemma release_eval l h s : held s = l :: h -> release l s = Ok tt (set_held h s).
Proof.
  intros Hl. unfold release, bind, gets, held_release. rewrite Hl.
  rewrite decide_True by set_solver. by rewrite remove1_head.
Qed.

Lemma wp_acquire l s Q :
  l ∉ held s -> Q tt (set_held (l :: held s) s) -> wp (acquire l) Q s.
Proof. intros. by eapply wp_intro; [apply acquire_eval|]. Qed.

Lemma wp_release l h s Q :
  held s = l :: h -> Q tt (set_held h s) -> wp (release l) Q s.
Proof. intros. by eapply wp_intro; [apply release_eval|]. Qed.

(** ** The process table *)
#[export] Instance context_inhabited : Inhabited context := populate (mkcontext 0 0 (replicate 12 0)).
#[export] Instance proc_inhabited : Inhabited proc :=
  populate (mkproc UNUSED C_null 0 0 0 None 0 0 0 0 inhabitant (replicate NOFILE None) None (replicate 16 0)).
#[export] Instance sleeplock_inhabited : Inhabited sleeplock := populate (mksleeplock 0 0).
#[export] Instance buf_inhabited : Inhabited buf := populate (mkbuf 0 0 0 0 inhabitant 0 (replicate 1024 0)).
#[export] Instance inode_inhabited : Inhabited inode :=
  populate (mkinode 0 0 0 inhabitant 0 0 0 0 0 0 (replicate 13 0)).
#[export] Instance file_inhabited : Inhabited file :=
  populate (mkfile FD_NONE 0 0 0 0 None 0 0).

(** The kernel's memory as the boot loader leaves it: zeroed, with no process. *)
Definition zero_trapframe : trapframe :=
  mktrapframe 0 0 0 0 0 0 0 0 0 0 0 0 0 0 0 0 0 0 0 0 0 0 0 0 0 0 0 0 0 0 0 0 0 0 0 0.
Definition zero_state : kstate :=
  {| ld := mkldsyms 0 0 0 0 0 0 0 0; held := []; cur := None; procs := replicate NPROC inhabitant;
     initproc := None; nextpid := 1; mem := fun _ => 0; freelist := 0; kernel_pagetable := 0;
     tframes := fun _ => zero_trapframe; pipes := fun _ => mkpipe (replicate 512 0) 0 0 0 0; bufs := replicate NBUF inhabitant;
     bcache_lru := []; disk_blocks := fun _ => []; disk_writes := [];
     klog := mklogstate 0 0 0 0 0 (mklogheader 0 (replicate 30 0));
     ksb := mksuperblock 0 0 0 0 0 0 0 0;
     itable := replicate NINODE inhabitant; ftable := replicate NFILE inhabitant;
     cons := mkconsole (replicate 128 0) 0 0 0; ticks := 0; output := [];
     uart_rx := []; tx_busy := 0; first := 1; devsw := replicate 10 (mkdevsw None None) |}.

Definition get_proc (i : nat) : K proc := gets (fun s => procs s !!! i).
Definition set_proc (i : nat) (f : proc -> proc) : K unit :=
  modify (fun s => set_procs (alter f i (procs s)) s).
Definition proc_ids : list nat := seq 0 NPROC.

(** [myproc()]: [myproc] itself may answer null; [myproc_deref] is [myproc()->...]. *)
Definition myproc : K (option nat) := gets (fun s => cur s).
Definition myproc_deref : K nat :=
  o ← myproc; deref "myproc() is null" o.

(** ** Page arithmetic *)
Lemma land_not_mask a n : 0 <= n -> Z.land a (Z.lnot (2 ^ n - 1)) = a / 2 ^ n * 2 ^ n.
Proof.
  intros Hn. replace (2 ^ n - 1) with (Z.ones n) by (rewrite Z.ones_equiv; lia).
  rewrite <-Z.ldiff_land.
  rewrite Z.ldiff_ones_r, Z.shiftl_mul_pow2, Z.shiftr_div_pow2 by lia. done.
Qed.

Lemma PGROUNDDOWN_eq a : PGROUNDDOWN a = a / PGSIZE * PGSIZE.
Proof. apply (land_not_mask a 12). lia. Qed.

Lemma PGROUNDUP_eq a : 0 <= a -> a + PGSIZE - 1 < 2 ^ 64 ->
  PGROUNDUP a = (a + PGSIZE - 1) / PGSIZE * PGSIZE.
Proof.
  intros. unfold PGROUNDUP. rewrite u64_small by (unfold PGSIZE in *; lia).
  apply (land_not_mask _ 12). lia.
Qed.
