(* ===== verification/Printk.v ===== *)
(** * Formatted console output (kernel/printk.c, the output half of kernel/uart.c)

    [output] collects the bytes written to the UART's transmit register.  The busy-wait for
    the register to be empty is not visible in it. *)

From S2P Require Import Prelude Spinlock State.

(** ** kernel/uart.c and kernel/console.c: one character, synchronously *)
Definition uartputc_sync (c : Z) : K unit :=
  modify (fun s => set_output (output s ++ [u8 c]) s).

Definition BACKSPACE : Z := 0x100.

Definition consputc (c : Z) : K unit :=
  if c =? BACKSPACE then
    uartputc_sync 8;; uartputc_sync 32;; uartputc_sync 8
  else uartputc_sync c.

(** ** kernel/printk.c *)
Definition digits (d : Z) : Z := nth (Z.to_nat d) (str "0123456789abcdef") 0.

(** The do/while loop: the digits of [x], least significant first.  64 iterations are enough
    for a 64-bit number in any base from 2. *)
Fixpoint printint_loop (fuel : nat) (x base : Z) : list Z :=
  match fuel with
  | O => []
  | S fuel' =>
      digits (x mod base) ::
      (if x / base =? 0 then [] else printint_loop fuel' (x / base) base)
  end.

(** The contents of [buf] when the digits and the sign are in it. *)
Definition printint_buf (xx base : Z) (sign : bool) : list Z :=
  let neg := sign && (xx <? 0) in
  let x := if neg then u64 (- xx) else u64 xx in
  printint_loop 64 x base ++ (if neg then str "-" else []).

Definition printint (xx base : Z) (sign : bool) : K unit :=
  mfor (reverse (printint_buf xx base sign)) consputc.

Fixpoint printptr_loop (n : nat) (x : Z) : K unit :=
  match n with
  | O => ret tt
  | S n' =>
      consputc (digits (Z.shiftr x 60));;
      printptr_loop n' (u64 (Z.shiftl x 4))
  end.
Definition printptr (x : Z) : K unit :=
  consputc 48;; consputc 120;; printptr_loop 16 x.

(** An argument: a machine word, or a string (null or not). *)
Inductive vararg := VInt (v : Z) | VStr (s : option (list Z)).

(** What follows a percent sign, with how many characters after the first it takes. *)
Inductive conv :=
| Cint (v : Z -> Z) (base : Z) (sign : bool) | Cptr | Cchar | Cstr | Cpercent | Cunknown.

Definition conversion (c0 c1 c2 : Z) : nat * conv :=
  let d := 100 in let l := 108 in let u := 117 in let x := 120 in
  if c0 =? d then (0%nat, Cint s32 10 true)
  else if (c0 =? l) && (c1 =? d) then (1%nat, Cint s64 10 true)
  else if (c0 =? l) && (c1 =? l) && (c2 =? d) then (2%nat, Cint s64 10 true)
  else if c0 =? u then (0%nat, Cint u32 10 false)
  else if (c0 =? l) && (c1 =? u) then (1%nat, Cint s64 10 false)
  else if (c0 =? l) && (c1 =? l) && (c2 =? u) then (2%nat, Cint s64 10 false)
  else if c0 =? x then (0%nat, Cint u32 16 false)
  else if (c0 =? l) && (c1 =? x) then (1%nat, Cint s64 16 false)
  else if (c0 =? l) && (c1 =? l) && (c2 =? x) then (2%nat, Cint s64 16 false)
  else if c0 =? 112 then (0%nat, Cptr)
  else if c0 =? 99 then (0%nat, Cchar)
  else if c0 =? 115 then (0%nat, Cstr)
  else if c0 =? 37 then (0%nat, Cpercent)
  else (0%nat, Cunknown).

(** Print one conversion; the arguments that are left.  A missing argument or one of the
    wrong kind is undefined. *)
Definition print_conv (c0 : Z) (c : conv) (args : list vararg) : K (list vararg) :=
  match c, args with
  | Cint f base sign, VInt v :: args' => printint (f v) base sign;; ret args'
  | Cptr, VInt v :: args' => printptr (u64 v);; ret args'
  | Cchar, VInt v :: args' => consputc (u32 v);; ret args'
  | Cstr, VStr o :: args' => mfor (default (str "(null)") o) consputc;; ret args'
  | Cpercent, _ => consputc 37;; ret args
  | Cunknown, _ => consputc 37;; consputc c0;; ret args
  | _, _ => fault "printk: va_arg"
  end.

Fixpoint printk_loop (fmt : list Z) (args : list vararg) : K unit :=
  match fmt with
  | [] => ret tt
  | cx :: fmt1 =>
      if negb (cx =? 37) then consputc cx;; printk_loop fmt1 args
      else
        match fmt1 with
        | [] => ret tt
        | c0 :: fmt2 =>
            let '(skip, c) := conversion c0 (nth 0 fmt2 0) (nth 1 fmt2 0) in
            args' ← print_conv c0 c args;
            match skip, fmt2 with
            | O, _ => printk_loop fmt2 args'
            | S O, _ :: fmt3 => printk_loop fmt3 args'
            | _, _ :: _ :: fmt3 => printk_loop fmt3 args'
            | _, _ => ret tt
            end
        end
  end.

Definition printk (fmt : list Z) (args : list vararg) : K Z :=
  acquire L_pr;;
  printk_loop fmt args;;
  release L_pr;;
  ret 0.

(** [panicking] is set: the output takes no lock, so that it appears even when the CPU holds
    [L_pr].  The result [Panic s] of a routine stands for the call of [panic] with [s], which
    prints this and then stops the machine. *)
Definition printk_panicking (fmt : list Z) (args : list vararg) : K Z :=
  printk_loop fmt args;;
  ret 0.
Definition panic_report (s : list Z) : K unit :=
  printk_panicking (str "panic: ") [];;
  printk_panicking (str "%s" ++ [10]) [VStr (Some s)];;
  ret tt.

(** ** What is printed *)
Lemma mfor_consputc l s : Forall (fun c => 0 <= c < 256) l ->
  mfor l consputc s = Ok tt (set_output (output s ++ l) s).
Proof.
  revert s. induction l as [|c l IH]; intros s H.
  - cbn [mfor]. unfold ret. rewrite app_nil_r. done.
  - apply Forall_cons_iff in H as [Hc Hl]. cbn [mfor]. unfold bind, consputc.
    destruct (Z.eqb_spec c BACKSPACE) as [->|_]; [unfold BACKSPACE in Hc; lia|].
    unfold uartputc_sync, modify. rewrite IH by done. cbn [output set_output].
    unfold u8. rewrite Z.mod_small by lia. rewrite <-app_assoc. done.
Qed.

(** The number that a printed numeral denotes. *)
Definition digit_value (c : Z) : Z := if c <? 97 then c - 48 else c - 87.
Fixpoint numeral_value (base : Z) (ds : list Z) : Z :=
  match ds with [] => 0 | c :: ds' => digit_value c + base * numeral_value base ds' end.
(** [l] as written, most significant digit first, with an optional minus sign. *)
Definition read_int (base : Z) (l : list Z) : Z :=
  match l with
  | [] => 0
  | c :: l' => if c =? 45 then - numeral_value base (reverse l') else numeral_value base (reverse l)
  end.

Lemma digits_spec d : 0 <= d < 16 ->
  digit_value (digits d) = d /\ 48 <= digits d < 256.
Proof.
  intros Hd. assert (d = 0 \/ d = 1 \/ d = 2 \/ d = 3 \/ d = 4 \/ d = 5 \/ d = 6 \/ d = 7 \/ d = 8 \/
    d = 9 \/ d = 10 \/ d = 11 \/ d = 12 \/ d = 13 \/ d = 14 \/ d = 15) as H by lia.
  repeat (destruct H as [->|H]; [by vm_compute|]). subst. by vm_compute.
Qed.

Section Digits.
Context (base : Z) (Hb : 2 <= base <= 16).

Lemma printint_loop_value n x : 0 <= x < base ^ Z.of_nat n ->
  numeral_value base (printint_loop n x base) = x.
Proof.
  revert x. induction n as [|n IH]; intros x Hx.
  - cbn in *. lia.
  - rewrite Nat2Z.inj_succ, Z.pow_succ_r in Hx by lia. cbn [printint_loop numeral_value].
    rewrite (proj1 (digits_spec (x mod base) ltac:(pose proof (Z.mod_pos_bound x base ltac:(lia)); lia))).
    assert (Hdm := Z.div_mod x base ltac:(lia)). destruct (Z.eqb_spec (x / base) 0) as [E|E].
    + cbn. lia.
    + rewrite IH; [lia|]. split; [apply Z.div_pos; lia|]. apply Z.div_lt_upper_bound; lia.
Qed.

Lemma printint_loop_length n k x : (1 <= n)%nat -> 0 <= x < base ^ Z.of_nat n ->
  (length (printint_loop k x base) <= n)%nat.
Proof.
  revert k x. induction n as [|n IH]; intros k x Hn Hx; [lia|]. destruct k as [|k]; cbn; [lia|].
  destruct (Z.eqb_spec (x / base) 0); [cbn; lia|].
  rewrite Nat2Z.inj_succ, Z.pow_succ_r in Hx by lia.
  destruct n as [|n].
  - exfalso. cbn in Hx. rewrite Z.div_small in n0; lia.
  - apply le_n_S, IH; [lia|]. split; [apply Z.div_pos; lia|]. apply Z.div_lt_upper_bound; lia.
Qed.

Lemma printint_loop_chars n x : 0 <= x -> Forall (fun c => 48 <= c < 256) (printint_loop n x base).
Proof.
  revert x. induction n as [|n IH]; intros x Hx; [done|]. cbn [printint_loop].
  apply Forall_cons. split.
  - apply digits_spec. pose proof (Z.mod_pos_bound x base ltac:(lia)). lia.
  - destruct (_ =? 0); [done|]. apply IH. apply Z.div_pos; lia.
Qed.
End Digits.

Lemma read_int_unsigned base l : Forall (fun c => 48 <= c < 256) l ->
  read_int base (reverse l) = numeral_value base l.
Proof.
  intros Hl. unfold read_int. destruct (reverse l) as [|c r] eqn:E.
  - apply (f_equal reverse) in E. by rewrite reverse_involutive in E; subst.
  - assert (c ∈ l) as Hc.
    { rewrite <-(reverse_involutive l), E, reverse_cons. set_solver. }
    rewrite Forall_forall in Hl. apply Hl in Hc. destruct (Z.eqb_spec c 45); [lia|].
    by rewrite <-E, reverse_involutive.
Qed.

Lemma printint_eval xx base sign s : 2 <= base <= 16 ->
  printint xx base sign s =
    Ok tt (set_output (output s ++ reverse (printint_buf xx base sign)) s).
Proof.
  intros Hb. unfold printint, printint_buf. apply mfor_consputc, Forall_reverse, Forall_app. split.
  - eapply Forall_impl; [apply printint_loop_chars; [done|]|cbn; lia].
    destruct (_ && _); apply u64_range.
  - destruct (_ && _); [|done]. apply Forall_singleton. cbn. lia.
Qed.

(** Ordinary characters, and [%d]. *)
Lemma printk_loop_plain l fmt args s :
  Forall (fun c => 0 <= c < 256 /\ c <> 37) l ->
  printk_loop (l ++ fmt) args s = printk_loop fmt args (set_output (output s ++ l) s).
Proof.
  revert s. induction l as [|c l IH]; intros s H.
  - rewrite app_nil_r. done.
  - apply Forall_cons_iff in H as [[Hc Hp] Hl]. cbn [app printk_loop].
    destruct (Z.eqb_spec c 37); [done|]. cbn [negb].
    pose proof (mfor_consputc [c] s ltac:(by apply Forall_singleton)) as E. cbn [mfor] in E.
    unfold bind in E |- *. destruct (consputc c s) as [[] s1| | |] eqn:Ec; try done.
    unfold ret in E. injection E as ->. rewrite IH by done. cbn [output set_output].
    rewrite <-app_assoc. done.
Qed.

Lemma printk_loop_d v fmt args s :
  printk_loop (37 :: 100 :: fmt) (VInt v :: args) s =
    printk_loop fmt args (set_output (output s ++ reverse (printint_buf (s32 v) 10 true)) s).
Proof.
  cbn [printk_loop Z.eqb Pos.eqb negb]. cbn [conversion Z.eqb Pos.eqb andb print_conv].
  unfold bind. rewrite printint_eval by lia. done.
Qed.

(** A panic prints its message whatever locks are held, and changes nothing else. *)
Theorem panic_report_prints msg s : Forall (fun c => 0 <= c < 256) msg ->
  panic_report msg s = Ok tt (set_output (output s ++ str "panic: " ++ msg ++ [10]) s).
Proof.
  intros Hm. unfold panic_report, printk_panicking.
  rewrite <-(app_nil_r (str "panic: ")). unfold bind at 1 2. rewrite printk_loop_plain by (repeat constructor; cbn; lia).
  cbn [printk_loop]. unfold ret at 1 2. change (str "%s" ++ [10]) with [37; 115; 10].
  cbn [printk_loop Z.eqb Pos.eqb negb conversion andb nth print_conv default]. unfold bind at 1 2 3 4 5.
  rewrite mfor_consputc by done. unfold ret at 1. unfold consputc at 1. cbn [Z.eqb Pos.eqb BACKSPACE].
  unfold uartputc_sync, modify, ret. f_equal. rewrite app_nil_r. destruct s. cbn. rewrite <-!app_assoc. done.
Qed.

(** The numbers that [printk] prints read back: for a signed decimal ([%d], [%ld]) or an
    unsigned decimal or hexadecimal number of up to 64 bits, the characters that [printint]
    sends to the console are a numeral that denotes the argument, and the 20-byte buffer of
    [printint] never overflows. *)
Theorem printint_reads_back xx base sign s :
  base = 10 \/ base = 16 -> - 2 ^ 63 <= xx < 2 ^ 63 -> (sign = true -> base = 10) ->
  exists l, printint xx base sign s = Ok tt (set_output (output s ++ l) s) /\
    (length l <= 20)%nat /\ read_int base l = if sign then xx else u64 xx.
Proof.
  intros Hb Hx Hs. exists (reverse (printint_buf xx base sign)).
  assert (Hb' : 2 <= base <= 16) by lia.
  set (x := if sign && (xx <? 0) then u64 (- xx) else u64 xx).
  assert (Hx64 : 0 <= x < 2 ^ 64) by (unfold x; destruct (_ && _); apply u64_range).
  pose proof (printint_loop_chars base Hb' 64 x (proj1 Hx64)) as Hch.
  assert (Hval : numeral_value base (printint_loop 64 x base) = x).
  { apply printint_loop_value; [done|]. split; [lia|]. destruct Hb as [->| ->]; cbn; lia. }
  unfold printint_buf. fold x. split; [|split].
  - rewrite printint_eval by done. unfold printint_buf. done.
  - rewrite length_reverse, length_app. destruct (sign && (xx <? 0)) eqn:E.
    + apply andb_true_iff in E as [E1 E2%Z.ltb_lt]. rewrite (Hs E1) in *.
      pose proof (printint_loop_length 10 ltac:(lia) 19 64 x ltac:(lia)) as H. change (length (str "-")) with 1%nat.
      assert (length (printint_loop 64 x 10) <= 19)%nat; [|lia]. apply H. unfold x, u64.
      rewrite Z.mod_small by lia. split; [lia|]. cbn. lia.
    + cbn [length]. pose proof (printint_loop_length base Hb' 20 64 x ltac:(lia)) as H.
      assert (length (printint_loop 64 x base) <= 20)%nat; [|lia]. apply H. split; [lia|].
      destruct Hb as [->| ->]; cbn; lia.
  - unfold x in *. destruct sign; cbn [andb] in *.
    + destruct (Z.ltb_spec xx 0) as [Hn|Hn].
      * rewrite reverse_app. cbn [app reverse str rev_append]. unfold read_int. cbn [rev_append app].
        change (Z.of_N _) with 45. cbn [Z.eqb Pos.eqb]. rewrite reverse_involutive, Hval.
        rewrite u64_small by lia. lia.
      * rewrite app_nil_r, read_int_unsigned by done. rewrite Hval. apply u64_small; lia.
    + rewrite app_nil_r, read_int_unsigned by done. done.
Qed.

Lemma printint_reads_back_witness :
  exists l, printint (-42) 10 true zero_state = Ok tt (set_output l zero_state) /\ read_int 10 l = -42.
Proof.
  destruct (printint_reads_back (-42) 10 true zero_state) as (l & H & _ & E).
  - left. reflexivity.
  - lia.
  - intros _. reflexivity.
  - exists l. split; [exact H|exact E].
Defined.
