(* ===== verification/Kstring.v ===== *)
(** * Memory and string routines (kernel/string.c)

    [memset], [memmove] and [memcpy] are byte loops on physical memory; the kernel files
    after this one use their closed forms [fill] and [store _ _ (load _ _ _)], which the
    theorems here justify, overlap included.  The string routines work on byte lists: a
    source string is the list of bytes from the pointer on, and reading past its end reads
    NUL; a destination buffer is the list of its bytes. *)

From S2P Require Import Prelude.

(** [cdst[i] = c] for i = 0 .. n-1. *)
Fixpoint memset_loop (m : memory) (dst c : Z) (n : nat) : memory :=
  match n with
  | O => m
  | S n' => store (memset_loop m dst c n') (dst + Z.of_nat n') [u8 c]
  end.
Definition memset (m : memory) (dst c n : Z) : memory := memset_loop m dst c (Z.to_nat n).

(** [*d++ = *s++], n times. *)
Fixpoint copy_up (m : memory) (d s : Z) (n : nat) : memory :=
  match n with
  | O => m
  | S n' => copy_up (store m d [m s]) (d + 1) (s + 1) n'
  end.
(** [*--d = *--s], n times. *)
Fixpoint copy_down (m : memory) (d s : Z) (n : nat) : memory :=
  match n with
  | O => m
  | S n' => copy_down (store m (d - 1) [m (s - 1)]) (d - 1) (s - 1) n'
  end.
Definition memmove (m : memory) (dst src n : Z) : memory :=
  if n =? 0 then m
  else if (src <? dst) && (dst <? src + n)
       then copy_down m (dst + n) (src + n) (Z.to_nat n)
       else copy_up m dst src (Z.to_nat n).
Definition memcpy (m : memory) (dst src n : Z) : memory := memmove m dst src n.

Fixpoint memcmp (s1 s2 : list Z) (n : nat) : Z :=
  match n with
  | O => 0
  | S n' =>
      if negb (hd 0 s1 =? hd 0 s2) then hd 0 s1 - hd 0 s2
      else memcmp (tl s1) (tl s2) n'
  end.

Fixpoint strncmp (p q : list Z) (n : nat) : Z :=
  match n with
  | O => 0
  | S n' =>
      if negb (hd 0 p =? 0) && (hd 0 p =? hd 0 q) then strncmp (tl p) (tl q) n'
      else u8 (hd 0 p) - u8 (hd 0 q)
  end.

(** The zero padding loop of [strncpy]. *)
Fixpoint pad0 (s : list Z) (n : nat) : list Z :=
  match n, s with
  | S n', _ :: s' => 0 :: pad0 s' n'
  | _, _ => s
  end.
Fixpoint strncpy (s t : list Z) (n : nat) : list Z :=
  match n, s with
  | S n', _ :: s' =>
      hd 0 t :: (if negb (hd 0 t =? 0) then strncpy s' (tl t) n' else pad0 s' n')
  | _, _ => s
  end.

(** [*s = 0] *)
Definition put_nul (s : list Z) : list Z := match s with [] => [] | _ :: s' => 0 :: s' end.
(** The copy loop of [safestrcpy] with [n] characters left, and the final NUL. *)
Fixpoint safestrcpy_loop (s t : list Z) (n : nat) : list Z :=
  match n, s with
  | S n', _ :: s' =>
      hd 0 t :: (if negb (hd 0 t =? 0) then safestrcpy_loop s' (tl t) n' else put_nul s')
  | _, _ => put_nul s
  end.
Definition safestrcpy (s t : list Z) (n : Z) : list Z :=
  if n <=? 0 then s else safestrcpy_loop s t (Z.to_nat (n - 1)).

Fixpoint strlen (s : list Z) : Z :=
  match s with
  | [] => 0
  | c :: s' => if negb (c =? 0) then 1 + strlen s' else 0
  end.

(** The string held in (at most) the first [n] bytes of a buffer. *)
Fixpoint cstr (n : nat) (s : list Z) : list Z :=
  match n, s with
  | S n', c :: s' => if c =? 0 then [] else c :: cstr n' s'
  | _, _ => []
  end.

(** ** Memory *)
Lemma store1 m a v x : store m a [v] x = if bool_decide (x = a) then v else m x.
Proof.
  unfold store. cbn [length]. destruct (decide (x = a)) as [->|].
  - rewrite !bool_decide_true by lia. by rewrite Z.sub_diag.
  - by rewrite !bool_decide_false by lia.
Qed.

Lemma memset_loop_fill m dst c n x : memset_loop m dst c n x = fill m dst c (Z.of_nat n) x.
Proof.
  induction n as [|n IH]; cbn [memset_loop].
  - unfold fill. by rewrite bool_decide_false by lia.
  - rewrite store1, IH. unfold fill. repeat case_bool_decide; done || lia.
Qed.

Lemma copy_up_spec m d s n x : d <= s \/ s + Z.of_nat n <= d ->
  copy_up m d s n x = if bool_decide (d <= x < d + Z.of_nat n) then m (s + (x - d)) else m x.
Proof.
  revert m d s. induction n as [|n IH]; intros m d s Hd; cbn [copy_up].
  - by rewrite bool_decide_false by lia.
  - rewrite IH by lia. rewrite !store1.
    repeat case_bool_decide; try lia; try done; f_equal; lia.
Qed.

Lemma copy_down_spec m d s n x : s <= d ->
  copy_down m d s n x =
    if bool_decide (d - Z.of_nat n <= x < d) then m (s + (x - d)) else m x.
Proof.
  revert m d s. induction n as [|n IH]; intros m d s Hd; cbn [copy_down].
  - by rewrite bool_decide_false by lia.
  - rewrite IH by lia. rewrite !store1.
    repeat case_bool_decide; try lia; try done; f_equal; lia.
Qed.

Lemma store_load m d s n x : 0 <= n ->
  store m d (load m s (Z.to_nat n)) x =
    if bool_decide (d <= x < d + n) then m (s + (x - d)) else m x.
Proof.
  intros Hn. unfold store. rewrite length_load, Z2Nat.id by lia.
  case_bool_decide; [|done]. apply nth_lookup_Some. rewrite lookup_load by lia. do 2 f_equal. lia.
Qed.

(** [memset] writes the byte [c] to exactly the [n] bytes from [dst], and [memmove]
    copies the [n] bytes that were at [src] before the call to [dst], whether or not the two
    regions overlap and in whichever order they lie, leaving the rest of memory alone. *)
Theorem memmove_memset_correct (m : memory) (dst src n c x : Z) : 0 <= n ->
  memmove m dst src n x = store m dst (load m src (Z.to_nat n)) x /\
  memset m dst c n x = fill m dst c n x.
Proof.
  intros Hn. split.
  - rewrite store_load by done. unfold memmove.
    destruct (Z.eqb_spec n 0) as [->|]; [by rewrite bool_decide_false by lia|].
    destruct (Z.ltb_spec src dst), (Z.ltb_spec dst (src + n)); cbn [andb].
    + rewrite copy_down_spec by lia. rewrite Z2Nat.id by lia.
      repeat case_bool_decide; try lia; try done. f_equal. lia.
    + rewrite copy_up_spec by lia. by rewrite Z2Nat.id by lia.
    + rewrite copy_up_spec by lia. by rewrite Z2Nat.id by lia.
    + rewrite copy_up_spec by lia. by rewrite Z2Nat.id by lia.
  - unfold memset. rewrite memset_loop_fill. by rewrite Z2Nat.id.
Qed.

(** Overlapping regions: 4 bytes moved up by one. *)
Lemma memmove_memset_witness :
  memmove (fun a => a) 11 10 4 13 = store (fun a => a) 11 (load (fun a => a) 10 4) 13.
Proof. exact (proj1 (memmove_memset_correct (fun a => a) 11 10 4 0 13 ltac:(lia))). Defined.

(** ** Strings *)
Lemma length_pad0 s n : length (pad0 s n) = length s.
Proof. revert s. induction n; intros [|]; cbn; auto. Qed.

Lemma length_strncpy s t n : length (strncpy s t n) = length s.
Proof.
  revert s t. induction n; intros [|] t; cbn; auto.
  destruct (negb _); rewrite ?IHn, ?length_pad0; done.
Qed.

Lemma cstr_hd_tl n s :
  cstr (S n) s = if hd 0 s =? 0 then [] else hd 0 s :: cstr n (tl s).
Proof. by destruct s. Qed.

Lemma cstr_pad0 s n : cstr n (pad0 s n) = [].
Proof. destruct n, s; done. Qed.

Lemma cstr_strncpy s t n : (n <= length s)%nat -> cstr n (strncpy s t n) = cstr n t.
Proof.
  revert s t. induction n as [|n IH]; intros [|c s] t Hl; [done|done|cbn in Hl; lia|].
  cbn [strncpy]. rewrite !cstr_hd_tl. cbn [hd tl].
  destruct (hd 0 t =? 0) eqn:E; [done|]. cbn [negb]. f_equal. apply IH. cbn in Hl. lia.
Qed.

Definition bytes (s : list Z) : Prop := Forall (fun c => 0 <= c < 256) s.

Lemma bytes_hd s : bytes s -> 0 <= hd 0 s < 256.
Proof. destruct 1; cbn; [lia|done]. Qed.
Lemma bytes_tl s : bytes s -> bytes (tl s).
Proof. destruct 1; [constructor|done]. Qed.

Lemma bytes_pad0 s n : bytes s -> bytes (pad0 s n).
Proof.
  revert s. induction n; intros [|] H; cbn; try done. inversion H; subst.
  constructor; [lia|by apply IHn].
Qed.

Lemma bytes_strncpy s t n : bytes s -> bytes t -> bytes (strncpy s t n).
Proof.
  revert s t. induction n as [|n IH]; intros [|c s] t Hs Ht; try done.
  cbn [strncpy]. inversion Hs; subst. constructor; [by apply bytes_hd|].
  destruct (negb _); [apply IH; [done|by apply bytes_tl]|by apply bytes_pad0].
Qed.

Lemma strncmp_cstr p q n : bytes p -> bytes q ->
  strncmp p q n = 0 <-> cstr n p = cstr n q.
Proof.
  revert p q. induction n as [|n IH]; intros p q Hp Hq; [done|].
  cbn [strncmp]. rewrite !cstr_hd_tl.
  pose proof (bytes_hd p Hp). pose proof (bytes_hd q Hq).
  unfold u8. rewrite !Z.mod_small by lia.
  destruct (Z.eqb_spec (hd 0 p) 0), (Z.eqb_spec (hd 0 q) 0), (Z.eqb_spec (hd 0 p) (hd 0 q));
    cbn [negb andb]; try lia.
  - split; [done|lia].
  - split; [lia|done].
  - split; [lia|done].
  - rewrite IH by by apply bytes_tl. split; [congruence|]. by intros [=].
  - split; [lia|congruence].
Qed.

Lemma length_put_nul s : length (put_nul s) = length s.
Proof. by destruct s. Qed.

Lemma safestrcpy_loop_spec s t n : (n < length s)%nat ->
  length (safestrcpy_loop s t n) = length s /\
  cstr (S n) (safestrcpy_loop s t n) = cstr n t /\
  drop (S n) (safestrcpy_loop s t n) = drop (S n) s.
Proof.
  revert s t. induction n as [|n IH]; intros [|c s] t Hl; [cbn in Hl; lia|done|cbn in Hl; lia|].
  cbn [safestrcpy_loop length]. cbn [length] in Hl.
  destruct (IH s (tl t) ltac:(lia)) as (IH1 & IH2 & IH3).
  rewrite (cstr_hd_tl n t), (cstr_hd_tl (S n)). cbn [hd tl].
  destruct (hd 0 t =? 0) eqn:E; cbn [negb].
  - rewrite length_put_nul. split; [done|]. split; [done|]. destruct s; [done|]. cbn. done.
  - split; [by rewrite IH1|]. split; [by rewrite IH2|]. exact IH3.
Qed.

(** A directory name stored by [strncpy] into a name field of [n] bytes compares equal
    under [strncmp] with the name it was made from (cut to [n] bytes, with or without room
    for a NUL) and [strncmp] answers zero for no other name; [safestrcpy] stores the source
    cut to [n-1] characters, always NUL-terminated inside the [n] bytes, and writes nothing
    past them. *)
Theorem string_copy_compare (s t q : list Z) (n : nat) :
  bytes s -> bytes t -> bytes q -> (0 < n <= length s)%nat ->
  (strncmp (strncpy s t n) q n = 0 <-> cstr n t = cstr n q) /\
  cstr n (safestrcpy s t (Z.of_nat n)) = cstr (n - 1) t /\
  drop n (safestrcpy s t (Z.of_nat n)) = drop n s /\
  length (safestrcpy s t (Z.of_nat n)) = length s.
Proof.
  intros Hs Ht Hq [Hn0 Hn]. split.
  - rewrite strncmp_cstr; [by rewrite cstr_strncpy| |done].
    by apply bytes_strncpy.
  - unfold safestrcpy. destruct (Z.leb_spec (Z.of_nat n) 0); [lia|].
    replace (Z.to_nat (Z.of_nat n - 1)) with (n - 1)%nat by lia.
    destruct (safestrcpy_loop_spec s t (n - 1) ltac:(lia)) as (H1 & H2 & H3).
    replace (S (n - 1))%nat with n in * by lia. done.
Qed.

Lemma string_copy_compare_witness :
  strncmp (strncpy [9; 9; 9] [97; 98; 99; 100] 3) [97; 98; 99; 101] 3 = 0.
Proof.
  apply (proj1 (string_copy_compare [9; 9; 9] [97; 98; 99; 100] [97; 98; 99; 101] 3
    ltac:(repeat constructor; lia) ltac:(repeat constructor; lia)
    ltac:(repeat constructor; lia) ltac:(cbn; lia))).
  reflexivity.
Defined.
