(* ===== verification/Kalloc.v ===== *)
(** * The physical page allocator (kernel/kalloc.c)

    The free list is threaded through the free pages themselves: [freelist] is the address
    of the first free page and the first word of a free page is the address of the next.
    [chain] relates it to the list of free pages. *)

From S2P Require Import Prelude Spinlock State.

Definition kfree (pa : Z) : K unit :=
  e ← gets (fun s => ld_end (ld s));
  panic_if (negb (pa mod PGSIZE =? 0) || (pa <? e) || (PHYSTOP <=? pa)) "kfree";;
  modify (fun s => set_mem (fill (mem s) pa 1 PGSIZE) s);;
  acquire L_kmem;;
  modify (fun s => set_mem (store64 (mem s) pa (freelist s)) s);;
  modify (fun s => set_freelist pa s);;
  release L_kmem.

Definition kalloc : K Z :=
  acquire L_kmem;;
  r ← gets (fun s => freelist s);
  when (negb (r =? 0)) (modify (fun s => set_freelist (load64 (mem s) r) s));;
  release L_kmem;;
  when (negb (r =? 0)) (modify (fun s => set_mem (fill (mem s) r 5 PGSIZE) s));;
  ret r.

(** The loop of [freerange] from [p]; the fuel is the number of pages left. *)
Fixpoint freerange_loop (fuel : nat) (p pa_end : Z) : K unit :=
  match fuel with
  | O => ret tt
  | S fuel' =>
      if p + PGSIZE <=? pa_end
      then kfree p;; freerange_loop fuel' (p + PGSIZE) pa_end
      else ret tt
  end.

Definition freerange (pa_start pa_end : Z) : K unit :=
  let p := PGROUNDUP pa_start in
  freerange_loop (Z.to_nat ((pa_end - p) / PGSIZE + 1)) p pa_end.

Definition kinit : K unit :=
  e ← gets (fun s => ld_end (ld s));
  freerange e PHYSTOP.

(** ** Evaluation *)
Lemma kfree_eval pa s :
  pa mod PGSIZE = 0 -> ld_end (ld s) <= pa < PHYSTOP -> L_kmem ∉ held s ->
  kfree pa s = Ok tt (set_freelist pa (set_mem (store64 (fill (mem s) pa 1 PGSIZE) pa (freelist s)) s)).
Proof.
  intros Ha Hr Hl. unfold kfree, bind at 1, gets, panic_if.
  rewrite Ha. destruct (Z.ltb_spec pa (ld_end (ld s))), (Z.leb_spec PHYSTOP pa); try lia.
  cbn [negb orb Z.eqb]. unfold bind, modify, ret. rewrite acquire_eval by done.
  by erewrite release_eval.
Qed.

Lemma kfree_panics pa s :
  pa mod PGSIZE <> 0 \/ pa < ld_end (ld s) \/ PHYSTOP <= pa -> kfree pa s = Panic "kfree".
Proof.
  intros H. unfold kfree, bind at 1, gets, panic_if.
  destruct (Z.eqb_spec (pa mod PGSIZE) 0), (Z.ltb_spec pa (ld_end (ld s))),
    (Z.leb_spec PHYSTOP pa); done || lia.
Qed.

Lemma kalloc_eval s : L_kmem ∉ held s ->
  kalloc s =
    if freelist s =? 0 then Ok 0 s
    else Ok (freelist s) (set_freelist (load64 (mem s) (freelist s)) (set_mem (fill (mem s) (freelist s) 5 PGSIZE) s)).
Proof.
  intros Hl. unfold kalloc, bind, gets, when, modify, ret. rewrite acquire_eval by done. cbn.
  destruct (Z.eqb_spec (freelist s) 0) as [->|]; cbn; by erewrite release_eval.
Qed.

(** ** The free list as a list of pages *)
Fixpoint chain (m : memory) (r : Z) (l : list Z) : Prop :=
  match l with
  | [] => r = 0
  | p :: l' => r = p /\ chain m (load64 m p) l'
  end.

Definition page_ok (s : kstate) (p : Z) : Prop :=
  p mod PGSIZE = 0 /\ ld_end (ld s) <= p < PHYSTOP.

(** [l] are the free pages, [A] the pages handed out. *)
Record kmem_inv (s : kstate) (A l : list Z) : Prop := {
  ki_chain : chain (mem s) (freelist s) l;
  ki_nodup : NoDup (A ++ l);
  ki_pages : Forall (page_ok s) (A ++ l);
  ki_end : 0 < ld_end (ld s) }.

(** Two pages that differ do not overlap. *)
Lemma pages_disjoint p q : p mod PGSIZE = 0 -> q mod PGSIZE = 0 -> p <> q ->
  p + PGSIZE <= q \/ q + PGSIZE <= p.
Proof. unfold PGSIZE. intros. dlia. Qed.

(** A write inside one page leaves the chain of free pages alone. *)
Lemma chain_ext m m' r l p :
  chain m r l -> Forall (fun q => q mod PGSIZE = 0) l -> p mod PGSIZE = 0 -> p ∉ l ->
  (forall x, x < p \/ p + PGSIZE <= x -> m' x = m x) -> chain m' r l.
Proof.
  intros Hc Ha Hp Hni Hm. revert r Hc. induction l as [|q l IH]; intros r Hc; [done|].
  destruct Hc as [-> Hc]. apply Forall_cons_iff in Ha as [Hq Ha]. apply not_elem_of_cons in Hni as [Hne Hni].
  split; [done|]. assert (load64 m' q = load64 m q) as ->.
  { unfold load64. f_equal. apply load_ext. intros x Hx. apply Hm.
    destruct (pages_disjoint p q Hp Hq Hne); unfold PGSIZE in *; lia. }
  by apply IH.
Qed.

Lemma page_ok_pos s p : 0 < ld_end (ld s) -> page_ok s p -> 0 < p < 2 ^ 64.
Proof. unfold page_ok, PHYSTOP, KERNBASE. lia. Qed.

Lemma chain_head s A l : kmem_inv s A l -> freelist s = hd 0 l /\ 0 <= freelist s < 2 ^ 64.
Proof.
  intros [Hc _ Hp He]. destruct l as [|p l]; cbn in *; [rewrite Hc; lia|].
  destruct Hc as [-> _]. split; [done|]. apply Forall_app in Hp as [_ [Hp _]%Forall_cons_iff].
  pose proof (page_ok_pos s p He Hp). lia.
Qed.

Lemma kmem_aligned s A l : kmem_inv s A l -> Forall (fun q => q mod PGSIZE = 0) (A ++ l).
Proof. intros [_ _ Hp _]. eapply Forall_impl; [exact Hp|]. by intros p []. Qed.

(** [kalloc] takes the first page off the list. *)
Lemma kalloc_spec s A l (Q : Z -> kstate -> Prop) :
  kmem_inv s A l -> L_kmem ∉ held s ->
  (l = [] -> Q 0 s) ->
  (forall p l', l = p :: l' -> p ∉ A -> page_ok s p -> p <> 0 ->
     let s' := (set_freelist (load64 (mem s) p) (set_mem (fill (mem s) p 5 PGSIZE) s)) in
     kmem_inv s' (p :: A) l' -> Q p s') ->
  wp kalloc Q s.
Proof.
  intros Hinv Hl H0 H1. pose proof (kmem_aligned _ _ _ Hinv) as Hal.
  eapply wp_intro with (a := freelist s)
    (s' := if freelist s =? 0 then s else
       (set_freelist (load64 (mem s) (freelist s)) (set_mem (fill (mem s) (freelist s) 5 PGSIZE) s))).
  { rewrite kalloc_eval by done. by destruct (Z.eqb_spec (freelist s) 0) as [->|]. }
  destruct Hinv as [Hc Hnd Hp He]. destruct l as [|p l]; cbn in Hc.
  { rewrite Hc. by apply H0. }
  destruct Hc as [Hr Hc]. rewrite Hr.
  apply Forall_app in Hp as [HpA [Hpp Hpl]%Forall_cons_iff].
  apply Forall_app in Hal as [_ [Hap Hal]%Forall_cons_iff].
  pose proof (page_ok_pos s p He Hpp) as Hpos. destruct (Z.eqb_spec p 0); [lia|].
  apply NoDup_app in Hnd as (HndA & Hdis & [Hpnl Hndl]%NoDup_cons).
  assert (HpA' : p ∉ A) by (intros Hin; apply (Hdis p Hin); set_solver).
  apply (H1 p l); [done..|lia|]. split; cbn.
  - eapply chain_ext; [exact Hc|done|exact Hap|done|].
    intros x Hx. unfold fill. by rewrite bool_decide_false by lia.
  - constructor.
    + rewrite elem_of_app. tauto.
    + apply NoDup_app. split; [done|]. split; [|done]. intros x Hx Hxl. apply (Hdis x Hx). set_solver.
  - constructor; [done|]. by apply Forall_app.
  - done.
Qed.

(** [kfree] puts a page that was handed out back at the head. *)
Lemma kfree_spec s A1 A2 l p (Q : unit -> kstate -> Prop) :
  kmem_inv s (A1 ++ p :: A2) l -> L_kmem ∉ held s ->
  (let s' := (set_freelist p (set_mem (store64 (fill (mem s) p 1 PGSIZE) p (freelist s)) s)) in
   kmem_inv s' (A1 ++ A2) (p :: l) -> Q tt s') ->
  wp (kfree p) Q s.
Proof.
  intros Hinv Hl HQ. pose proof (kmem_aligned _ _ _ Hinv) as Hal.
  destruct (chain_head _ _ _ Hinv) as [Hhd Hrng]. destruct Hinv as [Hc Hnd Hp He].
  assert (Hin : p ∈ (A1 ++ p :: A2) ++ l) by set_solver.
  pose proof (proj1 (Forall_forall _ _) Hp p Hin) as [Hpa Hpr].
  eapply wp_intro; [by apply kfree_eval|]. apply HQ.
  assert (Hperm : (A1 ++ p :: A2) ++ l ≡ₚ (A1 ++ A2) ++ p :: l).
  { rewrite <-!app_assoc. cbn. rewrite <-Permutation_middle.
    rewrite <-!(Permutation_middle A2), <-(Permutation_middle A1). done. }
  assert (Hpl : p ∉ l).
  { rewrite Hperm in Hnd. apply NoDup_app in Hnd as (_ & _ & Hnd). by inversion Hnd. }
  split; cbn.
  - split; [done|]. rewrite load64_store64, u64_small by lia.
    eapply chain_ext; [exact Hc|by apply Forall_app in Hal as []|exact Hpa|done|].
    intros x Hx. unfold store64, store. rewrite length_le_bytes. unfold fill, PGSIZE in *.
    by rewrite !bool_decide_false by lia.
  - by rewrite <-Hperm.
  - by rewrite <-Hperm.
  - done.
Qed.

(** ** Boot *)
Fixpoint pages_from (p : Z) (n : nat) : list Z :=
  match n with O => [] | S n' => p :: pages_from (p + PGSIZE) n' end.

Lemma elem_of_pages_from p n q : q ∈ pages_from p n <->
  exists k, (k < n)%nat /\ q = p + Z.of_nat k * PGSIZE.
Proof.
  revert p. induction n as [|n IH]; intros p; cbn.
  - rewrite elem_of_nil. split; [done|]. intros (k & ? & _). lia.
  - rewrite elem_of_cons, IH. split.
    + intros [->|(k & Hk & ->)]; [exists 0%nat|exists (S k)]; lia.
    + intros ([|k] & Hk & ->); [left|right; exists k]; lia.
Qed.

Lemma length_pages_from p n : length (pages_from p n) = n.
Proof. revert p. by induction n as [|n IH]; intros p; cbn; [|rewrite IH]. Qed.

Lemma NoDup_pages_from p n : NoDup (pages_from p n).
Proof.
  revert p. induction n as [|n IH]; intros p; cbn; constructor; [|done].
  rewrite elem_of_pages_from. intros (k & _ & Hk). unfold PGSIZE in *. lia.
Qed.

Lemma freerange_loop_spec fuel n p e s l :
  kmem_inv s (pages_from p n) l -> L_kmem ∉ held s ->
  (n <= fuel)%nat -> p + Z.of_nat n * PGSIZE <= e < p + (Z.of_nat n + 1) * PGSIZE ->
  wp (freerange_loop fuel p e)
    (fun _ s' => kmem_inv s' [] (reverse (pages_from p n) ++ l) /\ s' = set_freelist (freelist s') (set_mem (mem s') s)) s.
Proof.
  revert fuel p s l. induction n as [|n IH]; intros fuel p s l Hinv Hl Hf He.
  - destruct fuel; cbn [freerange_loop]; [by apply wp_ret|].
    destruct (Z.leb_spec (p + PGSIZE) e); [unfold PGSIZE in *; lia|by apply wp_ret].
  - destruct fuel as [|fuel]; [lia|]. cbn [freerange_loop].
    destruct (Z.leb_spec (p + PGSIZE) e); [|unfold PGSIZE in *; lia].
    apply wp_bind. apply (kfree_spec s [] (pages_from (p + PGSIZE) n) l p); [done..|].
    intros s' Hinv'. eapply wp_mono.
    + apply IH; [exact Hinv'|exact Hl|lia|unfold PGSIZE in *; lia].
    + intros _ s'' [H1 H2]. split; [|by rewrite H2 at 1].
      cbn [pages_from]. rewrite reverse_cons, <-app_assoc. exact H1.
Qed.

(** From a boot state (an empty free list and the kernel image below [end]), [kinit]
    leaves on the free list every whole page between [end] and PHYSTOP, each exactly once,
    highest address first, changes nothing but memory, and terminates. *)
Theorem kinit_frees_all (s : kstate) (e : Z) (n : nat) :
  e = PGROUNDUP (ld_end (ld s)) -> n = Z.to_nat ((PHYSTOP - e) / PGSIZE) ->
  0 < ld_end (ld s) <= PHYSTOP -> freelist s = 0 -> L_kmem ∉ held s ->
  wp kinit (fun _ s' => kmem_inv s' [] (reverse (pages_from e n)) /\
    s' = set_freelist (freelist s') (set_mem (mem s') s)) s.
Proof.
  intros He Hn Hend Hf Hl. unfold kinit. wp_steps. unfold freerange. rewrite <-He.
  assert (Hr : e = (ld_end (ld s) + PGSIZE - 1) / PGSIZE * PGSIZE).
  { rewrite He. apply PGROUNDUP_eq; unfold PHYSTOP, KERNBASE, PGSIZE in *; lia. }
  assert (He' : ld_end (ld s) <= e <= PHYSTOP /\ e mod PGSIZE = 0).
  { rewrite Hr. unfold PHYSTOP, KERNBASE, PGSIZE in *. dlia. }
  assert (HnZ : Z.of_nat n = (PHYSTOP - e) / PGSIZE).
  { rewrite Hn, Z2Nat.id; [done|]. apply Z.div_pos; unfold PGSIZE; lia. }
  eapply wp_mono; [apply (freerange_loop_spec _ n e PHYSTOP s [])|].
  - split; rewrite ?app_nil_r.
    + done.
    + apply NoDup_pages_from.
    + apply Forall_forall. intros q (k & Hk & ->)%elem_of_pages_from.
      unfold page_ok. unfold PGSIZE in *. dlia.
    + lia.
  - done.
  - rewrite Hn. unfold PGSIZE in *. lia.
  - unfold PGSIZE in *. dlia.
  - intros _ s' [H1 H2]. by rewrite app_nil_r in H1.
Qed.

(** A boot state with the kernel image ending three pages below PHYSTOP. *)
Definition boot_state (e : Z) : kstate :=
  {| ld := mkldsyms e 0 KERNBASE 0 0 0 0 0; held := []; cur := None; procs := replicate NPROC inhabitant;
     initproc := None; nextpid := 1; mem := fun _ => 0; freelist := 0; kernel_pagetable := 0;
     tframes := fun _ => mktrapframe 0 0 0 0 0 0 0 0 0 0 0 0 0 0 0 0 0 0 0 0 0 0 0 0 0 0 0 0 0 0 0 0 0 0 0 0;
     pipes := fun _ => mkpipe (replicate 512 0) 0 0 0 0;
     bufs := replicate NBUF (mkbuf 0 0 0 0 inhabitant 0 (replicate 1024 0));
     bcache_lru := seq 0 NBUF; disk_blocks := fun _ => replicate 1024 0; disk_writes := [];
     klog := mklogstate 0 0 0 0 0 (mklogheader 0 (replicate 30 0));
     ksb := mksuperblock 0 0 0 0 0 0 0 0; itable := replicate NINODE inhabitant;
     ftable := replicate NFILE inhabitant; cons := mkconsole (replicate 128 0) 0 0 0;
     ticks := 0; output := [];
     uart_rx := []; tx_busy := 0; first := 1; devsw := replicate 10 (mkdevsw None None) |}.

Lemma kinit_frees_all_witness :
  wp kinit (fun _ s' => kmem_inv s' [] (reverse (pages_from (PHYSTOP - 8192) 2)) /\
      s' = set_freelist (freelist s') (set_mem (mem s') (boot_state (PHYSTOP - 12000))))
    (boot_state (PHYSTOP - 12000)).
Proof.
  apply (kinit_frees_all (boot_state (PHYSTOP - 12000)) (PHYSTOP - 8192) 2).
  - vm_compute; reflexivity.
  - vm_compute; reflexivity.
  - vm_compute; split; congruence.
  - reflexivity.
  - apply not_elem_of_nil.
Defined.

(** ** Sequences of allocations, frees and writes *)
Inductive aop :=
| AAlloc                       (* p = kalloc() *)
| AFree (p : Z)                (* kfree(p) of a page handed out before *)
| AWrite (p off : Z) (bs : list Z).  (* the owner of page p writes inside it *)

Definition run_aop (o : aop) : K Z :=
  match o with
  | AAlloc => kalloc
  | AFree p => kfree p;; ret 0
  | AWrite p off bs => modify (fun s => set_mem (store (mem s) (p + off) bs) s);; ret 0
  end.

(** The discipline of the callers, and the abstract allocator: [A] is the set of pages in
    use, [l] the stack of free pages. *)
Inductive aspec : aop -> list Z -> list Z -> Z -> list Z -> list Z -> Prop :=
| aspec_alloc A p l : aspec AAlloc A (p :: l) p (p :: A) l
| aspec_alloc_fail A : aspec AAlloc A [] 0 A []
| aspec_free A1 A2 p l : aspec (AFree p) (A1 ++ p :: A2) l 0 (A1 ++ A2) (p :: l)
| aspec_write A l p off bs : p ∈ A -> 0 <= off -> off + Z.of_nat (length bs) <= PGSIZE ->
    aspec (AWrite p off bs) A l 0 A l.

Inductive aspecs : list aop -> list Z -> list Z -> list Z -> list Z -> Prop :=
| aspecs_nil A l : aspecs [] A l A l
| aspecs_cons o os A l r A1 l1 A2 l2 :
    aspec o A l r A1 l1 -> aspecs os A1 l1 A2 l2 -> aspecs (o :: os) A l A2 l2.

Lemma run_aop_refines o s A l r A' l' :
  kmem_inv s A l -> held s = [] -> aspec o A l r A' l' ->
  exists s', run_aop o s = Ok r s' /\ kmem_inv s' A' l' /\ held s' = [].
Proof.
  intros Hinv Hh Hsp.
  assert (Hl : L_kmem ∉ held s) by (rewrite Hh; apply not_elem_of_nil).
  assert (Hwp : wp (run_aop o) (fun r' s' => r' = r /\ kmem_inv s' A' l' /\ held s' = []) s).
  { destruct Hsp as [A p l|A|A1 A2 p l|A l p off bs Hp Hoff Hlen]; cbn [run_aop].
    - eapply kalloc_spec; [exact Hinv|done|done|]. intros q l'' [= <- <-] _ _ _ s' Hs'. done.
    - eapply kalloc_spec; [exact Hinv|done|done|]. done.
    - apply wp_bind. eapply kfree_spec; [exact Hinv|done|]. intros s' Hs'. by wp_steps.
    - wp_steps. split; [done|]. split; [|done].
      pose proof (kmem_aligned _ _ _ Hinv) as Hal. destruct Hinv as [Hc Hnd Hpg He].
      apply Forall_app in Hal as [HalA Hall].
      pose proof (proj1 (Forall_forall _ _) HalA p Hp) as Hap. cbn in Hap.
      split; [|done..]. cbn. eapply chain_ext; [exact Hc|done|exact Hap| |].
      + apply NoDup_app in Hnd as (_ & Hd & _). by apply Hd.
      + intros x Hx. unfold store. by rewrite bool_decide_false by lia. }
  apply wp_elim in Hwp as (r' & s' & Hr & -> & H1 & H2). by exists s'.
Qed.


