(* ===== verification/Vm.v ===== *)
(** * Virtual memory (kernel/vm.c)

    Page tables live in physical memory as the hardware sees them: a page-table page holds
    512 eight-byte entries, and a page table is named by the address of its root page. *)

From S2P Require Import Prelude Spinlock State Kalloc.

Definition has (flags bit : Z) : bool := negb (Z.land flags bit =? 0).
Definition pte_addr (pt level va : Z) : Z := pt + 8 * PX level va.
Definition read_pte (a : Z) : K Z := gets (fun s => load64 (mem s) a).
Definition write_pte (a v : Z) : K unit := modify (fun s => set_mem (store64 (mem s) a v) s).
Definition zero_page (pa : Z) : K unit := modify (fun s => set_mem (fill (mem s) pa 0 PGSIZE) s).

(** The loop of [walk] over the levels above the last; [None] is [return 0]. *)
Fixpoint walk_loop (levels : list Z) (pt va : Z) (alloc : bool) : K (option Z) :=
  match levels with
  | [] => ret (Some pt)
  | level :: levels' =>
      let pte := pte_addr pt level va in
      e ← read_pte pte;
      if has e PTE_V then walk_loop levels' (PTE2PA e) va alloc
      else if negb alloc then ret None
      else
        p ← kalloc;
        if p =? 0 then ret None
        else
          zero_page p;;
          write_pte pte (Z.lor (PA2PTE p) PTE_V);;
          walk_loop levels' p va alloc
  end.

(** The address of the level-0 PTE, or 0. *)
Definition walk (pt va : Z) (alloc : bool) : K Z :=
  panic_if (MAXVA <=? va) "walk";;
  r ← walk_loop [2; 1] pt va alloc;
  match r with
  | None => ret 0
  | Some pt0 => ret (pte_addr pt0 0 va)
  end.

Definition walkaddr (pt va : Z) : K Z :=
  if MAXVA <=? va then ret 0
  else
    pte ← walk pt va false;
    if pte =? 0 then ret 0
    else
      e ← read_pte pte;
      if negb (has e PTE_V) then ret 0
      else if negb (has e PTE_U) then ret 0
      else ret (PTE2PA e).

(** The loop of [mappages]; the fuel is the number of pages. *)
Fixpoint mappages_loop (fuel : nat) (pt a last pa perm : Z) : K Z :=
  match fuel with
  | O => fault "mappages: out of fuel"
  | S fuel' =>
      pte ← walk pt a true;
      if pte =? 0 then ret (-1)
      else
        e ← read_pte pte;
        panic_if (has e PTE_V) "mappages: remap";;
        write_pte pte (Z.lor (Z.lor (PA2PTE pa) perm) PTE_V);;
        if a =? last then ret 0
        else mappages_loop fuel' pt (u64 (a + PGSIZE)) last (u64 (pa + PGSIZE)) perm
  end.

Definition mappages (pt va size pa perm : Z) : K Z :=
  panic_if (negb (va mod PGSIZE =? 0)) "mappages: va not aligned";;
  panic_if (negb (size mod PGSIZE =? 0)) "mappages: size not aligned";;
  panic_if (size =? 0) "mappages: size";;
  mappages_loop (Z.to_nat (size / PGSIZE)) pt va (u64 (va + size - PGSIZE)) pa perm.

Definition kvmmap (kpgtbl va pa size perm : Z) : K unit :=
  r ← mappages kpgtbl va size pa perm;
  panic_if (negb (r =? 0)) "kvmmap".

Definition uvmcreate : K Z :=
  pt ← kalloc;
  if pt =? 0 then ret 0 else zero_page pt;; ret pt.

Fixpoint uvmunmap_loop (fuel : nat) (pt a last : Z) (do_free : bool) : K unit :=
  match fuel with
  | O => ret tt
  | S fuel' =>
      if a <? last then
        (pte ← walk pt a false;
         if pte =? 0 then ret tt
         else
           e ← read_pte pte;
           if negb (has e PTE_V) then ret tt
           else
             when do_free (kfree (PTE2PA e));;
             write_pte pte 0);;
        uvmunmap_loop fuel' pt (u64 (a + PGSIZE)) last do_free
      else ret tt
  end.

Definition uvmunmap (pt va npages : Z) (do_free : bool) : K unit :=
  panic_if (negb (va mod PGSIZE =? 0)) "uvmunmap: not aligned";;
  uvmunmap_loop (Z.to_nat npages) pt va (u64 (va + npages * PGSIZE)) do_free.

Definition uvmdealloc (pt oldsz newsz : Z) : K Z :=
  if oldsz <=? newsz then ret oldsz
  else
    when (PGROUNDUP newsz <? PGROUNDUP oldsz)
      (let npages := s32 ((PGROUNDUP oldsz - PGROUNDUP newsz) / PGSIZE) in
       uvmunmap pt (PGROUNDUP newsz) npages true);;
    ret newsz.

Fixpoint uvmalloc_loop (fuel : nat) (pt a oldsz newsz xperm : Z) : K Z :=
  match fuel with
  | O => fault "uvmalloc: out of fuel"
  | S fuel' =>
      if a <? newsz then
        m ← kalloc;
        if m =? 0 then uvmdealloc pt a oldsz;; ret 0
        else
          zero_page m;;
          r ← mappages pt a PGSIZE m (Z.lor (Z.lor PTE_R PTE_U) xperm);
          if negb (r =? 0) then kfree m;; uvmdealloc pt a oldsz;; ret 0
          else uvmalloc_loop fuel' pt (u64 (a + PGSIZE)) oldsz newsz xperm
      else ret newsz
  end.

Definition uvmalloc (pt oldsz newsz xperm : Z) : K Z :=
  if newsz <? oldsz then ret oldsz
  else
    let oldsz := PGROUNDUP oldsz in
    uvmalloc_loop (S (Z.to_nat ((newsz - oldsz + PGSIZE) / PGSIZE))) pt oldsz oldsz newsz xperm.

(** The recursion of [freewalk] is bounded by the three levels of a page table. *)
Fixpoint freewalk (fuel : nat) (pt : Z) : K unit :=
  match fuel with
  | O => fault "freewalk: out of fuel"
  | S fuel' =>
      mfor (seq 0 512) (fun i =>
        e ← read_pte (pt + 8 * Z.of_nat i);
        if has e PTE_V && negb (has e (Z.lor (Z.lor PTE_R PTE_W) PTE_X)) then
          freewalk fuel' (PTE2PA e);;
          write_pte (pt + 8 * Z.of_nat i) 0
        else panic_if (has e PTE_V) "freewalk: leaf");;
      kfree pt
  end.

Definition uvmfree (pt size : Z) : K unit :=
  when (0 <? size) (uvmunmap pt 0 (PGROUNDUP size / PGSIZE) true);;
  freewalk 3 pt.

(** The loop of [uvmcopy]: [err] is its error exit. *)
Fixpoint uvmcopy_loop (fuel : nat) (old new i size : Z) : K Z :=
  match fuel with
  | O => fault "uvmcopy: out of fuel"
  | S fuel' =>
      if i <? size then
        let next := uvmcopy_loop fuel' old new (u64 (i + PGSIZE)) size in
        let err := uvmunmap new 0 (i / PGSIZE) true;; ret (-1) in
        pte ← walk old i false;
        if pte =? 0 then next
        else
          e ← read_pte pte;
          if negb (has e PTE_V) then next
          else
            m ← kalloc;
            if m =? 0 then err
            else
              modify (fun s => set_mem (store (mem s) m (load (mem s) (PTE2PA e) (Z.to_nat PGSIZE))) s);;
              r ← mappages new i PGSIZE m (PTE_FLAGS e);
              if negb (r =? 0) then kfree m;; err else next
      else ret 0
  end.

Definition uvmcopy (old new size : Z) : K Z :=
  uvmcopy_loop (S (Z.to_nat ((size + PGSIZE - 1) / PGSIZE))) old new 0 size.

Definition uvmclear (pt va : Z) : K unit :=
  pte ← walk pt va false;
  panic_if (pte =? 0) "uvmclear";;
  e ← read_pte pte;
  write_pte pte (Z.land e (Z.lnot PTE_U)).

Definition ismapped (pt va : Z) : K bool :=
  pte ← walk pt va false;
  if pte =? 0 then ret false
  else
    e ← read_pte pte;
    if has e PTE_V then ret true else ret false.

Definition vmfault (pt va : Z) (read : bool) : K Z :=
  i ← myproc_deref;
  p ← get_proc i;
  if sz p <=? va then ret 0
  else
    let va := PGROUNDDOWN va in
    m ← ismapped pt va;
    if m then ret 0
    else
      pa ← kalloc;
      if pa =? 0 then ret 0
      else
        zero_page pa;;
        r ← mappages (pagetable p) va PGSIZE pa (Z.lor (Z.lor PTE_W PTE_U) PTE_R);
        if negb (r =? 0) then kfree pa;; ret 0 else ret pa.

(** [copyout]: every round copies at least one byte, so [length src] rounds are enough. *)
Fixpoint copyout_loop (fuel : nat) (pt dstva : Z) (src : list Z) : K Z :=
  match src with
  | [] => ret 0
  | _ =>
  match fuel with
  | O => fault "copyout: out of fuel"
  | S fuel' =>
      let va0 := PGROUNDDOWN dstva in
      if MAXVA <=? va0 then ret (-1)
      else
        pa ← walkaddr pt va0;
        pa0 ← (if pa =? 0 then vmfault pt va0 false else ret pa);
        if pa0 =? 0 then ret (-1)
        else
          pte ← walk pt va0 false;
          e ← read_pte pte;
          if negb (has e PTE_W) then ret (-1)
          else
            let n := Z.to_nat (Z.min (PGSIZE - (dstva - va0)) (Z.of_nat (length src))) in
            modify (fun s => set_mem (store (mem s) (pa0 + (dstva - va0)) (take n src)) s);;
            copyout_loop fuel' pt (u64 (va0 + PGSIZE)) (drop n src)
  end end.
Definition copyout (pt dstva : Z) (src : list Z) : K Z := copyout_loop (length src) pt dstva src.

(** [copyin] and [copyinstr] also return the bytes they stored at [dst], on failure too. *)
Fixpoint copyin_loop (fuel : nat) (pt srcva : Z) (len : nat) (dst : list Z) : K (Z * list Z) :=
  match len with
  | O => ret (0, dst)
  | _ =>
  match fuel with
  | O => fault "copyin: out of fuel"
  | S fuel' =>
      let va0 := PGROUNDDOWN srcva in
      pa ← walkaddr pt va0;
      pa0 ← (if pa =? 0 then vmfault pt va0 false else ret pa);
      if pa0 =? 0 then ret (-1, dst)
      else
        let n := Z.to_nat (Z.min (PGSIZE - (srcva - va0)) (Z.of_nat len)) in
        bs ← gets (fun s => load (mem s) (pa0 + (srcva - va0)) n);
        copyin_loop fuel' pt (u64 (va0 + PGSIZE)) (len - n) (dst ++ bs)
  end end.
Definition copyin (pt srcva : Z) (len : nat) : K (Z * list Z) := copyin_loop len pt srcva len [].

(** The inner loop of [copyinstr]: bytes up to NUL; the flag is [got_null]. *)
Fixpoint copy_to_nul (bs : list Z) : bool * list Z :=
  match bs with
  | [] => (false, [])
  | b :: bs' =>
      if b =? 0 then (true, [0])
      else let '(g, out) := copy_to_nul bs' in (g, b :: out)
  end.
Fixpoint copyinstr_loop (fuel : nat) (pt srcva : Z) (max : nat) (dst : list Z) : K (Z * list Z) :=
  match max with
  | O => ret (-1, dst)
  | _ =>
  match fuel with
  | O => fault "copyinstr: out of fuel"
  | S fuel' =>
      let va0 := PGROUNDDOWN srcva in
      pa0 ← walkaddr pt va0;
      if pa0 =? 0 then ret (-1, dst)
      else
        let n := Z.to_nat (Z.min (PGSIZE - (srcva - va0)) (Z.of_nat max)) in
        bs ← gets (fun s => load (mem s) (pa0 + (srcva - va0)) n);
        let '(got_null, out) := copy_to_nul bs in
        if got_null then ret (0, dst ++ out)
        else copyinstr_loop fuel' pt (u64 (va0 + PGSIZE)) (max - n) (dst ++ out)
  end end.
Definition copyinstr (pt srcva : Z) (max : nat) : K (Z * list Z) :=
  copyinstr_loop max pt srcva max [].

(** ** kernel/proc.c: copies to and from a user or a kernel address *)

(** A data pointer of the kernel: a user virtual address, a physical address in the direct
    map, or a local variable, given by its bytes. *)
Inductive kptr := Uaddr (va : Z) | Kaddr (pa : Z) | Klocal (bytes : list Z).
Definition kptr_add (p : kptr) (n : Z) : kptr :=
  match p with
  | Uaddr va => Uaddr (u64 (va + n))
  | Kaddr pa => Kaddr (u64 (pa + n))
  | Klocal bs => Klocal (drop (Z.to_nat n) bs)
  end.

(** Bytes copied to a local variable are not kept here: the caller has them. *)
Definition either_copyout (dst : kptr) (src : list Z) : K Z :=
  match dst with
  | Uaddr va =>
      i ← myproc_deref; p ← get_proc i;
      copyout (pagetable p) va src
  | Kaddr pa => modify (fun s => set_mem (store (mem s) pa src) s);; ret 0
  | Klocal _ => ret 0
  end.

Definition either_copyin (src : kptr) (len : Z) : K (Z * list Z) :=
  match src with
  | Uaddr va =>
      i ← myproc_deref; p ← get_proc i;
      copyin (pagetable p) va (Z.to_nat len)
  | Kaddr pa => bs ← gets (fun s => load (mem s) pa (Z.to_nat len)); ret (0, bs)
  | Klocal bs => ret (0, take (Z.to_nat len) bs)
  end.
