(* ===== verification/Pgtbl.v ===== *)
(** * Page tables as maps (the theory of kernel/vm.c)

    The page-table pages of a page table form a tree of three levels; [ptree] gives the page
    of each node and [rep] says that physical memory holds that tree.  The page table then
    is the map from page numbers to the entries of the last level, and the routines of
    kernel/vm.c are lookups and updates of that map. *)

From S2P Require Import Prelude Spinlock State Kalloc Vm.

(** ** Page-table entries *)
Definition pa_ok (pa : Z) : Prop := pa mod PGSIZE = 0 /\ 0 <= pa < 2 ^ 56.
Definition flags_ok (f : Z) : Prop := 0 <= f < 1024.

Lemma PA2PTE_eq pa : pa_ok pa -> PA2PTE pa = pa / 4096 * 1024.
Proof.
  intros [_ H]. unfold PA2PTE. rewrite Z.shiftr_div_pow2, Z.shiftl_mul_pow2 by lia.
  change (2 ^ 12) with 4096. change (2 ^ 10) with 1024. apply u64_small. dlia.
Qed.

Lemma lor_flags a f : 0 <= a -> flags_ok f -> Z.lor (a * 1024) f = a * 1024 + f.
Proof.
  intros Ha Hf. unfold flags_ok in Hf. rewrite <-Z.lxor_lor; [symmetry; apply Z.add_nocarry_lxor|].
  all: apply Z.bits_inj'; intros n Hn; rewrite Z.land_spec, Z.bits_0;
    change 1024 with (2 ^ 10); destruct (Z.lt_ge_cases n 10) as [Hlt|Hge];
    [rewrite Z.mul_pow2_bits_low by lia; done|
     rewrite (Z.bits_above_log2 f n), andb_false_r; [done|lia|];
     destruct (Z.eq_dec f 0) as [->|]; [cbn; lia|]; apply Z.log2_lt_pow2; [lia|];
     apply Z.lt_le_trans with (2 ^ 10); [lia|]; apply Z.pow_le_mono_r; lia].
Qed.

Lemma land_low a f bit : 0 <= a -> flags_ok f -> flags_ok bit ->
  Z.land (a * 1024 + f) bit = Z.land f bit.
Proof.
  intros Ha Hf Hb. unfold flags_ok in *.
  assert (Hbit : Z.land 1023 bit = bit).
  { rewrite Z.land_comm. change 1023 with (Z.ones 10). rewrite Z.land_ones by lia.
    apply Z.mod_small. lia. }
  rewrite <-Hbit at 1. rewrite Z.land_assoc. change 1023 with (Z.ones 10).
  rewrite Z.land_ones by lia. f_equal. change (2 ^ 10) with 1024.
  rewrite Z.add_comm, Z.mod_add by lia. apply Z.mod_small. lia.
Qed.

(** The entry for physical address [pa] with flags [f]. *)
Definition mkpte (pa f : Z) : Z := Z.lor (PA2PTE pa) f.

Section Pte.
Context (pa f : Z) (Hpa : pa_ok pa) (Hf : flags_ok f).

Lemma mkpte_eq : mkpte pa f = pa / 4096 * 1024 + f.
Proof.
  unfold mkpte. rewrite PA2PTE_eq by done. apply lor_flags; [|done]. destruct Hpa. dlia.
Qed.

Lemma mkpte_range : 0 <= mkpte pa f < 2 ^ 64.
Proof. rewrite mkpte_eq. unfold flags_ok in Hf. destruct Hpa. dlia. Qed.

Lemma mkpte_pa : PTE2PA (mkpte pa f) = pa.
Proof.
  rewrite mkpte_eq. unfold PTE2PA, flags_ok in *. rewrite Z.shiftr_div_pow2, Z.shiftl_mul_pow2 by lia.
  change (2 ^ 12) with 4096. change (2 ^ 10) with 1024.
  rewrite Z.add_comm, Z.div_add, Z.div_small by lia. destruct Hpa as [Hm Hr].
  unfold PGSIZE in Hm. rewrite u64_small; dlia.
Qed.

Lemma mkpte_flags : PTE_FLAGS (mkpte pa f) = f.
Proof.
  rewrite mkpte_eq. unfold PTE_FLAGS. change 0x3FF with (Z.ones 10).
  rewrite Z.land_ones by lia. change (2 ^ 10) with 1024.
  rewrite Z.add_comm, Z.mod_add by lia. unfold flags_ok in Hf. apply Z.mod_small. lia.
Qed.

Lemma mkpte_has bit : flags_ok bit -> has (mkpte pa f) bit = has f bit.
Proof. intros Hb. unfold has. rewrite mkpte_eq, land_low; [done| |done..]. destruct Hpa. dlia. Qed.
End Pte.

(** ** Trees *)
Definition idx (i : Z) : Prop := 0 <= i < 512.

(** The root, the pages of the middle level and those of the last level. *)
Inductive node := N2 | N1 (i : Z) | N0 (i j : Z).
#[export] Instance node_eq_dec : EqDecision node.
Proof. solve_decision. Defined.
Definition ptree : Type := node -> option Z.

Definition node_ok (a : node) : Prop :=
  match a with N2 => True | N1 i => idx i | N0 i j => idx i /\ idx j end.
(** The node that entry [k] of the page of [a] points to. *)
Definition child (a : node) (k : Z) : option node :=
  match a with N2 => Some (N1 k) | N1 i => Some (N0 i k) | N0 _ _ => None end.

(** An entry that points to the next level has no permission bits. *)
Definition link (e : Z) (o : option Z) : Prop :=
  match o with
  | Some p => has e PTE_V = true /\ PTE2PA e = p /\ has e (Z.lor (Z.lor PTE_R PTE_W) PTE_X) = false
  | None => has e PTE_V = false
  end.

Record rep (m : memory) (T : ptree) : Prop := {
  rp_root : is_Some (T N2);
  rp_link : forall a b k p, T a = Some p -> child a k = Some b -> idx k ->
    link (load64 m (p + 8 * k)) (T b);
  rp_orphan : forall a b k, T a = None -> child a k = Some b -> T b = None;
  rp_range : forall a p, T a = Some p -> node_ok a;
  rp_inj : forall a b p, T a = Some p -> T b = Some p -> a = b;
  rp_page : forall a p, T a = Some p -> pa_ok p /\ 0 < p }.

(** The entry of the last level at the three indices. *)
Definition leaf (m : memory) (T : ptree) (i j k : Z) : Z :=
  match T (N0 i j) with Some q => load64 m (q + 8 * k) | None => 0 end.

(** ** Entries in different places *)
Lemma slots_disjoint p q k k' : p mod PGSIZE = 0 -> q mod PGSIZE = 0 -> idx k -> idx k' ->
  p <> q \/ k <> k' -> q + 8 * k' + 8 <= p + 8 * k \/ p + 8 * k + 8 <= q + 8 * k'.
Proof.
  intros Hp Hq Hk Hk' H. unfold idx in *. destruct (decide (p = q)) as [->|Hne]; [lia|].
  destruct (pages_disjoint p q Hp Hq Hne); unfold PGSIZE in *; lia.
Qed.

Lemma load_store_slot m p k v q k' : p mod PGSIZE = 0 -> q mod PGSIZE = 0 -> idx k -> idx k' ->
  p <> q \/ k <> k' -> load64 (store64 m (p + 8 * k) v) (q + 8 * k') = load64 m (q + 8 * k').
Proof. intros. apply load64_store64_ne. by apply slots_disjoint. Qed.

Lemma load_fill_page m p c q k' : p mod PGSIZE = 0 -> q mod PGSIZE = 0 -> idx k' -> p <> q ->
  load64 (fill m p c PGSIZE) (q + 8 * k') = load64 m (q + 8 * k').
Proof.
  intros Hp Hq Hk Hne. apply load64_fill_ne. unfold idx in Hk.
  destruct (pages_disjoint p q Hp Hq Hne); unfold PGSIZE in *; lia.
Qed.

Lemma load_fill_zero m p k : idx k -> load64 (fill m p 0 PGSIZE) (p + 8 * k) = 0.
Proof. unfold idx. intros. apply load64_fill_0; unfold PGSIZE; lia. Qed.

(** ** Lookup without allocation *)
Lemma PX_eq level va : 0 <= level -> PX level va = va / 2 ^ (12 + 9 * level) mod 512.
Proof.
  intros. unfold PX, PXSHIFT. change 0x1FF with (Z.ones 9). rewrite Z.land_ones by lia.
  rewrite Z.shiftr_div_pow2 by lia. done.
Qed.

(** The three indices determine the page. *)
Lemma PX_idx level va : 0 <= va -> 0 <= level -> idx (PX level va).
Proof.
  intros Hva Hl. unfold PX, idx. change 0x1FF with (Z.ones 9). rewrite Z.land_ones by lia.
  apply Z.mod_pos_bound. lia.
Qed.

Lemma walk_loop_node m T a p k b s alloc levels va level :
  rep m T -> mem s = m -> T a = Some p -> child a k = Some b -> k = PX level va -> idx k ->
  forall q, T b = Some q ->
  walk_loop (level :: levels) p va alloc s = walk_loop levels q va alloc s.
Proof.
  intros Hr Hm Ha Hb Hk Hi q Hq. cbn [walk_loop]. unfold bind at 1, read_pte, gets, pte_addr.
  rewrite Hm, <-Hk. pose proof (rp_link _ _ Hr a b k p Ha Hb Hi) as Hl. rewrite Hq in Hl.
  destruct Hl as [-> [-> _]]. done.
Qed.

Lemma walk_eval m T pt va s : rep m T -> mem s = m -> T N2 = Some pt -> 0 <= va < MAXVA ->
  walk pt va false s =
    Ok (match T (N0 (PX 2 va) (PX 1 va)) with
        | Some q => q + 8 * PX 0 va
        | None => 0
        end) s.
Proof.
  intros Hr Hm Hroot Hva. unfold walk, bind at 1, panic_if.
  destruct (Z.leb_spec MAXVA va); [lia|]. unfold ret at 1, bind at 1.
  pose proof (PX_idx 2 va ltac:(lia) ltac:(lia)) as H2.
  pose proof (PX_idx 1 va ltac:(lia) ltac:(lia)) as H1.
  assert (Hend : forall a p k b levels level, T a = Some p -> child a k = Some b -> k = PX level va ->
    idx k -> T b = None -> walk_loop (level :: levels) p va false s = Ok None s).
  { intros a p k b levels level Ha Hb Hk Hi Hn. cbn [walk_loop].
    unfold bind at 1, read_pte, gets, pte_addr. rewrite Hm, <-Hk.
    pose proof (rp_link _ _ Hr a b k p Ha Hb Hi) as Hl. rewrite Hn in Hl. cbn in Hl. by rewrite Hl. }
  destruct (T (N1 (PX 2 va))) as [p1|] eqn:E1.
  - rewrite (walk_loop_node m T N2 pt (PX 2 va) (N1 (PX 2 va))) with (q := p1) by done.
    destruct (T (N0 (PX 2 va) (PX 1 va))) as [p0|] eqn:E0.
    + rewrite (walk_loop_node m T (N1 (PX 2 va)) p1 (PX 1 va) (N0 (PX 2 va) (PX 1 va))) with (q := p0) by done.
      done.
    + erewrite (Hend (N1 (PX 2 va))) by done. done.
  - erewrite (Hend N2) by done. rewrite (rp_orphan _ _ Hr (N1 (PX 2 va)) _ (PX 1 va) E1 eq_refl). done.
Qed.

(** ** Growing the tree *)
Definition tree_add (b : node) (p : Z) (T : ptree) : ptree :=
  fun x => if decide (x = b) then Some p else T x.

Lemma child_inj a k a' k' b : child a k = Some b -> child a' k' = Some b -> a = a' /\ k = k'.
Proof. destruct a, a'; cbn; intros [= <-] [=]; subst; done. Qed.
Lemma child_not_leaf a k b i j : child a k = Some b -> a <> N0 i j.
Proof. by destruct a. Qed.
Lemma child_irrefl a k : child a k <> Some a.
Proof. by destruct a. Qed.

Lemma PTE_V_ok : flags_ok PTE_V.
Proof. unfold flags_ok. split; [done|reflexivity]. Qed.

Section Grow.
Context (m m1 : memory) (T : ptree) (a b : node) (k pa p : Z).
Context (Hr : rep m T) (Ha : T a = Some pa) (Hb : child a k = Some b) (Hk : idx k).
Context (Hn : T b = None) (Hob : node_ok b) (Hp : pa_ok p) (Hp0 : 0 < p).
Context (Hfresh : forall c, T c <> Some p).
Context (Hm1 : forall x, x < p \/ p + PGSIZE <= x -> m1 x = m x).
Let m' := store64 (fill m1 p 0 PGSIZE) (pa + 8 * k) (mkpte p PTE_V).

Let Hpa : pa mod PGSIZE = 0 /\ pa <> p.
Proof.
  destruct (rp_page _ _ Hr a pa Ha) as [[? _] _]. split; [done|]. intros ->. by apply (Hfresh a).
Qed.

Lemma grow_load q k' : q mod PGSIZE = 0 -> idx k' -> q <> p -> q <> pa \/ k' <> k ->
  load64 m' (q + 8 * k') = load64 m (q + 8 * k').
Proof.
  intros Hq Hk' Hqp Hne. unfold m'. destruct Hpa as [Hpa1 _]. destruct Hp as [Hp1 _].
  rewrite load_store_slot by (done || destruct Hne; auto).
  rewrite load_fill_page by auto. unfold load64. f_equal. apply load_ext. intros x Hx. apply Hm1.
  unfold idx in Hk'. destruct (pages_disjoint q p Hq Hp1 Hqp); unfold PGSIZE in *; lia.
Qed.

Lemma grow_load_new k' : idx k' -> load64 m' (p + 8 * k') = 0.
Proof.
  intros Hk'. unfold m'. destruct Hpa as [Hpa1 Hpa2]. destruct Hp as [Hp1 _].
  rewrite load_store_slot by auto. by apply load_fill_zero.
Qed.

Lemma grow_rep : rep m' (tree_add b p T).
Proof.
  unfold tree_add. split.
  - case_decide; [done|]. apply Hr.
  - intros a' b' k' p' Ha' Hb' Hk'. case_decide as Hab.
    + injection Ha' as <-. subst a'. rewrite grow_load_new by done.
      rewrite decide_False by (intros ->; by eapply child_irrefl).
      rewrite (rp_orphan _ _ Hr b b' k' Hn Hb'). done.
    + destruct (decide (b' = b)) as [->|Hbb].
      * destruct (child_inj _ _ _ _ _ Hb Hb') as [<- <-]. rewrite Ha in Ha'. injection Ha' as <-.
        unfold m'. rewrite load64_store64, u64_small by (apply mkpte_range; [done|apply PTE_V_ok]).
        split; [by rewrite mkpte_has by (done || apply PTE_V_ok)|]. split; [by apply mkpte_pa, PTE_V_ok|].
        by rewrite mkpte_has by (done || apply PTE_V_ok || (split; done)).
      * rewrite grow_load; [by eapply rp_link|apply (rp_page _ _ Hr a' p' Ha')|done| |].
        { intros ->. by apply (Hfresh a'). }
        { destruct (decide (p' = pa)) as [->|]; [|by left]. right. intros ->.
          rewrite (rp_inj _ _ Hr a' a pa Ha' Ha) in Hb'. congruence. }
  - intros a' b' k' Ha' Hb'. case_decide; [done|]. case_decide as Hbb; [|by eapply rp_orphan].
    subst b'. destruct (child_inj _ _ _ _ _ Hb Hb') as [<- <-]. congruence.
  - intros a' p'. case_decide; [by subst|]. apply Hr.
  - intros a' b' p'. case_decide as Ea; case_decide as Eb; intros E1 E2.
    + congruence.
    + destruct (Hfresh b'). congruence.
    + destruct (Hfresh a'). congruence.
    + by eapply rp_inj.
  - intros a' p'. case_decide; [by intros [= <-]|]. apply Hr.
Qed.

Lemma grow_leaf i j k' : idx k' -> leaf m' (tree_add b p T) i j k' = leaf m T i j k'.
Proof.
  intros Hk'. unfold leaf, tree_add. case_decide as Hij.
  - rewrite grow_load_new by done. by rewrite Hij, Hn.
  - destruct (T (N0 i j)) as [q|] eqn:E; [|done].
    apply grow_load; [apply (rp_page _ _ Hr _ q E)|done| |].
    + intros ->. by apply (Hfresh (N0 i j)).
    + left. intros ->. apply (child_not_leaf a k b i j Hb). by apply (rp_inj _ _ Hr _ _ pa).
Qed.

Lemma grow_mem x : (x < p \/ p + PGSIZE <= x) -> (x < pa \/ pa + PGSIZE <= x) -> m' x = m x.
Proof using Hk Hm1.
  intros Hx Hx'. unfold m'. clear - Hk Hm1 Hx Hx'. unfold store64, store. rewrite length_le_bytes. unfold fill, idx, PGSIZE in *.
  rewrite !bool_decide_false by lia. by apply Hm1.
Qed.
End Grow.

(** ** A page table among the allocated pages *)

(** [A] are the pages that the allocator has handed out, [l] the free ones. *)
Record vmctx (s : kstate) (T : ptree) (A l : list Z) : Prop := {
  vc_kmem : kmem_inv s A l;
  vc_rep : rep (mem s) T;
  vc_in : forall a p, T a = Some p -> p ∈ A;
  vc_lock : L_kmem ∉ held s }.

(** From [s] to [s'] the tree may have grown by fresh pages, for addresses below [MAXVA], and
    nothing else was allocated; the allocated pages that are not of the tree are unchanged. *)
Record kept (s : kstate) (T : ptree) (A : list Z) (s' : kstate) (T' : ptree) (A' : list Z) : Prop := {
  kp_tree : forall a p, T a = Some p -> T' a = Some p;
  kp_alloc : forall p, p ∈ A -> p ∈ A';
  kp_new : forall p, p ∈ A' -> p ∈ A \/ exists a, T' a = Some p;
  kp_frames : forall p, p ∈ A -> (forall a, T a <> Some p) ->
    (forall a, T' a <> Some p) /\ forall x, p <= x < p + PGSIZE -> mem s' x = mem s x;
  kp_frame : s' = set_freelist (freelist s') (set_mem (mem s') s);
  kp_low : forall i j p, T' (N0 i j) = Some p -> T (N0 i j) = Some p \/ i < 256 }.

(** And the entries of the last level are unchanged too. *)
Record grew (s : kstate) (T : ptree) (A : list Z) (s' : kstate) (T' : ptree) (A' : list Z) : Prop := {
  gr_kept : kept s T A s' T' A';
  gr_leaf : forall i j k, idx k -> leaf (mem s') T' i j k = leaf (mem s) T i j k }.

Lemma kept_refl s T A : kept s T A s T A.
Proof. split; try done; by left. Qed.
Lemma kept_trans s1 T1 A1 s2 T2 A2 s3 T3 A3 :
  kept s1 T1 A1 s2 T2 A2 -> kept s2 T2 A2 s3 T3 A3 -> kept s1 T1 A1 s3 T3 A3.
Proof.
  intros G H. split.
  - intros a p Ha. by apply H, G.
  - intros p Hp. by apply H, G.
  - intros p [Hp|Hp]%(kp_new _ _ _ _ _ _ H); [|by right].
    destruct (kp_new _ _ _ _ _ _ G p Hp) as [?|[a Ha]]; [by left|]. right. exists a. by apply H.
  - intros p Hp HT. destruct (kp_frames _ _ _ _ _ _ G p Hp HT) as [H1 H2].
    destruct (kp_frames _ _ _ _ _ _ H p (kp_alloc _ _ _ _ _ _ G p Hp) H1) as [H3 H4].
    split; [done|]. intros x Hx. by rewrite H4, H2.
  - rewrite (kp_frame _ _ _ _ _ _ H) at 1. rewrite (kp_frame _ _ _ _ _ _ G) at 1. done.
  - intros i j p [Hp|?]%(kp_low _ _ _ _ _ _ H); [|by right]. by apply (kp_low _ _ _ _ _ _ G).
Qed.
Lemma grew_refl s T A : grew s T A s T A.
Proof. split; [apply kept_refl|done]. Qed.
Lemma grew_trans s1 T1 A1 s2 T2 A2 s3 T3 A3 :
  grew s1 T1 A1 s2 T2 A2 -> grew s2 T2 A2 s3 T3 A3 -> grew s1 T1 A1 s3 T3 A3.
Proof.
  intros [G G'] [H H']. split; [by eapply kept_trans|].
  intros i j k Hk. by rewrite H', G'.
Qed.

(** The new pages of the tree come from the free list, and are those of the nodes in [P]. *)
Record spends (P : node -> Prop) (T : ptree) (A l : list Z) (T' : ptree) (A' l' : list Z) : Prop := {
  sp_pages : A' ++ l' ≡ₚ A ++ l;
  sp_nodes : forall b p, T' b = Some p -> T b = Some p \/ P b }.

Lemma spends_refl P T A l : spends P T A l T A l.
Proof. split; [done|by left]. Qed.
Lemma spends_trans P T1 A1 l1 T2 A2 l2 T3 A3 l3 :
  spends P T1 A1 l1 T2 A2 l2 -> spends P T2 A2 l2 T3 A3 l3 -> spends P T1 A1 l1 T3 A3 l3.
Proof.
  intros [H1 H2] [H3 H4]. split; [by rewrite H3|]. intros b p [?|?]%H4; [by apply H2|by right].
Qed.
Lemma spends_mono (P P' : node -> Prop) T A l T' A' l' : (forall b, P b -> P' b) ->
  spends P T A l T' A' l' -> spends P' T A l T' A' l'.
Proof. intros HP [H1 H2]. split; [done|]. intros b p [?|?]%H2; auto. Qed.

Lemma page_ok_pa s p : 0 < ld_end (ld s) -> page_ok s p -> pa_ok p /\ 0 < p.
Proof. intros He [Hm Hr]. unfold pa_ok, PHYSTOP, KERNBASE in *. repeat split; try done; lia. Qed.

Lemma ctx_page s T A l p : vmctx s T A l -> p ∈ A -> pa_ok p /\ 0 < p /\ page_ok s p.
Proof.
  intros C Hp. destruct (vc_kmem _ _ _ _ C) as [_ _ HF He]. rewrite Forall_forall in HF.
  assert (page_ok s p) by (apply HF; set_solver). destruct (page_ok_pa s p He H). done.
Qed.

(** One level of [walk] with allocation: the page of the next level, perhaps a new one; or
    nothing, when there is no memory. *)
Lemma walk_level s T A l a b k pa level levels va Q :
  vmctx s T A l -> T a = Some pa -> child a k = Some b -> k = PX level va -> idx k -> node_ok b ->
  (forall i j, b = N0 i j -> i < 256) ->
  (forall q s' T' A' l', vmctx s' T' A' l' -> grew s T A s' T' A' -> spends (eq b) T A l T' A' l' ->
     T' b = Some q -> wp (walk_loop levels q va true) Q s') ->
  (l = [] -> Q None s) ->
  wp (walk_loop (level :: levels) pa va true) Q s.
Proof.
  intros C Ha Hb Hk Hi Hob Hlow Hok Hno. pose proof (vc_rep _ _ _ _ C) as Hr.
  pose proof (rp_link _ _ Hr a b k pa Ha Hb Hi) as Hl. cbn [walk_loop].
  apply wp_bind, wp_gets. unfold pte_addr. rewrite <-Hk.
  destruct (T b) as [q|] eqn:Eb.
  { destruct Hl as [-> [-> _]]. apply (Hok q s T A l C (grew_refl _ _ _) (spends_refl _ _ _ _) Eb). }
  cbn in Hl. rewrite Hl. cbn [negb].
  apply wp_bind. apply (kalloc_spec s A l); [apply C|apply C| |].
  { intros ->. cbn. apply wp_ret. by apply Hno. }
  intros p l' -> HpA Hpok Hp0 s1 Hk1. destruct (Z.eqb_spec p 0); [done|].
  destruct (page_ok_pa s p (ki_end _ _ _ (vc_kmem _ _ _ _ C)) Hpok) as [Hppa Hppos].
  assert (Hfresh : forall c, T c <> Some p) by (intros c Hc; by apply HpA, (vc_in _ _ _ _ C c)).
  unfold zero_page, write_pte. apply wp_bind, wp_modify. apply wp_bind, wp_modify.
  fold (mkpte p PTE_V).
  set (s2 := set_mem _ _).
  assert (Hm1 : forall x, x < p \/ p + PGSIZE <= x -> mem s1 x = mem s x).
  { intros x Hx. cbn. unfold fill. by rewrite bool_decide_false by lia. }
  assert (Hpal : pa mod PGSIZE = 0 /\ pa ∈ A).
  { split; [apply (rp_page _ _ Hr a pa Ha)|by eapply (vc_in _ _ _ _ C)]. }
  apply (Hok p s2 (tree_add b p T) (p :: A) l').
  - split.
    + destruct Hk1 as [Hch Hnd Hpg He]. split; try done. cbn [mem freelist s2 set_mem].
      apply Forall_app in Hpg as [_ Hpl].
      assert (Hal : Forall (fun q => q mod PGSIZE = 0) l') by (eapply Forall_impl; [exact Hpl|by intros ? []]).
      apply NoDup_app in Hnd as (_ & Hd & _).
      eapply (chain_ext (fill (mem s1) p 0 PGSIZE) _ _ _ pa); [|done|apply Hpal| |].
      * eapply (chain_ext (mem s1) _ _ _ p); [exact Hch|done|apply Hpok|apply Hd; by left|].
        intros x Hx. unfold fill at 1. by rewrite bool_decide_false by lia.
      * apply Hd. right. apply Hpal.
      * intros x Hx. unfold store64, store. rewrite length_le_bytes. unfold idx, PGSIZE in *.
        by rewrite bool_decide_false by lia.
    + by apply (grow_rep (mem s) (mem s1) T a b k pa p).
    + intros c q. unfold tree_add. case_decide; [intros [= <-]; by left|].
      intros Hq. right. by eapply (vc_in _ _ _ _ C).
    + apply C.
  - split; [|intros i j k' Hk'; by apply (grow_leaf (mem s) (mem s1) T a b k pa p)]. split.
    + intros c q Hq. unfold tree_add. case_decide; [by subst; congruence|done].
    + intros q Hq. by right.
    + intros q [->|Hq]%elem_of_cons; [right|by left]. exists b. unfold tree_add. by rewrite decide_True.
    + intros q Hq HT. assert (q <> p) by congruence. split.
      * intros c. unfold tree_add. case_decide; [congruence|apply HT].
      * intros x Hx. assert (Hqa : q mod PGSIZE = 0) by (apply (ctx_page _ _ _ _ _ C Hq)).
        assert (q <> pa) by (intros ->; by apply (HT a)).
        destruct (pages_disjoint q p Hqa (proj1 Hpok)); [done| |];
          destruct (pages_disjoint q pa Hqa (proj1 Hpal)); try done;
          apply (grow_mem (mem s) (mem s1) k pa p Hi Hm1); lia.
    + done.
    + intros i j q. unfold tree_add. case_decide as E; [intros _; right; by apply (Hlow i j)|by left].
  - split; [by rewrite <-Permutation_middle|]. intros c q. unfold tree_add. case_decide; [by right|by left].
  - unfold tree_add. by rewrite decide_True.
Qed.

(** The nodes that the entry for [va] needs. *)
Definition path_to (va : Z) (b : node) : Prop := b = N1 (PX 2 va) \/ b = N0 (PX 2 va) (PX 1 va).

Lemma walk_alloc_spec s T A l pt va Q :
  vmctx s T A l -> T N2 = Some pt -> 0 <= va < MAXVA ->
  (forall q s' T' A' l', vmctx s' T' A' l' -> grew s T A s' T' A' ->
     spends (path_to va) T A l T' A' l' -> T' (N0 (PX 2 va) (PX 1 va)) = Some q -> Q (q + 8 * PX 0 va) s') ->
  (forall s' T' A', vmctx s' T' A' [] -> grew s T A s' T' A' -> spends (path_to va) T A l T' A' [] -> Q 0 s') ->
  wp (walk pt va true) Q s.
Proof.
  intros C Hroot Hva Hok Hno. unfold walk, panic_if.
  destruct (Z.leb_spec MAXVA va); [lia|]. apply wp_bind, wp_ret, wp_bind.
  pose proof (PX_idx 2 va ltac:(lia) ltac:(lia)) as H2.
  pose proof (PX_idx 1 va ltac:(lia) ltac:(lia)) as H1.
  assert (Htop : PX 2 va < 256).
  { change MAXVA with (2 ^ 38) in Hva. rewrite PX_eq by lia. change (2 ^ (12 + 9 * 2)) with (2 ^ 30). dlia. }
  eapply (walk_level s T A l N2 (N1 (PX 2 va))); try done.
  - intros p1 s1 T1 A1 l1 C1 G1 P1%(spends_mono _ (path_to va)) Hp1; [|by left].
    eapply (walk_level s1 T1 A1 l1 (N1 (PX 2 va)) (N0 (PX 2 va) (PX 1 va))); try done.
    + by intros i j [= <- _].
    + intros p0 s0 T0 A0 l0 C0 G0 P0%(spends_mono _ (path_to va)) Hp0; [|by right]. cbn [walk_loop]. apply wp_ret, wp_ret.
      eapply Hok; [done| | |done]; [by eapply grew_trans|by eapply spends_trans].
    + intros ->. apply wp_ret. by eapply Hno.
  - intros ->. apply wp_ret. eapply Hno; [done|apply grew_refl|apply spends_refl].
Qed.

(** ** The page table as a map from virtual addresses to entries *)
Definition pte_at (m : memory) (T : ptree) (va : Z) : Z := leaf m T (PX 2 va) (PX 1 va) (PX 0 va).

Lemma PX_inj va va' : 0 <= va < MAXVA -> 0 <= va' < MAXVA ->
  PX 2 va = PX 2 va' -> PX 1 va = PX 1 va' -> PX 0 va = PX 0 va' -> va / PGSIZE = va' / PGSIZE.
Proof.
  rewrite !PX_eq by lia. change MAXVA with (2 ^ 38). unfold PGSIZE.
  assert (Hdec : forall x, 0 <= x < 2 ^ 38 ->
    x / 4096 = x / 2 ^ (12 + 9 * 2) mod 512 * 2 ^ 18 + x / 2 ^ (12 + 9 * 1) mod 512 * 512
               + x / 2 ^ (12 + 9 * 0) mod 512).
  { intros x Hx. change (2 ^ (12 + 9 * 2)) with (4096 * 512 * 512).
    change (2 ^ (12 + 9 * 1)) with (4096 * 512). change (2 ^ (12 + 9 * 0)) with 4096.
    rewrite <-!Z.div_div by lia. generalize (Z.div_lt_upper_bound x 4096 (2 ^ 26) ltac:(lia) ltac:(lia)).
    generalize (Z.div_pos x 4096 ltac:(lia) ltac:(lia)). generalize (x / 4096). intros y H1 H2.
    change (2 ^ 26) with (512 * 512 * 256) in H2. change (2 ^ 18) with (512 * 512). dlia. }
  intros Hva Hva' H2 H1 H0. rewrite (Hdec va), (Hdec va') by done. congruence.
Qed.

Lemma PX_page level va : 0 <= va -> 0 <= level -> PX level (va - va mod PGSIZE) = PX level va.
Proof.
  intros Hva Hl. rewrite !PX_eq by lia. f_equal. rewrite Z.pow_add_r by lia.
  rewrite <-!Z.div_div by lia. f_equal. unfold PGSIZE. change (2 ^ 12) with 4096. dlia.
Qed.

Lemma pte_at_page m T va : 0 <= va -> pte_at m T (va - va mod PGSIZE) = pte_at m T va.
Proof. intros. unfold pte_at. by rewrite !PX_page by lia. Qed.

Lemma pte_idx va : 0 <= va -> idx (PX 0 va) /\ idx (PX 1 va) /\ idx (PX 2 va).
Proof. intros. repeat split; apply PX_idx; lia. Qed.

Lemma grew_pte s T A s' T' A' va : grew s T A s' T' A' -> 0 <= va ->
  pte_at (mem s') T' va = pte_at (mem s) T va.
Proof. intros G Hva. apply (gr_leaf _ _ _ _ _ _ G). apply PX_idx; lia. Qed.

(** The shape of the tree does not depend on the memory. *)
Lemma rep_relink m m' T : rep m T ->
  (forall a b k p, T a = Some p -> child a k = Some b -> idx k ->
     load64 m' (p + 8 * k) = load64 m (p + 8 * k)) -> rep m' T.
Proof.
  intros [H1 H2 H3 H4 H5 H6] Hl. split; [done| |done..].
  intros a b k p Ha Hb Hk. rewrite (Hl a b k p Ha Hb Hk). by eapply H2.
Qed.

(** A memory that agrees on the pages of the tree holds the same tree. *)
Lemma rep_ext m m' T : rep m T ->
  (forall a p x, T a = Some p -> p <= x < p + PGSIZE -> m' x = m x) ->
  rep m' T /\ forall va, 0 <= va -> pte_at m' T va = pte_at m T va.
Proof.
  intros Hr Hm.
  assert (Hload : forall a p k, T a = Some p -> idx k -> load64 m' (p + 8 * k) = load64 m (p + 8 * k)).
  { intros a p k Ha Hk. unfold load64. f_equal. apply load_ext. intros x Hx. apply (Hm a p); [done|].
    unfold idx, PGSIZE in *. lia. }
  split.
  - apply (rep_relink m); [done|]. intros a b k p Ha _ Hk. by apply (Hload a).
  - intros va Hva. unfold pte_at, leaf. destruct (T _) as [q|] eqn:E; [|done].
    apply (Hload _ q _ E), PX_idx; lia.
Qed.

(** An entry of the last level is overwritten. *)
Section SetLeaf.
Context (s : kstate) (T : ptree) (A l : list Z) (va q e : Z).
Context (C : vmctx s T A l) (Hva : 0 <= va < MAXVA).
Context (Hq : T (N0 (PX 2 va) (PX 1 va)) = Some q) (He : 0 <= e < 2 ^ 64).
Let s' := set_mem (store64 (mem s) (q + 8 * PX 0 va) e) s.

Let Hout x : x < q \/ q + PGSIZE <= x -> mem s' x = mem s x.
Proof.
  intros Hx. destruct (pte_idx va ltac:(lia)) as [H0 _]. cbn [mem s' set_mem]. unfold store64, store.
  rewrite length_le_bytes. unfold idx, PGSIZE in *. by rewrite bool_decide_false by lia.
Qed.

Lemma set_leaf_ctx : vmctx s' T A l.
Proof.
  pose proof (vc_rep _ _ _ _ C) as Hr. destruct (pte_idx va ltac:(lia)) as (H0 & H1 & H2).
  destruct (rp_page _ _ Hr _ q Hq) as [[Hqa _] _].
  assert (HqA : q ∈ A) by (by eapply (vc_in _ _ _ _ C)).
  split; [| |apply (vc_in _ _ _ _ C)|apply (vc_lock _ _ _ _ C)].
  - pose proof (kmem_aligned _ _ _ (vc_kmem _ _ _ _ C)) as Hal.
    destruct (vc_kmem _ _ _ _ C) as [Hch Hnd Hpg Hend]. split; try done.
    apply Forall_app in Hal as [_ Hal]. apply NoDup_app in Hnd as (_ & Hd & _).
    eapply chain_ext; [exact Hch|done|exact Hqa|by apply Hd|exact Hout].
  - apply (rep_relink (mem s)); [done|]. intros a b k p Ha Hb Hk. cbn [mem s' set_mem].
    destruct (rp_page _ _ Hr _ p Ha) as [[Hpa _] _]. apply load_store_slot; [done..|].
    left. intros <-. rewrite (rp_inj _ _ Hr _ _ q Ha Hq) in Hb. done.
Qed.

Lemma set_leaf_pte va' : 0 <= va' < MAXVA ->
  pte_at (mem s') T va' = if decide (va' / PGSIZE = va / PGSIZE) then e else pte_at (mem s) T va'.
Proof.
  intros Hva'. pose proof (vc_rep _ _ _ _ C) as Hr. destruct (pte_idx va ltac:(lia)) as (H0 & H1 & H2).
  destruct (pte_idx va' ltac:(lia)) as (H0' & H1' & H2').
  destruct (rp_page _ _ Hr _ q Hq) as [[Hqa _] _].
  case_decide as Heq.
  - assert (Hsame : forall lv, 0 <= lv -> PX lv va' = PX lv va).
    { intros lv Hlv. rewrite <-(PX_page lv va), <-(PX_page lv va') by lia. f_equal. unfold PGSIZE in *. dlia. }
    unfold pte_at, leaf. rewrite !Hsame, Hq by lia. cbn [mem s' set_mem].
    rewrite load64_store64. by apply u64_small.
  - unfold pte_at, leaf. destruct (T (N0 (PX 2 va') (PX 1 va'))) as [q'|] eqn:E; [|done].
    destruct (rp_page _ _ Hr _ q' E) as [[Hqa' _] _]. cbn [mem s' set_mem].
    rewrite load_store_slot; [done..|]. destruct (decide (q = q')) as [<-|]; [|by left]. right.
    intros E0. apply Heq. pose proof (rp_inj _ _ Hr _ _ q Hq E) as [= E2 E1].
    symmetry. by apply PX_inj.
Qed.

Lemma set_leaf_frames p x : p ∈ A -> (forall a, T a <> Some p) -> p <= x < p + PGSIZE ->
  mem s' x = mem s x.
Proof.
  intros Hp HT Hx. apply Hout. destruct (rp_page _ _ (vc_rep _ _ _ _ C) _ q Hq) as [[Hqa _] _].
  destruct (ctx_page _ _ _ _ _ C Hp) as [[Hpa _] _].
  destruct (pages_disjoint p q Hpa Hqa); [|lia..]. intros ->. by apply (HT _ Hq).
Qed.
End SetLeaf.

Lemma set_leaf_kept s T A l va q e : vmctx s T A l -> 0 <= va < MAXVA ->
  T (N0 (PX 2 va) (PX 1 va)) = Some q ->
  kept s T A (set_mem (store64 (mem s) (q + 8 * PX 0 va) e) s) T A.
Proof.
  intros C Hva Hq. split; [done|done|by left| |done|by left]. intros p Hp HT. split; [done|]. intros x Hx.
  by apply (set_leaf_frames s T A l va q e C Hva Hq p).
Qed.

(** ** [mappages] *)
(** The first [n] pages from [va] map to the frames from [pa] on, with flags [f]. *)
Definition map_range (va n pa f : Z) (old : Z -> Z) (va' : Z) : Z :=
  if decide (va <= va' < va + n * PGSIZE) then mkpte (pa + (va' / PGSIZE * PGSIZE - va)) f else old va'.

Lemma flags_lor a b : flags_ok a -> flags_ok b -> flags_ok (Z.lor a b).
Proof.
  unfold flags_ok. intros [Ha Ha'] [Hb Hb']. split; [by apply Z.lor_nonneg|].
  change 1024 with (2 ^ 10) in *.
  destruct (Z.eq_dec (Z.lor a b) 0) as [->|Hne]; [lia|].
  assert (0 <= Z.lor a b) by (by apply Z.lor_nonneg).
  apply Z.log2_lt_pow2; [lia|]. rewrite Z.log2_lor by lia.
  apply Z.max_lub_lt; (destruct (Z.eq_dec a 0) as [->|]; destruct (Z.eq_dec b 0) as [->|]);
    try (cbn; lia); apply Z.log2_lt_pow2; lia.
Qed.

Lemma read_leaf m T va q : T (N0 (PX 2 va) (PX 1 va)) = Some q -> load64 m (q + 8 * PX 0 va) = pte_at m T va.
Proof. intros Hq. unfold pte_at, leaf. by rewrite Hq. Qed.

Lemma leaf_addr_pos m T va q : rep m T -> 0 <= va -> T (N0 (PX 2 va) (PX 1 va)) = Some q ->
  q + 8 * PX 0 va <> 0.
Proof.
  intros Hr Hva Hq. destruct (rp_page _ _ Hr _ q Hq) as [_ ?].
  pose proof (PX_idx 0 va Hva ltac:(lia)) as Hi. unfold idx in Hi. lia.
Qed.

Section Mappages.
Context (pt perm : Z) (Hperm : flags_ok perm).
Let f := Z.lor perm PTE_V.

Let Hf : flags_ok f.
Proof. apply flags_lor; [done|apply PTE_V_ok]. Qed.

(** The nodes that the [n] pages from [a] need. *)
Definition paths (a n : Z) (b : node) : Prop := exists i, 0 <= i < n /\ path_to (a + i * PGSIZE) b.

Definition map_post (s : kstate) (T : ptree) (A l : list Z) (a pa n r : Z) (s' : kstate) : Prop :=
  exists T' A' l' d, vmctx s' T' A' l' /\ kept s T A s' T' A' /\ spends (paths a n) T A l T' A' l' /\
    (r = 0 /\ d = n \/ r = -1 /\ 0 <= d < n /\ l' = []) /\
    forall va, 0 <= va < MAXVA ->
      pte_at (mem s') T' va = map_range a d pa f (pte_at (mem s) T) va.

Lemma map_range_0 a pa old va : map_range a 0 pa f old va = old va.
Proof. unfold map_range. by rewrite decide_False by (unfold PGSIZE; lia). Qed.

(** One page mapped, then [d] more. *)
Lemma map_range_S a pa old e va d : a mod PGSIZE = 0 -> 0 <= d -> e = mkpte pa f ->
  map_range (a + PGSIZE) d (pa + PGSIZE) f (fun v => if decide (v / PGSIZE = a / PGSIZE) then e else old v) va =
  map_range a (d + 1) pa f old va.
Proof.
  intros Ha Hd ->. unfold map_range, PGSIZE in *.
  repeat case_decide; try (exfalso; dlia); try done; f_equal; dlia.
Qed.

(** The page at [a] is mapped to [pa]; or there is no memory for the tree. *)
Lemma map_page s T A l a pa k Q :
  vmctx s T A l -> T N2 = Some pt -> 0 <= a < MAXVA -> pa_ok pa ->
  has (pte_at (mem s) T a) PTE_V = false ->
  (forall s1 T1 A1, vmctx s1 T1 A1 [] -> grew s T A s1 T1 A1 -> spends (path_to a) T A l T1 A1 [] -> Q (-1) s1) ->
  (forall s1 T1 A1 l1, vmctx s1 T1 A1 l1 -> kept s T A s1 T1 A1 -> spends (path_to a) T A l T1 A1 l1 ->
     (forall va, 0 <= va < MAXVA -> pte_at (mem s1) T1 va =
        if decide (va / PGSIZE = a / PGSIZE) then mkpte pa f else pte_at (mem s) T va) ->
     wp k Q s1) ->
  wp (pte ← walk pt a true;
      if pte =? 0 then ret (-1)
      else
        e ← read_pte pte;
        panic_if (has e PTE_V) "mappages: remap";;
        write_pte pte (Z.lor (Z.lor (PA2PTE pa) perm) PTE_V);;
        k) Q s.
Proof.
  intros C Hroot Ha Hpa Hfree Hno Hok. apply wp_bind.
  apply (walk_alloc_spec s T A l pt a); [done..| |].
  2:{ intros s1 T1 A1 C1 G1 P1. cbn. by eapply Hno. }
  intros q s1 T1 A1 l1 C1 G1 P1 Hq. pose proof (vc_rep _ _ _ _ C1) as Hr1.
  destruct (Z.eqb_spec (q + 8 * PX 0 a) 0) as [E|_].
  { destruct (leaf_addr_pos (mem s1) T1 a q Hr1 (proj1 Ha) Hq E). }
  apply wp_bind, wp_gets. rewrite (read_leaf _ T1) by done.
  rewrite (grew_pte _ _ _ _ _ _ a G1), Hfree by lia. apply wp_bind, wp_ret, wp_bind, wp_modify.
  rewrite <-Z.lor_assoc. fold f (mkpte pa f). pose proof (mkpte_range pa f Hpa Hf) as Hrng.
  eapply Hok; [by apply set_leaf_ctx| | |].
  - eapply kept_trans; [apply G1|by eapply set_leaf_kept].
  - done.
  - intros va Hva. rewrite (set_leaf_pte s1 T1 A1 l1 a q) by done.
    by rewrite (grew_pte _ _ _ _ _ _ va G1) by lia.
Qed.

Lemma mappages_loop_S n a last pa : mappages_loop (S n) pt a last pa perm =
  (pte ← walk pt a true;
   if pte =? 0 then ret (-1)
   else
     e ← read_pte pte;
     panic_if (has e PTE_V) "mappages: remap";;
     write_pte pte (Z.lor (Z.lor (PA2PTE pa) perm) PTE_V);;
     if a =? last then ret 0
     else mappages_loop n pt (u64 (a + PGSIZE)) last (u64 (pa + PGSIZE)) perm).
Proof. done. Qed.

Lemma spends_head a n T A l T' A' l' : 0 <= n ->
  spends (path_to a) T A l T' A' l' -> spends (paths a (n + 1)) T A l T' A' l'.
Proof.
  intros Hn. apply spends_mono. intros b Hb. exists 0. split; [lia|]. by rewrite Z.mul_0_l, Z.add_0_r.
Qed.
Lemma paths_tail a n n' : n + 1 <= n' -> forall b, paths (a + PGSIZE) n b -> paths a n' b.
Proof.
  intros Hn b (i & Hi & Hb). exists (i + 1). split; [lia|]. by replace (a + (i + 1) * PGSIZE) with (a + PGSIZE + i * PGSIZE) by lia.
Qed.

Lemma mappages_loop_spec n : forall s T A l a pa,
  vmctx s T A l -> T N2 = Some pt ->
  a mod PGSIZE = 0 -> 0 <= a -> a + (Z.of_nat n + 1) * PGSIZE <= MAXVA ->
  pa mod PGSIZE = 0 -> 0 <= pa -> pa + (Z.of_nat n + 1) * PGSIZE <= 2 ^ 56 ->
  (forall i, 0 <= i <= Z.of_nat n -> has (pte_at (mem s) T (a + i * PGSIZE)) PTE_V = false) ->
  wp (mappages_loop (S n) pt a (a + Z.of_nat n * PGSIZE) pa perm)
     (map_post s T A l a pa (Z.of_nat n + 1)) s.
Proof.
  change MAXVA with (2 ^ 38).
  induction n as [|n IH]; intros s T A l a pa C Hroot Hal Ha Hend Hpal Hpa Hpend Hfree.
  all: assert (Hva : 0 <= a < MAXVA) by (change MAXVA with (2 ^ 38); unfold PGSIZE in *; lia).
  all: assert (Hpaok : pa_ok pa) by (split; unfold PGSIZE in *; lia).
  all: pose proof (Hfree 0 ltac:(lia)) as Hfree0; rewrite Z.mul_0_l, Z.add_0_r in Hfree0.
  all: rewrite mappages_loop_S; apply (map_page s T A l); [done..| |].
  1,3: intros s1 T1 A1 C1 G1 P1; exists T1, A1, [], 0; split_and!; [done|apply G1|apply spends_head; [lia|done]|right; split_and!; [done|lia|lia|done]|];
    intros va Hva'; rewrite map_range_0; eapply grew_pte; [done|lia].
  all: intros s1 T1 A1 l1 C1 K1 P1 Hpte.
  - rewrite Z.mul_0_l, Z.add_0_r, Z.eqb_refl. apply wp_ret. exists T1, A1, l1, (0 + 1).
    split_and!; [done|done|apply spends_head; [lia|done]|by left|]. intros va Hva'. rewrite Hpte by done.
    rewrite <-(map_range_S a pa _ (mkpte pa f)) by done. by rewrite map_range_0.
  - destruct (Z.eqb_spec a (a + Z.of_nat (S n) * PGSIZE)); [unfold PGSIZE in *; lia|].
    rewrite !u64_small by (unfold PGSIZE in *; lia).
    replace (a + Z.of_nat (S n) * PGSIZE) with (a + PGSIZE + Z.of_nat n * PGSIZE) by lia.
    eapply wp_mono; [apply (IH s1 T1 A1 l1)|].
    + done.
    + by apply K1.
    + unfold PGSIZE in *. dlia.
    + unfold PGSIZE. lia.
    + lia.
    + unfold PGSIZE in *. dlia.
    + unfold PGSIZE. lia.
    + lia.
    + intros i Hi. rewrite Hpte by (change MAXVA with (2 ^ 38); unfold PGSIZE in *; lia).
      rewrite decide_False by (unfold PGSIZE in *; dlia).
      replace (a + PGSIZE + i * PGSIZE) with (a + (i + 1) * PGSIZE) by lia. apply Hfree. lia.
    + intros r s' (T' & A' & l' & d & C' & K' & P' & Hr & Hpte'). exists T', A', l', (d + 1).
      assert (0 <= d) by lia.
      split_and!; [done|by eapply kept_trans|eapply spends_trans; [apply spends_head; [lia|done]|eapply spends_mono; [|exact P']; apply paths_tail; lia]|destruct Hr as [[-> ->]|(-> & ? & ->)]; [left; split; [done|lia]|right; split_and!; [done|lia|lia|done]]|].
      intros va Hva'. rewrite Hpte' by done. rewrite <-(map_range_S a pa _ (mkpte pa f)) by (done || lia).
      unfold map_range. case_decide; [done|]. by apply Hpte.
Qed.
End Mappages.

Lemma mappages_spec s T A l pt perm va pa n :
  flags_ok perm -> vmctx s T A l -> T N2 = Some pt ->
  va mod PGSIZE = 0 -> 0 <= va -> 1 <= n -> va + n * PGSIZE <= MAXVA ->
  pa mod PGSIZE = 0 -> 0 <= pa -> pa + n * PGSIZE <= 2 ^ 56 ->
  (forall i, 0 <= i < n -> has (pte_at (mem s) T (va + i * PGSIZE)) PTE_V = false) ->
  wp (mappages pt va (n * PGSIZE) pa perm) (map_post perm s T A l va pa n) s.
Proof.
  change MAXVA with (2 ^ 38). intros Hperm C Hroot Hal Hva Hn Hend Hpal Hpa Hpend Hfree.
  unfold mappages. rewrite Hal, Z_mod_mult. cbn [Z.eqb negb panic_if].
  rewrite (proj2 (Z.eqb_neq (n * PGSIZE) 0)) by (unfold PGSIZE; lia).
  do 3 apply wp_bind, wp_ret. rewrite Z.div_mul, u64_small by (unfold PGSIZE in *; lia).
  destruct (Z_of_nat_complete (n - 1)) as [k Hk]; [lia|].
  replace n with (Z.of_nat k + 1) in * by lia.
  replace (Z.to_nat (Z.of_nat k + 1)) with (S k) by lia.
  replace (va + (Z.of_nat k + 1) * PGSIZE - PGSIZE) with (va + Z.of_nat k * PGSIZE) by lia.
  apply (mappages_loop_spec pt perm Hperm k s T A l); try done. intros i Hi. apply Hfree. lia.
Qed.

(** The physical address that the hardware and [walkaddr] find for a user access. *)
Definition translate (e : Z) : Z := if has e PTE_V && has e PTE_U then PTE2PA e else 0.

Lemma walkaddr_eval s T pt va : rep (mem s) T -> T N2 = Some pt -> 0 <= va < MAXVA ->
  walkaddr pt va s = Ok (translate (pte_at (mem s) T va)) s.
Proof.
  intros Hr Hroot Hva. unfold walkaddr. destruct (Z.leb_spec MAXVA va); [lia|].
  unfold bind at 1. rewrite (walk_eval (mem s) T) by done. unfold translate, pte_at, leaf.
  destruct (T (N0 (PX 2 va) (PX 1 va))) as [q|] eqn:Hq; [|done].
  destruct (Z.eqb_spec (q + 8 * PX 0 va) 0) as [E|_].
  { destruct (leaf_addr_pos (mem s) T va q Hr (proj1 Hva) Hq E). }
  unfold bind, read_pte, gets. destruct (has _ PTE_V), (has _ PTE_U); done.
Qed.

Lemma translate_mkpte pa perm : pa_ok pa -> flags_ok perm ->
  translate (mkpte pa (Z.lor perm PTE_V)) = if has perm PTE_U then pa else 0.
Proof.
  intros Hpa Hp. pose proof (flags_lor _ _ Hp PTE_V_ok) as Hf. unfold translate.
  rewrite !mkpte_has, mkpte_pa by (done || (split; done)).
  assert (has (Z.lor perm PTE_V) PTE_V = true) as ->.
  { unfold has. rewrite Z.land_lor_distr_l, Z.land_diag. apply negb_true_iff, Z.eqb_neq.
    change PTE_V with 1. intros E%Z.lor_eq_0_iff. by destruct E. }
  assert (has (Z.lor perm PTE_V) PTE_U = has perm PTE_U) as ->; [|done].
  unfold has. rewrite Z.land_lor_distr_l. change (Z.land PTE_V PTE_U) with 0. by rewrite Z.lor_0_r.
Qed.

(** [mappages] on unmapped pages returns 0 with all of them mapped, or -1 with the free
    list empty and a prefix of them mapped.  Afterwards [walkaddr] finds, for an address in a
    mapped page, the frame given to [mappages] when the permissions have [PTE_U] and 0
    otherwise; for every other address it finds what it found before.  Allocated pages
    outside the page table keep their contents. *)
Theorem mappages_walkaddr (s : kstate) (T : ptree) (A l : list Z) (pt perm va pa n : Z) :
  flags_ok perm -> vmctx s T A l -> T N2 = Some pt ->
  va mod PGSIZE = 0 -> 0 <= va -> 1 <= n -> va + n * PGSIZE <= MAXVA ->
  pa mod PGSIZE = 0 -> 0 <= pa -> pa + n * PGSIZE <= 2 ^ 56 ->
  (forall i, 0 <= i < n -> has (pte_at (mem s) T (va + i * PGSIZE)) PTE_V = false) ->
  exists r s' T' A' l' d,
    mappages pt va (n * PGSIZE) pa perm s = Ok r s' /\
    vmctx s' T' A' l' /\ kept s T A s' T' A' /\
    (r = 0 /\ d = n \/ r = -1 /\ 0 <= d < n /\ l' = []) /\
    forall va', 0 <= va' < MAXVA ->
      (va <= va' < va + d * PGSIZE ->
         walkaddr pt va' s' = Ok (if has perm PTE_U then pa + (va' / PGSIZE * PGSIZE - va) else 0) s') /\
      (~ va <= va' < va + d * PGSIZE ->
         exists pa', walkaddr pt va' s = Ok pa' s /\ walkaddr pt va' s' = Ok pa' s').
Proof.
  intros Hperm C Hroot Hal Hva Hn Hend Hpal Hpa Hpend Hfree.
  pose proof (mappages_spec s T A l pt perm va pa n) as Hwp.
  apply wp_elim in Hwp as (r & s' & Hev & T' & A' & l' & d & C' & K & _ & Hr & Hpte); [|done..].
  exists r, s', T', A', l', d. split_and!; [done..|]. intros va' Hva'.
  rewrite (walkaddr_eval s' T' pt va'), Hpte by (apply C' || by apply K || done).
  unfold map_range. split; intros Hin; case_decide; try done.
  - rewrite translate_mkpte; [done| |done]. unfold pa_ok, PGSIZE in *. split; dlia.
  - exists (translate (pte_at (mem s) T va')). split; [|done]. apply walkaddr_eval; [apply C|done..].
Qed.

(** ** An example: an empty page table, a user frame and two free pages *)
Definition demo_root : Z := KERNBASE + 0x100000.
Definition demo_frame : Z := KERNBASE + 0x200000.
Definition demo_free : list Z := [KERNBASE + 0x101000; KERNBASE + 0x102000].
Definition demo_mem : memory := store64 (fun _ => 0) (KERNBASE + 0x101000) (KERNBASE + 0x102000).
Definition demo : kstate :=
  set_freelist (KERNBASE + 0x101000) (set_mem demo_mem (boot_state (KERNBASE + 0x20000))).
Definition demo_tree : ptree := fun a => match a with N2 => Some demo_root | _ => None end.

Lemma demo_load p k : p mod PGSIZE = 0 -> idx k -> p <> KERNBASE + 0x101000 -> load64 demo_mem (p + 8 * k) = 0.
Proof.
  intros Hp Hk Hne. unfold demo_mem. rewrite <-(Z.add_0_r (KERNBASE + 0x101000)).
  change 0 with (8 * 0) at 2. rewrite load_store_slot; [|done|done|split; lia|done|auto].
  unfold load64. assert (load (fun _ => 0) (p + 8 * k) 8 = replicate 8 0) as ->; done.
Qed.

Lemma demo_vmctx : vmctx demo demo_tree [demo_root; demo_frame] demo_free.
Proof.
  split.
  - split; [| | |done].
    + split; [done|]. split; [|done]. vm_compute. done.
    + by apply (bool_decide_unpack _).
    + repeat constructor; vm_compute; intros [=].
  - split.
    + done.
    + intros [] b k p [= <-] [= <-] Hk. cbn [demo_tree]. unfold link. cbn [mem demo set_freelist set_mem].
      by rewrite demo_load by done.
    + intros [] b k [=] [= <-]; done.
    + intros [] p [=]; done.
    + intros [] [] p [=] [=]; done.
    + intros [] p [= <-]. split; [|done]. split; [done|]. vm_compute. split; congruence.
  - intros [] p [= <-]. set_solver.
  - apply not_elem_of_nil.
Qed.

Lemma demo_pte va : 0 <= va -> pte_at (mem demo) demo_tree va = 0.
Proof. done. Qed.

Definition demo_perm : Z := Z.lor (Z.lor PTE_R PTE_W) PTE_U.

Lemma mappages_walkaddr_witness :
  exists s', mappages demo_root 0 (1 * PGSIZE) demo_frame demo_perm demo = Ok 0 s' /\
    walkaddr demo_root 5 s' = Ok demo_frame s' /\ walkaddr demo_root 5000 s' = Ok 0 s'.
Proof.
  destruct (mappages_walkaddr demo demo_tree [demo_root; demo_frame] demo_free demo_root demo_perm 0 demo_frame 1)
    as (r & s' & T' & A' & l' & d & Hev & _ & _ & Hr & Hw).
  - vm_compute. split; congruence.
  - apply demo_vmctx.
  - reflexivity.
  - reflexivity.
  - lia.
  - lia.
  - vm_compute. congruence.
  - reflexivity.
  - vm_compute. congruence.
  - vm_compute. congruence.
  - intros i Hi. reflexivity.
  - assert (Hr0 : r = 0).
    { assert (H : match mappages demo_root 0 (1 * PGSIZE) demo_frame demo_perm demo with Ok x _ => x | _ => 1 end = 0)
        by (vm_compute; reflexivity). by rewrite Hev in H. }
    subst r. assert (d = 1) as -> by lia. exists s'. split; [exact Hev|].
    split.
    + destruct (Hw 5) as [H _]; [vm_compute; split; congruence|]. rewrite H; [reflexivity|]. unfold PGSIZE. lia.
    + destruct (Hw 5000) as [_ H]; [vm_compute; split; congruence|]. destruct H as (pa & H1 & H2); [unfold PGSIZE; lia|].
      rewrite H2. f_equal. rewrite (walkaddr_eval demo demo_tree) in H1; [by injection H1 as <-|apply demo_vmctx|reflexivity|].
      vm_compute; split; congruence.
Defined.

(** ** User memory

    A user address space seen through its page table: every valid page has a frame of its own,
    outside the page table. *)
Definition uaddr (m : memory) (T : ptree) (va : Z) : Z := PTE2PA (pte_at m T va) + va mod PGSIZE.
Definition umem (m : memory) (T : ptree) (va : Z) : Z := m (uaddr m T va).
Definition uvalid (m : memory) (T : ptree) (va : Z) : Prop :=
  0 <= va < MAXVA /\ has (pte_at m T va) PTE_V = true.

Record uspace (m : memory) (T : ptree) (pt : Z) : Prop := {
  us_rep : rep m T;
  us_root : T N2 = Some pt;
  us_frame : forall va, uvalid m T va -> let f := PTE2PA (pte_at m T va) in
    f mod PGSIZE = 0 /\ 0 < f /\ forall a, T a <> Some f;
  us_inj : forall va va', uvalid m T va -> uvalid m T va' ->
    PTE2PA (pte_at m T va) = PTE2PA (pte_at m T va') -> va / PGSIZE = va' / PGSIZE }.

(** A user access of the given kind is allowed at [va]. *)
Definition user_ok (bits : Z) (m : memory) (T : ptree) (va : Z) : Prop :=
  uvalid m T va /\ has (pte_at m T va) PTE_U = true /\ has (pte_at m T va) bits = true.

Section StoreUser.
Context (m : memory) (T : ptree) (pt va : Z) (bs : list Z).
Context (U : uspace m T pt) (Hv : uvalid m T va).
Context (Hlen : va mod PGSIZE + Z.of_nat (length bs) <= PGSIZE).
Let m' := store m (uaddr m T va) bs.

Let Hmod : 0 <= va mod PGSIZE < PGSIZE.
Proof. apply Z.mod_pos_bound. done. Qed.

Lemma store_user_rep : rep m' T /\ forall va', 0 <= va' -> pte_at m' T va' = pte_at m T va'.
Proof.
  apply (rep_ext m m' T); [apply U|]. intros a p x Ha Hx. unfold m', store, uaddr.
  destruct (us_frame _ _ _ U va Hv) as (Hf & _ & Hne).
  destruct (rp_page _ _ (us_rep _ _ _ U) a p Ha) as [[Hp _] _].
  rewrite bool_decide_false; [done|].
  destruct (pages_disjoint p _ Hp Hf); [|lia..]. intros ->. by apply (Hne a).
Qed.
Lemma store_user_pte va' : 0 <= va' -> pte_at m' T va' = pte_at m T va'.
Proof. apply store_user_rep. Qed.

Lemma store_user_space : uspace m' T pt.
Proof.
  assert (Hval : forall v, uvalid m' T v <-> uvalid m T v).
  { intros v. unfold uvalid. split; intros [H1 H2]; split; try done;
      rewrite store_user_pte in * by lia; done. }
  assert (Hpte : forall v, uvalid m T v -> pte_at m' T v = pte_at m T v).
  { intros v [? _]. apply store_user_pte. lia. }
  split.
  - apply store_user_rep.
  - apply U.
  - intros v Hv'%Hval. rewrite Hpte by done. by apply (us_frame _ _ _ U).
  - intros v v' Hv1%Hval Hv2%Hval. rewrite !Hpte by done. by apply (us_inj _ _ _ U).
Qed.

Lemma store_user_mem va' : uvalid m T va' ->
  umem m' T va' = if decide (va <= va' < va + Z.of_nat (length bs))
    then nth (Z.to_nat (va' - va)) bs 0 else umem m T va'.
Proof.
  intros Hv'. unfold umem, uaddr. rewrite store_user_pte by apply Hv'. unfold m', store, uaddr.
  destruct (us_frame _ _ _ U va Hv) as (Hf & _ & _).
  destruct (us_frame _ _ _ U va' Hv') as (Hf' & _ & _).
  assert (0 <= va' mod PGSIZE < PGSIZE) by (by apply Z.mod_pos_bound).
  destruct (decide (va / PGSIZE = va' / PGSIZE)) as [Heq|Hne].
  - assert (pte_at m T va' = pte_at m T va) as ->.
    { rewrite <-(pte_at_page m T va), <-(pte_at_page m T va') by (apply Hv || apply Hv').
      f_equal. unfold PGSIZE in *. dlia. }
    case_decide; [rewrite bool_decide_true by (unfold PGSIZE in *; dlia)|
      by rewrite bool_decide_false by (unfold PGSIZE in *; dlia)].
    f_equal. unfold PGSIZE in *. dlia.
  - rewrite decide_False by (unfold PGSIZE in *; dlia).
    rewrite bool_decide_false; [done|].
    destruct (pages_disjoint _ _ Hf Hf'); [|lia..]. intros E. by apply Hne, (us_inj _ _ _ U).
Qed.
End StoreUser.

Lemma PGROUNDDOWN_page va : PGROUNDDOWN va = va - va mod PGSIZE.
Proof. rewrite PGROUNDDOWN_eq. unfold PGSIZE. dlia. Qed.

(** The page of an accessible address, found by [walkaddr] and by [walk]. *)
Lemma user_page s T pt va bits : uspace (mem s) T pt -> user_ok bits (mem s) T va ->
  let va0 := PGROUNDDOWN va in
  va - va0 = va mod PGSIZE /\ 0 <= va0 < MAXVA /\
  walkaddr pt va0 s = Ok (PTE2PA (pte_at (mem s) T va)) s /\
  exists a, walk pt va0 false s = Ok a s /\ load64 (mem s) a = pte_at (mem s) T va.
Proof.
  intros U [[Hva Hv] [Hu _]]. cbv zeta. rewrite PGROUNDDOWN_page.
  pose proof (Z.mod_pos_bound va PGSIZE ltac:(done)) as Hm.
  pose proof (Z.mod_le va PGSIZE ltac:(lia) ltac:(done)) as Hle.
  pose proof (us_rep _ _ _ U) as Hr. pose proof (us_root _ _ _ U) as Hroot.
  split; [lia|]. split; [lia|]. split.
  - rewrite (walkaddr_eval s T) by (done || lia). rewrite pte_at_page by lia. unfold translate.
    by rewrite Hv, Hu.
  - eexists. split; [apply (walk_eval (mem s) T); (done || lia)|].
    rewrite !PX_page by lia. unfold pte_at, leaf in *. by destruct (T _).
Qed.

(** [src] overwrites user memory from [dst] on. *)
Definition ustore (dst : Z) (src : list Z) (old : Z -> Z) (va : Z) : Z :=
  if decide (dst <= va < dst + Z.of_nat (length src)) then nth (Z.to_nat (va - dst)) src 0 else old va.

Lemma ustore_app dst src src' old va :
  ustore (dst + Z.of_nat (length src)) src' (ustore dst src old) va = ustore dst (src ++ src') old va.
Proof.
  unfold ustore. rewrite length_app.
  repeat case_decide; try lia; try done.
  - rewrite app_nth2 by lia. f_equal. lia.
  - by rewrite app_nth1 by lia.
Qed.

Definition in_range (a n va : Z) : Prop := a <= va < a + n.

(** The effect of a copy to user memory, from memory [m] to [m']. *)
Definition copied_out (m : memory) (T : ptree) (pt dst : Z) (src : list Z) (m' : memory) : Prop :=
  uspace m' T pt /\
  (forall va, 0 <= va -> pte_at m' T va = pte_at m T va) /\
  forall va, uvalid m T va -> umem m' T va = ustore dst src (umem m T) va.

Lemma copied_out_nil m T pt dst : uspace m T pt -> copied_out m T pt dst [] m.
Proof. intros. split_and!; [done..|]. intros. unfold ustore. by rewrite decide_False by (cbn; lia). Qed.

Lemma copied_out_user m T pt dst src m' bits va : copied_out m T pt dst src m' ->
  user_ok bits m T va -> user_ok bits m' T va.
Proof. intros (_ & Hp & _) [[H1 H2] H3]. unfold user_ok, uvalid. by rewrite Hp by lia. Qed.

Lemma copied_out_app m T pt dst src m1 src' m2 d : d = dst + Z.of_nat (length src) ->
  copied_out m T pt dst src m1 -> copied_out m1 T pt d src' m2 ->
  copied_out m T pt dst (src ++ src') m2.
Proof.
  intros -> (U1 & P1 & M1) (U2 & P2 & M2). split_and!; [done|intros; by rewrite P2, P1|].
  intros va Hv. assert (Hv1 : uvalid m1 T va).
  { destruct Hv as [? ?]. split; [done|]. by rewrite P1 by lia. }
  rewrite M2 by done. rewrite <-ustore_app. unfold ustore at 1 2. case_decide; [done|]. by apply M1.
Qed.

(** How much is copied to the page of [va], out of [len] bytes. *)
Definition chunk (va : Z) (len : nat) : nat := Z.to_nat (Z.min (PGSIZE - va mod PGSIZE) (Z.of_nat len)).
Lemma chunk_le va len : (0 < len)%nat ->
  (0 < chunk va len <= len)%nat /\ va mod PGSIZE + Z.of_nat (chunk va len) <= PGSIZE /\
  ((chunk va len < len)%nat -> va + Z.of_nat (chunk va len) = PGROUNDDOWN va + PGSIZE).
Proof.
  unfold chunk. rewrite PGROUNDDOWN_page. pose proof (Z.mod_pos_bound va PGSIZE ltac:(done)). lia.
Qed.

Lemma store_user_copied m T pt va bs : uspace m T pt -> uvalid m T va ->
  va mod PGSIZE + Z.of_nat (length bs) <= PGSIZE ->
  copied_out m T pt va bs (store m (uaddr m T va) bs).
Proof.
  intros U Hv Hfit. split_and!.
  - by apply store_user_space.
  - by apply (store_user_pte m T pt).
  - by apply (store_user_mem m T pt).
Qed.

Lemma copyout_round s T pt dst src fuel : uspace (mem s) T pt -> user_ok PTE_W (mem s) T dst ->
  (0 < length src)%nat -> let n := chunk dst (length src) in
  copyout_loop (S fuel) pt dst src s =
  copyout_loop fuel pt (u64 (PGROUNDDOWN dst + PGSIZE)) (drop n src)
    (set_mem (store (mem s) (uaddr (mem s) T dst) (take n src)) s).
Proof.
  intros U Hok Hlen. destruct (user_page s T pt dst PTE_W U Hok) as (Hoff & Hva0 & Hwa & a & Hwalk & Hload).
  destruct Hok as [Hdv [_ Hdw]]. destruct (us_frame _ _ _ U dst Hdv) as (_ & Hfp & _).
  destruct src as [|b src0]; [cbn in Hlen; lia|]. cbn [copyout_loop].
  destruct (Z.leb_spec MAXVA (PGROUNDDOWN dst)); [lia|]. unfold bind. rewrite Hwa.
  destruct (Z.eqb_spec (PTE2PA (pte_at (mem s) T dst)) 0) as [E0|_]; [lia|]. unfold ret at 1.
  destruct (Z.eqb_spec (PTE2PA (pte_at (mem s) T dst)) 0) as [E0|_]; [lia|].
  rewrite Hwalk. unfold read_pte, gets, modify. rewrite Hload, Hdw. cbn [negb]. by rewrite Hoff.
Qed.

Lemma copyout_loop_spec T pt fuel : forall s dst src,
  (length src <= fuel)%nat -> uspace (mem s) T pt -> 0 <= dst ->
  (forall va, in_range dst (Z.of_nat (length src)) va -> user_ok PTE_W (mem s) T va) ->
  exists m', copyout_loop fuel pt dst src s = Ok 0 (set_mem m' s) /\
    copied_out (mem s) T pt dst src m'.
Proof.
  assert (Hnil : forall f s dst, uspace (mem s) T pt -> exists m',
    copyout_loop f pt dst [] s = Ok 0 (set_mem m' s) /\ copied_out (mem s) T pt dst [] m').
  { intros f s dst U. exists (mem s). split; [by destruct s, f|by apply copied_out_nil]. }
  induction fuel as [|fuel IH]; intros s dst src Hf U Hd Hok.
  { assert (src = []) as -> by (destruct src; [done|cbn in Hf; lia]). by apply Hnil. }
  destruct (decide (length src = 0)%nat) as [->%nil_length_inv|Hlen]; [by apply Hnil|].
  pose proof (Hok dst ltac:(unfold in_range; lia)) as Hdok.
  rewrite (copyout_round s T) by (done || lia).
  destruct (chunk_le dst (length src) ltac:(lia)) as (Hn & Hfit & Hnext). set (n := chunk _ _) in *.
  assert (Htl : length (take n src) = n) by (rewrite length_take; lia). rewrite <-Htl in Hfit.
  pose proof (store_user_copied (mem s) T pt dst (take n src) U (proj1 Hdok) Hfit) as C1.
  set (m1 := store _ _ _) in *.
  assert (Hcat : forall m', copied_out m1 T pt (dst + Z.of_nat n) (drop n src) m' ->
    copied_out (mem s) T pt dst src m').
  { intros m' C2. rewrite <-(take_drop n src). eapply copied_out_app; [|done..]. by rewrite Htl. }
  destruct (decide (n = length src)) as [En|En].
  - assert (drop n src = []) as Ed by (rewrite En; apply drop_all). rewrite Ed in Hcat |- *.
    destruct (Hnil fuel (set_mem m1 s) (dst + Z.of_nat n)) as (m' & H1 & H2); [apply C1|].
    exists m'. split; [by destruct fuel|]. by apply Hcat.
  - destruct (IH (set_mem m1 s) (dst + Z.of_nat n) (drop n src)) as (m' & H1 & H2).
    + rewrite length_drop. lia.
    + apply C1.
    + lia.
    + intros va Hva. unfold in_range in Hva. rewrite length_drop in Hva.
      eapply copied_out_user; [exact C1|]. apply Hok. unfold in_range. lia.
    + exists m'. rewrite <-Hnext by lia.
      destruct (Hok (dst + Z.of_nat n)) as [[Hmax _] _]; [unfold in_range; lia|].
      rewrite u64_small by (change MAXVA with (2 ^ 38) in Hmax; lia). split; [done|]. by apply Hcat.
Qed.

(** [n] bytes of user memory from [va] on. *)
Definition uload (f : Z -> Z) (va : Z) (n : nat) : list Z := map (fun k => f (va + Z.of_nat k)) (seq 0 n).

Lemma uload_app f va n k : uload f va (n + k) = uload f va n ++ uload f (va + Z.of_nat n) k.
Proof.
  unfold uload. rewrite seq_app, map_app. f_equal. cbn. rewrite <-(Nat.add_0_r n) at 1.
  rewrite <-fmap_add_seq, map_map. apply map_ext. intros i. f_equal. lia.
Qed.

Lemma uload_page m T va n : 0 <= va -> va mod PGSIZE + Z.of_nat n <= PGSIZE ->
  load m (uaddr m T va) n = uload (umem m T) va n.
Proof.
  intros Hva Hn. unfold load, uload, umem, uaddr. apply map_ext_in. intros i [_ Hi]%in_seq. f_equal.
  pose proof (Z.mod_pos_bound va PGSIZE ltac:(done)).
  assert ((va + Z.of_nat i) mod PGSIZE = va mod PGSIZE + Z.of_nat i) as E by (unfold PGSIZE in *; dlia).
  rewrite E. rewrite <-(pte_at_page m T (va + Z.of_nat i)), E, <-(pte_at_page m T va) by lia.
  replace (va + Z.of_nat i - (va mod PGSIZE + Z.of_nat i)) with (va - va mod PGSIZE) by lia. lia.
Qed.

Lemma copyin_round s T pt src len fuel dst : uspace (mem s) T pt -> user_ok PTE_U (mem s) T src ->
  (0 < len)%nat -> let n := chunk src len in
  copyin_loop (S fuel) pt src len dst s =
  copyin_loop fuel pt (u64 (PGROUNDDOWN src + PGSIZE)) (len - n) (dst ++ uload (umem (mem s) T) src n) s.
Proof.
  intros U Hok Hlen. destruct (user_page s T pt src PTE_U U Hok) as (Hoff & Hva0 & Hwa & _).
  destruct Hok as [Hdv _]. destruct (us_frame _ _ _ U src Hdv) as (_ & Hfp & _).
  destruct len as [|len]; [lia|]. cbn [copyin_loop]. unfold bind. rewrite Hwa.
  destruct (Z.eqb_spec (PTE2PA (pte_at (mem s) T src)) 0) as [E0|_]; [lia|]. unfold ret at 1.
  destruct (Z.eqb_spec (PTE2PA (pte_at (mem s) T src)) 0) as [E0|_]; [lia|]. unfold gets.
  rewrite Hoff. fold (chunk src (S len)) (uaddr (mem s) T src).
  rewrite uload_page; [done|apply Hdv|]. by apply chunk_le.
Qed.

Lemma copyin_loop_spec T pt s fuel : forall src len dst,
  (len <= fuel)%nat -> uspace (mem s) T pt -> 0 <= src ->
  (forall va, in_range src (Z.of_nat len) va -> user_ok PTE_U (mem s) T va) ->
  copyin_loop fuel pt src len dst s = Ok (0, dst ++ uload (umem (mem s) T) src len) s.
Proof.
  induction fuel as [|fuel IH]; intros src len dst Hf U Hsrc Hok.
  { assert (len = O) as -> by lia. cbn. by rewrite app_nil_r. }
  destruct (decide (len = O)) as [->|Hlen]; [cbn; by rewrite app_nil_r|].
  rewrite (copyin_round s T) by (done || lia || (apply Hok; unfold in_range; lia)).
  destruct (chunk_le src len ltac:(lia)) as (Hn & _ & Hnext). set (n := chunk _ _) in *.
  destruct (decide (n = len)) as [En|En].
  - rewrite En, Nat.sub_diag. by destruct fuel.
  - rewrite <-Hnext by lia.
    destruct (Hok (src + Z.of_nat n)) as [[Hmax _] _]; [unfold in_range; lia|].
    rewrite u64_small by (change MAXVA with (2 ^ 38) in Hmax; lia).
    rewrite IH; [|lia|done|lia|intros va Hva; apply Hok; unfold in_range in *; lia].
    rewrite <-app_assoc, <-uload_app. by replace (n + (len - n))%nat with len by lia.
Qed.

(** C10: copies between the kernel and a user address space.  On pages that are mapped for
    the user, and writable for [copyout], the two routines return 0 for any address and length,
    across page boundaries; [copyout] writes exactly the bytes [src] of user memory at [dst],
    and a later [copyin] of any readable range, overlapping or not, returns user memory with
    that write applied.  No other part of the state changes. *)
Theorem copyout_copyin (s : kstate) (T : ptree) (pt dst va : Z) (src : list Z) (n : nat) :
  uspace (mem s) T pt -> 0 <= dst -> 0 <= va ->
  (forall v, in_range dst (Z.of_nat (length src)) v -> user_ok PTE_W (mem s) T v) ->
  (forall v, in_range va (Z.of_nat n) v -> user_ok PTE_U (mem s) T v) ->
  copyin pt va n s = Ok (0, uload (umem (mem s) T) va n) s /\
  exists m', copyout pt dst src s = Ok 0 (set_mem m' s) /\ uspace m' T pt /\
    copyin pt va n (set_mem m' s) = Ok (0, uload (ustore dst src (umem (mem s) T)) va n) (set_mem m' s).
Proof.
  intros U Hd Hva Hw Hr. split; [by apply (copyin_loop_spec T pt s n va n [])|].
  destruct (copyout_loop_spec T pt (length src) s dst src) as (m' & H1 & U' & Hp & Hm); [done..|].
  exists m'. split_and!; [done..|]. unfold copyin. rewrite (copyin_loop_spec T); [|done|done|done|].
  - cbn [app mem set_mem]. do 2 f_equal. unfold uload. apply map_ext_in. intros i [_ Hi]%in_seq.
    apply Hm, Hr. unfold in_range. lia.
  - intros v Hv. destruct (Hr v Hv) as [[? ?] ?]. split; [split; [done|]|]; cbn [mem set_mem]; by rewrite Hp by lia.
Qed.

Lemma demo_mapped : exists s' T', mappages demo_root 0 (1 * PGSIZE) demo_frame demo_perm demo = Ok 0 s' /\
  uspace (mem s') T' demo_root /\ forall va, 0 <= va < PGSIZE -> user_ok PTE_W (mem s') T' va /\ user_ok PTE_U (mem s') T' va.
Proof.
  assert (Hwp : wp (mappages demo_root 0 (1 * PGSIZE) demo_frame demo_perm)
    (map_post demo_perm demo demo_tree [demo_root; demo_frame] demo_free 0 demo_frame 1) demo).
  { apply (mappages_spec demo demo_tree _ demo_free);
      [vm_compute; split; congruence|apply demo_vmctx|reflexivity|reflexivity|lia|lia|vm_compute; congruence|
       reflexivity|vm_compute; congruence|vm_compute; congruence|intros i Hi; reflexivity]. }
  apply wp_elim in Hwp as (r & s' & Hev & T' & A' & l' & d & C' & K & _ & Hr & Hpte).
  assert (Hr0 : match mappages demo_root 0 (1 * PGSIZE) demo_frame demo_perm demo with Ok x _ => x | _ => 1 end = 0)
    by (vm_compute; reflexivity). rewrite Hev in Hr0. subst r. assert (d = 1) as -> by lia.
  exists s', T'. split; [done|].
  assert (Hv : forall va, uvalid (mem s') T' va -> 0 <= va < PGSIZE).
  { intros va [Hva Hv]. rewrite Hpte in Hv by done. unfold map_range in Hv. case_decide; [lia|done]. }
  assert (He : forall va, 0 <= va < PGSIZE -> pte_at (mem s') T' va = mkpte demo_frame (Z.lor demo_perm PTE_V)).
  { intros va Hva. rewrite Hpte by (change MAXVA with (2 ^ 38); unfold PGSIZE in *; lia).
    unfold map_range. rewrite decide_True by lia. f_equal. unfold PGSIZE in *. dlia. }
  assert (Hpa : PTE2PA (mkpte demo_frame (Z.lor demo_perm PTE_V)) = demo_frame) by (vm_compute; reflexivity).
  split.
  - split; [apply C'|by apply K| |].
    + intros va Hva. rewrite He, Hpa by (by apply Hv). split; [done|]. split; [done|].
      apply (kp_frames _ _ _ _ _ _ K demo_frame); [by right; left|]. intros [] [=].
    + intros va va' Hva%Hv Hva'%Hv _. unfold PGSIZE in *. dlia.
  - intros va Hva. unfold user_ok, uvalid. rewrite He by done.
    change MAXVA with (2 ^ 38). unfold PGSIZE in Hva.
    assert (Hb : forall bit, bit = PTE_V \/ bit = PTE_U \/ bit = PTE_W ->
      has (mkpte demo_frame (Z.lor demo_perm PTE_V)) bit = true)
      by (intros bit [->|[->| ->]]; vm_compute; reflexivity).
    split; (split; [split; [lia|]|split]); apply Hb; auto.
Qed.

Lemma copyout_copyin_witness : exists s1 s2,
  mappages demo_root 0 (1 * PGSIZE) demo_frame demo_perm demo = Ok 0 s1 /\
  copyout demo_root 4000 [7; 8; 9] s1 = Ok 0 s2 /\ copyin demo_root 4000 3 s2 = Ok (0, [7; 8; 9]) s2.
Proof.
  destruct demo_mapped as (s1 & T & Hev & U & Hok).
  destruct (copyout_copyin s1 T demo_root 4000 4000 [7; 8; 9] 3) as (_ & m' & H1 & _ & H2).
  - exact U.
  - lia.
  - lia.
  - intros v Hv. apply Hok. unfold in_range in Hv. cbn in Hv. unfold PGSIZE. lia.
  - intros v Hv. apply Hok. unfold in_range in Hv. cbn in Hv. unfold PGSIZE. lia.
  - exists s1, (set_mem m' s1). split; [exact Hev|]. split; [exact H1|exact H2].
Defined.
