(* ===== verification/Vmcopy.v ===== *)
(** * The address space of a child (the theory of kernel/vm.c: uvmcopy, uvmunmap)

    A page table under construction gets frames of its own for the pages of another one; when
    memory runs out, the frames are given back. *)

From S2P Require Import Prelude Spinlock State Kalloc Vm Pgtbl.

(** ** A page outside the tree changes *)
Definition same_but (p : Z) (m m' : memory) : Prop := forall x, x < p \/ p + PGSIZE <= x -> m' x = m x.

Lemma same_but_page p q m m' : p mod PGSIZE = 0 -> q mod PGSIZE = 0 -> p <> q -> same_but p m m' ->
  forall x, q <= x < q + PGSIZE -> m' x = m x.
Proof. intros Hp Hq Hne Hm x Hx. apply Hm. destruct (pages_disjoint p q Hp Hq Hne); lia. Qed.

Lemma rep_same_but m m' T p : rep m T -> p mod PGSIZE = 0 -> (forall a, T a <> Some p) -> same_but p m m' ->
  rep m' T /\ forall va, 0 <= va -> pte_at m' T va = pte_at m T va.
Proof.
  intros Hr Hp HT Hm. apply rep_ext; [done|]. intros a q x Ha. apply (same_but_page p); [done| |by intros ->; apply (HT a)|done].
  apply (rp_page _ _ Hr a q Ha).
Qed.

(** From [s] to [s'] the allocated pages that are not of the tree are unchanged. *)
Record undisturbed (s : kstate) (T : ptree) (A : list Z) (s' : kstate) (T' : ptree) (A' : list Z) : Prop := {
  ud_tree : forall a p, T a = Some p -> T' a = Some p;
  ud_alloc : forall p, p ∈ A -> p ∈ A';
  ud_frames : forall p, p ∈ A -> (forall a, T a <> Some p) ->
    (forall a, T' a <> Some p) /\ forall x, p <= x < p + PGSIZE -> mem s' x = mem s x;
  ud_frame : s' = set_freelist (freelist s') (set_mem (mem s') s);
  ud_low : forall i j p, T' (N0 i j) = Some p -> T (N0 i j) = Some p \/ i < 256 }.
Lemma kept_undisturbed s T A s' T' A' : kept s T A s' T' A' -> undisturbed s T A s' T' A'.
Proof. by intros []. Qed.
Lemma undisturbed_refl s T A : undisturbed s T A s T A.
Proof. apply kept_undisturbed, kept_refl. Qed.
Lemma undisturbed_trans s1 T1 A1 s2 T2 A2 s3 T3 A3 :
  undisturbed s1 T1 A1 s2 T2 A2 -> undisturbed s2 T2 A2 s3 T3 A3 -> undisturbed s1 T1 A1 s3 T3 A3.
Proof.
  intros [G1 G2 G3 G4 G5] [H1 H2 H3 H4 H5]. split.
  - intros a p Ha. by apply H1, G1.
  - intros p Hp. by apply H2, G2.
  - intros p Hp HT. destruct (G3 p Hp HT) as [E1 E2]. destruct (H3 p (G2 p Hp) E1) as [E3 E4].
    split; [done|]. intros x Hx. by rewrite E4, E2.
  - rewrite H4 at 1. rewrite G4 at 1. done.
  - intros i j p [Hp|?]%H5; [|by right]. by apply G5.
Qed.

(** [s'] is [s] with other contents of the page [p], which is not an old one. *)
Lemma undisturbed_same_but s0 T0 A0 s T A s' A' p : undisturbed s0 T0 A0 s T A -> p ∉ A0 -> p mod PGSIZE = 0 ->
  (forall q, q ∈ A0 -> q mod PGSIZE = 0) -> (forall q, q ∈ A -> q <> p -> q ∈ A') -> same_but p (mem s) (mem s') ->
  s' = set_freelist (freelist s') (set_mem (mem s') s) -> undisturbed s0 T0 A0 s' T A'.
Proof.
  intros [K1 K2 K3 K4 K5] Hp Hal Hal0 HA Hm E. split.
  - done.
  - intros q Hq. apply HA; [by apply K2|]. by intros ->.
  - intros q Hq HT. destruct (K3 q Hq HT) as [H1 H2]. split; [done|]. intros x Hx. rewrite <-H2 by done.
    apply (same_but_page p q); [done|by apply Hal0|by intros ->|done|done].
  - rewrite E, K4. done.
  - done.
Qed.

Lemma ctx_al s T A l p : vmctx s T A l -> p ∈ A -> p mod PGSIZE = 0.
Proof. intros C Hp. by destruct (ctx_page _ _ _ _ _ C Hp) as [[? _] _]. Qed.

(** A page more, or nothing. *)
Lemma kalloc_ctx s T A l Q : vmctx s T A l ->
  (l = [] -> Q 0 s) ->
  (forall p l' s', l = p :: l' -> p ∉ A -> pa_ok p -> 0 < p -> (forall a, T a <> Some p) -> vmctx s' T (p :: A) l' ->
     same_but p (mem s) (mem s') -> s' = set_freelist (freelist s') (set_mem (mem s') s) -> Q p s') ->
  wp kalloc Q s.
Proof.
  intros C H0 H1. apply (kalloc_spec s A l); [apply C|apply C|done|].
  intros p l' -> HpA Hpok Hp0 s1 Hk1. destruct (page_ok_pa s p (ki_end _ _ _ (vc_kmem _ _ _ _ C)) Hpok) as [Hppa Hppos].
  assert (HT : forall a, T a <> Some p) by (intros a Ha; by apply HpA, (vc_in _ _ _ _ C a)).
  assert (Hm : same_but p (mem s) (mem s1)).
  { intros x Hx. cbn. unfold fill. by rewrite bool_decide_false by lia. }
  apply (H1 p l'); try done. split; [done| | |apply C].
  - apply (rep_same_but (mem s) _ _ p); [apply C|apply Hppa|done..].
  - intros a q Ha. right. by eapply (vc_in _ _ _ _ C).
Qed.

Lemma ctx_write s T A l p m' : vmctx s T A l -> p ∈ A -> (forall a, T a <> Some p) -> same_but p (mem s) m' ->
  vmctx (set_mem m' s) T A l.
Proof.
  intros C Hp HT Hm. pose proof (ctx_al _ _ _ _ _ C Hp) as Hal. split; [|by apply (rep_same_but (mem s) _ _ p); [apply C|..]|apply C|apply C].
  destruct (vc_kmem _ _ _ _ C) as [Hch Hnd Hpg Hend]. split; try done.
  pose proof (kmem_aligned _ _ _ (vc_kmem _ _ _ _ C)) as Hall. apply Forall_app in Hall as [_ Hall].
  apply NoDup_app in Hnd as (_ & Hd & _). eapply chain_ext; [exact Hch|done|exact Hal|by apply Hd|exact Hm].
Qed.

(** A page is given back. *)
Lemma kfree_ctx s T A l p Q : vmctx s T A l -> p ∈ A -> (forall a, T a <> Some p) ->
  (forall s' A' l', vmctx s' T A' l' -> (forall q, q ∈ A' <-> q ∈ A /\ q <> p) -> same_but p (mem s) (mem s') ->
     s' = set_freelist (freelist s') (set_mem (mem s') s) -> Q tt s') ->
  wp (kfree p) Q s.
Proof.
  intros C Hp HT H. pose proof (ctx_al _ _ _ _ _ C Hp) as Hal. apply list_elem_of_split in Hp as (A1 & A2 & ->).
  pose proof (vc_kmem _ _ _ _ C) as Hk. pose proof (ki_nodup _ _ _ Hk) as Hnd.
  apply (kfree_spec s A1 A2 l); [done|apply C|]. intros s' Hk'.
  assert (HpA : p ∉ A1 ++ A2).
  { rewrite <-app_assoc in Hnd. apply NoDup_app in Hnd as (_ & H1 & H2). cbn in H2. apply NoDup_cons in H2 as [H2 _].
    intros [Hx|Hx]%elem_of_app; [apply (H1 _ Hx); by left|apply H2, elem_of_app; by left]. }
  assert (Hm : same_but p (mem s) (mem s')).
  { intros x Hx. cbn. unfold store64, store. rewrite length_le_bytes. unfold fill, PGSIZE in *. by rewrite !bool_decide_false by lia. }
  apply (H s' (A1 ++ A2) (p :: l)); try done.
  - split; [done|apply (rep_same_but (mem s) _ _ p); [apply C|done..]| |apply C].
    intros a q Ha. pose proof (vc_in _ _ _ _ C a q Ha) as Hq. assert (q <> p) by (intros ->; by apply (HT a)). set_solver.
  - intros q. split; [intros Hq; split; [set_solver|by intros ->]|]. set_solver.
Qed.

(** ** Unmapping with the frames given back *)

(** The valid pages from [a] to [b] have frames of their own, outside the tree. *)
Definition own_frames (m : memory) (T : ptree) (A : list Z) (a b : Z) : Prop :=
  (forall va, a <= va < b -> has (pte_at m T va) PTE_V = true ->
     PTE2PA (pte_at m T va) ∈ A /\ forall c, T c <> Some (PTE2PA (pte_at m T va))) /\
  (forall va va', a <= va < b -> a <= va' < b -> has (pte_at m T va) PTE_V = true -> has (pte_at m T va') PTE_V = true ->
     PTE2PA (pte_at m T va) = PTE2PA (pte_at m T va') -> va / PGSIZE = va' / PGSIZE).
(** [q] is the frame of a valid page from [a] to [b]. *)
Definition frame_in (m : memory) (T : ptree) (a b q : Z) : Prop :=
  exists va, a <= va < b /\ has (pte_at m T va) PTE_V = true /\ PTE2PA (pte_at m T va) = q.

Record unmapped (s : kstate) (T : ptree) (A : list Z) (a b : Z) (s' : kstate) (A' l' : list Z) : Prop := {
  um_ctx : vmctx s' T A' l';
  um_alloc : forall q, q ∈ A' <-> q ∈ A /\ ~ frame_in (mem s) T a b q;
  um_gone : forall va, a <= va < b -> has (pte_at (mem s') T va) PTE_V = false;
  um_rest : forall va, 0 <= va < MAXVA -> ~ a <= va < b -> pte_at (mem s') T va = pte_at (mem s) T va;
  um_frames : forall q x, q ∈ A' -> (forall c, T c <> Some q) -> q <= x < q + PGSIZE -> mem s' x = mem s x;
  um_frame : s' = set_freelist (freelist s') (set_mem (mem s') s) }.

Lemma page_entry s T va va' : 0 <= va -> 0 <= va' -> va / PGSIZE = va' / PGSIZE -> pte_at (mem s) T va = pte_at (mem s) T va'.
Proof. intros H1 H2 E. rewrite <-(pte_at_page _ _ va), <-(pte_at_page _ _ va') by done. f_equal. unfold PGSIZE in *. dlia. Qed.

Section Unmap.
Context (T : ptree) (pt hi : Z) (Hroot : T N2 = Some pt) (Hhi : hi * PGSIZE <= MAXVA).

(** A page that is not mapped. *)
Lemma unmapped_skip lo s A s' A' l' : 0 <= lo < hi -> has (pte_at (mem s) T (lo * PGSIZE)) PTE_V = false ->
  unmapped s T A ((lo + 1) * PGSIZE) (hi * PGSIZE) s' A' l' -> unmapped s T A (lo * PGSIZE) (hi * PGSIZE) s' A' l'.
Proof.
  intros Hlo HV [U1 U2 U3 U4 U5 U6].
  assert (Hin : forall va, lo * PGSIZE <= va -> va / PGSIZE = lo \/ (lo + 1) * PGSIZE <= va) by (intros va Hva; unfold PGSIZE in *; dlia).
  assert (Hlast : forall va, 0 <= va -> va / PGSIZE = lo -> has (pte_at (mem s) T va) PTE_V = false).
  { intros va H0 E. rewrite (page_entry s T va (lo * PGSIZE)); [done|done|unfold PGSIZE; lia|]. by rewrite Z.div_mul. }
  split; try done.
  - intros q. rewrite U2. split; intros [Hq Hf]; (split; [done|]); intros (va & Hva & Hv & Hp); apply Hf; exists va; split_and!; try done; try lia.
    + destruct (Hin va) as [E|?]; [lia| |done]. rewrite Hlast in Hv by (done || unfold PGSIZE in *; lia). done.
    + unfold PGSIZE in *. lia.
  - intros va Hva. destruct (Hin va) as [E|?]; [lia| |apply U3; lia].
    rewrite U4; [|unfold PGSIZE in *; lia|unfold PGSIZE in *; dlia]. apply Hlast; [unfold PGSIZE in *; lia|done].
  - intros va Hva Hout. apply U4; [done|]. unfold PGSIZE in *. lia.
Qed.
(** A page is given back. *)
Section Page.
Context (lo : Z) (s s1 : kstate) (A A1 l l1 : list Z) (f q : Z).
Context (Hlo : 0 <= lo < hi) (C : vmctx s T A l) (Hown : own_frames (mem s) T A (lo * PGSIZE) (hi * PGSIZE)).
Context (HV : has (pte_at (mem s) T (lo * PGSIZE)) PTE_V = true) (Hf : PTE2PA (pte_at (mem s) T (lo * PGSIZE)) = f).
Context (C1 : vmctx s1 T A1 l1) (HA1 : forall q, q ∈ A1 <-> q ∈ A /\ q <> f) (Hm1 : same_but f (mem s) (mem s1)).
Context (E1 : s1 = set_freelist (freelist s1) (set_mem (mem s1) s)).
Context (Hq : T (N0 (PX 2 (lo * PGSIZE)) (PX 1 (lo * PGSIZE))) = Some q).
Let s2 := set_mem (store64 (mem s1) (q + 8 * PX 0 (lo * PGSIZE)) 0) s1.

Let Hva0 : 0 <= lo * PGSIZE < MAXVA.
Proof. unfold PGSIZE in *. lia. Qed.
Let Hpg : lo * PGSIZE / PGSIZE = lo.
Proof. by apply Z.div_mul. Qed.
Let Hfok : f ∈ A /\ forall c, T c <> Some f.
Proof. rewrite <-Hf. apply Hown; [unfold PGSIZE in *; lia|done]. Qed.
Let Hfal : f mod PGSIZE = 0.
Proof. apply (ctx_al _ _ _ _ _ C). apply Hfok. Qed.

Lemma page_pte va : 0 <= va < MAXVA -> pte_at (mem s2) T va = if decide (va / PGSIZE = lo) then 0 else pte_at (mem s) T va.
Proof.
  intros Hva. unfold s2. rewrite (set_leaf_pte s1 T A1 l1 (lo * PGSIZE) q 0 C1 Hva0 Hq) by done. rewrite Hpg. case_decide; [done|].
  apply (rep_same_but (mem s) (mem s1) T f (vc_rep _ _ _ _ C) Hfal (proj2 Hfok) Hm1). lia.
Qed.
Lemma page_above va : (lo + 1) * PGSIZE <= va < hi * PGSIZE -> pte_at (mem s2) T va = pte_at (mem s) T va.
Proof. intros Hva. rewrite page_pte by (unfold PGSIZE in *; lia). rewrite decide_False; [done|]. unfold PGSIZE in *. dlia. Qed.
Lemma page_frames x y : x ∈ A1 -> (forall c, T c <> Some x) -> x <= y < x + PGSIZE -> mem s2 y = mem s y.
Proof.
  intros Hx HT Hy. unfold s2. rewrite (set_leaf_frames s1 T A1 l1 (lo * PGSIZE) q 0 C1 Hva0 Hq x) by done.
  apply HA1 in Hx as [HxA Hne]. apply (same_but_page f x); [done|by apply (ctx_al _ _ _ _ _ C)|done|done|done].
Qed.
Lemma page_ctx : vmctx s2 T A1 l1.
Proof. by apply set_leaf_ctx. Qed.

Lemma page_own : own_frames (mem s2) T A1 ((lo + 1) * PGSIZE) (hi * PGSIZE).
Proof.
  destruct Hown as [H1 H2]. assert (Hr : forall va, (lo + 1) * PGSIZE <= va < hi * PGSIZE -> lo * PGSIZE <= va < hi * PGSIZE) by (unfold PGSIZE; lia).
  split.
  - intros va Hva. rewrite page_above by done. intros Hv. destruct (H1 va (Hr va Hva) Hv) as [H3 H4]. split; [|done].
    apply HA1. split; [done|]. rewrite <-Hf. intros E.
    assert (va / PGSIZE = lo * PGSIZE / PGSIZE) as Eq by (apply H2; [by apply Hr|unfold PGSIZE in *; lia|done..]).
    rewrite Hpg in Eq. unfold PGSIZE in *. dlia.
  - intros va va' Hva Hva'. rewrite !page_above by done. by apply H2; apply Hr.
Qed.

Lemma page_unmapped s' A' l' : unmapped s2 T A1 ((lo + 1) * PGSIZE) (hi * PGSIZE) s' A' l' ->
  unmapped s T A (lo * PGSIZE) (hi * PGSIZE) s' A' l'.
Proof.
  intros [U1 U2 U3 U4 U5 U6].
  assert (Hin : forall va, lo * PGSIZE <= va -> va / PGSIZE = lo \/ (lo + 1) * PGSIZE <= va) by (intros va Hva; unfold PGSIZE in *; dlia).
  split.
  - done.
  - intros x. rewrite U2, HA1. split.
    + intros [[Hx Hne] Hn]. split; [done|]. intros (va & Hva & Hv & Hp). destruct (Hin va) as [E|Hge]; [lia| |].
      * apply Hne. rewrite <-Hp, <-Hf. f_equal. apply page_entry; [unfold PGSIZE in *; lia..|by rewrite Hpg].
      * apply Hn. exists va. rewrite page_above by lia. split_and!; [lia|lia|done..].
    + intros [Hx Hn]. split; [split; [done|]|].
      * intros ->. apply Hn. exists (lo * PGSIZE). split_and!; [lia|unfold PGSIZE in *; lia|done..].
      * intros (va & Hva & Hv & Hp). rewrite page_above in Hv, Hp by done. apply Hn. exists va. split_and!; [unfold PGSIZE in *; lia|lia|done..].
  - intros va Hva. destruct (Hin va) as [E|?]; [lia| |apply U3; lia].
    rewrite U4; [|unfold PGSIZE in *; lia|unfold PGSIZE in *; dlia]. rewrite page_pte by (unfold PGSIZE in *; lia). by rewrite decide_True.
  - intros va Hva Hout. rewrite U4; [|done|unfold PGSIZE in *; lia]. rewrite page_pte by done. rewrite decide_False; [done|].
    intros E. apply Hout. unfold PGSIZE in *. dlia.
  - intros x y Hx HT Hy. rewrite (U5 x) by done. apply (page_frames x); [|done|done]. by apply U2.
  - rewrite U6. unfold s2. rewrite E1. done.
Qed.
End Page.

Lemma unmap_loop_spec n : forall lo s A l, vmctx s T A l -> own_frames (mem s) T A (lo * PGSIZE) (hi * PGSIZE) ->
  0 <= lo -> lo + Z.of_nat n = hi ->
  wp (uvmunmap_loop n pt (lo * PGSIZE) (hi * PGSIZE) true)
     (fun _ s' => exists A' l', unmapped s T A (lo * PGSIZE) (hi * PGSIZE) s' A' l') s.
Proof.
  induction n as [|n IH]; intros lo s A l C Hown Hlo Hn.
  { cbn [uvmunmap_loop]. apply wp_ret. exists A, l. assert (lo = hi) as -> by lia. split; try done; try lia.
    intros q. split; [intros Hq; split; [done|]; intros (? & ? & _); lia|by intros []]. }
  cbn [uvmunmap_loop]. assert (Hmax : 0 <= lo * PGSIZE < MAXVA) by (unfold PGSIZE in *; lia).
  destruct (Z.ltb_spec (lo * PGSIZE) (hi * PGSIZE)); [|unfold PGSIZE in *; lia].
  rewrite u64_small by (unfold PGSIZE in *; change MAXVA with (2 ^ 38) in *; lia).
  replace (lo * PGSIZE + PGSIZE) with ((lo + 1) * PGSIZE) by lia. pose proof (vc_rep _ _ _ _ C) as Hr.
  assert (Hskip : has (pte_at (mem s) T (lo * PGSIZE)) PTE_V = false ->
    wp (uvmunmap_loop n pt ((lo + 1) * PGSIZE) (hi * PGSIZE) true)
       (fun _ s' => exists A' l', unmapped s T A (lo * PGSIZE) (hi * PGSIZE) s' A' l') s).
  { intros HV. eapply wp_mono; [apply (IH (lo + 1) s A l C); [|lia|lia]|].
    - destruct Hown as [H1 H2]. split; [intros va Hva|intros va va' Hva Hva']; [apply H1|apply H2]; unfold PGSIZE in *; lia.
    - intros [] s' (A' & l' & U). exists A', l'. apply unmapped_skip; [lia|done|done]. }
  apply wp_bind, wp_bind. eapply wp_intro; [exact (walk_eval (mem s) T pt _ s Hr eq_refl Hroot Hmax)|].
  destruct (T (N0 _ _)) as [q|] eqn:Hq.
  2:{ cbn. apply Hskip. unfold pte_at, leaf. by rewrite Hq. }
  destruct (Z.eqb_spec (q + 8 * PX 0 (lo * PGSIZE)) 0) as [E|_]; [destruct (leaf_addr_pos (mem s) T _ q Hr (proj1 Hmax) Hq E)|].
  apply wp_bind, wp_gets. rewrite (read_leaf _ T) by done.
  destruct (has (pte_at (mem s) T (lo * PGSIZE)) PTE_V) eqn:HV; cbn [negb]; [|by apply wp_ret, Hskip].
  destruct (proj1 Hown (lo * PGSIZE)) as [HfA HfT]; [unfold PGSIZE in *; lia|done|].
  apply wp_bind. unfold when. apply (kfree_ctx s T A l); [done..|]. intros s1 A1 l1 C1 HA1 Hm1 E1. apply wp_modify.
  eapply wp_mono; [apply (IH (lo + 1) _ A1 l1)|].
  - apply (page_ctx lo s1 A1 l1 q); [lia|done|done].
  - by eapply (page_own lo s s1 A A1 l l1); [lia|..].
  - lia.
  - lia.
  - intros [] s' (A' & l' & U). exists A', l'. by eapply (page_unmapped lo s s1 A A1 l l1); [lia|..].
Qed.
End Unmap.

(** ** Entries *)
Lemma has_0 bit : has 0 bit = false. Proof. done. Qed.
Lemma mkpte_0 : has (mkpte 0 0) PTE_V = false. Proof. done. Qed.
Lemma PTE_FLAGS_ok e : flags_ok (PTE_FLAGS e).
Proof.
  unfold flags_ok, PTE_FLAGS. change 0x3FF with (Z.ones 10). rewrite Z.land_ones by lia. apply Z.mod_pos_bound. lia.
Qed.
Lemma PTE_FLAGS_has e bit : 0 <= bit < 1024 -> has (PTE_FLAGS e) bit = has e bit.
Proof.
  intros Hb. unfold has, PTE_FLAGS. rewrite <-Z.land_assoc. do 3 f_equal. change 0x3FF with (Z.ones 10).
  rewrite Z.land_comm, Z.land_ones by lia. apply Z.mod_small. change (2 ^ 10) with 1024. lia.
Qed.
Lemma PTE_FLAGS_V e : has e PTE_V = true -> Z.lor (PTE_FLAGS e) PTE_V = PTE_FLAGS e.
Proof.
  intros H. rewrite <-(PTE_FLAGS_has e) in H by (split; done). unfold has in H.
  apply Z.bits_inj'. intros n Hn. rewrite Z.lor_spec. destruct (Z.testbit PTE_V n) eqn:E; [|apply orb_false_r].
  rewrite orb_true_r. destruct (decide (n = 0)) as [->|Hne].
  - symmetry. destruct (Z.testbit (PTE_FLAGS e) 0) eqn:E0; [done|]. exfalso.
    assert (Z.land (PTE_FLAGS e) PTE_V = 0) as E1; [|by rewrite E1 in H].
    apply Z.bits_inj'. intros k Hk. rewrite Z.land_spec, Z.bits_0. destruct (decide (k = 0)) as [->|]; [by rewrite E0|].
    change PTE_V with (2 ^ 0). rewrite Z.pow2_bits_false by lia. apply andb_false_r.
  - change PTE_V with (2 ^ 0) in E. rewrite Z.pow2_bits_false in E by lia. done.
Qed.

(** The contents of a page copied to another. *)
Lemma store_load_page m p q x : 0 <= x < PGSIZE -> store m p (load m q (Z.to_nat PGSIZE)) (p + x) = m (q + x).
Proof.
  intros Hx. unfold store. rewrite length_load, Z2Nat.id by done. rewrite bool_decide_true by lia.
  replace (p + x - p) with x by lia. unfold load. rewrite nth_lookup, list_lookup_fmap, lookup_seq_lt by lia. cbn. f_equal. lia.
Qed.


(** A page of memory more, with new contents, or no memory. *)
Lemma alloc_write s T A l (w : kstate -> Z -> memory) (err : K Z) (rest : Z -> K Z) Q : vmctx s T A l ->
  (forall s1 p, same_but p (mem s1) (w s1 p)) -> (l = [] -> wp err Q s) ->
  (forall p l1 s1, l = p :: l1 -> p ∉ A -> pa_ok p -> 0 < p -> (forall a, T a <> Some p) -> same_but p (mem s) (mem s1) ->
     let s2 := set_mem (w s1 p) s1 in
     vmctx s2 T (p :: A) l1 -> undisturbed s T A s2 T (p :: A) ->
     (forall va, 0 <= va -> pte_at (mem s2) T va = pte_at (mem s) T va) -> wp (rest p) Q s2) ->
  wp (m ← kalloc; if m =? 0 then err else modify (fun s => set_mem (w s m) s);; rest m) Q s.
Proof.
  intros C Hw Herr Hok. apply wp_bind, (kalloc_ctx s T A l); [done|exact Herr|].
  intros p l1 s1 -> HpA Hp Hp0 HpT C1 Hm1 E1. destruct (Z.eqb_spec p 0); [lia|].
  apply wp_bind, wp_modify. pose proof (Hw s1 p) as Hm2. eapply (Hok p l1 s1); try done; set (s2 := set_mem _ s1).
  - by apply (ctx_write s1 T (p :: A) l1 p); [|left|..].
  - assert (Hal : forall q, q ∈ A -> q mod PGSIZE = 0) by (intros x; apply (ctx_al _ _ _ _ _ C)).
    assert (K1 : undisturbed s T A s1 T (p :: A)).
    { apply (undisturbed_same_but _ _ _ s T A s1 (p :: A) p (undisturbed_refl _ _ _) HpA (proj1 Hp) Hal); [|done|done]. intros x ? _. by right. }
    apply (undisturbed_same_but _ _ _ s1 T (p :: A) s2 (p :: A) p K1 HpA (proj1 Hp) Hal); done.
  - intros va Hva. rewrite (proj2 (rep_same_but (mem s1) (mem s2) T p (vc_rep _ _ _ _ C1) (proj1 Hp) HpT Hm2)) by done.
    by rewrite (proj2 (rep_same_but (mem s) (mem s1) T p (vc_rep _ _ _ _ C) (proj1 Hp) HpT Hm1)).
Qed.

(** ** Filling a range of pages

    The pages from [lo] to [hi] of a page table get frames one after the other: the page of [va]
    is to be mapped when the entry [pe va] is valid, with its flags and the contents [cont va]. *)
Section Fill.
Context (s0 : kstate) (T0 : ptree) (A0 l0 : list Z) (new lo hi : Z) (pe : Z -> Z) (cont : Z -> Z -> Z).
Context (C0 : vmctx s0 T0 A0 l0) (Hnew : T0 N2 = Some new).
Context (Hpe : forall va, 0 <= va -> pe (va / PGSIZE * PGSIZE) = pe va).
Context (Hcont : forall va, 0 <= va -> cont (va / PGSIZE * PGSIZE) = cont va).
Context (Hlo : 0 <= lo <= hi) (Hhi : hi * PGSIZE <= MAXVA).
Context (Hfree : forall va, lo * PGSIZE <= va < hi * PGSIZE -> has (pte_at (mem s0) T0 va) PTE_V = false).

Definition filled_page (s : kstate) (T : ptree) (A : list Z) (va : Z) : Prop :=
  exists f, pte_at (mem s) T va = mkpte f (PTE_FLAGS (pe va)) /\ pa_ok f /\ f ∈ A /\ f ∉ A0 /\ (forall a, T a <> Some f) /\
    forall x, 0 <= x < PGSIZE -> mem s (f + x) = cont va x.

(** The pages below [k] are done. *)
Record filling (k : Z) (s : kstate) (T : ptree) (A l : list Z) : Prop := {
  fi_ctx : vmctx s T A l;
  fi_kept : undisturbed s0 T0 A0 s T A;
  fi_page : forall va, lo * PGSIZE <= va < k * PGSIZE -> has (pe va) PTE_V = true -> filled_page s T A va;
  fi_none : forall va, lo * PGSIZE <= va < k * PGSIZE -> has (pe va) PTE_V = false ->
    has (pte_at (mem s) T va) PTE_V = false;
  fi_rest : forall va, 0 <= va < MAXVA -> ~ lo * PGSIZE <= va < k * PGSIZE -> pte_at (mem s) T va = pte_at (mem s0) T0 va;
  fi_inj : forall va va', lo * PGSIZE <= va < k * PGSIZE -> lo * PGSIZE <= va' < k * PGSIZE ->
    has (pe va) PTE_V = true -> has (pe va') PTE_V = true ->
    PTE2PA (pte_at (mem s) T va) = PTE2PA (pte_at (mem s) T va') -> va / PGSIZE = va' / PGSIZE;
  fi_acct : forall p, p ∈ A -> p ∈ A0 \/ (exists a, T a = Some p) \/
    exists va, lo * PGSIZE <= va < k * PGSIZE /\ has (pe va) PTE_V = true /\ PTE2PA (pte_at (mem s) T va) = p }.

Lemma filling_start : filling lo s0 T0 A0 l0.
Proof. split; [done|apply undisturbed_refl|lia|lia|done|lia|by left]. Qed.

Let Hmax va k : k <= hi -> lo * PGSIZE <= va < k * PGSIZE -> 0 <= va < MAXVA.
Proof. intros Hk Hva. unfold PGSIZE in *. lia. Qed.

Lemma filling_root k s T A l : filling k s T A l -> T N2 = Some new.
Proof. intros G. by apply (fi_kept _ _ _ _ _ G). Qed.

(** The entry of a page that is done. *)
Lemma filling_entry k s T A l va : filling k s T A l -> lo * PGSIZE <= va < k * PGSIZE ->
  has (pte_at (mem s) T va) PTE_V = has (pe va) PTE_V.
Proof.
  intros G Hva. destruct (has (pe va) PTE_V) eqn:E.
  - destruct (fi_page _ _ _ _ _ G va Hva E) as (f & -> & Hf & _). rewrite mkpte_has by (done || apply PTE_FLAGS_ok || (split; done)).
    by rewrite PTE_FLAGS_has by (split; done).
  - by apply (fi_none _ _ _ _ _ G).
Qed.

(** A page that is not to be mapped is skipped. *)
Lemma filling_skip i s T A l : filling i s T A l -> lo <= i < hi -> has (pe (i * PGSIZE)) PTE_V = false ->
  filling (i + 1) s T A l.
Proof.
  intros G Hi Hv.
  assert (Hlast : forall va, i * PGSIZE <= va < (i + 1) * PGSIZE -> has (pe va) PTE_V = false).
  { intros va Hva. rewrite <-Hpe by (unfold PGSIZE in *; lia). by replace (va / PGSIZE) with i by (unfold PGSIZE in *; dlia). }
  assert (Hold' : forall va, lo * PGSIZE <= va < (i + 1) * PGSIZE -> has (pe va) PTE_V = true -> va < i * PGSIZE).
  { intros va Hva H. destruct (decide (va < i * PGSIZE)); [done|]. rewrite Hlast in H by lia. done. }
  destruct G as [G1 G2 G3 G4 G5 G6 G7]. split; try done.
  - intros va Hva Hv'. apply G3; [|done]. split; [lia|]. apply Hold'; [lia|done].
  - intros va Hva Hv'. destruct (decide (va < i * PGSIZE)); [apply G4; [lia|done]|].
    rewrite G5; [apply Hfree| |]; unfold PGSIZE in *; lia.
  - intros va Hva Hn. apply G5; [done|]. unfold PGSIZE in *. lia.
  - intros va va' Hva Hva' Hv1 Hv2. apply G6; try done; (split; [lia|by apply Hold'; [lia|]]).
  - intros p Hp. destruct (G7 p Hp) as [H|[H|(va & H1 & H2 & H3)]]; [by left|by right; left|]. right; right. exists va. split_and!; try done; unfold PGSIZE in *; lia.
Qed.

Lemma filled_page_kept s T A s' T' A' va : undisturbed s T A s' T' A' -> pte_at (mem s') T' va = pte_at (mem s) T va ->
  filled_page s T A va -> filled_page s' T' A' va.
Proof.
  intros K E (f & H1 & H2 & H3 & H4 & H5 & H6). exists f. rewrite E. destruct (ud_frames _ _ _ _ _ _ K f H3 H5) as [K1 K2].
  split_and!; try done; [by apply K|]. intros x Hx. rewrite K2 by lia. by apply H6.
Qed.

(** The page tables may have grown. *)
Lemma filling_same i s T A l s' T' A' l' : filling i s T A l -> lo <= i <= hi -> vmctx s' T' A' l' -> undisturbed s T A s' T' A' ->
  (forall va, 0 <= va < MAXVA -> pte_at (mem s') T' va = pte_at (mem s) T va) ->
  (forall q, q ∈ A' -> q ∈ A \/ exists a, T' a = Some q) -> filling i s' T' A' l'.
Proof.
  intros [G1 G2 G3 G4 G5 G6 G7] Hi C K Hpte Hacct.
  assert (Hr : forall va, lo * PGSIZE <= va < i * PGSIZE -> 0 <= va < MAXVA) by (intros va; apply Hmax; lia).
  split.
  - done.
  - by eapply undisturbed_trans.
  - intros va Hva Hv. eapply filled_page_kept; [exact K|apply Hpte, Hr; lia|by apply G3].
  - intros va Hva Hc. rewrite Hpte by (by apply Hr). by apply G4.
  - intros va Hva Hn. rewrite Hpte by done. by apply G5.
  - intros va va' Hva Hva' Hv Hv'. rewrite !Hpte by (apply Hr; lia). by apply G6.
  - intros q Hq. destruct (Hacct q Hq) as [Hq'|?]; [|by right; left]. destruct (G7 q Hq') as [?|[[a Ha]|(va & H1 & H2 & H3)]].
    + by left.
    + right; left. exists a. by apply K.
    + right; right. exists va. split_and!; [lia|lia|done|]. by rewrite Hpte by (apply Hr; lia).
Qed.

(** A page more. *)
Lemma filling_more i s T A l s' T' A' l' p : filling i s T A l -> lo <= i < hi -> has (pe (i * PGSIZE)) PTE_V = true ->
  vmctx s' T' A' l' -> undisturbed s T A s' T' A' ->
  (forall va, 0 <= va < MAXVA -> pte_at (mem s') T' va =
     if decide (va / PGSIZE = i) then mkpte p (PTE_FLAGS (pe (i * PGSIZE))) else pte_at (mem s) T va) ->
  p ∉ A -> p ∈ A' -> pa_ok p -> (forall a, T' a <> Some p) ->
  (forall x, 0 <= x < PGSIZE -> mem s' (p + x) = cont (i * PGSIZE) x) ->
  (forall q, q ∈ A' -> q ∈ A \/ q = p \/ exists a, T' a = Some q) -> filling (i + 1) s' T' A' l'.
Proof.
  intros [G1 G2 G3 G4 G5 G6 G7] Hi Hiv C K Hpte HpA HpA' Hp HpT Hmem Hacct.
  assert (Hr : forall va, lo * PGSIZE <= va < (i + 1) * PGSIZE -> 0 <= va < MAXVA) by (intros va; apply Hmax; lia).
  assert (Hlt : forall va, lo * PGSIZE <= va < (i + 1) * PGSIZE -> va / PGSIZE <> i -> va < i * PGSIZE) by (intros va ? ?; unfold PGSIZE in *; dlia).
  assert (Hf : forall va, lo * PGSIZE <= va < i * PGSIZE -> has (pe va) PTE_V = true -> PTE2PA (pte_at (mem s) T va) ∈ A).
  { intros va Hva Hv. destruct (G3 va Hva Hv) as (f & -> & Hfp & HfA & _). by rewrite mkpte_pa by (done || apply PTE_FLAGS_ok). }
  assert (Hpp : PTE2PA (mkpte p (PTE_FLAGS (pe (i * PGSIZE)))) = p) by (apply mkpte_pa; [done|apply PTE_FLAGS_ok]).
  assert (Hpe' : forall va, 0 <= va -> va / PGSIZE = i -> pe va = pe (i * PGSIZE)) by (intros va ? <-; by rewrite Hpe).
  assert (Hc' : forall va, 0 <= va -> va / PGSIZE = i -> cont va = cont (i * PGSIZE)) by (intros va ? <-; by rewrite Hcont).
  split.
  - done.
  - by eapply undisturbed_trans.
  - intros va Hva Hv. pose proof (Hr va Hva). destruct (decide (va / PGSIZE = i)) as [E|E].
    + exists p. rewrite Hpte, decide_True, (Hpe' va) by (done || lia). split_and!; try done.
      * intros Hp0. apply HpA. by apply G2.
      * intros x Hx. rewrite (Hc' va) by (done || lia). by apply Hmem.
    + eapply filled_page_kept; [exact K|by rewrite Hpte, decide_False by (done || (apply Hr; lia))|]. apply G3; [|done]. split; [lia|by apply Hlt].
  - intros va Hva Hv. pose proof (Hr va Hva). destruct (decide (va / PGSIZE = i)) as [E|E].
    + rewrite (Hpe' va) in Hv by (done || lia). congruence.
    + rewrite Hpte, decide_False by (done || (by apply Hr)). apply G4; [|done]. split; [lia|by apply Hlt].
  - intros va Hva Hn. rewrite Hpte, decide_False by (done || (unfold PGSIZE in *; dlia)). apply G5; [done|]. unfold PGSIZE in *. lia.
  - intros va va' Hva Hva' Hv Hv'. rewrite !Hpte by (apply Hr; lia). destruct (decide (va / PGSIZE = i)), (decide (va' / PGSIZE = i)); intros Eq; [congruence|..].
    + exfalso. apply HpA. rewrite Hpp in Eq. rewrite Eq. apply (Hf va'); [|exact Hv']. split; [lia|by apply Hlt; [lia|]].
    + exfalso. apply HpA. rewrite Hpp in Eq. rewrite <-Eq. apply (Hf va); [|exact Hv]. split; [lia|by apply Hlt; [lia|]].
    + apply G6; try done; (split; [lia|by apply Hlt; [lia|]]).
  - intros q Hq. destruct (Hacct q Hq) as [Hq'|[->|?]]; [|right; right|by right; left].
    + destruct (G7 q Hq') as [?|[[a Ha]|(va & H1 & H2 & H3)]]; [by left|right; left; exists a; by apply K|].
      right; right. exists va. split_and!; [lia|unfold PGSIZE in *; lia|done|].
      rewrite Hpte, decide_False; [done| |apply Hr; unfold PGSIZE in *; lia].
      clear - H1. unfold PGSIZE in *. dlia.
    + exists (i * PGSIZE). split_and!; [unfold PGSIZE; lia|unfold PGSIZE; lia|done|].
      rewrite Hpte, decide_True; [done|by apply Z.div_mul|apply Hr; unfold PGSIZE; lia].
Qed.

(** All the pages are given back. *)
Record unfilled (s : kstate) (T : ptree) (A l : list Z) : Prop := {
  un_ctx : vmctx s T A l;
  un_kept : undisturbed s0 T0 A0 s T A;
  un_none : forall va, lo * PGSIZE <= va < hi * PGSIZE -> has (pte_at (mem s) T va) PTE_V = false;
  un_rest : forall va, 0 <= va < MAXVA -> ~ lo * PGSIZE <= va < hi * PGSIZE -> pte_at (mem s) T va = pte_at (mem s0) T0 va;
  un_acct : forall p, p ∈ A -> p ∈ A0 \/ exists a, T a = Some p }.

Lemma filling_own i s T A l : filling i s T A l -> own_frames (mem s) T A (lo * PGSIZE) (i * PGSIZE).
Proof.
  intros G. split.
  - intros va Hva Hv. rewrite (filling_entry i s T A l va G) in Hv by done.
    destruct (fi_page _ _ _ _ _ G va Hva Hv) as (f & -> & Hf & HfA & _ & HfT & _). rewrite mkpte_pa by (done || apply PTE_FLAGS_ok). done.
  - intros va va' Hva Hva' Hv Hv'. rewrite (filling_entry i s T A l va G) in Hv by done. rewrite (filling_entry i s T A l va' G) in Hv' by done.
    by apply (fi_inj _ _ _ _ _ G).
Qed.

(** The old pages are not among the frames given back. *)
Lemma filling_frame_in i s T A l q : filling i s T A l -> frame_in (mem s) T (lo * PGSIZE) (i * PGSIZE) q -> q ∉ A0.
Proof.
  intros G (va & Hva & Hv & <-). rewrite (filling_entry i s T A l va G) in Hv by done.
  destruct (fi_page _ _ _ _ _ G va Hva Hv) as (f & -> & Hf & _ & Hf0 & _). by rewrite mkpte_pa by (done || apply PTE_FLAGS_ok).
Qed.

Lemma unmapped_unfilled i s T A l s' A' l' : lo <= i <= hi -> filling i s T A l ->
  unmapped s T A (lo * PGSIZE) (i * PGSIZE) s' A' l' -> unfilled s' T A' l'.
Proof.
  intros Hi G [U1 U2 U3 U4 U5 U6]. pose proof (fi_kept _ _ _ _ _ G) as [K1 K2 K3 K4 K5].
  assert (HA : forall q, q ∈ A0 -> q ∈ A').
  { intros q Hq. apply U2. split; [by apply K2|]. intros Hf. by apply (filling_frame_in i s T A l q G). }
  split.
  - done.
  - split; [done|done| |by rewrite U6, K4|done]. intros q Hq HT. destruct (K3 q Hq HT) as [H1 H2]. split; [done|].
    intros x Hx. rewrite (U5 q x (HA q Hq) H1 Hx). by apply H2.
  - intros va Hva. pose proof (Hmax va hi ltac:(lia) Hva). destruct (decide (va < i * PGSIZE)); [apply U3; lia|]. rewrite U4 by lia.
    rewrite (fi_rest _ _ _ _ _ G) by lia. by apply Hfree.
  - intros va Hva Hn. rewrite U4 by (unfold PGSIZE in *; lia). apply (fi_rest _ _ _ _ _ G); [done|]. unfold PGSIZE in *. lia.
  - intros q [Hq Hf]%U2. destruct (fi_acct _ _ _ _ _ G q Hq) as [?|[?|(va & Hva & Hv & E)]]; [by left|by right|].
    destruct Hf. exists va. rewrite (filling_entry i s T A l va G) by done. split_and!; [lia|lia|done..].
Qed.

Lemma unmap_filled i s T A l : lo <= i <= hi -> filling i s T A l ->
  wp (uvmunmap new (lo * PGSIZE) (i - lo) true) (fun _ s' => exists A' l', unfilled s' T A' l') s.
Proof.
  intros Hi G. unfold uvmunmap. rewrite Z_mod_mult. cbn [Z.eqb negb panic_if]. apply wp_bind, wp_ret.
  replace (lo * PGSIZE + (i - lo) * PGSIZE) with (i * PGSIZE) by lia.
  assert (Hi2 : i * PGSIZE <= MAXVA) by (unfold PGSIZE in *; lia).
  rewrite u64_small by (unfold PGSIZE in *; change MAXVA with (2 ^ 38) in *; lia).
  eapply wp_mono; [apply (unmap_loop_spec T new i (filling_root _ _ _ _ _ G) Hi2 _ lo s A l (fi_ctx _ _ _ _ _ G)); [by eapply filling_own|lia|lia]|].
  intros [] s' (A' & l' & U). exists A', l'. by eapply (unmapped_unfilled i s T A l).
Qed.

(** The contents of page [i] are in the frame [p]; it is mapped, or given back. *)
Lemma map_fill i s T A l s2 l2 p perm (next err : K Z) Q : lo <= i < hi -> filling i s T A l -> has (pe (i * PGSIZE)) PTE_V = true ->
  flags_ok perm -> Z.lor perm PTE_V = PTE_FLAGS (pe (i * PGSIZE)) ->
  vmctx s2 T (p :: A) l2 -> undisturbed s T A s2 T (p :: A) -> p ∉ A -> pa_ok p -> 0 < p -> (forall a, T a <> Some p) ->
  (forall va, 0 <= va -> pte_at (mem s2) T va = pte_at (mem s) T va) ->
  (forall x, 0 <= x < PGSIZE -> mem s2 (p + x) = cont (i * PGSIZE) x) ->
  (forall s' T' A' l', filling (i + 1) s' T' A' l' -> pte_at (mem s') T' (i * PGSIZE) = mkpte p (PTE_FLAGS (pe (i * PGSIZE))) -> wp next Q s') ->
  (forall s' T' A' l', filling i s' T' A' l' -> wp err Q s') ->
  wp (r ← mappages new (i * PGSIZE) PGSIZE p perm; if negb (r =? 0) then kfree p;; err else next) Q s2.
Proof.
  intros Hi G HV Hperm Hfl C2 K2 HpA Hp Hp0 HpT Hpte2 Hcopy Hnext Herr.
  assert (Hm : 0 <= i * PGSIZE < MAXVA /\ (i + 1) * PGSIZE <= MAXVA) by (unfold PGSIZE in *; lia).
  apply wp_bind. eapply wp_mono.
  { apply (mappages_spec s2 T (p :: A) l2 new perm (i * PGSIZE) p 1).
    - done.
    - done.
    - by eapply filling_root.
    - by apply Z_mod_mult.
    - lia.
    - lia.
    - lia.
    - apply Hp.
    - lia.
    - destruct (ctx_page _ _ _ _ p C2) as (_ & _ & [_ Hph]); [by left|]. unfold PHYSTOP, KERNBASE, PGSIZE in *. lia.
    - intros k Hk. assert (k = 0) as -> by lia. rewrite Z.mul_0_l, Z.add_0_r, Hpte2 by lia.
      rewrite (fi_rest _ _ _ _ _ G) by (unfold PGSIZE in *; lia). apply Hfree. unfold PGSIZE in *. lia. }
  intros r s3 (T3 & A3 & l3 & d & C3 & K3 & _ & Hr & Hpte3).
  assert (Hnew3 : forall x, x ∈ A3 -> x ∈ A \/ x = p \/ exists a, T3 a = Some x).
  { intros x [[->|?]%elem_of_cons|?]%(kp_new _ _ _ _ _ _ K3); auto. }
  destruct (kp_frames _ _ _ _ _ _ K3 p ltac:(by left) HpT) as [HpT3 Hp3].
  pose proof (kp_alloc _ _ _ _ _ _ K3 p ltac:(by left)) as HpA3.
  apply kept_undisturbed in K3. pose proof (undisturbed_trans _ _ _ _ _ _ _ _ _ K2 K3) as K03.
  destruct Hr as [[-> ->]|(-> & Hd & ->)]; cbn [negb Z.eqb].
  - assert (Hpte4 : forall va, 0 <= va < MAXVA -> pte_at (mem s3) T3 va =
      if decide (va / PGSIZE = i) then mkpte p (PTE_FLAGS (pe (i * PGSIZE))) else pte_at (mem s) T va).
    { intros va Hva. rewrite Hpte3, Hfl by done. unfold map_range. case_decide as E1; case_decide as E2.
      - f_equal. clear - E1. unfold PGSIZE in *. dlia.
      - exfalso. clear - E1 E2. unfold PGSIZE in *. dlia.
      - exfalso. clear - E1 E2. unfold PGSIZE in *. dlia.
      - apply Hpte2. lia. }
    apply (Hnext s3 T3 A3 l3); [|by rewrite Hpte4, Z.div_mul, decide_True by (done || lia)].
    apply (filling_more i s T A l s3 T3 A3 l3 p); try done.
    intros x Hx. rewrite Hp3 by lia. by apply Hcopy.
  - apply wp_bind, (kfree_ctx s3 T3 A3 []); [done..|]. intros s4 A4 l4 C4 HA4 Hm4 E4. apply (Herr s4 T3 A4 l4).
    assert (d = 0) as -> by lia.
    apply (filling_same i s T A l s4 T3 A4 l4 G); [lia|done| | |].
    + apply (undisturbed_same_but _ _ _ s3 T3 A3 s4 A4 p K03 HpA (proj1 Hp)); [|intros x ? ?; by apply HA4|done|done].
      intros x. apply (ctx_al _ _ _ _ _ (fi_ctx _ _ _ _ _ G)).
    + intros va Hva. rewrite (proj2 (rep_same_but (mem s3) (mem s4) T3 p (vc_rep _ _ _ _ C3) (proj1 Hp) HpT3 Hm4)) by lia.
      rewrite Hpte3, map_range_0 by done. apply Hpte2. lia.
    + intros x [Hx Hne]%HA4. destruct (Hnew3 x Hx) as [?|[?|?]]; auto. done.
Qed.
End Fill.

(** ** Copying pages *)
Lemma uvmcopy_loop_S fuel old new i size : uvmcopy_loop (S fuel) old new i size =
  (if i <? size then
     pte ← walk old i false;
     if pte =? 0 then uvmcopy_loop fuel old new (u64 (i + PGSIZE)) size
     else
       e ← read_pte pte;
       if negb (has e PTE_V) then uvmcopy_loop fuel old new (u64 (i + PGSIZE)) size
       else
         m ← kalloc;
         if m =? 0 then uvmunmap new 0 (i / PGSIZE) true;; ret (-1)
         else
           modify (fun s => set_mem (store (mem s) m (load (mem s) (PTE2PA e) (Z.to_nat PGSIZE))) s);;
           r ← mappages new i PGSIZE m (PTE_FLAGS e);
           if negb (r =? 0) then kfree m;; (uvmunmap new 0 (i / PGSIZE) true;; ret (-1))
           else uvmcopy_loop fuel old new (u64 (i + PGSIZE)) size
   else ret 0).
Proof. reflexivity. Qed.

Section Copy.
Context (s0 : kstate) (T0 T1 : ptree) (A0 l0 : list Z) (old new size : Z).
Context (C0 : vmctx s0 T0 A0 l0) (Hnew : T0 N2 = Some new).
(** The parent: its page table and the frames below [size] are allocated and not the child's. *)
Context (Hrep1 : rep (mem s0) T1) (Hold : T1 N2 = Some old).
Context (Htree1 : forall a p, T1 a = Some p -> p ∈ A0 /\ forall b, T0 b <> Some p).
Let pe (va : Z) : Z := pte_at (mem s0) T1 va.
Context (Hframe1 : forall va, 0 <= va < size -> has (pe va) PTE_V = true ->
  PTE2PA (pe va) ∈ A0 /\ forall b, T0 b <> Some (PTE2PA (pe va))).
(** The child has no page below [size]. *)
Definition npages : Z := (size + PGSIZE - 1) / PGSIZE.
Context (Hsize : 0 <= size <= MAXVA).
Context (Hfree : forall va, 0 <= va < npages * PGSIZE -> has (pte_at (mem s0) T0 va) PTE_V = false).

(** The pages of the child are filled from those of the parent. *)
Definition copying : Z -> kstate -> ptree -> list Z -> list Z -> Prop :=
  filling s0 T0 A0 0 pe (fun va x => mem s0 (PTE2PA (pe va) + x)).

(** The parent is as it was. *)
Lemma parent_kept s T A : undisturbed s0 T0 A0 s T A -> rep (mem s) T1 /\ forall va, 0 <= va -> pte_at (mem s) T1 va = pe va.
Proof.
  intros K. apply rep_ext; [done|]. intros a p x Ha Hx. destruct (Htree1 a p Ha) as [H1 H2].
  by apply (ud_frames _ _ _ _ _ _ K p H1 H2).
Qed.
Lemma parent_mem s T A va x : undisturbed s0 T0 A0 s T A -> 0 <= va < size -> has (pe va) PTE_V = true -> 0 <= x < PGSIZE ->
  mem s (PTE2PA (pe va) + x) = mem s0 (PTE2PA (pe va) + x).
Proof.
  intros K Hva Hv Hx. destruct (Hframe1 va Hva Hv) as [H1 H2]. apply (ud_frames _ _ _ _ _ _ K _ H1 H2). lia.
Qed.
Lemma pe_page va : 0 <= va -> pe (va / PGSIZE * PGSIZE) = pe va.
Proof. intros Hva. unfold pe. rewrite <-(pte_at_page _ _ va) by done. f_equal. unfold PGSIZE. dlia. Qed.

Let Hcont va : 0 <= va -> (fun x => mem s0 (PTE2PA (pe (va / PGSIZE * PGSIZE)) + x)) = (fun x => mem s0 (PTE2PA (pe va) + x)).
Proof. intros Hva. by rewrite pe_page. Qed.
Let Hn : 0 <= 0 <= npages.
Proof. unfold npages, PGSIZE in *. dlia. Qed.
Let Hmax : npages * PGSIZE <= MAXVA.
Proof. unfold npages, PGSIZE in *. change MAXVA with (2 ^ 38) in *. dlia. Qed.
Let Hfree' va : 0 * PGSIZE <= va < npages * PGSIZE -> has (pte_at (mem s0) T0 va) PTE_V = false.
Proof. rewrite Z.mul_0_l. apply Hfree. Qed.

Lemma page_max i : 0 <= i -> i < npages -> 0 <= i * PGSIZE < MAXVA /\ i * PGSIZE < size.
Proof. intros H1 H2. unfold npages, PGSIZE in *. change MAXVA with (2 ^ 38) in *. dlia. Qed.

Definition copy_post (r : Z) (s' : kstate) : Prop :=
  exists T A l, r = 0 /\ copying npages s' T A l \/ r = -1 /\ unfilled s0 T0 A0 0 npages s' T A l.

Lemma copy_err i s T A l : 0 <= i <= npages -> copying i s T A l -> wp (uvmunmap new 0 i true;; ret (-1)) copy_post s.
Proof.
  intros Hi G. apply wp_bind.
  pose proof (unmap_filled _ _ _ _ 0 npages pe _ Hnew Hn Hmax Hfree' i s T A l Hi G) as H.
  rewrite Z.mul_0_l, Z.sub_0_r in H. eapply wp_mono; [exact H|]. intros [] s1 (A1 & l1 & G1).
  apply wp_ret. exists T, A1, l1. by right.
Qed.

(** One page: nothing to copy, a copy, or no memory. *)
Lemma copy_page i s T A l next : 0 <= i < npages -> copying i s T A l ->
  (forall s' T' A' l', copying (i + 1) s' T' A' l' -> wp next copy_post s') ->
  wp (pte ← walk old (i * PGSIZE) false;
      if pte =? 0 then next
      else
        e ← read_pte pte;
        if negb (has e PTE_V) then next
        else
          m ← kalloc;
          if m =? 0 then uvmunmap new 0 i true;; ret (-1)
          else
            modify (fun s => set_mem (store (mem s) m (load (mem s) (PTE2PA e) (Z.to_nat PGSIZE))) s);;
            r ← mappages new (i * PGSIZE) PGSIZE m (PTE_FLAGS e);
            if negb (r =? 0) then kfree m;; (uvmunmap new 0 i true;; ret (-1)) else next)
     copy_post s.
Proof.
  intros Hi G Hnext. destruct (page_max i ltac:(lia) ltac:(lia)) as [Hmaxi Hsz].
  pose proof (fi_kept _ _ _ _ _ _ _ _ _ _ _ G) as K. destruct (parent_kept _ _ _ K) as [Hr1 Hpe]. pose proof (Hpe (i * PGSIZE) ltac:(lia)) as Hent.
  assert (Hskip : has (pe (i * PGSIZE)) PTE_V = false -> wp next copy_post s).
  { intros HV. apply (Hnext s T A l). by apply (filling_skip _ _ _ 0 npages pe _ pe_page Hn Hmax Hfree'). }
  apply wp_bind. eapply wp_intro; [exact (walk_eval (mem s) T1 old _ s Hr1 eq_refl Hold Hmaxi)|]. unfold pte_at, leaf in Hent.
  destruct (T1 (N0 _ _)) as [q|] eqn:Hq.
  2:{ cbn. apply Hskip. by rewrite <-Hent. }
  destruct (Z.eqb_spec (q + 8 * PX 0 (i * PGSIZE)) 0) as [E|_]; [destruct (leaf_addr_pos (mem s) T1 _ q Hr1 (proj1 Hmaxi) Hq E)|].
  apply wp_bind, wp_gets. rewrite Hent. destruct (has (pe (i * PGSIZE)) PTE_V) eqn:HV; cbn [negb]; [|by apply Hskip].
  set (e := pe (i * PGSIZE)) in *. apply (alloc_write s T A l (fun s m => store (mem s) m (load (mem s) (PTE2PA e) (Z.to_nat PGSIZE)))).
  - apply G.
  - intros s1 p x Hx. unfold store. rewrite length_load, Z2Nat.id by done. by rewrite bool_decide_false by lia.
  - intros _. eapply copy_err; [lia|exact G].
  - intros p l1 s1 -> HpA Hp Hp0 HpT Hm1 s2 C2 K2 Hpte2.
    apply (map_fill s0 T0 A0 new 0 npages pe (fun va x => mem s0 (PTE2PA (pe va) + x)) Hnew pe_page Hcont Hn Hmax Hfree' i s T A (p :: l1) s2 l1 p);
      try done; [apply PTE_FLAGS_ok|by apply PTE_FLAGS_V| |intros s' T' A' l' G' _; by apply (Hnext s' T' A' l')|intros s' T' A' l' G'; eapply copy_err; [lia|exact G']].
    intros x Hx. unfold s2. cbn [mem set_mem]. rewrite store_load_page by done.
    rewrite <-(parent_mem s T A (i * PGSIZE) x K) by (done || lia). fold e.
    destruct (Hframe1 (i * PGSIZE) ltac:(lia) HV) as [HfA _]. apply (same_but_page p (PTE2PA e)); [apply Hp|by apply (ctx_al _ _ _ _ _ C0)| |done|lia].
    intros ->. apply HpA. by apply K.
Qed.

Lemma copy_loop_spec fuel : forall i s T A l, 0 <= i <= npages -> npages - i < Z.of_nat fuel -> copying i s T A l ->
  wp (uvmcopy_loop fuel old new (i * PGSIZE) size) copy_post s.
Proof.
  induction fuel as [|fuel IH]; intros i s T A l Hi Hf G; [lia|]. rewrite uvmcopy_loop_S.
  destruct (Z.ltb_spec (i * PGSIZE) size).
  - assert (Hlt : i < npages) by (unfold npages, PGSIZE in *; dlia). destruct (page_max i ltac:(lia) Hlt) as [Hmaxi _].
    rewrite u64_small by (unfold PGSIZE in *; change MAXVA with (2 ^ 38) in *; lia). rewrite Z.div_mul by done.
    apply (copy_page i s T A l); [lia|done|]. intros s' T' A' l' G'.
    replace (i * PGSIZE + PGSIZE) with ((i + 1) * PGSIZE) by lia. eapply IH; [lia|lia|exact G'].
  - assert (i = npages) as -> by (unfold npages, PGSIZE in *; dlia). apply wp_ret. exists T, A, l. by left.
Qed.
End Copy.

(** The pages of the child below [size] are those of the parent, with the same permissions and
    contents, in frames of its own: none of them was in use. *)
Definition child_copy (m : memory) (T1 : ptree) (A : list Z) (size : Z) (m' : memory) (T' : ptree) : Prop :=
  (forall va, 0 <= va < npages size * PGSIZE -> uvalid m' T' va <-> uvalid m T1 va) /\
  (forall va, 0 <= va < npages size * PGSIZE -> uvalid m T1 va ->
     PTE_FLAGS (pte_at m' T' va) = PTE_FLAGS (pte_at m T1 va) /\ umem m' T' va = umem m T1 va /\
     PTE2PA (pte_at m' T' va) ∉ A) /\
  (forall va va', 0 <= va < npages size * PGSIZE -> 0 <= va' < npages size * PGSIZE ->
     uvalid m T1 va -> uvalid m T1 va' -> PTE2PA (pte_at m' T' va) = PTE2PA (pte_at m' T' va') -> va / PGSIZE = va' / PGSIZE).

Lemma copying_child s0 T0 T1 A0 size s T A l : 0 <= size <= MAXVA -> copying s0 T0 T1 A0 (npages size) s T A l ->
  child_copy (mem s0) T1 A0 size (mem s) T.
Proof.
  intros Hsz G. assert (Hmax : forall va, 0 <= va < npages size * PGSIZE -> 0 <= va < MAXVA).
  { intros va Hva. unfold npages, PGSIZE in *. change MAXVA with (2 ^ 38) in *. dlia. }
  split_and!.
  - intros va Hva. unfold uvalid. rewrite (filling_entry _ _ _ 0 _ _ (npages size) s T A l va G) by (done || lia). done.
  - intros va Hva [_ Hv]. destruct (fi_page _ _ _ _ _ _ _ _ _ _ _ G va Hva Hv) as (f & E & Hf & _ & Hf0 & _ & Hm).
    unfold umem, uaddr. rewrite E, mkpte_pa, mkpte_flags by (done || apply PTE_FLAGS_ok). split_and!; [done| |done].
    apply Hm. by apply Z.mod_pos_bound.
  - intros va va' Hva Hva' [_ Hv] [_ Hv']. by apply (fi_inj _ _ _ _ _ _ _ _ _ _ _ G).
Qed.


(** ** An example: a parent with one page, an empty page table for the child, three free pages *)
Definition demo_child : Z := KERNBASE + 0x300000.
Definition demo_tf : Z := KERNBASE + 0x400000.
Definition demo_pages : list Z := [KERNBASE + 0x101000; KERNBASE + 0x102000; KERNBASE + 0x103000; KERNBASE + 0x104000; KERNBASE + 0x105000].
Definition demo_chain : memory :=
  foldr (fun p m => store64 m p (p + PGSIZE)) (fun _ => 0) (take 4 demo_pages).
Definition demo_start : kstate :=
  set_freelist (KERNBASE + 0x101000) (set_mem demo_chain (boot_state (KERNBASE + 0x20000))).
Definition demo_parent : kstate :=
  match mappages demo_root 0 (1 * PGSIZE) demo_frame demo_perm demo_start with Ok _ s => s | _ => demo_start end.
Definition root_only (r : Z) : ptree := fun a => match a with N2 => Some r | _ => None end.

Lemma demo_chain_load p k : p mod PGSIZE = 0 -> idx k -> p ∉ demo_pages -> load64 demo_chain (p + 8 * k) = 0.
Proof.
  intros Hp Hk Hne. unfold demo_chain. cbn [take demo_pages foldr].
  assert (Hs : forall m q v, q mod PGSIZE = 0 -> p <> q -> load64 (store64 m q v) (p + 8 * k) = load64 m (p + 8 * k)).
  { intros m q v Hq Hn. rewrite <-(Z.add_0_r q). change 0 with (8 * 0). apply load_store_slot; [done..|split; lia|done|auto]. }
  unfold demo_pages in Hne. rewrite !Hs; [done|first [done|set_solver]..].
Qed.

Lemma root_only_rep m r : pa_ok r -> 0 < r -> (forall k, idx k -> load64 m (r + 8 * k) = 0) -> rep m (root_only r).
Proof.
  intros Hr Hp Hm. split.
  - done.
  - intros [] b k p [= <-] [= <-] Hk. cbn. by rewrite Hm.
  - intros [] b k [=] [= <-]; done.
  - intros [] p [=]; done.
  - intros [] [] p [=] [=]; done.
  - intros [] p [= <-]. done.
Qed.

Lemma demo_start_ctx : vmctx demo_start (root_only demo_root) [demo_root; demo_frame; demo_child; demo_tf] demo_pages.
Proof.
  split.
  - split; [| | |done].
    + repeat (split; [done|]). vm_compute. done.
    + by apply (bool_decide_unpack _).
    + repeat constructor; vm_compute; intros [=].
  - apply root_only_rep; [split; [done|vm_compute; split; congruence]|done|]. intros k Hk. apply demo_chain_load; [done..|].
    by apply (bool_decide_unpack _).
  - intros [] p [= <-]. by left.
  - apply not_elem_of_nil.
Qed.

Lemma demo_parent_ok : exists T A l, vmctx demo_parent T A l /\ T N2 = Some demo_root /\
  (forall q, q ∈ [demo_frame; demo_child; demo_tf] -> q ∈ A /\ forall a, T a <> Some q) /\
  (forall k, idx k -> load64 (mem demo_parent) (demo_child + 8 * k) = 0) /\
  (forall va, 0 <= va < PGSIZE -> pte_at (mem demo_parent) T va = mkpte demo_frame (Z.lor demo_perm PTE_V)) /\
  forall va, PGSIZE <= va < MAXVA -> pte_at (mem demo_parent) T va = 0.
Proof.
  assert (Hwp : wp (mappages demo_root 0 (1 * PGSIZE) demo_frame demo_perm)
    (map_post demo_perm demo_start (root_only demo_root) [demo_root; demo_frame; demo_child; demo_tf] demo_pages 0 demo_frame 1) demo_start).
  { apply (mappages_spec demo_start (root_only demo_root) _ demo_pages);
      [vm_compute; split; congruence|apply demo_start_ctx|reflexivity|reflexivity|lia|lia|vm_compute; congruence|
       reflexivity|vm_compute; congruence|vm_compute; congruence|intros i Hi; reflexivity]. }
  apply wp_elim in Hwp as (r & s' & Hev & T & A & l & d & C & K & _ & Hr & Hpte).
  assert (Hr0 : match mappages demo_root 0 (1 * PGSIZE) demo_frame demo_perm demo_start with Ok x _ => x | _ => 1 end = 0)
    by (vm_compute; reflexivity). rewrite Hev in Hr0. subst r. assert (d = 1) as -> by lia.
  assert (Hs : demo_parent = s') by (unfold demo_parent; by rewrite Hev). rewrite Hs. clear Hev Hr Hs.
  assert (Hin : forall q, q ∈ [demo_frame; demo_child; demo_tf] -> q ∈ [demo_root; demo_frame; demo_child; demo_tf] /\ forall a, root_only demo_root a <> Some q).
  { intros q Hq. split; [by right|]. intros [] [= <-]. revert Hq. by apply (bool_decide_unpack (demo_root ∉ _)). }
  destruct (kp_frames _ _ _ _ _ _ K demo_child) as [H1 H2]; [set_solver|by apply Hin; right; left|].
  exists T, A, l. split_and!; [done|by apply K| | | |].
  - intros q Hq. destruct (Hin q Hq) as [H3 H4]. split; [by apply K|]. by apply (kp_frames _ _ _ _ _ _ K q).
  - intros k Hk. rewrite <-(demo_chain_load demo_child k); [|done|done|by apply (bool_decide_unpack _)].
    unfold load64. f_equal. apply load_ext. intros x Hx. apply H2. unfold idx, PGSIZE in *. lia.
  - intros va Hva. rewrite Hpte by (change MAXVA with (2 ^ 38); unfold PGSIZE in *; lia).
    unfold map_range. rewrite decide_True by lia. f_equal. unfold PGSIZE in *. dlia.
  - intros va Hva. rewrite Hpte by (unfold PGSIZE in *; lia). unfold map_range. by rewrite decide_False by lia.
Qed.

