(* ===== verification/Vmfree.v ===== *)
(** * Freeing an address space (the theory of kernel/vm.c: freewalk and uvmfree, and of
    kernel/proc.c: freeproc)

    [freewalk] gives the pages of a page table back, bottom up.  While it runs the page table is
    not well formed: a freed page is still pointed to by its parent.  So the tree is described
    by the list of the pages below a page, [sub]. *)

From S2P Require Import Prelude Spinlock State Kalloc Vm Pgtbl Vmcopy.

Definition RWX : Z := Z.lor (Z.lor PTE_R PTE_W) PTE_X.

(** [ps] are the pages of the tree of [n] levels below the page [p], itself included. *)
Fixpoint sub (n : nat) (m : memory) (p : Z) (ps : list Z) : Prop :=
  exists f : nat -> list Z, ps = p :: (seq 0 512 ≫= f) /\
    forall k, (k < 512)%nat -> let e := load64 m (p + 8 * Z.of_nat k) in
      has e PTE_V = false /\ f k = [] \/
      has e PTE_V = true /\ has e RWX = false /\ match n with O => False | S n' => sub n' m (PTE2PA e) (f k) end.

Lemma load_page m m' p k : (k < 512)%nat -> (forall x, p <= x < p + PGSIZE -> m' x = m x) ->
  load64 m' (p + 8 * Z.of_nat k) = load64 m (p + 8 * Z.of_nat k).
Proof. intros Hk H. unfold load64. f_equal. apply load_ext. intros x Hx. apply H. unfold PGSIZE. lia. Qed.

Lemma sub_ext n : forall m m' p ps, sub n m p ps -> (forall q x, q ∈ ps -> q <= x < q + PGSIZE -> m' x = m x) -> sub n m' p ps.
Proof.
  induction n as [|n IH]; intros m m' p ps (f & -> & H) Hm; exists f; (split; [done|]); intros k Hk;
    rewrite (load_page m m') by first [done|intros x Hx; apply (Hm p); [by left|done]]; destruct (H k Hk) as [?|(H1 & H2 & H3)]; [by left|done|by left|].
  right. split_and!; [done..|]. eapply IH; [exact H3|]. intros q x Hq. apply Hm. right. apply list_elem_of_bind. exists k. split; [done|].
  apply elem_of_seq. lia.
Qed.

(** From [s] to [s'] the pages [ps] have been given back; [w] is a page that may have been written. *)
Record freed (w : Z -> Prop) (s : kstate) (A ps : list Z) (s' : kstate) (A' l' : list Z) : Prop := {
  fr_kmem : kmem_inv s' A' l';
  fr_alloc : forall q, q ∈ A' <-> q ∈ A /\ q ∉ ps;
  fr_mem : forall q x, q ∈ A' -> ~ w q -> q <= x < q + PGSIZE -> mem s' x = mem s x;
  fr_frame : s' = set_freelist (freelist s') (set_mem (mem s') s) }.
Definition nopage (q : Z) : Prop := False.

Lemma freed_nil w s A l : kmem_inv s A l -> freed w s A [] s A l.
Proof. intros Hk. split; [done| |done|by destruct s]. intros q. split; [intros Hq; split; [done|apply not_elem_of_nil]|by intros []]. Qed.

Lemma freed_trans w1 w2 w s1 A1 ps1 s2 A2 l2 ps2 s3 A3 l3 : freed w1 s1 A1 ps1 s2 A2 l2 -> freed w2 s2 A2 ps2 s3 A3 l3 ->
  (forall q, w1 q -> w q) -> (forall q, w2 q -> w q) -> freed w s1 A1 (ps1 ++ ps2) s3 A3 l3.
Proof.
  intros [F1 F2 F3 F4] [G1 G2 G3 G4] H1 H2. split; [done| | |].
  - intros q. rewrite G2, F2, not_elem_of_app. tauto.
  - intros q x Hq Hw Hx. rewrite (G3 q) by first [done|intros ?; by apply Hw, H2]. apply (F3 q); [by apply G2|intros ?; by apply Hw, H1|done].
  - rewrite G4, F4. done.
Qed.

Lemma kfree_freed s A l p : kmem_inv s A l -> L_kmem ∉ held s -> p ∈ A ->
  wp (kfree p) (fun _ s' => exists A' l', freed nopage s A [p] s' A' l') s.
Proof.
  intros Hk Hl Hp. pose proof (kmem_aligned _ _ _ Hk) as Hal. rewrite Forall_forall in Hal.
  apply list_elem_of_split in Hp as (A1 & A2 & ->). pose proof (ki_nodup _ _ _ Hk) as Hnd.
  apply (kfree_spec s A1 A2 l); [done|done|]. intros s' Hk'. exists (A1 ++ A2), (p :: l).
  assert (HpA : p ∉ A1 ++ A2).
  { rewrite <-app_assoc in Hnd. apply NoDup_app in Hnd as (_ & H1 & H2). cbn in H2. apply NoDup_cons in H2 as [H2 _].
    intros [Hx|Hx]%elem_of_app; [apply (H1 _ Hx); by left|apply H2, elem_of_app; by left]. }
  split; [done| | |done].
  - intros q. rewrite list_elem_of_singleton. split; [intros Hq; split; [set_solver|by intros ->]|set_solver].
  - intros q x Hq _ Hx. assert (Hm : same_but p (mem s) (mem s')).
    { intros y Hy. cbn. unfold store64, store. rewrite length_le_bytes. unfold fill, PGSIZE in *. by rewrite !bool_decide_false by lia. }
    apply (same_but_page p q); [apply Hal; set_solver|apply Hal; set_solver|by intros ->|done|done].
Qed.

(** An entry of an allocated page is cleared. *)
Lemma write_freed s A l p k : kmem_inv s A l -> p ∈ A -> (k < 512)%nat ->
  freed (eq p) s A [] (set_mem (store64 (mem s) (p + 8 * Z.of_nat k) 0) s) A l.
Proof.
  intros Hk Hp Hlt. pose proof (kmem_aligned _ _ _ Hk) as Hal. pose proof (proj1 (Forall_forall _ _) Hal) as Hall.
  assert (Hm : same_but p (mem s) (store64 (mem s) (p + 8 * Z.of_nat k) 0)).
  { intros x Hx. unfold store64, store. rewrite length_le_bytes. unfold PGSIZE in *. by rewrite bool_decide_false by lia. }
  split; [|intros q; split; [intros Hq; split; [done|apply not_elem_of_nil]|by intros []]| |done].
  - destruct Hk as [Hch Hnd Hpg He]. split; try done. apply Forall_app in Hal as [_ Hal]. apply NoDup_app in Hnd as (_ & Hd & _).
    eapply (chain_ext _ _ _ _ p); [exact Hch|done|apply Hall; set_solver|by apply Hd|exact Hm].
  - intros q x Hq Hw Hx. apply (same_but_page p q); [apply Hall; set_solver|apply Hall; set_solver|done|exact Hm|done].
Qed.

Section Walk.
Context (n : nat).
(** What is below an entry is freed by the recursive call. *)
Context (Hrec : forall s p ps A l, match n with O => False | S n' => sub n' (mem s) p ps end -> kmem_inv s A l -> L_kmem ∉ held s ->
  NoDup ps -> (forall q, q ∈ ps -> q ∈ A) -> wp (freewalk n p) (fun _ s' => exists A' l', freed nopage s A ps s' A' l') s).
Context (p : Z) (f : nat -> list Z).

Definition entry_ok (m : memory) (k : nat) : Prop :=
  let e := load64 m (p + 8 * Z.of_nat k) in
  has e PTE_V = false /\ f k = [] \/
  has e PTE_V = true /\ has e RWX = false /\ match n with O => False | S n' => sub n' m (PTE2PA e) (f k) end.

Lemma entries_freed ks : forall s A l, NoDup ks -> (forall k, k ∈ ks -> (k < 512)%nat /\ entry_ok (mem s) k) ->
  kmem_inv s A l -> L_kmem ∉ held s -> p ∈ A -> NoDup (p :: (ks ≫= f)) -> (forall q, q ∈ ks ≫= f -> q ∈ A) ->
  wp (mfor ks (fun i =>
        e ← read_pte (p + 8 * Z.of_nat i);
        if has e PTE_V && negb (has e RWX) then freewalk n (PTE2PA e);; write_pte (p + 8 * Z.of_nat i) 0
        else panic_if (has e PTE_V) "freewalk: leaf"))
     (fun _ s' => exists A' l', freed (eq p) s A (ks ≫= f) s' A' l') s.
Proof.
  induction ks as [|k ks IH]; intros s A l Hks Hent Hk Hl HpA Hnd Hin.
  { cbn [mfor mbind list_bind]. apply wp_ret. exists A, l. by apply freed_nil. }
  apply NoDup_cons in Hks as [Hkks Hks]. cbn [mfor]. apply wp_bind, wp_bind, wp_gets.
  destruct (Hent k) as [Hlt [[HV Hf]|(HV & Hrwx & Hsub)]]; [by left| |].
  - rewrite HV. cbn [andb panic_if]. apply wp_ret. cbn [mbind list_bind] in *. rewrite Hf in *. cbn [app] in *.
    eapply IH; try done. intros k' Hk'. apply Hent. by right.
  - rewrite HV, Hrwx. cbn [andb negb]. cbn [mbind list_bind] in *.
    assert (Hnd1 : NoDup (f k) /\ (forall q, q ∈ f k -> q ∉ ks ≫= f) /\ NoDup (p :: (ks ≫= f)) /\ p ∉ f k).
    { apply NoDup_cons in Hnd as [H1 H2]. apply NoDup_app in H2 as (H2 & H3 & H4). rewrite not_elem_of_app in H1.
      split_and!; [done|done|apply NoDup_cons; split; [tauto|done]|tauto]. }
    destruct Hnd1 as (Hnd1 & Hdisj & Hnd2 & Hpf).
    apply wp_bind. eapply wp_mono; [apply (Hrec s _ (f k) A l); [done..|]|].
    { intros q Hq. apply Hin, elem_of_app. by left. }
    intros [] s1 (A1 & l1 & F1). apply wp_modify.
    assert (HpA1 : p ∈ A1) by (by apply (fr_alloc _ _ _ _ _ _ _ F1)).
    pose proof (write_freed s1 A1 l1 p k (fr_kmem _ _ _ _ _ _ _ F1) HpA1 Hlt) as F2.
    pose proof (freed_trans _ _ (eq p) _ _ _ _ _ _ _ _ _ _ F1 F2 ltac:(done) ltac:(done)) as F12. rewrite app_nil_r in F12.
    set (s2 := set_mem _ s1) in *. assert (HA1 : forall q, q ∈ A1 <-> q ∈ A /\ q ∉ f k) by apply F12.
    eapply wp_mono; [apply (IH s2 A1 l1)|].
    + done.
    + intros k' Hk'. destruct (Hent k') as [Hlt' He']; [by right|]. split; [done|].
      assert (Hload : load64 (mem s2) (p + 8 * Z.of_nat k') = load64 (mem s) (p + 8 * Z.of_nat k')).
      { pose proof (kmem_aligned _ _ _ Hk) as Hal. rewrite Forall_forall in Hal. assert (Hpal : p mod PGSIZE = 0) by (apply Hal; set_solver).
        unfold s2. cbn [mem set_mem]. rewrite load_store_slot; [|done|done|split; lia|split; lia|].
        - apply load_page; [done|]. intros x Hx. apply (fr_mem _ _ _ _ _ _ _ F1 p); [done|by intros []|done].
        - right. intros E. apply Hkks. by replace k with k' by lia. }
      unfold entry_ok in *. rewrite Hload. destruct He' as [?|(H1 & H2 & H3)]; [by left|]. right. split_and!; [done..|].
      destruct n as [|n']; [done|]. eapply sub_ext; [exact H3|]. intros q x Hq Hx.
      assert (Hqk : q ∈ ks ≫= f) by (apply list_elem_of_bind; by exists k').
      apply (fr_mem _ _ _ _ _ _ _ F12 q); [|intros <-; by apply NoDup_cons in Hnd2 as [? _]|done].
      apply HA1. split; [apply Hin, elem_of_app; by right|]. intros Hf. by apply (Hdisj q).
    + apply F12.
    + rewrite (fr_frame _ _ _ _ _ _ _ F12). done.
    + done.
    + done.
    + intros q Hq. apply HA1. split; [apply Hin, elem_of_app; by right|]. intros Hf. by apply (Hdisj q).
    + intros [] s' (A' & l' & F'). exists A', l'. by eapply freed_trans.
Qed.
End Walk.

Lemma freewalk_S n p : freewalk (S n) p =
  (mfor (seq 0 512) (fun i =>
     e ← read_pte (p + 8 * Z.of_nat i);
     if has e PTE_V && negb (has e RWX) then freewalk n (PTE2PA e);; write_pte (p + 8 * Z.of_nat i) 0
     else panic_if (has e PTE_V) "freewalk: leaf");;
   kfree p).
Proof. reflexivity. Qed.

Lemma freewalk_level n : (forall s p ps A l, match n with O => False | S n' => sub n' (mem s) p ps end -> kmem_inv s A l -> L_kmem ∉ held s ->
    NoDup ps -> (forall q, q ∈ ps -> q ∈ A) -> wp (freewalk n p) (fun _ s' => exists A' l', freed nopage s A ps s' A' l') s) ->
  forall s p ps A l, sub n (mem s) p ps -> kmem_inv s A l -> L_kmem ∉ held s -> NoDup ps -> (forall q, q ∈ ps -> q ∈ A) ->
  wp (freewalk (S n) p) (fun _ s' => exists A' l', freed nopage s A ps s' A' l') s.
Proof.
  intros Hrec s p ps A l Hsub Hk Hl Hnd Hin. rewrite freewalk_S.
  assert (Hsub' : exists f, ps = p :: (seq 0 512 ≫= f) /\ forall k, (k < 512)%nat -> entry_ok n p f (mem s) k) by (by destruct n).
  destruct Hsub' as (f & -> & Hent). clear Hsub. pose proof (NoDup_seq 0 512) as Hks.
  assert (Hlt : forall k, k ∈ seq 0 512 -> (k < 512)%nat) by (intros k [_ Hk']%elem_of_seq; exact Hk').
  revert Hnd Hin Hks Hlt. generalize (seq 0 512) as ks. intros ks Hnd Hin Hks Hlt.
  assert (HpA : p ∈ A) by (apply Hin; by left).
  apply wp_bind. eapply wp_mono.
  { apply (entries_freed n Hrec p f ks s A l); [done| |done|done|done|done|]; [intros k Hk'; split; auto|]. intros q Hq. apply Hin. by right. }
  intros [] s1 (A1 & l1 & F1). apply NoDup_cons in Hnd as [Hp _].
  assert (HpA1 : p ∈ A1) by (apply (fr_alloc _ _ _ _ _ _ _ F1); split; done).
  eapply wp_mono; [apply (kfree_freed s1 A1 l1 p); [apply F1|by rewrite (fr_frame _ _ _ _ _ _ _ F1)|done]|].
  intros [] s' (A' & l' & F2). exists A', l'. destruct F1 as [F1 F3 F4 F5], F2 as [G1 G2 G3 G4]. split; [done| | |by rewrite G4, F5].
  - intros q. rewrite G2, F3, !not_elem_of_cons. pose proof (not_elem_of_nil q). tauto.
  - intros q x Hq _ Hx. apply G2 in Hq as Hq1. rewrite list_elem_of_singleton in Hq1.
    rewrite (G3 q) by (done || by intros []). apply (F4 q); [apply Hq1| |done]. intros E. by apply (proj2 Hq1).
Qed.

Lemma freewalk_freed n : forall s p ps A l, sub n (mem s) p ps -> kmem_inv s A l -> L_kmem ∉ held s ->
  NoDup ps -> (forall q, q ∈ ps -> q ∈ A) -> wp (freewalk (S n) p) (fun _ s' => exists A' l', freed nopage s A ps s' A' l') s.
Proof. induction n as [|n IH]; apply freewalk_level; [done|exact IH]. Qed.

(** ** The pages of a page table *)
Section Pages.
Context (T : ptree).
Definition pages0 (i j : Z) : list Z := match T (N0 i j) with Some q => [q] | None => [] end.
Definition pages1 (i : Z) : list Z :=
  match T (N1 i) with Some q => q :: (seq 0 512 ≫= fun j => pages0 i (Z.of_nat j)) | None => [] end.
Definition pages2 (r : Z) : list Z := r :: (seq 0 512 ≫= fun i => pages1 (Z.of_nat i)).

(** No page is mapped. *)
Definition no_leaf (m : memory) : Prop := forall i j k q, T (N0 i j) = Some q -> idx k -> has (load64 m (q + 8 * k)) PTE_V = false.

Context (m : memory) (r : Z) (Hr : rep m T) (Hroot : T N2 = Some r).

Lemma seq_idx k : k ∈ seq 0 512 <-> (k < 512)%nat.
Proof. rewrite elem_of_seq. lia. Qed.
Lemma nat_idx k : (k < 512)%nat -> idx (Z.of_nat k).
Proof. unfold idx. lia. Qed.

Lemma elem_pages0 i j p : p ∈ pages0 i j <-> T (N0 i j) = Some p.
Proof. unfold pages0. destruct (T (N0 i j)) as [q|]; [rewrite list_elem_of_singleton; split; congruence|]. split; [by intros ?%not_elem_of_nil|done]. Qed.
Lemma elem_pages1 i p : p ∈ pages1 i <-> T (N1 i) = Some p \/ exists j, T (N0 i j) = Some p.
Proof.
  unfold pages1. split.
  - destruct (T (N1 i)) as [q|]; [|by intros ?%not_elem_of_nil]. intros [->|(j & Hp & Hj)%list_elem_of_bind]%elem_of_cons; [by left|].
    apply elem_pages0 in Hp. right. eauto.
  - intros Hp. assert (exists q, T (N1 i) = Some q) as (q & E).
    { destruct Hp as [Hp|(j & Hp)]; [eauto|]. destruct (T (N1 i)) as [q|] eqn:E; [eauto|]. by rewrite (rp_orphan _ _ Hr (N1 i) (N0 i j) j E eq_refl) in Hp. }
    rewrite E in *. apply elem_of_cons. destruct Hp as [[= <-]|(j & Hp)]; [by left|]. right. apply list_elem_of_bind.
    destruct (rp_range _ _ Hr _ _ Hp) as [_ Hj]. unfold idx in Hj. exists (Z.to_nat j). rewrite elem_pages0, seq_idx, Z2Nat.id by lia. split; [done|lia].
Qed.
Lemma elem_pages2 p : p ∈ pages2 r <-> exists a, T a = Some p.
Proof.
  unfold pages2. rewrite elem_of_cons, list_elem_of_bind. split.
  - intros [->|(i & Hp & _)]; [by exists N2|]. apply elem_pages1 in Hp as [?|(j & ?)]; eauto.
  - intros (a & Ha). assert (Hi : forall i, idx i -> p ∈ pages1 i -> exists x, p ∈ pages1 (Z.of_nat x) /\ x ∈ seq 0 512).
    { intros i Hi Hp. exists (Z.to_nat i). unfold idx in Hi. rewrite seq_idx, Z2Nat.id by lia. split; [done|lia]. }
    destruct a as [|i|i j]; [left; congruence|right|right]; pose proof (rp_range _ _ Hr _ _ Ha) as Hn; cbn in Hn.
    + apply (Hi i Hn), elem_pages1. by left.
    + apply (Hi i (proj1 Hn)), elem_pages1. right. eauto.
Qed.

Lemma NoDup_pages : NoDup (pages2 r).
Proof.
  assert (H1 : forall i, NoDup (pages1 i)).
  { intros i. unfold pages1. destruct (T (N1 i)) as [q|] eqn:E; [|constructor]. apply NoDup_cons. split.
    - intros (j & Hj%elem_pages0 & _)%list_elem_of_bind. by pose proof (rp_inj _ _ Hr _ _ _ E Hj).
    - apply NoDup_bind; [|intros j _; unfold pages0; destruct (T (N0 _ _)); [apply NoDup_singleton|constructor]|apply NoDup_seq].
      intros j j' y _ _ Hy%elem_pages0 Hy'%elem_pages0. pose proof (rp_inj _ _ Hr _ _ _ Hy Hy') as [= E']. lia. }
  unfold pages2. apply NoDup_cons. split.
  - intros (i & Hi%elem_pages1 & _)%list_elem_of_bind. destruct Hi as [Hi|(j & Hi)]; by pose proof (rp_inj _ _ Hr _ _ _ Hroot Hi).
  - apply NoDup_bind; [|intros i _; apply H1|apply NoDup_seq].
    intros i i' y _ _ Hy%elem_pages1 Hy'%elem_pages1.
    destruct Hy as [Hy|(j & Hy)], Hy' as [Hy'|(j' & Hy')]; pose proof (rp_inj _ _ Hr _ _ _ Hy Hy') as E; simplify_eq; lia.
Qed.

Lemma rep_sub : no_leaf m -> sub 2 m r (pages2 r).
Proof.
  intros Hleaf.
  assert (Hnil : forall ks : list nat, ks ≫= (fun _ => @nil Z) = []) by (induction ks; [done|assumption]).
  assert (H0 : forall i j q, T (N0 i j) = Some q -> sub 0 m q [q]).
  { intros i j q Hq. exists (fun _ => []). split; [by rewrite Hnil|]. intros k Hk. left. split; [|done]. by apply (Hleaf i j), nat_idx. }
  assert (H1 : forall i q, T (N1 i) = Some q -> sub 1 m q (pages1 i)).
  { intros i q Hq. unfold pages1. rewrite Hq. exists (fun j => pages0 i (Z.of_nat j)). split; [done|]. intros k Hk.
    pose proof (rp_link _ _ Hr (N1 i) (N0 i (Z.of_nat k)) (Z.of_nat k) q Hq eq_refl (nat_idx k Hk)) as Hl.
    unfold pages0. destruct (T (N0 i (Z.of_nat k))) as [q'|] eqn:E; [right|by left]. destruct Hl as (? & -> & ?). split_and!; [done..|]. by apply (H0 i (Z.of_nat k)). }
  exists (fun i => pages1 (Z.of_nat i)). split; [done|]. intros k Hk.
  pose proof (rp_link _ _ Hr N2 (N1 (Z.of_nat k)) (Z.of_nat k) r Hroot eq_refl (nat_idx k Hk)) as Hl.
  destruct (T (N1 (Z.of_nat k))) as [q'|] eqn:E; [right|left; split; [done|by unfold pages1; rewrite E]].
  destruct Hl as (? & -> & ?). split_and!; [done..|]. by apply H1.
Qed.
End Pages.

(** ** Freeing the address space *)

(** One page is unmapped, and its frame kept. *)
Lemma unmap_one s T A l pt va : vmctx s T A l -> T N2 = Some pt -> 0 <= va < MAXVA -> va mod PGSIZE = 0 ->
  wp (uvmunmap pt va 1 false) (fun _ s' => vmctx s' T A l /\ kept s T A s' T A /\
    forall va', 0 <= va' < MAXVA ->
      (va' / PGSIZE = va / PGSIZE -> has (pte_at (mem s') T va') PTE_V = false) /\
      (va' / PGSIZE <> va / PGSIZE -> pte_at (mem s') T va' = pte_at (mem s) T va')) s.
Proof.
  intros C Hroot Hva Hal. unfold uvmunmap. rewrite Hal. cbn [Z.eqb negb panic_if]. apply wp_bind, wp_ret.
  rewrite Z.mul_1_l, u64_small by (unfold PGSIZE; change MAXVA with (2 ^ 38) in *; lia). change (Z.to_nat 1) with 1%nat. cbn [uvmunmap_loop].
  destruct (Z.ltb_spec va (va + PGSIZE)); [|unfold PGSIZE in *; lia]. pose proof (vc_rep _ _ _ _ C) as Hr.
  assert (Hskip : has (pte_at (mem s) T va) PTE_V = false -> vmctx s T A l /\ kept s T A s T A /\
    forall va', 0 <= va' < MAXVA ->
      (va' / PGSIZE = va / PGSIZE -> has (pte_at (mem s) T va') PTE_V = false) /\
      (va' / PGSIZE <> va / PGSIZE -> pte_at (mem s) T va' = pte_at (mem s) T va')).
  { intros HV. split; [done|]. split; [apply kept_refl|]. intros va' Hva'. split; [|done]. intros E. by rewrite (page_entry s T va' va) by (done || lia). }
  apply wp_bind, wp_bind. eapply wp_intro; [exact (walk_eval (mem s) T pt _ s Hr eq_refl Hroot Hva)|].
  destruct (T (N0 _ _)) as [q|] eqn:Hq.
  2:{ cbn. apply Hskip. unfold pte_at, leaf. by rewrite Hq. }
  destruct (Z.eqb_spec (q + 8 * PX 0 va) 0) as [E|_]; [destruct (leaf_addr_pos (mem s) T _ q Hr (proj1 Hva) Hq E)|].
  apply wp_bind, wp_gets. rewrite (read_leaf _ T) by done.
  destruct (has (pte_at (mem s) T va) PTE_V) eqn:HV; cbn [negb]; [|by apply wp_ret, wp_ret, Hskip].
  apply wp_bind. cbn [when]. apply wp_ret, wp_modify, wp_ret.
  split; [by apply set_leaf_ctx|]. split; [by eapply set_leaf_kept|]. intros va' Hva'.
  rewrite (set_leaf_pte s T A l va q 0 C Hva Hq) by done. split; intros E; [by rewrite decide_True|by rewrite decide_False].
Qed.

(** The address with the given indices. *)
Lemma leaf_pte m T i j k q : T (N0 i j) = Some q -> 0 <= i < 256 -> idx j -> idx k ->
  exists va, 0 <= va < MAXVA /\ pte_at m T va = load64 m (q + 8 * k).
Proof.
  intros Hq Hi Hj Hk. unfold idx in *. exists (i * 2 ^ 30 + j * 2 ^ 21 + k * 2 ^ 12). split; [change MAXVA with (2 ^ 38); lia|].
  unfold pte_at, leaf. rewrite !PX_eq by lia. change (2 ^ (12 + 9 * 2)) with (2 ^ 30). change (2 ^ (12 + 9 * 1)) with (2 ^ 21). change (2 ^ (12 + 9 * 0)) with (2 ^ 12).
  assert ((i * 2 ^ 30 + j * 2 ^ 21 + k * 2 ^ 12) / 2 ^ 30 mod 512 = i) as -> by dlia.
  assert ((i * 2 ^ 30 + j * 2 ^ 21 + k * 2 ^ 12) / 2 ^ 21 mod 512 = j) as -> by dlia.
  assert ((i * 2 ^ 30 + j * 2 ^ 21 + k * 2 ^ 12) / 2 ^ 12 mod 512 = k) as -> by dlia. by rewrite Hq.
Qed.

(** A page table with nothing mapped is freed. *)
Lemma freewalk_all s T A l pt : vmctx s T A l -> T N2 = Some pt -> (forall i j q, T (N0 i j) = Some q -> i < 256) ->
  (forall va, 0 <= va < MAXVA -> has (pte_at (mem s) T va) PTE_V = false) ->
  wp (freewalk 3 pt) (fun _ s' => exists A' l', kmem_inv s' A' l' /\ (forall q, q ∈ A' <-> q ∈ A /\ forall a, T a <> Some q) /\
    (forall q x, q ∈ A' -> q <= x < q + PGSIZE -> mem s' x = mem s x) /\ s' = set_freelist (freelist s') (set_mem (mem s') s)) s.
Proof.
  intros C Hroot Hlow HV. pose proof (vc_rep _ _ _ _ C) as Hr.
  assert (Hsub : sub 2 (mem s) pt (pages2 T pt)).
  { apply rep_sub; [done|done|]. intros i j k q Hq Hk. destruct (rp_range _ _ Hr _ _ Hq) as [Hi Hj].
    destruct (leaf_pte (mem s) T i j k q Hq) as (va & Hva & <-); [pose proof (Hlow _ _ _ Hq); unfold idx in *; lia|done|done|]. by apply HV. }
  eapply wp_mono; [apply (freewalk_freed 2 s pt (pages2 T pt) A l Hsub)|].
  - apply C.
  - apply C.
  - by apply (NoDup_pages T (mem s)).
  - intros q Hq. apply (elem_pages2 T (mem s) pt Hr Hroot) in Hq as (a & Ha). by apply (vc_in _ _ _ _ C a).
  - intros [] s' (A' & l' & [F1 F2 F3 F4]). exists A', l'. split_and!; [done| |intros q x Hq; apply (F3 q x Hq); by intros []|done].
    intros q. rewrite F2, (elem_pages2 T (mem s) pt Hr Hroot). split; intros [H1 H2]; (split; [done|]).
    + intros a Ha. apply H2. eauto.
    + intros (a & Ha). by apply (H2 a).
Qed.

(** [uvmfree] gives back the frames below [size] and the page table. *)
Lemma uvmfree_spec s T A l pt size : vmctx s T A l -> T N2 = Some pt -> (forall i j q, T (N0 i j) = Some q -> i < 256) ->
  0 <= size <= MAXVA - PGSIZE -> own_frames (mem s) T A 0 (npages size * PGSIZE) ->
  (forall va, npages size * PGSIZE <= va < MAXVA -> has (pte_at (mem s) T va) PTE_V = false) ->
  wp (uvmfree pt size) (fun _ s' => exists A' l', kmem_inv s' A' l' /\
    (forall q, q ∈ A' <-> q ∈ A /\ (forall a, T a <> Some q) /\ ~ frame_in (mem s) T 0 (npages size * PGSIZE) q) /\
    (forall q x, q ∈ A' -> q <= x < q + PGSIZE -> mem s' x = mem s x) /\ s' = set_freelist (freelist s') (set_mem (mem s') s)) s.
Proof.
  intros C Hroot Hlow Hsz Hown Habove. unfold uvmfree.
  assert (Hn : PGROUNDUP size / PGSIZE = npages size).
  { rewrite PGROUNDUP_eq by (unfold PGSIZE in *; change MAXVA with (2 ^ 38) in *; lia). by apply Z.div_mul. }
  assert (Hmax : npages size * PGSIZE <= MAXVA /\ 0 <= npages size) by (unfold npages, PGSIZE in *; change MAXVA with (2 ^ 38) in *; dlia).
  assert (Hunmap : wp (when (0 <? size) (uvmunmap pt 0 (PGROUNDUP size / PGSIZE) true))
    (fun _ s' => exists A' l', unmapped s T A 0 (npages size * PGSIZE) s' A' l') s).
  { destruct (Z.ltb_spec 0 size); unfold when.
    - rewrite Hn. unfold uvmunmap. change (0 mod PGSIZE =? 0) with true. cbn [negb panic_if]. apply wp_bind, wp_ret.
      rewrite Z.add_0_l, u64_small by (unfold PGSIZE in *; change MAXVA with (2 ^ 38) in *; lia).
      rewrite <-(Z.mul_0_l PGSIZE) in Hown at 1.
      pose proof (unmap_loop_spec T pt (npages size) Hroot (proj1 Hmax) (Z.to_nat (npages size)) 0 s A l C Hown ltac:(lia) ltac:(lia)) as H'.
      by rewrite Z.mul_0_l in H'.
    - apply wp_ret. exists A, l. assert (npages size = 0) as -> by (unfold npages, PGSIZE in *; dlia). rewrite Z.mul_0_l.
      split; try done; try lia. intros q. split; [intros Hq; split; [done|]; intros (? & ? & _); lia|by intros []]. }
  apply wp_bind. eapply wp_mono; [exact Hunmap|]. intros [] s1 (A1 & l1 & [U1 U2 U3 U4 U5 U6]).
  eapply wp_mono; [apply (freewalk_all s1 T A1 l1 pt U1 Hroot Hlow)|].
  - intros va Hva. destruct (decide (va < npages size * PGSIZE)); [apply U3; lia|]. rewrite U4 by lia. apply Habove. lia.
  - intros [] s' (A' & l' & Hk & HA & Hm & E). exists A', l'. split_and!; [done| | |by rewrite E, U6].
    + intros q. rewrite HA, U2. tauto.
    + intros q x Hq Hx. rewrite (Hm q) by done. apply HA in Hq as [Hq1 Hq2]. by apply (U5 q).
Qed.
