(* ===== verification/Sync.v ===== *)
(** * Sleep and wakeup (kernel/proc.c) and sleep locks (kernel/sleeplock.c)

    A process that sleeps leaves the CPU inside [sched]: the model's routine ends with
    [Block] in the state of the switch, with the process marked SLEEPING and only its own
    lock held.  When the scheduler runs the process again, execution resumes after the
    switch: [sleep_after] is that half of [sleep], and the [_resume] definitions are the
    loops that continue from there. *)

From S2P Require Import Prelude Spinlock State.
Import HeldList.

(** ** kernel/proc.c *)
Definition sched : K unit :=
  i ← myproc_deref;
  h ← holding (L_proc i);
  panic_if (negb h) "sched p->lock";;
  n ← gets (fun s => length (held s));
  panic_if (negb (n =? 1)%nat) "sched locks";;
  p ← get_proc i;
  panic_if (bool_decide (state p = RUNNING)) "sched RUNNING";;
  (fun s => Block s).

(** Before and after the switch. *)
Definition sleep_before (c : chan) (lk : lockid) : K unit :=
  i ← myproc_deref;
  acquire (L_proc i);;
  release lk;;
  set_proc i (fun p => {| p with p_chan := c |});;
  set_proc i (fun p => {| p with state := SLEEPING |}).
Definition sleep_after (lk : lockid) : K unit :=
  i ← myproc_deref;
  set_proc i (fun p => {| p with p_chan := C_null |});;
  release (L_proc i);;
  acquire lk.
Definition sleep (c : chan) (lk : lockid) : K unit :=
  sleep_before c lk;; sched;; sleep_after lk.

Definition wakeup (c : chan) : K unit :=
  mfor proc_ids (fun i =>
    me ← myproc;
    when (negb (bool_decide (Some i = me)))
      (acquire (L_proc i);;
       p ← get_proc i;
       when (bool_decide (state p = SLEEPING) && bool_decide (p_chan p = c))
         (set_proc i (fun p => {| p with state := RUNNABLE |}));;
       release (L_proc i))).

Definition setkilled (i : nat) : K unit :=
  acquire (L_proc i);;
  set_proc i (fun p => {| p with p_killed := 1 |});;
  release (L_proc i).

Definition killed (i : nat) : K Z :=
  acquire (L_proc i);;
  p ← get_proc i;
  release (L_proc i);;
  ret (p_killed p).

(** ** kernel/sleeplock.c *)

(** The sleep locks are those of the buffers and of the in-memory inodes. *)
Inductive slref := SL_buf (i : nat) | SL_inode (i : nat).
Definition sl_lk (r : slref) : lockid :=
  match r with SL_buf i => L_bufsl i | SL_inode i => L_inodesl i end.
Definition sl_chan (r : slref) : chan :=
  match r with SL_buf i => C_bufsl i | SL_inode i => C_inodesl i end.
Definition sl_get (r : slref) (s : kstate) : sleeplock :=
  match r with
  | SL_buf i => b_lock (bufs s !!! i)
  | SL_inode i => i_lock (itable s !!! i)
  end.
Definition sl_set (r : slref) (v : sleeplock) (s : kstate) : kstate :=
  match r with
  | SL_buf i => set_bufs (alter (fun b => {| b with b_lock := v |}) i (bufs s)) s
  | SL_inode i => set_itable (alter (fun x => {| x with i_lock := v |}) i (itable s)) s
  end.

Definition initsleeplock (r : slref) : K unit :=
  modify (sl_set r {| sl_locked := 0; sl_pid := 0 |}).

(** The loop and the rest of [acquiresleep], with the inner spin lock held. *)
Definition acquiresleep_test (r : slref) : K unit :=
  l ← gets (sl_get r);
  if negb (sl_locked l =? 0) then sleep (sl_chan r) (sl_lk r)
  else
    modify (fun s => sl_set r {| (sl_get r s) with sl_locked := 1 |} s);;
    i ← myproc_deref;
    p ← get_proc i;
    modify (fun s => sl_set r {| (sl_get r s) with sl_pid := pid p |} s);;
    release (sl_lk r).
Definition acquiresleep (r : slref) : K unit := acquire (sl_lk r);; acquiresleep_test r.
Definition acquiresleep_resume (r : slref) : K unit :=
  sleep_after (sl_lk r);; acquiresleep_test r.

Definition releasesleep (r : slref) : K unit :=
  acquire (sl_lk r);;
  modify (fun s => sl_set r {| (sl_get r s) with sl_locked := 0 |} s);;
  modify (fun s => sl_set r {| (sl_get r s) with sl_pid := 0 |} s);;
  wakeup (sl_chan r);;
  release (sl_lk r).

Definition holdingsleep (r : slref) : K bool :=
  acquire (sl_lk r);;
  l ← gets (sl_get r);
  i ← myproc_deref;
  p ← get_proc i;
  release (sl_lk r);;
  ret (negb (sl_locked l =? 0) && (sl_pid l =? pid p)).

(** ** What they compute *)
Definition wake1 (c : chan) (me : option nat) (i : nat) (p : proc) : proc :=
  if bool_decide (Some i = me) then p
  else if bool_decide (state p = SLEEPING) && bool_decide (p_chan p = c)
       then {| p with state := RUNNABLE |} else p.
Definition wake (c : chan) (me : option nat) (ps : list proc) : list proc :=
  imap (wake1 c me) ps.

(** No process lock is held, except possibly that of the running process. *)
Definition others_unlocked (s : kstate) : Prop :=
  forall i, (i < NPROC)%nat -> Some i <> cur s -> L_proc i ∉ held s.

Lemma list_lookup_total_alter_eq {A} `{Inhabited A} (f : A -> A) (l : list A) i :
  (i < length l)%nat -> alter f i l !!! i = f (l !!! i).
Proof.
  intros Hi. apply list_lookup_total_correct. rewrite list_lookup_alter_eq.
  by rewrite list_lookup_lookup_total_lt.
Qed.
Lemma list_lookup_total_alter_ne {A} `{Inhabited A} (f : A -> A) (l : list A) i j :
  i <> j -> alter f i l !!! j = l !!! j.
Proof. intros. by rewrite !list_lookup_total_alt, list_lookup_alter_ne. Qed.

(** A loop over the process table whose body changes entry [i] to [f i]. *)
Lemma imap_alter_step {A} (f : nat -> A -> A) (l : list A) k :
  imap (fun i x => if (i <? S k)%nat then f i x else x) l =
  alter (f k) k (imap (fun i x => if (i <? k)%nat then f i x else x) l).
Proof.
  apply list_eq. intros j. rewrite list_lookup_imap.
  destruct (decide (k = j)) as [<-|Hne].
  - rewrite list_lookup_alter_eq, list_lookup_imap. destruct (l !! k); cbn [fmap option_fmap option_map]; [|done].
    destruct (Nat.ltb_spec k (S k)), (Nat.ltb_spec k k); done || lia.
  - rewrite list_lookup_alter_ne, list_lookup_imap by done. destruct (l !! j); cbn [fmap option_fmap option_map]; [|done].
    destruct (Nat.ltb_spec j (S k)), (Nat.ltb_spec j k); done || lia.
Qed.

Lemma mfor_procs (f : nat -> proc -> proc) (body : nat -> K unit) s :
  length (procs s) = NPROC ->
  (forall i ps, (i < NPROC)%nat -> length ps = NPROC ->
     body i (set_procs ps s) = Ok tt (set_procs (alter (f i) i ps) s)) ->
  mfor proc_ids body s = Ok tt (set_procs (imap f (procs s)) s).
Proof.
  intros Hlen Hbody.
  assert (Hgen : forall n k, (k + n = NPROC)%nat ->
    mfor (seq k n) body
      (set_procs (imap (fun i x => if (i <? k)%nat then f i x else x) (procs s)) s) =
    Ok tt (set_procs (imap f (procs s)) s)).
  { induction n as [|n IH]; intros k Hk; cbn [seq mfor].
    - unfold ret. do 2 f_equal. apply imap_ext. intros i x Hi%lookup_lt_Some.
      destruct (Nat.ltb_spec i k); [done|lia].
    - unfold bind. rewrite Hbody by (rewrite ?length_imap; lia).
      rewrite <-imap_alter_step. apply IH. lia. }
  specialize (Hgen NPROC 0%nat ltac:(lia)).
  assert (Hid : imap (fun i x => if (i <? 0)%nat then f i x else x) (procs s) = procs s).
  { apply list_eq. intros j. rewrite list_lookup_imap. by destruct (procs s !! j). }
  rewrite Hid in Hgen. exact Hgen.
Qed.

Lemma alter_id {A} (f : A -> A) (l : list A) i : (forall x, l !! i = Some x -> f x = x) ->
  alter f i l = l.
Proof.
  intros Hf. apply list_eq. intros j. destruct (decide (i = j)) as [<-|].
  - rewrite list_lookup_alter_eq. destruct (l !! i) eqn:E; [cbn; by rewrite Hf|done].
  - by rewrite list_lookup_alter_ne.
Qed.

Lemma wakeup_eval c s :
  length (procs s) = NPROC -> others_unlocked s ->
  wakeup c s = Ok tt (set_procs (wake c (cur s) (procs s)) s).
Proof.
  intros Hlen Hun. unfold wakeup. apply mfor_procs; [done|].
  intros i ps Hi Hps. unfold bind at 1, myproc, gets, when at 1. cbn [cur set_procs].
  destruct (bool_decide_reflect (Some i = cur s)) as [E|E]; cbn [negb].
  { rewrite (alter_id (wake1 c (cur s) i)); [done|]. intros x _. unfold wake1.
    by rewrite bool_decide_true. }
  unfold bind. rewrite acquire_eval by (apply Hun; done).
  unfold get_proc, gets, when. cbn [procs set_held set_procs].
  destruct (lookup_lt_is_Some_2 ps i) as [p Hp]; [lia|].
  rewrite (list_lookup_total_correct _ _ _ Hp).
  assert (Hw : forall x, ps !! i = Some x -> wake1 c (cur s) i x =
    if bool_decide (state p = SLEEPING) && bool_decide (p_chan p = c)
    then {| x with state := RUNNABLE |} else x).
  { intros x Hx. assert (x = p) as -> by congruence. unfold wake1. by rewrite bool_decide_false. }
  destruct (bool_decide (state p = SLEEPING) && bool_decide (p_chan p = c));
    unfold set_proc, modify, ret; erewrite release_eval by done.
  - by rewrite (list_alter_ext (wake1 c (cur s) i) (fun p => {| p with state := RUNNABLE |}) ps ps i).
  - by rewrite (alter_id (wake1 c (cur s) i)).
Qed.

Lemma length_wake c me ps : length (wake c me ps) = length ps.
Proof. apply length_imap. Qed.

Lemma lookup_total_imap {A} `{Inhabited A} (f : nat -> A -> A) l i : (i < length l)%nat ->
  imap f l !!! i = f i (l !!! i).
Proof.
  intros Hi. apply list_lookup_total_correct. rewrite list_lookup_imap.
  by rewrite list_lookup_lookup_total_lt.
Qed.

(** *** Sleep locks *)
Definition sl_in_range (r : slref) (s : kstate) : Prop :=
  match r with
  | SL_buf i => (i < length (bufs s))%nat
  | SL_inode i => (i < length (itable s))%nat
  end.

Lemma sl_get_set r v s : sl_in_range r s -> sl_get r (sl_set r v s) = v.
Proof.
  destruct r; cbn; intros; rewrite list_lookup_total_alter_eq by done; done.
Qed.

Lemma sl_set_set r v w s : sl_set r v (sl_set r w s) = sl_set r v s.
Proof.
  destruct r; unfold sl_set; cbn [bufs itable set_bufs set_itable];
    rewrite list_alter_alter_eq; reflexivity.
Qed.

Lemma sl_set_held r v s : held (sl_set r v s) = held s.
Proof. by destruct r. Qed.
Lemma sl_set_procs r v s : procs (sl_set r v s) = procs s.
Proof. by destruct r. Qed.
Lemma sl_set_cur r v s : cur (sl_set r v s) = cur s.
Proof. by destruct r. Qed.
Lemma sl_set_set_held r v h s : sl_set r v (set_held h s) = set_held h (sl_set r v s).
Proof. by destruct r. Qed.
Lemma sl_get_set_held r h s : sl_get r (set_held h s) = sl_get r s.
Proof. by destruct r. Qed.

Lemma set_held_held h s : held s = h -> set_held h s = s.
Proof. by intros <-. Qed.

Lemma myproc_deref_eval s i : cur s = Some i -> myproc_deref s = Ok i s.
Proof. intros H. unfold myproc_deref, bind, myproc, gets. by rewrite H. Qed.

Lemma acquiresleep_eval r s i :
  cur s = Some i -> sl_in_range r s -> sl_lk r ∉ held s -> sl_locked (sl_get r s) = 0 ->
  acquiresleep r s =
    Ok tt (sl_set r {| sl_locked := 1; sl_pid := pid (procs s !!! i) |} s).
Proof.
  intros Hc Hr Hl H0. unfold acquiresleep, acquiresleep_test, bind at 1.
  rewrite acquire_eval by done. unfold bind at 1, gets at 1.
  rewrite sl_get_set_held, H0. cbn [Z.eqb negb].
  unfold bind, modify. rewrite (myproc_deref_eval _ i) by (by rewrite sl_set_cur).
  unfold get_proc, gets. rewrite sl_set_procs. cbn [procs set_held].
  rewrite sl_get_set_held, !sl_set_set_held, sl_get_set_held, sl_set_set.
  rewrite sl_get_set by done.
  erewrite release_eval by reflexivity. f_equal.
  transitivity (set_held (held s) (sl_set r {| sl_locked := 1; sl_pid := pid (procs s !!! i) |} s));
    [done|]. apply set_held_held. by rewrite sl_set_held.
Qed.

(** *** Going to sleep *)
Lemma sched_eval s i : cur s = Some i -> held s = [L_proc i] -> state (procs s !!! i) <> RUNNING ->
  sched s = Block s.
Proof.
  intros Hc Hh Hs. unfold sched, bind. rewrite (myproc_deref_eval _ i) by done.
  unfold holding, gets, panic_if, get_proc, gets, ret. rewrite Hh.
  rewrite bool_decide_true by set_solver. cbn [negb length Nat.eqb].
  rewrite Hh. cbn [negb length Nat.eqb]. by rewrite bool_decide_false.
Qed.

Definition asleep (c : chan) (p : proc) : proc := {| p with p_chan := c; state := SLEEPING |}.

(** With only [lk] held, [sleep] leaves the process SLEEPING on [c] and the CPU in [sched]
    with only the process's own lock. *)
Lemma sleep_eval c lk s i :
  cur s = Some i -> held s = [lk] -> (i < length (procs s))%nat -> lk <> L_proc i ->
  sleep c lk s = Block (set_held [L_proc i] (set_procs (alter (asleep c) i (procs s)) s)).
Proof.
  intros Hc Hh Hi Hne. unfold sleep, sleep_before, bind. rewrite (myproc_deref_eval _ i) by done.
  rewrite acquire_eval by (rewrite Hh; set_solver).
  unfold release at 1, bind, gets, held_release. cbn [held set_held]. rewrite Hh.
  rewrite decide_True by set_solver. cbn [HeldList.remove1]. rewrite decide_False, decide_True by done.
  unfold set_proc, modify. cbn [procs set_procs set_held].
  rewrite list_alter_alter_eq. erewrite sched_eval with (i := i); [reflexivity|done|done|].
  cbn [procs set_procs]. rewrite list_lookup_total_alter_eq by done. done.
Qed.

(** A sleep lock that is taken puts the caller to sleep on it. *)
Lemma acquiresleep_blocks r s i :
  cur s = Some i -> held s = [] -> (i < length (procs s))%nat ->
  sl_locked (sl_get r s) <> 0 ->
  acquiresleep r s =
    Block (set_held [L_proc i] (set_procs (alter (asleep (sl_chan r)) i (procs s)) s)).
Proof.
  intros Hc Hh Hi H0. unfold acquiresleep, acquiresleep_test, bind at 1.
  rewrite acquire_eval by (rewrite Hh; apply not_elem_of_nil). unfold bind at 1, gets at 1.
  rewrite sl_get_set_held. destruct (Z.eqb_spec (sl_locked (sl_get r s)) 0); [done|]. cbn [negb].
  rewrite sleep_eval with (i := i); [done|done|cbn; by rewrite Hh|done|by destruct r].
Qed.

Lemma releasesleep_eval r s :
  length (procs s) = NPROC -> others_unlocked s -> sl_in_range r s -> sl_lk r ∉ held s ->
  releasesleep r s =
    Ok tt (set_procs (wake (sl_chan r) (cur s) (procs s))
             (sl_set r {| sl_locked := 0; sl_pid := 0 |} s)).
Proof.
  intros Hlen Hun Hr Hl. unfold releasesleep, bind. rewrite acquire_eval by done.
  unfold modify. rewrite sl_get_set_held, !sl_set_set_held, sl_get_set_held, sl_set_set.
  rewrite sl_get_set by done. rewrite wakeup_eval.
  - cbn [cur procs set_held]. rewrite sl_set_cur, sl_set_procs.
    erewrite release_eval by reflexivity. f_equal. cbn [sl_pid].
    set (s' := sl_set r _ s). change (set_procs (wake (sl_chan r) (cur s) (procs s)) s')
      with (set_held (held s') (set_procs (wake (sl_chan r) (cur s) (procs s)) s')).
    unfold s'. rewrite sl_set_held. done.
  - cbn. by rewrite sl_set_procs.
  - intros i Hi Hne. cbn in *. rewrite sl_set_cur in Hne.
    apply not_elem_of_cons. split; [by destruct r|by apply Hun].
Qed.

Lemma holdingsleep_eval r s i : cur s = Some i -> sl_lk r ∉ held s ->
  holdingsleep r s =
    Ok (negb (sl_locked (sl_get r s) =? 0) && (sl_pid (sl_get r s) =? pid (procs s !!! i))) s.
Proof.
  intros Hc Hl. unfold holdingsleep, bind. rewrite acquire_eval by done.
  unfold gets at 1. rewrite (myproc_deref_eval _ i) by done. unfold get_proc, gets.
  erewrite release_eval by reflexivity. by rewrite sl_get_set_held.
Qed.

Lemma killed_eval i s : L_proc i ∉ held s -> killed i s = Ok (p_killed (procs s !!! i)) s.
Proof.
  intros Hl. unfold killed, bind. rewrite acquire_eval by done.
  unfold get_proc, gets. by erewrite release_eval.
Qed.

(** *** Hand-over of a sleep lock *)

(** What the scheduler does around a context switch: the process that leaves the CPU drops
    its lock, the one that enters is RUNNING and holds its own. *)
Definition switch_out (i : nat) (s : kstate) : kstate := set_cur (Some i) (set_held [] s).
Definition switch_in (i : nat) (s : kstate) : kstate :=
  set_cur (Some i) (set_held [L_proc i]
    (set_procs (alter (fun p => {| p with state := RUNNING |}) i (procs s)) s)).

Lemma sleep_after_eval lk s i : cur s = Some i -> held s = [L_proc i] ->
  sleep_after lk s =
    Ok tt (set_held [lk] (set_procs (alter (fun p => {| p with p_chan := C_null |}) i (procs s)) s)).
Proof.
  intros Hc Hh. unfold sleep_after, bind. rewrite (myproc_deref_eval _ i) by done.
  unfold set_proc, modify. erewrite release_eval by done.
  by rewrite acquire_eval by apply not_elem_of_nil.
Qed.

Lemma acquiresleep_test_eval r s i : cur s = Some i -> sl_in_range r s -> held s = [sl_lk r] ->
  sl_locked (sl_get r s) = 0 ->
  acquiresleep_test r s =
    Ok tt (set_held [] (sl_set r {| sl_locked := 1; sl_pid := pid (procs s !!! i) |} s)).
Proof.
  intros Hc Hr Hh H0. pose proof (acquiresleep_eval r (set_held [] s) i) as H.
  unfold acquiresleep, bind at 1 in H. rewrite acquire_eval in H by apply not_elem_of_nil.
  rewrite sl_get_set_held, sl_set_set_held in H.
  change (set_held (sl_lk r :: held (set_held [] s)) (set_held [] s)) with (set_held [sl_lk r] s) in H.
  rewrite <-Hh in H. apply H; [done|by destruct r|apply not_elem_of_nil|done].
Qed.

Lemma sl_in_range_ext r s s' : length (bufs s') = length (bufs s) -> length (itable s') = length (itable s) ->
  sl_in_range r s -> sl_in_range r s'.
Proof. destruct r; cbn; congruence. Qed.
Lemma sl_set_in_range r v s : sl_in_range r s -> sl_in_range r (sl_set r v s).
Proof. destruct r; cbn; by rewrite ?length_alter. Qed.
Lemma sl_get_ext r s s' : bufs s' = bufs s -> itable s' = itable s -> sl_get r s' = sl_get r s.
Proof. destruct r; cbn; congruence. Qed.


