(* ===== verification/Vmgrow.v ===== *)
(** * Growing and shrinking an address space (the theory of kernel/vm.c: uvmalloc, uvmdealloc,
    vmfault, uvmclear)

    New pages have zeroed frames of their own; when memory runs out, what was added is given
    back. *)

From S2P Require Import Prelude Spinlock State Kalloc Vm Pgtbl Vmcopy Sync.

Lemma PGROUNDUP_pages size : 0 <= size <= MAXVA -> PGROUNDUP size = npages size * PGSIZE.
Proof. intros H. unfold npages. apply PGROUNDUP_eq; change MAXVA with (2 ^ 38) in *; unfold PGSIZE; lia. Qed.
Lemma PGROUNDUP_mult i : 0 <= i * PGSIZE <= MAXVA -> PGROUNDUP (i * PGSIZE) = i * PGSIZE.
Proof. intros H. rewrite PGROUNDUP_pages by done. unfold npages, PGSIZE in *. dlia. Qed.
Lemma npages_mono a b : a <= b -> npages a <= npages b.
Proof. intros H. unfold npages, PGSIZE. apply Z.div_le_mono; lia. Qed.
Lemma npages_bound size : 0 <= size <= MAXVA -> 0 <= npages size /\ npages size * PGSIZE <= MAXVA /\ size <= npages size * PGSIZE.
Proof. intros H. unfold npages, PGSIZE. change MAXVA with (2 ^ 38) in *. dlia. Qed.
Lemma npages_mult i : npages (i * PGSIZE) = i.
Proof. unfold npages, PGSIZE. dlia. Qed.

Lemma unmapped_refl s T A l a : vmctx s T A l -> unmapped s T A a a s A l.
Proof. intros C. split; try done; try lia. intros q. split; [intros Hq; split; [done|]; intros (? & ? & _); lia|by intros []]. Qed.

(** ** Shrinking: the pages from [lo] to [hi] are given back *)
Lemma uvmdealloc_spec s T A l pt lo hi oldsz newsz : vmctx s T A l -> T N2 = Some pt ->
  0 <= newsz -> newsz <= oldsz -> oldsz <= MAXVA -> lo = npages newsz -> hi = npages oldsz ->
  own_frames (mem s) T A (lo * PGSIZE) (hi * PGSIZE) ->
  wp (uvmdealloc pt oldsz newsz) (fun r s' => r = newsz /\ exists A' l', unmapped s T A (lo * PGSIZE) (hi * PGSIZE) s' A' l') s.
Proof.
  intros C Hroot H0 Hle Hmax Elo Ehi Hown. unfold uvmdealloc.
  pose proof (npages_mono newsz oldsz Hle). pose proof (npages_bound newsz ltac:(lia)). pose proof (npages_bound oldsz ltac:(lia)).
  rewrite !PGROUNDUP_pages, <-Elo, <-Ehi by lia. destruct (Z.leb_spec oldsz newsz).
  { assert (oldsz = newsz) as -> by lia. apply wp_ret. split; [done|]. assert (hi = lo) as -> by lia. exists A, l. by apply unmapped_refl. }
  unfold when. destruct (Z.ltb_spec (lo * PGSIZE) (hi * PGSIZE)).
  2:{ apply wp_bind, wp_ret, wp_ret. split; [done|]. assert (hi = lo) as -> by (unfold PGSIZE in *; lia). exists A, l. by apply unmapped_refl. }
  assert ((hi * PGSIZE - lo * PGSIZE) / PGSIZE = hi - lo) as -> by (unfold PGSIZE; dlia).
  assert (Hh : hi * PGSIZE <= MAXVA) by lia. change MAXVA with (2 ^ 38) in *.
  rewrite s32_small by (unfold PGSIZE in *; lia). unfold uvmunmap. rewrite Z_mod_mult. cbn [Z.eqb negb panic_if].
  apply wp_bind, wp_bind, wp_ret. replace (lo * PGSIZE + (hi - lo) * PGSIZE) with (hi * PGSIZE) by lia.
  rewrite u64_small by (unfold PGSIZE in *; lia).
  eapply wp_mono; [apply (unmap_loop_spec T pt hi Hroot Hh _ lo s A l C Hown); lia|]. intros [] s' U. by apply wp_ret.
Qed.

(** ** Growing *)
Definition user_flags (xperm : Z) : Z := Z.lor (Z.lor (Z.lor PTE_R PTE_U) xperm) PTE_V.
Lemma RU_ok : flags_ok (Z.lor PTE_R PTE_U).
Proof. split; done. Qed.
Lemma user_flags_ok xperm : flags_ok xperm -> flags_ok (user_flags xperm).
Proof. intros H. apply flags_lor; [apply flags_lor; [apply RU_ok|done]|apply PTE_V_ok]. Qed.
Lemma has_lor_r a b bit : has b bit = true -> 0 <= a -> 0 <= b -> 0 <= bit -> has (Z.lor a b) bit = true.
Proof.
  unfold has. intros H Ha Hb Hbit. apply negb_true_iff, Z.eqb_neq. apply negb_true_iff, Z.eqb_neq in H.
  rewrite Z.land_lor_distr_l. intros E%Z.lor_eq_0_iff. by destruct E.
Qed.
Lemma has_lor_l a b bit : has a bit = true -> 0 <= a -> 0 <= b -> 0 <= bit -> has (Z.lor a b) bit = true.
Proof. intros. rewrite Z.lor_comm. by apply has_lor_r. Qed.

Lemma PTE_FLAGS_id f : flags_ok f -> PTE_FLAGS f = f.
Proof. intros [H1 H2]. unfold PTE_FLAGS. change 0x3FF with (Z.ones 10). rewrite Z.land_ones by lia. apply Z.mod_small. lia. Qed.

Lemma uvmalloc_loop_S fuel pt a oldsz newsz xperm : uvmalloc_loop (S fuel) pt a oldsz newsz xperm =
  (if a <? newsz then
     m ← kalloc;
     if m =? 0 then uvmdealloc pt a oldsz;; ret 0
     else
       modify (fun s => set_mem (fill (mem s) m 0 PGSIZE) s);;
       r ← mappages pt a PGSIZE m (Z.lor (Z.lor PTE_R PTE_U) xperm);
       if negb (r =? 0) then kfree m;; (uvmdealloc pt a oldsz;; ret 0)
       else uvmalloc_loop fuel pt (u64 (a + PGSIZE)) oldsz newsz xperm
   else ret newsz).
Proof. reflexivity. Qed.

Section Grow.
Context (s0 : kstate) (T0 : ptree) (A0 l0 : list Z) (pt lo newsz xperm : Z).
Context (C0 : vmctx s0 T0 A0 l0) (Hroot : T0 N2 = Some pt) (Hx : flags_ok xperm).
Let hi := npages newsz.
Context (Hlo : 0 <= lo <= hi) (Hnew : 0 <= newsz <= MAXVA).
Context (Hfree : forall va, lo * PGSIZE <= va < hi * PGSIZE -> has (pte_at (mem s0) T0 va) PTE_V = false).

(** The pages from [lo] on are filled with zeros. *)
Definition growing : Z -> kstate -> ptree -> list Z -> list Z -> Prop :=
  filling s0 T0 A0 lo (fun _ => user_flags xperm) (fun _ _ => 0).
Definition grow_post (r : Z) (s' : kstate) : Prop :=
  exists T A l, r = newsz /\ growing hi s' T A l \/ r = 0 /\ unfilled s0 T0 A0 lo hi s' T A l.

Let Hhi : hi * PGSIZE <= MAXVA.
Proof. by apply npages_bound. Qed.
Let Hv : has (user_flags xperm) PTE_V = true.
Proof. apply has_lor_r; [done|apply flags_lor; [apply RU_ok|done]|done|done]. Qed.

Lemma grow_err i s T A l : lo <= i <= hi -> growing i s T A l -> wp (uvmdealloc pt (i * PGSIZE) (lo * PGSIZE);; ret 0) grow_post s.
Proof.
  intros Hi G. apply wp_bind. pose proof (fi_ctx _ _ _ _ _ _ _ _ _ _ _ G) as C.
  eapply wp_mono; [apply (uvmdealloc_spec s T A l pt lo i (i * PGSIZE) (lo * PGSIZE) C)|].
  - by eapply filling_root.
  - unfold PGSIZE. lia.
  - unfold PGSIZE in *. lia.
  - unfold PGSIZE in *. lia.
  - by rewrite npages_mult.
  - by rewrite npages_mult.
  - by eapply filling_own.
  - intros r s' (_ & A' & l' & U). apply wp_ret. exists T, A', l'. right. split; [done|]. by eapply unmapped_unfilled.
Qed.

Lemma grow_loop_spec fuel : forall i s T A l, lo <= i <= hi -> hi - i < Z.of_nat fuel -> growing i s T A l ->
  wp (uvmalloc_loop fuel pt (i * PGSIZE) (lo * PGSIZE) newsz xperm) grow_post s.
Proof.
  induction fuel as [|fuel IH]; intros i s T A l Hi Hf G; [lia|]. rewrite uvmalloc_loop_S.
  destruct (Z.ltb_spec (i * PGSIZE) newsz) as [Hlt|Hge].
  2:{ assert (i = hi) as -> by (unfold hi, npages, PGSIZE in *; dlia). apply wp_ret. exists T, A, l. by left. }
  assert (Hi2 : i < hi) by (unfold hi, npages, PGSIZE in *; dlia).
  rewrite u64_small by (change MAXVA with (2 ^ 38) in *; unfold PGSIZE in *; lia).
  apply (alloc_write s T A l (fun s m => fill (mem s) m 0 PGSIZE)).
  - apply G.
  - intros s1 p x Hx'. unfold fill. by rewrite bool_decide_false by lia.
  - intros _. by eapply grow_err.
  - intros p l1 s1 -> HpA Hp Hp0 HpT Hm1 s2 C2 K2 Hpte2.
    apply (map_fill s0 T0 A0 pt lo hi (fun _ => user_flags xperm) (fun _ _ => 0) Hroot ltac:(done) ltac:(done) Hlo Hhi Hfree i s T A (p :: l1) s2 l1 p); try done.
    + lia.
    + apply flags_lor; [apply RU_ok|done].
    + by rewrite PTE_FLAGS_id by (by apply user_flags_ok).
    + intros x Hx'. unfold s2, fill. cbn [mem set_mem]. by rewrite bool_decide_true by lia.
    + intros s' T' A' l' G' _. replace (i * PGSIZE + PGSIZE) with ((i + 1) * PGSIZE) by lia. eapply IH; [lia|lia|exact G'].
    + intros s' T' A' l' G'. by eapply grow_err.
Qed.
End Grow.

(** [uvmalloc] with a size that is not smaller. *)
Lemma uvmalloc_spec s T A l pt oldsz newsz xperm : vmctx s T A l -> T N2 = Some pt -> flags_ok xperm ->
  0 <= oldsz -> oldsz <= newsz -> newsz <= MAXVA ->
  (forall va, npages oldsz * PGSIZE <= va < npages newsz * PGSIZE -> has (pte_at (mem s) T va) PTE_V = false) ->
  wp (uvmalloc pt oldsz newsz xperm) (grow_post s T A (npages oldsz) newsz xperm) s.
Proof.
  intros C Hroot Hx H0 Hle Hmax Hfree. unfold uvmalloc. destruct (Z.ltb_spec newsz oldsz); [lia|].
  pose proof (npages_mono oldsz newsz Hle). pose proof (npages_bound oldsz ltac:(lia)). pose proof (npages_bound newsz ltac:(lia)).
  rewrite PGROUNDUP_pages by lia. eapply (grow_loop_spec s T A pt (npages oldsz) newsz xperm); try done; try lia.
  - unfold npages, PGSIZE in *. dlia.
  - by apply filling_start.
Qed.

(** ** What the process sees

    Memory that is not mapped yet reads as zeros: the first access maps a zeroed page. *)
Definition lazymem (m : memory) (T : ptree) (va : Z) : Z :=
  if has (pte_at m T va) PTE_V then umem m T va else 0.

Lemma lazymem_none m T va : has (pte_at m T va) PTE_V = false -> lazymem m T va = 0.
Proof. unfold lazymem. by intros ->. Qed.

(** A page whose frame is an allocated page outside the tree keeps its contents. *)
Lemma umem_same m T m' T' va f : pte_at m' T' va = pte_at m T va -> PTE2PA (pte_at m T va) = f ->
  (forall x, f <= x < f + PGSIZE -> m' x = m x) -> umem m' T' va = umem m T va.
Proof. intros E Ef Hm. unfold umem, uaddr. rewrite E, Ef. apply Hm. pose proof (Z.mod_pos_bound va PGSIZE ltac:(done)). lia. Qed.

Lemma undisturbed_lazymem s T A s' T' A' a b va : undisturbed s T A s' T' A' -> own_frames (mem s) T A a b -> a <= va < b ->
  pte_at (mem s') T' va = pte_at (mem s) T va -> lazymem (mem s') T' va = lazymem (mem s) T va.
Proof.
  intros K [H1 _] Hva E. unfold lazymem. rewrite E. destruct (has (pte_at (mem s) T va) PTE_V) eqn:HV; [|done].
  destruct (H1 va Hva HV) as [Hf HT]. eapply umem_same; [done|done|]. by apply (ud_frames _ _ _ _ _ _ K).
Qed.

Lemma undisturbed_own s T A s' T' A' a b : undisturbed s T A s' T' A' -> own_frames (mem s) T A a b ->
  (forall va, a <= va < b -> pte_at (mem s') T' va = pte_at (mem s) T va) -> own_frames (mem s') T' A' a b.
Proof.
  intros K [H1 H2] E. split.
  - intros va Hva. rewrite E by done. intros Hv. destruct (H1 va Hva Hv) as [Hf HT]. split; [by apply K|]. by apply (ud_frames _ _ _ _ _ _ K).
  - intros va va' Hva Hva'. rewrite !E by done. by apply H2.
Qed.

(** The pages from [a] to [b], which were not mapped, may have got new frames. *)
Section Refill.
Context (s : kstate) (T : ptree) (A : list Z) (s1 : kstate) (T1 : ptree) (A1 : list Z) (a b c : Z).
Context (K : undisturbed s T A s1 T1 A1) (Hown : own_frames (mem s) T A 0 c).
Context (Hpte : forall va, 0 <= va < c -> ~ a <= va < b -> pte_at (mem s1) T1 va = pte_at (mem s) T va).
Context (Hfree : forall va, a <= va < b -> has (pte_at (mem s) T va) PTE_V = false).
Context (Hnew : own_frames (mem s1) T1 A1 a b) (Hfresh : forall q, frame_in (mem s1) T1 a b q -> q ∉ A).
Context (Hzero : forall va, a <= va < b -> lazymem (mem s1) T1 va = 0).

Lemma refill_old va : 0 <= va < c -> ~ a <= va < b -> has (pte_at (mem s1) T1 va) PTE_V = true ->
  PTE2PA (pte_at (mem s1) T1 va) ∈ A /\ (forall x, T1 x <> Some (PTE2PA (pte_at (mem s1) T1 va))) /\ PTE2PA (pte_at (mem s1) T1 va) ∈ A1.
Proof.
  intros Hva Hn. rewrite Hpte by done. intros Hv. destruct (proj1 Hown va Hva Hv) as [H1 H2]. split_and!; [done| |by apply K].
  by apply (ud_frames _ _ _ _ _ _ K).
Qed.

Lemma refill_own : own_frames (mem s1) T1 A1 0 c.
Proof.
  split.
  - intros va Hva Hv. destruct (decide (a <= va < b)) as [Hin|Hout]; [by apply Hnew|]. by destruct (refill_old va Hva Hout Hv) as (_ & ? & ?).
  - intros va va' Hva Hva' Hv Hv' E. destruct (decide (a <= va < b)) as [Hin|Hout], (decide (a <= va' < b)) as [Hin'|Hout'].
    + by apply Hnew.
    + exfalso. destruct (refill_old va' Hva' Hout' Hv') as [HA _]. apply (Hfresh (PTE2PA (pte_at (mem s1) T1 va'))); [by exists va|done].
    + exfalso. destruct (refill_old va Hva Hout Hv) as [HA _]. apply (Hfresh (PTE2PA (pte_at (mem s1) T1 va))); [by exists va'|done].
    + rewrite !Hpte in * by done. by apply Hown.
Qed.

Lemma refill_mem va : 0 <= va < c -> lazymem (mem s1) T1 va = lazymem (mem s) T va.
Proof.
  intros Hva. destruct (decide (a <= va < b)) as [Hin|Hout].
  - by rewrite Hzero, lazymem_none by auto.
  - apply (undisturbed_lazymem s T A s1 T1 A1 0 c); auto.
Qed.
End Refill.

(** New pages are zero. *)
Lemma growing_mem s T A lo hi xperm s1 T1 A1 l1 va : flags_ok xperm -> growing s T A lo xperm hi s1 T1 A1 l1 -> lo * PGSIZE <= va < hi * PGSIZE ->
  exists f, pte_at (mem s1) T1 va = mkpte f (user_flags xperm) /\ pa_ok f /\ f ∈ A1 /\ f ∉ A /\ (forall a, T1 a <> Some f) /\
    umem (mem s1) T1 va = 0 /\ lazymem (mem s1) T1 va = 0.
Proof.
  intros Hx G Hva. assert (Hv : has (user_flags xperm) PTE_V = true) by (apply has_lor_r; [done|apply flags_lor; [apply RU_ok|done]|done|done]).
  destruct (fi_page _ _ _ _ _ _ _ _ _ _ _ G va Hva Hv) as (f & E & H1 & H2 & H3 & H4 & Hz).
  rewrite PTE_FLAGS_id in E by (by apply user_flags_ok).
  assert (Hm : umem (mem s1) T1 va = 0).
  { unfold umem, uaddr. rewrite E, mkpte_pa by (done || by apply user_flags_ok). apply Hz. by apply Z.mod_pos_bound. }
  exists f. split_and!; try done. unfold lazymem. rewrite Hm. by destruct (has (pte_at (mem s1) T1 va) PTE_V).
Qed.

(** ** A page fault below the size of the process *)
Lemma ismapped_eval s T pt va : rep (mem s) T -> T N2 = Some pt -> 0 <= va < MAXVA ->
  ismapped pt va s = Ok (has (pte_at (mem s) T va) PTE_V) s.
Proof.
  intros Hr Hroot Hva. unfold ismapped, bind at 1. rewrite (walk_eval (mem s) T) by done. unfold pte_at, leaf.
  destruct (T (N0 _ _)) as [q|] eqn:Hq; [|done].
  destruct (Z.eqb_spec (q + 8 * PX 0 va) 0) as [E|_]; [destruct (leaf_addr_pos (mem s) T va q Hr (proj1 Hva) Hq E)|].
  unfold bind, read_pte, gets. by destruct (has _ PTE_V).
Qed.

(** The page of [va] is mapped to a zeroed frame, which is returned; or there is no memory. *)
Definition fault_post (s : kstate) (T : ptree) (A : list Z) (va r : Z) (s' : kstate) : Prop :=
  exists T' A' l',
    r = 0 /\ unfilled s T A (va / PGSIZE) (va / PGSIZE + 1) s' T' A' l' \/
    0 < r /\ growing s T A (va / PGSIZE) PTE_W (va / PGSIZE + 1) s' T' A' l' /\ PTE2PA (pte_at (mem s') T' va) = r.

Lemma vmfault_spec s i T A l va rd : cur s = Some i -> let p := procs s !!! i in
  vmctx s T A l -> T N2 = Some (pagetable p) -> 0 <= va -> sz p <= MAXVA ->
  wp (vmfault (pagetable p) va rd)
     (fun r s' => if (sz p <=? va) || has (pte_at (mem s) T va) PTE_V then r = 0 /\ s' = s else fault_post s T A va r s') s.
Proof.
  intros Hc p C Hroot Hva Hsz. unfold vmfault. apply wp_bind. eapply wp_intro; [by apply myproc_deref_eval|].
  apply wp_bind, wp_gets. fold p. destruct (Z.leb_spec (sz p) va); [by apply wp_ret|]. cbn [orb].
  rewrite PGROUNDDOWN_eq. set (i0 := va / PGSIZE).
  assert (Hi0 : 0 <= i0 /\ i0 * PGSIZE <= va < (i0 + 1) * PGSIZE /\ (i0 + 1) * PGSIZE <= MAXVA).
  { unfold i0. change MAXVA with (2 ^ 38) in *. unfold PGSIZE in *. dlia. }
  assert (Epage : forall m T, pte_at m T (i0 * PGSIZE) = pte_at m T va).
  { intros m T'. rewrite <-(pte_at_page _ _ va) by lia. f_equal. unfold i0, PGSIZE. dlia. }
  apply wp_bind. eapply wp_intro; [apply (ismapped_eval s T); [apply C|done|unfold PGSIZE in *; lia]|]. rewrite Epage.
  destruct (has (pte_at (mem s) T va) PTE_V) eqn:HV; [by apply wp_ret|].
  assert (Hfree : forall v, i0 * PGSIZE <= v < (i0 + 1) * PGSIZE -> has (pte_at (mem s) T v) PTE_V = false).
  { intros v Hv. rewrite (page_entry s T v va); [done|unfold PGSIZE in *; lia|lia|]. fold i0. unfold PGSIZE in *. dlia. }
  assert (Hlo : 0 <= i0 <= i0 + 1) by lia. assert (Hhi : (i0 + 1) * PGSIZE <= MAXVA) by lia.
  pose proof (filling_start s T A l i0 (fun _ => user_flags PTE_W) (fun _ _ => 0) C) as G0.
  assert (Herr : forall s' T' A' l', growing s T A i0 PTE_W i0 s' T' A' l' -> wp (ret 0) (fault_post s T A va) s').
  { intros s' T' A' l' G. apply wp_ret. exists T', A', l'. left. split; [done|].
    eapply unmapped_unfilled; [done|done|exact Hfree| |exact G|]; [lia|]. apply unmapped_refl, G. }
  apply (alloc_write s T A l (fun s m => fill (mem s) m 0 PGSIZE) _ (fun pa => r ← mappages (pagetable p) (i0 * PGSIZE) PGSIZE pa (Z.lor (Z.lor PTE_W PTE_U) PTE_R);
        if negb (r =? 0) then kfree pa;; ret 0 else ret pa)).
  - done.
  - intros s1 q x Hx. unfold fill. by rewrite bool_decide_false by lia.
  - intros _. by eapply Herr.
  - intros q l1 s1 -> HqA Hq Hq0 HqT Hm1 s2 C2 K2 Hpte2.
    apply (map_fill s T A (pagetable p) i0 (i0 + 1) (fun _ => user_flags PTE_W) (fun _ _ => 0) Hroot ltac:(done) ltac:(done) Hlo Hhi Hfree i0 s T A (q :: l1) s2 l1 q); try done.
    + lia.
    + intros x Hx. unfold s2, fill. cbn [mem set_mem]. by rewrite bool_decide_true by lia.
    + intros s' T' A' l' G E. apply wp_ret. exists T', A', l'. right. split; [done|]. split; [exact G|].
      rewrite <-Epage, E. apply mkpte_pa; [done|apply PTE_FLAGS_ok].
Qed.
