(* ===== verification/Pipe.v ===== *)
(** * Pipes (kernel/pipe.c)

    A pipe is a ring of [PIPESIZE] bytes with two free-running 32-bit counters.  The
    functions that copy from and to user memory run with the pipe's lock held; a [_resume]
    definition is the continuation after the sleep of the loop. *)

From S2P Require Import Prelude Spinlock State Kalloc Vm Pgtbl Sync.

Definition get_pipe (pi : Z) : K pipe := gets (fun s => pipes s pi).
Definition set_pipe (pi : Z) (f : pipe -> pipe) : K unit :=
  modify (fun s => set_pipes (fun x => if x =? pi then f (pipes s pi) else pipes s x) s).

(** [pi->data[pi->nwrite++ % PIPESIZE] = ch] and [pi->data[pi->nread % PIPESIZE]]. *)
Definition pipe_put (ch : Z) (p : pipe) : pipe :=
  {| p with pi_data := <[Z.to_nat (nwrite p mod PIPESIZE) := ch]> (pi_data p);
            nwrite := u32 (nwrite p + 1) |}.
Definition pipe_peek (p : pipe) : Z := nth (Z.to_nat (nread p mod PIPESIZE)) (pi_data p) 0.
Definition pipe_drop (p : pipe) : pipe := {| p with nread := u32 (nread p + 1) |}.
Definition pipe_full (p : pipe) : bool := nwrite p =? u32 (nread p + PIPESIZE).
Definition pipe_empty (p : pipe) : bool := nread p =? nwrite p.

Definition pipeclose (pi writable : Z) : K unit :=
  acquire (L_pipe pi);;
  (if negb (writable =? 0) then
     set_pipe pi (fun p => {| p with writeopen := 0 |});;
     wakeup (C_nread pi)
   else
     set_pipe pi (fun p => {| p with readopen := 0 |});;
     wakeup (C_nwrite pi));;
  p ← get_pipe pi;
  if (readopen p =? 0) && (writeopen p =? 0) then
    release (L_pipe pi);; kfree pi
  else release (L_pipe pi).

(** The loop of [pipewrite] from byte [i], with the lock held. *)
Fixpoint pipewrite_loop (fuel : nat) (pi addr n i : Z) : K Z :=
  if i <? n then
    match fuel with
    | O => fault "pipewrite: out of fuel"
    | S fuel' =>
        pr ← myproc_deref;
        p ← get_pipe pi;
        k ← (if readopen p =? 0 then ret 1 else killed pr);
        if negb (k =? 0) then release (L_pipe pi);; ret (-1)
        else if pipe_full p then
          wakeup (C_nread pi);;
          sleep (C_nwrite pi) (L_pipe pi);;
          pipewrite_loop fuel' pi addr n i
        else
          q ← get_proc pr;
          '(r, ch) ← copyin (pagetable q) (u64 (addr + i)) 1;
          if r =? -1 then
            wakeup (C_nread pi);; release (L_pipe pi);; ret i
          else
            set_pipe pi (pipe_put (nth 0 ch 0));;
            pipewrite_loop fuel' pi addr n (i + 1)
    end
  else
    wakeup (C_nread pi);; release (L_pipe pi);; ret i.

Definition pipewrite (pi addr n : Z) : K Z :=
  acquire (L_pipe pi);; pipewrite_loop (S (Z.to_nat n)) pi addr n 0.
Definition pipewrite_resume (pi addr n i : Z) : K Z :=
  sleep_after (L_pipe pi);; pipewrite_loop (S (Z.to_nat (n - i))) pi addr n i.

(** The copying loop of [piperead]. *)
Fixpoint piperead_loop (fuel : nat) (pi addr n i : Z) : K Z :=
  if i <? n then
    match fuel with
    | O => fault "piperead: out of fuel"
    | S fuel' =>
        p ← get_pipe pi;
        if pipe_empty p then ret i
        else
          let ch := pipe_peek p in
          pr ← myproc_deref;
          q ← get_proc pr;
          r ← copyout (pagetable q) (u64 (addr + i)) [ch];
          if r =? -1 then ret (if i =? 0 then -1 else i)
          else
            set_pipe pi pipe_drop;;
            piperead_loop fuel' pi addr n (i + 1)
    end
  else ret i.

(** From the test of the waiting loop on, with the lock held. *)
Definition piperead_test (pi addr n : Z) : K Z :=
  pr ← myproc_deref;
  p ← get_pipe pi;
  if pipe_empty p && negb (writeopen p =? 0) then
    k ← killed pr;
    if negb (k =? 0) then release (L_pipe pi);; ret (-1)
    else sleep (C_nread pi) (L_pipe pi);; ret 0
  else
    i ← piperead_loop (Z.to_nat n) pi addr n 0;
    wakeup (C_nwrite pi);;
    release (L_pipe pi);;
    ret i.
Definition piperead (pi addr n : Z) : K Z := acquire (L_pipe pi);; piperead_test pi addr n.
Definition piperead_resume (pi addr n : Z) : K Z :=
  sleep_after (L_pipe pi);; piperead_test pi addr n.

(** ** A pipe is a bounded queue

    The counters run freely modulo 2^32, and [PIPESIZE] divides 2^32, so the slots of the
    queued bytes are consecutive modulo [PIPESIZE] also when a counter wraps around. *)
Definition slot (p : pipe) (k : nat) : nat := Z.to_nat ((nread p + Z.of_nat k) mod PIPESIZE).

Record pipe_rep (p : pipe) (q : list Z) : Prop := {
  pr_ring : length (pi_data p) = Z.to_nat PIPESIZE;
  pr_nread : 0 <= nread p < 2 ^ 32;
  pr_nwrite : nwrite p = u32 (nread p + Z.of_nat (length q));
  pr_room : (length q <= Z.to_nat PIPESIZE)%nat;
  pr_data : forall k b, q !! k = Some b -> pi_data p !! slot p k = Some b }.

Lemma slot_inj p k k' : (k < Z.to_nat PIPESIZE)%nat -> (k' < Z.to_nat PIPESIZE)%nat ->
  slot p k = slot p k' -> k = k'.
Proof. unfold slot, PIPESIZE. intros ? ? E%Z2Nat.inj; dlia. Qed.

Lemma pipe_empty_eval p q : pipe_rep p q -> pipe_empty p = bool_decide (q = []).
Proof.
  intros R. destruct (pr_nread _ _ R). pose proof (pr_room _ _ R). unfold pipe_empty.
  rewrite (pr_nwrite _ _ R). unfold u32, PIPESIZE in *.
  destruct q as [|b q]; [rewrite bool_decide_true by done|rewrite bool_decide_false by done]; cbn [length] in *.
  - apply Z.eqb_eq. dlia.
  - apply Z.eqb_neq. dlia.
Qed.

Lemma pipe_full_eval p q : pipe_rep p q -> pipe_full p = bool_decide (length q = Z.to_nat PIPESIZE).
Proof.
  intros R. destruct (pr_nread _ _ R). pose proof (pr_room _ _ R). unfold pipe_full.
  rewrite (pr_nwrite _ _ R). unfold u32, PIPESIZE in *. case_bool_decide as E.
  - rewrite E. apply Z.eqb_refl.
  - apply Z.eqb_neq. intros Eq. apply E. dlia.
Qed.

Lemma pipe_put_rep p q ch : pipe_rep p q -> (length q < Z.to_nat PIPESIZE)%nat ->
  pipe_rep (pipe_put ch p) (q ++ [ch]).
Proof.
  intros R Hlt. pose proof R as [H1 H2 H3 H4 H5].
  assert (Hw : Z.to_nat (nwrite p mod PIPESIZE) = slot p (length q)).
  { unfold slot. rewrite H3. f_equal. unfold u32, PIPESIZE. dlia. }
  split; cbn [pi_data nread nwrite pipe_put].
  - by rewrite length_insert.
  - done.
  - rewrite H3, length_app. cbn [length]. unfold u32. rewrite Nat2Z.inj_add. dlia.
  - rewrite length_app. cbn [length]. lia.
  - intros k b. change (slot (pipe_put ch p) k) with (slot p k). rewrite Hw.
    intros [Hk|[Hk Hb]]%lookup_app_Some.
    + rewrite list_lookup_insert_ne; [by apply H5|]. intros E%slot_inj; [|lia|].
      * apply lookup_lt_Some in Hk. lia.
      * apply lookup_lt_Some in Hk. lia.
    + apply list_lookup_singleton_Some in Hb as [Hk0 <-].
      assert (k = length q) as -> by lia. apply list_lookup_insert_eq. rewrite H1.
      unfold slot, PIPESIZE. dlia.
Qed.

Lemma pipe_peek_rep p ch q : pipe_rep p (ch :: q) -> pipe_peek p = ch.
Proof.
  intros R. pose proof (pr_data _ _ R 0%nat ch eq_refl) as H. unfold pipe_peek.
  unfold slot in H. rewrite Z.add_0_r in H. rewrite nth_lookup, H. done.
Qed.

Lemma pipe_drop_rep p ch q : pipe_rep p (ch :: q) -> pipe_rep (pipe_drop p) q.
Proof.
  intros [H1 H2 H3 H4 H5]. split; cbn [pi_data nread nwrite pipe_drop length] in *.
  - done.
  - apply u32_range.
  - rewrite H3. unfold u32. dlia.
  - lia.
  - intros k b Hk. specialize (H5 (S k) b Hk). rewrite <-H5. f_equal.
    unfold slot. cbn [nread pipe_drop]. f_equal. unfold u32, PIPESIZE. dlia.
Qed.

(** ** The transfers *)

(** [s'] is [s] with memory [m'] and a new value of the pipe [pi]. *)
Definition pipe_upd (s : kstate) (pi : Z) (m' : memory) (s' : kstate) : Prop :=
  s' = set_pipes (pipes s') (set_mem m' s) /\ forall x, x <> pi -> pipes s' x = pipes s x.
(** Both ends are as open as before. *)
Definition same_ends (p p' : pipe) : Prop := readopen p' = readopen p /\ writeopen p' = writeopen p.

Lemma pipe_upd_trans s pi m1 s1 m2 s2 :
  pipe_upd s pi m1 s1 -> pipe_upd s1 pi m2 s2 -> pipe_upd s pi m2 s2.
Proof.
  intros [E1 O1] [E2 O2]. split; [rewrite E2 at 1; by rewrite E1|].
  intros x Hx. by rewrite O2, O1.
Qed.

(** The running process and its address space. *)
Record running (s : kstate) (pr : nat) (T : ptree) : Prop := {
  ru_cur : cur s = Some pr;
  ru_us : uspace (mem s) T (pagetable (procs s !!! pr)) }.

Lemma running_upd s pr T pi m' s' : running s pr T -> pipe_upd s pi m' s' ->
  uspace m' T (pagetable (procs s !!! pr)) -> running s' pr T.
Proof. intros [H1 H2] [E _] U. rewrite E. by split. Qed.

Lemma copyout1 s pr T va b : running s pr T -> 0 <= va -> user_ok PTE_W (mem s) T va ->
  exists m', copyout (pagetable (procs s !!! pr)) va [b] s = Ok 0 (set_mem m' s) /\
    copied_out (mem s) T (pagetable (procs s !!! pr)) va [b] m'.
Proof.
  intros R Hva Hok. apply copyout_loop_spec; [done|apply R|done|].
  intros v Hv. unfold in_range in Hv. cbn in Hv. by replace v with va by lia.
Qed.

Lemma copyin1 s pr T va : running s pr T -> 0 <= va -> user_ok PTE_U (mem s) T va ->
  copyin (pagetable (procs s !!! pr)) va 1 s = Ok (0, [umem (mem s) T va]) s.
Proof.
  intros R Hva Hok. unfold copyin. rewrite (copyin_loop_spec T); [|done|apply R|done|].
  - unfold uload. cbn [seq map app]. by rewrite Z.add_0_r.
  - intros v Hv. unfold in_range in Hv. by replace v with va by lia.
Qed.

Lemma piperead_loop_spec pr T pi n addr fuel : forall s q i,
  running s pr T -> pipe_rep (pipes s pi) q -> 0 <= i -> 0 <= addr -> n - i <= Z.of_nat fuel ->
  let k := Nat.min (Z.to_nat (n - i)) (length q) in
  (forall va, in_range (addr + i) (Z.of_nat k) va -> user_ok PTE_W (mem s) T va) ->
  exists m' s', piperead_loop fuel pi addr n i s = Ok (i + Z.of_nat k) s' /\ pipe_upd s pi m' s' /\
    same_ends (pipes s pi) (pipes s' pi) /\ pipe_rep (pipes s' pi) (drop k q) /\
    copied_out (mem s) T (pagetable (procs s !!! pr)) (addr + i) (take k q) m'.
Proof.
  induction fuel as [|fuel IH]; intros s q i R Hq Hi Ha Hf k Hok.
  all: assert (Hstop : k = O -> forall r : K Z, r s = Ok i s ->
    exists m' s', r s = Ok (i + Z.of_nat k) s' /\ pipe_upd s pi m' s' /\
    same_ends (pipes s pi) (pipes s' pi) /\ pipe_rep (pipes s' pi) (drop k q) /\
    copied_out (mem s) T (pagetable (procs s !!! pr)) (addr + i) (take k q) m')
    by (intros -> r Hr; exists (mem s), s; rewrite Z.add_0_r; split_and!; [done..|by apply copied_out_nil, R]).
  all: cbn [piperead_loop]; destruct (Z.ltb_spec i n); [|apply (Hstop ltac:(lia)); done].
  { lia. }
  unfold bind at 1, get_pipe, gets. rewrite (pipe_empty_eval _ q) by done.
  destruct q as [|ch q]; [rewrite bool_decide_true by done; apply (Hstop ltac:(cbn in k; lia)); done|].
  rewrite bool_decide_false by done. rewrite (pipe_peek_rep _ ch q) by done.
  assert (Hk : k = S (Nat.min (Z.to_nat (n - (i + 1))) (length q))) by (unfold k; cbn [length]; lia).
  pose proof (Hok (addr + i) ltac:(unfold in_range; lia)) as Hok1.
  assert (Hmax : 0 <= addr + i < 2 ^ 38) by apply Hok1.
  unfold bind. rewrite (myproc_deref_eval _ pr) by apply R. unfold get_proc, gets.
  rewrite u64_small by lia.
  destruct (copyout1 s pr T (addr + i) ch R ltac:(lia) Hok1) as (m1 & -> & C1). cbn [Z.eqb].
  unfold set_pipe, modify. set (s1 := set_pipes _ _).
  assert (U1 : pipe_upd s pi m1 s1).
  { split; [done|]. intros x Hx. cbn. by destruct (Z.eqb_spec x pi). }
  assert (Hp1 : pipes s1 pi = pipe_drop (pipes s pi)) by (cbn; by rewrite Z.eqb_refl).
  destruct (IH s1 q (i + 1)) as (m' & s' & Hev & U2 & [E1 E2] & Hq' & C2).
  - eapply running_upd; [done..|apply C1].
  - rewrite Hp1. by eapply pipe_drop_rep.
  - lia.
  - done.
  - lia.
  - intros va Hva. eapply (copied_out_user (mem s)); [exact C1|]. apply Hok. unfold in_range in *. lia.
  - exists m', s'. rewrite Hev. split_and!.
    + f_equal. lia.
    + by eapply pipe_upd_trans.
    + split; [by rewrite E1, Hp1|by rewrite E2, Hp1].
    + by rewrite Hk.
    + rewrite Hk. cbn [take]. change (ch :: ?l) with ([ch] ++ l). eapply copied_out_app; [|exact C1|exact C2].
      cbn. lia.
Qed.

(** A process in a system call on the pipe, with no lock held. *)
Record pipe_call (s : kstate) (pr : nat) (T : ptree) : Prop := {
  pc_procs : length (procs s) = NPROC;
  pc_held : held s = [];
  pc_pr : (pr < NPROC)%nat;
  pc_run : running s pr T }.

Lemma running_held s pr T h : running s pr T -> running (set_held h s) pr T.
Proof. intros [H1 H2]. by split. Qed.

(** The end of a transfer: the other side is woken up and the lock released. *)
Lemma pipe_finish s pi c (r : Z) : length (procs s) = NPROC -> held s = [L_pipe pi] ->
  (wakeup c;; release (L_pipe pi);; ret r) s =
    Ok r (set_held [] (set_procs (wake c (cur s) (procs s)) s)).
Proof.
  intros Hlen Hh. unfold bind. rewrite wakeup_eval; [|done|].
  - by erewrite release_eval by done.
  - intros i _ _. rewrite Hh. by intros ?%list_elem_of_singleton.
Qed.

(** The state after a transfer, with the processes waiting on [c] woken up. *)
Definition pipe_done (s : kstate) (pi : Z) (c : chan) (m' : memory) (s' : kstate) : Prop :=
  s' = set_procs (wake c (cur s) (procs s)) (set_pipes (pipes s') (set_mem m' s)) /\
  (forall x, x <> pi -> pipes s' x = pipes s x) /\ same_ends (pipes s pi) (pipes s' pi).

(** [piperead] takes bytes from the front of the queue.  With bytes in the pipe, or
    no writer left, it copies the first [k = min n |q|] of them to the caller's buffer,
    removes exactly those, wakes the writers and returns [k]; otherwise it sleeps on the pipe,
    or fails when the caller has been killed, and the pipe is unchanged. *)
Theorem piperead_dequeues (s : kstate) (pr : nat) (T : ptree) (pi addr n : Z) (q : list Z) :
  pipe_call s pr T -> pipe_rep (pipes s pi) q -> 0 <= n -> 0 <= addr ->
  let k := Nat.min (Z.to_nat n) (length q) in
  (forall va, in_range addr (Z.of_nat k) va -> user_ok PTE_W (mem s) T va) ->
  (q <> [] \/ writeopen (pipes s pi) = 0 ->
     exists m' s', piperead pi addr n s = Ok (Z.of_nat k) s' /\
       pipe_done s pi (C_nwrite pi) m' s' /\ pipe_rep (pipes s' pi) (drop k q) /\
       copied_out (mem s) T (pagetable (procs s !!! pr)) addr (take k q) m') /\
  (q = [] /\ writeopen (pipes s pi) <> 0 ->
     piperead pi addr n s =
       if p_killed (procs s !!! pr) =? 0
       then Block (set_held [L_proc pr] (set_procs (alter (asleep (C_nread pi)) pr (procs s)) s))
       else Ok (-1) s).
Proof.
  intros [Hlen Hh Hpr R] Hq Hn Ha k Hok.
  assert (Hst : piperead pi addr n s = piperead_test pi addr n (set_held [L_pipe pi] s)).
  { unfold piperead, bind. by rewrite acquire_eval, Hh by (rewrite Hh; apply not_elem_of_nil). }
  set (s0 := set_held _ _) in Hst.
  assert (Hst' : piperead pi addr n s =
    (if bool_decide (q = []) && negb (writeopen (pipes s pi) =? 0) then
       k ← killed pr;
       if negb (k =? 0) then release (L_pipe pi);; ret (-1)
       else sleep (C_nread pi) (L_pipe pi);; ret 0
     else
       i ← piperead_loop (Z.to_nat n) pi addr n 0;
       wakeup (C_nwrite pi);; release (L_pipe pi);; ret i) s0).
  { rewrite Hst. unfold piperead_test, bind at 1. rewrite (myproc_deref_eval s0 pr) by apply R.
    unfold bind at 1, get_pipe, gets. by rewrite (pipe_empty_eval _ q). }
  rewrite Hst'. subst s0. clear Hst Hst'.
  split.
  - intros Hc. assert (bool_decide (q = []) && negb (writeopen (pipes s pi) =? 0) = false) as ->.
    { destruct Hc as [Hc| ->]; [by rewrite bool_decide_false|apply andb_false_r]. }
    destruct (piperead_loop_spec pr T pi n addr (Z.to_nat n) (set_held [L_pipe pi] s) q 0)
      as (m' & s1 & Hev & [U O] & E & Hq' & C); [by apply running_held|done|done|done|lia|by rewrite Z.sub_0_r, Z.add_0_r|].
    rewrite Z.sub_0_r, Z.add_0_r in *. unfold bind at 1. rewrite Hev. cbv beta iota.
    rewrite pipe_finish by (rewrite U; done).
    eexists m', _. split; [done|]. split; [|done].
    split; [rewrite U; cbn; by rewrite <-Hh|]. split; [apply O|apply E].
  - intros [-> Hw]. rewrite bool_decide_true, (proj2 (Z.eqb_neq _ _) Hw) by done. cbn [andb negb].
    unfold bind at 1. rewrite killed_eval by (cbn; by intros ?%list_elem_of_singleton). cbn [procs set_held].
    destruct (Z.eqb_spec (p_killed (procs s !!! pr)) 0); cbn [negb].
    + unfold bind. rewrite (sleep_eval _ _ _ pr); [done|apply R|done|cbn; lia|done].
    + unfold bind. erewrite release_eval by done. unfold ret. do 2 f_equal. cbn. rewrite <-Hh. done.
Qed.

Definition room (q : list Z) : nat := (Z.to_nat PIPESIZE - length q)%nat.

(** The loop of [pipewrite] with [i] bytes done and the lock held: it ends with all bytes in
    the pipe, or asleep with the pipe full. *)
Definition write_end (s : kstate) (pi : Z) (pr : nat) (n : Z) (fits : bool) (s1 : kstate) : res kstate Z :=
  let woken := wake (C_nread pi) (cur s) (procs s) in
  if fits then Ok n (set_held [] (set_procs woken s1))
  else Block (set_held [L_proc pr] (set_procs (alter (asleep (C_nwrite pi)) pr woken) s1)).

Lemma write_fits s pi pr n : length (procs s) = NPROC -> held s = [L_pipe pi] ->
  (wakeup (C_nread pi);; release (L_pipe pi);; ret n) s = write_end s pi pr n true s.
Proof. apply pipe_finish. Qed.

Lemma write_sleeps s pi pr (r : K Z) : length (procs s) = NPROC -> held s = [L_pipe pi] ->
  cur s = Some pr -> (pr < NPROC)%nat ->
  (wakeup (C_nread pi);; sleep (C_nwrite pi) (L_pipe pi);; r) s = write_end s pi pr 0 false s.
Proof.
  intros Hlen Hh Hc Hpr. unfold bind. rewrite wakeup_eval; [|done|].
  - rewrite (sleep_eval _ _ _ pr); [done|done|done|cbn [procs set_procs]; rewrite length_wake; lia|done].
  - intros i _ _. rewrite Hh. by intros ?%list_elem_of_singleton.
Qed.

Lemma pipewrite_loop_spec pr T pi n addr fuel : forall s q i,
  running s pr T -> pipe_rep (pipes s pi) q -> readopen (pipes s pi) <> 0 ->
  p_killed (procs s !!! pr) = 0 -> length (procs s) = NPROC -> held s = [L_pipe pi] ->
  (pr < NPROC)%nat -> 0 <= i <= n -> 0 <= addr -> n - i < Z.of_nat fuel ->
  let j := Nat.min (Z.to_nat (n - i)) (room q) in
  (forall va, in_range (addr + i) (Z.of_nat j) va -> user_ok PTE_U (mem s) T va) ->
  exists s1, pipe_upd s pi (mem s) s1 /\ same_ends (pipes s pi) (pipes s1 pi) /\
    pipe_rep (pipes s1 pi) (q ++ uload (umem (mem s) T) (addr + i) j) /\
    pipewrite_loop fuel pi addr n i s =
      write_end s pi pr n (Z.to_nat (n - i) <=? room q)%nat s1.
Proof.
  induction fuel as [|fuel IH]; intros s q i R Hq Hro Hk Hlen Hh Hpr Hi Ha Hf j Hok; [lia|].
  cbn [pipewrite_loop]. destruct (Z.ltb_spec i n).
  2:{ exists s. assert (j = O) as -> by lia. rewrite app_nil_r. split_and!; [done..|].
      rewrite (write_fits _ _ pr) by done. assert (i = n) as -> by lia.
      by rewrite (proj2 (Nat.leb_le _ _)) by lia. }
  unfold bind at 1. rewrite (myproc_deref_eval _ pr) by apply R. unfold bind at 1, get_pipe, gets.
  rewrite (proj2 (Z.eqb_neq _ _) Hro). unfold bind at 1.
  rewrite killed_eval by (rewrite Hh; by intros ?%list_elem_of_singleton). rewrite Hk. cbn [Z.eqb negb].
  rewrite (pipe_full_eval _ q) by done. pose proof (pr_room _ _ Hq) as Hroom. case_bool_decide as Hfull.
  { exists s. assert (j = O) as -> by (unfold room in j; lia). rewrite app_nil_r. split_and!; [done..|].
    rewrite (write_sleeps _ _ pr) by (done || apply R). by rewrite (proj2 (Nat.leb_gt _ _)) by (unfold room; lia). }
  assert (Hj : j = S (Nat.min (Z.to_nat (n - (i + 1))) (room q - 1))) by (unfold room in *; lia).
  pose proof (Hok (addr + i) ltac:(unfold in_range; lia)) as Hok1.
  assert (Hmax : 0 <= addr + i < 2 ^ 38) by apply Hok1.
  unfold bind, get_proc, gets. rewrite u64_small by lia.
  rewrite (copyin1 s pr T) by (done || lia). cbn [Z.eqb nth].
  unfold set_pipe, modify. set (s1 := set_pipes _ _). set (ch := umem (mem s) T (addr + i)) in *.
  assert (U1 : pipe_upd s pi (mem s) s1).
  { split; [done|]. intros x Hx. cbn. by destruct (Z.eqb_spec x pi). }
  assert (Hp1 : pipes s1 pi = pipe_put ch (pipes s pi)) by (cbn; by rewrite Z.eqb_refl).
  assert (Hr1 : room (q ++ [ch]) = (room q - 1)%nat) by (unfold room; rewrite length_app; cbn [length]; lia).
  destruct (IH s1 (q ++ [ch]) (i + 1)) as (s2 & U2 & [E1 E2] & Hq' & Hev).
  1: by split; apply R.
  1: rewrite Hp1; apply pipe_put_rep; [done|lia].
  1: by rewrite Hp1.
  1-5: done || lia.
  1: lia.
  1: lia.
  1: { rewrite Hr1. intros va Hva. apply Hok. unfold in_range in *. lia. }
  exists s2. rewrite Hr1 in Hq', Hev. split_and!.
  - by eapply pipe_upd_trans.
  - split; [by rewrite E1, Hp1|by rewrite E2, Hp1].
  - rewrite Hj. change (S ?x) with (1 + x)%nat. rewrite uload_app. unfold uload at 1. cbn [seq map].
    rewrite Z.add_0_r. fold ch. rewrite app_assoc. change (Z.of_nat 1) with 1. rewrite <-Z.add_assoc. exact Hq'.
  - rewrite Hev. unfold write_end. cbn [cur procs s1 set_pipes].
    destruct (Nat.leb_spec (Z.to_nat (n - (i + 1))) (room q - 1)),
      (Nat.leb_spec (Z.to_nat (n - i)) (room q)); try done; unfold room in *; lia.
Qed.

(** [pipewrite] appends to the queue.  When the [n] bytes fit in the pipe all of them
    are queued in order, the readers are woken and [n] is returned; otherwise the pipe is
    filled to its capacity of [PIPESIZE] bytes, the readers are woken, and the writer sleeps
    until there is room.  User memory is not changed, and a write to a pipe that nobody can
    read, or by a killed process, fails with the pipe unchanged. *)
Theorem pipewrite_enqueues (s : kstate) (pr : nat) (T : ptree) (pi addr n : Z) (q : list Z) :
  pipe_call s pr T -> pipe_rep (pipes s pi) q -> 0 <= n -> 0 <= addr ->
  let j := Nat.min (Z.to_nat n) (room q) in
  let woken := wake (C_nread pi) (cur s) (procs s) in
  (forall va, in_range addr (Z.of_nat j) va -> user_ok PTE_U (mem s) T va) ->
  (readopen (pipes s pi) <> 0 /\ p_killed (procs s !!! pr) = 0 ->
     exists ps', (forall x, x <> pi -> ps' x = pipes s x) /\ same_ends (pipes s pi) (ps' pi) /\
       pipe_rep (ps' pi) (q ++ uload (umem (mem s) T) addr j) /\
       pipewrite pi addr n s =
         if (Z.to_nat n <=? room q)%nat then Ok n (set_procs woken (set_pipes ps' s))
         else Block (set_held [L_proc pr]
                (set_procs (alter (asleep (C_nwrite pi)) pr woken) (set_pipes ps' s)))) /\
  (0 < n -> readopen (pipes s pi) = 0 \/ p_killed (procs s !!! pr) <> 0 ->
     pipewrite pi addr n s = Ok (-1) s).
Proof.
  intros [Hlen Hh Hpr R] Hq Hn Ha j woken Hok. set (s0 := set_held [L_pipe pi] s).
  assert (Hst : pipewrite pi addr n s = pipewrite_loop (S (Z.to_nat n)) pi addr n 0 s0).
  { unfold pipewrite, bind. by rewrite acquire_eval, Hh by (rewrite Hh; apply not_elem_of_nil). }
  rewrite Hst. clear Hst. split.
  - intros [Hro Hk].
    destruct (pipewrite_loop_spec pr T pi n addr (S (Z.to_nat n)) s0 q 0) as (s1 & [U O] & E & Hq' & Hev);
      try (done || lia || by apply running_held).
    { rewrite Z.sub_0_r, Z.add_0_r. exact Hok. }
    rewrite Z.sub_0_r, Z.add_0_r in *. exists (pipes s1). rewrite Hev, U. unfold write_end. subst s0 woken.
    split_and!; [apply O|apply E|exact Hq'|]. cbn.
    destruct (Z.to_nat n <=? room q)%nat; [by rewrite <-Hh|done].
  - intros Hn0 Hbad. cbn [pipewrite_loop]. destruct (Z.ltb_spec 0 n); [|lia].
    unfold bind at 1. rewrite (myproc_deref_eval _ pr) by exact (ru_cur _ _ _ R). unfold bind at 1, get_pipe, gets.
    assert (Hkl : killed pr s0 = Ok (p_killed (procs s !!! pr)) s0).
    { apply (killed_eval pr s0). cbn. by intros ?%list_elem_of_singleton. }
    assert (Hret : (release (L_pipe pi);; ret (-1)) s0 = Ok (-1) s).
    { unfold bind. erewrite release_eval by done. unfold ret. f_equal. change (set_held [] s = s). by rewrite <-Hh. }
    cbn [pipes s0 set_held]. unfold bind at 1. destruct (Z.eqb_spec (readopen (pipes s pi)) 0) as [E|E]; [done|].
    rewrite Hkl. destruct Hbad as [|Hk]; [done|]. by rewrite (proj2 (Z.eqb_neq _ _) Hk).
Qed.

(** C12: a pipe is a bounded queue of bytes, whatever its wrapping 32-bit counters say.
    [piperead] takes the first bytes of the queue: with bytes in it, or no writer left, it
    copies [k = min n |q|] of them to the caller's buffer, removes exactly those, wakes the
    writers and returns [k]; otherwise it sleeps, or fails when the caller has been killed,
    with the pipe unchanged.  [pipewrite] appends: all [n] bytes when they fit, waking the
    readers; otherwise it fills the pipe to [PIPESIZE] bytes, wakes the readers and sleeps.
    Without a reader, or killed, it fails with the pipe unchanged. *)
Theorem pipe_is_queue (s : kstate) (pr : nat) (T : ptree) (pi addr n : Z) (q : list Z) :
  pipe_call s pr T -> pipe_rep (pipes s pi) q -> 0 <= n -> 0 <= addr ->
  let k := Nat.min (Z.to_nat n) (length q) in
  let j := Nat.min (Z.to_nat n) (room q) in
  let woken := wake (C_nread pi) (cur s) (procs s) in
  ((forall va, in_range addr (Z.of_nat k) va -> user_ok PTE_W (mem s) T va) ->
   (q <> [] \/ writeopen (pipes s pi) = 0 ->
      exists m' s', piperead pi addr n s = Ok (Z.of_nat k) s' /\
        pipe_done s pi (C_nwrite pi) m' s' /\ pipe_rep (pipes s' pi) (drop k q) /\
        copied_out (mem s) T (pagetable (procs s !!! pr)) addr (take k q) m') /\
   (q = [] /\ writeopen (pipes s pi) <> 0 ->
      piperead pi addr n s =
        if p_killed (procs s !!! pr) =? 0
        then Block (set_held [L_proc pr] (set_procs (alter (asleep (C_nread pi)) pr (procs s)) s))
        else Ok (-1) s)) /\
  ((forall va, in_range addr (Z.of_nat j) va -> user_ok PTE_U (mem s) T va) ->
   (readopen (pipes s pi) <> 0 /\ p_killed (procs s !!! pr) = 0 ->
      exists ps', (forall x, x <> pi -> ps' x = pipes s x) /\ same_ends (pipes s pi) (ps' pi) /\
        pipe_rep (ps' pi) (q ++ uload (umem (mem s) T) addr j) /\
        pipewrite pi addr n s =
          if (Z.to_nat n <=? room q)%nat then Ok n (set_procs woken (set_pipes ps' s))
          else Block (set_held [L_proc pr]
                 (set_procs (alter (asleep (C_nwrite pi)) pr woken) (set_pipes ps' s)))) /\
   (0 < n -> readopen (pipes s pi) = 0 \/ p_killed (procs s !!! pr) <> 0 ->
      pipewrite pi addr n s = Ok (-1) s)).
Proof. intros C Q Hn Ha. split; [by apply piperead_dequeues|by apply pipewrite_enqueues]. Qed.

(** ** An example: a pipe whose counters are about to wrap around *)
Definition demo_pipe : pipe :=
  pipe_put 30 (pipe_put 20 (pipe_put 10 (mkpipe (replicate 512 0) (2 ^ 32 - 1) (2 ^ 32 - 1) 1 1))).
Definition demo_call (m : memory) : kstate :=
  set_mem m (set_pipes (fun _ => demo_pipe) (set_cur (Some 0%nat)
    (set_procs (alter (fun p => {| p with pagetable := demo_root |}) 0%nat (replicate NPROC inhabitant)) demo))).

Lemma demo_pipe_rep : pipe_rep demo_pipe [10; 20; 30].
Proof.
  apply (pipe_put_rep _ [10; 20]); [|unfold PIPESIZE; cbn [length]; lia]. apply (pipe_put_rep _ [10]); [|unfold PIPESIZE; cbn [length]; lia].
  apply (pipe_put_rep _ []); [|unfold PIPESIZE; cbn [length]; lia]. split; [reflexivity|vm_compute; split; congruence|reflexivity|cbn [length]; lia|by intros [] b Hk].
Qed.

Lemma demo_pipe_call : exists m T, pipe_call (demo_call m) 0 T /\
  forall va, 0 <= va < PGSIZE -> user_ok PTE_W m T va /\ user_ok PTE_U m T va.
Proof.
  destruct demo_mapped as (s' & T & _ & U & Hok). exists (mem s'), T. split; [|done].
  split; [done|done|unfold NPROC; lia|]. split; [done|]. exact U.
Qed.

(** Two bytes are read and, on the same pipe, two are written. *)
Lemma pipe_is_queue_witness : exists s s1 s2 b1 b2,
  pipe_rep (pipes s 0) [10; 20; 30] /\
  piperead 0 100 2 s = Ok 2 s1 /\ pipe_rep (pipes s1 0) [30] /\
  pipewrite 0 100 2 s = Ok 2 s2 /\ pipe_rep (pipes s2 0) ([10; 20; 30] ++ [b1; b2]).
Proof.
  destruct demo_pipe_call as (m & T & C & Hok).
  destruct (pipe_is_queue (demo_call m) 0 T 0 100 2 [10; 20; 30] C demo_pipe_rep) as [R W]; [lia|lia|].
  destruct R as [R _].
  { intros va Hva. apply Hok. unfold in_range in Hva. cbn in Hva. unfold PGSIZE. lia. }
  destruct W as [W _].
  { intros va Hva. apply Hok. unfold in_range in Hva. cbn in Hva. unfold PGSIZE. lia. }
  destruct R as (m' & s1 & R1 & _ & R2 & _); [left; discriminate|].
  destruct W as (ps & _ & _ & W2 & W1); [split; [discriminate|reflexivity]|].
  exists (demo_call m), s1, (set_procs (wake (C_nread 0) (cur (demo_call m)) (procs (demo_call m))) (set_pipes ps (demo_call m))).
  exists (umem m T 100), (umem m T 101).
  split; [exact demo_pipe_rep|]. split; [exact R1|]. split; [exact R2|]. split; [exact W1|exact W2].
Defined.
