(* ===== verification/Console.v ===== *)
(** * The console (kernel/console.c), its UART driver (kernel/uart.c) and the process listing
    (procdump in kernel/proc.c) *)

From S2P Require Import Prelude Spinlock State Printk Vm Sync.

(** ** kernel/uart.c

    The transmit-complete interrupt clears [tx_busy]; [uart_rx] holds the characters that
    have arrived. *)
Fixpoint uartwrite_loop (buf : list Z) : K unit :=
  match buf with
  | [] => release L_tx
  | c :: buf' =>
      b ← gets (fun s => tx_busy s);
      if negb (b =? 0) then sleep C_tx L_tx
      else
        modify (fun s => set_output (output s ++ [u8 c]) s);;
        modify (set_tx_busy 1);;
        uartwrite_loop buf'
  end.
Definition uartwrite (buf : list Z) : K unit := acquire L_tx;; uartwrite_loop buf.
(** Woken up with [buf] left to send. *)
Definition uartwrite_resume (buf : list Z) : K unit := sleep_after L_tx;; uartwrite_loop buf.

Definition uartgetc : K Z :=
  l ← gets (fun s => uart_rx s);
  match l with
  | c :: l' => modify (set_uart_rx l');; ret c
  | [] => ret (-1)
  end.

(** ** kernel/proc.c: procdump *)
Definition state_name (st : procstate) : list Z :=
  match st with
  | UNUSED => str "unused" | USED => str "used" | SLEEPING => str "sleep "
  | RUNNABLE => str "runble" | RUNNING => str "run   " | ZOMBIE => str "zombie"
  end.

(** The bytes of a name up to its NUL. *)
Fixpoint name_chars (l : list Z) : list Z :=
  match l with
  | [] => []
  | c :: l' => if c =? 0 then [] else c :: name_chars l'
  end.

Definition procdump : K unit :=
  printk [10] [];;
  mfor proc_ids (fun i =>
    p ← get_proc i;
    if bool_decide (state p = UNUSED) then ret tt
    else
      printk (str "%d %s %s")
        [VInt (pid p); VStr (Some (state_name (state p))); VStr (Some (name_chars (name p)))];;
      printk [10] [];;
      ret tt).

(** ** kernel/console.c *)
Definition ctrl (c : Z) : Z := c - 64.
Definition get_cons : K console := gets (fun s => cons s).
Definition set_console (f : console -> console) : K unit :=
  modify (fun s => set_cons (f (cons s)) s).
Definition cons_at (c : console) (i : Z) : Z := nth (Z.to_nat (i mod INPUT_BUF_SIZE)) (c_buf c) 0.

(** The batches of [consolewrite]: 32 bytes each. *)
Fixpoint consolewrite_loop (fuel : nat) (src : kptr) (n i : Z) : K Z :=
  if i <? n then
    match fuel with
    | O => fault "consolewrite: out of fuel"
    | S fuel' =>
        let nn := Z.min 32 (n - i) in
        '(r, buf) ← either_copyin (kptr_add src i) nn;
        if r =? -1 then ret i
        else uartwrite buf;; consolewrite_loop fuel' src n (i + nn)
    end
  else ret i.
Definition consolewrite (src : kptr) (n : Z) : K Z :=
  consolewrite_loop (S (Z.to_nat (n / 32))) src n 0.

(** The loop of [consoleread] with [n] bytes to go and the lock held. *)
Fixpoint consoleread_loop (fuel : nat) (dst : kptr) (n target : Z) : K Z :=
  if 0 <? n then
    match fuel with
    | O => fault "consoleread: out of fuel"
    | S fuel' =>
        c ← get_cons;
        if c_r c =? c_w c then
          pr ← myproc_deref;
          k ← killed pr;
          if negb (k =? 0) then release L_cons;; ret (-1)
          else sleep C_cons_r L_cons;; consoleread_loop fuel' dst n target
        else
          let ch := cons_at c (c_r c) in
          set_console (fun c => {| c with c_r := u32 (c_r c + 1) |});;
          if ch =? ctrl 68 then
            when (n <? target)
              (set_console (fun c => {| c with c_r := u32 (c_r c - 1) |}));;
            release L_cons;;
            ret (target - n)
          else
            r ← either_copyout dst [ch];
            if r =? -1 then release L_cons;; ret (target - n)
            else
              if ch =? 10 then release L_cons;; ret (target - (n - 1))
              else consoleread_loop fuel' (kptr_add dst 1) (n - 1) target
    end
  else release L_cons;; ret (target - n).

Definition consoleread (dst : kptr) (n : Z) : K Z :=
  acquire L_cons;; consoleread_loop (S (Z.to_nat n)) dst n n.
Definition consoleread_resume (dst : kptr) (n target : Z) : K Z :=
  sleep_after L_cons;; consoleread_loop (S (Z.to_nat n)) dst n target.

(** The kill-line loop: the edit index moves back to [w] or to the character after a newline. *)
Fixpoint kill_line (fuel : nat) : K unit :=
  match fuel with
  | O => fault "consoleintr: out of fuel"
  | S fuel' =>
      c ← get_cons;
      if negb (c_e c =? c_w c) && negb (cons_at c (u32 (c_e c - 1)) =? 10) then
        set_console (fun c => {| c with c_e := u32 (c_e c - 1) |});;
        consputc BACKSPACE;;
        kill_line fuel'
      else ret tt
  end.

Definition consoleintr (ch : Z) : K unit :=
  acquire L_cons;;
  (if ch =? ctrl 80 then procdump
   else if ch =? ctrl 85 then
     c ← get_cons; kill_line (S (Z.to_nat (u32 (c_e c - c_w c))))
   else if (ch =? ctrl 72) || (ch =? 127) then
     c ← get_cons;
     when (negb (c_e c =? c_w c))
       (set_console (fun c => {| c with c_e := u32 (c_e c - 1) |});;
        consputc BACKSPACE)
   else
     c ← get_cons;
     when (negb (ch =? 0) && (u32 (c_e c - c_r c) <? INPUT_BUF_SIZE))
       (let ch := if ch =? 13 then 10 else ch in
        consputc ch;;
        set_console (fun c =>
          {| c with c_buf := <[Z.to_nat (c_e c mod INPUT_BUF_SIZE) := u8 ch]> (c_buf c);
                    c_e := u32 (c_e c + 1) |});;
        c ← get_cons;
        when ((ch =? 10) || (ch =? ctrl 68) || (u32 (c_e c - c_r c) =? INPUT_BUF_SIZE))
          (set_console (fun c => {| c with c_w := c_e c |});;
           wakeup C_cons_r)));;
  release L_cons.

(** The receive loop of [uartintr]: the characters that are waiting. *)
Fixpoint uartintr_loop (fuel : nat) : K unit :=
  match fuel with
  | O => fault "uartintr: out of fuel"
  | S fuel' =>
      c ← uartgetc;
      if c =? -1 then ret tt else consoleintr c;; uartintr_loop fuel'
  end.

(** [tx_idle]: the transmit bit of the line status register. *)
Definition uartintr (tx_idle : bool) : K unit :=
  acquire L_tx;;
  when tx_idle (modify (set_tx_busy 0);; wakeup C_tx);;
  release L_tx;;
  l ← gets (fun s => uart_rx s);
  uartintr_loop (S (length l)).

Definition CONSOLE : Z := 1.
Definition consoleinit : K unit :=
  modify (fun s => set_devsw
    (<[Z.to_nat CONSOLE := mkdevsw (Some consoleread_fn) (Some consolewrite_fn)]> (devsw s)) s).
