(* ===== verification/Consline.v ===== *)
(** * The console's line discipline (the theory of kernel/console.c)

    The input buffer is a ring with three free-running 32-bit indexes: [r] where the next read
    takes, [w] up to which lines are complete, [e] where the next character goes.  It holds the
    characters of complete lines, [q], and the line that is being edited. *)

From S2P Require Import Prelude Spinlock State Printk Kalloc Vm Pgtbl Sync Pipe Console.

(** ** What typing does to them *)
Definition SIZE : nat := Z.to_nat INPUT_BUF_SIZE.
Definition is_backspace (ch : Z) : bool := (ch =? ctrl 72) || (ch =? 127).
Definition ends_line (ch : Z) : bool := (ch =? 10) || (ch =? ctrl 68).
Definition keystroke (x : list Z * list Z) (ch : Z) : list Z * list Z :=
  let '(q, line) := x in
  if ch =? ctrl 80 then (q, line)
  else if ch =? ctrl 85 then (q, [])
  else if is_backspace ch then (q, removelast line)
  else if negb (ch =? 0) && (length q + length line <? SIZE)%nat then
    let ch := if ch =? 13 then 10 else ch in
    let line := line ++ [ch] in
    if ends_line ch || (length q + length line =? SIZE)%nat then (q ++ line, []) else (q, line)
  else (q, line).

(** ** The ring *)
Definition cslot (c : console) (k : nat) : nat := Z.to_nat ((c_r c + Z.of_nat k) mod INPUT_BUF_SIZE).
Record cons_rep (c : console) (q line : list Z) : Prop := {
  cr_ring : length (c_buf c) = SIZE;
  cr_r : 0 <= c_r c < 2 ^ 32;
  cr_w : c_w c = u32 (c_r c + Z.of_nat (length q));
  cr_e : c_e c = u32 (c_r c + Z.of_nat (length q + length line));
  cr_room : (length q + length line <= SIZE)%nat;
  cr_data : forall k b, (q ++ line) !! k = Some b -> c_buf c !! cslot c k = Some b;
  cr_line : 10 ∉ line }.

Ltac cons_lia := unfold u32, SIZE, INPUT_BUF_SIZE in *; change (Z.to_nat 128) with 128%nat in *; dlia.

Lemma cslot_inj c k k' : (k < SIZE)%nat -> (k' < SIZE)%nat -> cslot c k = cslot c k' -> k = k'.
Proof. unfold cslot. intros ? ? E%Z2Nat.inj; cons_lia. Qed.

Section Rep.
Context (c : console) (q line : list Z) (R : cons_rep c q line).

Lemma at_w : (c_e c =? c_w c) = bool_decide (line = []).
Proof.
  rewrite (cr_w _ _ _ R), (cr_e _ _ _ R). pose proof (cr_r _ _ _ R). pose proof (cr_room _ _ _ R). case_bool_decide as E.
  - rewrite E, Nat.add_0_r. apply Z.eqb_refl.
  - apply Z.eqb_neq. destruct line; [done|]. cbn [length] in *. cons_lia.
Qed.
Lemma at_r : (c_r c =? c_w c) = bool_decide (q = []).
Proof.
  rewrite (cr_w _ _ _ R). pose proof (cr_r _ _ _ R). pose proof (cr_room _ _ _ R). case_bool_decide as E.
  - rewrite E. cbn [length]. apply Z.eqb_eq. cons_lia.
  - apply Z.eqb_neq. destruct q; [done|]. cbn [length] in *. cons_lia.
Qed.
Lemma edited_size : u32 (c_e c - c_w c) = Z.of_nat (length line).
Proof. rewrite (cr_w _ _ _ R), (cr_e _ _ _ R). pose proof (cr_r _ _ _ R). pose proof (cr_room _ _ _ R). cons_lia. Qed.
Lemma used_size : u32 (c_e c - c_r c) = Z.of_nat (length q + length line).
Proof. rewrite (cr_e _ _ _ R). pose proof (cr_r _ _ _ R). pose proof (cr_room _ _ _ R). cons_lia. Qed.
Lemma last_char l b : line = l ++ [b] -> cons_at c (u32 (c_e c - 1)) = b.
Proof.
  intros E. assert (Hk : (q ++ line) !! (length q + length l)%nat = Some b).
  { rewrite E, lookup_app_r by lia. replace (length q + length l - length q)%nat with (length l) by lia. by rewrite list_lookup_middle. }
  apply (cr_data _ _ _ R) in Hk. unfold cons_at. rewrite nth_lookup.
  replace (Z.to_nat (u32 (c_e c - 1) mod INPUT_BUF_SIZE)) with (cslot c (length q + length l)); [by rewrite Hk|].
  unfold cslot. f_equal. rewrite (cr_e _ _ _ R), E, length_app. cbn [length]. cons_lia.
Qed.
Lemma rep_erase l b : line = l ++ [b] -> cons_rep {| c with c_e := u32 (c_e c - 1) |} q l.
Proof.
  intros E. pose proof (cr_room _ _ _ R) as Hr. rewrite E, length_app in Hr. cbn in Hr. split; cbn [c_buf c_r c_w c_e]; [apply R..| |lia| |].
  - rewrite (cr_e _ _ _ R), E, length_app. cbn [length]. cons_lia.
  - intros k x Hk. change (cslot {| c with c_e := u32 (c_e c - 1) |} k) with (cslot c k). apply (cr_data _ _ _ R). rewrite E, app_assoc. by apply lookup_app_l_Some.
  - intros Hin. apply (cr_line _ _ _ R). rewrite E. apply elem_of_app. by left.
Qed.
(** One more character. *)
Definition cons_put (ch : Z) : console :=
  {| c with c_buf := <[Z.to_nat (c_e c mod INPUT_BUF_SIZE) := u8 ch]> (c_buf c); c_e := u32 (c_e c + 1) |}.
Lemma put_data ch : 0 <= ch < 256 -> (length q + length line < SIZE)%nat ->
  length (c_buf (cons_put ch)) = SIZE /\ c_e (cons_put ch) = u32 (c_r c + Z.of_nat (length q + length (line ++ [ch]))) /\
  forall k b, (q ++ line ++ [ch]) !! k = Some b -> c_buf (cons_put ch) !! cslot c k = Some b.
Proof.
  intros Hch Hroom. assert (Hs : Z.to_nat (c_e c mod INPUT_BUF_SIZE) = cslot c (length q + length line)).
  { unfold cslot. rewrite (cr_e _ _ _ R). f_equal. pose proof (cr_r _ _ _ R). cons_lia. }
  unfold cons_put. cbn [c_buf c_e]. rewrite length_insert. split; [apply R|]. split.
  - rewrite (cr_e _ _ _ R), length_app. cbn [length]. cons_lia.
  - intros k b. rewrite app_assoc, Hs. intros [Hk|[Hk Hb]]%lookup_app_Some.
    + rewrite list_lookup_insert_ne; [by apply (cr_data _ _ _ R)|]. pose proof (lookup_lt_Some _ _ _ Hk) as Hl. rewrite length_app in Hl. intros E%cslot_inj; lia.
    + apply list_lookup_singleton_Some in Hb as [Hk0 <-]. rewrite length_app in *. assert (k = length q + length line)%nat as -> by lia.
      unfold u8. rewrite Z.mod_small by lia. apply list_lookup_insert_eq. rewrite (cr_ring _ _ _ R). unfold cslot. cons_lia.
Qed.
Lemma rep_put ch : 0 <= ch < 256 -> ch <> 10 -> (length q + length line < SIZE)%nat -> cons_rep (cons_put ch) q (line ++ [ch]).
Proof.
  intros Hch Hne Hroom. destruct (put_data ch Hch Hroom) as (H1 & H2 & H3). split; [done|apply R|apply R|done|rewrite length_app; cbn; lia|exact H3|].
  intros [Hin|Hin]%elem_of_app; [by apply (cr_line _ _ _ R)|]. by apply list_elem_of_singleton in Hin.
Qed.
Lemma rep_commit ch : 0 <= ch < 256 -> (length q + length line < SIZE)%nat ->
  cons_rep {| (cons_put ch) with c_w := c_e (cons_put ch) |} (q ++ line ++ [ch]) [].
Proof.
  intros Hch Hroom. destruct (put_data ch Hch Hroom) as (H1 & H2 & H3).
  split; cbn [c_buf c_r c_w c_e length]; change (c_r (cons_put ch)) with (c_r c); [exact H1|apply R|rewrite H2, !length_app; cbn [length]; f_equal; lia|rewrite H2, !length_app; cbn [length]; f_equal; lia| | |apply not_elem_of_nil].
  - rewrite !length_app. cbn [length]. lia.
  - rewrite app_nil_r. exact H3.
Qed.
End Rep.

(** ** The interrupt handler

    Printing succeeds and changes nothing but the output. *)
Definition prints {A} (m : K A) : Prop := forall s, L_pr ∉ held s -> exists a o, m s = Ok a (set_output o s).
Definition prints_locked {A} (m : K A) : Prop := forall s, exists a o, m s = Ok a (set_output o s).

Lemma set_output_id s : set_output (output s) s = s. Proof. by destruct s. Qed.
Lemma prints_ret {A} (a : A) : prints_locked (ret a).
Proof. intros s. exists a, (output s). by rewrite set_output_id. Qed.
Lemma prints_bind {A B} (m : K A) (k : A -> K B) :
  prints_locked m -> (forall a, prints_locked (k a)) -> prints_locked (bind m k).
Proof.
  intros Hm Hk s. destruct (Hm s) as (a & o & E). destruct (Hk a (set_output o s)) as (b & o' & E').
  exists b, o'. unfold bind. rewrite E. exact E'.
Qed.
Lemma prints_mfor {A} (l : list A) (f : A -> K unit) :
  (forall x, prints_locked (f x)) -> prints_locked (mfor l f).
Proof. intros Hf. induction l as [|x l IH]; [apply prints_ret|]. by apply prints_bind. Qed.
Lemma prints_char c : prints_locked (consputc c).
Proof.
  intros s. unfold consputc. destruct (c =? BACKSPACE); [|by exists tt, (output s ++ [u8 c])].
  by exists tt, (((output s ++ [u8 8]) ++ [u8 32]) ++ [u8 8]).
Qed.
Lemma prints_printk fmt args : prints_locked (printk_loop fmt args) -> prints (printk fmt args).
Proof.
  intros H s Hs. unfold printk, bind. rewrite acquire_eval by done.
  destruct (H (set_held (L_pr :: held s) s)) as ([] & o & ->). erewrite release_eval by done.
  exists 0, o. unfold ret. by destruct s.
Qed.
Lemma prints_newline args : prints_locked (printk_loop [10] args).
Proof. apply prints_bind; [apply prints_char|intros _; apply prints_ret]. Qed.
Lemma printk_loop_s x fmt args s :
  exists o, printk_loop (37 :: 115 :: fmt) (VStr (Some x) :: args) s = printk_loop fmt args (set_output o s).
Proof.
  destruct (prints_mfor x consputc prints_char s) as ([] & o & E). exists o.
  cbn [printk_loop Z.eqb Pos.eqb negb]. cbn [conversion Z.eqb Pos.eqb andb print_conv]. unfold bind.
  cbn [default from_option id]. rewrite E. done.
Qed.
Lemma prints_dump_line a x y : prints_locked (printk_loop (str "%d %s %s") [VInt a; VStr (Some x); VStr (Some y)]).
Proof.
  intros s. change (str "%d %s %s") with [37; 100; 32; 37; 115; 32; 37; 115]. rewrite printk_loop_d.
  rewrite (printk_loop_plain [32] [37; 115; 32; 37; 115]) by (apply Forall_singleton; lia).
  destruct (printk_loop_s x [32; 37; 115] [VStr (Some y)]
    (set_output (output (set_output (output s ++ reverse (printint_buf (s32 a) 10 true)) s) ++ [32])
       (set_output (output s ++ reverse (printint_buf (s32 a) 10 true)) s))) as (o1 & ->).
  rewrite (printk_loop_plain [32] [37; 115]) by (apply Forall_singleton; lia).
  edestruct printk_loop_s as (o2 & ->). by exists tt, o2.
Qed.
Lemma prints_procdump s : L_pr ∉ held s -> exists o, procdump s = Ok tt (set_output o s).
Proof.
  intros Hs. unfold procdump, bind at 1. destruct (prints_printk [10] [] (prints_newline []) s Hs) as (r & o & ->).
  generalize proc_ids as l. revert o. intros o l. revert o. induction l as [|i l IH]; intros o; [by exists o|].
  cbn [mfor]. unfold bind at 1. unfold bind at 1, get_proc, gets. case_bool_decide; [apply IH|].
  set (s1 := set_output o s). assert (H1 : L_pr ∉ held s1) by exact Hs.
  destruct (prints_printk _ _ (prints_dump_line (pid (procs s1 !!! i)) (state_name (state (procs s1 !!! i))) (name_chars (name (procs s1 !!! i)))) s1 H1) as (r1 & o1 & E1).
  destruct (prints_printk [10] [] (prints_newline []) (set_output o1 s) Hs) as (r2 & o2 & E2).
  unfold bind. rewrite E1. change (set_output o1 s1) with (set_output o1 s). rewrite E2. apply IH.
Qed.

(** The state with other output, another input buffer and other processes. *)
Definition typed (s : kstate) (o : list Z) (c : console) : kstate := set_output o (set_cons c s).
Lemma typed_id s : typed s (output s) (cons s) = s. Proof. by destruct s. Qed.

Lemma kill_line_eval q fuel : forall s line, cons_rep (cons s) q line -> (length line < fuel)%nat ->
  exists o c', kill_line fuel s = Ok tt (typed s o c') /\ cons_rep c' q [].
Proof.
  induction fuel as [|fuel IH]; intros s line R Hf; [lia|]. cbn [kill_line].
  unfold bind at 1, get_cons, gets. rewrite (at_w _ q line R).
  destruct line as [|b l _] using rev_ind.
  { exists (output s), (cons s). by rewrite typed_id. }
  rewrite bool_decide_false by (by destruct l). rewrite (last_char _ q _ R l b) by done.
  destruct (Z.eqb_spec b 10) as [->|_].
  { exfalso. apply (cr_line _ _ _ R). apply elem_of_app. right. by left. }
  cbn [negb andb]. unfold bind at 1, set_console, modify. unfold bind.
  set (s1 := set_cons _ s). destruct (prints_char BACKSPACE s1) as ([] & o & ->).
  destruct (IH (set_output o s1) l) as (o' & c' & E & R').
  - by eapply rep_erase.
  - rewrite length_app in Hf. cbn in Hf. lia.
  - exists o', c'. by rewrite E.
Qed.

(** Whether a key completes input, so that the readers are woken. *)
Definition completes (x : list Z * list Z) (ch : Z) : bool := (length x.1 <? length (keystroke x ch).1)%nat.

(** Storing a character. *)
Definition store_key (ch : Z) : K unit :=
  set_console (fun c => {| c with c_buf := <[Z.to_nat (c_e c mod INPUT_BUF_SIZE) := u8 ch]> (c_buf c); c_e := u32 (c_e c + 1) |});;
  c ← get_cons;
  when ((ch =? 10) || (ch =? ctrl 68) || (u32 (c_e c - c_r c) =? INPUT_BUF_SIZE))
    (set_console (fun c => {| c with c_w := c_e c |});; wakeup C_cons_r).
Lemma store_key_eval s q line ch : 0 <= ch < 256 -> held s = [L_cons] -> length (procs s) = NPROC ->
  cons_rep (cons s) q line -> (length q + length line < SIZE)%nat ->
  let full := ends_line ch || (length q + length (line ++ [ch]) =? SIZE)%nat in
  exists c', store_key ch s = Ok tt (set_procs (if full then wake C_cons_r (cur s) (procs s) else procs s) (set_cons c' s)) /\
    if full then cons_rep c' (q ++ line ++ [ch]) [] else cons_rep c' q (line ++ [ch]).
Proof.
  intros Hch Hh Hlen R Hroom full. unfold store_key, bind at 1, set_console at 1, modify.
  set (c1 := cons_put (cons s) ch). set (s1 := set_cons c1 s). cbv beta.
  match goal with |- context [set_cons ?x s] => change (set_cons x s) with s1 end. cbv beta iota.
  unfold bind at 1, get_cons, gets. destruct (put_data _ q line R ch Hch Hroom) as (_ & He & _).
  assert ((ch =? 10) || (ch =? ctrl 68) || (u32 (c_e (cons s1) - c_r (cons s1)) =? INPUT_BUF_SIZE) = full) as ->.
  { unfold full, ends_line. f_equal. change (cons s1) with c1. unfold c1 at 1. rewrite He. change (c_r c1) with (c_r (cons s)).
    rewrite length_app. cbn [length]. pose proof (cr_r _ _ _ R).
    destruct (Nat.eqb_spec (length q + (length line + 1)) SIZE); [apply Z.eqb_eq|apply Z.eqb_neq]; cons_lia. }
  destruct full eqn:Hf; cbn [when].
  - eexists. split; [|by apply rep_commit]. unfold when, bind, set_console, modify. rewrite wakeup_eval; [done|done|].
    intros i _ _. change (held _) with (held s). rewrite Hh. by intros ?%list_elem_of_singleton.
  - exists c1. unfold when, ret. split; [by destruct s|]. apply rep_put; [done..| |done].
    intros ->. unfold full, ends_line in Hf. done.
Qed.

Lemma consoleintr_spec s q line ch : 0 <= ch < 256 -> held s = [] -> length (procs s) = NPROC ->
  cons_rep (cons s) q line ->
  exists o c', consoleintr ch s = Ok tt (set_procs (if completes (q, line) ch then wake C_cons_r (cur s) (procs s) else procs s) (typed s o c')) /\
    cons_rep c' (keystroke (q, line) ch).1 (keystroke (q, line) ch).2.
Proof.
  intros Hch Hh Hlen R. set (s0 := set_held [L_cons] s).
  assert (Hst : forall m : K unit, (acquire L_cons;; (m;; release L_cons)) s = (m;; release L_cons) s0).
  { intros m. unfold bind at 1. by rewrite acquire_eval, Hh by (rewrite Hh; apply not_elem_of_nil). }
  unfold consoleintr. rewrite Hst. clear Hst.
  assert (Hend : forall (m : K unit) o c' ps, m s0 = Ok tt (set_procs ps (typed s0 o c')) ->
    (m;; release L_cons) s0 = Ok tt (set_procs ps (typed s o c'))).
  { intros m o c' ps E. unfold bind. rewrite E. erewrite release_eval by done. f_equal.
    transitivity (set_held (held s) (set_procs ps (typed s0 o c'))); [by rewrite Hh|done]. }
  assert (Hsame : forall s', set_procs (procs s') s' = s') by (by intros []).
  unfold completes. cbn [fst]. unfold keystroke.
  destruct (ch =? ctrl 80).
  { destruct (prints_procdump s0) as (o & E); [cbn; by intros ?%list_elem_of_singleton|].
    exists o, (cons s). cbn [fst snd]. rewrite Nat.ltb_irrefl. split; [|done]. apply Hend. rewrite E. done. }
  destruct (ch =? ctrl 85).
  { destruct (kill_line_eval q (S (length line)) s0 line R ltac:(lia)) as (o & c' & E & R').
    exists o, c'. cbn [fst snd]. rewrite Nat.ltb_irrefl. split; [|done]. apply Hend. unfold bind, get_cons, gets.
    rewrite (edited_size (cons s0) q line R), Nat2Z.id, E. done. }
  destruct ((ch =? ctrl 72) || (ch =? 127)) eqn:Hb.
  { unfold is_backspace. rewrite Hb. cbn [fst snd]. rewrite Nat.ltb_irrefl.
    destruct line as [|b l _] using rev_ind.
    - exists (output s), (cons s). split; [|done]. apply Hend. unfold bind at 1, get_cons, gets, when.
      rewrite (at_w (cons s0) q [] R). done.
    - rewrite removelast_last. destruct (prints_char BACKSPACE (set_cons {| (cons s) with c_e := u32 (c_e (cons s) - 1) |} s0)) as ([] & o & E).
      eexists o, _. split; [|by eapply rep_erase]. apply Hend. unfold bind at 1, get_cons, gets, when.
      rewrite (at_w (cons s0) q _ R), bool_decide_false by (by destruct l). cbn [negb]. unfold bind, set_console, modify. exact E. }
  unfold is_backspace. rewrite Hb.
  assert (Hroom : (u32 (c_e (cons s0) - c_r (cons s0)) <? INPUT_BUF_SIZE) = (length q + length line <? SIZE)%nat).
  { rewrite (used_size (cons s0) q line R). unfold SIZE, INPUT_BUF_SIZE. destruct (Z.ltb_spec (Z.of_nat (length q + length line)) 128), (Nat.ltb_spec (length q + length line) (Z.to_nat 128)); lia. }
  destruct (negb (ch =? 0) && (length q + length line <? SIZE)%nat) eqn:Hput.
  2:{ exists (output s), (cons s). cbn [fst snd]. rewrite Nat.ltb_irrefl. split; [|done]. apply Hend.
      unfold bind at 1, get_cons, gets, when. rewrite Hroom, Hput. done. }
  apply andb_true_iff in Hput as [H0 Hlt%Nat.ltb_lt].
  set (ch' := if ch =? 13 then 10 else ch). assert (Hch' : 0 <= ch' < 256) by (unfold ch'; destruct (ch =? 13); lia).
  destruct (prints_char ch' s0) as ([] & o & E).
  assert (Hrun : forall m, (c ← get_cons; when (negb (ch =? 0) && (u32 (c_e c - c_r c) <? INPUT_BUF_SIZE)) (consputc ch';; m)) s0 = m (set_output o s0)).
  { intros m. unfold bind at 1, get_cons, gets, when. rewrite Hroom, H0, (proj2 (Nat.ltb_lt _ _) Hlt). cbn [andb]. unfold bind. by rewrite E. }
  destruct (store_key_eval (set_output o s0) q line ch') as (c' & Es & Hs); [done..|].
  exists o, c'. destruct (ends_line ch' || _) eqn:Hf; cbn [fst snd].
  - rewrite (proj2 (Nat.ltb_lt _ _)) by (rewrite !length_app; cbn; lia). split; [|done]. apply Hend. etransitivity; [apply Hrun|exact Es].
  - rewrite Nat.ltb_irrefl. split; [|done]. apply Hend. etransitivity; [apply Hrun|exact Es].
Qed.

(** ** The receive interrupt: every character that has arrived *)
Lemma keystroke_grows x ch : (length x.1 <= length (keystroke x ch).1)%nat.
Proof.
  destruct x as [q line]. unfold keystroke. repeat case_match; cbn [fst]; rewrite ?length_app; lia.
Qed.
Definition keystrokes : list Z * list Z -> list Z -> list Z * list Z := foldl keystroke.
(** Some of the characters completed input. *)
Definition completed (x : list Z * list Z) (cs : list Z) : bool := (length x.1 <? length (keystrokes x cs).1)%nat.
Lemma keystrokes_grow cs : forall x, (length x.1 <= length (keystrokes x cs).1)%nat.
Proof. induction cs as [|ch cs IH]; intros x; [done|]. etransitivity; [apply keystroke_grows|apply IH]. Qed.
Lemma completed_cons x ch cs : completed x (ch :: cs) = completes x ch || completed (keystroke x ch) cs.
Proof.
  pose proof (keystroke_grows x ch). pose proof (keystrokes_grow cs (keystroke x ch)).
  unfold completed, completes. change (keystrokes x (ch :: cs)) with (keystrokes (keystroke x ch) cs).
  repeat match goal with |- context [(?a <? ?b)%nat] => destruct (Nat.ltb_spec a b) end; cbn; done || lia.
Qed.
Lemma wake1_idem c me i p : wake1 c me i (wake1 c me i p) = wake1 c me i p.
Proof. unfold wake1. repeat (case_bool_decide; cbn [andb state p_chan] in *; try done). Qed.
Lemma wake_idem c me ps : wake c me (wake c me ps) = wake c me ps.
Proof.
  unfold wake. apply list_eq. intros i. rewrite !list_lookup_imap. destruct (ps !! i); [|done]. cbn. by rewrite wake1_idem.
Qed.

Definition woken (b : bool) (s : kstate) : list proc := if b then wake C_cons_r (cur s) (procs s) else procs s.
Lemma length_woken b s : length (woken b s) = length (procs s).
Proof. destruct b; [apply length_wake|done]. Qed.

Lemma uartintr_loop_eval cs : forall fuel s x, Forall (fun c => 0 <= c < 256) cs -> uart_rx s = cs ->
  (length cs < fuel)%nat -> held s = [] -> length (procs s) = NPROC -> cons_rep (cons s) x.1 x.2 ->
  exists o c', uartintr_loop fuel s = Ok tt (set_procs (woken (completed x cs) s) (set_uart_rx [] (typed s o c'))) /\
    cons_rep c' (keystrokes x cs).1 (keystrokes x cs).2.
Proof.
  induction cs as [|ch cs IH]; intros fuel s x Hcs Hrx Hf Hh Hlen R; (destruct fuel as [|fuel]; [cbn in Hf; lia|]).
  - cbn [uartintr_loop]. unfold uartgetc, bind at 1, gets. unfold bind. rewrite Hrx. unfold completed. cbn [keystrokes foldl].
    rewrite Nat.ltb_irrefl. exists (output s), (cons s). split; [|done]. unfold ret. cbn. rewrite <-Hrx. by destruct s.
  - apply Forall_cons in Hcs as [Hch Hcs]. cbn [uartintr_loop]. unfold uartgetc at 1, bind at 1 2, gets. rewrite Hrx.
    unfold bind at 1, modify, ret. destruct (Z.eqb_spec ch (-1)); [lia|].
    set (s1 := set_uart_rx cs s). destruct x as [q line].
    destruct (consoleintr_spec s1 q line ch Hch Hh Hlen R) as (o & c1 & E & R1).
    unfold bind. rewrite E. clear E. set (s2 := set_procs _ _).
    destruct (IH fuel s2 (keystroke (q, line) ch)) as (o' & c' & E' & R').
    + done.
    + done.
    + cbn in Hf. lia.
    + done.
    + unfold s2. cbn [procs set_procs]. destruct (completes _ _); [by rewrite length_wake|done].
    + exact R1.
    + exists o', c'. rewrite E'. split; [|exact R']. f_equal. rewrite completed_cons.
      unfold woken, s2, typed. cbn [cur procs set_procs]. destruct (completes _ ch), (completed _ cs); cbn [orb]; try done.
      by rewrite wake_idem.
Qed.

Lemma uartintr_eval s x (tx : bool) : Forall (fun c => 0 <= c < 256) (uart_rx s) -> held s = [] ->
  length (procs s) = NPROC -> cons_rep (cons s) x.1 x.2 ->
  let s0 := if tx then set_procs (wake C_tx (cur s) (procs s)) (set_tx_busy 0 s) else s in
  exists o c', uartintr tx s = Ok tt (set_procs (woken (completed x (uart_rx s)) s0) (set_uart_rx [] (typed s0 o c'))) /\
    cons_rep c' (keystrokes x (uart_rx s)).1 (keystrokes x (uart_rx s)).2.
Proof.
  intros Hcs Hh Hlen R s0.
  assert (Hst : uartintr tx s = uartintr_loop (S (length (uart_rx s))) s0).
  { unfold uartintr, bind at 1. rewrite acquire_eval, Hh by (rewrite Hh; apply not_elem_of_nil).
    assert (Hback : forall s', set_held [] (set_held [L_tx] s') = set_held [] s') by done.
    subst s0. destruct tx; unfold when, bind, modify, ret.
    - rewrite wakeup_eval; [|done|intros i _ _; cbn; by intros ?%list_elem_of_singleton].
      erewrite release_eval by done. unfold gets. f_equal.
      transitivity (set_held (held s) (set_procs (wake C_tx (cur s) (procs s)) (set_tx_busy 0 s))); [by rewrite Hh|done].
    - erewrite release_eval by done. unfold gets. f_equal. rewrite Hback, <-Hh. by destruct s. }
  rewrite Hst. apply (uartintr_loop_eval (uart_rx s)); try (subst s0; destruct tx; done); try done; try lia.
  subst s0. destruct tx; [|done]. cbn [procs set_procs]. by rewrite length_wake.
Qed.

(** ** Reading

    What a read of up to [n] bytes takes from the queue: the bytes it delivers, what it leaves,
    and whether it is finished.  A line ends with a newline, which is delivered, or with ^D, which
    is not: it ends the input when it comes [first] and otherwise stays for the next read. *)
Fixpoint next_line (first : bool) (n : nat) (q : list Z) : list Z * list Z * bool :=
  match n, q with
  | O, _ => ([], q, true)
  | S _, [] => ([], [], false)
  | S n', ch :: q' =>
      if ch =? ctrl 68 then ([], if first then q' else q, true)
      else if ch =? 10 then ([ch], q', true)
      else let '(l, r, fin) := next_line false n' q' in (ch :: l, r, fin)
  end.

Lemma cons_take c ch q line : cons_rep c (ch :: q) line ->
  cons_at c (c_r c) = ch /\ cons_rep {| c with c_r := u32 (c_r c + 1) |} q line.
Proof.
  intros [H1 H2 H3 H4 H5 H6 H7]. split.
  - pose proof (H6 0%nat ch eq_refl) as H. unfold cons_at, cslot in *. rewrite Z.add_0_r in H. by rewrite nth_lookup, H.
  - split; cbn [c_buf c_r c_w c_e length] in *.
    + done.
    + apply u32_range.
    + rewrite H3. cons_lia.
    + rewrite H4. cons_lia.
    + lia.
    + intros k b Hk. specialize (H6 (S k) b Hk). rewrite <-H6. f_equal. unfold cslot. cbn [c_r]. f_equal. cons_lia.
    + done.
Qed.
Lemma cons_untake c : 0 <= c_r c < 2 ^ 32 -> {| c with c_r := u32 (u32 (c_r c + 1) - 1) |} = c.
Proof. intros H. assert (u32 (u32 (c_r c + 1) - 1) = c_r c) as -> by cons_lia. by destruct c. Qed.

(** How a read ends, with [l] delivered and the lock held. *)
Definition read_end (pr : nat) (r : Z) (fin : bool) (s : kstate) : res kstate Z :=
  if fin then Ok r (set_held [] s)
  else if p_killed (procs s !!! pr) =? 0
  then Block (set_held [L_proc pr] (set_procs (alter (asleep C_cons_r) pr (procs s)) s))
  else Ok (-1) (set_held [] s).

Lemma read_none fuel dst target s : held s = [L_cons] ->
  consoleread_loop fuel dst 0 target s = read_end 0 (target - 0) true s.
Proof. intros Hh. destruct fuel; cbn [consoleread_loop Z.ltb Z.compare]; unfold bind; by erewrite release_eval. Qed.
Lemma read_waits pr s (m : K Z) : cur s = Some pr -> held s = [L_cons] -> (pr < length (procs s))%nat ->
  (i ← myproc_deref; k ← killed i; if negb (k =? 0) then release L_cons;; ret (-1) else sleep C_cons_r L_cons;; m) s =
    read_end pr 0 false s.
Proof.
  intros Hc Hh Hpr. unfold bind at 1. rewrite (myproc_deref_eval _ pr) by done. unfold bind at 1.
  rewrite killed_eval by (rewrite Hh; by intros ?%list_elem_of_singleton). unfold read_end, bind.
  destruct (Z.eqb_spec (p_killed (procs s !!! pr)) 0); cbn [negb].
  - by rewrite (sleep_eval _ _ _ pr).
  - by erewrite release_eval.
Qed.
Lemma consoleread_loop_spec pr T target line fuel : forall s q addr n,
  running s pr T -> cons_rep (cons s) q line -> held s = [L_cons] -> length (procs s) = NPROC -> (pr < NPROC)%nat ->
  0 <= addr -> (n <= fuel)%nat -> Z.of_nat n <= target ->
  let x := next_line (Z.of_nat n =? target) n q in
  (forall va, in_range addr (Z.of_nat (length x.1.1)) va -> user_ok PTE_W (mem s) T va) ->
  exists m' c', cons_rep c' x.1.2 line /\ copied_out (mem s) T (pagetable (procs s !!! pr)) addr x.1.1 m' /\
    consoleread_loop fuel (Uaddr addr) (Z.of_nat n) target s =
      read_end pr (target - Z.of_nat n + Z.of_nat (length x.1.1)) x.2 (set_cons c' (set_mem m' s)).
Proof.
  induction fuel as [|fuel IH]; intros s q addr n R C Hh Hlen Hpr Ha Hf Ht x Hok.
  all: assert (Hid : set_cons (cons s) (set_mem (mem s) s) = s) by (by destruct s).
  all: pose proof (copied_out_nil (mem s) T (pagetable (procs s !!! pr)) addr (ru_us _ _ _ R)) as Hnil.
  all: destruct n as [|n]; [rewrite read_none by done; exists (mem s), (cons s); rewrite Hid; subst x; cbn [next_line fst snd length Z.of_nat]; split_and!; [done..|]; by rewrite Z.add_0_r|].
  { lia. }
  cbn [consoleread_loop]. destruct (Z.ltb_spec 0 (Z.of_nat (S n))); [|lia].
  unfold bind at 1, get_cons, gets. rewrite (at_r _ q line C). destruct q as [|ch q].
  { rewrite bool_decide_true by done. exists (mem s), (cons s). rewrite Hid. split_and!; [done..|]. subst x. cbn [next_line fst snd].
    apply read_waits; [apply R|done|by rewrite Hlen]. }
  rewrite bool_decide_false by done. destruct (cons_take _ _ _ _ C) as [Ech C1]. rewrite Ech.
  unfold bind at 1, set_console at 1, modify at 1. cbv beta iota. set (s1 := set_cons _ s).
  cbn [next_line] in x. destruct (Z.eqb_spec ch (ctrl 68)) as [->|Hd].
  { subst x. cbn [fst snd length Z.of_nat] in *. rewrite Z.add_0_r. unfold bind at 1, when, set_console, modify.
    destruct (Z.ltb_spec (Z.of_nat (S n)) target), (Z.eqb_spec (Z.of_nat (S n)) target); try lia.
    - exists (mem s), (cons s). rewrite Hid. split_and!; [done..|]. cbn [cons s1 set_cons].
      match goal with |- context [set_cons ?c s1] => assert (set_cons c s1 = s) as -> end.
      { change (set_cons {| (cons s) with c_r := u32 (u32 (c_r (cons s) + 1) - 1) |} s = s). rewrite cons_untake by apply C. by destruct s. }
      unfold bind. by erewrite release_eval.
    - eexists (mem s), _. split_and!; [exact C1|done|]. unfold ret, bind. by erewrite release_eval. }
  pose proof (Hok addr) as Hok1. assert (Hx : x.1.1 = ch :: (if ch =? 10 then [] else (next_line false n q).1.1)).
  { subst x. destruct (ch =? 10); [done|]. by destruct (next_line false n q) as [[? ?] ?]. }
  rewrite Hx in Hok1. specialize (Hok1 ltac:(unfold in_range; cbn [length]; lia)).
  assert (Hmax : 0 <= addr < 2 ^ 38) by apply Hok1.
  assert (R1 : running s1 pr T) by (by split; apply R).
  destruct (copyout1 s1 pr T addr ch R1 Ha Hok1) as (m1 & E1 & K1).
  unfold bind at 1, either_copyout, bind at 1. rewrite (myproc_deref_eval _ pr) by apply R. unfold bind at 1, get_proc, gets.
  rewrite E1. cbn [Z.eqb]. change (pagetable (procs s1 !!! pr)) with (pagetable (procs s !!! pr)) in K1.
  destruct (Z.eqb_spec ch 10) as [->|Hnl].
  { exists m1, (cons s1). subst x. cbn [fst snd length]. split_and!; [exact C1|exact K1|]. unfold bind. erewrite release_eval by done.
    unfold ret, read_end. f_equal. lia. }
  destruct (IH (set_mem m1 s1) q (addr + 1) n) as (m' & c' & C' & K' & E'); [|exact C1|exact Hh|exact Hlen|exact Hpr| | | | |].
  - split; [apply R|apply K1].
  - lia.
  - lia.
  - lia.
  - rewrite (proj2 (Z.eqb_neq _ _)) by lia. intros va Hva. eapply (copied_out_user (mem s)); [exact K1|]. apply Hok. rewrite Hx.
    unfold in_range in *. cbn [length]. lia.
  - rewrite (proj2 (Z.eqb_neq (Z.of_nat n) target)) in * by lia. exists m', c'.
    subst x. destruct (next_line false n q) as [[l r] fin]. cbn [fst snd length] in *. split_and!; [exact C'| |].
    + change (ch :: l) with ([ch] ++ l). eapply copied_out_app; [|exact K1|exact K']. cbn. lia.
    + cbn [kptr_add]. rewrite u64_small by lia. replace (Z.of_nat (S n) - 1) with (Z.of_nat n) by lia. rewrite E'.
      unfold read_end. replace (target - Z.of_nat n + Z.of_nat (length l)) with (target - Z.of_nat (S n) + Z.of_nat (S (length l))) by lia. done.
Qed.

Lemma woken_awake c me ps i p : wake c me ps !! i = Some p -> Some i <> me -> ~ (state p = SLEEPING /\ p_chan p = c).
Proof.
  unfold wake. rewrite list_lookup_imap. intros (p0 & _ & ->)%fmap_Some Hi. unfold wake1.
  rewrite (bool_decide_false _ Hi). destruct (_ && _) eqn:E; [by intros [[=] _]|]. intros [H1 H2].
  by rewrite !bool_decide_true in E by done.
Qed.

(** C31: the line discipline of the console.  The characters that the UART has received are
    taken in order, and each edits the input as its key says: ordinary characters join the line
    being edited as long as the 128-byte buffer has room, backspace and delete erase its last
    character, ^U erases all of it, ^P and NUL leave it alone, and a newline (or carriage
    return), ^D or the last free byte makes the line available to readers, which are then woken;
    the three free-running 32-bit indexes of the buffer represent exactly these two queues.  A
    read takes from the front of the available input: at most [n] bytes, at most one line, with
    ^D as the end of the input when it is the first thing read and kept for the next read
    otherwise; exactly these bytes are copied to the caller.  When the available input runs out
    before that, the reader sleeps, or fails if it has been killed. *)
Theorem console_line_discipline (s : kstate) (q line : list Z) :
  held s = [] -> length (procs s) = NPROC -> cons_rep (cons s) q line ->
  (forall tx, Forall (fun c => 0 <= c < 256) (uart_rx s) ->
     let x := keystrokes (q, line) (uart_rx s) in
     exists s', uartintr tx s = Ok tt s' /\ uart_rx s' = [] /\ held s' = [] /\ mem s' = mem s /\
       cons_rep (cons s') x.1 x.2 /\
       ((length q < length x.1)%nat -> forall i p, procs s' !! i = Some p -> Some i <> cur s ->
          ~ (state p = SLEEPING /\ p_chan p = C_cons_r))) /\
  (forall pr T addr n, running s pr T -> (pr < NPROC)%nat -> 0 <= addr ->
     let '(l, q', fin) := next_line true n q in
     (forall va, in_range addr (Z.of_nat (length l)) va -> user_ok PTE_W (mem s) T va) ->
     exists m' c', cons_rep c' q' line /\ copied_out (mem s) T (pagetable (procs s !!! pr)) addr l m' /\
       consoleread (Uaddr addr) (Z.of_nat n) s =
         let s1 := set_cons c' (set_mem m' s) in
         if fin then Ok (Z.of_nat (length l)) s1
         else if p_killed (procs s !!! pr) =? 0
         then Block (set_held [L_proc pr] (set_procs (alter (asleep C_cons_r) pr (procs s)) s1))
         else Ok (-1) s1).
Proof.
  intros Hh Hlen C. split.
  - intros tx Hcs x. destruct (uartintr_eval s (q, line) tx Hcs Hh Hlen C) as (o & c' & E & C').
    eexists. split; [exact E|]. split; [done|]. split; [by destruct tx|]. split; [by destruct tx|]. split; [exact C'|].
    intros Hgrew i p. cbn [procs set_procs]. unfold woken, completed. fold x. cbn [fst]. rewrite (proj2 (Nat.ltb_lt _ _) Hgrew).
    destruct tx; apply woken_awake.
  - intros pr T addr n R Hpr Ha. set (s0 := set_held [L_cons] s).
    pose proof (consoleread_loop_spec pr T (Z.of_nat n) line (S (Z.to_nat (Z.of_nat n))) s0 q addr n) as H.
    rewrite Z.eqb_refl in H. destruct (next_line true n q) as [[l q'] fin]. cbn [fst snd] in H. intros Hok.
    destruct H as (m' & c' & C' & K' & E); [by apply running_held|done..|lia|lia|done|].
    exists m', c'. split; [done|]. split; [exact K'|]. unfold consoleread, bind.
    rewrite acquire_eval, Hh by (rewrite Hh; apply not_elem_of_nil). fold s0. rewrite E, Z.sub_diag. unfold read_end.
    assert (Hb : set_held [] (set_cons c' (set_mem m' s0)) = set_cons c' (set_mem m' s)).
    { transitivity (set_held (held s) (set_cons c' (set_mem m' s))); [by rewrite Hh|done]. }
    by rewrite Hb.
Qed.

(** ** An example

    The line "x" is available; "ab", backspace, "c" and return have arrived; the indexes are
    about to wrap around. *)
Definition demo_typing (m : memory) : kstate :=
  set_uart_rx [97; 98; 8; 99; 13]
    (set_cons (mkconsole (10 :: replicate 126 0 ++ [120]) (2 ^ 32 - 1) 1 1) (demo_call m)).
Lemma demo_typing_rep m : cons_rep (cons (demo_typing m)) [120; 10] [].
Proof.
  split; [reflexivity|vm_compute; split; congruence|reflexivity|reflexivity|vm_compute; lia| |apply not_elem_of_nil].
  intros [|[|k]] b Hk; cbn in Hk; [by injection Hk as <-..|]. by destruct k.
Qed.

Lemma console_line_discipline_witness : exists s s1 s2,
  uartintr true s = Ok tt s1 /\ cons_rep (cons s1) [120; 10; 97; 99; 10] [] /\
  consoleread (Uaddr 100) 50 s = Ok 2 s2 /\ cons_rep (cons s2) [] [].
Proof.
  destruct demo_pipe_call as (m & T & C & Hok).
  destruct (console_line_discipline (demo_typing m) [120; 10] []) as [H1 H2].
  - reflexivity.
  - reflexivity.
  - apply demo_typing_rep.
  - destruct (H1 true) as (s1 & E1 & _ & _ & _ & R1 & _); [repeat (apply Forall_cons; split; [lia|]); constructor|].
    destruct (H2 0%nat T 100 50%nat) as (m' & c' & R2 & _ & E2).
    + split; apply C.
    + unfold NPROC. lia.
    + lia.
    + intros va Hva. apply Hok. unfold in_range in Hva. cbn in Hva. unfold PGSIZE. lia.
    + exists (demo_typing m), s1, (set_cons c' (set_mem m' (demo_typing m))).
      split; [exact E1|]. split; [exact R1|]. split; [exact E2|exact R2].
Defined.
