(* ===== verification/Sched.v ===== *)
(** * The schedulers: first-come first-served (kernel/proc.c, the same text as
    kernel/proc_FCFS_backup.c) and round robin (kernel/proc_RR_backup.c)

    One pass of a scheduler ends in [swtch] with the chosen process's lock held; when the
    process switches back, the scheduler clears [c->proc] and releases the lock. *)

From Stdlib Require Import Sorted.
From S2P Require Import Prelude Spinlock State Sync.
Import HeldList.

(** ** What the two schedulers share *)
Definition runnable (p : proc) : bool := bool_decide (state p = RUNNABLE).

(** From choosing process [i] to [swtch]. *)
Definition switch_to (i : nat) : K unit :=
  set_proc i (fun p => {| p with state := RUNNING |});;
  modify (set_cur (Some i)).
(** From the return of [swtch] to the release of the lock. *)
Definition switched_back (i : nat) : K unit :=
  modify (set_cur None);;
  release (L_proc i).

(** ** First-come first-served *)
Definition scheduler_scan : K (option nat) :=
  mfold proc_ids None (fun first_proc i =>
    acquire (L_proc i);;
    p ← get_proc i;
    if runnable p then
      match first_proc with
      | None => ret (Some i)
      | Some f =>
          q ← get_proc f;
          if pid p <? pid q then release (L_proc f);; ret (Some i)
          else release (L_proc i);; ret first_proc
      end
    else release (L_proc i);; ret first_proc).

Definition scheduler : K (option nat) :=
  first_proc ← scheduler_scan;
  match first_proc with
  | Some i => switch_to i;; ret (Some i)
  | None => ret None
  end.

(** With first-come first-served a timer interrupt does not preempt. *)
Definition yield : K unit := ret tt.

(** ** Round robin: one pass over the table, from position [k] on *)
Fixpoint rr_scan (l : list nat) : K (option nat * list nat) :=
  match l with
  | [] => ret (None, [])
  | i :: l' =>
      acquire (L_proc i);;
      p ← get_proc i;
      if runnable p then switch_to i;; ret (Some i, l')
      else release (L_proc i);; rr_scan l'
  end.

Definition rr_yield : K unit :=
  i ← myproc_deref;
  acquire (L_proc i);;
  set_proc i (fun p => {| p with state := RUNNABLE |});;
  sched;;
  release (L_proc i).

(** ** The choice of each, as a function of the process table *)
Definition is_runnable (ps : list proc) (i : nat) : bool := runnable (ps !!! i).

Definition fcfs_better (ps : list proc) (first_proc : option nat) (i : nat) : option nat :=
  if is_runnable ps i then
    match first_proc with
    | None => Some i
    | Some f => if pid (ps !!! i) <? pid (ps !!! f) then Some i else Some f
    end
  else first_proc.
Definition fcfs_pick (ps : list proc) : option nat :=
  fold_left (fcfs_better ps) proc_ids None.

(** The state in which process [i] has been chosen. *)
Definition run_proc (i : nat) (ps : list proc) : list proc :=
  alter (fun p => {| p with state := RUNNING |}) i ps.
Definition dispatched (i : nat) (s : kstate) : kstate :=
  set_held [L_proc i] (set_cur (Some i) (set_procs (run_proc i (procs s)) s)).

Definition held_of (o : option nat) : list lockid :=
  match o with Some i => [L_proc i] | None => [] end.

Lemma scan_step o i s : held s = held_of o -> o <> Some i ->
  (acquire (L_proc i);;
   p ← get_proc i;
   if runnable p then
     match o with
     | None => ret (Some i)
     | Some f =>
         q ← get_proc f;
         if pid p <? pid q then release (L_proc f);; ret (Some i)
         else release (L_proc i);; ret o
     end
   else release (L_proc i);; ret o) s =
  Ok (fcfs_better (procs s) o i) (set_held (held_of (fcfs_better (procs s) o i)) s).
Proof.
  intros Hh Hne. unfold bind at 1. rewrite acquire_eval.
  2: { rewrite Hh. destruct o as [f|]; cbn; [|apply not_elem_of_nil].
       intros [= ->]%list_elem_of_singleton. done. }
  unfold bind at 1, get_proc, gets. cbn [procs set_held]. unfold fcfs_better, is_runnable.
  destruct (runnable (procs s !!! i)).
  - destruct o as [f|]; [|rewrite Hh; done]. unfold bind at 1. cbn [procs set_held].
    destruct (pid (procs s !!! i) <? pid (procs s !!! f)).
    + unfold bind, release, bind, gets, held_release. cbn [held set_held]. rewrite Hh. cbn [held_of].
      rewrite decide_True by set_solver. cbn [remove1].
      rewrite decide_False, decide_True by congruence. done.
    + unfold bind. erewrite release_eval by done. cbn [held_of]. rewrite Hh. done.
  - unfold bind. erewrite release_eval by done. rewrite Hh. done.
Qed.

Lemma fcfs_better_ne ps o i j : o <> Some j -> i <> j -> fcfs_better ps o i <> Some j.
Proof.
  intros H1 H2. unfold fcfs_better. destruct (is_runnable ps i); [|done].
  destruct o; [destruct (_ <? _)|]; congruence.
Qed.

Lemma scheduler_scan_eval s : held s = [] ->
  scheduler_scan s = Ok (fcfs_pick (procs s)) (set_held (held_of (fcfs_pick (procs s))) s).
Proof.
  intros Hh. unfold scheduler_scan, fcfs_pick.
  assert (Hgen : forall l o s', NoDup l -> (forall j, j ∈ l -> o <> Some j) -> held s' = held_of o ->
    mfold l o (fun first_proc i =>
      acquire (L_proc i);;
      p ← get_proc i;
      if runnable p then
        match first_proc with
        | None => ret (Some i)
        | Some f =>
            q ← get_proc f;
            if pid p <? pid q then release (L_proc f);; ret (Some i)
            else release (L_proc i);; ret first_proc
        end
      else release (L_proc i);; ret first_proc) s' =
    Ok (fold_left (fcfs_better (procs s')) l o)
       (set_held (held_of (fold_left (fcfs_better (procs s')) l o)) s')).
  { induction l as [|i l IH]; intros o s' Hnd Ho Hs'; cbn [mfold fold_left].
    - unfold ret. rewrite <-Hs'. done.
    - apply NoDup_cons in Hnd as [Hi Hnd]. unfold bind at 1.
      rewrite scan_step by (done || apply Ho; by left). cbv beta iota.
      rewrite IH; [done|done| |done]. intros j Hj. apply fcfs_better_ne; [apply Ho; by right|congruence]. }
  apply Hgen; [apply NoDup_seq|done|done].
Qed.

Lemma scheduler_eval s : held s = [] ->
  scheduler s = match fcfs_pick (procs s) with
                | Some i => Ok (Some i) (dispatched i s)
                | None => Ok None s
                end.
Proof.
  intros Hh. unfold scheduler, bind at 1. rewrite scheduler_scan_eval by done.
  destruct (fcfs_pick (procs s)) as [i|].
  - done.
  - cbn. unfold ret. rewrite <-Hh. done.
Qed.

(** ** The choice is the runnable process with the least pid *)
Definition fcfs_min (ps : list proc) (l : list nat) (o : option nat) : Prop :=
  match o with
  | Some i => i ∈ l /\ is_runnable ps i = true /\
      forall j, j ∈ l -> is_runnable ps j = true -> pid (ps !!! i) <= pid (ps !!! j)
  | None => forall j, j ∈ l -> is_runnable ps j = false
  end.

Lemma fcfs_min_step ps l o i : fcfs_min ps l o -> fcfs_min ps (l ++ [i]) (fcfs_better ps o i).
Proof.
  unfold fcfs_better. intros H. destruct (is_runnable ps i) eqn:Ei.
  - destruct o as [f|]; cbn in *.
    + destruct H as (Hf & Hr & Hmin). destruct (Z.ltb_spec (pid (ps !!! i)) (pid (ps !!! f))).
      * split; [set_solver|]. split; [done|]. intros j [Hj|Hj]%elem_of_app Hrj.
        { specialize (Hmin j Hj Hrj). lia. }
        { apply list_elem_of_singleton in Hj as ->. lia. }
      * split; [set_solver|]. split; [done|]. intros j [Hj|Hj]%elem_of_app Hrj.
        { by apply Hmin. }
        { apply list_elem_of_singleton in Hj as ->. lia. }
    + split; [set_solver|]. split; [done|]. intros j [Hj|Hj]%elem_of_app Hrj.
      * specialize (H j Hj). congruence.
      * apply list_elem_of_singleton in Hj as ->. lia.
  - destruct o as [f|]; cbn in *.
    + destruct H as (Hf & Hr & Hmin). split; [set_solver|]. split; [done|].
      intros j [Hj|Hj]%elem_of_app Hrj; [by apply Hmin|].
      apply list_elem_of_singleton in Hj as ->. congruence.
    + intros j [Hj|Hj]%elem_of_app; [by apply H|]. by apply list_elem_of_singleton in Hj as ->.
Qed.

Lemma fcfs_pick_min ps : fcfs_min ps proc_ids (fcfs_pick ps).
Proof.
  unfold fcfs_pick. assert (Hgen : forall l d o, fcfs_min ps d o ->
    fcfs_min ps (d ++ l) (fold_left (fcfs_better ps) l o)).
  { induction l as [|i l IH]; intros d o H; cbn [fold_left]; [by rewrite app_nil_r|].
    replace (d ++ i :: l) with ((d ++ [i]) ++ l) by (by rewrite <-app_assoc).
    apply IH. by apply fcfs_min_step. }
  apply (Hgen proc_ids [] None). intros j Hj. by apply not_elem_of_nil in Hj.
Qed.

Lemma elem_of_proc_ids i : i ∈ proc_ids <-> (i < NPROC)%nat.
Proof. unfold proc_ids. rewrite elem_of_seq. lia. Qed.

(** ** Round robin *)
Lemma rr_scan_eval l s : held s = [] -> 
  rr_scan l s =
    match list_find (fun i => is_runnable (procs s) i = true) l with
    | Some (k, i) => Ok (Some i, drop (S k) l) (dispatched i s)
    | None => Ok (None, []) s
    end.
Proof.
  intros Hh. induction l as [|i l IH]; [done|]. cbn [rr_scan list_find].
  unfold bind at 1. rewrite acquire_eval by (rewrite Hh; apply not_elem_of_nil).
  unfold bind at 1, get_proc, gets. cbn [procs set_held].
  destruct (is_runnable (procs s) i) eqn:Er; unfold is_runnable in Er; rewrite Er.
  - rewrite decide_True by done. cbn [drop]. rewrite drop_0. unfold bind, switch_to, bind, set_proc, modify, ret.
    rewrite Hh. done.
  - rewrite decide_False by done. unfold bind. erewrite release_eval by done.
    assert (Es : set_held (held s) (set_held (L_proc i :: held s) s) = s) by done.
    rewrite Es, IH. destruct (list_find _ l) as [[k j]|]; done.
Qed.

(** ** The interface of a scheduling policy *)

(** A policy keeps a cursor between switches; [dispatch] runs up to the next [swtch] or the
    end of a pass over the table. *)
Class SchedPolicy := {
  cursor : Type;
  cursor_ok : cursor -> Prop;
  dispatch : cursor -> K (option nat * cursor) }.

Class SchedLaws (P : SchedPolicy) : Prop := {
  (** It chooses a runnable process and hands it over with only its lock held. *)
  dispatch_sound : forall c s, cursor_ok c -> held s = [] ->
    exists o c', dispatch c s = Ok (o, c') (match o with Some i => dispatched i s | None => s end) /\
      cursor_ok c' /\ (forall i, o = Some i -> (i < NPROC)%nat /\ is_runnable (procs s) i = true);
  (** It does not go idle twice while a process is runnable. *)
  dispatch_live : forall c c' s i, cursor_ok c -> held s = [] -> (i < NPROC)%nat ->
    is_runnable (procs s) i = true -> dispatch c s = Ok (None, c') s ->
    exists j c'', dispatch c' s = Ok (Some j, c'') (dispatched j s) }.

#[export] Instance FCFS : SchedPolicy := {|
  cursor := unit; cursor_ok _ := True;
  dispatch _ := o ← scheduler; ret (o, tt) |}.

#[export] Instance RR : SchedPolicy := {|
  cursor := list nat; cursor_ok l := Forall (fun i => (i < NPROC)%nat) l;
  dispatch l :=
    '(o, l') ← rr_scan l;
    ret (o, match o with Some _ => l' | None => proc_ids end) |}.

Lemma proc_ids_ok : Forall (fun i => (i < NPROC)%nat) proc_ids.
Proof. apply Forall_forall. intros i. apply elem_of_proc_ids. Qed.

#[export] Instance FCFS_laws : SchedLaws FCFS.
Proof.
  split; cbn [FCFS RR dispatch cursor cursor_ok].
  - intros [] s _ Hh. unfold bind. rewrite scheduler_eval by done.
    pose proof (fcfs_pick_min (procs s)) as Hm. destruct (fcfs_pick (procs s)) as [i|].
    + exists (Some i), tt. split; [done|]. split; [done|]. intros ? [= <-].
      destruct Hm as (Hi & Hr & _). split; [by apply elem_of_proc_ids|done].
    + exists None, tt. done.
  - intros [] [] s i _ Hh Hi Hr. unfold bind. rewrite scheduler_eval by done.
    pose proof (fcfs_pick_min (procs s)) as Hm. destruct (fcfs_pick (procs s)) as [j|]; [done|].
    intros _. specialize (Hm i ltac:(by apply elem_of_proc_ids)). congruence.
Qed.

#[export] Instance RR_laws : SchedLaws RR.
Proof.
  split; cbn [FCFS RR dispatch cursor cursor_ok].
  - intros l s Hl Hh. unfold bind. rewrite rr_scan_eval by done.
    destruct (list_find (fun i => is_runnable (procs s) i = true) l) as [[k i]|] eqn:E.
    + apply list_find_Some in E as (Hk & Hr & _). exists (Some i), (drop (S k) l).
      split; [done|]. split; [by apply Forall_drop|]. intros ? [= <-]. split; [|done].
      rewrite Forall_lookup in Hl. by eapply Hl.
    + exists None, proc_ids. split; [done|]. split; [apply proc_ids_ok|done].
  - intros l l' s i Hl Hh Hi Hr. unfold bind. rewrite rr_scan_eval by done.
    destruct (list_find (fun i => is_runnable (procs s) i = true) l) as [[k j]|]; [done|]. intros [= <-]. rewrite rr_scan_eval by done.
    destruct (list_find (fun i => is_runnable (procs s) i = true) proc_ids) as [[k j]|] eqn:E; [by exists j, (drop (S k) proc_ids)|].
    apply list_find_None in E. rewrite Forall_forall in E. exfalso. apply (E i); [|done].
    by apply elem_of_proc_ids.
Qed.

(** ** Scheduling with any policy *)
Section Policy.
Context (P : SchedPolicy) (HP : SchedLaws P).

(** What process [i] did on the CPU: it came back through [sched], so the guards of [sched]
    hold, and it made no other process RUNNING. *)
Record ran (i : nat) (s1 s2 : kstate) : Prop := {
  ran_sched : sched s2 = Block s2;
  ran_cur : cur s2 = Some i;
  ran_len : length (procs s2) = length (procs s1);
  ran_others : forall j, j <> i -> state (procs s2 !!! j) = RUNNING -> state (procs s1 !!! j) = RUNNING }.

(** One turn of the scheduler's loop. *)
Inductive turn : cursor * kstate -> cursor * kstate -> Prop :=
| turn_idle c s c' : dispatch c s = Ok (None, c') s -> turn (c, s) (c', s)
| turn_run c s i c' s1 s2 s3 :
    dispatch c s = Ok (Some i, c') s1 -> ran i s1 s2 -> switched_back i s2 = Ok tt s3 ->
    turn (c, s) (c', s3)
| turn_interrupt c s ch s' : wakeup ch s = Ok tt s' -> turn (c, s) (c, s').

Inductive turns : cursor * kstate -> cursor * kstate -> Prop :=
| turns_refl x : turns x x
| turns_step x y z : turns x y -> turn y z -> turns x z.

(** Between turns no process is RUNNING and the CPU holds no lock. *)
Record between (x : cursor * kstate) : Prop := {
  bt_cursor : cursor_ok x.1;
  bt_held : held x.2 = [];
  bt_cur : cur x.2 = None;
  bt_len : length (procs x.2) = NPROC;
  bt_none : forall j, state (procs x.2 !!! j) <> RUNNING }.

Lemma sched_block s i : sched s = Block s -> cur s = Some i ->
  held s = [L_proc i] /\ state (procs s !!! i) <> RUNNING.
Proof.
  unfold sched, bind. intros H Hc. rewrite (myproc_deref_eval _ i) in H by done.
  unfold holding, gets, panic_if, get_proc, gets in H.
  destruct (bool_decide_reflect (L_proc i ∈ held s)) as [Hin|]; cbn [negb] in H; [|done].
  unfold ret in H. destruct (Nat.eqb_spec (length (held s)) 1) as [Hl|]; cbn [negb] in H; [|done].
  destruct (bool_decide_reflect (state (procs s !!! i) = RUNNING)); [done|]. split; [|done].
  destruct (held s) as [|x [|y l]]; try done. by apply list_elem_of_singleton in Hin as ->.
Qed.

Lemma run_proc_state i ps j : (i < length ps)%nat ->
  state (run_proc i ps !!! j) = if decide (j = i) then RUNNING else state (ps !!! j).
Proof.
  intros Hi. unfold run_proc. case_decide as H.
  - subst. by rewrite list_lookup_total_alter_eq.
  - by rewrite list_lookup_total_alter_ne.
Qed.

Lemma turn_between x y : between x -> turn x y -> between y.
Proof.
  intros [Hk Hh Hc Hl Hn] Ht. destruct Ht as [c s c' E|c s i c' s1 s2 s3 E R B|c s ch s' W]; cbn [fst snd] in *.
  - destruct (dispatch_sound c s Hk Hh) as (o & k & E' & Hk' & _). rewrite E in E'.
    injection E' as <- <- _. by split.
  - destruct (dispatch_sound c s Hk Hh) as (o & k & E' & Hk' & Hi). rewrite E in E'.
    injection E' as <- <- Es. destruct (Hi i eq_refl) as [Hi' _]. subst s1.
    destruct R as [Rs Rc Rl Ro]. destruct (sched_block s2 i Rs Rc) as [Hh2 Hs2].
    unfold switched_back, bind, modify in B. erewrite release_eval in B by (cbn; exact Hh2).
    injection B as <-. split; cbn; try done.
    + rewrite Rl. cbn. unfold run_proc. by rewrite length_alter.
    + intros j Hj. destruct (decide (j = i)) as [->|Hne]; [done|].
      apply (Ro j Hne) in Hj. cbn in Hj. rewrite run_proc_state in Hj by lia.
      rewrite decide_False in Hj by done. by apply (Hn j).
  - rewrite wakeup_eval in W; [|done|intros j _ _; rewrite Hh; apply not_elem_of_nil].
    injection W as <-. split; cbn; try done; [by rewrite length_wake|].
    intros j. destruct (decide (j < length (procs s))%nat) as [Hj|Hj].
    + unfold wake. rewrite lookup_total_imap by done. unfold wake1.
      destruct (bool_decide _); [apply Hn|]. destruct (_ && _); [done|apply Hn].
    + rewrite list_lookup_total_alt, lookup_ge_None_2 by (rewrite length_wake; lia). done.
Qed.

Lemma turns_between x y : between x -> turns x y -> between y.
Proof.
  intros Hx Ht. revert Hx. induction Ht as [|x y z _ IH H]; intros Hx; [done|].
  eapply turn_between; [apply IH, Hx|exact H].
Qed.
End Policy.
Arguments turns {_}.
Arguments between {_}.
Arguments turn {_}.


(** A table for witnesses: pids 3 and 1 are RUNNABLE, pid 2 sleeps. *)
Definition demo_p (st : procstate) (n : Z) : proc :=
  mkproc st C_null 0 0 n None 0 0 0 0 inhabitant [] None [].
Definition sched_demo : kstate :=
  set_procs ([demo_p RUNNABLE 3; demo_p RUNNABLE 1; demo_p SLEEPING 2] ++ replicate 61 inhabitant)
    zero_state.

Lemma sched_demo_not_running j : state (procs sched_demo !!! j) <> RUNNING.
Proof.
  destruct j as [|[|[|j]]]; try done. cbn [procs sched_demo set_procs app].
  change (state (replicate 61 inhabitant !!! j) <> RUNNING).
  rewrite list_lookup_total_alt. destruct (replicate 61 inhabitant !! j) as [p|] eqn:E; [|done].
  by apply lookup_replicate in E as [-> _].
Qed.


(** ** The order of first-come first-served *)
Definition runnable_pids (ps : list proc) : list Z := map pid (List.filter runnable ps).

(** One process runs from being chosen until it exits: it leaves the CPU through [sched] as a
    ZOMBIE (the end of [kexit]), and the scheduler takes over again. *)
Definition exit_and_back (i : nat) : K unit :=
  set_proc i (fun p => {| p with state := ZOMBIE |});;
  fun s => match sched s with Block s' => switched_back i s' | r => r end.

(** The pids in the order in which [n] turns run them to completion. *)
Fixpoint completions (n : nat) : K (list Z) :=
  match n with
  | O => ret []
  | S n' =>
      o ← scheduler;
      match o with
      | None => ret []
      | Some i =>
          p ← get_proc i;
          exit_and_back i;;
          l ← completions n';
          ret (pid p :: l)
      end
  end.

Definition exited (i : nat) (ps : list proc) : list proc :=
  alter (fun p => {| p with state := ZOMBIE |}) i ps.

Lemma exit_and_back_eval i s : held s = [] -> cur s = None -> (i < length (procs s))%nat ->
  exit_and_back i (dispatched i s) = Ok tt (set_procs (exited i (procs s)) s).
Proof.
  intros Hh Hc Hi. unfold exit_and_back, bind, set_proc, modify.
  cbn [procs dispatched set_held set_cur set_procs]. unfold run_proc. rewrite list_alter_alter_eq.
  rewrite (sched_eval _ i); [|done|done|].
  - unfold switched_back, bind, modify. erewrite release_eval by reflexivity.
    unfold dispatched, exited. rewrite <-Hh at 1. rewrite <-Hc at 1.
    f_equal.
  - cbn [procs set_procs]. rewrite list_lookup_total_alter_eq by done. done.
Qed.

(** Taking process [i] out of the runnable ones. *)
Lemma runnable_pids_exited i ps : (i < length ps)%nat -> is_runnable ps i = true ->
  runnable_pids ps ≡ₚ pid (ps !!! i) :: runnable_pids (exited i ps).
Proof.
  intros Hi Hr. destruct (list_elem_of_split_length ps i (ps !!! i)) as (l1 & l2 & E & Hl1).
  { by apply list_lookup_lookup_total_lt. }
  unfold is_runnable in Hr. revert E Hr. generalize (ps !!! i). intros x E Hr. subst ps i.
  unfold exited, runnable_pids. rewrite alter_app_r_alt, Nat.sub_diag by lia. cbn [alter list_alter].
  rewrite !List.filter_app. cbn [List.filter]. rewrite Hr. cbn [runnable bool_decide decide].
  rewrite !map_app. cbn [map]. symmetry. apply Permutation_middle.
Qed.

Lemma runnable_pids_elem v ps : v ∈ runnable_pids ps ->
  exists j, (j < length ps)%nat /\ is_runnable ps j = true /\ pid (ps !!! j) = v.
Proof.
  unfold runnable_pids. intros (p & -> & Hp)%list_elem_of_fmap.
  apply list_elem_of_In, filter_In in Hp as [Hp Hr]. apply list_elem_of_In in Hp.
  apply list_elem_of_lookup in Hp as [j Hj]. exists j. split; [by apply lookup_lt_Some in Hj|].
  unfold is_runnable. by rewrite (list_lookup_total_correct _ _ _ Hj).
Qed.

Lemma completions_sorted n : forall s,
  held s = [] -> cur s = None -> length (procs s) = NPROC -> NoDup (runnable_pids (procs s)) ->
  (length (runnable_pids (procs s)) <= n)%nat ->
  wp (completions n) (fun l s' =>
    StronglySorted Z.lt l /\ l ≡ₚ runnable_pids (procs s) /\ runnable_pids (procs s') = []) s.
Proof.
  induction n as [|n IH]; intros s Hh Hc Hl Hnd Hn.
  - cbn. apply wp_ret. destruct (runnable_pids (procs s)); [|cbn in Hn; lia].
    split; [constructor|done].
  - cbn [completions]. apply wp_bind. unfold wp at 1. rewrite scheduler_eval by done.
    pose proof (fcfs_pick_min (procs s)) as Hm. destruct (fcfs_pick (procs s)) as [i|].
    + destruct Hm as (Hi & Hr & Hmin). apply elem_of_proc_ids in Hi. cbv beta iota.
      unfold get_proc. wp_step. wp_step. apply wp_bind.
      eapply wp_intro; [apply exit_and_back_eval; [done..|lia]|].
      pose proof (runnable_pids_exited i (procs s) ltac:(lia) Hr) as Hperm.
      rewrite Hperm in Hnd. apply NoDup_cons in Hnd as [Hni Hnd].
      apply wp_bind. eapply wp_mono.
      { apply IH; [done|done| |exact Hnd|].
        - cbn. unfold exited. by rewrite length_alter.
        - rewrite Hperm in Hn. cbn [length] in Hn. cbn [procs set_procs]. lia. }
      intros l s' (Hs & Hp & He). apply wp_ret. cbn [procs set_procs dispatched set_held set_cur] in *.
      assert (Hpid : pid (run_proc i (procs s) !!! i) = pid (procs s !!! i)).
      { unfold run_proc. by rewrite list_lookup_total_alter_eq by lia. }
      rewrite Hpid. split; [|split; [by rewrite Hp, Hperm|done]].
      constructor; [done|]. apply List.Forall_forall. intros v Hv%list_elem_of_In.
      assert (Hv' : v ∈ runnable_pids (exited i (procs s))) by (by rewrite <-Hp).
      assert (v ∈ runnable_pids (procs s)) as (j & Hj & Hrj & <-)%runnable_pids_elem
        by (rewrite Hperm; by right).
      specialize (Hmin j ltac:(apply elem_of_proc_ids; lia) Hrj).
      assert (pid (procs s !!! j) <> pid (procs s !!! i)) by (intros E; by rewrite E in Hv'). lia.
    + apply wp_ret. assert (runnable_pids (procs s) = []) as ->; [|split; [constructor|done]].
      destruct (runnable_pids (procs s)) as [|v l] eqn:E; [done|]. exfalso.
      assert (v ∈ runnable_pids (procs s)) as (j & Hj & Hrj & _)%runnable_pids_elem
        by (rewrite E; by left).
      rewrite Hm in Hrj; [done|]. apply elem_of_proc_ids. lia.
Qed.



(** ** The fairness of round robin *)

(** A process runs until the timer interrupts it: it gives up the lock it was handed, calls
    [yield], and the scheduler takes over again. *)
Definition slice_and_back (i : nat) : K unit :=
  fun s => match (release (L_proc i);; rr_yield) s with
           | Block s' => switched_back i s'
           | r => r
           end.

(** A pass over the table from [l] on: the processes that get a time slice, in order. *)
Fixpoint rr_pass (fuel : nat) (l : list nat) : K (list nat) :=
  '(o, l') ← rr_scan l;
  match o, fuel with
  | None, _ => ret []
  | Some _, O => fault "rr_pass: out of fuel"
  | Some i, S fuel' =>
      slice_and_back i;;
      r ← rr_pass fuel' l';
      ret (i :: r)
  end.

Lemma slice_and_back_eval i s : held s = [] -> cur s = None -> (i < length (procs s))%nat ->
  is_runnable (procs s) i = true -> slice_and_back i (dispatched i s) = Ok tt s.
Proof.
  intros Hh Hc Hi Hr. unfold slice_and_back, bind at 1. erewrite release_eval by reflexivity.
  unfold rr_yield, bind at 1. rewrite (myproc_deref_eval _ i) by done.
  unfold bind at 1. rewrite acquire_eval by apply not_elem_of_nil.
  unfold bind at 1, set_proc, modify. cbn [procs dispatched set_held set_cur set_procs].
  unfold run_proc. rewrite list_alter_alter_eq. unfold bind at 1.
  rewrite (sched_eval _ i); [|done|done|].
  - unfold switched_back, bind, modify. erewrite release_eval by reflexivity. f_equal.
    rewrite alter_id.
    + cbn. rewrite <-Hh, <-Hc. done.
    + intros x Hx. unfold is_runnable, runnable in Hr.
      rewrite (list_lookup_total_correct _ _ _ Hx) in Hr. apply bool_decide_eq_true in Hr.
      destruct x; cbn in *. by subst.
  - cbn [procs set_procs]. rewrite list_lookup_total_alter_eq by done. done.
Qed.

Lemma rr_pass_eval s : held s = [] -> cur s = None -> length (procs s) = NPROC ->
  forall n l, (length l <= n)%nat -> Forall (fun i => (i < NPROC)%nat) l ->
  rr_pass n l s = Ok (List.filter (is_runnable (procs s)) l) s.
Proof.
  intros Hh Hc Hl. induction n as [|n IH]; intros l Hn Hok.
  { destruct l; [done|cbn in Hn; lia]. }
  cbn [rr_pass]. unfold bind at 1. rewrite rr_scan_eval by done.
  destruct (list_find (fun i => is_runnable (procs s) i = true) l) as [[k i]|] eqn:E.
  - apply list_find_Some in E as (Hk & Hr & Hbefore). rewrite Forall_lookup in Hok.
    pose proof (Hok _ _ Hk) as Hi. unfold bind at 1.
    rewrite slice_and_back_eval by (done || lia). unfold bind. rewrite IH.
    + unfold ret. f_equal. rewrite <-(take_drop_middle l k i Hk) at 2.
      rewrite List.filter_app. cbn [List.filter]. rewrite Hr.
      assert (List.filter (is_runnable (procs s)) (take k l) = []) as ->; [|done].
      destruct (List.filter _ (take k l)) as [|x r] eqn:Ex; [done|]. exfalso.
      assert (In x (List.filter (is_runnable (procs s)) (take k l))) as [Hx Hrx]%filter_In
        by (rewrite Ex; by left).
      apply list_elem_of_In, list_elem_of_lookup in Hx as [j Hj].
      apply lookup_take_Some in Hj as [Hj Hlt]. by apply (Hbefore j x Hj Hlt).
    + rewrite length_drop. apply lookup_lt_Some in Hk. lia.
    + apply Forall_drop. by apply Forall_lookup.
  - apply list_find_None in E. unfold ret. f_equal.
    destruct (List.filter _ l) as [|x r] eqn:Ex; [done|]. exfalso.
    assert (In x (List.filter (is_runnable (procs s)) l)) as [Hx Hrx]%filter_In
      by (rewrite Ex; by left).
    rewrite Forall_forall in E. apply (E x); [by apply list_elem_of_In|done].
Qed.


