(* ===== verification/Bio.v ===== *)
(** * The buffer cache (kernel/bio.c)

    [bufs] are the buffers and [bcache_lru] the circular list through [head], from the most
    to the least recently used.  The disk driver is used through its contract: a transfer of
    one block between the buffer and the disk, complete when [virtio_disk_rw] returns. *)

From S2P Require Import Prelude Spinlock State Sync.

Definition get_buf (i : nat) : K buf := gets (fun s => bufs s !!! i).
Definition set_buf (i : nat) (f : buf -> buf) : K unit :=
  modify (fun s => set_bufs (alter f i (bufs s)) s).

(** The driver's contract. *)
Definition virtio_disk_rw (i : nat) (write : bool) : K unit :=
  b ← get_buf i;
  if write then
    modify (fun s => set_disk_writes (disk_writes s ++ [(b_blockno b, b_data b)]) s);;
    modify (fun s => set_disk_blocks
      (fun x => if x =? b_blockno b then b_data b else disk_blocks s x) s)
  else
    d ← gets (fun s => disk_blocks s (b_blockno b));
    set_buf i (fun b => {| b with b_data := d |}).

Definition binit : K unit :=
  modify (set_bcache_lru []);;
  mfor (seq 0 NBUF) (fun i =>
    initsleeplock (SL_buf i);;
    modify (fun s => set_bcache_lru (i :: bcache_lru s) s)).

Definition hit (dev blockno : Z) (s : kstate) (i : nat) : bool :=
  (b_dev (bufs s !!! i) =? dev) && (b_blockno (bufs s !!! i) =? blockno).
Definition unused (s : kstate) (i : nat) : bool := refcnt (bufs s !!! i) =? 0.

Definition bget (dev blockno : Z) : K nat :=
  acquire L_bcache;;
  found ← gets (fun s => find (hit dev blockno s) (bcache_lru s));
  match found with
  | Some i =>
      set_buf i (fun b => {| b with refcnt := refcnt b + 1 |});;
      release L_bcache;;
      acquiresleep (SL_buf i);;
      ret i
  | None =>
      lru ← gets (fun s => find (unused s) (reverse (bcache_lru s)));
      match lru with
      | Some i =>
          set_buf i (fun b => {| b with b_dev := dev |});;
          set_buf i (fun b => {| b with b_blockno := blockno |});;
          set_buf i (fun b => {| b with b_valid := 0 |});;
          set_buf i (fun b => {| b with refcnt := 1 |});;
          release L_bcache;;
          acquiresleep (SL_buf i);;
          ret i
      | None => panic "bget: no buffers"
      end
  end.

Definition bread (dev blockno : Z) : K nat :=
  i ← bget dev blockno;
  b ← get_buf i;
  when (b_valid b =? 0)
    (virtio_disk_rw i false;;
     set_buf i (fun b => {| b with b_valid := 1 |}));;
  ret i.

Definition bwrite (i : nat) : K unit :=
  h ← holdingsleep (SL_buf i);
  panic_if (negb h) "bwrite";;
  virtio_disk_rw i true.

(** Unlinking a buffer and linking it again after [head]. *)
Definition move_to_front (i : nat) (l : list nat) : list nat := i :: filter (.≠ i) l.

Definition brelse (i : nat) : K unit :=
  h ← holdingsleep (SL_buf i);
  panic_if (negb h) "brelse";;
  releasesleep (SL_buf i);;
  acquire L_bcache;;
  set_buf i (fun b => {| b with refcnt := refcnt b - 1 |});;
  b ← get_buf i;
  when (refcnt b =? 0)
    (modify (fun s => set_bcache_lru (move_to_front i (bcache_lru s)) s));;
  release L_bcache.

Definition bpin (i : nat) : K unit :=
  acquire L_bcache;;
  set_buf i (fun b => {| b with refcnt := refcnt b + 1 |});;
  release L_bcache.

Definition bunpin (i : nat) : K unit :=
  acquire L_bcache;;
  set_buf i (fun b => {| b with refcnt := refcnt b - 1 |});;
  release L_bcache.

(** ** The invariant and the abstract view *)

(** The buffer that holds block [b], the contents of the block as a process sees it, the
    number of references to it and whether its buffer is locked. *)
Definition cached (s : kstate) (b : Z) : option nat :=
  find (hit ROOTDEV b s) (bcache_lru s).
Definition view (s : kstate) (b : Z) : list Z :=
  match cached s b with
  | Some i => if b_valid (bufs s !!! i) =? 0 then disk_blocks s b else b_data (bufs s !!! i)
  | None => disk_blocks s b
  end.
Definition pins (s : kstate) (b : Z) : Z :=
  match cached s b with Some i => refcnt (bufs s !!! i) | None => 0 end.
Definition locked (s : kstate) (b : Z) : bool :=
  match cached s b with
  | Some i => negb (sl_locked (b_lock (bufs s !!! i)) =? 0)
  | None => false
  end.
(** How many buffers are in use. *)
Definition nused (s : kstate) : nat :=
  length (List.filter (fun b => negb (refcnt b =? 0)) (bufs s)).

(** One buffer per block, counts that are not negative, no lock without a reference, and no
    unreferenced buffer that differs from the disk. *)
Record bio_inv (s : kstate) : Prop := {
  bi_len : length (bufs s) = NBUF;
  bi_lru : bcache_lru s ≡ₚ seq 0 NBUF;
  bi_unique : forall i j, (i < NBUF)%nat -> (j < NBUF)%nat ->
    b_dev (bufs s !!! i) = ROOTDEV -> b_dev (bufs s !!! j) = ROOTDEV ->
    b_blockno (bufs s !!! i) = b_blockno (bufs s !!! j) -> i = j;
  bi_valid : forall i, (i < NBUF)%nat ->
    b_valid (bufs s !!! i) = 0 \/ b_valid (bufs s !!! i) = 1;
  bi_ref : forall i, (i < NBUF)%nat -> 0 <= refcnt (bufs s !!! i);
  bi_lock : forall i, (i < NBUF)%nat ->
    sl_locked (b_lock (bufs s !!! i)) <> 0 -> 0 < refcnt (bufs s !!! i);
  bi_clean : forall i, (i < NBUF)%nat -> b_dev (bufs s !!! i) = ROOTDEV ->
    b_valid (bufs s !!! i) <> 0 -> refcnt (bufs s !!! i) = 0 ->
    b_data (bufs s !!! i) = disk_blocks s (b_blockno (bufs s !!! i)) }.

(** The caller is process [me], holds none of the cache's spin locks, and no other process's
    lock. *)
Record bio_ctx (me : nat) (s : kstate) : Prop := {
  bc_cur : cur s = Some me;
  bc_me : (me < NPROC)%nat;
  bc_procs : length (procs s) = NPROC;
  bc_others : others_unlocked s;
  bc_bcache : L_bcache ∉ held s;
  bc_sl : forall i, L_bufsl i ∉ held s }.

Definition mine (me : nat) (s : kstate) : sleeplock :=
  {| sl_locked := 1; sl_pid := pid (procs s !!! me) |}.

(** Buffer [i] holds block [b], up to date, locked by [me]. *)
Record loaded (me i : nat) (b : Z) (s : kstate) : Prop := {
  ld_lt : (i < NBUF)%nat;
  ld_dev : b_dev (bufs s !!! i) = ROOTDEV;
  ld_blk : b_blockno (bufs s !!! i) = b;
  ld_valid : b_valid (bufs s !!! i) = 1;
  ld_lock : b_lock (bufs s !!! i) = mine me s;
  ld_ref : 0 < refcnt (bufs s !!! i) }.

(** What file-system I/O may change besides the caches and the disk: sleeping processes
    become RUNNABLE, and recovery prints. *)
Definition woken (p p' : proc) : Prop :=
  p' = p \/ (state p = SLEEPING /\ p' = {| p with state := RUNNABLE |}).
Record io_frame (s s' : kstate) : Prop := {
  if_rest : s' = set_procs (procs s') (set_bufs (bufs s') (set_bcache_lru (bcache_lru s')
    (set_disk_blocks (disk_blocks s') (set_disk_writes (disk_writes s')
      (set_output (output s') s)))));
  if_procs : Forall2 woken (procs s) (procs s') }.

(** ** Lemmas *)
Section Cached.
Context (s : kstate) (Hinv : bio_inv s).

Lemma lru_in i : i ∈ bcache_lru s <-> (i < NBUF)%nat.
Proof. rewrite (bi_lru s Hinv). rewrite elem_of_seq. lia. Qed.

Lemma cached_Some b i :
  cached s b = Some i <->
  (i < NBUF)%nat /\ b_dev (bufs s !!! i) = ROOTDEV /\ b_blockno (bufs s !!! i) = b.
Proof.
  unfold cached. split.
  - intros [Hin Hhit]%find_some. apply list_elem_of_In, lru_in in Hin.
    unfold hit in Hhit. apply andb_true_iff in Hhit as [?%Z.eqb_eq ?%Z.eqb_eq]. done.
  - intros (Hi & Hd & Hb). destruct (find _ _) as [j|] eqn:E.
    + apply find_some in E as [Hin Hhit]. apply list_elem_of_In, lru_in in Hin.
      apply andb_true_iff in Hhit as [?%Z.eqb_eq ?%Z.eqb_eq].
      f_equal. apply (bi_unique s Hinv); congruence.
    + eapply find_none in E; [|apply list_elem_of_In, lru_in; exact Hi].
      unfold hit in E. by rewrite Hd, Hb, !Z.eqb_refl in E.
Qed.

Lemma cached_None b : cached s b = None ->
  forall i, (i < NBUF)%nat -> b_dev (bufs s !!! i) = ROOTDEV -> b_blockno (bufs s !!! i) <> b.
Proof.
  intros Hn i Hi Hd Hb. assert (cached s b = Some i) by (by apply cached_Some). congruence.
Qed.

Lemma pins_nonneg b : 0 <= pins s b.
Proof.
  unfold pins. destruct (cached s b) as [i|] eqn:E; [|done].
  apply cached_Some in E as (? & _). by apply bi_ref.
Qed.

(** Unreferenced blocks are as on the disk. *)
Lemma view_unpinned b : pins s b = 0 -> view s b = disk_blocks s b.
Proof.
  unfold pins, view. destruct (cached s b) as [i|] eqn:E; [|done]. intros H0.
  apply cached_Some in E as (? & ? & <-). destruct (Z.eqb_spec (b_valid (bufs s !!! i)) 0); [done|].
  by apply bi_clean.
Qed.
End Cached.

(** *** bread *)
(** The buffer that [bget] chooses and what [bread] leaves in it. *)
Definition pick (s : kstate) (b : Z) : option nat :=
  match cached s b with
  | Some i => Some i
  | None => find (unused s) (reverse (bcache_lru s))
  end.
Definition newbuf (me : nat) (s : kstate) (b : Z) (old : buf) : buf :=
  {| b_valid := 1; b_disk := b_disk old; b_dev := ROOTDEV; b_blockno := b;
     b_lock := mine me s; refcnt := pins s b + 1; b_data := view s b |}.
Definition breaded (me : nat) (s : kstate) (b : Z) (i : nat) : kstate :=
  set_bufs (alter (newbuf me s b) i (bufs s)) s.

Lemma pick_lt s b i : bio_inv s -> pick s b = Some i -> (i < NBUF)%nat.
Proof.
  intros Hinv. unfold pick. destruct (cached s b) as [j|] eqn:E.
  - intros [= <-]. by apply cached_Some in E as [? _].
  - intros [Hin _]%find_some. apply list_elem_of_In in Hin. rewrite elem_of_reverse in Hin.
    by apply lru_in in Hin.
Qed.

Lemma bio_ctx_frame me s s' : bio_ctx me s -> cur s' = cur s -> held s' = held s ->
  length (procs s') = length (procs s) -> bio_ctx me s'.
Proof.
  intros [? ? ? Ho ? ?] Hc Hh Hp. split; try congruence.
  - intros i. rewrite Hc, Hh. apply Ho.
  - intros i. rewrite Hh. done.
Qed.

Lemma acquiresleep_buf me i s : bio_ctx me s -> (i < length (bufs s))%nat ->
  sl_locked (b_lock (bufs s !!! i)) = 0 ->
  acquiresleep (SL_buf i) s =
    Ok tt (set_bufs (alter (fun b => {| b with b_lock := mine me s |}) i (bufs s)) s).
Proof.
  intros Hc Hi H0. rewrite (acquiresleep_eval _ _ me); [done|apply Hc|done| |done].
  apply Hc.
Qed.

(** Two results that differ in the buffers only. *)
Ltac same_bufs s :=
  unfold ret; cbv beta iota;
  match goal with
  | |- Ok ?i (set_bufs ?a _) = Ok ?i (set_bufs ?b _) =>
      change (Ok i (set_bufs a s) = Ok i (set_bufs b s));
      let H := fresh in assert (H : a = b); [|rewrite H; reflexivity]
  end.

Lemma bread_eval me s b i :
  bio_inv s -> bio_ctx me s -> pick s b = Some i -> locked s b = false ->
  bread ROOTDEV b s = Ok i (breaded me s b i).
Proof.
  intros Hinv Hc Hp Hlk. pose proof (pick_lt _ _ _ Hinv Hp) as Hi.
  pose proof (bi_len s Hinv) as Hlen.
  unfold bread, bget, bind. rewrite acquire_eval by apply Hc. unfold gets at 1.
  change (find (hit ROOTDEV b (set_held (L_bcache :: held s) s))
            (bcache_lru (set_held (L_bcache :: held s) s))) with (cached s b).
  unfold pick in Hp. unfold locked in Hlk. unfold breaded, newbuf, view, pins.
  destruct (cached s b) as [j|] eqn:Ec.
  - injection Hp as ->. pose proof Ec as (_ & Hd & Hb)%cached_Some; [|done].
    unfold set_buf, modify at 1. erewrite release_eval by reflexivity.
    rewrite (acquiresleep_buf me); [|by eapply bio_ctx_frame|cbn; rewrite length_alter; lia|];
      cbn [bufs set_bufs set_held]; rewrite ?list_alter_alter_eq.
    2: { rewrite list_lookup_total_alter_eq by lia. cbn.
         by apply negb_false_iff, Z.eqb_eq in Hlk. }
    unfold get_buf, gets, ret, when, virtio_disk_rw, bind, gets, modify.
    cbn [bufs set_bufs set_held b_valid].
    rewrite list_lookup_total_alter_eq by lia. cbn [compose b_valid].
    destruct (bi_valid s Hinv i Hi) as [Hv|Hv]; rewrite Hv; cbn [Z.eqb].
    + unfold get_buf, gets, set_buf, modify. cbn [bufs set_bufs].
      rewrite !list_lookup_total_alter_eq, !list_alter_alter_eq by lia. cbn [compose b_blockno b_valid].
      same_bufs s.
      apply list_alter_ext; [|done]. intros x Hx.
      rewrite (list_lookup_total_correct _ _ _ Hx) in *. unfold compose, mine. cbn.
      destruct x; cbn in *; subst. done.
    + same_bufs s.
      apply list_alter_ext; [|done]. intros x Hx.
      rewrite (list_lookup_total_correct _ _ _ Hx) in *. unfold compose, mine. cbn.
      destruct x; cbn in *; subst. done.
  - unfold gets at 1.
    change (find (unused (set_held (L_bcache :: held s) s))
      (reverse (bcache_lru (set_held (L_bcache :: held s) s))))
      with (find (unused s) (reverse (bcache_lru s))).
    rewrite Hp. unfold set_buf, modify at 1 2 3 4. erewrite release_eval by reflexivity.
    apply find_some in Hp as [_ Hu%Z.eqb_eq].
    rewrite (acquiresleep_buf me); [|by eapply bio_ctx_frame|cbn; rewrite !length_alter; lia|];
      cbn [bufs set_bufs set_held]; rewrite ?list_alter_alter_eq.
    2: { rewrite list_lookup_total_alter_eq by lia. cbn.
         destruct (decide (sl_locked (b_lock (bufs s !!! i)) = 0)) as [|Hne]; [done|].
         apply bi_lock in Hne; [lia|done..]. }
    unfold get_buf, gets, ret, when, virtio_disk_rw, bind, gets, modify.
    cbn [bufs set_bufs set_held b_valid].
    rewrite list_lookup_total_alter_eq by lia. cbn [compose b_valid Z.eqb].
    unfold get_buf, gets, set_buf, modify. cbn [bufs set_bufs].
    rewrite !list_lookup_total_alter_eq, !list_alter_alter_eq by lia. cbn [compose b_blockno b_valid].
    same_bufs s. apply list_alter_ext; [|done]. intros x Hx. done.
Qed.

(** *** Changing one buffer *)
Section Replace.
Context (s : kstate) (i : nat) (f : buf -> buf) (Hlen : length (bufs s) = NBUF) (Hi : (i < NBUF)%nat).
Let s' := set_bufs (alter f i (bufs s)) s.

Lemma lookup_replaced j : bufs s' !!! j = if decide (j = i) then f (bufs s !!! i) else bufs s !!! j.
Proof.
  unfold s'. cbn [bufs set_bufs]. destruct (decide (j = i)) as [->|].
  - rewrite list_lookup_total_alter_eq by lia. done.
  - by rewrite list_lookup_total_alter_ne by done.
Qed.

Lemma nused_replaced :
  (Z.of_nat (nused s') = Z.of_nat (nused s) +
    (if refcnt (f (bufs s !!! i)) =? 0 then 0 else 1) - (if refcnt (bufs s !!! i)%Z =? 0 then 0 else 1))%Z.
Proof.
  unfold nused, s'. cbn [bufs set_bufs].
  destruct (list_elem_of_split_length (bufs s) i (bufs s !!! i)) as (l1 & l2 & E & Hl1).
  { apply list_lookup_lookup_total_lt. lia. }
  remember (bufs s !!! i) as x eqn:Hx. clear Hx. rewrite E. subst i.
  rewrite alter_app_r_alt, Nat.sub_diag by lia. cbn [alter list_alter].
  rewrite !List.filter_app, !length_app. cbn [List.filter].
  destruct (refcnt (f x) =? 0), (refcnt x =? 0); cbn [negb length]; lia.
Qed.
End Replace.

Section Bread.
Context (me : nat) (s : kstate) (b : Z) (i : nat).
Context (Hinv : bio_inv s) (Hc : bio_ctx me s) (Hp : pick s b = Some i).
Let s' := breaded me s b i.

Let Hi : (i < NBUF)%nat.
Proof. by eapply pick_lt. Qed.
Let Hlen : length (bufs s) = NBUF.
Proof. apply Hinv. Qed.

Lemma breaded_lookup j :
  bufs s' !!! j = if decide (j = i) then newbuf me s b (bufs s !!! i) else bufs s !!! j.
Proof. by apply lookup_replaced. Qed.

(** The buffer chosen holds the block already, or is unreferenced. *)
Lemma pick_cases :
  (cached s b = Some i) \/ (cached s b = None /\ refcnt (bufs s !!! i) = 0).
Proof.
  unfold pick in Hp. destruct (cached s b); [left; congruence|right].
  apply find_some in Hp as [_ ?%Z.eqb_eq]. done.
Qed.

(** No other buffer holds the block. *)
Lemma pick_other j : (j < NBUF)%nat -> j <> i -> b_dev (bufs s !!! j) = ROOTDEV ->
  b_blockno (bufs s !!! j) <> b.
Proof.
  intros Hj Hne Hd Hb. assert (cached s b = Some j) by (by apply cached_Some).
  destruct pick_cases as [|[? _]]; congruence.
Qed.

Lemma breaded_inv : bio_inv s'.
Proof.
  split.
  - unfold s', breaded. cbn. rewrite length_alter. done.
  - apply Hinv.
  - intros j k Hj Hk. rewrite !breaded_lookup.
    destruct (decide (j = i)), (decide (k = i)); subst; cbn; try done.
    + intros _ ? Hb. by destruct (pick_other k Hk).
    + intros ? _ Hb. by destruct (pick_other j Hj).
    + by apply Hinv.
  - intros j Hj. rewrite breaded_lookup. destruct (decide _); [by right|by apply Hinv].
  - intros j Hj. rewrite breaded_lookup. destruct (decide _); [|by apply Hinv]. cbn.
    pose proof (pins_nonneg s Hinv b). lia.
  - intros j Hj. rewrite breaded_lookup. destruct (decide _); [|by apply Hinv]. cbn.
    pose proof (pins_nonneg s Hinv b). lia.
  - intros j Hj. rewrite breaded_lookup. destruct (decide _); [|by apply Hinv]. cbn.
    pose proof (pins_nonneg s Hinv b). lia.
Qed.

Lemma breaded_loaded : loaded me i b s'.
Proof.
  split; [done|..]; rewrite breaded_lookup, decide_True by done; cbn; try done.
  pose proof (pins_nonneg s Hinv b). lia.
Qed.

Lemma breaded_data : b_data (bufs s' !!! i) = view s b.
Proof. by rewrite breaded_lookup, decide_True by done. Qed.

Lemma breaded_cached x : x <> b ->
  cached s' x = match cached s x with
                | Some j => if decide (j = i) then None else Some j
                | None => None
                end.
Proof.
  intros Hne. destruct (cached s' x) as [j|] eqn:E'.
  - apply (cached_Some s' breaded_inv) in E' as (Hj & Hd & Hb). rewrite breaded_lookup in Hd, Hb.
    destruct (decide (j = i)); [cbn in Hb; congruence|].
    assert (cached s x = Some j) as -> by (by apply cached_Some). by rewrite decide_False.
  - destruct (cached s x) as [j|] eqn:E; [|done]. destruct (decide (j = i)); [done|].
    apply (cached_Some s Hinv) in E as (Hj & Hd & Hb).
    eapply (cached_None s' breaded_inv) in E'; [|exact Hj|]; rewrite breaded_lookup, decide_False in * by done; done.
Qed.

Lemma breaded_cached_eq : cached s' b = Some i.
Proof. apply cached_Some; [apply breaded_inv|]. destruct breaded_loaded. done. Qed.

Lemma breaded_view x : view s' x = view s x.
Proof.
  destruct (decide (x = b)) as [->|Hne]; unfold view at 1.
  { rewrite breaded_cached_eq. destruct breaded_loaded as [? ? ? -> ? ?]. apply breaded_data. }
  rewrite breaded_cached by done. destruct (cached s x) as [j|] eqn:E; [|by unfold view; rewrite E].
  destruct (decide (j = i)) as [->|Hji]; [|unfold view; rewrite E].
  - symmetry. apply (view_unpinned s Hinv). unfold pins. rewrite E.
    destruct pick_cases as [Ec|[_ H0]]; [|done].
    apply cached_Some in Ec, E; [|done..]. destruct Ec as (_ & _ & ?), E as (_ & _ & ?). congruence.
  - rewrite breaded_lookup, decide_False by done. done.
Qed.

Lemma breaded_pins x : pins s' x = pins s x + (if decide (x = b) then 1 else 0).
Proof.
  destruct (decide (x = b)) as [->|Hne]; unfold pins at 1.
  { rewrite breaded_cached_eq, breaded_lookup, decide_True by done. done. }
  rewrite breaded_cached by done. unfold pins. destruct (cached s x) as [j|] eqn:E; [|done].
  destruct (decide (j = i)) as [->|Hji].
  - destruct pick_cases as [Ec|[_ H0]]; [|lia].
    apply cached_Some in Ec, E; [|done..]. destruct Ec as (_ & _ & ?), E as (_ & _ & ?). congruence.
  - rewrite breaded_lookup, decide_False by done. lia.
Qed.

Lemma breaded_locked x : locked s' x = (if decide (x = b) then true else locked s x).
Proof.
  destruct (decide (x = b)) as [->|Hne]; unfold locked at 1.
  { rewrite breaded_cached_eq, breaded_lookup, decide_True by done. done. }
  rewrite breaded_cached by done. unfold locked. destruct (cached s x) as [j|] eqn:E; [|done].
  destruct (decide (j = i)) as [->|Hji].
  - destruct pick_cases as [Ec|[_ H0]].
    + apply cached_Some in Ec, E; [|done..]. destruct Ec as (_ & _ & ?), E as (_ & _ & ?). congruence.
    + symmetry. apply negb_false_iff, Z.eqb_eq.
      destruct (decide (sl_locked (b_lock (bufs s !!! i)) = 0)) as [|Hl]; [done|].
      apply bi_lock in Hl; [lia|done..].
  - rewrite breaded_lookup, decide_False by done. done.
Qed.

Lemma breaded_nused : nused s' = (nused s + (if decide (pins s b = 0%Z) then 1 else 0))%nat.
Proof.
  pose proof (nused_replaced s i (newbuf me s b) Hlen Hi) as H. fold s' in H.
  change (set_bufs _ s) with s' in H. cbn [newbuf refcnt] in H.
  pose proof (pins_nonneg s Hinv b). destruct (Z.eqb_spec (pins s b + 1) 0); [lia|].
  assert (pins s b = refcnt (bufs s !!! i)) as Hr.
  { unfold pins. destruct pick_cases as [->|[-> ?]]; done. }
  destruct (decide (pins s b = 0)), (Z.eqb_spec (refcnt (bufs s !!! i)) 0); lia.
Qed.
End Bread.

(** An unused buffer exists while fewer than [NBUF] are in use. *)
Lemma nused_find s : bio_inv s -> (nused s < NBUF)%nat ->
  is_Some (find (unused s) (reverse (bcache_lru s))).
Proof.
  intros Hinv Hn. destruct (find _ _) eqn:E; [done|]. exfalso.
  assert (Hall : forall j, (j < NBUF)%nat -> refcnt (bufs s !!! j) <> 0).
  { intros j Hj H0. eapply find_none in E; [|apply list_elem_of_In; rewrite elem_of_reverse, lru_in; eauto].
    unfold unused in E. by rewrite H0 in E. }
  rewrite <-(bi_len s Hinv) in Hn, Hall. unfold nused in Hn. revert Hn Hall. generalize (bufs s).
  intros l Hn Hall. assert (List.filter (fun b => negb (refcnt b =? 0)) l = l) as Hf; [|rewrite Hf in Hn; lia].
  clear Hn. induction l as [|x l IH]; [done|]. cbn [List.filter].
  pose proof (Hall 0%nat ltac:(cbn; lia)) as H0. cbn in H0.
  destruct (Z.eqb_spec (refcnt x) 0); [done|]. cbn [negb]. rewrite IH; [done|].
  intros j Hj. apply (Hall (S j)). cbn. lia.
Qed.

Lemma pick_avail s b : bio_inv s -> pins s b <> 0 \/ (nused s < NBUF)%nat -> is_Some (pick s b).
Proof.
  intros Hinv H. unfold pick. destruct (cached s b) eqn:E; [done|]. destruct H as [H|H].
  - unfold pins in H. by rewrite E in H.
  - by apply nused_find.
Qed.

(** What [bread] promises to the log and the file system. *)
Record got (me : nat) (s : kstate) (b : Z) (i : nat) (s' : kstate) : Prop := {
  got_inv : bio_inv s';
  got_ctx : bio_ctx me s';
  got_loaded : loaded me i b s';
  got_data : b_data (bufs s' !!! i) = view s b;
  got_frame : s' = set_bufs (bufs s') s;
  got_view : forall x, view s' x = view s x;
  got_pins : forall x, pins s' x = pins s x + (if decide (x = b) then 1 else 0);
  got_locked : forall x, locked s' x = (if decide (x = b) then true else locked s x);
  got_nused : nused s' = (nused s + (if decide (pins s b = 0%Z) then 1 else 0))%nat;
  got_other : forall j, j <> i -> bufs s' !!! j = bufs s !!! j;
  got_fresh : forall j x, loaded me j x s -> x <> b -> j <> i }.

Lemma bread_spec me s b :
  bio_inv s -> bio_ctx me s -> locked s b = false -> pins s b <> 0 \/ (nused s < NBUF)%nat ->
  wp (bread ROOTDEV b) (got me s b) s.
Proof.
  intros Hinv Hc Hl Hav. destruct (pick_avail s b Hinv Hav) as [i Hp].
  eapply wp_intro; [by apply bread_eval|]. split.
  - by apply breaded_inv.
  - by eapply bio_ctx_frame.
  - by apply breaded_loaded.
  - by apply breaded_data.
  - done.
  - intros x. by apply breaded_view.
  - intros x. by apply breaded_pins.
  - intros x. by apply breaded_locked.
  - by apply breaded_nused.
  - intros j Hj. rewrite breaded_lookup by done. by rewrite decide_False.
  - intros j x Hj Hne ->. destruct (pick_cases s b i Hp) as [E|[_ E]].
    + apply cached_Some in E as (_ & _ & E); [|done]. destruct Hj. congruence.
    + destruct Hj. lia.
Qed.

(** *** Operations on a buffer that is held *)
Lemma loaded_cached me i b s : bio_inv s -> loaded me i b s -> cached s b = Some i.
Proof. intros ? []. by apply cached_Some. Qed.

Lemma loaded_view me i b s : bio_inv s -> loaded me i b s -> view s b = b_data (bufs s !!! i).
Proof.
  intros Hinv Hl. unfold view. rewrite (loaded_cached me i) by done. by destruct Hl as [? ? ? -> ? ?].
Qed.
Lemma loaded_pins me i b s : bio_inv s -> loaded me i b s -> pins s b = refcnt (bufs s !!! i).
Proof. intros Hinv Hl. unfold pins. by rewrite (loaded_cached me i). Qed.
Lemma loaded_locked me i b s : bio_inv s -> loaded me i b s -> locked s b = true.
Proof.
  intros Hinv Hl. unfold locked. rewrite (loaded_cached me i) by done.
  by destruct Hl as [? ? ? ? -> ?].
Qed.

(** A held buffer stays so while its contents, its process's pid and the block do. *)
Lemma loaded_frame me i b s s' : loaded me i b s -> bufs s' !!! i = bufs s !!! i ->
  pid (procs s' !!! me) = pid (procs s !!! me) -> loaded me i b s'.
Proof.
  intros [? ? ? ? Hl ?] Hb Hp. split; rewrite ?Hb; try done. rewrite Hl. unfold mine. by rewrite Hp.
Qed.

Lemma holding_loaded me i b s : bio_ctx me s -> loaded me i b s ->
  holdingsleep (SL_buf i) s = Ok true s.
Proof.
  intros Hc [? ? ? ? Hl ?]. rewrite (holdingsleep_eval _ _ me); [|apply Hc..].
  cbn [sl_get]. rewrite Hl. cbn. by rewrite Z.eqb_refl.
Qed.

(** Replacing fields other than the block, the lock and the validity of a held buffer. *)
Section Update.
Context (me i : nat) (b : Z) (s : kstate) (f : buf -> buf).
Context (Hinv : bio_inv s) (Hl : loaded me i b s).
Context (Hdev : b_dev (f (bufs s !!! i)) = ROOTDEV) (Hblk : b_blockno (f (bufs s !!! i)) = b)
        (Hval : b_valid (f (bufs s !!! i)) = 1).
Let s' := set_bufs (alter f i (bufs s)) s.

Lemma updated_lookup j :
  bufs s' !!! j = if decide (j = i) then f (bufs s !!! i) else bufs s !!! j.
Proof. apply lookup_replaced; [apply Hinv|apply Hl]. Qed.

Lemma updated_inv :
  (0 < refcnt (f (bufs s !!! i)) \/
   (refcnt (f (bufs s !!! i)) = 0 /\ b_data (f (bufs s !!! i)) = disk_blocks s b /\
    sl_locked (b_lock (f (bufs s !!! i))) = 0)) -> bio_inv s'.
Proof.
  destruct Hl as [Hi Hd Hb Hv _ _]. intros Hr. split.
  - unfold s'. cbn. rewrite length_alter. apply Hinv.
  - apply Hinv.
  - intros j k Hj Hk. rewrite !updated_lookup.
    destruct (decide (j = i)), (decide (k = i)); subst j k || subst j || subst k || idtac; try done.
    + rewrite Hdev, Hblk. intros _ Hdk Hbk. apply (bi_unique s Hinv); congruence.
    + rewrite Hdev, Hblk. intros Hdk _ Hbk. apply (bi_unique s Hinv); congruence.
    + by apply Hinv.
  - intros j Hj. rewrite updated_lookup. destruct (decide _); [by right|by apply Hinv].
  - intros j Hj. rewrite updated_lookup. destruct (decide _); [lia|by apply Hinv].
  - intros j Hj. rewrite updated_lookup. destruct (decide _); [|by apply Hinv].
    destruct Hr as [|(_ & _ & ?)]; [done|lia].
  - intros j Hj. rewrite updated_lookup. destruct (decide _); [|by apply Hinv].
    rewrite Hblk. intros _ _ H0. destruct Hr as [|(_ & ? & _)]; [lia|done].
Qed.

Lemma updated_cached x : cached s' x = cached s x.
Proof.
  destruct Hl as [Hi Hd Hb Hv _ _]. unfold cached.
  change (bcache_lru s') with (bcache_lru s). induction (bcache_lru s) as [|j l IH]; [done|].
  cbn [find]. rewrite IH. assert (hit ROOTDEV x s' j = hit ROOTDEV x s j) as ->; [|done].
  unfold hit. rewrite updated_lookup. destruct (decide (j = i)) as [->|]; [|done].
  by rewrite Hdev, Hblk, Hd, Hb.
Qed.

Lemma updated_view x :
  view s' x = if decide (x = b) then b_data (f (bufs s !!! i)) else view s x.
Proof.
  unfold view. rewrite updated_cached. destruct (decide (x = b)) as [->|Hne].
  - rewrite (loaded_cached me i) by done. rewrite updated_lookup, decide_True by done.
    by rewrite Hval.
  - destruct (cached s x) as [j|] eqn:E; [|done]. rewrite updated_lookup.
    destruct (decide (j = i)) as [->|]; [|done].
    apply cached_Some in E as (_ & _ & E); [|done]. by destruct Hl; subst.
Qed.

Lemma updated_pins x : pins s' x = if decide (x = b) then refcnt (f (bufs s !!! i)) else pins s x.
Proof.
  unfold pins. rewrite updated_cached. destruct (decide (x = b)) as [->|Hne].
  - rewrite (loaded_cached me i) by done. by rewrite updated_lookup, decide_True by done.
  - destruct (cached s x) as [j|] eqn:E; [|done]. rewrite updated_lookup.
    destruct (decide (j = i)) as [->|]; [|done].
    apply cached_Some in E as (_ & _ & E); [|done]. by destruct Hl; subst.
Qed.

Lemma updated_locked x :
  locked s' x = if decide (x = b) then negb (sl_locked (b_lock (f (bufs s !!! i))) =? 0) else locked s x.
Proof.
  unfold locked. rewrite updated_cached. destruct (decide (x = b)) as [->|Hne].
  - rewrite (loaded_cached me i) by done. by rewrite updated_lookup, decide_True by done.
  - destruct (cached s x) as [j|] eqn:E; [|done]. rewrite updated_lookup.
    destruct (decide (j = i)) as [->|]; [|done].
    apply cached_Some in E as (_ & _ & E); [|done]. by destruct Hl; subst.
Qed.

Lemma updated_nused :
  Z.of_nat (nused s') = Z.of_nat (nused s) - (if refcnt (f (bufs s !!! i)) =? 0 then 1 else 0).
Proof.
  unfold s'. rewrite (nused_replaced s i f); [|apply Hinv|apply Hl].
  destruct Hl as [_ _ _ _ _ Hr]. destruct (Z.eqb_spec (refcnt (bufs s !!! i)) 0); [lia|].
  destruct (_ =? 0); lia.
Qed.
End Update.

(** *** Changing the contents, writing to the disk *)
Definition set_data (i : nat) (d : list Z) : K unit :=
  set_buf i (fun b => {| b with b_data := d |}).

(** After an operation on held buffer [i] of block [b]: contents [v], [dp] more references. *)
Record edited (me i : nat) (b : Z) (v : list Z) (dp : Z) (s s' : kstate) : Prop := {
  ed_inv : bio_inv s';
  ed_ctx : bio_ctx me s';
  ed_loaded : loaded me i b s';
  ed_view : forall x, view s' x = if decide (x = b) then v else view s x;
  ed_pins : forall x, pins s' x = pins s x + (if decide (x = b) then dp else 0);
  ed_locked : forall x, locked s' x = locked s x;
  ed_nused : nused s' = nused s;
  ed_other : forall j, j <> i -> bufs s' !!! j = bufs s !!! j }.

Lemma edited_field me i b s f v dp :
  bio_inv s -> bio_ctx me s -> loaded me i b s ->
  (forall o, o = bufs s !!! i -> f o = {| o with b_data := v; refcnt := refcnt o + dp |}) ->
  0 < refcnt (bufs s !!! i) + dp ->
  edited me i b v dp s (set_bufs (alter f i (bufs s)) s).
Proof.
  intros Hinv Hc Hl Hf Hr. specialize (Hf _ eq_refl).
  assert (Hd : b_dev (f (bufs s !!! i)) = ROOTDEV) by (rewrite Hf; apply Hl).
  assert (Hb : b_blockno (f (bufs s !!! i)) = b) by (rewrite Hf; apply Hl).
  assert (Hv : b_valid (f (bufs s !!! i)) = 1) by (rewrite Hf; apply Hl).
  split.
  - eapply updated_inv; try done. rewrite Hf. cbn. left. lia.
  - by eapply bio_ctx_frame.
  - pose proof (updated_lookup me i b s f Hinv Hl i) as E. rewrite decide_True, Hf in E by done.
    destruct Hl. split; rewrite ?E; done.
  - intros x. erewrite updated_view by done. by rewrite Hf.
  - intros x. erewrite updated_pins by done. rewrite Hf. cbn.
    destruct (decide (x = b)) as [->|]; [|lia]. by rewrite (loaded_pins me i) by done.
  - intros x. erewrite updated_locked by done. rewrite Hf. cbn.
    destruct (decide (x = b)) as [->|]; [|done]. rewrite (loaded_locked me i) by done.
    by destruct Hl as [? ? ? ? -> ?].
  - pose proof (updated_nused me i b s f Hinv Hl) as E. rewrite Hf in E. cbn [refcnt] in E.
    destruct (Z.eqb_spec (refcnt (bufs s !!! i) + dp) 0); lia.
  - intros j Hj. by rewrite (updated_lookup me i b s f Hinv Hl), decide_False.
Qed.

Lemma set_data_spec me i b d s :
  bio_inv s -> bio_ctx me s -> loaded me i b s ->
  wp (set_data i d) (fun _ s' => edited me i b d 0 s s' /\ s' = set_bufs (bufs s') s) s.
Proof.
  intros Hinv Hc Hl. apply wp_modify. split; [|done]. apply edited_field; try done.
  - intros o ->. by rewrite Z.add_0_r.
  - destruct Hl. lia.
Qed.

Definition bwritten (b : Z) (d : list Z) (s : kstate) : kstate :=
  set_disk_blocks (fun x => if x =? b then d else disk_blocks s x)
    (set_disk_writes (disk_writes s ++ [(b, d)]) s).

Lemma bwrite_eval me i b s : bio_ctx me s -> loaded me i b s ->
  bwrite i s = Ok tt (bwritten b (b_data (bufs s !!! i)) s).
Proof.
  intros Hc Hl. unfold bwrite, bind. rewrite (holding_loaded me i b) by done.
  unfold panic_if, ret, virtio_disk_rw, get_buf, bind, gets, modify. cbn [negb].
  destruct Hl as [_ _ <- _ _ _]. done.
Qed.

Lemma bwrite_spec me i b s :
  bio_inv s -> bio_ctx me s -> loaded me i b s ->
  wp (bwrite i) (fun _ s' => edited me i b (view s b) 0 s s' /\ s' = bwritten b (view s b) s) s.
Proof.
  intros Hinv Hc Hl. eapply wp_intro; [by eapply bwrite_eval|].
  rewrite <-(loaded_view me i b s) by done. split; [|done].
  assert (Hca : forall x, cached (bwritten b (view s b) s) x = cached s x) by done.
  split.
  - split; try apply Hinv. intros j Hj Hd Hv H0. cbn in *.
    destruct (Z.eqb_spec (b_blockno (bufs s !!! j)) b) as [E|E]; [|by apply Hinv].
    assert (j = i) as -> by (apply (bi_unique s Hinv); destruct Hl; congruence).
    destruct Hl. lia.
  - by eapply bio_ctx_frame.
  - by eapply loaded_frame.
  - intros x. unfold view at 1. rewrite Hca. cbn. destruct (decide (x = b)) as [->|Hne].
    + unfold view. rewrite (loaded_cached me i) by done. destruct Hl as [? ? ? -> ? ?]. done.
    + destruct (Z.eqb_spec x b); [done|]. by unfold view.
  - intros x. change (pins (bwritten b (view s b) s) x) with (pins s x). destruct (decide (x = b)); lia.
  - done.
  - done.
  - done.
Qed.

(** *** References without the lock *)
Lemma bpin_spec me i b s :
  bio_inv s -> bio_ctx me s -> loaded me i b s ->
  wp (bpin i) (fun _ s' => edited me i b (view s b) 1 s s' /\ s' = set_bufs (bufs s') s) s.
Proof.
  intros Hinv Hc Hl. unfold bpin. apply wp_bind, wp_acquire; [apply Hc|]. wp_steps.
  eapply wp_release; [done|]. split; [|done].
  apply (edited_field me i b s (fun b => {| b with refcnt := refcnt b + 1 |})); try done.
  - intros o ->. rewrite (loaded_view me i) by done. done.
  - destruct Hl. lia.
Qed.

Lemma bunpin_spec me i b s :
  bio_inv s -> bio_ctx me s -> loaded me i b s -> 1 < pins s b ->
  wp (bunpin i) (fun _ s' => edited me i b (view s b) (-1) s s' /\ s' = set_bufs (bufs s') s) s.
Proof.
  intros Hinv Hc Hl Hp. unfold bunpin. apply wp_bind, wp_acquire; [apply Hc|]. wp_steps.
  eapply wp_release; [done|]. split; [|done].
  apply (edited_field me i b s (fun b => {| b with refcnt := refcnt b - 1 |})); try done.
  - intros o ->. rewrite (loaded_view me i) by done. done.
  - rewrite <-(loaded_pins me i b) by done. lia.
Qed.

(** *** brelse *)
Definition relbuf (o : buf) : buf :=
  {| o with b_lock := {| sl_locked := 0; sl_pid := 0 |}; refcnt := refcnt o - 1 |}.
Definition brelsed (i : nat) (s : kstate) : kstate :=
  set_bcache_lru (if refcnt (bufs s !!! i) - 1 =? 0 then move_to_front i (bcache_lru s)
                  else bcache_lru s)
    (set_procs (wake (C_bufsl i) (cur s) (procs s)) (set_bufs (alter relbuf i (bufs s)) s)).

Lemma brelse_eval me i b s : bio_inv s -> bio_ctx me s -> loaded me i b s ->
  brelse i s = Ok tt (brelsed i s).
Proof.
  intros Hinv Hc Hl. unfold brelse, bind. rewrite (holding_loaded me i b) by done.
  unfold panic_if, ret. cbn [negb].
  pose proof (bi_len s Hinv) as Hlen. destruct Hl as [Hi _ _ _ _ _].
  rewrite releasesleep_eval by (first [apply Hc | cbn; lia]).
  cbn [sl_chan sl_set]. rewrite acquire_eval by apply Hc.
  unfold set_buf, modify, get_buf, gets, when.
  cbn [bufs set_procs set_bufs set_held]. rewrite list_alter_alter_eq.
  rewrite list_lookup_total_alter_eq by lia. cbn [compose refcnt].
  unfold brelsed. destruct (refcnt (bufs s !!! i) - 1 =? 0); cbn [bcache_lru set_bufs set_held set_procs].
  - by erewrite release_eval.
  - unfold ret. by erewrite release_eval.
Qed.

Lemma move_to_front_perm i l : NoDup l -> i ∈ l -> move_to_front i l ≡ₚ l.
Proof.
  intros Hnd Hi. unfold move_to_front. apply list_elem_of_split in Hi as (l1 & l2 & ->).
  apply NoDup_app in Hnd as (H1 & H2 & H3). apply NoDup_cons in H3 as [H3 H4].
  assert (Hid : forall l : list nat, i ∉ l -> filter (fun x : nat => x <> i) l = l).
  { induction l as [|x l IH]; [done|]. intros [? ?]%not_elem_of_cons.
    rewrite filter_cons_True by done. by rewrite IH. }
  rewrite filter_app, filter_cons_False by (intros H; by apply H).
  rewrite !Hid; [by rewrite Permutation_middle|done|]. intros H. apply (H2 i H). by left.
Qed.

Lemma woken_wake c me l : Forall2 woken l (wake c me l).
Proof.
  apply Forall2_same_length_lookup. rewrite length_wake. split; [done|].
  intros i x y Hx Hy. unfold wake in Hy. rewrite list_lookup_imap, Hx in Hy. injection Hy as <-.
  unfold wake1. destruct (bool_decide _); [by left|].
  destruct (bool_decide (state x = SLEEPING)) eqn:E; cbn [andb]; [|by left].
  apply bool_decide_eq_true in E. destruct (bool_decide _); [right|left]; done.
Qed.

Lemma woken_pid l l' i : Forall2 woken l l' -> pid (l' !!! i) = pid (l !!! i).
Proof.
  intros HF. rewrite !list_lookup_total_alt.
  pose proof (proj1 (Forall2_lookup woken l l') HF i) as H.
  destruct H as [x y [->|[_ ->]]|]; done.
Qed.

(** The order of the list and the processes do not matter to the cached blocks. *)
Section Reorder.
Context (s : kstate) (l : list nat) (ps : list proc) (Hinv : bio_inv s) (Hl : l ≡ₚ bcache_lru s).
Let s' := set_bcache_lru l (set_procs ps s).

Lemma reorder_inv : bio_inv s'.
Proof. split; try apply Hinv. unfold s'. cbn. rewrite Hl. apply Hinv. Qed.

Lemma reorder_cached x : cached s' x = cached s x.
Proof.
  destruct (cached s x) as [i|] eqn:E.
  - apply (cached_Some s' reorder_inv). by apply (cached_Some s Hinv) in E.
  - destruct (cached s' x) as [i|] eqn:E'; [|done].
    apply (cached_Some s' reorder_inv), (cached_Some s Hinv) in E'. congruence.
Qed.

Lemma reorder_view x : view s' x = view s x.
Proof. unfold view. by rewrite reorder_cached. Qed.
Lemma reorder_pins x : pins s' x = pins s x.
Proof. unfold pins. by rewrite reorder_cached. Qed.
Lemma reorder_locked x : locked s' x = locked s x.
Proof. unfold locked. by rewrite reorder_cached. Qed.
End Reorder.

(** What [brelse] promises. *)
Record released (me i : nat) (b : Z) (s s' : kstate) : Prop := {
  re_inv : bio_inv s';
  re_ctx : bio_ctx me s';
  re_view : forall x, view s' x = view s x;
  re_pins : forall x, pins s' x = pins s x - (if decide (x = b) then 1 else 0);
  re_locked : forall x, locked s' x = (if decide (x = b) then false else locked s x);
  re_nused : nused s' = (nused s - (if decide (pins s b = 1%Z) then 1 else 0))%nat;
  re_other : forall j, j <> i -> bufs s' !!! j = bufs s !!! j;
  re_pid : pid (procs s' !!! me) = pid (procs s !!! me);
  re_frame : s' = set_procs (procs s') (set_bufs (bufs s') (set_bcache_lru (bcache_lru s') s));
  re_procs : Forall2 woken (procs s) (procs s') }.

Lemma lru_moved s i : bio_inv s -> (i < NBUF)%nat ->
  (if refcnt (bufs s !!! i) - 1 =? 0 then move_to_front i (bcache_lru s) else bcache_lru s)
    ≡ₚ bcache_lru s.
Proof.
  intros Hinv Hi. destruct (_ =? 0); [|done]. apply move_to_front_perm; [|by apply lru_in].
  rewrite (bi_lru s Hinv). apply NoDup_seq.
Qed.

(** The last reference to a block goes only when the disk has its contents. *)
Lemma brelse_spec me i b s :
  bio_inv s -> bio_ctx me s -> loaded me i b s ->
  1 < pins s b \/ view s b = disk_blocks s b ->
  wp (brelse i) (fun _ s' => released me i b s s') s.
Proof.
  intros Hinv Hc Hl Hd. eapply wp_intro; [by eapply brelse_eval|].
  pose proof (loaded_pins _ _ _ _ Hinv Hl) as Hpin.
  assert (Hdev : b_dev (relbuf (bufs s !!! i)) = ROOTDEV) by apply Hl.
  assert (Hblk : b_blockno (relbuf (bufs s !!! i)) = b) by apply Hl.
  assert (Hval : b_valid (relbuf (bufs s !!! i)) = 1) by apply Hl.
  assert (Hu : bio_inv (set_bufs (alter relbuf i (bufs s)) s)).
  { eapply updated_inv; try done. cbn. rewrite <-Hpin, <-(loaded_view me i b s) by done.
    destruct Hl. destruct (decide (1 < pins s b)); [left; lia|right].
    destruct Hd; [lia|]. split; [lia|done]. }
  pose proof (lru_moved s i Hinv (ld_lt _ _ _ _ Hl)) as Hp. unfold brelsed.
  split.
  - by apply reorder_inv.
  - eapply bio_ctx_frame; [done..|]. cbn. apply length_wake.
  - intros x. rewrite reorder_view by done. erewrite updated_view by done.
    destruct (decide (x = b)) as [->|]; [|done]. by rewrite (loaded_view me i b s) by done.
  - intros x. rewrite reorder_pins by done. erewrite updated_pins by done. cbn.
    destruct (decide (x = b)) as [->|]; lia.
  - intros x. rewrite reorder_locked by done. erewrite updated_locked by done. done.
  - pose proof (updated_nused me i b s relbuf Hinv Hl) as E. cbn [relbuf refcnt] in E.
    change (nused (set_bcache_lru _ _)) with (nused (set_bufs (alter relbuf i (bufs s)) s)).
    destruct (decide (pins s b = 1)), (Z.eqb_spec (refcnt (bufs s !!! i) - 1) 0); lia.
  - intros j Hj. cbn [bufs set_bcache_lru set_procs].
    by rewrite (updated_lookup me i b s relbuf Hinv Hl), decide_False.
  - cbn [procs set_bcache_lru set_procs]. apply woken_pid, woken_wake.
  - done.
  - apply woken_wake.
Qed.

(** *** Frames *)
#[export] Instance woken_preorder : PreOrder woken.
Proof.
  split; [by left|]. intros p q r [->|[H ->]] [->|[H' ->]]; [by left|by right|by right|].
  cbn in H'. done.
Qed.

Lemma io_frame_refl s : io_frame s s.
Proof. split; [done|reflexivity]. Qed.
Lemma io_frame_trans s1 s2 s3 : io_frame s1 s2 -> io_frame s2 s3 -> io_frame s1 s3.
Proof.
  intros [H1 H1'] [H2 H2']. split.
  - rewrite H2 at 1. rewrite H1 at 1. done.
  - by etransitivity.
Qed.

Lemma got_io me s b i s' : got me s b i s' -> io_frame s s'.
Proof.
  intros G. rewrite (got_frame _ _ _ _ _ G). split; [done|]. apply (io_frame_refl s).
Qed.
Lemma released_io me i b s s' : released me i b s s' -> io_frame s s'.
Proof.
  intros R. split; [|apply R]. rewrite (re_frame _ _ _ _ _ R) at 1. rewrite (re_frame _ _ _ _ _ R). done.
Qed.
Lemma set_bufs_io bs s : io_frame s (set_bufs bs s).
Proof. split; [done|]. apply (io_frame_refl s). Qed.
Lemma bwritten_io b d s : io_frame s (bwritten b d s).
Proof. split; [done|]. apply (io_frame_refl s). Qed.

(** *** From one state with no locked buffer to another *)
Record calm (me : nat) (s : kstate) : Prop := {
  ca_inv : bio_inv s;
  ca_ctx : bio_ctx me s;
  ca_free : forall x, locked s x = false }.

Lemma calm_output me o s : calm me s -> calm me (set_output o s).
Proof.
  intros [Hi Hc Hf]. split; [|by eapply bio_ctx_frame|exact Hf].
  destruct Hi. split; done.
Qed.
Lemma output_io o s : io_frame s (set_output o s).
Proof. split; [done|reflexivity]. Qed.

(** A held buffer stays held while another block is read. *)
Lemma loaded_got me i a s b j s' : loaded me i a s -> got me s b j s' -> a <> b -> loaded me i a s'.
Proof.
  intros H G Hne. eapply loaded_frame; [done| |by rewrite (got_frame _ _ _ _ _ G)].
  apply G. by eapply G.
Qed.

(** *** binit *)
(** The buffers before [binit]: the zeroed memory of a static array. *)
Definition zero_buf : buf :=
  {| b_valid := 0; b_disk := 0; b_dev := 0; b_blockno := 0;
     b_lock := {| sl_locked := 0; sl_pid := 0 |}; refcnt := 0; b_data := replicate 1024 0 |}.

Lemma binit_eval s : bufs s = replicate NBUF zero_buf ->
  binit s = Ok tt (set_bcache_lru (reverse (seq 0 NBUF)) s).
Proof.
  intros Hb. unfold binit, bind at 1, modify at 1.
  assert (Hgen : forall l k, mfor l (fun i => initsleeplock (SL_buf i);;
      modify (fun s => set_bcache_lru (i :: bcache_lru s) s)) (set_bcache_lru k s) =
    Ok tt (set_bcache_lru (reverse l ++ k) s)).
  { induction l as [|i l IH]; intros k; [done|]. cbn [mfor]. unfold bind, initsleeplock, modify.
    cbn [sl_set bufs set_bcache_lru].
    rewrite (alter_id (fun b => {| b with b_lock := _ |})).
    - etransitivity; [apply (IH (i :: k))|]. rewrite reverse_cons, <-app_assoc. done.
    - intros x Hx. rewrite Hb in Hx. apply lookup_replicate in Hx as [-> _]. done. }
  rewrite Hgen, app_nil_r. done.
Qed.

Lemma binit_inv s : bufs s = replicate NBUF zero_buf ->
  bio_inv (set_bcache_lru (reverse (seq 0 NBUF)) s) /\
  (forall x, view (set_bcache_lru (reverse (seq 0 NBUF)) s) x = disk_blocks s x) /\
  (forall x, pins (set_bcache_lru (reverse (seq 0 NBUF)) s) x = 0) /\
  (forall x, locked (set_bcache_lru (reverse (seq 0 NBUF)) s) x = false) /\
  nused (set_bcache_lru (reverse (seq 0 NBUF)) s) = 0%nat.
Proof.
  intros Hb. set (s' := set_bcache_lru _ s).
  assert (Hz : forall i, (i < NBUF)%nat -> bufs s' !!! i = zero_buf).
  { intros i Hi. cbn. rewrite Hb. by apply lookup_total_replicate_2. }
  assert (Hinv : bio_inv s').
  { split.
    - cbn. by rewrite Hb.
    - apply reverse_Permutation.
    - intros i j Hi Hj. by rewrite !Hz.
    - intros i Hi. rewrite Hz by done. by left.
    - intros i Hi. by rewrite Hz.
    - intros i Hi. by rewrite Hz.
    - intros i Hi. by rewrite Hz. }
  assert (Hn : forall x, cached s' x = None).
  { intros x. destruct (cached s' x) as [i|] eqn:E; [|done].
    apply (cached_Some s' Hinv) in E as (Hi & Hd & _). by rewrite Hz in Hd. }
  split; [done|]. split; [|split; [|split]].
  - intros x. unfold view. by rewrite Hn.
  - intros x. unfold pins. by rewrite Hn.
  - intros x. unfold locked. by rewrite Hn.
  - unfold nused. cbn [bufs s' set_bcache_lru]. by rewrite Hb.
Qed.

(** ** A small kernel for witnesses *)
(** Process 0 runs; 64 processes; a booted cache over a given disk. *)
Definition demo_proc : proc :=
  mkproc RUNNING C_null 0 0 1 None 0 0 0 0 inhabitant [] None [].
Definition demo (disk : Z -> list Z) : kstate :=
  {| ld := mkldsyms 0 0 0 0 0 0 0 0; held := []; cur := Some 0%nat;
     procs := demo_proc :: replicate 63 inhabitant; initproc := Some 0%nat; nextpid := 2;
     mem := fun _ => 0; freelist := 0; kernel_pagetable := 0;
     tframes := fun _ => mktrapframe 0 0 0 0 0 0 0 0 0 0 0 0 0 0 0 0 0 0 0 0 0 0 0 0 0 0 0 0 0 0 0 0 0 0 0 0;
     pipes := fun _ => mkpipe [] 0 0 0 0; bufs := replicate NBUF zero_buf;
     bcache_lru := reverse (seq 0 NBUF); disk_blocks := disk; disk_writes := [];
     klog := mklogstate 2 0 0 ROOTDEV 0 (mklogheader 0 (replicate 30 0));
     ksb := mksuperblock FSMAGIC 2000 1954 200 31 2 33 46;
     itable := replicate NINODE inhabitant; ftable := replicate NFILE inhabitant;
     cons := mkconsole [] 0 0 0; ticks := 0; output := [];
     uart_rx := []; tx_busy := 0; first := 1; devsw := replicate 10 (mkdevsw None None) |}.

Lemma demo_ctx disk : bio_ctx 0 (demo disk).
Proof.
  split; try done; try apply not_elem_of_nil.
  - unfold NPROC. lia.
  - intros i _ _. apply not_elem_of_nil.
  - intros i. apply not_elem_of_nil.
Qed.
Lemma demo_inv disk : bio_inv (demo disk).
Proof. apply (binit_inv (demo disk)). done. Qed.

(** ** Correctness of the cache *)

(** Read a block, compute new contents from it, write them through and release the block: the
    idiom of bread/memmove/bwrite/brelse. *)
Definition overwrite (b : Z) (f : list Z -> list Z) : K unit :=
  i ← bread ROOTDEV b; o ← get_buf i; set_data i (f (b_data o));; bwrite i;; brelse i.

Definition disk_set (b : Z) (d : list Z) (disk : Z -> list Z) : Z -> list Z :=
  fun x => if x =? b then d else disk x.

(** From [s] to [s'], two states with no locked buffer, block [a] got contents [v] in the
    cache and on the disk and lost [dp] references. *)
Record copied (me : nat) (a : Z) (v : list Z) (dp : Z) (s s' : kstate) : Prop := {
  cp_calm : calm me s';
  cp_view : forall x, view s' x = if decide (x = a) then v else view s x;
  cp_pins : forall x, pins s' x = pins s x - (if decide (x = a) then dp else 0);
  cp_nused : (nused s' <= nused s)%nat;
  cp_disk : disk_blocks s' = disk_set a v (disk_blocks s);
  cp_writes : disk_writes s' = disk_writes s ++ [(a, v)];
  cp_frame : io_frame s s' }.

Lemma overwrite_spec me s b f :
  calm me s -> pins s b <> 0 \/ (nused s < NBUF)%nat ->
  wp (overwrite b f) (fun _ s' => copied me b (f (view s b)) 0 s s') s.
Proof.
  intros [Hinv Hc Hfree] Hav. unfold overwrite.
  apply wp_bind. eapply wp_mono; [by apply bread_spec|]. intros i s1 G.
  unfold get_buf. wp_step. wp_step. rewrite (got_data _ _ _ _ _ G). set (d := f (view s b)).
  apply wp_bind. eapply wp_mono; [eapply set_data_spec; apply G|]. intros [] s2 [E2 F2].
  apply wp_bind. eapply wp_mono; [eapply bwrite_spec; apply E2|]. intros [] s3 [E3 F3].
  assert (Hv2 : view s2 b = d) by (rewrite (ed_view _ _ _ _ _ _ _ E2), decide_True; done).
  rewrite Hv2 in *.
  eapply wp_mono; [eapply brelse_spec; try apply E3|].
  { right. rewrite (ed_view _ _ _ _ _ _ _ E3), F3, decide_True by done. cbn. by rewrite Z.eqb_refl. }
  assert (Hp3 : forall x, pins s3 x = pins s x + (if decide (x = b) then 1 else 0)).
  { intros x. rewrite (ed_pins _ _ _ _ _ _ _ E3), (ed_pins _ _ _ _ _ _ _ E2), (got_pins _ _ _ _ _ G).
    by_cases. }
  intros [] s4 R. split.
  - split; [apply R|apply R|]. intros x. rewrite (re_locked _ _ _ _ _ R), (ed_locked _ _ _ _ _ _ _ E3).
    rewrite (ed_locked _ _ _ _ _ _ _ E2), (got_locked _ _ _ _ _ G). by_cases.
  - intros x. rewrite (re_view _ _ _ _ _ R), (ed_view _ _ _ _ _ _ _ E3), (ed_view _ _ _ _ _ _ _ E2).
    rewrite (got_view _ _ _ _ _ G). by_cases.
  - intros x. rewrite (re_pins _ _ _ _ _ R), Hp3. by_cases.
  - rewrite (re_nused _ _ _ _ _ R), Hp3, (ed_nused _ _ _ _ _ _ _ E3), (ed_nused _ _ _ _ _ _ _ E2).
    rewrite (got_nused _ _ _ _ _ G). by_cases.
  - rewrite (re_frame _ _ _ _ _ R), F3, F2, (got_frame _ _ _ _ _ G). done.
  - rewrite (re_frame _ _ _ _ _ R), F3, F2, (got_frame _ _ _ _ _ G). done.
  - eapply io_frame_trans; [by eapply got_io|]. eapply io_frame_trans; [|by eapply released_io].
    rewrite F3. eapply io_frame_trans; [|apply bwritten_io]. rewrite F2. apply set_bufs_io.
Qed.

(** C38: the cache is transparent: [bread] returns the one buffer that holds the block,
    locked by the caller, with the block's current contents, and changes no block's
    contents; updating a block through the cache changes that block and no other, in the
    cache and on the disk, leaves the reference counts as they were and no buffer locked,
    and keeps the cache's invariant. *)
Theorem cache_transparent me s b f :
  bio_inv s -> bio_ctx me s -> locked s b = false -> pins s b <> 0 \/ (nused s < NBUF)%nat ->
  (exists i s', bread ROOTDEV b s = Ok i s' /\ loaded me i b s' /\
     b_data (bufs s' !!! i) = view s b /\ bio_inv s' /\ (forall x, view s' x = view s x)) /\
  ((forall x, locked s x = false) ->
   exists s', overwrite b f s = Ok tt s' /\ bio_inv s' /\ (forall x, locked s' x = false) /\
     (forall x, view s' x = if decide (x = b) then f (view s b) else view s x) /\
     (forall x, disk_blocks s' x = if decide (x = b) then f (view s b) else disk_blocks s x) /\
     (forall x, pins s' x = pins s x)).
Proof.
  intros Hinv Hc Hl Hav. split.
  - destruct (wp_elim _ _ _ (bread_spec me s b Hinv Hc Hl Hav)) as (i & s' & E & G).
    exists i, s'. destruct G. done.
  - intros Hfree.
    destruct (wp_elim _ _ _ (overwrite_spec me s b f (Build_calm _ _ Hinv Hc Hfree) Hav))
      as ([] & s' & E & [[? ? ?] ? Hp _ Hd _ _]).
    exists s'. split; [done|]. split; [done|]. split; [done|]. split; [done|]. split.
    + intros x. rewrite Hd. unfold disk_set. by destruct (Z.eqb_spec x b), (decide (x = b)).
    + intros x. rewrite Hp. by_cases.
Qed.

Lemma cache_transparent_witness :
  exists i s', bread ROOTDEV 7 (demo (fun x => [x])) = Ok i s' /\ b_data (bufs s' !!! i) = [7].
Proof.
  destruct (cache_transparent 0 (demo (fun x => [x])) 7 (fun _ => [9])) as [(i & s' & H & _ & D & _) _].
  - apply demo_inv.
  - apply demo_ctx.
  - reflexivity.
  - right. vm_compute. lia.
  - exists i, s'. split; [exact H|]. rewrite D. reflexivity.
Defined.

Lemma find_reverse_last {A} (f : A -> bool) l x : find f (reverse l) = Some x ->
  exists pre post, l = pre ++ x :: post /\ f x = true /\ (forall y, y ∈ post -> f y = false).
Proof.
  revert x. induction l as [|z l IH] using rev_ind; intros x; [done|].
  rewrite reverse_app. cbn. destruct (f z) eqn:E.
  - intros [= <-]. exists l, []. split; [done|]. split; [done|]. intros y ?%not_elem_of_nil. done.
  - intros H. destruct (IH x H) as (pre & post & -> & ? & Hp).
    exists pre, (post ++ [z]). rewrite <-app_assoc. split; [done|]. split; [done|].
    intros y [?|?]%elem_of_app; [by apply Hp|]. by apply list_elem_of_singleton in H1 as ->.
Qed.

Lemma find_all_false {A} (f : A -> bool) l : (forall y, y ∈ l -> f y = false) -> find f l = None.
Proof.
  induction l as [|z l IH]; intros Hf; [done|]. cbn. rewrite Hf by (by left). apply IH.
  intros y Hy. apply Hf. by right.
Qed.

Lemma bread_full me s b : bio_ctx me s -> cached s b = None ->
  (forall j, j ∈ bcache_lru s -> refcnt (bufs s !!! j) <> 0) ->
  bread ROOTDEV b s = Panic "bget: no buffers".
Proof.
  intros Hc Hn Hall. unfold bread, bget, bind. rewrite acquire_eval by apply Hc. unfold gets at 1.
  change (find (hit _ _ _) _) with (cached s b). rewrite Hn. unfold gets at 1.
  rewrite find_all_false; [done|]. intros j Hj. rewrite elem_of_reverse in Hj.
  unfold unused. apply Z.eqb_neq. exact (Hall j Hj).
Qed.

(** Replacement: a block that is not cached gets the least recently used buffer with no
    references (every buffer further towards the least recently used end is referenced); a
    buffer whose last reference is released becomes the most recently used; and when every
    buffer is referenced, reading a block that is not cached panics. *)
Theorem lru_replacement me s b :
  bio_inv s -> bio_ctx me s ->
  (cached s b = None -> (nused s < NBUF)%nat ->
     exists i pre post s', bread ROOTDEV b s = Ok i s' /\ bcache_lru s = pre ++ i :: post /\
       refcnt (bufs s !!! i) = 0 /\ (forall j, j ∈ post -> refcnt (bufs s !!! j) <> 0)) /\
  (forall i, loaded me i b s -> pins s b = 1 ->
     exists s' rest, brelse i s = Ok tt s' /\ bcache_lru s' = i :: rest /\ i ∉ rest /\ pins s' b = 0) /\
  (cached s b = None -> (forall j, j ∈ bcache_lru s -> refcnt (bufs s !!! j) <> 0) ->
     bread ROOTDEV b s = Panic "bget: no buffers").
Proof.
  intros Hinv Hc. split; [|split].
  - intros Hn Hu. destruct (nused_find s Hinv Hu) as [i Hf].
    destruct (find_reverse_last _ _ _ Hf) as (pre & post & E & H0 & Hp).
    exists i, pre, post, (breaded me s b i). split; [|split; [done|split]].
    + apply bread_eval; try done; unfold pick, locked; by rewrite Hn.
    + by apply Z.eqb_eq.
    + intros j Hj. by apply Z.eqb_neq, Hp.
  - intros i Hl Hp. rewrite (loaded_pins me i b) in Hp by done.
    exists (brelsed i s), (filter (.≠ i) (bcache_lru s)). split; [by eapply brelse_eval|].
    unfold brelsed. rewrite Hp. cbn [Z.sub Z.add Z.opp Z.pos_sub Z.eqb bcache_lru set_bcache_lru].
    split; [done|]. split; [by intros [? _]%list_elem_of_filter|].
    unfold pins. destruct (cached _ b) as [j|] eqn:E; [|done].
    apply find_some in E as [_ E]. unfold hit in E. apply andb_true_iff in E as [E1%Z.eqb_eq E2%Z.eqb_eq].
    revert E1 E2. cbn [bufs set_bcache_lru set_procs].
    rewrite (updated_lookup me i b s relbuf Hinv Hl j). destruct (decide (j = i)); [cbn; lia|].
    intros E1 E2. destruct (decide (j < NBUF)%nat).
    + destruct Hl. exfalso. apply n. apply (bi_unique s Hinv); congruence.
    + rewrite list_lookup_total_alt, lookup_ge_None_2 by (rewrite (bi_len s Hinv); lia). done.
  - by apply (bread_full me).
Qed.

Lemma lru_replacement_witness :
  exists pre post i s', bread ROOTDEV 7 (demo (fun x => [x])) = Ok i s' /\
    bcache_lru (demo (fun x => [x])) = pre ++ i :: post.
Proof.
  destruct (lru_replacement 0 (demo (fun x => [x])) 7) as [H _].
  - apply demo_inv.
  - apply demo_ctx.
  - destruct H as (i & pre & post & s' & H1 & H2 & _).
    + reflexivity.
    + vm_compute. lia.
    + exists pre, post, i, s'. split; [exact H1|exact H2].
Defined.
