(* ===== verification/Virtio.v ===== *)
(** * The disk driver (kernel/virtio_disk.c)

    The driver shares three structures with the device: the descriptor table, the ring of
    available requests and the ring of used ones.  They are kept as typed values: the address
    in a descriptor names what it points to.  [Bio] uses the driver through its contract
    [Bio.virtio_disk_rw]; [Virtiosafe] proves the contract, for any device that behaves as the
    virtio standard says, with requests of several processes, device steps and interrupts in
    any order. *)

From S2P Require Import Prelude Spinlock State Kalloc Vm Sync Bio.

(** ** virtio.h *)
Definition NUM : nat := 8.
Definition VRING_DESC_F_NEXT : Z := 1.
Definition VRING_DESC_F_WRITE : Z := 2.
Definition VIRTIO_BLK_T_IN : Z := 0.
Definition VIRTIO_BLK_T_OUT : Z := 1.

(** What a descriptor may point to: [disk.ops[i]], the data of buffer [b], or
    [disk.info[i].status]. *)
Inductive vaddr := VA_null | VA_op (i : nat) | VA_data (b : nat) | VA_status (i : nat).
Record virtq_desc := mkdesc { d_addr : vaddr; d_len : Z; d_flags : Z; d_next : Z }.
Record virtio_blk_req := mkreq { rq_type : Z; rq_reserved : Z; rq_sector : Z }.
Record dinfo := mkinfo { in_b : option nat; in_status : Z }.

(** ** struct disk *)
Record disk := mkdisk {
  desc : list virtq_desc;
  avail_idx : Z; avail_ring : list Z;
  used_idx_dev : Z;          (** disk.used->idx, written by the device *)
  used_ring : list Z;        (** disk.used->ring[].id *)
  dfree : list Z;            (** disk.free[] *)
  used_idx : Z;              (** disk.used_idx, the driver's *)
  info : list dinfo;
  ops : list virtio_blk_req;
  mmio : list (Z * Z)        (** the writes to the device's registers *) }.

#[export] Instance desc_inhabited : Inhabited virtq_desc := populate (mkdesc VA_null 0 0 0).
#[export] Instance req_inhabited : Inhabited virtio_blk_req := populate (mkreq 0 0 0).
#[export] Instance info_inhabited : Inhabited dinfo := populate (mkinfo None 0).

(** The kernel's state with the driver's. *)
Record vstate := mkvstate { vk : kstate; vd : disk }.
Notation V := (M vstate).

(** A kernel routine, and an access to the driver's data. *)
Definition kern {A} (m : K A) : V A := fun s =>
  match m (vk s) with
  | Ok a k => Ok a {| vk := k; vd := vd s |}
  | Panic e => Panic e
  | Fault e => Fault e
  | Block k => Block {| vk := k; vd := vd s |}
  end.
Definition getd {A} (f : disk -> A) : V A := gets (fun s => f (vd s)).
Definition setd (f : disk -> disk) : V unit := modify (fun s => {| vk := vk s; vd := f (vd s) |}).

Definition set_desc (i : nat) (f : virtq_desc -> virtq_desc) : V unit :=
  setd (fun d => {| d with desc := alter f i (desc d) |}).
Definition set_free (i : nat) (v : Z) : V unit := setd (fun d => {| d with dfree := <[i := v]> (dfree d) |}).
Definition set_info (i : nat) (f : dinfo -> dinfo) : V unit :=
  setd (fun d => {| d with info := alter f i (info d) |}).

(** ** Descriptors *)
(** The loop of [alloc_desc] over the rest of the table. *)
Fixpoint find_free (l : list Z) (i : nat) : option nat :=
  match l with
  | [] => None
  | x :: l' => if negb (x =? 0) then Some i else find_free l' (S i)
  end.

Definition alloc_desc : V Z :=
  l ← getd dfree;
  match find_free l 0 with
  | Some i => set_free i 0;; ret (Z.of_nat i)
  | None => ret (-1)
  end.

Definition free_desc (i : Z) : V unit :=
  panic_if (Z.of_nat NUM <=? i) "free_desc 1";;
  f ← getd (fun d => dfree d !!! Z.to_nat i);
  panic_if (negb (f =? 0)) "free_desc 2";;
  set_desc (Z.to_nat i) (fun _ => mkdesc VA_null 0 0 0);;
  set_free (Z.to_nat i) 1;;
  kern (wakeup C_disk_free).

(** A chain has no more descriptors than the table. *)
Fixpoint free_chain_loop (fuel : nat) (i : Z) : V unit :=
  match fuel with
  | O => fault "free_chain: out of fuel"
  | S fuel' =>
      d ← getd (fun d => desc d !!! Z.to_nat i);
      free_desc i;;
      if negb (Z.land (d_flags d) VRING_DESC_F_NEXT =? 0)
      then free_chain_loop fuel' (d_next d) else ret tt
  end.
Definition free_chain (i : Z) : V unit := free_chain_loop NUM i.

(** The indices, or the failure with all of them free again. *)
Definition alloc3_desc : V (option (Z * Z * Z)) :=
  i0 ← alloc_desc;
  if i0 <? 0 then ret None
  else
    i1 ← alloc_desc;
    if i1 <? 0 then free_desc i0;; ret None
    else
      i2 ← alloc_desc;
      if i2 <? 0 then free_desc i0;; free_desc i1;; ret None
      else ret (Some (i0, i1, i2)).

(** ** Transfers *)
Definition VIRTIO_MMIO_QUEUE_NOTIFY : Z := 0x050.
Definition write_reg (r v : Z) : V unit := setd (fun d => {| d with mmio := mmio d ++ [(r, v)] |}).

(** Waiting for [virtio_disk_intr] to say that the request has finished, and the rest. *)
Definition vrw_wait (b : nat) (idx0 : Z) : V unit :=
  x ← kern (get_buf b);
  if b_disk x =? 1 then kern (sleep (C_buf b) L_vdisk)
  else
    set_info (Z.to_nat idx0) (fun i => {| i with in_b := None |});;
    free_chain idx0;;
    kern (release L_vdisk).
Definition vrw_wait_resume (b : nat) (idx0 : Z) : V unit :=
  kern (sleep_after L_vdisk);; vrw_wait b idx0.

(** Format the three descriptors and tell the device. *)
Definition vrw_submit (b : nat) (write : bool) (sector : Z) (i0 i1 i2 : Z) : V unit :=
  let n0 := Z.to_nat i0 in
  setd (fun d => {| d with ops := <[n0 :=
    mkreq (if write then VIRTIO_BLK_T_OUT else VIRTIO_BLK_T_IN) 0 sector]> (ops d) |});;
  set_desc n0 (fun _ => mkdesc (VA_op n0) 16 VRING_DESC_F_NEXT i1);;
  set_desc (Z.to_nat i1) (fun _ => mkdesc (VA_data b) BSIZE
    (Z.lor (if write then 0 else VRING_DESC_F_WRITE) VRING_DESC_F_NEXT) i2);;
  set_info n0 (fun i => {| i with in_status := 0xff |});;
  set_desc (Z.to_nat i2) (fun _ => mkdesc (VA_status n0) 1 VRING_DESC_F_WRITE 0);;
  kern (set_buf b (fun x => {| x with b_disk := 1 |}));;
  set_info n0 (fun i => {| i with in_b := Some b |});;
  setd (fun d => {| d with avail_ring :=
    <[Z.to_nat (avail_idx d mod Z.of_nat NUM) := i0]> (avail_ring d) |});;
  setd (fun d => {| d with avail_idx := u16 (avail_idx d + 1) |});;
  write_reg VIRTIO_MMIO_QUEUE_NOTIFY 0.

(** From the allocation of the descriptors on, with the lock held. *)
Definition vrw_alloc (b : nat) (write : bool) (sector : Z) : V unit :=
  r ← alloc3_desc;
  match r with
  | None => kern (sleep C_disk_free L_vdisk)
  | Some (i0, i1, i2) => vrw_submit b write sector i0 i1 i2;; vrw_wait b i0
  end.
Definition vrw_alloc_resume (b : nat) (write : bool) (sector : Z) : V unit :=
  kern (sleep_after L_vdisk);; vrw_alloc b write sector.

Definition virtio_disk_rw (b : nat) (write : bool) : V unit :=
  x ← kern (get_buf b);
  let sector := u32 (b_blockno x * (BSIZE / 512)) in
  kern (acquire L_vdisk);;
  vrw_alloc b write sector.

(** ** Interrupts *)
Definition VIRTIO_MMIO_INTERRUPT_STATUS : Z := 0x060.
Definition VIRTIO_MMIO_INTERRUPT_ACK : Z := 0x064.

(** The loop over the used ring.  The device writes [disk.used->idx]; the loop sees at most
    the requests in flight. *)
Fixpoint intr_loop (fuel : nat) : V unit :=
  match fuel with
  | O => fault "virtio_disk_intr: out of fuel"
  | S fuel' =>
      d ← getd (fun d => d);
      if used_idx d =? used_idx_dev d then ret tt
      else
        let id := Z.to_nat (used_ring d !!! Z.to_nat (used_idx d mod Z.of_nat NUM)) in
        panic_if (negb (in_status (info d !!! id) =? 0)) "virtio_disk_intr status";;
        b ← deref "virtio_disk_intr" (in_b (info d !!! id));
        kern (set_buf b (fun x => {| x with b_disk := 0 |}));;
        kern (wakeup (C_buf b));;
        setd (fun d => {| d with used_idx := u16 (used_idx d + 1) |});;
        intr_loop fuel'
  end.

(** [istatus] is what the device answers for its interrupt status. *)
Definition virtio_disk_intr (istatus : Z) : V unit :=
  kern (acquire L_vdisk);;
  write_reg VIRTIO_MMIO_INTERRUPT_ACK (Z.land istatus 0x3);;
  intr_loop (S NUM);;
  kern (release L_vdisk).

(** ** Initialisation

    [rd ws r] is what the device answers when register [r] is read after the writes [ws]. *)
Section Init.
Context (rd : list (Z * Z) -> Z -> Z).

Definition read_reg (r : Z) : V Z := getd (fun d => rd (mmio d) r).

Definition VIRTIO_MMIO_MAGIC_VALUE : Z := 0x000.
Definition VIRTIO_MMIO_VERSION : Z := 0x004.
Definition VIRTIO_MMIO_DEVICE_ID : Z := 0x008.
Definition VIRTIO_MMIO_VENDOR_ID : Z := 0x00c.
Definition VIRTIO_MMIO_DEVICE_FEATURES : Z := 0x010.
Definition VIRTIO_MMIO_DRIVER_FEATURES : Z := 0x020.
Definition VIRTIO_MMIO_QUEUE_SEL : Z := 0x030.
Definition VIRTIO_MMIO_QUEUE_NUM_MAX : Z := 0x034.
Definition VIRTIO_MMIO_QUEUE_NUM : Z := 0x038.
Definition VIRTIO_MMIO_QUEUE_READY : Z := 0x044.
Definition VIRTIO_MMIO_STATUS : Z := 0x070.
Definition VIRTIO_MMIO_QUEUE_DESC_LOW : Z := 0x080.
Definition VIRTIO_MMIO_QUEUE_DESC_HIGH : Z := 0x084.
Definition VIRTIO_MMIO_DRIVER_DESC_LOW : Z := 0x090.
Definition VIRTIO_MMIO_DRIVER_DESC_HIGH : Z := 0x094.
Definition VIRTIO_MMIO_DEVICE_DESC_LOW : Z := 0x0a0.
Definition VIRTIO_MMIO_DEVICE_DESC_HIGH : Z := 0x0a4.
Definition VIRTIO_CONFIG_S_ACKNOWLEDGE : Z := 1.
Definition VIRTIO_CONFIG_S_DRIVER : Z := 2.
Definition VIRTIO_CONFIG_S_DRIVER_OK : Z := 4.
Definition VIRTIO_CONFIG_S_FEATURES_OK : Z := 8.

(** [features &= ~(1 << bit)] for the features the driver does not use. *)
Definition unused_features : list Z := [5; 7; 11; 12; 27; 29; 28].
Definition mask_features (f : Z) : Z :=
  fold_left (fun f bit => Z.land f (u64 (s32 (Z.lnot (Z.shiftl 1 bit))))) unused_features f.

(** The three pages of the queue; the addresses are written to the device. *)
Definition virtio_disk_init : V unit :=
  magic ← read_reg VIRTIO_MMIO_MAGIC_VALUE;
  version ← read_reg VIRTIO_MMIO_VERSION;
  device ← read_reg VIRTIO_MMIO_DEVICE_ID;
  vendor ← read_reg VIRTIO_MMIO_VENDOR_ID;
  panic_if (negb (magic =? 0x74726976) || negb (version =? 2) || negb (device =? 2) ||
            negb (vendor =? 0x554d4551)) "could not find virtio disk";;
  write_reg VIRTIO_MMIO_STATUS 0;;
  let status := VIRTIO_CONFIG_S_ACKNOWLEDGE in
  write_reg VIRTIO_MMIO_STATUS status;;
  let status := Z.lor status VIRTIO_CONFIG_S_DRIVER in
  write_reg VIRTIO_MMIO_STATUS status;;
  features ← read_reg VIRTIO_MMIO_DEVICE_FEATURES;
  write_reg VIRTIO_MMIO_DRIVER_FEATURES (u32 (mask_features features));;
  let status := Z.lor status VIRTIO_CONFIG_S_FEATURES_OK in
  write_reg VIRTIO_MMIO_STATUS status;;
  status ← read_reg VIRTIO_MMIO_STATUS;
  panic_if (Z.land status VIRTIO_CONFIG_S_FEATURES_OK =? 0) "virtio disk FEATURES_OK unset";;
  write_reg VIRTIO_MMIO_QUEUE_SEL 0;;
  ready ← read_reg VIRTIO_MMIO_QUEUE_READY;
  panic_if (negb (ready =? 0)) "virtio disk should not be ready";;
  max ← read_reg VIRTIO_MMIO_QUEUE_NUM_MAX;
  panic_if (max =? 0) "virtio disk has no queue 0";;
  panic_if (max <? Z.of_nat NUM) "virtio disk max queue too short";;
  pdesc ← kern kalloc;
  pavail ← kern kalloc;
  pused ← kern kalloc;
  panic_if ((pdesc =? 0) || (pavail =? 0) || (pused =? 0)) "virtio disk kalloc";;
  kern (zero_page pdesc);;
  kern (zero_page pavail);;
  kern (zero_page pused);;
  setd (fun d => {| d with desc := replicate NUM (mkdesc VA_null 0 0 0); avail_idx := 0;
    avail_ring := replicate NUM 0; used_idx_dev := 0; used_ring := replicate NUM 0 |});;
  write_reg VIRTIO_MMIO_QUEUE_NUM (Z.of_nat NUM);;
  write_reg VIRTIO_MMIO_QUEUE_DESC_LOW (u32 pdesc);;
  write_reg VIRTIO_MMIO_QUEUE_DESC_HIGH (u32 (Z.shiftr pdesc 32));;
  write_reg VIRTIO_MMIO_DRIVER_DESC_LOW (u32 pavail);;
  write_reg VIRTIO_MMIO_DRIVER_DESC_HIGH (u32 (Z.shiftr pavail 32));;
  write_reg VIRTIO_MMIO_DEVICE_DESC_LOW (u32 pused);;
  write_reg VIRTIO_MMIO_DEVICE_DESC_HIGH (u32 (Z.shiftr pused 32));;
  write_reg VIRTIO_MMIO_QUEUE_READY 1;;
  mfor (seq 0 NUM) (fun i => set_free i 1);;
  write_reg VIRTIO_MMIO_STATUS (Z.lor status VIRTIO_CONFIG_S_DRIVER_OK).
End Init.
