(* ===== verification/Virtiosafe.v ===== *)
(** * The disk driver against its device (the theory of kernel/virtio_disk.c)

    The steps of the driver, of the device and of the processes that wait for a transfer are
    interleaved by [vstep]; the invariant gives each descriptor to the free list, to a request
    or to the device, and the theorem reads the synchronous contract off it. *)

From S2P Require Import Prelude Spinlock State Kalloc Vm Sync Bio Virtio.

(** ** A window of a ring

    The entries [q] lie in the ring from index [start] on; the indices run freely modulo 2^16,
    and the ring's size divides 2^16. *)
Definition ring_at (ring : list Z) (start : Z) (q : list nat) : Prop :=
  length ring = NUM /\ (length q <= NUM)%nat /\
  forall k h, q !! k = Some h -> ring !!! Z.to_nat ((start + Z.of_nat k) mod 8) = Z.of_nat h.

Lemma u16_mod8 x : u16 x mod 8 = x mod 8.
Proof.
  unfold u16. change (2 ^ 16) with 65536. symmetry. apply Znumtheory.Zmod_div_mod; [lia|lia|].
  by exists 8192.
Qed.

Lemma ring_push ring start q h : ring_at ring start q -> (length q < NUM)%nat ->
  ring_at (<[Z.to_nat (u16 (start + Z.of_nat (length q)) mod 8) := Z.of_nat h]> ring) start (q ++ [h]).
Proof.
  intros (Hl & Hq & Hr) Hlt. unfold NUM in Hl, Hq, Hlt.
  assert (E : u16 (start + Z.of_nat (length q)) mod 8 = (start + Z.of_nat (length q)) mod 8) by apply u16_mod8.
  rewrite E. split; [by rewrite length_insert|]. split; [rewrite length_app; cbn [length]; unfold NUM; lia|].
  intros k x [Hk|[Hk Hx]]%lookup_app_Some.
  - apply lookup_lt_Some in Hk as Hlt'. rewrite list_lookup_total_insert_ne; [by apply Hr|]. clear - Hlt Hlt'.
    pose proof (Z.mod_pos_bound (start + Z.of_nat (length q)) 8). pose proof (Z.mod_pos_bound (start + Z.of_nat k) 8).
    intros Hc. assert ((start + Z.of_nat (length q)) mod 8 = (start + Z.of_nat k) mod 8) by lia. clear Hc. dlia.
  - apply list_lookup_singleton_Some in Hx as [Hk0 <-]. assert (k = length q) as -> by lia.
    rewrite list_lookup_total_insert, decide_True; [done|]. split; [done|]. rewrite Hl.
    pose proof (Z.mod_pos_bound (start + Z.of_nat (length q)) 8). lia.
Qed.

Lemma ring_pop ring start h q : ring_at ring start (h :: q) ->
  ring !!! Z.to_nat (start mod 8) = Z.of_nat h /\ ring_at ring (u16 (start + 1)) q.
Proof.
  intros (Hl & Hq & Hr). cbn [length] in Hq. split.
  - rewrite <-(Hr 0%nat h eq_refl). by rewrite Z.add_0_r.
  - split; [done|]. split; [lia|]. intros k x Hk. rewrite <-(Hr (S k) x Hk).
    do 2 f_equal. unfold u16. rewrite Nat2Z.inj_succ. dlia.
Qed.

(** The counters of a window. *)
Definition window (start stop : Z) (q : list nat) : Prop :=
  0 <= start < 2 ^ 16 /\ stop = u16 (start + Z.of_nat (length q)).

Lemma window_push start stop q h : window start stop q -> window start (u16 (stop + 1)) (q ++ [h]).
Proof. intros [H ->]. split; [done|]. rewrite length_app. cbn [length]. unfold u16. dlia. Qed.
Lemma window_pop start stop h q : window start stop (h :: q) -> window (u16 (start + 1)) stop q.
Proof. intros [H ->]. cbn [length]. split; unfold u16; dlia. Qed.
Lemma window_empty start stop q : window start stop q -> (length q <= NUM)%nat -> start = stop <-> q = [].
Proof.
  intros [H ->] Hq. unfold NUM in *. split.
  - intros E. destruct q; [done|]. exfalso. cbn [length] in *. unfold u16 in E. dlia.
  - intros ->. unfold u16. cbn [length]. dlia.
Qed.

(** ** Evaluation of the driver's steps *)
Lemma kern_ok {A} (m : K A) s a k : m (vk s) = Ok a k -> kern m s = Ok a {| vk := k; vd := vd s |}.
Proof. intros H. unfold kern. by rewrite H. Qed.

(** The processes are in order for [wakeup]. *)
Definition procs_ok (k : kstate) : Prop := length (procs k) = NPROC /\ others_unlocked k.
(** Two kernel states that the driver cannot tell apart but for the processes. *)
Definition same_io (k k' : kstate) : Prop :=
  bufs k' = bufs k /\ disk_blocks k' = disk_blocks k /\ held k' = held k /\ cur k' = cur k.

Lemma wakeup_same c k : procs_ok k -> exists k', wakeup c k = Ok tt k' /\ same_io k k' /\ procs_ok k'.
Proof.
  intros [Hl Ho]. eexists. split; [by apply wakeup_eval|]. split; [done|].
  split; [cbn; by rewrite length_wake|]. exact Ho.
Qed.

Lemma same_io_trans k1 k2 k3 : same_io k1 k2 -> same_io k2 k3 -> same_io k1 k3.
Proof. intros (? & ? & ? & ?) (? & ? & ? & ?). repeat split; congruence. Qed.

Definition freed (i : nat) (d : disk) : disk :=
  {| {| d with desc := alter (fun _ => mkdesc VA_null 0 0 0) i (desc d) |} with dfree := <[i := 1]> (dfree d) |}.

Lemma free_desc_eval i s : (i < NUM)%nat -> dfree (vd s) !!! i = 0 -> procs_ok (vk s) ->
  exists k', free_desc (Z.of_nat i) s = Ok tt {| vk := k'; vd := freed i (vd s) |} /\
    same_io (vk s) k' /\ procs_ok k'.
Proof.
  intros Hi Hf Hp. destruct (wakeup_same C_disk_free (vk s) Hp) as (k' & E & Hs & Hp').
  exists k'. split; [|done]. unfold free_desc, bind at 1, panic_if.
  destruct (Z.leb_spec (Z.of_nat NUM) (Z.of_nat i)); [unfold NUM in *; lia|]. unfold ret at 1.
  unfold bind at 1, getd, gets. rewrite Nat2Z.id, Hf. cbn [Z.eqb negb]. unfold bind, ret at 1.
  unfold set_desc, set_free, setd, modify. cbn [vk vd]. by rewrite (kern_ok _ _ tt k').
Qed.

(** The descriptors of a chain of three. *)
Definition chain3 (d : disk) (i0 i1 i2 : nat) : Prop :=
  Z.land (d_flags (desc d !!! i0)) VRING_DESC_F_NEXT <> 0 /\ d_next (desc d !!! i0) = Z.of_nat i1 /\
  Z.land (d_flags (desc d !!! i1)) VRING_DESC_F_NEXT <> 0 /\ d_next (desc d !!! i1) = Z.of_nat i2 /\
  Z.land (d_flags (desc d !!! i2)) VRING_DESC_F_NEXT = 0.

Lemma free_chain_eval i0 i1 i2 s : (i0 < NUM)%nat -> (i1 < NUM)%nat -> (i2 < NUM)%nat ->
  i0 <> i1 -> i0 <> i2 -> i1 <> i2 -> chain3 (vd s) i0 i1 i2 ->
  dfree (vd s) !!! i0 = 0 -> dfree (vd s) !!! i1 = 0 -> dfree (vd s) !!! i2 = 0 -> procs_ok (vk s) ->
  exists k', free_chain (Z.of_nat i0) s =
      Ok tt {| vk := k'; vd := freed i2 (freed i1 (freed i0 (vd s))) |} /\
    same_io (vk s) k' /\ procs_ok k'.
Proof.
  intros H0 H1 H2 N1 N2 N3 (F0 & X0 & F1 & X1 & F2) Z0 Z1 Z2 Hp.
  assert (Hother : forall i j d, i <> j -> dfree (freed i d) !!! j = dfree d !!! j /\ desc (freed i d) !!! j = desc d !!! j).
  { intros i j d Hne. cbn. by rewrite list_lookup_total_insert_ne, list_lookup_total_alter_ne. }
  unfold free_chain, NUM. cbn [free_chain_loop].
  destruct (free_desc_eval i0 s H0 Z0 Hp) as (k1 & E1 & S1 & P1).
  unfold bind at 1, getd, gets. rewrite Nat2Z.id. unfold bind at 1. rewrite E1.
  rewrite (proj2 (Z.eqb_neq _ _) F0), X0. cbn [negb].
  set (s1 := {| vk := k1; vd := freed i0 (vd s) |}).
  destruct (free_desc_eval i1 s1) as (k2 & E2 & S2 & P2); [done|cbn [vd s1]; by rewrite (proj1 (Hother i0 i1 _ N1))|done|].
  unfold bind at 1, gets. rewrite Nat2Z.id. unfold bind at 1. rewrite E2. cbn [vd s1].
  rewrite (proj2 (Hother i0 i1 _ N1)), (proj2 (Z.eqb_neq _ _) F1), X1. cbn [negb].
  set (s2 := {| vk := k2; vd := freed i1 (freed i0 (vd s)) |}).
  destruct (free_desc_eval i2 s2) as (k3 & E3 & S3 & P3); [done| |done|].
  { cbn [vd s2]. by rewrite (proj1 (Hother i1 i2 _ N3)), (proj1 (Hother i0 i2 _ N2)). }
  unfold bind at 1, gets. rewrite Nat2Z.id. unfold bind at 1. rewrite E3. cbn [vd s2].
  rewrite (proj2 (Hother i1 i2 _ N3)), (proj2 (Hother i0 i2 _ N2)), F2. cbn [Z.eqb negb].
  exists k3. split; [done|]. split; [|done]. eapply same_io_trans; [exact S1|]. by eapply same_io_trans.
Qed.

(** ** Allocation of descriptors *)
Lemma find_free_spec l n : match find_free l n with
  | Some i => (n <= i < n + length l)%nat /\ l !!! (i - n)%nat <> 0
  | None => forall i, (i < length l)%nat -> l !!! i = 0
  end.
Proof.
  revert n. induction l as [|x l IH]; intros n; cbn [find_free length]; [lia|].
  destruct (Z.eqb_spec x 0) as [->|Hx]; cbn [negb].
  - specialize (IH (S n)). destruct (find_free l (S n)) as [i|].
    + destruct IH as [Hi Hl]. split; [lia|]. replace (i - n)%nat with (S (i - S n)) by lia. exact Hl.
    + intros [|i] Hi; [done|]. apply (IH i). lia.
  - split; [lia|]. by rewrite Nat.sub_diag.
Qed.

(** The driver's data with descriptor [i] taken. *)
Definition taken (i : nat) (d : disk) : disk := {| d with dfree := <[i := 0]> (dfree d) |}.
Definition isfree (d : disk) (i : nat) : Prop := (i < NUM)%nat /\ dfree d !!! i <> 0.

Lemma alloc_desc_eval s : length (dfree (vd s)) = NUM ->
  (exists i, isfree (vd s) i /\ alloc_desc s = Ok (Z.of_nat i) {| vk := vk s; vd := taken i (vd s) |}) \/
  ((forall i, ~ isfree (vd s) i) /\ alloc_desc s = Ok (-1) s).
Proof.
  intros Hl. pose proof (find_free_spec (dfree (vd s)) 0) as H.
  unfold alloc_desc, bind, getd, gets. destruct (find_free (dfree (vd s)) 0) as [i|].
  - left. exists i. destruct H as [Hi Hf]. rewrite Nat.sub_0_r in Hf. rewrite Hl in Hi. split; [split; [lia|done]|done].
  - right. split; [|done]. intros i [Hi Hf]. apply Hf, H. lia.
Qed.

Lemma isfree_taken d i j : length (dfree d) = NUM -> isfree (taken i d) j <-> isfree d j /\ j <> i.
Proof.
  intros Hl. unfold isfree, taken. cbn [dfree]. split.
  - intros [Hj Hf]. destruct (decide (i = j)) as [->|Hne].
    + rewrite list_lookup_total_insert, decide_True in Hf by (split; [done|lia]). done.
    + rewrite list_lookup_total_insert_ne in Hf by done. split; [done|congruence].
  - intros [[Hj Hf] Hne]. split; [done|]. by rewrite list_lookup_total_insert_ne.
Qed.
Lemma isfree_freed d i j : length (dfree d) = NUM -> (i < NUM)%nat -> isfree (freed i d) j <-> isfree d j \/ j = i.
Proof.
  intros Hl Hi. unfold isfree, freed. cbn [dfree]. destruct (decide (i = j)) as [->|Hne].
  - rewrite list_lookup_total_insert, decide_True by (split; [done|lia]). naive_solver.
  - rewrite list_lookup_total_insert_ne by done. naive_solver.
Qed.

(** [d] is [d0] with the free descriptors [L] lent: the other free descriptors are still free,
    and the ones in use are as they were. *)
Record lent (d0 : disk) (L : list nat) (d : disk) : Prop := {
  le_len : length (dfree d) = NUM /\ length (desc d) = NUM;
  le_free : forall j, isfree d j <-> isfree d0 j /\ j ∉ L;
  le_from : forall j, j ∈ L -> isfree d0 j;
  le_nodup : NoDup L;
  le_desc : forall j, (j < NUM)%nat -> ~ isfree d0 j -> desc d !!! j = desc d0 !!! j;
  le_rest : d = {| {| d0 with desc := desc d |} with dfree := dfree d |} }.

Lemma lent_refl d : length (dfree d) = NUM -> length (desc d) = NUM -> lent d [] d.
Proof.
  intros H1 H2. constructor; [done| | | |done|by destruct d].
  - intros j. split; [|by intros [? _]]. intros H. split; [done|apply not_elem_of_nil].
  - intros j H. by apply elem_of_nil in H.
  - constructor.
Qed.
Lemma lent_taken d0 L d i : lent d0 L d -> isfree d i -> lent d0 (i :: L) (taken i d).
Proof.
  intros [[L1 L2] Hf Hl Hn Hd Hr] Hi. pose proof (proj1 (Hf i) Hi) as [Hi0 HiL]. constructor.
  - cbn. by rewrite length_insert.
  - intros j. rewrite isfree_taken, Hf, elem_of_cons by done. naive_solver.
  - intros j [->|Hj]%elem_of_cons; auto.
  - by constructor.
  - exact Hd.
  - unfold taken. rewrite Hr. by destruct d0.
Qed.
Lemma lent_freed d0 L1 L2 d i : lent d0 (L1 ++ i :: L2) d -> lent d0 (L1 ++ L2) (freed i d).
Proof.
  intros [[Hl1 Hl2] Hf Hl Hn Hd Hr].
  assert (Hi : isfree d0 i) by (apply Hl, elem_of_app; right; by left).
  apply NoDup_app in Hn as (N1 & N12 & N2). apply NoDup_cons in N2 as [Ni N2]. constructor.
  - cbn. by rewrite length_insert, length_alter.
  - intros j. rewrite isfree_freed, Hf by (done || by destruct Hi). rewrite !elem_of_app, elem_of_cons.
    assert (i ∉ L1) by (intros X; apply (N12 i X); by left).
    destruct (decide (j = i)) as [->|]; tauto.
  - intros j [Hj|Hj]%elem_of_app; apply Hl, elem_of_app; [by left|right; by right].
  - apply NoDup_app. split; [done|]. split; [|done]. intros x Hx Hx2. apply (N12 x Hx). by right.
  - intros j Hj Hn. assert (i <> j) by (intros <-; done). cbn.
    rewrite list_lookup_total_alter_ne by done. by apply Hd.
  - unfold freed. rewrite Hr. by destruct d0.
Qed.
Lemma lent_zero d0 L d i : lent d0 L d -> i ∈ L -> dfree d !!! i = 0.
Proof.
  intros H Hi. destruct (le_from _ _ _ H i Hi) as [Hr _]. destruct (decide (dfree d !!! i = 0)) as [|Hne]; [done|].
  destruct (proj1 (le_free _ _ _ H i) (conj Hr Hne)) as [_ []]. done.
Qed.

(** Three free descriptors, or at most two are free and nothing has changed. *)
Lemma alloc3_desc_eval s : length (dfree (vd s)) = NUM -> length (desc (vd s)) = NUM -> procs_ok (vk s) ->
  (exists i0 i1 i2 d', alloc3_desc s = Ok (Some (Z.of_nat i0, Z.of_nat i1, Z.of_nat i2)) {| vk := vk s; vd := d' |} /\
     lent (vd s) [i2; i1; i0] d' /\ desc d' = desc (vd s)) \/
  (exists k' d', alloc3_desc s = Ok None {| vk := k'; vd := d' |} /\ lent (vd s) [] d' /\
     same_io (vk s) k' /\ procs_ok k' /\
     (forall i j l, isfree (vd s) i -> isfree (vd s) j -> isfree (vd s) l -> i = j \/ i = l \/ j = l)).
Proof.
  intros Hf Hd Hp. pose proof (lent_refl _ Hf Hd) as H0. unfold alloc3_desc.
  destruct (alloc_desc_eval s Hf) as [(i0 & F0 & E0)|[N0 E0]]; rewrite (bind_ok _ _ _ _ _ E0).
  2: { right. exists (vk s), (vd s). split; [destruct s; reflexivity|]. split; [done|]. split; [done|]. split; [done|].
       intros i j l Hi. by destruct (N0 i). }
  destruct (Z.ltb_spec (Z.of_nat i0) 0) as [?|_]; [lia|]. clear E0.
  pose proof (lent_taken _ _ _ _ H0 F0) as H1. set (s1 := {| vk := vk s; vd := taken i0 (vd s) |}).
  destruct (alloc_desc_eval s1 (proj1 (le_len _ _ _ H1))) as [(i1 & F1 & E1)|[N1 E1]]; rewrite (bind_ok _ _ _ _ _ E1).
  2: { right. cbn [Z.ltb Z.compare].
       destruct (free_desc_eval i0 s1 (proj1 F0) (lent_zero _ _ _ i0 H1 ltac:(by left)) Hp) as (k' & E & Hs & Hk).
       exists k', (freed i0 (taken i0 (vd s))). rewrite (bind_ok _ _ _ _ _ E). split; [done|].
       split; [apply (lent_freed _ [] []); exact H1|]. split; [done|]. split; [done|].
       intros i j l Hi Hj _. left. destruct (decide (i = i0)) as [->|Hi0], (decide (j = i0)) as [->|Hj0]; [done|..];
         exfalso; [apply (N1 j)|apply (N1 i)|apply (N1 i)]; apply (le_free _ _ _ H1); (split; [done|set_solver]). }
  destruct (Z.ltb_spec (Z.of_nat i1) 0) as [?|_]; [lia|]. clear E1.
  pose proof (lent_taken _ _ _ _ H1 F1) as H2. set (s2 := {| vk := vk s1; vd := taken i1 (vd s1) |}).
  destruct (alloc_desc_eval s2 (proj1 (le_len _ _ _ H2))) as [(i2 & F2 & E2)|[N2 E2]]; rewrite (bind_ok _ _ _ _ _ E2).
  - left. destruct (Z.ltb_spec (Z.of_nat i2) 0) as [?|_]; [lia|]. exists i0, i1, i2. eexists. split; [reflexivity|].
    split; [by apply lent_taken|done].
  - right. cbn [Z.ltb Z.compare].
    destruct (free_desc_eval i0 s2 (proj1 F0) (lent_zero _ _ _ i0 H2 ltac:(right; by left)) Hp) as (k' & E & Hs & Hk).
    pose proof (lent_freed _ [i1] [] _ _ H2) as H3. set (s3 := {| vk := k'; vd := freed i0 (vd s2) |}).
    destruct (free_desc_eval i1 s3 (proj1 F1) (lent_zero _ _ _ i1 H3 ltac:(by left)) Hk) as (k'' & E' & Hs' & Hk').
    exists k'', (freed i1 (freed i0 (vd s2))). rewrite (bind_ok _ _ _ _ _ E). fold s3. rewrite (bind_ok _ _ _ _ _ E'). split; [done|].
    split; [apply (lent_freed _ [] []); exact H3|]. split; [by eapply same_io_trans|]. split; [done|].
    assert (Hin : forall i, isfree (vd s) i -> i = i0 \/ i = i1).
    { intros i Hi. destruct (decide (i = i0)) as [|]; [by left|]. destruct (decide (i = i1)) as [|]; [by right|].
      exfalso. apply (N2 i), (le_free _ _ _ H2). split; [done|set_solver]. }
    intros i j l [->| ->]%Hin [->| ->]%Hin [->| ->]%Hin; auto.
Qed.

(** ** The device

    What the virtio standard says of a block device with one split queue.  The device takes the
    heads of requests from the available ring in order, and finishes the requests it has taken
    in any order: it reads the chain of a request, moves the block between memory and disk,
    writes the status, and puts the head into the used ring. *)
Record vconf := mkvconf {
  c_d : disk;                   (** the structures shared with the device *)
  c_bufs : list buf; c_blocks : Z -> list Z;
  c_last : Z;                   (** how far the device has read the available ring *)
  c_fetched : list nat;         (** the heads it has taken and not finished *)
  c_wait : list (nat * nat)     (** the processes in the wait of [virtio_disk_rw]: [b], [idx[0]] *) }.

Definition dev_fetch (c : vconf) : option vconf :=
  if c_last c =? avail_idx (c_d c) then None
  else Some {| {| c with c_fetched := c_fetched c ++
      [Z.to_nat (avail_ring (c_d c) !!! Z.to_nat (c_last c mod 8))] |} with c_last := u16 (c_last c + 1) |}.

Definition flag_on (x : virtq_desc) (f : Z) : bool := negb (Z.land (d_flags x) f =? 0).

(** The request with head [h]: its buffer, whether it writes the disk, the block, and where
    the status goes; [None] if the chain is not one that the standard describes. *)
Definition dev_request (d : disk) (h : nat) : option (nat * bool * Z * nat) :=
  let d0 := desc d !!! h in
  let d1 := desc d !!! Z.to_nat (d_next d0) in
  let d2 := desc d !!! Z.to_nat (d_next d1) in
  match d_addr d0, d_addr d1, d_addr d2 with
  | VA_op o, VA_data b, VA_status m =>
      let rq := ops d !!! o in
      let w := rq_type rq =? VIRTIO_BLK_T_OUT in
      if flag_on d0 VRING_DESC_F_NEXT && flag_on d1 VRING_DESC_F_NEXT && negb (flag_on d2 VRING_DESC_F_NEXT)
         && negb (flag_on d0 VRING_DESC_F_WRITE) && Bool.eqb (flag_on d1 VRING_DESC_F_WRITE) (negb w)
         && flag_on d2 VRING_DESC_F_WRITE
         && (d_len d0 =? 16) && (d_len d1 =? BSIZE) && (d_len d2 =? 1)
         && (w || (rq_type rq =? VIRTIO_BLK_T_IN)) && (rq_sector rq mod 2 =? 0)
      then Some (b, w, rq_sector rq / 2, m) else None
  | _, _, _ => None
  end.

(** The driver's data after the request with head [h] and status at [m]. *)
Definition finished (h m : nat) (d : disk) : disk :=
  {| {| {| d with info := alter (fun i => {| i with in_status := 0 |}) m (info d) |}
     with used_ring := <[Z.to_nat (used_idx_dev d mod 8) := Z.of_nat h]> (used_ring d) |}
     with used_idx_dev := u16 (used_idx_dev d + 1) |}.

Definition dev_serve (c : vconf) (n : nat) : option (nat * bool * vconf) :=
  match c_fetched c !! n with
  | Some h =>
      match dev_request (c_d c) h with
      | Some (b, w, blk, m) => Some (b, w,
          mkvconf (finished h m (c_d c))
            (if w : bool then c_bufs c else alter (fun x => {| x with b_data := c_blocks c blk |}) b (c_bufs c))
            (if w : bool then fun x => if x =? blk then b_data (c_bufs c !!! b) else c_blocks c x else c_blocks c)
            (c_last c) (delete n (c_fetched c)) (c_wait c))
      | None => None
      end
  | None => None
  end.

(** ** Steps *)
Inductive vevent := EvSubmit (b : nat) (w : bool) | EvServe (b : nat) (w : bool) | EvReturn (b : nat).

(** A kernel state in which the driver may run: the buffers and the disk are those of [c], and
    the rest is as it happens to be. *)
Definition seen (k : kstate) (c : vconf) : Prop :=
  bufs k = c_bufs c /\ disk_blocks k = c_blocks c /\ length (procs k) = NPROC.
Definition caller (k : kstate) (i : nat) (h : list lockid) : Prop :=
  cur k = Some i /\ (i < NPROC)%nat /\ held k = h.
Definition back (c : vconf) (s : vstate) : vconf :=
  {| {| {| c with c_d := vd s |} with c_bufs := bufs (vk s) |} with c_blocks := disk_blocks (vk s) |}.
Definition with_wait (l : list (nat * nat)) (c : vconf) : vconf := {| c with c_wait := l |}.

(** A buffer that may be handed to the driver: the caller holds its sleep lock, so no other
    process has handed it over, and it names a block of the disk. *)
Definition may_transfer (c : vconf) (b : nat) : Prop :=
  (b < length (c_bufs c))%nat /\ b ∉ (c_wait c).*1 /\ 0 <= b_blockno (c_bufs c !!! b) < 2 ^ 31.
Definition sector_of (x : buf) : Z := u32 (b_blockno x * (BSIZE / 512)).

(** The rest of the kernel changes only buffers that no request refers to, or in ways the
    driver does not see (the reference count, the lock). *)
Definition same_request (x y : buf) : Prop :=
  b_data x = b_data y /\ b_blockno x = b_blockno y /\ b_disk x = b_disk y.
Definition env_ok (c : vconf) (bs : list buf) : Prop :=
  length bs = length (c_bufs c) /\
  forall b, b ∈ (c_wait c).*1 -> same_request (bs !!! b) (c_bufs c !!! b).

Section Device.
(** The device, as a relation with a label for the transfers; it does what the standard
    allows, and anything at all on a request that the standard does not describe. *)
Context (dev : vconf -> option (nat * bool) -> vconf -> Prop).
Definition device_conforms : Prop := forall c l c', dev c l c' ->
  (dev_fetch c = Some c' /\ l = None) \/
  (exists n h, c_fetched c !! n = Some h /\
     (dev_request (c_d c) h = None \/ exists b w, dev_serve c n = Some (b, w, c') /\ l = Some (b, w))).

Inductive vstep (c : vconf) : option vevent -> vconf -> Prop :=
| V_submit k i b w i0 i1 i2 s1 s2 :     (* [virtio_disk_rw], or a process that waited for descriptors *)
    seen k c -> caller k i [L_vdisk] -> may_transfer c b ->
    alloc3_desc {| vk := k; vd := c_d c |} = Ok (Some (i0, i1, i2)) s1 ->
    (vrw_submit b w (sector_of (c_bufs c !!! b)) i0 i1 i2;; vrw_wait b i0) s1 = Block s2 ->
    vstep c (Some (EvSubmit b w)) (with_wait ((b, Z.to_nat i0) :: c_wait c) (back c s2))
| V_nodesc k i s1 s2 :
    seen k c -> caller k i [L_vdisk] ->
    alloc3_desc {| vk := k; vd := c_d c |} = Ok None s1 ->
    kern (sleep C_disk_free L_vdisk) s1 = Block s2 ->
    vstep c None (back c s2)
| V_intr k h istatus s2 :
    seen k c -> held k = h -> L_vdisk ∉ h -> others_unlocked k ->
    virtio_disk_intr istatus {| vk := k; vd := c_d c |} = Ok tt s2 ->
    vstep c None (back c s2)
| V_again k i b i0 s2 :
    seen k c -> caller k i [L_proc i] -> (b, i0) ∈ c_wait c ->
    vrw_wait_resume b (Z.of_nat i0) {| vk := k; vd := c_d c |} = Block s2 ->
    vstep c None (back c s2)
| V_return k i b i0 l1 l2 s2 :
    seen k c -> caller k i [L_proc i] -> c_wait c = l1 ++ (b, i0) :: l2 ->
    vrw_wait_resume b (Z.of_nat i0) {| vk := k; vd := c_d c |} = Ok tt s2 ->
    vstep c (Some (EvReturn b)) (with_wait (l1 ++ l2) (back c s2))
| V_device l c' : dev c l c' ->
    vstep c (match l with Some (b, w) => Some (EvServe b w) | None => None end) c'
| V_env bs : env_ok c bs -> vstep c None {| c with c_bufs := bs |}.

Inductive vsteps (c0 : vconf) : list vevent -> vconf -> Prop :=
| vsteps_refl : vsteps c0 [] c0
| vsteps_step tr c l c' : vsteps c0 tr c -> vstep c l c' -> vsteps c0 (tr ++ option_list l) c'.
End Device.

(** ** The invariant

    The requests in flight are in four groups, by how far they have come: in the available
    ring, taken by the device, in the used ring, and acknowledged by [virtio_disk_intr] with
    the process not yet awake. *)
Record vreq := mkvreq { r_b : nat; r_w : bool; r_i0 : nat; r_i1 : nat; r_i2 : nat }.
Definition dids (r : vreq) : list nat := [r_i0 r; r_i1 r; r_i2 r].
Definition rwait (r : vreq) : nat * nat := (r_b r, r_i0 r).

(** The driver's data for a request, with its status and sector. *)
Record fmt_d (d : disk) (st sec : Z) (r : vreq) : Prop := {
  fd_0 : desc d !!! r_i0 r = mkdesc (VA_op (r_i0 r)) 16 VRING_DESC_F_NEXT (Z.of_nat (r_i1 r));
  fd_1 : desc d !!! r_i1 r = mkdesc (VA_data (r_b r)) BSIZE
           (Z.lor (if r_w r then 0 else VRING_DESC_F_WRITE) VRING_DESC_F_NEXT) (Z.of_nat (r_i2 r));
  fd_2 : desc d !!! r_i2 r = mkdesc (VA_status (r_i0 r)) 1 VRING_DESC_F_WRITE 0;
  fd_op : ops d !!! r_i0 r = mkreq (if r_w r then VIRTIO_BLK_T_OUT else VIRTIO_BLK_T_IN) 0 sec;
  fd_info : info d !!! r_i0 r = mkinfo (Some (r_b r)) st }.
Definition fmt_b (bs : list buf) (dk : Z) (r : vreq) : Prop :=
  (r_b r < length bs)%nat /\ b_disk (bs !!! r_b r) = dk /\ 0 <= b_blockno (bs !!! r_b r) < 2 ^ 31.
Definition fmt (d : disk) (bs : list buf) (st dk : Z) (r : vreq) : Prop :=
  fmt_d d st (sector_of (bs !!! r_b r)) r /\ fmt_b bs dk r.

(** What holds of the requests in flight whatever their order. *)
Record vall (d : disk) (wait : list (nat * nat)) (rs : list vreq) : Prop := {
  va_len : length (dfree d) = NUM /\ length (desc d) = NUM /\ length (info d) = NUM /\ length (ops d) = NUM;
  va_ids : NoDup (rs ≫= dids);
  va_range : forall i, i ∈ rs ≫= dids -> (i < NUM)%nat;
  va_free : forall i, isfree d i <-> (i < NUM)%nat /\ i ∉ rs ≫= dids;
  va_bufs : NoDup (r_b <$> rs);
  va_wait : wait ≡ₚ rwait <$> rs }.

Record vinv (c : vconf) (qa fe qu qk : list vreq) : Prop := {
  vi_all : vall (c_d c) (c_wait c) (qa ++ fe ++ qu ++ qk);
  vi_qa : Forall (fmt (c_d c) (c_bufs c) 0xff 1) (qa ++ fe);
  vi_qu : Forall (fmt (c_d c) (c_bufs c) 0 1) qu;
  vi_qk : Forall (fmt (c_d c) (c_bufs c) 0 0) qk;
  vi_avail : ring_at (avail_ring (c_d c)) (c_last c) (r_i0 <$> qa) /\
             window (c_last c) (avail_idx (c_d c)) (r_i0 <$> qa);
  vi_used : ring_at (used_ring (c_d c)) (used_idx (c_d c)) (r_i0 <$> qu) /\
            window (used_idx (c_d c)) (used_idx_dev (c_d c)) (r_i0 <$> qu);
  vi_fetched : c_fetched c = r_i0 <$> fe }.

Lemma vall_perm d w rs rs' : rs ≡ₚ rs' -> vall d w rs -> vall d w rs'.
Proof.
  intros E [Hl Hi Hr Hf Hb Hw]. assert (E' : rs ≫= dids ≡ₚ rs' ≫= dids) by by rewrite E.
  constructor; [done|by rewrite <-E'| | |by rewrite <-E|by rewrite <-E].
  - intros i. rewrite <-E'. apply Hr.
  - intros i. by rewrite <-E'.
Qed.

Lemma length_dids rs : length (rs ≫= dids) = (3 * length rs)%nat.
Proof. induction rs as [|r rs IH]; [done|]. cbn [mbind list_bind dids app length]. cbn in IH. rewrite IH. lia. Qed.

(** Three descriptors for each request: at most two requests are in flight. *)
Lemma vall_few d w rs : vall d w rs -> (length rs <= 2)%nat.
Proof.
  intros H. assert (Hle : (length (rs ≫= dids) <= length (seq 0 NUM))%nat).
  { apply submseteq_length, NoDup_submseteq; [apply (va_ids _ _ _ H)|]. intros i Hi.
    apply (va_range _ _ _ H) in Hi. apply elem_of_seq. lia. }
  rewrite length_dids, length_seq in Hle. unfold NUM in Hle. lia.
Qed.

Lemma elem_of_dids rs r i : r ∈ rs -> i ∈ dids r -> i ∈ rs ≫= dids.
Proof. intros Hr Hi. apply list_elem_of_bind. eauto. Qed.

(** Two requests with a descriptor or a buffer in common are the same. *)
Lemma vall_ids_inj d w l1 r l2 r' i : vall d w (l1 ++ r :: l2) -> r' ∈ l1 ++ l2 -> i ∈ dids r -> i ∉ dids r'.
Proof.
  intros H Hr Hi Hi'. assert (E : l1 ++ r :: l2 ≡ₚ r :: (l1 ++ l2)) by solve_Permutation.
  pose proof (va_ids _ _ _ (vall_perm _ _ _ _ E H)) as N. rewrite bind_cons in N.
  apply NoDup_app in N as (_ & N & _). apply (N i Hi). by eapply elem_of_dids.
Qed.
Lemma vall_buf_inj d w l1 r l2 r' : vall d w (l1 ++ r :: l2) -> r' ∈ l1 ++ l2 -> r_b r <> r_b r'.
Proof.
  intros H Hr Hb. assert (E : l1 ++ r :: l2 ≡ₚ r :: (l1 ++ l2)) by solve_Permutation.
  pose proof (va_bufs _ _ _ (vall_perm _ _ _ _ E H)) as N. rewrite fmap_cons in N.
  apply NoDup_cons in N as [N _]. apply N. rewrite Hb. by apply list_elem_of_fmap_2.
Qed.

(** A request keeps its form when its part of the data does. *)
Definition agree (d d' : disk) (r : vreq) : Prop :=
  (forall i, i ∈ dids r -> desc d' !!! i = desc d !!! i) /\
  ops d' !!! r_i0 r = ops d !!! r_i0 r /\ info d' !!! r_i0 r = info d !!! r_i0 r.
Lemma fmt_frame d d' bs bs' st dk r : agree d d' r -> length bs' = length bs ->
  b_blockno (bs' !!! r_b r) = b_blockno (bs !!! r_b r) -> b_disk (bs' !!! r_b r) = b_disk (bs !!! r_b r) ->
  fmt d bs st dk r -> fmt d' bs' st dk r.
Proof.
  intros (Ad & Ao & Ai) Hl Hb Hk [[F0 F1 F2 Fo Fi] (B1 & B2 & B3)]. split.
  - constructor; [by rewrite Ad by set_solver|by rewrite Ad by set_solver|by rewrite Ad by set_solver| |by rewrite Ai].
    rewrite Ao, Fo. unfold sector_of. by rewrite Hb.
  - split; [by rewrite Hl|]. rewrite Hk, Hb. done.
Qed.
Lemma agree_refl d r : agree d d r.
Proof. by split. Qed.

(** ** The operations keep the invariant *)

(** The driver's data with a request put in place. *)
Definition placed (r : vreq) (sec : Z) (d : disk) : disk :=
  mkdisk
    (alter (fun _ => mkdesc (VA_status (r_i0 r)) 1 VRING_DESC_F_WRITE 0) (r_i2 r)
      (alter (fun _ => mkdesc (VA_data (r_b r)) BSIZE
          (Z.lor (if r_w r then 0 else VRING_DESC_F_WRITE) VRING_DESC_F_NEXT) (Z.of_nat (r_i2 r))) (r_i1 r)
        (alter (fun _ => mkdesc (VA_op (r_i0 r)) 16 VRING_DESC_F_NEXT (Z.of_nat (r_i1 r))) (r_i0 r) (desc d))))
    (u16 (avail_idx d + 1)) (<[Z.to_nat (avail_idx d mod 8) := Z.of_nat (r_i0 r)]> (avail_ring d))
    (used_idx_dev d) (used_ring d) (dfree d) (used_idx d)
    (alter (fun i => {| i with in_b := Some (r_b r) |}) (r_i0 r)
      (alter (fun i => {| i with in_status := 0xff |}) (r_i0 r) (info d)))
    (<[r_i0 r := mkreq (if r_w r then VIRTIO_BLK_T_OUT else VIRTIO_BLK_T_IN) 0 sec]> (ops d))
    (mmio d ++ [(VIRTIO_MMIO_QUEUE_NOTIFY, 0)]).

Definition busy (x : buf) : buf := {| x with b_disk := 1 |}.

Lemma vrw_submit_eval r sec s :
  vrw_submit (r_b r) (r_w r) sec (Z.of_nat (r_i0 r)) (Z.of_nat (r_i1 r)) (Z.of_nat (r_i2 r)) s =
    Ok tt {| vk := set_bufs (alter busy (r_b r) (bufs (vk s))) (vk s); vd := placed r sec (vd s) |}.
Proof. unfold vrw_submit, placed. rewrite !Nat2Z.id. reflexivity. Qed.

Definition sleeping (c : chan) (i : nat) (k : kstate) : kstate :=
  set_held [L_proc i] (set_procs (alter (asleep c) i (procs k)) k).

Lemma sleep_vdisk c k i d : caller k i [L_vdisk] -> length (procs k) = NPROC ->
  kern (sleep c L_vdisk) {| vk := k; vd := d |} = Block {| vk := sleeping c i k; vd := d |}.
Proof.
  intros (Hc & Hi & Hh) Hl. unfold kern. cbn [vk]. by rewrite (sleep_eval c L_vdisk k i) by (done || lia).
Qed.

Lemma vrw_wait_sleeps b i0 k i d : caller k i [L_vdisk] -> length (procs k) = NPROC ->
  b_disk (bufs k !!! b) = 1 ->
  vrw_wait b i0 {| vk := k; vd := d |} = Block {| vk := sleeping (C_buf b) i k; vd := d |}.
Proof.
  intros Hc Hl Hb. unfold vrw_wait. rewrite (bind_ok _ _ _ (bufs k !!! b) {| vk := k; vd := d |}) by done.
  rewrite Hb. by apply sleep_vdisk.
Qed.

Lemma caller_procs_ok k i : caller k i [L_vdisk] -> length (procs k) = NPROC -> procs_ok k.
Proof.
  intros (_ & _ & Hh) Hl. split; [done|]. intros j _ _. rewrite Hh.
  intros [?|?%elem_of_nil]%elem_of_cons; [congruence|done].
Qed.

(** *** A new request *)
Lemma placed_fmt r sec d : length (desc d) = NUM -> length (info d) = NUM -> length (ops d) = NUM ->
  NoDup (dids r) -> Forall (fun i => i < NUM)%nat (dids r) -> fmt_d (placed r sec d) 0xff sec r.
Proof.
  intros Hd Hi Ho (N0 & (N1 & _)%NoDup_cons)%NoDup_cons (R0 & (R1 & (R2 & _)%Forall_cons)%Forall_cons)%Forall_cons.
  rewrite !not_elem_of_cons in N0. rewrite not_elem_of_cons in N1. destruct N0 as (N01 & N02 & _), N1 as [N12 _].
  unfold placed. constructor; cbn [desc ops info].
  - rewrite !list_lookup_total_alter_ne by done. by rewrite list_lookup_total_alter_eq by lia.
  - rewrite list_lookup_total_alter_ne by done. by rewrite list_lookup_total_alter_eq by (rewrite length_alter; lia).
  - by rewrite list_lookup_total_alter_eq by (rewrite !length_alter; lia).
  - by rewrite list_lookup_total_insert, decide_True by (split; [done|lia]).
  - by rewrite !list_lookup_total_alter_eq by (rewrite ?length_alter; lia).
Qed.

Lemma placed_agree r sec d r' : (forall i, i ∈ dids r -> i ∉ dids r') -> agree d (placed r sec d) r'.
Proof.
  intros Hn. assert (H0 : r_i0 r <> r_i0 r') by (intros E; apply (Hn (r_i0 r)); [left|rewrite E; left]).
  split; [|split]; cbn [placed desc ops info].
  - intros i Hi. rewrite !list_lookup_total_alter_ne; [done|..]; intros <-; eapply Hn; try exact Hi; set_solver.
  - by rewrite list_lookup_total_insert_ne.
  - by rewrite !list_lookup_total_alter_ne.
Qed.

Lemma lent_agree d0 L d r : lent d0 L d -> (forall i, i ∈ dids r -> (i < NUM)%nat /\ ~ isfree d0 i) -> agree d0 d r.
Proof.
  intros H Hr. rewrite (le_rest _ _ _ H). split; [|done]. intros i Hi. cbn [desc].
  apply (le_desc _ _ _ H); by apply Hr.
Qed.

Lemma vall_lent d d' w rs : vall d w rs -> lent d [] d' -> vall d' w rs.
Proof.
  intros [(L1 & L2 & L3 & L4) Hi Hr Hf Hb Hw] H. constructor; [|done|done| |done|done].
  - destruct (le_len _ _ _ H). rewrite (le_rest _ _ _ H). done.
  - intros i. rewrite (le_free _ _ _ H), Hf. split; [tauto|]. intros X. split; [done|apply not_elem_of_nil].
Qed.

Lemma vall_busy d w rs r i : vall d w rs -> r ∈ rs -> i ∈ dids r -> (i < NUM)%nat /\ ~ isfree d i.
Proof.
  intros H Hr Hi. assert (Hin : i ∈ rs ≫= dids) by (by eapply elem_of_dids).
  split; [by apply (va_range _ _ _ H)|]. rewrite (va_free _ _ _ H). tauto.
Qed.

(** The buffers of the other requests are untouched by a change of one buffer. *)
Lemma fmt_alter d d' bs f b st dk r : agree d d' r -> r_b r <> b ->
  fmt d bs st dk r -> fmt d' (alter f b bs) st dk r.
Proof.
  intros Ha Hb. apply fmt_frame; [done|by rewrite length_alter|..]; by rewrite list_lookup_total_alter_ne.
Qed.

Lemma Forall_fmt d d' bs bs' st dk rs : (forall r, r ∈ rs -> fmt d bs st dk r -> fmt d' bs' st dk r) ->
  Forall (fmt d bs st dk) rs -> Forall (fmt d' bs' st dk) rs.
Proof. intros H HF. apply Forall_forall. intros r Hr. apply H; [done|]. by eapply Forall_forall in HF. Qed.

Lemma vall_submit d d' d1 w rs r sec : vall d w rs -> lent d [r_i2 r; r_i1 r; r_i0 r] d1 -> r_b r ∉ w.*1 ->
  d' = placed r sec d1 -> vall d' (rwait r :: w) (r :: rs).
Proof.
  intros [(L1 & L2 & L3 & L4) Hi Hr Hf Hb Hw] Hlent Hnew ->.
  assert (Hd : forall i, i ∈ dids r <-> i ∈ [r_i2 r; r_i1 r; r_i0 r]) by (intros i; unfold dids; set_solver).
  pose proof (le_nodup _ _ _ Hlent) as Hnd. destruct (le_len _ _ _ Hlent) as [M1 M2]. constructor.
  - cbn. rewrite !length_alter, length_insert. rewrite (le_rest _ _ _ Hlent). done.
  - rewrite bind_cons. apply NoDup_app. split; [|split; [|done]].
    + assert (dids r ≡ₚ [r_i2 r; r_i1 r; r_i0 r]) as -> by (unfold dids; solve_Permutation). done.
    + intros i Hir. apply Hd in Hir. apply (le_from _ _ _ Hlent) in Hir. by apply Hf in Hir as [_ ?].
  - intros i. rewrite bind_cons, elem_of_app, Hd. intros [Hir|Hir]; [|by apply Hr].
    by destruct (le_from _ _ _ Hlent i Hir).
  - intros i. change (isfree (placed r sec d1) i) with (isfree d1 i).
    rewrite (le_free _ _ _ Hlent), Hf, bind_cons, elem_of_app, Hd. tauto.
  - rewrite fmap_cons. apply NoDup_cons. split; [|done]. intros Hin. apply Hnew. rewrite Hw.
    rewrite <-list_fmap_compose. exact Hin.
  - rewrite fmap_cons. by apply Permutation_skip.
Qed.

(** The disk and the data of the buffers are as they were. *)
Definition same_data (c : vconf) (s : vstate) : Prop :=
  disk_blocks (vk s) = c_blocks c /\ forall b, b_data (bufs (vk s) !!! b) = b_data (c_bufs c !!! b).
Definition locked_in (c : vconf) (k : kstate) (i : nat) : Prop := seen k c /\ caller k i [L_vdisk].

(** A call with the lock held either finds no three free descriptors, and sleeps with nothing
    changed, or hands over its request and sleeps. *)
Lemma nodesc_inv c qa fe qu qk k i s1 : vinv c qa fe qu qk -> locked_in c k i ->
  alloc3_desc {| vk := k; vd := c_d c |} = Ok None s1 ->
  exists s2, kern (sleep C_disk_free L_vdisk) s1 = Block s2 /\ vinv (back c s2) qa fe qu qk /\ same_data c s2.
Proof.
  intros [Hall Hqa Hqu Hqk Hav Hus Hfe] [(Eb & Ek & Hl) Hc] E.
  destruct (va_len _ _ _ Hall) as (L1 & L2 & _).
  destruct (alloc3_desc_eval {| vk := k; vd := c_d c |} L1 L2 (caller_procs_ok k i Hc Hl))
    as [(?&?&?&?&E'&_)|(k' & d' & E' & Hlent & (Sb & Sk & Sh & Sc) & [Hl' _] & _)]; rewrite E' in E; [discriminate E|].
  injection E as <-. cbn [vk vd] in *. destruct Hc as (Hcur & Hi & Hh).
  eexists. split; [apply (sleep_vdisk _ _ i); [|done]; split; [congruence|]; split; [done|congruence]|].
  split; [|split; [cbn; congruence|]; intros b; cbn; congruence].
  assert (Hag : forall r, r ∈ qa ++ fe ++ qu ++ qk -> agree (c_d c) d' r).
  { intros r Hr. eapply lent_agree; [exact Hlent|]. intros j. by eapply vall_busy. }
  assert (Hfmt : forall st dk r, r ∈ qa ++ fe ++ qu ++ qk -> fmt (c_d c) (c_bufs c) st dk r -> fmt d' (bufs k') st dk r).
  { intros st dk r Hr. apply fmt_frame; [by apply Hag|congruence|by rewrite Sb, Eb|by rewrite Sb, Eb]. }
  pose proof (le_rest _ _ _ Hlent) as Hrest.
  constructor; cbn [back c_d c_bufs c_last c_fetched c_wait vd vk sleeping bufs set_held set_procs];
    [by eapply vall_lent| | | |rewrite Hrest; exact Hav|rewrite Hrest; exact Hus|done];
    (eapply Forall_fmt; [|eassumption]); intros r Hr; apply Hfmt; set_solver.
Qed.

Lemma submit_inv c qa fe qu qk k i b w i0 i1 i2 s1 : vinv c qa fe qu qk -> locked_in c k i -> may_transfer c b ->
  alloc3_desc {| vk := k; vd := c_d c |} = Ok (Some (i0, i1, i2)) s1 ->
  exists s2 r, (vrw_submit b w (sector_of (c_bufs c !!! b)) i0 i1 i2;; vrw_wait b i0) s1 = Block s2 /\
    r_b r = b /\ r_w r = w /\ same_data c s2 /\
    vinv (with_wait ((b, Z.to_nat i0) :: c_wait c) (back c s2)) (qa ++ [r]) fe qu qk.
Proof.
  intros [Hall Hqa Hqu Hqk Hav Hus Hfe] [(Eb & Ek & Hl) Hc] (Mb & Mn & Mk) E.
  destruct (va_len _ _ _ Hall) as (L1 & L2 & L3 & L4).
  destruct (alloc3_desc_eval {| vk := k; vd := c_d c |} L1 L2 (caller_procs_ok k i Hc Hl))
    as [(j0&j1&j2&d1&E'&Hlent&Hd1)|(k' & d' & E' & _)]; rewrite E' in E; [|discriminate E].
  injection E as <- <- <- <-. cbn [vk vd] in *. set (r := mkvreq b w j0 j1 j2).
  set (sec := sector_of (c_bufs c !!! b)). set (k2 := set_bufs (alter busy b (bufs k)) k).
  exists {| vk := sleeping (C_buf b) i k2; vd := placed r sec d1 |}, r. split.
  { rewrite (bind_ok _ _ _ _ _ (vrw_submit_eval r sec {| vk := k; vd := d1 |})). cbn [vk vd].
    apply (vrw_wait_sleeps b _ k2 i); [exact Hc|done|]. cbn [bufs k2 set_bufs].
    by rewrite list_lookup_total_alter_eq by (rewrite Eb; done). }
  split; [done|]. split; [done|]. split.
  { split; [exact Ek|]. intros b'. cbn [vk sleeping k2 bufs set_held set_procs set_bufs]. rewrite Eb.
    destruct (decide (b = b')) as [<-|]; [by rewrite list_lookup_total_alter_eq|by rewrite list_lookup_total_alter_ne]. }
  assert (Hdis : forall r', r' ∈ qa ++ fe ++ qu ++ qk -> forall j, j ∈ dids r -> j ∉ dids r').
  { intros r' Hr' j Hj Hj'. destruct (vall_busy _ _ _ _ _ Hall Hr' Hj') as [_ []].
    apply (le_from _ _ _ Hlent). unfold dids in Hj. cbn [r r_i0 r_i1 r_i2] in Hj. set_solver. }
  assert (Hnb : forall r', r' ∈ qa ++ fe ++ qu ++ qk -> r_b r' <> b).
  { intros r' Hr' Hb'. apply Mn. rewrite (va_wait _ _ _ Hall), <-list_fmap_compose, <-Hb'.
    by apply (list_elem_of_fmap_2 (fst ∘ rwait)). }
  assert (Hfmt : forall st dk r', r' ∈ qa ++ fe ++ qu ++ qk -> fmt (c_d c) (c_bufs c) st dk r' ->
    fmt (placed r sec d1) (alter busy b (bufs k)) st dk r').
  { intros st dk r' Hr' Hf. apply fmt_alter with (d := d1); [by apply placed_agree, Hdis|by apply Hnb|].
    revert Hf. apply fmt_frame; [|by rewrite Eb..]. eapply lent_agree; [exact Hlent|]. intros j. by eapply vall_busy. }
  assert (Hr0 : fmt (placed r sec d1) (alter busy b (bufs k)) 0xff 1 r).
  { pose proof (le_nodup _ _ _ Hlent) as Hnd. rewrite (le_rest _ _ _ Hlent).
    split; [|split; [cbn [r r_b]; rewrite length_alter, Eb; exact Mb|]]; cbn [r_b r];
      rewrite !list_lookup_total_alter_eq by (rewrite Eb; done); [|rewrite Eb; done].
    unfold sec, sector_of. cbn [busy b_blockno]. rewrite Eb. apply placed_fmt; cbn; try done.
    - by destruct (le_len _ _ _ Hlent).
    - unfold dids. cbn. assert ([j0; j1; j2] ≡ₚ [j2; j1; j0]) as -> by solve_Permutation. done.
    - apply Forall_forall. intros j Hj. apply (le_from _ _ _ Hlent). unfold dids in Hj. cbn [r_i0 r_i1 r_i2] in Hj. set_solver. }
  pose proof (le_rest _ _ _ Hlent) as Hrest. pose proof (vall_few _ _ _ Hall) as Hfew.
  rewrite !length_app in Hfew. destruct Hav as [Hav1 Hav2].
  constructor; cbn [with_wait back c_d c_bufs c_last c_fetched c_wait vd vk sleeping k2 bufs set_held set_procs set_bufs placed avail_ring avail_idx used_ring used_idx used_idx_dev].
  - rewrite Nat2Z.id. eapply vall_perm; [|apply (vall_submit _ _ _ _ _ r sec Hall Hlent Mn eq_refl)].
    solve_Permutation.
  - rewrite <-app_assoc. rewrite Forall_app in Hqa. destruct Hqa as [Hq1 Hq2]. rewrite !Forall_app. split; [|split].
    + eapply Forall_fmt; [|exact Hq1]. intros; apply Hfmt; set_solver.
    + by apply Forall_singleton.
    + eapply Forall_fmt; [|exact Hq2]. intros; apply Hfmt; set_solver.
  - eapply Forall_fmt; [|exact Hqu]. intros; apply Hfmt; set_solver.
  - eapply Forall_fmt; [|exact Hqk]. intros; apply Hfmt; set_solver.
  - rewrite fmap_app, Hrest. cbn [avail_ring avail_idx]. split; [|by apply window_push].
    destruct Hav2 as [_ ->]. apply ring_push; [done|]. rewrite length_fmap. unfold NUM. lia.
  - rewrite Hrest. exact Hus.
  - done.
Qed.

(** *** The interrupt *)
Definition idle (x : buf) : buf := {| x with b_disk := 0 |}.

(** Which requests are in flight and what they look like do not depend on the rings. *)
Lemma vall_rings d d' w rs : desc d' = desc d -> dfree d' = dfree d -> info d' = info d -> ops d' = ops d ->
  vall d w rs -> vall d' w rs.
Proof.
  intros E1 E2 E3 E4 [Hl Hi Hr Hf Hb Hw]. constructor; [by rewrite E1, E2, E3, E4|done|done| |done|done].
  intros i. unfold isfree. rewrite E2. apply Hf.
Qed.

Lemma intr_step c qa fe r qu qk s : vinv (back c s) qa fe (r :: qu) qk -> procs_ok (vk s) -> forall fuel,
  exists s', intr_loop (S fuel) s = intr_loop fuel s' /\ vinv (back c s') qa fe qu (qk ++ [r]) /\
    procs_ok (vk s') /\ held (vk s') = held (vk s) /\ disk_blocks (vk s') = disk_blocks (vk s) /\
    (forall b, b_data (bufs (vk s') !!! b) = b_data (bufs (vk s) !!! b)).
Proof.
  intros Hinv Hp fuel. destruct Hinv as [Hall Hqa Hqu Hqk Hav [Hu1 Hu2] Hfe].
  cbn [back c_d c_bufs c_last c_fetched c_wait] in *. rewrite fmap_cons in Hu1, Hu2.
  pose proof (vall_few _ _ _ Hall) as Hfew. rewrite !length_app in Hfew. cbn [length] in Hfew.
  assert (Hne : used_idx (vd s) <> used_idx_dev (vd s)).
  { intros E. apply (window_empty _ _ _ Hu2) in E; [done|]. cbn [length]. rewrite length_fmap. unfold NUM. lia. }
  destruct (ring_pop _ _ _ _ Hu1) as [Hid Hu1'].
  apply Forall_cons in Hqu as [[Hd (Bl & Bd & Bn)] Hqu].
  set (k1 := set_bufs (alter idle (r_b r) (bufs (vk s))) (vk s)).
  destruct (wakeup_same (C_buf (r_b r)) k1 Hp) as (k2 & E & (Sb & Sk & Sh & Sc) & Hp2).
  set (d2 := {| (vd s) with used_idx := u16 (used_idx (vd s) + 1) |}).
  exists {| vk := k2; vd := d2 |}. split.
  { cbn [intr_loop]. unfold bind at 1, getd, gets. rewrite (proj2 (Z.eqb_neq _ _) Hne).
    change (Z.of_nat NUM) with 8. rewrite Hid, Nat2Z.id, (fd_info _ _ _ _ Hd). cbn [in_status in_b Z.eqb negb].
    unfold bind at 1, panic_if, ret. unfold bind at 1, deref. unfold bind at 1, ret.
    rewrite (kern_ok _ s tt k1) by done. unfold bind at 1. rewrite (kern_ok _ _ tt k2) by done. done. }
  assert (Hfm : forall st dk r', r' ∈ qa ++ fe ++ qu ++ qk -> fmt (vd s) (bufs (vk s)) st dk r' ->
    fmt d2 (bufs k2) st dk r').
  { intros st dk r' Hr' Hf. rewrite Sb. apply fmt_alter with (d := vd s); [by split| |done].
    assert (Hall' : vall (vd s) (c_wait c) ((qa ++ fe) ++ r :: (qu ++ qk))) by by rewrite <-app_assoc.
    intros E'. apply (vall_buf_inj _ _ _ _ _ r' Hall'); [|done]. rewrite <-app_assoc. done. }
  split; [|split; [done|split; [exact Sh|split; [exact Sk|]]]].
  - constructor; cbn [back c_d c_bufs c_last c_fetched c_wait vd vk].
    + eapply vall_rings with (d := vd s); [done..|]. eapply vall_perm; [|exact Hall]. solve_Permutation.
    + eapply Forall_fmt; [|exact Hqa]. intros; apply Hfm; set_solver.
    + eapply Forall_fmt; [|exact Hqu]. intros; apply Hfm; set_solver.
    + apply Forall_app. split; [eapply Forall_fmt; [|exact Hqk]; intros; apply Hfm; set_solver|].
      apply Forall_singleton. rewrite Sb. cbn [k1 bufs set_bufs]. split.
      * rewrite list_lookup_total_alter_eq by done. destruct Hd. by constructor.
      * split; [by rewrite length_alter|]. by rewrite list_lookup_total_alter_eq by done.
    + exact Hav.
    + cbn [d2 used_ring used_idx used_idx_dev]. split; [done|]. by eapply window_pop.
    + done.
  - intros b. cbn [vk]. rewrite Sb. cbn [k1 bufs set_bufs]. destruct (decide (r_b r = b)) as [<-|].
    + by rewrite list_lookup_total_alter_eq.
    + by rewrite list_lookup_total_alter_ne.
Qed.

Lemma intr_loop_inv c qa fe qu : forall qk s fuel, vinv (back c s) qa fe qu qk -> procs_ok (vk s) ->
  (length qu < fuel)%nat ->
  exists s', intr_loop fuel s = Ok tt s' /\ vinv (back c s') qa fe [] (qk ++ qu) /\ procs_ok (vk s') /\
    held (vk s') = held (vk s) /\ disk_blocks (vk s') = disk_blocks (vk s) /\
    (forall b, b_data (bufs (vk s') !!! b) = b_data (bufs (vk s) !!! b)).
Proof.
  induction qu as [|r qu IH]; intros qk s fuel Hinv Hp Hf; (destruct fuel as [|fuel]; [cbn in Hf; lia|]).
  - exists s. rewrite app_nil_r. split; [|done]. cbn [intr_loop]. unfold bind, getd, gets.
    destruct (vi_used _ _ _ _ _ Hinv) as [_ Hw]. cbn [back c_d] in Hw.
    rewrite (proj2 (Z.eqb_eq _ _)); [done|]. by apply (window_empty _ _ _ Hw); [cbn; lia|].
  - destruct (intr_step _ _ _ _ _ _ _ Hinv Hp fuel) as (s1 & -> & Hinv1 & Hp1 & Hh1 & Hk1 & Hb1).
    destruct (IH (qk ++ [r]) s1 fuel Hinv1 Hp1) as (s' & E & Hi & Hp' & Hh & Hk & Hb); [cbn [length] in Hf; lia|].
    exists s'. split; [done|]. rewrite <-app_assoc in Hi. split; [done|]. split; [done|].
    split; [congruence|]. split; [congruence|]. intros b. by rewrite Hb.
Qed.

Lemma intr_inv c qa fe qu qk k istatus : vinv c qa fe qu qk -> seen k c -> L_vdisk ∉ held k -> others_unlocked k ->
  exists s', virtio_disk_intr istatus {| vk := k; vd := c_d c |} = Ok tt s' /\
    vinv (back c s') qa fe [] (qk ++ qu) /\ c_blocks (back c s') = c_blocks c /\
    (forall b, b_data (c_bufs (back c s') !!! b) = b_data (c_bufs c !!! b)).
Proof.
  intros Hinv (Eb & Ek & Hl) Hh Hu. unfold virtio_disk_intr.
  rewrite (bind_ok _ _ _ tt {| vk := set_held (L_vdisk :: held k) k; vd := c_d c |})
    by (apply kern_ok, acquire_eval; done).
  set (s1 := {| vk := set_held (L_vdisk :: held k) k; vd := {| (c_d c) with
    mmio := mmio (c_d c) ++ [(VIRTIO_MMIO_INTERRUPT_ACK, Z.land istatus 3)] |} |}).
  rewrite (bind_ok _ _ _ tt s1) by done.
  assert (Hinv1 : vinv (back c s1) qa fe qu qk).
  { destruct Hinv as [Hall Hqa Hqu Hqk Hav Hus Hfe]. unfold back. cbn [s1 vd vk bufs set_held disk_blocks]. rewrite Eb.
    constructor; [by eapply vall_rings; [..|exact Hall]|..]; try done;
      (eapply Forall_fmt; [|eassumption]); intros r _; apply fmt_frame; done. }
  assert (Hp1 : procs_ok (vk s1)).
  { split; [done|]. intros j Hj Hc. cbn [s1 vk held set_held]. apply not_elem_of_cons. split; [done|]. by apply Hu. }
  pose proof (vall_few _ _ _ (vi_all _ _ _ _ _ Hinv)) as Hfew. rewrite !length_app in Hfew.
  destruct (intr_loop_inv _ _ _ _ _ _ (S NUM) Hinv1 Hp1) as (s' & E & Hi & Hp' & Hh' & Hk' & Hb'); [unfold NUM; lia|].
  rewrite (bind_ok _ _ _ _ _ E). eexists. split; [apply kern_ok, (release_eval _ (held k)); by rewrite Hh'|].
  split; [exact Hi|]. split; [cbn; rewrite Hk'; exact Ek|]. intros b. cbn. rewrite Hb'. cbn. by rewrite Eb.
Qed.

(** *** The end of a request *)
Definition ended (r : vreq) (d : disk) : disk :=
  freed (r_i2 r) (freed (r_i1 r) (freed (r_i0 r)
    {| d with info := alter (fun i => {| i with in_b := None |}) (r_i0 r) (info d) |})).

Lemma vall_cons_nodup d w r rs : vall d w (r :: rs) ->
  NoDup (dids r) /\ (forall i, i ∈ dids r -> i ∉ rs ≫= dids) /\ NoDup (rs ≫= dids).
Proof. intros H. pose proof (va_ids _ _ _ H) as N. rewrite bind_cons in N. by apply NoDup_app in N. Qed.

Lemma length_freed i d : length (dfree (freed i d)) = length (dfree d) /\ length (desc (freed i d)) = length (desc d) /\
  length (info (freed i d)) = length (info d) /\ length (ops (freed i d)) = length (ops d).
Proof. cbn. by rewrite length_insert, length_alter. Qed.
Lemma isfree_ended r d i : length (dfree d) = NUM -> Forall (fun i => i < NUM)%nat (dids r) ->
  isfree (ended r d) i <-> isfree d i \/ i ∈ dids r.
Proof.
  intros Hl (R0 & (R1 & (R2 & _)%Forall_cons)%Forall_cons)%Forall_cons. unfold ended.
  set (d1 := {| d with info := _ |}). assert (H1 : length (dfree d1) = NUM) by exact Hl.
  rewrite !isfree_freed by (rewrite ?(proj1 (length_freed _ _)); done).
  assert (isfree d1 i <-> isfree d i) as -> by reflexivity. unfold dids. rewrite !elem_of_cons, elem_of_nil. tauto.
Qed.

Lemma ended_vall d w w' r rs : vall d w (r :: rs) -> w ≡ₚ rwait r :: w' -> vall (ended r d) w' rs.
Proof.
  intros H Hw. destruct (vall_cons_nodup _ _ _ _ H) as (_ & Hdis & Hnd).
  destruct H as [(L1 & L2 & L3 & L4) Hi Hr Hf Hb Hwt].
  assert (Hlt : forall i, i ∈ dids r -> (i < NUM)%nat) by (intros i X; apply Hr; rewrite bind_cons; set_solver).
  constructor.
  - unfold ended. set (d1 := {| d with info := _ |}).
    destruct (length_freed (r_i2 r) (freed (r_i1 r) (freed (r_i0 r) d1))) as (-> & -> & -> & ->).
    destruct (length_freed (r_i1 r) (freed (r_i0 r) d1)) as (-> & -> & -> & ->).
    destruct (length_freed (r_i0 r) d1) as (-> & -> & -> & ->). cbn [d1 dfree desc info ops]. by rewrite length_alter.
  - done.
  - intros i X. apply Hr. rewrite bind_cons. apply elem_of_app. by right.
  - intros i. rewrite isfree_ended, Hf, bind_cons, elem_of_app by (done || by apply Forall_forall).
    specialize (Hlt i). specialize (Hdis i). destruct (decide (i ∈ dids r)); tauto.
  - rewrite fmap_cons in Hb. by apply NoDup_cons in Hb as [_ ?].
  - rewrite Hw, fmap_cons in Hwt. by apply Permutation_cons_inv in Hwt.
Qed.

Lemma agree_trans d1 d2 d3 r : agree d1 d2 r -> agree d2 d3 r -> agree d1 d3 r.
Proof.
  intros (A1 & A2 & A3) (B1 & B2 & B3). split; [|split; [by rewrite B2|by rewrite B3]].
  intros i Hi. by rewrite B1, A1.
Qed.
Lemma freed_agree i d r : i ∉ dids r -> agree d (freed i d) r.
Proof.
  intros Hn. split; [|done]. intros j Hj. cbn [freed desc]. rewrite list_lookup_total_alter_ne; [done|].
  by intros ->.
Qed.
Lemma ended_agree r d r' : (forall i, i ∈ dids r -> i ∉ dids r') -> agree d (ended r d) r'.
Proof.
  intros Hn. assert (H0 : r_i0 r <> r_i0 r') by (intros E; apply (Hn (r_i0 r)); [left|rewrite E; left]).
  unfold ended. set (d1 := {| d with info := _ |}). apply agree_trans with (d2 := d1).
  { split; [done|]. split; [done|]. cbn [d1 info]. by rewrite list_lookup_total_alter_ne. }
  eapply agree_trans; [apply freed_agree, Hn; left|]. eapply agree_trans; [apply freed_agree, Hn; right; left|].
  apply freed_agree, Hn. right; right; left.
Qed.

Lemma vrw_wait_done r k d sec w rs i : vall d w (r :: rs) -> fmt_d d 0 sec r -> caller k i [L_vdisk] ->
  length (procs k) = NPROC -> b_disk (bufs k !!! r_b r) = 0 ->
  exists k', vrw_wait (r_b r) (Z.of_nat (r_i0 r)) {| vk := k; vd := d |} = Ok tt {| vk := k'; vd := ended r d |} /\
    bufs k' = bufs k /\ disk_blocks k' = disk_blocks k.
Proof.
  intros Hall Hd Hc Hl Hb. destruct (vall_cons_nodup _ _ _ _ Hall) as (Hnd & _ & _).
  assert (Hbusy : forall j, j ∈ dids r -> (j < NUM)%nat /\ dfree d !!! j = 0).
  { intros j Hj. destruct (vall_busy _ _ _ r j Hall) as [Hlt Hf]; [by left|done|]. split; [done|].
    destruct (decide (dfree d !!! j = 0)); [done|]. by destruct Hf. }
  destruct (Hbusy (r_i0 r)) as [R0 Z0]; [by left|]. destruct (Hbusy (r_i1 r)) as [R1 Z1]; [right; by left|].
  destruct (Hbusy (r_i2 r)) as [R2 Z2]; [right; right; by left|].
  apply NoDup_cons in Hnd as [N0 [N1 _]%NoDup_cons]. rewrite !not_elem_of_cons in N0. rewrite not_elem_of_cons in N1.
  unfold vrw_wait. rewrite (bind_ok _ _ _ (bufs k !!! r_b r) {| vk := k; vd := d |}) by done.
  rewrite Hb. cbn [Z.eqb]. rewrite Nat2Z.id.
  set (s1 := {| vk := k; vd := {| d with info := alter (fun i => {| i with in_b := None |}) (r_i0 r) (info d) |} |}).
  rewrite (bind_ok _ _ _ tt s1) by done.
  destruct (free_chain_eval (r_i0 r) (r_i1 r) (r_i2 r) s1) as (k' & E & (Sb & Sk & Sh & Sc) & Hp'); try tauto.
  { unfold chain3. change (desc (vd s1)) with (desc d). rewrite (fd_0 _ _ _ _ Hd), (fd_1 _ _ _ _ Hd), (fd_2 _ _ _ _ Hd).
    cbn [d_flags d_next]. by destruct (r_w r). }
  { by apply (caller_procs_ok k i). }
  exists (set_held [] k'). rewrite (bind_ok _ _ _ _ _ E). split; [|done].
  apply kern_ok. apply release_eval. rewrite Sh. by destruct Hc as (_ & _ & ?).
Qed.

Lemma wait_inv c qa fe qu qk k i b i0 : vinv c qa fe qu qk -> seen k c -> caller k i [L_proc i] ->
  (b, i0) ∈ c_wait c ->
  (exists s2, vrw_wait_resume b (Z.of_nat i0) {| vk := k; vd := c_d c |} = Block s2 /\
     vinv (back c s2) qa fe qu qk /\ bufs (vk s2) = bufs k /\ disk_blocks (vk s2) = disk_blocks k) \/
  (exists s2 q1 r q2, vrw_wait_resume b (Z.of_nat i0) {| vk := k; vd := c_d c |} = Ok tt s2 /\
     qk = q1 ++ r :: q2 /\ r_b r = b /\
     bufs (vk s2) = bufs k /\ disk_blocks (vk s2) = disk_blocks k /\
     forall w', c_wait c ≡ₚ (b, i0) :: w' -> vinv (with_wait w' (back c s2)) qa fe qu (q1 ++ q2)).
Proof.
  intros [Hall Hqa Hqu Hqk Hav Hus Hfe] (Eb & Ek & Hl) (Hcur & Hi & Hh) Hin.
  rewrite (va_wait _ _ _ Hall) in Hin. apply list_elem_of_fmap in Hin as (r & Er & Hr).
  injection Er as -> ->. unfold vrw_wait_resume.
  set (k1 := set_held [L_vdisk] (set_procs (alter (fun p => {| p with p_chan := C_null |}) i (procs k)) k)).
  rewrite (bind_ok _ _ _ tt {| vk := k1; vd := c_d c |}) by (apply kern_ok, sleep_after_eval; done).
  assert (Hc1 : caller k1 i [L_vdisk]) by done.
  assert (Hl1 : length (procs k1) = NPROC) by (cbn; by rewrite length_alter).
  assert (Hcase : b_disk (bufs k !!! r_b r) = 1 \/ r ∈ qk).
  { rewrite Forall_app in Hqa. destruct Hqa as [Hq1 Hq2]. rewrite Eb. rewrite !elem_of_app in Hr.
    destruct Hr as [Hr|[Hr|[Hr|Hr]]]; [left|left|left|by right].
    - by eapply Forall_forall in Hq1 as (_ & _ & ? & _); [|exact Hr].
    - by eapply Forall_forall in Hq2 as (_ & _ & ? & _); [|exact Hr].
    - by eapply Forall_forall in Hqu as (_ & _ & ? & _); [|exact Hr]. }
  destruct Hcase as [Hb|Hk].
  - left. eexists. split; [by apply (vrw_wait_sleeps _ _ k1 i)|]. split; [|done].
    unfold back. cbn [vd vk sleeping k1 bufs disk_blocks set_held set_procs]. rewrite Eb, Ek.
    destruct c. by constructor.
  - right. apply list_elem_of_split in Hk as (q1 & q2 & ->).
    assert (Hall' : vall (c_d c) (c_wait c) (r :: (qa ++ fe ++ qu ++ q1 ++ q2)))
      by (eapply vall_perm; [|exact Hall]; solve_Permutation).
    apply Forall_app in Hqk as [Hk1 [[Hd (Bl & Bd & Bn)] Hk2]%Forall_cons].
    destruct (vrw_wait_done r k1 (c_d c) _ _ _ i Hall' Hd Hc1 Hl1) as (k' & E & Sb & Sk); [cbn; by rewrite Eb|].
    exists {| vk := k'; vd := ended r (c_d c) |}, q1, r, q2. split; [exact E|]. split; [done|]. split; [done|].
    split; [exact Sb|]. split; [exact Sk|]. intros w' Hw'.
    destruct (vall_cons_nodup _ _ _ _ Hall') as (_ & Hdis & _).
    assert (Hfm : forall st dk r', r' ∈ qa ++ fe ++ qu ++ q1 ++ q2 -> fmt (c_d c) (c_bufs c) st dk r' ->
      fmt (ended r (c_d c)) (bufs k') st dk r').
    { intros st dk r' Hr' Hf. rewrite Sb. cbn [k1 bufs set_held set_procs]. rewrite Eb.
      revert Hf. apply fmt_frame; [|done..]. apply ended_agree. intros j Hj Hj'.
      apply (Hdis j Hj). by eapply elem_of_dids. }
    constructor; cbn [with_wait back c_d c_bufs c_last c_fetched c_wait vd vk];
      [by eapply ended_vall| | |apply Forall_app; split|exact Hav|exact Hus|done];
      (eapply Forall_fmt; [|eassumption]); intros r' Hr'; apply Hfm; set_solver.
Qed.

(** *** The device *)
Lemma sector_block x : 0 <= b_blockno x < 2 ^ 31 -> sector_of x mod 2 = 0 /\ sector_of x / 2 = b_blockno x.
Proof.
  intros H. unfold sector_of. change (BSIZE / 512) with 2. rewrite u32_small by lia.
  by rewrite Z.mod_mul, Z.div_mul.
Qed.

(** The chain of a request in flight is one that the standard describes. *)
Lemma dev_request_fmt d bs st dk r : fmt d bs st dk r ->
  dev_request d (r_i0 r) = Some (r_b r, r_w r, b_blockno (bs !!! r_b r), r_i0 r).
Proof.
  intros [Hd (_ & _ & Hb)]. destruct (sector_block _ Hb) as [H1 H2]. unfold dev_request.
  rewrite (fd_0 _ _ _ _ Hd). cbn [d_next d_addr]. rewrite Nat2Z.id, (fd_1 _ _ _ _ Hd). cbn [d_next d_addr].
  rewrite Nat2Z.id, (fd_2 _ _ _ _ Hd). cbn [d_next d_addr]. rewrite (fd_op _ _ _ _ Hd). cbn [rq_type rq_sector].
  rewrite H1, H2. by destruct (r_w r).
Qed.

Lemma fetch_inv c c' qa fe qu qk : vinv c qa fe qu qk -> dev_fetch c = Some c' ->
  exists r qa', qa = r :: qa' /\ vinv c' qa' (fe ++ [r]) qu qk /\
    c_bufs c' = c_bufs c /\ c_blocks c' = c_blocks c /\ c_wait c' = c_wait c.
Proof.
  intros [Hall Hqa Hqu Hqk [Hr Hw] Hus Hfe]. unfold dev_fetch. case_match eqn:E; [done|]. intros [= <-].
  apply Z.eqb_neq in E. destruct qa as [|r qa].
  { destruct E. by apply (window_empty _ _ _ Hw); [cbn; lia|]. }
  exists r, qa. split; [done|]. split; [|done]. rewrite fmap_cons in Hr, Hw. destruct (ring_pop _ _ _ _ Hr) as [Hh Hr'].
  constructor; cbn [c_d c_bufs c_last c_fetched c_wait].
  - eapply vall_perm; [|exact Hall]. solve_Permutation.
  - rewrite Forall_app in Hqa. destruct Hqa as [[H1 H2]%Forall_cons H3]. rewrite !Forall_app.
    split; [done|]. split; [done|]. by apply Forall_singleton.
  - done.
  - done.
  - split; [done|]. by eapply window_pop.
  - done.
  - by rewrite Hh, Nat2Z.id, Hfe, fmap_app.
Qed.

Lemma finished_agree h m d r : m <> r_i0 r -> agree d (finished h m d) r.
Proof. intros Hn. split; [done|]. split; [done|]. cbn [finished info]. by rewrite list_lookup_total_alter_ne. Qed.

(** The block that a request moves. *)
Definition moved_bufs (w : bool) (b : nat) (blk : Z) (bs : list buf) (blocks : Z -> list Z) : list buf :=
  if w then bs else alter (fun x => {| x with b_data := blocks blk |}) b bs.
Lemma moved_same w b blk bs blocks j :
  length (moved_bufs w b blk bs blocks) = length bs /\
  b_blockno (moved_bufs w b blk bs blocks !!! j) = b_blockno (bs !!! j) /\
  b_disk (moved_bufs w b blk bs blocks !!! j) = b_disk (bs !!! j).
Proof.
  unfold moved_bufs. destruct w; [done|]. rewrite length_alter. split; [done|].
  destruct (decide (b = j)) as [<-|]; [|by rewrite list_lookup_total_alter_ne].
  destruct (decide (b < length bs)%nat); [by rewrite list_lookup_total_alter_eq|].
  rewrite alter_id; [done|]. intros x Hx%lookup_lt_Some. lia.
Qed.

Lemma serve_inv c n h qa fe qu qk : vinv c qa fe qu qk -> c_fetched c !! n = Some h ->
  exists r f1 f2, fe = f1 ++ r :: f2 /\ h = r_i0 r /\
    fmt (c_d c) (c_bufs c) 0xff 1 r /\
    forall b w c', dev_serve c n = Some (b, w, c') -> b = r_b r /\ w = r_w r /\
      c_bufs c' = moved_bufs w b (b_blockno (c_bufs c !!! b)) (c_bufs c) (c_blocks c) /\
      c_blocks c' = (if w then fun x => if x =? b_blockno (c_bufs c !!! b) then b_data (c_bufs c !!! b) else c_blocks c x
                     else c_blocks c) /\
      vinv c' qa (f1 ++ f2) (qu ++ [r]) qk.
Proof.
  intros [Hall Hqa Hqu Hqk Hav [Hu1 Hu2] Hfe] Hn. rewrite Hfe in Hn. apply list_lookup_fmap_Some in Hn as (r & -> & Hr).
  pose proof (list_elem_of_split_length _ _ _ Hr) as (f1 & f2 & Hf & Hlen). subst fe n.
  exists r, f1, f2. split; [done|]. split; [done|].
  assert (Hfm : fmt (c_d c) (c_bufs c) 0xff 1 r).
  { eapply Forall_forall in Hqa; [exact Hqa|]. set_solver. }
  split; [done|]. intros b w c'. unfold dev_serve. rewrite Hfe, fmap_app, fmap_cons.
  rewrite list_lookup_middle by by rewrite length_fmap. rewrite (dev_request_fmt _ _ _ _ _ Hfm).
  intros [= <- <- <-]. split; [done|]. split; [done|]. split; [done|]. split; [done|].
  set (d' := finished (r_i0 r) (r_i0 r) (c_d c)).
  set (bs' := moved_bufs (r_w r) (r_b r) (b_blockno (c_bufs c !!! r_b r)) (c_bufs c) (c_blocks c)).
  change (if r_w r then c_bufs c else _) with bs'.
  assert (Hsame : forall j, length bs' = length (c_bufs c) /\ b_blockno (bs' !!! j) = b_blockno (c_bufs c !!! j) /\
    b_disk (bs' !!! j) = b_disk (c_bufs c !!! j)) by (intros; apply moved_same).
  assert (Hid : forall r', r' ∈ qa ++ f1 ++ f2 ++ qu ++ qk -> r_i0 r <> r_i0 r').
  { intros r' Hr' E. assert (Hall' : vall (c_d c) (c_wait c) (r :: (qa ++ f1 ++ f2 ++ qu ++ qk)))
      by (eapply vall_perm; [|exact Hall]; solve_Permutation).
    apply (vall_ids_inj _ _ [] r _ r' (r_i0 r) Hall'); [done|left|rewrite E; left]. }
  assert (Hfr : forall st dk r', r' ∈ qa ++ f1 ++ f2 ++ qu ++ qk -> fmt (c_d c) (c_bufs c) st dk r' -> fmt d' bs' st dk r').
  { intros st dk r' Hr'. apply fmt_frame; [|apply Hsame; exact 0%nat..|apply Hsame|apply Hsame]. apply finished_agree, Hid, Hr'. }
  destruct (va_len _ _ _ Hall) as (L1 & L2 & L3 & L4). pose proof (vall_few _ _ _ Hall) as Hfew.
  rewrite !length_app in Hfew. cbn [length] in Hfew.
  constructor; cbn [c_d c_bufs c_last c_fetched c_wait].
  - eapply vall_perm with (rs := qa ++ (f1 ++ r :: f2) ++ qu ++ qk); [solve_Permutation|].
    destruct Hall as [_ Hi Hrg Hfr' Hb Hw]. constructor; try done. cbn [d' finished dfree desc info ops]. by rewrite length_alter.
  - rewrite !Forall_app in Hqa. destruct Hqa as (H1 & H2 & [_ H3]%Forall_cons). rewrite !Forall_app.
    split; [|split]; (eapply Forall_fmt; [|eassumption]); intros r' Hr'; apply Hfr; set_solver.
  - apply Forall_app. split; [eapply Forall_fmt; [|exact Hqu]; intros r' Hr'; apply Hfr; set_solver|].
    apply Forall_singleton. destruct Hfm as [[F0 F1 F2 Fo Fi] (B1 & B2 & B3)].
    destruct (Hsame (r_b r)) as (S1 & S2 & S3). split.
    + unfold sector_of. rewrite S2. constructor; try done. cbn [d' finished info].
      assert (r_i0 r < NUM)%nat by (apply (va_range _ _ _ Hall), (elem_of_dids _ r); [set_solver|left]).
      by rewrite list_lookup_total_alter_eq, Fi by lia.
    + split; [by rewrite S1|]. by rewrite S3, S2.
  - eapply Forall_fmt; [|exact Hqk]. intros r' Hr'; apply Hfr; set_solver.
  - exact Hav.
  - cbn [d' finished used_ring used_idx used_idx_dev]. rewrite fmap_app. split; [|by apply window_push].
    destruct Hu2 as [_ ->]. apply ring_push; [done|]. rewrite length_fmap. unfold NUM. lia.
  - rewrite fmap_app. rewrite <-(length_fmap r_i0 f1). apply delete_middle.
Qed.

(** ** Traces *)
Inductive vphase := PIdle | PSent (w : bool) | PDone (w : bool).

(** What an event means for buffer [b]: it is handed over, moved and given back in turns. *)
Definition vnext (b : nat) (ph : vphase) (e : vevent) : option vphase :=
  match e with
  | EvSubmit b' w => if decide (b' = b) then match ph with PIdle => Some (PSent w) | _ => None end else Some ph
  | EvServe b' w => if decide (b' = b) then
      match ph with PSent w' => if Bool.eqb w w' then Some (PDone w) else None | _ => None end else Some ph
  | EvReturn b' => if decide (b' = b) then match ph with PDone _ => Some PIdle | _ => None end else Some ph
  end.
Definition phase (b : nat) (tr : list vevent) : option vphase :=
  foldl (fun o e => match o with Some ph => vnext b ph e | None => None end) (Some PIdle) tr.

Lemma phase_snoc b tr e : phase b (tr ++ [e]) = match phase b tr with Some ph => vnext b ph e | None => None end.
Proof. unfold phase. by rewrite foldl_app. Qed.

Definition in_phase (qs : list vreq) (b : nat) (w : bool) : Prop := exists r, r ∈ qs /\ r_b r = b /\ r_w r = w.
Definition trace_ok (tr : list vevent) (b : nat) (sent done_ : list vreq) : Prop :=
  match phase b tr with
  | Some PIdle => b ∉ r_b <$> sent ++ done_
  | Some (PSent w) => in_phase sent b w
  | Some (PDone w) => in_phase done_ b w
  | None => False
  end.

Lemma trace_ok_perm tr b s s' d d' : s ≡ₚ s' -> d ≡ₚ d' -> trace_ok tr b s d -> trace_ok tr b s' d'.
Proof.
  intros Es Ed. unfold trace_ok. destruct (phase b tr) as [[|w|w]|]; [by rewrite Es, Ed| | |done].
  - intros (r & Hr & H). exists r. by rewrite <-Es.
  - intros (r & Hr & H). exists r. by rewrite <-Ed.
Qed.

Lemma trace_submit tr b r s d : r_b r ∉ r_b <$> s ++ d -> trace_ok tr b s d ->
  trace_ok (tr ++ [EvSubmit (r_b r) (r_w r)]) b (r :: s) d.
Proof.
  intros Hn. unfold trace_ok. rewrite phase_snoc. destruct (phase b tr) as [ph|]; [|done]. cbn [vnext].
  destruct (decide (r_b r = b)) as [<-|Hne].
  - assert (Hno : forall l w, l ⊆ s ++ d -> ~ in_phase l (r_b r) w).
    { intros l w Hl (r' & Hr' & E & _). apply Hn. rewrite <-E. apply list_elem_of_fmap_2. by apply Hl. }
    destruct ph; intros H.
    + exists r. split; [by left|done].
    + by apply Hno in H; [|set_solver].
    + by apply Hno in H; [|set_solver].
  - destruct ph; [|intros (r' & Hr' & E); exists r'; split; [by right|done]|done].
    cbn [app fmap list_fmap]. intros H. apply not_elem_of_cons. by split.
Qed.

Lemma trace_serve tr b r s d : r_b r ∉ r_b <$> s ++ d -> trace_ok tr b (r :: s) d ->
  trace_ok (tr ++ [EvServe (r_b r) (r_w r)]) b s (r :: d).
Proof.
  intros Hn. unfold trace_ok. rewrite phase_snoc. destruct (phase b tr) as [ph|]; [|done]. cbn [vnext].
  destruct (decide (r_b r = b)) as [<-|Hne].
  - destruct ph as [|w|w].
    + intros H. destruct H. left.
    + intros (r' & [->|Hr']%elem_of_cons & E & <-).
      * rewrite Bool.eqb_reflx. exists r. split; [by left|done].
      * destruct Hn. rewrite <-E. apply list_elem_of_fmap_2. set_solver.
    + intros (r' & Hr' & E & _). destruct Hn. rewrite <-E. apply list_elem_of_fmap_2. set_solver.
  - destruct ph as [|w|w].
    + intros H. rewrite fmap_app, fmap_cons in *. set_solver.
    + intros (r' & [->|Hr']%elem_of_cons & E & Hw); [done|]. by exists r'.
    + intros (r' & Hr' & E). exists r'. split; [by right|done].
Qed.

Lemma trace_return tr b r s d : r_b r ∉ r_b <$> s ++ d -> trace_ok tr b s (r :: d) ->
  trace_ok (tr ++ [EvReturn (r_b r)]) b s d.
Proof.
  intros Hn. unfold trace_ok. rewrite phase_snoc. destruct (phase b tr) as [ph|]; [|done]. cbn [vnext].
  destruct (decide (r_b r = b)) as [<-|Hne].
  - destruct ph as [|w|w].
    + intros H. destruct H. rewrite fmap_app, fmap_cons. set_solver.
    + intros (r' & Hr' & E & _). destruct Hn. rewrite <-E. apply list_elem_of_fmap_2. set_solver.
    + intros _. done.
  - destruct ph as [|w|w].
    + intros H. rewrite fmap_app, fmap_cons in *. set_solver.
    + done.
    + intros (r' & [->|Hr']%elem_of_cons & E & Hw); [done|]. by exists r'.
Qed.

(** ** Every step *)

(** A transfer moves the block as the contract of the buffer cache says; the other steps
    change neither the disk nor the data of a buffer that is handed over. *)
Definition data_ok (c : vconf) (l : option vevent) (c' : vconf) : Prop :=
  match l with
  | Some (EvServe b w) => forall k, seen k c -> exists k',
      Bio.virtio_disk_rw b w k = Ok tt k' /\ bufs k' = c_bufs c' /\ disk_blocks k' = c_blocks c'
  | _ => c_blocks c' = c_blocks c /\
      forall b, b ∈ (c_wait c).*1 -> b_data (c_bufs c' !!! b) = b_data (c_bufs c !!! b)
  end.

Definition vgood (c : vconf) (tr : list vevent) : Prop :=
  exists qa fe qu qk, vinv c qa fe qu qk /\ forall b, trace_ok tr b (qa ++ fe) (qu ++ qk).

Lemma env_inv c bs qa fe qu qk : vinv c qa fe qu qk -> env_ok c bs -> vinv {| c with c_bufs := bs |} qa fe qu qk.
Proof.
  intros [Hall Hqa Hqu Hqk Hav Hus Hfe] [Hl He].
  assert (Hfm : forall st dk r, r ∈ qa ++ fe ++ qu ++ qk -> fmt (c_d c) (c_bufs c) st dk r -> fmt (c_d c) bs st dk r).
  { intros st dk r Hr. destruct (He (r_b r)) as (_ & E2 & E3).
    { rewrite (va_wait _ _ _ Hall), <-list_fmap_compose. by apply (list_elem_of_fmap_2 (fst ∘ rwait)). }
    apply fmt_frame; [apply agree_refl|done|done|done]. }
  constructor; cbn [c_d c_bufs c_last c_fetched c_wait]; try done;
    (eapply Forall_fmt; [|eassumption]); intros r Hr; apply Hfm; set_solver.
Qed.

Lemma vall_buf_new d w l1 r l2 : vall d w (l1 ++ r :: l2) -> r_b r ∉ r_b <$> l1 ++ l2.
Proof. intros H (r' & E & Hr')%list_elem_of_fmap. by apply (vall_buf_inj _ _ _ _ _ r' H Hr'). Qed.

Lemma submit_good c tr b w qa fe qu qk r c' : vinv c qa fe qu qk -> (forall b, trace_ok tr b (qa ++ fe) (qu ++ qk)) ->
  r_b r = b -> r_w r = w -> vinv c' (qa ++ [r]) fe qu qk -> vgood c' (tr ++ [EvSubmit b w]).
Proof.
  intros Hinv Htr <- <- Hinv'. exists (qa ++ [r]), fe, qu, qk. split; [done|]. intros b.
  eapply trace_ok_perm; [|reflexivity|apply trace_submit; [|apply Htr]]; [solve_Permutation|].
  assert (H : vall (c_d c') (c_wait c') ([] ++ r :: ((qa ++ fe) ++ qu ++ qk)))
    by (eapply vall_perm; [|apply (vi_all _ _ _ _ _ Hinv')]; solve_Permutation).
  exact (vall_buf_new _ _ [] _ _ H).
Qed.

Lemma vgood_same c tr qa fe qu qk c' qu' qk' : vinv c' qa fe qu' qk' -> qu ++ qk ≡ₚ qu' ++ qk' ->
  (forall b, trace_ok tr b (qa ++ fe) (qu ++ qk)) -> vinv c qa fe qu qk -> vgood c' (tr ++ []).
Proof.
  intros Hinv' E Htr Hinv. rewrite app_nil_r. exists qa, fe, qu', qk'. split; [done|]. intros b.
  by eapply trace_ok_perm; [reflexivity|exact E|].
Qed.

Lemma serve_data c n b w c' qa fe qu qk h : vinv c qa fe qu qk -> c_fetched c !! n = Some h ->
  dev_serve c n = Some (b, w, c') -> data_ok c (Some (EvServe b w)) c'.
Proof.
  intros Hinv Hn E. destruct (serve_inv _ _ _ _ _ _ _ Hinv Hn) as (r & f1 & f2 & _ & _ & _ & H).
  destruct (H _ _ _ E) as (-> & -> & E1 & E2 & _). intros k (Sb & Sk & _). cbv beta. rewrite E1, E2.
  unfold Bio.virtio_disk_rw. rewrite (bind_ok _ _ _ (bufs k !!! r_b r) k) by done. destruct (r_w r).
  - eexists. split; [reflexivity|]. cbn [bufs disk_blocks set_disk_blocks set_disk_writes moved_bufs]. rewrite Sb, Sk. done.
  - eexists. split; [reflexivity|]. cbn [bufs disk_blocks set_bufs moved_bufs]. rewrite Sb, Sk. done.
Qed.

Lemma device_good dev c tr l c' : device_conforms dev -> vgood c tr -> dev c l c' ->
  vgood c' (tr ++ option_list (match l with Some (b, w) => Some (EvServe b w) | None => None end)) /\
  data_ok c (match l with Some (b, w) => Some (EvServe b w) | None => None end) c'.
Proof.
  intros Hdev (qa & fe & qu & qk & Hinv & Htr) Hd. destruct (Hdev _ _ _ Hd) as [[E ->]|(n & h & Hn & Hcase)].
  - destruct (fetch_inv _ _ _ _ _ _ Hinv E) as (r & qa' & -> & Hinv' & E1 & E2 & E3). cbn [option_list].
    split; [|split; [done|]; intros b _; by rewrite E1]. rewrite app_nil_r. exists qa', (fe ++ [r]), qu, qk. split; [done|]. intros b.
    eapply trace_ok_perm; [|reflexivity|apply Htr]. solve_Permutation.
  - destruct (serve_inv _ _ _ _ _ _ _ Hinv Hn) as (r & f1 & f2 & -> & -> & Hfm & H).
    destruct Hcase as [Hbad|(b & w & E & ->)]; [by rewrite (dev_request_fmt _ _ _ _ _ Hfm) in Hbad|].
    split; [|by eapply serve_data]. destruct (H _ _ _ E) as (-> & -> & _ & _ & Hinv').
    exists qa, (f1 ++ f2), (qu ++ [r]), qk. split; [done|]. intros b. cbn [option_list].
    eapply trace_ok_perm with (d := r :: (qu ++ qk)); [reflexivity| |apply trace_serve].
    + solve_Permutation.
    + assert (Hall : vall (c_d c) (c_wait c) ([] ++ r :: ((qa ++ f1 ++ f2) ++ qu ++ qk)))
        by (eapply vall_perm; [|apply (vi_all _ _ _ _ _ Hinv)]; solve_Permutation).
      exact (vall_buf_new _ _ [] _ _ Hall).
    + eapply trace_ok_perm; [|reflexivity|apply Htr]. solve_Permutation.
Qed.

Lemma vstep_good dev c tr l c' : device_conforms dev -> vgood c tr -> vstep dev c l c' ->
  vgood c' (tr ++ option_list l) /\ data_ok c l c'.
Proof.
  intros Hdev Hg Hs. pose proof Hg as (qa & fe & qu & qk & Hinv & Htr).
  destruct Hs as [k i b w i0 i1 i2 s1 s2 Hse Hc Hm E1 E2|k i s1 s2 Hse Hc E1 E2|k h ist s2 Hse Hh Hl Hu E
    |k i b i0 s2 Hse Hc Hin E|k i b i0 l1 l2 s2 Hse Hc Hw E|l c' Hd|bs He].
  - destruct (submit_inv _ _ _ _ _ _ _ b w _ _ _ _ Hinv (conj Hse Hc) Hm E1) as (s2' & r & E2' & Hb & Hw & [D1 D2] & Hinv').
    rewrite E2' in E2. injection E2 as <-. split; [eapply submit_good; [exact Hinv|exact Htr|exact Hb|exact Hw|exact Hinv']|].
    split; [exact D1|]. intros b' _. apply D2.
  - destruct (nodesc_inv _ _ _ _ _ _ _ _ Hinv (conj Hse Hc) E1) as (s2' & E2' & Hinv' & [D1 D2]).
    rewrite E2' in E2. injection E2 as <-. split; [eapply vgood_same; [exact Hinv'|reflexivity|exact Htr|exact Hinv]|]. split; [exact D1|]. intros b' _. apply D2.
  - destruct (intr_inv _ _ _ _ _ _ ist Hinv Hse) as (s' & E' & Hinv' & H1 & H2); [by subst|done|].
    rewrite E' in E. injection E as <-. split; [eapply vgood_same; [exact Hinv'| |exact Htr|exact Hinv]; solve_Permutation|].
    split; [done|]. intros b _. apply H2.
  - destruct Hse as (Sb & Sk & Sl).
    destruct (wait_inv _ _ _ _ _ _ _ b i0 Hinv (conj Sb (conj Sk Sl)) Hc Hin) as [(s' & E' & Hinv' & H1 & H2)|(s' & ? & ? & ? & E' & _)];
      rewrite E' in E; [|discriminate E]. injection E as <-. split; [eapply vgood_same; [exact Hinv'|reflexivity|exact Htr|exact Hinv]|].
    split; [cbn; by rewrite H2, Sk|]. intros b' _. cbn. by rewrite H1, Sb.
  - destruct Hse as (Sb & Sk & Sl).
    destruct (wait_inv _ _ _ _ _ _ _ b i0 Hinv (conj Sb (conj Sk Sl)) Hc) as [(s' & E' & _)|(s' & q1 & r & q2 & E' & -> & <- & H1 & H2 & Hinv')];
      [rewrite Hw; set_solver|rewrite E' in E; discriminate E|]. rewrite E' in E. injection E as <-.
    split; [|split; [cbn; by rewrite H2, Sk|]; intros b' _; cbn; by rewrite H1, Sb]. exists qa, fe, qu, (q1 ++ q2). split; [apply Hinv'; rewrite Hw; solve_Permutation|].
    intros b. apply trace_return.
    + assert (Hall : vall (c_d c) (c_wait c) ([] ++ r :: ((qa ++ fe) ++ qu ++ q1 ++ q2)))
        by (eapply vall_perm; [|apply (vi_all _ _ _ _ _ Hinv)]; solve_Permutation).
      exact (vall_buf_new _ _ [] _ _ Hall).
    + eapply trace_ok_perm; [reflexivity| |apply Htr]. solve_Permutation.
  - by eapply device_good.
  - split; [eapply vgood_same; [apply env_inv; [exact Hinv|done]|reflexivity|exact Htr|exact Hinv]|]. split; [done|]. intros b Hb.
    destruct He as [_ He]. by apply He.
Qed.

(** ** From the initialisation on *)
(** A routine that does not touch the queue. *)
Definition dshape (d : disk) := (desc d, avail_idx d, avail_ring d, used_idx_dev d, used_ring d, dfree d, used_idx d, info d, ops d).
Definition keeps {A} (m : V A) : Prop := forall s a s', m s = Ok a s' -> dshape (vd s') = dshape (vd s).
Lemma keeps_kern {A} (m : K A) : keeps (kern m).
Proof. intros s a s'. unfold kern. destruct (m (vk s)); [|done..]. by intros [= _ <-]. Qed.
Lemma keeps_read rd r : keeps (read_reg rd r).
Proof. intros s a s'. by intros [= _ <-]. Qed.
Lemma keeps_write r v : keeps (write_reg r v).
Proof. intros s a s'. by intros [= _ <-]. Qed.
Lemma keeps_panic b e : keeps (panic_if b e).
Proof. intros s a s'. unfold panic_if. destruct b; [done|]. by intros [= _ <-]. Qed.
Create HintDb virtio.
#[export] Hint Resolve keeps_kern keeps_read keeps_write keeps_panic : virtio.
Lemma keeps_then {A B} (m : V A) (k : A -> V B) s b s' : keeps m -> bind m k s = Ok b s' ->
  exists a s1, dshape (vd s1) = dshape (vd s) /\ k a s1 = Ok b s'.
Proof. intros Hm (a & s1 & E1 & E2)%bind_inv. exists a, s1. split; [by eapply Hm|done]. Qed.

Ltac skip_init H E :=
  let a := fresh "a" in let s1 := fresh "s1" in let E1 := fresh "E1" in
  apply keeps_then in H as (a & s1 & E1 & H); [|solve [auto with virtio]];
  rewrite E in E1; clear E; rename E1 into E.

Lemma free_all_loop l s : exists s', mfor l (fun i => set_free i 1) s = Ok tt s' /\
  dshape (vd s') = dshape {| (vd s) with dfree := foldl (fun f i => <[i := 1]> f) (dfree (vd s)) l |}.
Proof.
  revert s. induction l as [|i l IH]; intros s; cbn [mfor foldl].
  - exists s. split; [done|]. by destruct s as [k []].
  - rewrite (bind_ok _ _ _ tt {| vk := vk s; vd := {| (vd s) with dfree := <[i := 1]> (dfree (vd s)) |} |}) by done.
    destruct (IH {| vk := vk s; vd := {| (vd s) with dfree := <[i := 1]> (dfree (vd s)) |} |}) as (s' & E & H).
    exists s'. split; [exact E|]. exact H.
Qed.
Lemma free_all (l : list Z) : length l = NUM -> foldl (fun f i => <[i := 1]> f) l (seq 0 NUM) = replicate NUM 1.
Proof.
  intros Hl. destruct l as [|? [|? [|? [|? [|? [|? [|? [|? [|]]]]]]]]]; try discriminate Hl. reflexivity.
Qed.

Lemma init_shape rd s s' : virtio_disk_init rd s = Ok tt s' -> length (dfree (vd s)) = NUM ->
  dshape (vd s') = (replicate NUM (mkdesc VA_null 0 0 0), 0, replicate NUM 0, 0, replicate NUM 0, replicate NUM 1,
    used_idx (vd s), info (vd s), ops (vd s)).
Proof.
  intros H Hl. unfold virtio_disk_init in H. cbv zeta in H.
  destruct (dshape (vd s)) as [[[[[[[[x1 x2] x3] x4] x5] x6] x7] x8] x9] eqn:E.
  assert (Hs : dfree (vd s) = x6 /\ used_idx (vd s) = x7 /\ info (vd s) = x8 /\ ops (vd s) = x9) by (by injection E).
  destruct Hs as (H6 & H7 & H8 & H9). rewrite H6 in Hl. rewrite H7, H8, H9.
  repeat (skip_init H E). apply bind_inv in H as (u & sx & E1 & H). injection E1 as <- <-.
  injection E as _ _ _ _ _ E6 E7 E8 E9.
  match type of H with _ ?s0 = _ =>
    assert (E : dshape (vd s0) = (replicate NUM (mkdesc VA_null 0 0 0), 0, replicate NUM 0, 0, replicate NUM 0, x6, x7, x8, x9))
      by (cbn [vd dshape desc avail_idx avail_ring used_idx_dev used_ring dfree used_idx info ops]; unfold dshape;
          cbn [desc avail_idx avail_ring used_idx_dev used_ring dfree used_idx info ops]; by rewrite E6, E7, E8, E9);
    generalize dependent s0; intros sz H E end.
  repeat (skip_init H E). apply bind_inv in H as (u & sy & E1 & H). injection H as <-. cbn [vd].
  match type of E1 with _ ?s0 = _ => destruct (free_all_loop (seq 0 NUM) s0) as (sw & E1w & Hsh) end.
  rewrite E1w in E1. injection E1 as _ <-. change (dshape {| (vd sw) with mmio := _ |}) with (dshape (vd sw)).
  rewrite Hsh. unfold dshape in E |- *. injection E as -> -> -> -> -> -> -> -> ->.
  cbn [desc avail_idx avail_ring used_idx_dev used_ring dfree used_idx info ops]. by rewrite free_all.
Qed.

Definition first_conf (s : vstate) (bs : list buf) (blocks : Z -> list Z) : vconf := mkvconf (vd s) bs blocks 0 [] [].

Lemma empty_ring ring : length ring = NUM -> ring_at ring 0 [] /\ window 0 0 [].
Proof.
  intros Hl. split; [|done]. split; [done|]. split; [cbn; lia|]. intros k h Hk. by rewrite lookup_nil in Hk.
Qed.

Lemma first_inv rd s s0 bs blocks : virtio_disk_init rd s = Ok tt s0 -> length (dfree (vd s)) = NUM ->
  length (info (vd s)) = NUM -> length (ops (vd s)) = NUM -> used_idx (vd s) = 0 ->
  vinv (first_conf s0 bs blocks) [] [] [] [].
Proof.
  intros H Hl Hi Ho Hu. pose proof (init_shape _ _ _ H Hl) as E. unfold dshape in E.
  injection E as E1 E2 E3 E4 E5 E6 E7 E8 E9. constructor; cbn [first_conf c_d c_bufs c_last c_fetched c_wait]; try done.
  - constructor; [by rewrite E6, E1, E8, E9|constructor| | |constructor|done].
    + intros i Hin. by apply elem_of_nil in Hin.
    + intros i. unfold isfree. rewrite E6. split; [intros [? _]; split; [done|apply not_elem_of_nil]|].
      intros [Hi' _]. split; [done|]. unfold NUM in Hi'. do 8 (destruct i as [|i]; [done|]). lia.
  - rewrite E2, E3. by apply empty_ring.
  - rewrite E4, E5, E7, Hu. by apply empty_ring.
Qed.

Lemma vsteps_good dev c0 tr c : device_conforms dev -> vgood c0 [] -> vsteps dev c0 tr c -> vgood c tr.
Proof.
  intros Hdev H0 Hs. induction Hs as [|tr c l c' Hs IH Hl]; [done|]. by apply (vstep_good dev c tr l c').
Qed.

(** A call of [virtio_disk_rw], or its continuation after a wait for descriptors, is a step. *)
Lemma alloc_step dev c tr k i b w : vgood c tr -> locked_in c k i -> may_transfer c b ->
  exists s l c', vrw_alloc b w (sector_of (c_bufs c !!! b)) {| vk := k; vd := c_d c |} = Block s /\
    vstep dev c l c' /\ c_d c' = vd s /\ c_bufs c' = bufs (vk s).
Proof.
  intros (qa & fe & qu & qk & Hinv & _) Hk Hm. pose proof Hk as [Hse Hc].
  destruct (va_len _ _ _ (vi_all _ _ _ _ _ Hinv)) as (L1 & L2 & _). unfold vrw_alloc.
  destruct (alloc3_desc_eval {| vk := k; vd := c_d c |} L1 L2) as [(i0&i1&i2&d'&E&_)|(k'&d'&E&_)].
  { apply (caller_procs_ok k i); [done|]. by destruct Hse as (_ & _ & ?). }
  - destruct (submit_inv _ _ _ _ _ _ _ b w _ _ _ _ Hinv Hk Hm E) as (s2 & r & E2 & _).
    exists s2, (Some (EvSubmit b w)). eexists. rewrite (bind_ok _ _ _ _ _ E). split; [exact E2|].
    split; [by eapply V_submit|done].
  - destruct (nodesc_inv _ _ _ _ _ _ _ _ Hinv Hk E) as (s2 & E2 & _).
    exists s2, None. eexists. rewrite (bind_ok _ _ _ _ _ E). split; [exact E2|].
    split; [by eapply V_nodesc|done].
Qed.

(** C18: the disk driver keeps the contract the buffer cache relies on.  From the state that
    [virtio_disk_init] leaves, whatever the order of calls by several processes, interrupts,
    and steps of a device that conforms to the standard: the routines of the driver never
    panic and never run out of steps; each buffer is handed over, moved and given back in
    turns, so that [virtio_disk_rw] returns only after the transfer; a transfer has exactly
    the effect of [Bio.virtio_disk_rw], and nothing else changes the disk or the data of a
    buffer that is in flight. *)
Theorem virtio_contract (dev : vconf -> option (nat * bool) -> vconf -> Prop) rd s s0 bs blocks tr c :
  device_conforms dev ->
  length (dfree (vd s)) = NUM -> length (info (vd s)) = NUM -> length (ops (vd s)) = NUM -> used_idx (vd s) = 0 ->
  virtio_disk_init rd s = Ok tt s0 ->
  vsteps dev (first_conf s0 bs blocks) tr c ->
  (forall b, phase b tr <> None) /\
  (forall l c', vstep dev c l c' -> data_ok c l c') /\
  (forall k i b w, seen k c -> caller k i [] -> may_transfer c b ->
     exists s l c', virtio_disk_rw b w {| vk := k; vd := c_d c |} = Block s /\
    vstep dev c l c' /\ c_d c' = vd s /\ c_bufs c' = bufs (vk s)) /\
  (forall k i b w, seen k c -> caller k i [L_proc i] -> may_transfer c b ->
     exists s l c', vrw_alloc_resume b w (sector_of (c_bufs c !!! b)) {| vk := k; vd := c_d c |} = Block s /\
    vstep dev c l c' /\ c_d c' = vd s /\ c_bufs c' = bufs (vk s)) /\
  (forall k i b i0, seen k c -> caller k i [L_proc i] -> (b, i0) ∈ c_wait c ->
     exists s, vrw_wait_resume b (Z.of_nat i0) {| vk := k; vd := c_d c |} = Block s \/
               vrw_wait_resume b (Z.of_nat i0) {| vk := k; vd := c_d c |} = Ok tt s) /\
  (forall k istatus, seen k c -> L_vdisk ∉ held k -> others_unlocked k ->
     exists s, virtio_disk_intr istatus {| vk := k; vd := c_d c |} = Ok tt s).
Proof.
  intros Hdev H1 H2 H3 H4 Hinit Hs.
  assert (Hg : vgood c tr).
  { eapply vsteps_good; [exact Hdev| |exact Hs]. exists [], [], [], []. split; [by eapply first_inv|].
    intros b. apply not_elem_of_nil. }
  pose proof Hg as (qa & fe & qu & qk & Hinv & Htr). split; [|split; [|split; [|split; [|split]]]].
  - intros b E. specialize (Htr b). unfold trace_ok in Htr. by rewrite E in Htr.
  - intros l c' Hl. by apply (vstep_good dev c tr l c').
  - intros k i b w (Sb & Sk & Sl) (Hc & Hi & Hh) Hm. unfold virtio_disk_rw.
    rewrite (bind_ok _ _ _ (bufs k !!! b) {| vk := k; vd := c_d c |}) by done. rewrite Sb.
    pose proof (acquire_eval L_vdisk k) as Ha. rewrite Hh in Ha. specialize (Ha (not_elem_of_nil _)).
    rewrite (bind_ok _ _ _ tt {| vk := set_held [L_vdisk] k; vd := c_d c |}) by (by apply kern_ok).
    by eapply (alloc_step dev c tr _ i).
  - intros k i b w (Sb & Sk & Sl) (Hc & Hi & Hh) Hm. unfold vrw_alloc_resume.
    erewrite bind_ok by (apply kern_ok, sleep_after_eval; done).
    eapply (alloc_step dev c tr _ i); [exact Hg| |exact Hm]. split; [|done]. split; [exact Sb|]. split; [exact Sk|].
    cbn. by rewrite length_alter.
  - intros k i b i0 Hse Hc Hin.
    destruct (wait_inv _ _ _ _ _ _ _ b i0 Hinv Hse Hc Hin) as [(s' & E & _)|(s' & q1 & r & q2 & E & _)]; exists s'; auto.
  - intros k ist Hse Hh Hu. destruct (intr_inv _ _ _ _ _ _ ist Hinv Hse Hh Hu) as (s' & E & _). by exists s'.
Qed.

(** A run of one read: a process asks for block 5, the device takes and serves the request, the
    interrupt acknowledges it and the process returns with the block. *)
Definition state_of {A} (r : res vstate A) (s : vstate) : vstate :=
  match r with Ok _ s' | Block s' => s' | _ => s end.
Definition demo_rd (ws : list (Z * Z)) (r : Z) : Z :=
  if r =? 0 then 0x74726976 else if r =? 4 then 2 else if r =? 8 then 2 else if r =? 0xc then 0x554d4551
  else if r =? 0x34 then 1024 else if r =? 0x70 then 11 else 0.
Definition demo_disk : disk :=
  mkdisk [] 0 [] 0 [] (replicate NUM 0) 0 (replicate NUM (mkinfo None 0)) (replicate NUM (mkreq 0 0 0)) [].
Definition demo_boot : vstate :=
  {| vk := set_mem (store64 (store64 (fun _ => 0) 0x80100000 0x80101000) 0x80101000 0x80102000)
             (set_freelist 0x80100000 zero_state); vd := demo_disk |}.
Definition demo_s0 : vstate := state_of (virtio_disk_init demo_rd demo_boot) demo_boot.
Definition demo_blocks (x : Z) : list Z := replicate 4 x.
Definition demo_bufs : list buf := alter (fun x => {| x with b_blockno := 5 |}) 3%nat (replicate NBUF inhabitant).
(** The kernel when a process [i] with the locks [h] runs in [c]. *)
Definition demo_k (i : nat) (h : list lockid) (c : vconf) : kstate :=
  set_held h (set_cur (Some i) (set_bufs (c_bufs c) (set_disk_blocks (c_blocks c) zero_state))).
Definition demo_dev (c : vconf) (l : option (nat * bool)) (c' : vconf) : Prop :=
  (dev_fetch c = Some c' /\ l = None) \/
  (exists b w, dev_serve c 0 = Some (b, w, c') /\ l = Some (b, w)).
Definition demo_c0 : vconf := first_conf demo_s0 demo_bufs demo_blocks.
Definition demo_c1 : vconf :=
  with_wait [(3, 0)%nat] (back demo_c0 (state_of (virtio_disk_rw 3 false {| vk := demo_k 1 [] demo_c0; vd := c_d demo_c0 |}) demo_s0)).
Definition demo_c2 : vconf := default demo_c1 (dev_fetch demo_c1).
Definition demo_c3 : vconf := match dev_serve demo_c2 0 with Some (_, _, c) => c | None => demo_c2 end.
Definition demo_c4 : vconf :=
  back demo_c3 (state_of (virtio_disk_intr 1 {| vk := demo_k 2 [] demo_c3; vd := c_d demo_c3 |}) demo_s0).
Definition demo_c5 : vconf :=
  with_wait [] (back demo_c4 (state_of (vrw_wait_resume 3 0 {| vk := demo_k 1 [L_proc 1] demo_c4; vd := c_d demo_c4 |}) demo_s0)).

Lemma state_of_ok (r : res vstate unit) s : (match r with Ok _ _ => true | _ => false end) = true -> r = Ok tt (state_of r s).
Proof. by destruct r as [[]| | |]. Qed.
Lemma demo_init : virtio_disk_init demo_rd demo_boot = Ok tt demo_s0.
Proof. apply state_of_ok. vm_compute. reflexivity. Qed.
Lemma demo_dev_conforms : device_conforms demo_dev.
Proof.
  intros c l c' [H|(b & w & E & ->)]; [by left|]. right. exists 0%nat. pose proof E as E'. unfold dev_serve in E'.
  destruct (c_fetched c !! 0%nat) as [h|]; [|discriminate E']. exists h. split; [done|]. right. by exists b, w.
Qed.

Definition demo_trace : list vevent := [EvSubmit 3 false; EvServe 3 false; EvReturn 3].
Lemma demo_run : vsteps demo_dev demo_c0 demo_trace demo_c5.
Proof.
  set (a := {| vk := demo_k 1 [L_vdisk] demo_c0; vd := c_d demo_c0 |}).
  assert (H1 : vstep demo_dev demo_c0 (Some (EvSubmit 3 false)) demo_c1).
  { eapply (V_submit demo_dev demo_c0 (demo_k 1 [L_vdisk] demo_c0) 1 3 false 0 1 2 (state_of (alloc3_desc a) a)).
    - split; [reflexivity|]. split; reflexivity.
    - split; [reflexivity|]. split; [unfold NPROC; lia|reflexivity].
    - split; [vm_compute; lia|]. split; [apply not_elem_of_nil|]. vm_compute. split; [discriminate|reflexivity].
    - vm_compute. reflexivity.
    - vm_compute. reflexivity. }
  assert (H2 : vstep demo_dev demo_c1 None demo_c2).
  { apply (V_device demo_dev demo_c1 None). left. split; [vm_compute; reflexivity|done]. }
  assert (H3 : vstep demo_dev demo_c2 (Some (EvServe 3 false)) demo_c3).
  { apply (V_device demo_dev demo_c2 (Some (3%nat, false))). right. exists 3%nat, false.
    split; [vm_compute; reflexivity|done]. }
  assert (H4 : vstep demo_dev demo_c3 None demo_c4).
  { eapply (V_intr demo_dev demo_c3 (demo_k 2 [] demo_c3) [] 1).
    - split; [reflexivity|]. split; reflexivity.
    - reflexivity.
    - apply not_elem_of_nil.
    - intros j _ _. apply not_elem_of_nil.
    - vm_compute. reflexivity. }
  assert (H5 : vstep demo_dev demo_c4 (Some (EvReturn 3)) demo_c5).
  { eapply (V_return demo_dev demo_c4 (demo_k 1 [L_proc 1] demo_c4) 1 3 0 [] []).
    - split; [reflexivity|]. split; reflexivity.
    - split; [reflexivity|]. split; [unfold NPROC; lia|reflexivity].
    - reflexivity.
    - vm_compute. reflexivity. }
  exact (vsteps_step _ _ _ _ _ _ (vsteps_step _ _ _ _ _ _ (vsteps_step _ _ _ _ _ _ (vsteps_step _ _ _ _ _ _
    (vsteps_step _ _ _ _ _ _ (vsteps_refl _ _) H1) H2) H3) H4) H5).
Qed.

Lemma virtio_contract_witness : vsteps demo_dev demo_c0 demo_trace demo_c5 /\ phase 3 demo_trace <> None /\
  b_data (c_bufs demo_c5 !!! 3%nat) = [5; 5; 5; 5] /\ dfree (c_d demo_c5) = replicate NUM 1.
Proof.
  destruct (virtio_contract demo_dev demo_rd demo_boot demo_s0 demo_bufs demo_blocks demo_trace demo_c5) as [H _].
  - exact demo_dev_conforms.
  - reflexivity.
  - reflexivity.
  - reflexivity.
  - reflexivity.
  - exact demo_init.
  - exact demo_run.
  - split; [exact demo_run|]. split; [exact (H 3%nat)|]. vm_compute. split; reflexivity.
Defined.
