(* ===== verification/Log.v ===== *)
(** * The write-ahead log (kernel/log.c)

    The disk's log is a header block and the blocks after it.  [commit] copies the blocks
    of the transaction from the cache to the log, writes the header (the commit point),
    installs the blocks at their home locations and clears the header.  Recovery installs
    what a non-zero header names. *)

From S2P Require Import Prelude Spinlock State Printk Sync Bio.

Definition getlog : K logstate := gets (fun s => klog s).
Definition setlog (f : logstate -> logstate) : K unit :=
  modify (fun s => set_klog (f (klog s)) s).
Definition set_n (n : Z) (l : logstate) : logstate :=
  {| l with log_lh := {| (log_lh l) with lh_n := n |} |}.
Definition set_block (i : nat) (b : Z) (l : logstate) : logstate :=
  {| l with log_lh := {| (log_lh l) with lh_block := <[i := b]> (lh_block (log_lh l)) |} |}.

(** [log.lh.block[i]]. *)
Definition block_at (i : nat) : K Z :=
  l ← getlog; deref "log.lh.block" (lh_block (log_lh l) !! i).

(** The fields of a header in a block's data. *)
Definition hdr_n (d : list Z) : Z := s32 (get_le 0 4 d).
Definition hdr_block (d : list Z) (i : nat) : Z := s32 (get_le (4 + 4 * i) 4 d).
Definition put_hdr (n : Z) (bs : list Z) (d : list Z) : list Z :=
  fst (fold_left (fun '(d, i) b => (put_le (4 + 4 * i) 4 b d, S i)) bs (put_le 0 4 n d, 0%nat)).

Definition install_trans (recovering : bool) : K unit :=
  l ← getlog;
  mfor (seq 0 (Z.to_nat (lh_n (log_lh l)))) (fun tail =>
    when recovering
      (b ← block_at tail;
       printk (str "recovering tail %d dst %d" ++ [10]) [VInt (Z.of_nat tail); VInt b];;
       ret tt);;
    l ← getlog;
    lbuf ← bread (log_dev l) (log_start l + Z.of_nat tail + 1);
    b ← block_at tail;
    dbuf ← bread (log_dev l) b;
    src ← get_buf lbuf;
    set_data dbuf (b_data src);;
    bwrite dbuf;;
    when (negb recovering) (bunpin dbuf);;
    brelse lbuf;;
    brelse dbuf).

Definition read_head : K unit :=
  l ← getlog;
  i ← bread (log_dev l) (log_start l);
  b ← get_buf i;
  setlog (set_n (hdr_n (b_data b)));;
  mfor (seq 0 (Z.to_nat (hdr_n (b_data b)))) (fun k =>
    l ← getlog;
    if (k <? length (lh_block (log_lh l)))%nat
    then setlog (set_block k (hdr_block (b_data b) k))
    else fault "log.lh.block");;
  brelse i.

Definition write_head : K unit :=
  l ← getlog;
  i ← bread (log_dev l) (log_start l);
  b ← get_buf i;
  set_data i (put_hdr (lh_n (log_lh l)) (take (Z.to_nat (lh_n (log_lh l))) (lh_block (log_lh l)))
                (b_data b));;
  bwrite i;;
  brelse i.

Definition recover_from_log : K unit :=
  read_head;;
  install_trans true;;
  setlog (set_n 0);;
  write_head.

Definition initlog (dev : Z) (sb : superblock) : K unit :=
  panic_if (BSIZE <=? 4 + 4 * LOGBLOCKS) "initlog: too big logheader";;
  setlog (fun l => {| l with log_start := sb_logstart sb |});;
  setlog (fun l => {| l with log_dev := dev |});;
  recover_from_log.

(** The body of [begin_op]'s loop, with the lock held: it sleeps, or takes its place. *)
Definition begin_op_test : K unit :=
  l ← getlog;
  if negb (log_committing l =? 0) then sleep C_log L_log
  else if LOGBLOCKS <? lh_n (log_lh l) + (log_outstanding l + 1) * MAXOPBLOCKS
  then sleep C_log L_log
  else
    setlog (fun l => {| l with log_outstanding := log_outstanding l + 1 |});;
    release L_log.
Definition begin_op : K unit := acquire L_log;; begin_op_test.
Definition begin_op_resume : K unit := sleep_after L_log;; begin_op_test.

Definition write_log : K unit :=
  l ← getlog;
  mfor (seq 0 (Z.to_nat (lh_n (log_lh l)))) (fun tail =>
    l ← getlog;
    to ← bread (log_dev l) (log_start l + Z.of_nat tail + 1);
    b ← block_at tail;
    from ← bread (log_dev l) b;
    src ← get_buf from;
    set_data to (b_data src);;
    bwrite to;;
    brelse from;;
    brelse to).

Definition commit : K unit :=
  l ← getlog;
  when (0 <? lh_n (log_lh l))
    (write_log;;
     write_head;;
     install_trans false;;
     setlog (set_n 0);;
     write_head).

Definition end_op : K unit :=
  acquire L_log;;
  setlog (fun l => {| l with log_outstanding := log_outstanding l - 1 |});;
  l ← getlog;
  panic_if (negb (log_committing l =? 0)) "log.committing";;
  do_commit ←
    (if log_outstanding l =? 0 then
       setlog (fun l => {| l with log_committing := 1 |});; ret true
     else
       wakeup C_log;; ret false);
  release L_log;;
  when do_commit
    (commit;;
     acquire L_log;;
     setlog (fun l => {| l with log_committing := 0 |});;
     setlog (fun l => {| l with log_ncommit := log_ncommit l + 1 |});;
     wakeup C_log;;
     release L_log).

(** The index of the first entry of the transaction equal to [b], or [n]. *)
Fixpoint log_slot (b : Z) (bs : list Z) : nat :=
  match bs with
  | [] => 0
  | x :: bs' => if x =? b then 0 else S (log_slot b bs')
  end.

Definition log_write (i : nat) : K unit :=
  acquire L_log;;
  l ← getlog;
  panic_if (LOGBLOCKS <=? lh_n (log_lh l)) "too big a transaction";;
  panic_if (log_outstanding l <? 1) "log_write outside of trans";;
  b ← get_buf i;
  let slot := log_slot (b_blockno b) (take (Z.to_nat (lh_n (log_lh l))) (lh_block (log_lh l))) in
  setlog (set_block slot (b_blockno b));;
  when (Z.of_nat slot =? lh_n (log_lh l))
    (bpin i;;
     setlog (fun l => set_n (lh_n (log_lh l) + 1) l));;
  release L_log.

(** [sys_sync] waits for the commit after the current one; [n] is its local variable. *)
Definition sys_sync_test (n : Z) : K Z :=
  l ← getlog;
  if log_ncommit l <? n then sleep C_log L_log;; ret 0
  else release L_log;; ret 0.
Definition sys_sync : K Z :=
  acquire L_log;;
  l ← getlog;
  if negb (log_committing l =? 0) || (0 <? log_outstanding l)
  then sys_sync_test (log_ncommit l + 1)
  else release L_log;; ret 0.
Definition sys_sync_resume (n : Z) : K Z := sleep_after L_log;; sys_sync_test n.

(** ** Copying a block through the cache *)

(** The common end of the loops of [write_log] and [install_trans]. *)
Definition copy_tail (dst src : nat) (unpin : bool) : K unit :=
  b ← get_buf src;
  set_data dst (b_data b);;
  bwrite dst;;
  when unpin (bunpin dst);;
  brelse src;;
  brelse dst.

(** The references that the loop drops. *)
Definition dpins (unpin : bool) : Z := if unpin then 2 else 1.

Section Tail.
Context (me : nat) (a b : Z) (i j : nat) (unpin : bool) (s : kstate).
Context (Hinv : bio_inv s) (Hc : bio_ctx me s) (Hi : loaded me i a s) (Hj : loaded me j b s).
Context (Hab : a <> b) (Hclean : 1 < pins s b \/ view s b = disk_blocks s b).
Context (Hpin : unpin = true -> 1 < pins s a).

Let Hij : i <> j.
Proof. intros ->. destruct Hi as [_ _ Ha _ _ _], Hj as [_ _ Hb _ _ _]. congruence. Qed.

Lemma loaded_other me' k x s1 s2 : loaded me' k x s1 -> k <> i ->
  (forall k, k <> i -> bufs s2 !!! k = bufs s1 !!! k) -> procs s2 = procs s1 -> loaded me' k x s2.
Proof. intros H Hne Ho Hp. eapply loaded_frame; [done|by apply Ho|by rewrite Hp]. Qed.

(** The state after the optional [bunpin]. *)
Record before_release (s' : kstate) : Prop := {
  br_inv : bio_inv s';
  br_ctx : bio_ctx me s';
  br_i : loaded me i a s';
  br_j : loaded me j b s';
  br_view : forall x, view s' x = if decide (x = a) then view s b else view s x;
  br_pins : forall x, pins s' x = pins s x - (if decide (x = a) then dpins unpin - 1 else 0);
  br_locked : forall x, locked s' x = locked s x;
  br_nused : nused s' = nused s;
  br_disk : disk_blocks s' = disk_set a (view s b) (disk_blocks s);
  br_writes : disk_writes s' = disk_writes s ++ [(a, view s b)];
  br_frame : io_frame s s' }.

Lemma write_dst :
  wp (b ← get_buf j; set_data i (b_data b);; bwrite i;; when unpin (bunpin i))
     (fun _ s' => before_release s') s.
Proof.
  unfold get_buf. wp_step. wp_step. rewrite <-(loaded_view me j b s) by done.
  apply wp_bind. eapply wp_mono; [by eapply set_data_spec|]. intros [] s1 [E1 F1].
  assert (Hj1 : loaded me j b s1).
  { eapply loaded_other; [done|done|apply E1|by rewrite F1]. }
  apply wp_bind. eapply wp_mono; [eapply bwrite_spec; apply E1|]. intros [] s2 [E2 F2].
  rewrite (ed_view _ _ _ _ _ _ _ E1), decide_True in E2, F2 by done.
  assert (Hj2 : loaded me j b s2).
  { eapply loaded_other; [exact Hj1|done|apply E2|by rewrite F2]. }
  assert (F12 : io_frame s s2).
  { eapply io_frame_trans; [|rewrite F2; apply bwritten_io]. rewrite F1. apply set_bufs_io. }
  assert (Hp2 : forall x, pins s2 x = pins s x).
  { intros x. rewrite (ed_pins _ _ _ _ _ _ _ E2), (ed_pins _ _ _ _ _ _ _ E1).
    destruct (decide (x = a)); lia. }
  assert (Hv2 : forall x, view s2 x = if decide (x = a) then view s b else view s x).
  { intros x. rewrite (ed_view _ _ _ _ _ _ _ E2), (ed_view _ _ _ _ _ _ _ E1).
    by destruct (decide (x = a)). }
  assert (Hl2 : forall x, locked s2 x = locked s x).
  { intros x. by rewrite (ed_locked _ _ _ _ _ _ _ E2), (ed_locked _ _ _ _ _ _ _ E1). }
  assert (Hn2 : nused s2 = nused s).
  { by rewrite (ed_nused _ _ _ _ _ _ _ E2), (ed_nused _ _ _ _ _ _ _ E1). }
  assert (Hd2 : disk_blocks s2 = disk_set a (view s b) (disk_blocks s)).
  { rewrite F2, F1. done. }
  assert (Hw2 : disk_writes s2 = disk_writes s ++ [(a, view s b)]).
  { rewrite F2, F1. done. }
  destruct unpin eqn:Eu; unfold when.
  - eapply wp_mono; [eapply bunpin_spec; try apply E2|].
    { rewrite Hp2. by apply Hpin. }
    intros [] s3 [E3 F3]. rewrite Hv2, decide_True in E3 by done.
    split; [apply E3|apply E3|apply E3|..].
    + eapply loaded_other; [exact Hj2|done|apply E3|by rewrite F3].
    + intros x. rewrite (ed_view _ _ _ _ _ _ _ E3), Hv2. by destruct (decide (x = a)).
    + intros x. rewrite (ed_pins _ _ _ _ _ _ _ E3), Hp2. unfold dpins. rewrite Eu. destruct (decide (x = a)); lia.
    + intros x. by rewrite (ed_locked _ _ _ _ _ _ _ E3), Hl2.
    + by rewrite (ed_nused _ _ _ _ _ _ _ E3), Hn2.
    + by rewrite F3.
    + by rewrite F3.
    + eapply io_frame_trans; [exact F12|]. rewrite F3. apply set_bufs_io.
  - apply wp_ret. split; [apply E2|apply E2|apply E2|..]; try done. intros x. rewrite Hp2. unfold dpins. rewrite Eu. destruct (decide (x = a)); lia.
Qed.

Lemma copy_tail_spec :
  (forall x, x <> a -> x <> b -> locked s x = false) ->
  wp (copy_tail i j unpin) (fun _ s' =>
    calm me s' /\
    (forall x, view s' x = if decide (x = a) then view s b else view s x) /\
    (forall x, pins s' x = pins s x - (if decide (x = a) then dpins unpin else if decide (x = b) then 1 else 0)) /\
    (nused s' = nused s - (if decide (pins s b = 1%Z) then 1 else 0)
                        - (if decide (pins s a = dpins unpin) then 1 else 0))%nat /\
    disk_blocks s' = disk_set a (view s b) (disk_blocks s) /\
    disk_writes s' = disk_writes s ++ [(a, view s b)] /\ io_frame s s') s.
Proof.
  intros Hfree. unfold copy_tail.
  assert (Hassoc : wp (bind (b ← get_buf j; set_data i (b_data b);; bwrite i;; when unpin (bunpin i))
     (fun _ => brelse j;; brelse i)) (fun _ s' =>
    calm me s' /\
    (forall x, view s' x = if decide (x = a) then view s b else view s x) /\
    (forall x, pins s' x = pins s x - (if decide (x = a) then dpins unpin else if decide (x = b) then 1 else 0)) /\
    (nused s' = nused s - (if decide (pins s b = 1%Z) then 1 else 0)
                        - (if decide (pins s a = dpins unpin) then 1 else 0))%nat /\
    disk_blocks s' = disk_set a (view s b) (disk_blocks s) /\
    disk_writes s' = disk_writes s ++ [(a, view s b)] /\ io_frame s s') s).
  2: { revert Hassoc. unfold wp, bind, get_buf, gets. destruct (set_data _ _ s); [|done..].
       destruct (bwrite i s0); [|done..]. done. }
  apply wp_bind. eapply wp_mono; [apply write_dst|]. intros [] s1 B.
  apply wp_bind. eapply wp_mono; [eapply brelse_spec; try apply B|].
  { rewrite (br_pins _ B), (br_view _ B), (br_disk _ B), decide_False by congruence.
    rewrite decide_False by congruence. unfold disk_set. destruct (Z.eqb_spec b a); [congruence|].
    rewrite Z.sub_0_r. done. }
  intros [] s2 R.
  assert (Hi2 : loaded me i a s2).
  { eapply loaded_frame; [apply B|by apply R|apply R]. }
  eapply wp_mono; [eapply brelse_spec; [apply R|apply R|exact Hi2|]|].
  { right. rewrite (re_view _ _ _ _ _ R), (br_view _ B), decide_True by done.
    rewrite (re_frame _ _ _ _ _ R). cbn. rewrite (br_disk _ B). unfold disk_set. by rewrite Z.eqb_refl. }
  intros [] s3 R3.
  assert (Hp2 : pins s2 a = pins s a - (dpins unpin - 1)).
  { rewrite (re_pins _ _ _ _ _ R), (br_pins _ B). rewrite decide_True, decide_False by done. lia. }
  split; [|split; [|split; [|split; [|split; [|split]]]]].
  - split; [apply R3|apply R3|]. intros x. rewrite (re_locked _ _ _ _ _ R3), (re_locked _ _ _ _ _ R).
    destruct (decide (x = a)); [done|]. destruct (decide (x = b)); [done|].
    rewrite (br_locked _ B). by apply Hfree.
  - intros x. by rewrite (re_view _ _ _ _ _ R3), (re_view _ _ _ _ _ R), (br_view _ B).
  - intros x. rewrite (re_pins _ _ _ _ _ R3), (re_pins _ _ _ _ _ R), (br_pins _ B).
    destruct (decide (x = a)), (decide (x = b)); subst; done || lia.
  - assert (Hpb : pins s1 b = pins s b) by (rewrite (br_pins _ B), decide_False by congruence; lia).
    rewrite (re_nused _ _ _ _ _ R3), (re_nused _ _ _ _ _ R), (br_nused _ B), Hp2, Hpb.
    destruct (decide (pins s a - (dpins unpin - 1) = 1)), (decide (pins s a = dpins unpin)); lia.
  - rewrite (re_frame _ _ _ _ _ R3), (re_frame _ _ _ _ _ R). apply (br_disk _ B).
  - rewrite (re_frame _ _ _ _ _ R3), (re_frame _ _ _ _ _ R). apply (br_writes _ B).
  - eapply io_frame_trans; [apply B|]. eapply io_frame_trans; by eapply released_io.
Qed.
End Tail.

(** ** The loops *)
Section Steps.
Context (me : nat) (l : logstate) (k : nat) (b : Z) (s : kstate).
Context (Hlog : klog s = l) (Hdev : log_dev l = ROOTDEV) (Hb : lh_block (log_lh l) !! k = Some b).
Context (a : Z) (Ha : a = log_start l + Z.of_nat k + 1).
Context (Hcalm : calm me s) (Hab : a <> b).

Lemma block_at_eval s' : klog s' = l -> block_at k s' = Ok b s'.
Proof. intros E. unfold block_at, getlog, bind, gets. rewrite E, Hb. done. Qed.

Definition write_log_body (tail : nat) : K unit :=
  l ← getlog;
  to ← bread (log_dev l) (log_start l + Z.of_nat tail + 1);
  b ← block_at tail;
  from ← bread (log_dev l) b;
  copy_tail to from false.

Lemma write_log_step : 1 <= pins s b -> (nused s < NBUF)%nat ->
  wp (write_log_body k) (fun _ s' => copied me a (view s b) 0 s s') s.
Proof.
  intros Hpin Hn. unfold write_log_body, getlog. wp_step. wp_step. rewrite Hlog, Hdev, <-Ha.
  destruct Hcalm as [Hinv Hc Hf].
  apply wp_bind. eapply wp_mono; [apply (bread_spec me); auto|]. intros i s1 G1.
  assert (Hl1 : klog s1 = l) by (rewrite (got_frame _ _ _ _ _ G1); done).
  apply wp_bind. eapply wp_intro; [by apply block_at_eval|].
  apply wp_bind. eapply wp_mono; [apply (bread_spec me); try apply G1|].
  { rewrite (got_locked _ _ _ _ _ G1), decide_False by congruence. apply Hf. }
  { left. rewrite (got_pins _ _ _ _ _ G1), decide_False by congruence. lia. }
  intros j s2 G2.
  assert (Hpb : pins s2 b = pins s b + 1).
  { rewrite (got_pins _ _ _ _ _ G2), (got_pins _ _ _ _ _ G1). by_cases. }
  assert (Hpa : pins s2 a = pins s a + 1).
  { rewrite (got_pins _ _ _ _ _ G2), (got_pins _ _ _ _ _ G1). by_cases. }
  pose proof (loaded_got _ _ _ _ _ _ _ (got_loaded _ _ _ _ _ G1) G2 Hab) as Hi2.
  eapply wp_mono; [eapply (copy_tail_spec me a b i j false s2); try apply G2; try done|].
  { left. lia. }
  { intros x Hxa Hxb. rewrite (got_locked _ _ _ _ _ G2), (got_locked _ _ _ _ _ G1).
    rewrite !decide_False by done. apply Hf. }
  assert (Hv2 : forall x, view s2 x = view s x).
  { intros x. by rewrite (got_view _ _ _ _ _ G2), (got_view _ _ _ _ _ G1). }
  rewrite Hv2. intros [] s3 (C3 & V3 & P3 & N3 & D3 & W3 & F3). split; [done|..].
  - intros x. rewrite V3. by rewrite Hv2.
  - intros x. rewrite P3, (got_pins _ _ _ _ _ G2), (got_pins _ _ _ _ _ G1). unfold dpins.
    by_cases.
  - rewrite N3, (got_nused _ _ _ _ _ G2), (got_nused _ _ _ _ _ G1), Hpb, Hpa. unfold dpins.
    rewrite (got_pins _ _ _ _ _ G1). by_cases.
  - rewrite D3, (got_frame _ _ _ _ _ G2), (got_frame _ _ _ _ _ G1). done.
  - rewrite W3, (got_frame _ _ _ _ _ G2), (got_frame _ _ _ _ _ G1). done.
  - eapply io_frame_trans; [by eapply got_io|]. eapply io_frame_trans; [by eapply got_io|done].
Qed.

(** The message of recovery. *)
Definition recovering_msg (tail : nat) : K unit :=
  b ← block_at tail;
  printk (str "recovering tail %d dst %d" ++ [10]) [VInt (Z.of_nat tail); VInt b];;
  ret tt.
Definition install_body (recovering : bool) (tail : nat) : K unit :=
  when recovering (recovering_msg tail);;
  l ← getlog;
  lbuf ← bread (log_dev l) (log_start l + Z.of_nat tail + 1);
  b ← block_at tail;
  dbuf ← bread (log_dev l) b;
  copy_tail dbuf lbuf (negb recovering).

Lemma recovering_msg_eval : L_pr ∉ held s ->
  exists o, recovering_msg k s = Ok tt (set_output o s).
Proof using Hlog Hb.
  intros Hp. unfold recovering_msg, bind. rewrite block_at_eval by done. unfold printk, bind.
  rewrite acquire_eval by done.
  change (str "recovering tail %d dst %d" ++ [10])
    with (str "recovering tail " ++ 37 :: 100 :: (str " dst " ++ 37 :: 100 :: [10])).
  rewrite printk_loop_plain by (repeat constructor; cbn; lia). rewrite printk_loop_d.
  rewrite printk_loop_plain by (repeat constructor; cbn; lia). rewrite printk_loop_d.
  rewrite <-(app_nil_r [10]), printk_loop_plain by (repeat constructor; cbn; lia).
  cbn [printk_loop]. unfold ret. erewrite release_eval by reflexivity. by eexists.
Qed.

Lemma install_step (recovering : bool) :
  (if recovering then L_pr ∉ held s /\ (S (nused s) < NBUF)%nat
   else 1 <= pins s b /\ (nused s < NBUF)%nat) ->
  wp (install_body recovering k)
     (fun _ s' => copied me b (view s a) (if recovering then 0 else 1) s s') s.
Proof.
  intros Hpre. unfold install_body.
  assert (Hmsg : exists o, when recovering (recovering_msg k) s = Ok tt (set_output o s)).
  { destruct recovering; cbn [when]; [apply recovering_msg_eval, Hpre|]. by exists (output s). }
  destruct Hmsg as [o Ho]. apply wp_bind. eapply wp_intro; [exact Ho|].
  set (s0 := set_output o s). pose proof (calm_output me o s Hcalm) as Hcalm0. fold s0 in Hcalm0.
  destruct Hcalm0 as [Hinv Hc Hf].
  unfold getlog. wp_step. wp_step. change (klog s0) with (klog s). rewrite Hlog, Hdev, <-Ha.
  apply wp_bind. eapply wp_mono; [apply (bread_spec me); auto|].
  { right. change (nused s0) with (nused s). destruct recovering; lia. }
  intros j s1 G1.
  assert (Hl1 : klog s1 = l) by (rewrite (got_frame _ _ _ _ _ G1); done).
  apply wp_bind. eapply wp_intro; [by apply block_at_eval|].
  apply wp_bind. eapply wp_mono; [apply (bread_spec me); try apply G1|].
  { rewrite (got_locked _ _ _ _ _ G1), decide_False by congruence. apply Hf. }
  { rewrite (got_pins _ _ _ _ _ G1), (got_nused _ _ _ _ _ G1), decide_False by congruence.
    change (nused s0) with (nused s). change (pins s0) with (pins s).
    destruct recovering; [right; case_decide; lia|left; lia]. }
  intros i s2 G2.
  assert (Hp2 : forall x, pins s2 x = pins s x + (if decide (x = a) then 1 else if decide (x = b) then 1 else 0)).
  { intros x. rewrite (got_pins _ _ _ _ _ G2), (got_pins _ _ _ _ _ G1).
    change (pins s0) with (pins s). by_cases. }
  assert (Hv2 : forall x, view s2 x = view s x).
  { intros x. by rewrite (got_view _ _ _ _ _ G2), (got_view _ _ _ _ _ G1). }
  assert (Hd2 : disk_blocks s2 = disk_blocks s).
  { rewrite (got_frame _ _ _ _ _ G2), (got_frame _ _ _ _ _ G1). done. }
  pose proof (loaded_got _ _ _ _ _ _ _ (got_loaded _ _ _ _ _ G1) G2 Hab) as Hj2.
  eapply wp_mono; [eapply (copy_tail_spec me b a i j (negb recovering) s2); try apply G2; try done|].
  { rewrite Hp2, Hv2, Hd2. rewrite decide_True by done.
    destruct (decide (pins s a = 0)) as [E|E]; [right; by apply (view_unpinned s (ca_inv _ _ Hcalm))|left].
    pose proof (pins_nonneg s (ca_inv _ _ Hcalm) a). lia. }
  { rewrite Hp2. rewrite decide_False, decide_True by congruence. destruct recovering; [done|lia]. }
  { intros x Hxb Hxa. rewrite (got_locked _ _ _ _ _ G2), (got_locked _ _ _ _ _ G1).
    rewrite !decide_False by done. apply Hf. }
  rewrite Hv2. intros [] s3 (C3 & V3 & P3 & N3 & D3 & W3 & F3). split; [done|..].
  - intros x. rewrite V3. by rewrite Hv2.
  - intros x. rewrite P3, Hp2. destruct recovering; cbn [negb dpins]; by_cases.
  - assert (Hpa : pins s2 a = pins s a + 1) by (rewrite Hp2; by_cases).
    assert (Hpb : pins s2 b = pins s b + 1) by (rewrite Hp2; by_cases).
    assert (Hpb1 : pins s1 b = pins s b).
    { rewrite (got_pins _ _ _ _ _ G1). change (pins s0) with (pins s). by_cases. }
    rewrite N3, (got_nused _ _ _ _ _ G2), (got_nused _ _ _ _ _ G1), Hpa, Hpb, Hpb1.
    change (pins s0) with (pins s). change (nused s0) with (nused s). clear - Hpre.
    destruct recovering; cbn [negb dpins]; by_cases.
  - rewrite D3, Hd2. done.
  - rewrite W3, (got_frame _ _ _ _ _ G2), (got_frame _ _ _ _ _ G1). done.
  - apply (io_frame_trans _ s0); [apply output_io|].
    eapply io_frame_trans; [by eapply got_io|]. eapply io_frame_trans; [by eapply got_io|done].
Qed.
End Steps.

(** ** Sequences of disk writes *)
Definition apply_writes (ws : list (Z * list Z)) (d : Z -> list Z) : Z -> list Z :=
  fold_left (fun d '(b, v) => disk_set b v d) ws d.

Lemma apply_writes_app ws1 ws2 d :
  apply_writes (ws1 ++ ws2) d = apply_writes ws2 (apply_writes ws1 d).
Proof. apply fold_left_app. Qed.

Lemma apply_writes_ext ws d d' x : (forall y, d y = d' y) ->
  apply_writes ws d x = apply_writes ws d' x.
Proof.
  revert d d'. induction ws as [|[b v] ws IH]; intros d d' H; [apply H|].
  cbn. apply IH. intros y. unfold disk_set. by destruct (y =? b).
Qed.

(** A block that is not written keeps its contents. *)
Lemma apply_writes_out ws d x : x ∉ ws.*1 -> apply_writes ws d x = d x.
Proof.
  revert d. induction ws as [|[b v] ws IH]; intros d H; [done|].
  apply not_elem_of_cons in H as [Hb H]. cbn [apply_writes fold_left].
  change (apply_writes ws (disk_set b v d) x = d x). rewrite IH by done. unfold disk_set.
  by destruct (Z.eqb_spec x b).
Qed.

(** A block that is written once gets that contents. *)
Lemma apply_writes_in ws d x v : NoDup ws.*1 -> (x, v) ∈ ws -> apply_writes ws d x = v.
Proof.
  revert d. induction ws as [|[b w] ws IH]; intros d Hnd H; [by apply not_elem_of_nil in H|].
  cbn in Hnd. apply NoDup_cons in Hnd as [Hb Hnd].
  change (apply_writes ws (disk_set b w d) x = v). apply elem_of_cons in H as [[= -> ->]|H].
  - rewrite apply_writes_out by done. unfold disk_set. by rewrite Z.eqb_refl.
  - by apply IH.
Qed.

(** From [s] to [s'] the blocks of [ws] were written in order, in the cache and on the disk. *)
Record wrote (me : nat) (ws : list (Z * list Z)) (dp : Z -> Z) (s s' : kstate) : Prop := {
  wr_calm : calm me s';
  wr_view : forall x, view s' x = apply_writes ws (view s) x;
  wr_pins : forall x, pins s' x = pins s x - dp x;
  wr_nused : (nused s' <= nused s)%nat;
  wr_disk : disk_blocks s' = apply_writes ws (disk_blocks s);
  wr_writes : disk_writes s' = disk_writes s ++ ws;
  wr_frame : io_frame s s' }.

Lemma wrote_nil me s : calm me s -> wrote me [] (fun _ => 0) s s.
Proof.
  intros. split; try done.
  - intros x. lia.
  - by rewrite app_nil_r.
Qed.

Lemma wrote_trans me ws1 ws2 dp1 dp2 s s1 s2 :
  wrote me ws1 dp1 s s1 -> wrote me ws2 dp2 s1 s2 ->
  wrote me (ws1 ++ ws2) (fun x => dp1 x + dp2 x) s s2.
Proof.
  intros W1 W2. split.
  - apply W2.
  - intros x. rewrite (wr_view _ _ _ _ _ W2), apply_writes_app. apply apply_writes_ext, W1.
  - intros x. rewrite (wr_pins _ _ _ _ _ W2), (wr_pins _ _ _ _ _ W1). lia.
  - pose proof (wr_nused _ _ _ _ _ W2). pose proof (wr_nused _ _ _ _ _ W1). lia.
  - by rewrite (wr_disk _ _ _ _ _ W2), (wr_disk _ _ _ _ _ W1), apply_writes_app.
  - by rewrite (wr_writes _ _ _ _ _ W2), (wr_writes _ _ _ _ _ W1), app_assoc.
  - eapply io_frame_trans; [apply W1|apply W2].
Qed.

Lemma copied_wrote me a v dp s s' : copied me a v dp s s' ->
  wrote me [(a, v)] (fun x => if decide (x = a) then dp else 0) s s'.
Proof.
  intros C. split; try apply C. intros x. rewrite (cp_view _ _ _ _ _ _ C). cbn. unfold disk_set.
  by destruct (decide (x = a)), (Z.eqb_spec x a).
Qed.

Lemma wrote_log me ws dp s s' : wrote me ws dp s s' -> klog s' = klog s.
Proof. intros W. rewrite (if_rest _ _ (wr_frame _ _ _ _ _ W)). done. Qed.
Lemma wrote_held me ws dp s s' : wrote me ws dp s s' -> held s' = held s.
Proof. intros W. rewrite (if_rest _ _ (wr_frame _ _ _ _ _ W)). done. Qed.

(** ** A transaction *)
(** The in-memory header names the blocks [bs] of the transaction: distinct, none of them in
    the log. *)
Record log_wf (l : logstate) (bs : list Z) : Prop := {
  lw_dev : log_dev l = ROOTDEV;
  lw_n : lh_n (log_lh l) = Z.of_nat (length bs);
  lw_bs : exists rest, lh_block (log_lh l) = bs ++ rest;
  lw_len : length (lh_block (log_lh l)) = Z.to_nat LOGBLOCKS;
  lw_nodup : NoDup bs;
  lw_home : forall b, b ∈ bs -> ~ (log_start l <= b <= log_start l + LOGBLOCKS) }.

(** The writes of a commit, in the order of the code, for the contents [vs] of the blocks
    [bs] and the old contents [h] of the header block. *)
Definition log_copies (start : Z) (vs : list (list Z)) : list (Z * list Z) :=
  imap (fun k v => (start + Z.of_nat k + 1, v)) vs.
Definition commit_writes (start : Z) (bs : list Z) (vs : list (list Z)) (h : list Z) :
    list (Z * list Z) :=
  let h1 := put_hdr (Z.of_nat (length bs)) bs h in
  log_copies start vs ++ [(start, h1)] ++ zip bs vs ++ [(start, put_hdr 0 [] h1)].

Section Loops.
Context (me : nat) (l : logstate) (bs : list Z) (Hwf : log_wf l bs).
Let start := log_start l.
Let logblk (k : nat) : Z := start + Z.of_nat k + 1.

Lemma bs_lt k b : bs !! k = Some b -> (k < 30)%nat.
Proof.
  intros H%lookup_lt_Some. destruct (lw_bs _ _ Hwf) as [rest E].
  pose proof (lw_len _ _ Hwf) as L. rewrite E, length_app in L. change (Z.to_nat LOGBLOCKS) with 30%nat in L. lia.
Qed.

Lemma bs_block k b : bs !! k = Some b -> lh_block (log_lh l) !! k = Some b.
Proof.
  intros H. destruct (lw_bs _ _ Hwf) as [rest ->].
  rewrite lookup_app_l; [done|by apply lookup_lt_Some in H].
Qed.

Lemma home_log k b j : bs !! k = Some b -> (j < 30)%nat -> logblk j <> b.
Proof.
  intros H Hj E. apply (lw_home _ _ Hwf b); [by eapply list_elem_of_lookup_2|].
  unfold LOGBLOCKS, MAXOPBLOCKS. fold start. unfold logblk in E. lia.
Qed.

Lemma write_log_loop m : forall k s,
  (k + m = length bs)%nat -> klog s = l -> calm me s -> (nused s < NBUF)%nat ->
  (forall b, b ∈ bs -> 1 <= pins s b) ->
  wp (mfor (seq k m) write_log_body)
     (fun _ s' => wrote me (imap (fun i b => (logblk (k + i), view s b)) (drop k bs)) (fun _ => 0) s s') s.
Proof.
  induction m as [|m IH]; intros k s Hk Hl Hc Hn Hp; cbn [seq mfor].
  - rewrite drop_ge by lia. apply wp_ret. by apply wrote_nil.
  - destruct (lookup_lt_is_Some_2 bs k) as [b Hb]; [lia|].
    assert (b ∈ bs) as Hin by (by eapply list_elem_of_lookup_2).
    pose proof (bs_lt _ _ Hb) as H30.
    apply wp_bind. eapply wp_mono.
    { apply (write_log_step me l k b s Hl (lw_dev _ _ Hwf) (bs_block _ _ Hb) (logblk k));
        [done|done|by eapply home_log|by apply Hp|done]. }
    intros [] s1 C%copied_wrote. eapply wp_mono.
    { apply (IH (S k) s1); [lia|by rewrite (wrote_log _ _ _ _ _ C)|apply C| |].
      - pose proof (wr_nused _ _ _ _ _ C). lia.
      - intros b' Hb'. rewrite (wr_pins _ _ _ _ _ C). pose proof (Hp _ Hb'). by_cases. }
    intros [] s2 W. rewrite (drop_S _ _ _ Hb). cbn [imap].
    pose proof (wrote_trans _ _ _ _ _ _ _ _ C W) as W2. cbn [app] in W2.
    assert (E : imap (fun i b => (logblk (S k + i), view s1 b)) (drop (S k) bs) =
                imap ((fun i b => (logblk (k + i), view s b)) ∘ S) (drop (S k) bs)).
    { apply imap_ext. intros i x Hx. cbn. f_equal; [f_equal; lia|].
      rewrite lookup_drop in Hx. rewrite (wr_view _ _ _ _ _ C). apply apply_writes_out.
      cbn. intros ->%list_elem_of_singleton. by eapply home_log. }
    rewrite E in W2. rewrite Nat.add_0_r. destruct W2. split; try done.
    intros x. rewrite wr_pins0. by_cases.
Qed.

Lemma install_loop (recovering : bool) m : forall k s,
  (k + m = length bs)%nat -> klog s = l -> calm me s ->
  (if recovering then L_pr ∉ held s /\ (S (nused s) < NBUF)%nat
   else (nused s < NBUF)%nat /\ forall b, b ∈ drop k bs -> 1 <= pins s b) ->
  wp (mfor (seq k m) (install_body recovering))
     (fun _ s' => wrote me (imap (fun i b => (b, view s (logblk (k + i)))) (drop k bs))
        (fun x => if recovering then 0 else if decide (x ∈ drop k bs) then 1 else 0) s s') s.
Proof.
  induction m as [|m IH]; intros k s Hk Hl Hc Hpre; cbn [seq mfor].
  - rewrite drop_ge by lia. apply wp_ret. pose proof (wrote_nil me s Hc) as W. destruct W.
    split; try done. intros x. destruct recovering; [lia|].
    rewrite decide_False by apply not_elem_of_nil. lia.
  - destruct (lookup_lt_is_Some_2 bs k) as [b Hb]; [lia|].
    pose proof (bs_lt _ _ Hb) as H30. rewrite (drop_S _ _ _ Hb) in *.
    pose proof (lw_nodup _ _ Hwf) as Hnd. rewrite <-(take_drop_middle bs k b Hb) in Hnd.
    apply NoDup_app in Hnd as (_ & _ & [Hnb _]%NoDup_cons).
    apply wp_bind. eapply wp_mono.
    { apply (install_step me l k b s Hl (lw_dev _ _ Hwf) (bs_block _ _ Hb) (logblk k));
        [done|done|by eapply home_log|].
      destruct recovering; [done|]. destruct Hpre as [? Hp]. split; [|done]. apply Hp. by left. }
    intros [] s1 C%copied_wrote. eapply wp_mono.
    { apply (IH (S k) s1); [lia|by rewrite (wrote_log _ _ _ _ _ C)|apply C|].
      pose proof (wr_nused _ _ _ _ _ C). destruct recovering.
      - rewrite (wrote_held _ _ _ _ _ C). split; [apply Hpre|lia].
      - destruct Hpre as [? Hp]. split; [lia|]. intros b' Hb'. rewrite (wr_pins _ _ _ _ _ C).
        rewrite decide_False by congruence. rewrite Z.sub_0_r. apply Hp. by right. }
    intros [] s2 W. cbn [imap]. pose proof (wrote_trans _ _ _ _ _ _ _ _ C W) as W2. cbn [app] in W2.
    assert (E : imap (fun i b => (b, view s1 (logblk (S k + i)))) (drop (S k) bs) =
                imap ((fun i b => (b, view s (logblk (k + i)))) ∘ S) (drop (S k) bs)).
    { apply imap_ext. intros i x Hx. cbn. f_equal. replace (k + S i)%nat with (S k + i)%nat by lia.
      rewrite lookup_drop in Hx. rewrite (wr_view _ _ _ _ _ C). apply apply_writes_out.
      cbn. intros Hlog%list_elem_of_singleton. apply bs_lt in Hx.
      by eapply (home_log k b (S k + i)). }
    rewrite E in W2. rewrite Nat.add_0_r. destruct W2. split; try done.
    intros x. rewrite wr_pins0. destruct recovering; [by_cases|].
    pose proof (elem_of_cons (drop (S k) bs) x b) as Hx.
    destruct (decide (x = b)) as [->|Hne].
    + rewrite (decide_False (P := b ∈ drop (S k) bs)), decide_True by (by rewrite ?Hx; auto). lia.
    + destruct (decide (x ∈ drop (S k) bs)).
      * rewrite decide_True by (rewrite Hx; auto). lia.
      * rewrite decide_False by (rewrite Hx; tauto). lia.
Qed.
End Loops.

(** Changing the in-memory log changes nothing of the cache. *)
Lemma calm_klog me l s : calm me s -> calm me (set_klog l s).
Proof.
  intros [Hi Hc Hf]. split; [|by eapply bio_ctx_frame|exact Hf]. destruct Hi. split; done.
Qed.
Lemma io_frame_klog l s s' : io_frame s s' -> io_frame (set_klog l s) (set_klog l s').
Proof. intros [H1 H2]. split; [rewrite H1; done|done]. Qed.
Lemma wrote_klog me ws dp l s s' :
  wrote me ws dp s s' -> wrote me ws dp (set_klog l s) (set_klog l s').
Proof.
  intros [Hc Hv Hp Hn Hd Hw Hf]. split; try done; [by apply calm_klog|by apply io_frame_klog].
Qed.

(** The header is written by reading its block, replacing its fields and writing it through. *)
Lemma write_head_spec me l bs s :
  klog s = l -> log_dev l = ROOTDEV -> lh_n (log_lh l) = Z.of_nat (length bs) ->
  (exists rest, lh_block (log_lh l) = bs ++ rest) -> calm me s -> (nused s < NBUF)%nat ->
  wp write_head (fun _ s' =>
    wrote me [(log_start l, put_hdr (Z.of_nat (length bs)) bs (view s (log_start l)))]
      (fun _ => 0) s s') s.
Proof.
  intros Hl Hd Hlen [rest Hbs] Hc Hn.
  assert (E : write_head s = overwrite (log_start l) (put_hdr (Z.of_nat (length bs)) bs) s).
  { unfold write_head, getlog, bind at 1, gets at 1. rewrite Hl, Hd, Hlen, Hbs, Nat2Z.id.
    by rewrite take_app_length. }
  unfold wp. rewrite E. pose proof (overwrite_spec me s (log_start l)
    (put_hdr (Z.of_nat (length bs)) bs) Hc (or_intror Hn)) as W. unfold wp in W.
  destruct (overwrite _ _ s) as [[] s'| | |]; try done. apply copied_wrote in W.
  destruct W. split; try done. intros x. rewrite wr_pins0. by_cases.
Qed.

Lemma log_copies_eq start vs (f : Z -> list Z) bs : vs = map f bs ->
  imap (fun i b => (start + Z.of_nat (0 + i) + 1, f b)) (drop 0 bs) = log_copies start vs.
Proof. intros ->. unfold log_copies. rewrite drop_0. by rewrite imap_fmap. Qed.

Lemma imap_zip {A B} (f : nat -> B) (l : list A) :
  imap (fun i a => (a, f i)) l = zip l (map f (seq 0 (length l))).
Proof.
  apply list_eq. intros i. rewrite list_lookup_imap, lookup_zip_with, list_lookup_fmap.
  destruct (l !! i) as [a|] eqn:E; cbn; [|done].
  rewrite lookup_seq_lt by (by apply lookup_lt_Some in E). done.
Qed.

Lemma log_copies_fst start vs x :
  x ∈ (log_copies start vs).*1 -> start < x <= start + Z.of_nat (length vs).
Proof.
  intros ([b v] & -> & H)%list_elem_of_fmap. apply list_elem_of_lookup in H as [i H].
  unfold log_copies in H. rewrite list_lookup_imap in H.
  destruct (vs !! i) eqn:E; [|done]. injection H as <- <-. apply lookup_lt_Some in E. cbn. lia.
Qed.

Lemma log_copies_nodup start vs : NoDup (log_copies start vs).*1.
Proof.
  apply NoDup_fmap_2_strong; [|].
  - intros [a v] [a' v'] [i Hi]%list_elem_of_lookup [j Hj]%list_elem_of_lookup E.
    unfold log_copies in Hi, Hj. rewrite list_lookup_imap in Hi, Hj.
    destruct (vs !! i) eqn:Ei, (vs !! j) eqn:Ej; try done. injection Hi as <- <-.
    injection Hj as <- <-. cbn in E. assert (i = j) as -> by lia. congruence.
  - apply NoDup_alt. intros i j x Hi Hj. unfold log_copies in Hi, Hj.
    rewrite list_lookup_imap in Hi, Hj. destruct (vs !! i), (vs !! j); try done.
    injection Hi as <-. injection Hj as E. lia.
Qed.

Lemma log_copies_lookup start vs k v d : vs !! k = Some v ->
  apply_writes (log_copies start vs) d (start + Z.of_nat k + 1) = v.
Proof.
  intros H. apply apply_writes_in; [apply log_copies_nodup|].
  apply (list_elem_of_lookup_2 _ k). unfold log_copies. by rewrite list_lookup_imap, H.
Qed.

Section Commit.
Context (me : nat) (l : logstate) (bs : list Z) (s : kstate) (Hwf : log_wf l bs).
Context (Hl : klog s = l) (Hc : calm me s) (Hn : (nused s < NBUF)%nat) (Hne : bs <> []).
Context (Hpin : forall b, b ∈ bs -> 1 <= pins s b).
Let start := log_start l.
Let vs := map (view s) bs.

Lemma length_vs : length vs = length bs.
Proof. apply length_map. Qed.

Lemma bs_le_30 : (length bs <= 30)%nat.
Proof using Hwf.
  clear s Hl Hc Hn Hpin vs. destruct (lw_bs _ _ Hwf) as [rest E]. pose proof (lw_len _ _ Hwf) as L.
  rewrite E, length_app in L. change (Z.to_nat LOGBLOCKS) with 30%nat in L. lia.
Qed.

(** The log's own blocks are not home locations. *)
Lemma log_not_home x : start <= x <= start + 30 -> x ∉ bs.
Proof. intros Hx Hin. by apply (lw_home _ _ Hwf x). Qed.

(** The state when the blocks are in the log and the header is about to be cleared. *)
Lemma commit_installed :
  wp (write_log;; write_head;; install_trans false) (fun _ s' =>
    wrote me (log_copies start vs ++ [(start, put_hdr (Z.of_nat (length bs)) bs (view s start))]
              ++ zip bs vs)
      (fun x => if decide (x ∈ bs) then 1 else 0) s s') s.
Proof.
  pose proof bs_le_30 as H30. pose proof (lw_dev _ _ Hwf) as Hdev. pose proof (lw_n _ _ Hwf) as Hlen.
  apply wp_bind. eapply (wp_mono _ (fun _ s' => wrote me (log_copies start vs) (fun _ => 0) s s')).
  { unfold write_log, getlog. wp_step. wp_step. rewrite Hl, Hlen, Nat2Z.id.
    rewrite <-(log_copies_eq start vs (view s) bs eq_refl).
    apply (write_log_loop me l bs Hwf (length bs) 0 s); auto. }
  intros [] s1 W1. assert (Hl1 : klog s1 = l) by (by rewrite (wrote_log _ _ _ _ _ W1)).
  assert (Hn1 : (nused s1 < NBUF)%nat) by (pose proof (wr_nused _ _ _ _ _ W1); lia).
  assert (Hh1 : view s1 start = view s start).
  { rewrite (wr_view _ _ _ _ _ W1). apply apply_writes_out. intros ?%log_copies_fst. lia. }
  apply wp_bind. eapply wp_mono.
  { apply (write_head_spec me l bs s1 Hl1 Hdev Hlen (lw_bs _ _ Hwf) (wr_calm _ _ _ _ _ W1) Hn1). }
  fold start. rewrite Hh1. intros [] s2 W2. pose proof (wrote_trans _ _ _ _ _ _ _ _ W1 W2) as W12.
  assert (Hl2 : klog s2 = l) by (by rewrite (wrote_log _ _ _ _ _ W12)).
  assert (Hv2 : map (fun k => view s2 (start + Z.of_nat k + 1)) (seq 0 (length bs)) = vs).
  { apply list_eq. intros k. rewrite list_lookup_fmap.
    destruct (decide (k < length bs)%nat) as [Hk|Hk].
    - rewrite lookup_seq_lt by done. cbn. destruct (lookup_lt_is_Some_2 vs k) as [v Hv]; [by rewrite length_vs|].
      rewrite Hv. f_equal. rewrite (wr_view _ _ _ _ _ W2), apply_writes_out.
      + rewrite (wr_view _ _ _ _ _ W1). by apply log_copies_lookup.
      + cbn. intros ?%list_elem_of_singleton. lia.
    - rewrite !lookup_ge_None_2; [done|rewrite length_vs; lia|rewrite length_seq; lia]. }
  eapply wp_mono.
  { unfold install_trans, getlog. wp_step. wp_step. rewrite Hl2, Hlen, Nat2Z.id.
    apply (install_loop me l bs Hwf false (length bs) 0 s2); [lia|done|apply W2|].
    split; [pose proof (wr_nused _ _ _ _ _ W2); lia|]. intros b Hb. rewrite drop_0 in Hb.
    rewrite (wr_pins _ _ _ _ _ W12). pose proof (Hpin b Hb). lia. }
  intros [] s3 W3. rewrite drop_0 in W3.
  rewrite (imap_zip (fun i => view s2 (log_start l + Z.of_nat (0 + i) + 1)) bs) in W3.
  change (map _ _) with (map (fun k => view s2 (start + Z.of_nat k + 1)) (seq 0 (length bs))) in W3.
  rewrite Hv2 in W3. pose proof (wrote_trans _ _ _ _ _ _ _ _ W12 W3) as W. rewrite <-app_assoc in W.
  destruct W. split; try done.
Qed.

Lemma commit_spec :
  wp commit (fun _ s' =>
    wrote me (commit_writes start bs vs (view s start)) (fun x => if decide (x ∈ bs) then 1 else 0)
      (set_klog (set_n 0 l) s) s') s.
Proof.
  unfold commit, getlog. wp_step. wp_step. rewrite Hl, (lw_n _ _ Hwf). unfold when.
  destruct (Z.ltb_spec 0 (Z.of_nat (length bs))) as [_|H0]; [|destruct bs; cbn in H0; [done|lia]].
  assert (Hassoc : wp (bind (write_log;; write_head;; install_trans false)
     (fun _ => setlog (set_n 0);; write_head)) (fun _ s' =>
    wrote me (commit_writes start bs vs (view s start)) (fun x => if decide (x ∈ bs) then 1 else 0)
      (set_klog (set_n 0 l) s) s') s).
  2: { revert Hassoc. unfold wp, bind. destruct (write_log s) as [[] s1| | |]; [|done..].
       destruct (write_head s1); done. }
  apply wp_bind. eapply wp_mono; [apply commit_installed|]. intros [] s1 W1.
  unfold setlog. wp_step. wp_step. rewrite (wrote_log _ _ _ _ _ W1), Hl.
  apply (wrote_klog _ _ _ (set_n 0 l)) in W1.
  assert (Hh : view (set_klog (set_n 0 l) s1) start = put_hdr (Z.of_nat (length bs)) bs (view s start)).
  { rewrite (wr_view _ _ _ _ _ W1), !apply_writes_app. rewrite (apply_writes_out (zip bs vs)).
    - cbn. unfold disk_set. by rewrite Z.eqb_refl.
    - rewrite fst_zip by (rewrite length_vs; lia). apply log_not_home. lia. }
  eapply wp_mono.
  { apply (write_head_spec me (set_n 0 l) [] (set_klog (set_n 0 l) s1)); try done.
    - apply Hwf.
    - cbn. by eexists.
    - apply W1.
    - pose proof (wr_nused _ _ _ _ _ W1). change (nused (set_klog _ s)) with (nused s) in *. lia. }
  intros [] s2 W2. change (log_start (set_n 0 l)) with start in W2. rewrite Hh in W2.
  pose proof (wrote_trans _ _ _ _ _ _ _ _ W1 W2) as W. unfold commit_writes.
  rewrite <-!app_assoc in W. destruct W. split; try done. intros x. rewrite wr_pins0. by_cases.
Qed.
End Commit.

(** ** Reading the header back *)
Definition put_blocks (i : nat) (bs : list Z) (d : list Z) : list Z :=
  fst (fold_left (fun '(d, i) b => (put_le (4 + 4 * i) 4 b d, S i)) bs (d, i)).

Lemma put_blocks_cons i b bs d : put_blocks i (b :: bs) d = put_blocks (S i) bs (put_le (4 + 4 * i) 4 b d).
Proof. done. Qed.

Lemma length_put_blocks bs i d : (4 + 4 * (i + length bs) <= length d)%nat ->
  length (put_blocks i bs d) = length d.
Proof.
  revert i d. induction bs as [|b bs IH]; intros i d H; [done|]. cbn [length] in H.
  rewrite put_blocks_cons, IH; rewrite length_put_le; lia.
Qed.

Lemma get_put_blocks_low bs i d off : (4 + 4 * (i + length bs) <= length d)%nat ->
  (off + 4 <= 4 + 4 * i)%nat -> get_le off 4 (put_blocks i bs d) = get_le off 4 d.
Proof.
  revert i d. induction bs as [|b bs IH]; intros i d H Hoff; [done|]. cbn [length] in H.
  rewrite put_blocks_cons, IH; [|rewrite length_put_le; lia|lia].
  apply get_put_le_ne; lia.
Qed.

Lemma get_put_blocks bs i d k b : (4 + 4 * (i + length bs) <= length d)%nat -> bs !! k = Some b ->
  get_le (4 + 4 * (i + k)) 4 (put_blocks i bs d) = b mod 2 ^ 32.
Proof.
  revert i d k. induction bs as [|b' bs IH]; intros i d k H Hk; [done|]. cbn [length] in H.
  rewrite put_blocks_cons. destruct k as [|k].
  - injection Hk as ->. rewrite get_put_blocks_low by (rewrite ?length_put_le; lia).
    rewrite Nat.add_0_r. rewrite get_put_le by lia. done.
  - replace (i + S k)%nat with (S i + k)%nat by lia. apply IH; [|done]. rewrite length_put_le; lia.
Qed.

Definition int_range (z : Z) : Prop := - 2 ^ 31 <= z < 2 ^ 31.

Lemma s32_mod z : int_range z -> s32 (z mod 2 ^ 32) = z.
Proof.
  unfold int_range, s32. intros. rewrite Zplus_mod_idemp_l. rewrite Z.mod_small; lia.
Qed.

Section Header.
Context (n : Z) (bs d : list Z) (Hd : (4 + 4 * length bs <= length d)%nat).

Lemma put_hdr_eq : put_hdr n bs d = put_blocks 0 bs (put_le 0 4 n d).
Proof. done. Qed.

Lemma length_put_hdr : length (put_hdr n bs d) = length d.
Proof. rewrite put_hdr_eq, length_put_blocks; rewrite length_put_le; lia. Qed.

Lemma hdr_n_put : int_range n -> hdr_n (put_hdr n bs d) = n.
Proof.
  intros Hn. unfold hdr_n. rewrite put_hdr_eq, get_put_blocks_low by (rewrite ?length_put_le; lia).
  rewrite get_put_le by lia. by apply s32_mod.
Qed.

Lemma hdr_block_put k b : bs !! k = Some b -> int_range b -> hdr_block (put_hdr n bs d) k = b.
Proof.
  intros Hk Hb. unfold hdr_block. rewrite put_hdr_eq.
  rewrite (get_put_blocks bs 0 _ k b) by (rewrite ?length_put_le; lia || done). by apply s32_mod.
Qed.
End Header.

(** The blocks that a header names. *)
Definition hdr_blocks (h : list Z) : list Z :=
  map (hdr_block h) (seq 0 (Z.to_nat (hdr_n h))).

Lemma hdr_blocks_put bs d : (4 + 4 * length bs <= length d)%nat -> Forall int_range bs ->
  (length bs <= 30)%nat -> hdr_blocks (put_hdr (Z.of_nat (length bs)) bs d) = bs.
Proof.
  intros Hd Hr H30. unfold hdr_blocks. rewrite hdr_n_put by (done || unfold int_range; lia).
  rewrite Nat2Z.id. apply list_eq. intros k. rewrite list_lookup_fmap.
  destruct (bs !! k) as [b|] eqn:E.
  - rewrite lookup_seq_lt by (by apply lookup_lt_Some in E). cbn. f_equal.
    apply hdr_block_put; [done..|]. rewrite Forall_lookup in Hr. by eapply Hr.
  - apply lookup_ge_None in E. rewrite lookup_ge_None_2; [done|rewrite length_seq; lia].
Qed.

(** The in-memory log after [read_head]. *)
Definition load_hdr (h : list Z) (l : logstate) : logstate :=
  {| l with log_lh :=
       {| lh_n := hdr_n h;
          lh_block := hdr_blocks h ++ drop (Z.to_nat (hdr_n h)) (lh_block (log_lh l)) |} |}.

Lemma length_hdr_blocks h : length (hdr_blocks h) = Z.to_nat (hdr_n h).
Proof. unfold hdr_blocks. by rewrite length_map, length_seq. Qed.

Definition read_block_body (h : list Z) (k : nat) : K unit :=
  l ← getlog;
  if (k <? length (lh_block (log_lh l)))%nat
  then setlog (set_block k (hdr_block h k))
  else fault "log.lh.block".

Definition with_blocks (n : Z) (blks : list Z) (l : logstate) : logstate :=
  {| l with log_lh := {| lh_n := n; lh_block := blks |} |}.

Lemma insert_at_end {A} (l1 l2 : list A) (x : A) : (0 < length l2)%nat ->
  <[length l1 := x]> (l1 ++ l2) = (l1 ++ [x]) ++ drop 1 l2.
Proof.
  intros H. destruct l2 as [|y l2]; [cbn in H; lia|].
  rewrite insert_app_r_alt, Nat.sub_diag by lia. cbn. rewrite drop_0, <-app_assoc. done.
Qed.

Lemma read_blocks_loop h n0 l orig s m : forall k, (k + m <= length orig)%nat ->
  mfor (seq k m) (read_block_body h)
    (set_klog (with_blocks n0 (map (hdr_block h) (seq 0 k) ++ drop k orig) l) s) =
  Ok tt (set_klog (with_blocks n0 (map (hdr_block h) (seq 0 (k + m)) ++ drop (k + m) orig) l) s).
Proof.
  induction m as [|m IH]; intros k Hk; cbn [seq mfor].
  - by rewrite Nat.add_0_r.
  - unfold bind, read_block_body at 1, bind, getlog, gets. cbn [klog set_klog with_blocks log_lh lh_block].
    rewrite length_app, length_map, length_seq, length_drop.
    destruct (Nat.ltb_spec k (k + (length orig - k))); [|lia].
    unfold setlog, modify. replace (k + S m)%nat with (S k + m)%nat by lia.
    etransitivity; [|apply (IH (S k)); lia]. f_equal. unfold set_klog, with_blocks, set_block.
    cbn [klog log_lh lh_block lh_n log_start log_outstanding log_committing log_dev log_ncommit].
    do 3 f_equal.
    pose proof (insert_at_end (map (hdr_block h) (seq 0 k)) (drop k orig) (hdr_block h k)) as E.
    rewrite length_map, length_seq, drop_drop in E. replace (k + 1)%nat with (S k) in E by lia.
    rewrite E by (rewrite length_drop; lia). rewrite seq_S, map_app. done.
Qed.

(** [loaded] and the cache's invariant do not look at the log. *)
Lemma bio_inv_klog l s : bio_inv s -> bio_inv (set_klog l s).
Proof. intros []. split; done. Qed.

Lemma read_head_spec me l s h :
  klog s = l -> log_dev l = ROOTDEV -> calm me s -> (nused s < NBUF)%nat ->
  view s (log_start l) = h -> (Z.to_nat (hdr_n h) <= length (lh_block (log_lh l)))%nat ->
  wp read_head (fun _ s' => wrote me [] (fun _ => 0) (set_klog (load_hdr h l) s) s') s.
Proof.
  intros Hl Hd [Hinv Hc Hf] Hn Hh Hlen. unfold read_head, getlog. wp_step. wp_step. rewrite Hl, Hd.
  apply wp_bind. eapply wp_mono; [apply (bread_spec me); auto|]. intros i s1 G.
  unfold get_buf. wp_step. wp_step. rewrite (got_data _ _ _ _ _ G), Hh.
  assert (Hl1 : klog s1 = l) by (by rewrite (got_frame _ _ _ _ _ G)).
  apply wp_bind. unfold setlog at 1. wp_step. rewrite Hl1.
  apply wp_bind. eapply wp_intro.
  { apply (read_blocks_loop h (hdr_n h) l (lh_block (log_lh l)) s1 (Z.to_nat (hdr_n h)) 0). lia. }
  change (map _ (seq 0 (0 + _))) with (hdr_blocks h). fold (load_hdr h l).
  set (s2 := set_klog _ s1). change (s2) with (set_klog (load_hdr h l) s1) in *. clear s2.
  set (s2 := set_klog (load_hdr h l) s1).
  assert (L2 : loaded me i (log_start l) s2).
  { pose proof (got_loaded _ _ _ _ _ G) as [? ? ? ? ? ?]. by split. }
  eapply wp_mono; [apply (brelse_spec me i (log_start l) s2); [apply bio_inv_klog, G| |done|]|].
  { eapply bio_ctx_frame; [apply G|done..]. }
  { change (pins s2) with (pins s1). change (view s2) with (view s1). change (disk_blocks s2) with (disk_blocks s1).
    rewrite (got_pins _ _ _ _ _ G), (got_view _ _ _ _ _ G), decide_True by done.
    rewrite (got_frame _ _ _ _ _ G). cbn [disk_blocks set_bufs].
    destruct (decide (pins s (log_start l) = 0)); [right; by apply view_unpinned|left].
    pose proof (pins_nonneg s Hinv (log_start l)). lia. }
  intros [] s3 R. split.
  - split; [apply R|apply R|]. intros x. rewrite (re_locked _ _ _ _ _ R).
    change (locked s2) with (locked s1). rewrite (got_locked _ _ _ _ _ G). by_cases.
  - intros x. rewrite (re_view _ _ _ _ _ R). change (view s2) with (view s1). apply G.
  - intros x. rewrite (re_pins _ _ _ _ _ R). change (pins s2) with (pins s1).
    rewrite (got_pins _ _ _ _ _ G). change (pins (set_klog (load_hdr h l) s)) with (pins s). by_cases.
  - rewrite (re_nused _ _ _ _ _ R). change (pins s2) with (pins s1). change (nused s2) with (nused s1).
    rewrite (got_nused _ _ _ _ _ G), (got_pins _ _ _ _ _ G).
    change (nused (set_klog (load_hdr h l) s)) with (nused s). by_cases.
  - rewrite (re_frame _ _ _ _ _ R). change (disk_blocks s1 = disk_blocks s).
    by rewrite (got_frame _ _ _ _ _ G).
  - rewrite (re_frame _ _ _ _ _ R), app_nil_r. change (disk_writes s1 = disk_writes s).
    by rewrite (got_frame _ _ _ _ _ G).
  - eapply io_frame_trans; [|by eapply released_io]. apply io_frame_klog. by eapply got_io.
Qed.

(** ** Recovery *)
Definition recover_writes (start : Z) (d : Z -> list Z) : list (Z * list Z) :=
  let bs := hdr_blocks (d start) in
  zip bs (map (fun k => d (start + Z.of_nat k + 1)) (seq 0 (length bs))) ++
  [(start, put_hdr 0 [] (d start))].

(** A header as [write_head] leaves it. *)
Record good_header (start : Z) (h : list Z) : Prop := {
  gh_n : 0 <= hdr_n h <= LOGBLOCKS;
  gh_nodup : NoDup (hdr_blocks h);
  gh_home : forall b, b ∈ hdr_blocks h -> ~ (start <= b <= start + LOGBLOCKS) }.

(** A kernel that has just booted: nothing is cached. *)
Record fresh (me : nat) (s : kstate) : Prop := {
  fr_calm : calm me s;
  fr_pins : forall x, pins s x = 0;
  fr_nused : nused s = 0%nat;
  fr_pr : L_pr ∉ held s;
  fr_len : length (lh_block (log_lh (klog s))) = Z.to_nat LOGBLOCKS }.

Lemma load_hdr_wf start h l : log_start l = start -> log_dev l = ROOTDEV ->
  length (lh_block (log_lh l)) = Z.to_nat LOGBLOCKS -> good_header start h ->
  log_wf (load_hdr h l) (hdr_blocks h).
Proof.
  intros Hs Hd Hlen [Hn Hnd Hh]. change (Z.to_nat LOGBLOCKS) with 30%nat in *.
  unfold LOGBLOCKS, MAXOPBLOCKS in *. split; cbn; try done.
  - rewrite length_hdr_blocks. lia.
  - by eexists.
  - rewrite length_app, length_drop, length_hdr_blocks, Hlen. change (Z.to_nat LOGBLOCKS) with 30%nat. lia.
  - rewrite Hs. done.
Qed.

Lemma wrote_nil_l me ws dp s s1 s2 : wrote me [] (fun _ => 0) s s1 -> wrote me ws dp s1 s2 ->
  wrote me ws dp s s2.
Proof.
  intros W1 W2. destruct (wrote_trans _ _ _ _ _ _ _ _ W1 W2). split; try done.
Qed.

Section Recovery.
Context (me : nat) (s : kstate) (sb : superblock) (Hfr : fresh me s).
Let start := sb_logstart sb.
Let d := disk_blocks s.
Context (Hgood : good_header start (d start)).
Let bs := hdr_blocks (d start).
Let l1 : logstate := {| (klog s) with log_start := start; log_dev := ROOTDEV |}.
Let l2 : logstate := load_hdr (d start) l1.

Lemma fresh_view x : view s x = d x.
Proof. apply view_unpinned; apply Hfr. Qed.

Lemma recover_spec :
  wp recover_from_log
     (fun _ s' => wrote me (recover_writes start d) (fun _ => 0) (set_klog (set_n 0 l2) s) s')
     (set_klog l1 s).
Proof.
  pose proof (load_hdr_wf start (d start) l1 eq_refl eq_refl (fr_len _ _ Hfr) Hgood) as Hwf.
  fold l2 in Hwf. unfold recover_from_log. apply wp_bind. eapply wp_mono.
  { apply (read_head_spec me l1 (set_klog l1 s) (d start)); try done.
    - apply calm_klog, Hfr.
    - change (nused (set_klog l1 s)) with (nused s). rewrite (fr_nused _ _ Hfr). unfold NBUF. lia.
    - apply fresh_view.
    - change (lh_block (log_lh l1)) with (lh_block (log_lh (klog s))). rewrite (fr_len _ _ Hfr).
      destruct Hgood as [Hn _ _]. lia. }
  change (set_klog (load_hdr (d start) l1) (set_klog l1 s)) with (set_klog l2 s).
  intros [] s1 W1. assert (Hl1 : klog s1 = l2) by (by rewrite (wrote_log _ _ _ _ _ W1)).
  assert (Hv1 : forall x, view s1 x = d x).
  { intros x. rewrite (wr_view _ _ _ _ _ W1). apply fresh_view. }
  apply wp_bind. eapply wp_mono.
  { unfold install_trans, getlog. wp_step. wp_step. rewrite Hl1, (lw_n _ _ Hwf), Nat2Z.id.
    apply (install_loop me l2 _ Hwf true (length (hdr_blocks (d start))) 0 s1); [lia|done|apply W1|].
    rewrite (wrote_held _ _ _ _ _ W1). split; [apply Hfr|].
    pose proof (wr_nused _ _ _ _ _ W1) as Hn. change (nused (set_klog l2 s)) with (nused s) in Hn.
    rewrite (fr_nused _ _ Hfr) in Hn. unfold NBUF. lia. }
  intros [] s2 W2. pose proof (wrote_nil_l _ _ _ _ _ _ W1 W2) as W12. clear W2.
  rewrite drop_0 in W12.
  rewrite (imap_zip (fun i => view s1 (log_start l2 + Z.of_nat (0 + i) + 1)) (hdr_blocks (d start))) in W12.
  assert (Em : map (fun i => view s1 (log_start l2 + Z.of_nat (0 + i) + 1)) (seq 0 (length (hdr_blocks (d start)))) =
               map (fun k => d (start + Z.of_nat k + 1)) (seq 0 (length (hdr_blocks (d start))))).
  { apply map_ext. intros k. apply Hv1. }
  rewrite Em in W12. clear Em.
  unfold setlog. wp_step. wp_step. rewrite (wrote_log _ _ _ _ _ W12).
  apply (wrote_klog _ _ _ (set_n 0 l2)) in W12.
  change (set_klog (set_n 0 l2) (set_klog l2 s)) with (set_klog (set_n 0 l2) s) in W12.
  assert (Hh : view (set_klog (set_n 0 l2) s2) start = d start).
  { rewrite (wr_view _ _ _ _ _ W12), apply_writes_out; [apply fresh_view|].
    rewrite fst_zip by (rewrite length_map, length_seq; lia).
    intros Hin. apply (gh_home _ _ Hgood start Hin). unfold LOGBLOCKS, MAXOPBLOCKS. lia. }
  eapply wp_mono.
  { apply (write_head_spec me (set_n 0 l2) [] (set_klog (set_n 0 l2) s2)); try done.
    - cbn. by eexists.
    - apply W12.
    - pose proof (wr_nused _ _ _ _ _ W12) as Hn.
      change (nused (set_klog (set_n 0 l2) s)) with (nused s) in Hn.
      rewrite (fr_nused _ _ Hfr) in Hn. unfold NBUF. lia. }
  change (log_start (set_n 0 l2)) with start. rewrite Hh.
  intros [] s3 W3. pose proof (wrote_trans _ _ _ _ _ _ _ _ W12 W3) as W.
  destruct W. split; try done.
Qed.

(** What [initlog] does to a booting kernel's disk. *)
Lemma initlog_spec :
  wp (initlog ROOTDEV sb) (fun _ s' =>
    disk_blocks s' = apply_writes (recover_writes start d) d /\
    disk_writes s' = disk_writes s ++ recover_writes start d /\
    lh_n (log_lh (klog s')) = 0 /\ log_start (klog s') = start /\ log_dev (klog s') = ROOTDEV /\
    calm me s') s.
Proof.
  unfold initlog. wp_step. apply wp_ret. apply wp_bind, wp_modify. apply wp_bind, wp_modify.
  eapply wp_mono; [apply recover_spec|]. intros [] s' W.
  split; [apply (wr_disk _ _ _ _ _ W)|]. split; [apply (wr_writes _ _ _ _ _ W)|].
  rewrite (wrote_log _ _ _ _ _ W). split; [done|]. split; [done|]. split; [done|]. apply W.
Qed.
End Recovery.

(** ** Crashes *)
Definition recovered (start : Z) (d : Z -> list Z) : Z -> list Z :=
  apply_writes (recover_writes start d) d.
Definition home (start x : Z) : Prop := ~ (start <= x <= start + LOGBLOCKS).

Lemma hdr_blocks_zero h : hdr_n h = 0 -> hdr_blocks h = [].
Proof. intros H. unfold hdr_blocks. by rewrite H. Qed.

Lemma recovered_idle start d x : hdr_n (d start) = 0 -> x <> start -> recovered start d x = d x.
Proof.
  intros Hn Hx. unfold recovered, recover_writes. rewrite hdr_blocks_zero by done. cbn.
  unfold disk_set. by destruct (Z.eqb_spec x start).
Qed.

Lemma good_header_idle start h : hdr_n h = 0 -> good_header start h.
Proof.
  intros H. split; rewrite ?hdr_blocks_zero by done.
  - rewrite H. done.
  - constructor.
  - intros b Hb%not_elem_of_nil. done.
Qed.

Lemma take_zip_home (bs : list Z) (vs : list (list Z)) j y : length bs = length vs -> y ∉ bs -> y ∉ (take j (zip bs vs)).*1.
Proof.
  intros Hlen Hy H. apply Hy. rewrite <-(fst_zip bs vs) by lia.
  apply list_elem_of_fmap in H as (p & -> & Hp). apply list_elem_of_fmap_2.
  apply list_elem_of_lookup in Hp as [i Hi]. apply lookup_take_Some in Hi as [Hi _].
  by eapply list_elem_of_lookup_2.
Qed.

(** A block that two lists of writes agree on. *)
Lemma zip_take_ext bs vs j d x : NoDup bs -> length bs = length vs ->
  apply_writes (zip bs vs) (apply_writes (take j (zip bs vs)) d) x = apply_writes (zip bs vs) d x.
Proof.
  intros Hnd Hlen. destruct (decide (x ∈ bs)) as [Hin|Hout].
  - apply list_elem_of_lookup in Hin as [i Hi].
    destruct (lookup_lt_is_Some_2 vs i) as [v Hv]; [rewrite <-Hlen; by apply lookup_lt_Some in Hi|].
    assert (Hz : (x, v) ∈ zip bs vs).
    { apply (list_elem_of_lookup_2 _ i). by rewrite lookup_zip_with, Hi, Hv. }
    rewrite !(apply_writes_in _ _ x v); [done|by rewrite fst_zip by lia|done|by rewrite fst_zip by lia|done].
  - rewrite !(apply_writes_out (zip bs vs)) by (rewrite fst_zip by lia; done).
    by apply apply_writes_out, take_zip_home.
Qed.

(** Recovery, run again after a crash at any point of recovery, ends with the same home blocks. *)
Section Again.
Context (start : Z) (d : Z -> list Z) (Hgood : good_header start (d start)).
Context (Hlen : (4 <= length (d start))%nat).
Let bs := hdr_blocks (d start).
Let vs := map (fun k => d (start + Z.of_nat k + 1)) (seq 0 (length bs)).

Let Hlv : length bs = length vs.
Proof. unfold vs. by rewrite length_map, length_seq. Qed.
Let Hn30 : (length bs <= 30)%nat.
Proof.
  unfold bs. rewrite length_hdr_blocks. destruct Hgood as [Hn _ _].
  unfold LOGBLOCKS, MAXOPBLOCKS in Hn. lia.
Qed.
Let Hstart : start ∉ bs.
Proof. intros H. apply (gh_home _ _ Hgood start H). unfold LOGBLOCKS, MAXOPBLOCKS. lia. Qed.

Lemma recover_writes_take j d' : d' = apply_writes (take j (zip bs vs)) d ->
  recover_writes start d' = recover_writes start d.
Proof.
  intros ->. unfold recover_writes. rewrite apply_writes_out by (by apply take_zip_home).
  fold bs. do 2 f_equal. apply map_ext_in. intros k Hk%in_seq.
  apply apply_writes_out, take_zip_home; [done|]. intros H.
  apply (gh_home _ _ Hgood _ H). unfold LOGBLOCKS, MAXOPBLOCKS. lia.
Qed.

Lemma recovered_again j x : home start x ->
  recovered start (apply_writes (take j (recover_writes start d)) d) x = recovered start d x.
Proof.
  intros Hx. assert (x <> start) by (intros ->; apply Hx; unfold LOGBLOCKS, MAXOPBLOCKS; lia).
  assert (Ew : recover_writes start d = zip bs vs ++ [(start, put_hdr 0 [] (d start))]) by done.
  destruct (decide (j <= length (zip bs vs))%nat) as [Hj|Hj].
  - rewrite Ew, take_app_le by done. unfold recovered at 1.
    rewrite (recover_writes_take j) by done. unfold recovered. rewrite Ew, !apply_writes_app.
    rewrite !(apply_writes_out [_]) by (cbn; by intros ?%list_elem_of_singleton).
    apply zip_take_ext; [apply Hgood|done].
  - rewrite take_ge by (rewrite Ew, length_app; cbn; lia). fold (recovered start d).
    apply recovered_idle; [|done]. unfold recovered. rewrite Ew, apply_writes_app. cbn [apply_writes fold_left]. unfold disk_set.
    rewrite Z.eqb_refl. apply hdr_n_put; [cbn; lia|unfold int_range; lia].
Qed.

Lemma good_header_again j :
  good_header start (apply_writes (take j (recover_writes start d)) d start).
Proof.
  assert (Ew : recover_writes start d = zip bs vs ++ [(start, put_hdr 0 [] (d start))]) by done.
  destruct (decide (j <= length (zip bs vs))%nat) as [Hj|Hj].
  - rewrite Ew, take_app_le by done. by rewrite apply_writes_out by (by apply take_zip_home).
  - rewrite take_ge by (rewrite Ew, length_app; cbn; lia). rewrite Ew, apply_writes_app.
    cbn [apply_writes fold_left]. unfold disk_set. rewrite Z.eqb_refl. apply good_header_idle.
    apply hdr_n_put; [cbn; lia|unfold int_range; lia].
Qed.
End Again.

Section Crash.
Context (start : Z) (bs : list Z) (vs : list (list Z)) (d0 : Z -> list Z).
Context (Hnd : NoDup bs) (Hlv : length bs = length vs) (H30 : (length bs <= 30)%nat).
Context (Hhome : forall b, b ∈ bs -> home start b) (Hint : Forall int_range bs).
Context (Hidle : hdr_n (d0 start) = 0) (Hsize : length (d0 start) = Z.to_nat BSIZE).
Let h := d0 start.
Let h1 := put_hdr (Z.of_nat (length bs)) bs h.
Let ws := commit_writes start bs vs h.

Let Hroom : (4 + 4 * length bs <= length h)%nat.
Proof. unfold h. rewrite Hsize. unfold BSIZE. lia. Qed.

Lemma home_not_log x k : home start x -> x ∉ (take k (log_copies start vs)).*1.
Proof.
  intros Hx H. apply Hx. apply list_elem_of_fmap in H as (p & -> & Hp).
  apply list_elem_of_lookup in Hp as [i Hi]. apply lookup_take_Some in Hi as [Hi _].
  assert (p.1 ∈ (log_copies start vs).*1) as H%log_copies_fst.
  { apply list_elem_of_fmap_2. by eapply list_elem_of_lookup_2. }
  unfold LOGBLOCKS, MAXOPBLOCKS. lia.
Qed.

Lemma start_not_log k : start ∉ (take k (log_copies start vs)).*1.
Proof.
  intros H. apply list_elem_of_fmap in H as (p & E & Hp).
  apply list_elem_of_lookup in Hp as [i Hi]. apply lookup_take_Some in Hi as [Hi _].
  assert (p.1 ∈ (log_copies start vs).*1) as H%log_copies_fst.
  { apply list_elem_of_fmap_2. by eapply list_elem_of_lookup_2. }
  lia.
Qed.

Lemma start_not_home : start ∉ bs.
Proof. intros H. apply (Hhome _ H). unfold LOGBLOCKS, MAXOPBLOCKS. lia. Qed.

(** A crash before the header: nothing has happened. *)
Lemma crash_before k : (k <= length bs)%nat ->
  good_header start (apply_writes (take k ws) d0 start) /\
  forall x, home start x -> recovered start (apply_writes (take k ws) d0) x = d0 x.
Proof.
  intros Hk. unfold ws, commit_writes.
  rewrite take_app_le by (unfold log_copies; rewrite length_imap; lia).
  rewrite (apply_writes_out _ _ start) by apply start_not_log. split; [by apply good_header_idle|].
  intros x Hx. rewrite recovered_idle.
  - by apply apply_writes_out, home_not_log.
  - by rewrite apply_writes_out by apply start_not_log.
  - intros ->. apply Hx. unfold LOGBLOCKS, MAXOPBLOCKS. lia.
Qed.

(** The disk when the log and the header are written and [j] home blocks are. *)
Let dj (j : nat) := apply_writes (take j (zip bs vs)) (disk_set start h1 (apply_writes (log_copies start vs) d0)).

Lemma dj_header j : dj j start = h1.
Proof.
  unfold dj. rewrite apply_writes_out by (apply take_zip_home; [done|apply start_not_home]).
  unfold disk_set. by rewrite Z.eqb_refl.
Qed.

Lemma dj_hdr_blocks j : hdr_blocks (dj j start) = bs.
Proof. rewrite dj_header. unfold h1. by apply hdr_blocks_put. Qed.

Lemma dj_logged j : map (fun k => dj j (start + Z.of_nat k + 1)) (seq 0 (length bs)) = vs.
Proof.
  apply list_eq. intros k. rewrite list_lookup_fmap.
  destruct (vs !! k) as [v|] eqn:Hv.
  - apply lookup_lt_Some in Hv as Hk. rewrite lookup_seq_lt by lia. cbn. f_equal. unfold dj.
    rewrite apply_writes_out.
    + unfold disk_set. destruct (Z.eqb_spec (start + Z.of_nat k + 1) start); [lia|].
      by apply log_copies_lookup.
    + apply take_zip_home; [done|]. intros H. apply (Hhome _ H). unfold LOGBLOCKS, MAXOPBLOCKS. lia.
  - apply lookup_ge_None in Hv. rewrite lookup_ge_None_2; [done|rewrite length_seq; lia].
Qed.

Lemma dj_recovered j x : home start x -> recovered start (dj j) x = apply_writes (zip bs vs) d0 x.
Proof.
  intros Hx. unfold recovered, recover_writes. rewrite dj_hdr_blocks, dj_logged, apply_writes_app.
  assert (x <> start) by (intros ->; apply Hx; unfold LOGBLOCKS, MAXOPBLOCKS; lia).
  rewrite (apply_writes_out [_]) by (cbn; by intros ?%list_elem_of_singleton).
  unfold dj. rewrite zip_take_ext by done.
  destruct (decide (x ∈ bs)) as [Hin|Hout].
  - apply list_elem_of_lookup in Hin as [i Hi].
    destruct (lookup_lt_is_Some_2 vs i) as [v Hv]; [rewrite <-Hlv; by apply lookup_lt_Some in Hi|].
    assert (Hz : (x, v) ∈ zip bs vs).
    { apply (list_elem_of_lookup_2 _ i). by rewrite lookup_zip_with, Hi, Hv. }
    rewrite !(apply_writes_in _ _ x v); [done|by rewrite fst_zip by lia|done|by rewrite fst_zip by lia|done].
  - rewrite !(apply_writes_out (zip bs vs)) by (rewrite fst_zip by lia; done).
    unfold disk_set. destruct (Z.eqb_spec x start); [done|].
    rewrite <-(take_ge (log_copies start vs) (length (log_copies start vs))) by done.
    by apply apply_writes_out, home_not_log.
Qed.

Lemma dj_good j : good_header start (dj j start).
Proof.
  split.
  - rewrite dj_header. unfold h1. rewrite hdr_n_put by (done || unfold int_range; lia).
    unfold LOGBLOCKS, MAXOPBLOCKS. lia.
  - by rewrite dj_hdr_blocks.
  - rewrite dj_hdr_blocks. apply Hhome.
Qed.

(** A crash after the header: everything has happened. *)
Lemma crash_after k : (length bs < k)%nat ->
  good_header start (apply_writes (take k ws) d0 start) /\
  forall x, home start x ->
    recovered start (apply_writes (take k ws) d0) x = apply_writes (zip bs vs) d0 x.
Proof.
  intros Hk. assert (Hlc : length (log_copies start vs) = length bs)
    by (unfold log_copies; rewrite length_imap; lia).
  unfold ws, commit_writes. fold h1. rewrite take_app_ge by lia.
  destruct (k - length (log_copies start vs))%nat as [|j] eqn:Ej; [lia|]. cbn [app take].
  rewrite apply_writes_app. change (apply_writes ((start, h1) :: ?l) ?d) with (apply_writes l (disk_set start h1 d)).
  destruct (decide (j <= length (zip bs vs))%nat) as [Hj|Hj].
  - rewrite take_app_le by done. fold (dj j). split; [apply dj_good|]. intros x Hx. by apply dj_recovered.
  - rewrite take_ge by (rewrite length_app; cbn; lia). rewrite apply_writes_app.
    rewrite <-(take_ge (zip bs vs) j) by lia. fold (dj j). cbn [apply_writes fold_left].
    assert (Hz : hdr_n (disk_set start (put_hdr 0 [] h1) (dj j) start) = 0).
    { unfold disk_set. rewrite Z.eqb_refl. apply hdr_n_put; [|unfold int_range; lia].
      unfold h1. rewrite length_put_hdr by done. cbn. lia. }
    split; [by apply good_header_idle|]. intros x Hx.
    assert (x <> start) by (intros ->; apply Hx; unfold LOGBLOCKS, MAXOPBLOCKS; lia).
    rewrite recovered_idle by done. unfold disk_set. destruct (Z.eqb_spec x start); [done|].
    unfold dj. rewrite take_ge by lia. rewrite <-(dj_recovered 0 x Hx).
    unfold recovered, recover_writes. rewrite dj_hdr_blocks, dj_logged, apply_writes_app.
    rewrite (apply_writes_out [_]) by (cbn; by intros ?%list_elem_of_singleton). done.
Qed.
End Crash.

(** ** Crash safety *)

(** A transaction that is about to commit: the blocks [bs] it has changed are pinned in the
    cache and recorded in the in-memory header, and the header on the disk is clear. *)
Record committable (me : nat) (bs : list Z) (s : kstate) : Prop := {
  cm_wf : log_wf (klog s) bs;
  cm_int : Forall int_range bs;
  cm_some : bs <> [];
  cm_pin : forall b, b ∈ bs -> 1 <= pins s b;
  cm_calm : calm me s;
  cm_room : (nused s < NBUF)%nat;
  cm_clear : hdr_n (disk_blocks s (log_start (klog s))) = 0;
  cm_size : length (disk_blocks s (log_start (klog s))) = Z.to_nat BSIZE;
  cm_free : pins s (log_start (klog s)) = 0 }.

Lemma zip_map_lookup (bs : list Z) f d x : NoDup bs ->
  apply_writes (zip bs (map f bs)) d x = if decide (x ∈ bs) then f x else d x.
Proof.
  intros Hnd. assert (Hf : (zip bs (map f bs)).*1 = bs) by (apply fst_zip; rewrite length_map; lia).
  case_decide as H.
  - apply apply_writes_in; [by rewrite Hf|]. apply list_elem_of_lookup in H as [i Hi].
    apply (list_elem_of_lookup_2 _ i). by rewrite lookup_zip_with, list_lookup_fmap, Hi.
  - apply apply_writes_out. by rewrite Hf.
Qed.

(** C1: commits are atomic and durable.  [commit] returns; and if the machine crashes after
    any number [k] of its disk writes and boots, [initlog] recovers a disk on which every
    block outside the log has its contents from before the transaction (when the header
    had not been written), or every block has its contents from after it (when it had). *)
Theorem commit_crash_atomic me bs s sb :
  committable me bs s -> sb_logstart sb = log_start (klog s) ->
  exists s' ws, commit s = Ok tt s' /\ disk_writes s' = disk_writes s ++ ws /\
    forall k me1 s1, fresh me1 s1 -> disk_blocks s1 = apply_writes (take k ws) (disk_blocks s) ->
      exists s2, initlog ROOTDEV sb s1 = Ok tt s2 /\
        forall x, home (sb_logstart sb) x ->
          disk_blocks s2 x =
            if decide (length bs < k)%nat
            then (if decide (x ∈ bs) then view s x else disk_blocks s x)
            else disk_blocks s x.
Proof.
  intros [Hwf Hint Hne Hpin Hc Hn Hidle Hsize Hfree] Hsb.
  destruct (wp_elim _ _ _ (commit_spec me (klog s) bs s Hwf eq_refl Hc Hn Hne Hpin)) as ([] & s' & E & W).
  exists s'. eexists. split; [done|]. split; [apply (wr_writes _ _ _ _ _ W)|].
  rewrite (view_unpinned s (ca_inv _ _ Hc)) by done.
  intros k me1 s1 Hfr Hd1. rewrite Hsb.
  set (vs := map (view s) bs) in *. set (start := log_start (klog s)) in *.
  assert (Hlv : length bs = length vs) by (unfold vs; by rewrite length_map).
  pose proof (bs_le_30 (klog s) bs Hwf) as H30.
  assert (Hcase : good_header start (disk_blocks s1 start) /\ forall x, home start x ->
    recovered start (disk_blocks s1) x = if decide (length bs < k)%nat
      then apply_writes (zip bs vs) (disk_blocks s) x else disk_blocks s x).
  { rewrite Hd1. destruct (decide (length bs < k)%nat).
    - pose proof (lw_nodup _ _ Hwf). pose proof (lw_home _ _ Hwf). by apply crash_after.
    - apply crash_before; try done. lia. }
  destruct Hcase as [Hgood Hrec]. rewrite <-Hsb in Hgood.
  destruct (wp_elim _ _ _ (initlog_spec me1 s1 sb Hfr Hgood)) as ([] & s2 & E2 & D2 & _).
  exists s2. split; [done|]. intros x Hx. rewrite D2, Hsb. fold (recovered start (disk_blocks s1)).
  rewrite Hrec by done. case_decide; [|done]. apply zip_map_lookup, Hwf.
Qed.

(** C35: recovery may crash.  From any disk with a well-formed log header, if the machine
    crashes after any number [k] of the disk writes of [initlog] and boots again, [initlog]
    ends with the same contents in every block outside the log. *)
Theorem recovery_idempotent me s sb :
  fresh me s -> good_header (sb_logstart sb) (disk_blocks s (sb_logstart sb)) ->
  (4 <= length (disk_blocks s (sb_logstart sb)))%nat ->
  exists s' ws, initlog ROOTDEV sb s = Ok tt s' /\ disk_writes s' = disk_writes s ++ ws /\
    forall k me1 s1, fresh me1 s1 -> disk_blocks s1 = apply_writes (take k ws) (disk_blocks s) ->
      exists s2, initlog ROOTDEV sb s1 = Ok tt s2 /\
        forall x, home (sb_logstart sb) x -> disk_blocks s2 x = disk_blocks s' x.
Proof.
  intros Hfr Hgood Hlen.
  destruct (wp_elim _ _ _ (initlog_spec me s sb Hfr Hgood)) as ([] & s' & E & D & W & _).
  exists s'. eexists. split; [done|]. split; [done|]. intros k me1 s1 Hfr1 Hd1.
  assert (Hgood1 : good_header (sb_logstart sb) (disk_blocks s1 (sb_logstart sb))).
  { rewrite Hd1. by apply good_header_again. }
  destruct (wp_elim _ _ _ (initlog_spec me1 s1 sb Hfr1 Hgood1)) as ([] & s2 & E2 & D2 & _).
  exists s2. split; [done|]. intros x Hx. rewrite D2, D, Hd1. by apply recovered_again.
Qed.

(** *** Witnesses: block 100 is changed in the cache and logged; block 2 is the header. *)
Definition w_disk : Z -> list Z := fun x => if x =? 2 then replicate 1024 0 else [x].
Definition w_buf : buf :=
  {| b_valid := 1; b_disk := 0; b_dev := ROOTDEV; b_blockno := 100;
     b_lock := {| sl_locked := 0; sl_pid := 0 |}; refcnt := 1; b_data := [7] |}.
Definition w_state : kstate :=
  set_klog (mklogstate 2 0 1 ROOTDEV 0 (mklogheader 1 (100 :: replicate 29 0)))
    (set_bufs (w_buf :: replicate 29 zero_buf) (demo w_disk)).
Definition w_sb : superblock := mksuperblock FSMAGIC 2000 1954 200 31 2 33 46.

Lemma w_lookup i : (i < NBUF)%nat -> i <> 0%nat -> bufs w_state !!! i = zero_buf.
Proof.
  intros Hi H0. destruct i as [|i]; [done|]. cbn [w_state bufs set_klog set_bufs].
  change ((w_buf :: replicate 29 zero_buf) !!! S i) with (replicate 29 zero_buf !!! i).
  apply lookup_total_replicate_2. unfold NBUF in Hi. lia.
Qed.

Lemma w_inv : bio_inv w_state.
Proof.
  split.
  - reflexivity.
  - apply (bi_lru _ (demo_inv w_disk)).
  - intros i j Hi Hj. destruct (decide (i = 0%nat)) as [->|Hi0]; destruct (decide (j = 0%nat)) as [->|Hj0].
    + done.
    + rewrite (w_lookup j) by done. cbn. done.
    + rewrite (w_lookup i) by done. cbn. done.
    + rewrite (w_lookup i) by done. cbn. done.
  - intros i Hi. destruct (decide (i = 0%nat)) as [->|]; rewrite ?w_lookup by done; cbn; auto.
  - intros i Hi. destruct (decide (i = 0%nat)) as [->|]; rewrite ?w_lookup by done; cbn; lia.
  - intros i Hi. destruct (decide (i = 0%nat)) as [->|]; rewrite ?w_lookup by done; cbn; lia.
  - intros i Hi. destruct (decide (i = 0%nat)) as [->|]; rewrite ?w_lookup by done; unfold ROOTDEV; cbn; intros; lia.
Qed.

Lemma w_calm : calm 0 w_state.
Proof.
  split; [apply w_inv|by eapply bio_ctx_frame; [apply (demo_ctx w_disk)|..]|].
  intros x. unfold locked. destruct (cached w_state x) as [i|] eqn:E; [|done].
  apply (cached_Some _ w_inv) in E as (Hi & _ & _).
  destruct (decide (i = 0%nat)) as [->|]; rewrite ?w_lookup by done; done.
Qed.

Lemma w_committable : committable 0 [100] w_state.
Proof.
  split.
  - split; try reflexivity; try done.
    + exists (replicate 29 0). reflexivity.
    + apply NoDup_singleton.
    + intros b ->%list_elem_of_singleton. unfold LOGBLOCKS, MAXOPBLOCKS. cbn. lia.
  - apply Forall_singleton. unfold int_range. lia.
  - done.
  - intros b ->%list_elem_of_singleton. vm_compute. done.
  - apply w_calm.
  - vm_compute. lia.
  - vm_compute. reflexivity.
  - vm_compute. reflexivity.
  - vm_compute. reflexivity.
Qed.

Lemma demo_fresh disk : fresh 0 (demo disk).
Proof.
  destruct (binit_inv (demo disk)) as (Hi & _ & Hp & Hl & Hn); [reflexivity|].
  change (set_bcache_lru (reverse (seq 0 NBUF)) (demo disk)) with (demo disk) in *.
  split; try done.
  - split; [done|apply demo_ctx|done].
  - apply not_elem_of_nil.
Qed.

Lemma commit_crash_atomic_witness :
  exists s' ws s2, commit w_state = Ok tt s' /\ disk_writes s' = ws /\
    initlog ROOTDEV w_sb (demo (apply_writes (take 2 ws) w_disk)) = Ok tt s2 /\
    disk_blocks s2 100 = [7].
Proof.
  destruct (commit_crash_atomic 0 [100] w_state w_sb) as (s' & ws & E & W & H).
  - apply w_committable.
  - reflexivity.
  - exists s', ws. destruct (H 2%nat 0%nat (demo (apply_writes (take 2 ws) w_disk))) as (s2 & E2 & D).
    + apply demo_fresh.
    + reflexivity.
    + exists s2. split; [exact E|]. split; [exact W|]. split; [exact E2|].
      rewrite D by (unfold home, LOGBLOCKS, MAXOPBLOCKS; cbn; lia). vm_compute. reflexivity.
Defined.

Lemma recovery_idempotent_witness :
  exists s' ws, initlog ROOTDEV w_sb (demo w_disk) = Ok tt s' /\ disk_writes s' = ws.
Proof.
  destruct (recovery_idempotent 0 (demo w_disk) w_sb) as (s' & ws & E & W & _).
  - apply demo_fresh.
  - apply good_header_idle. vm_compute. reflexivity.
  - vm_compute. lia.
  - exists s', ws. split; [exact E|exact W].
Defined.

(** ** Recording writes and reserving space *)
Lemma log_slot_in b bs : b ∈ bs -> bs !! log_slot b bs = Some b.
Proof.
  induction bs as [|x bs IH]; [by intros ?%not_elem_of_nil|]. intros H. cbn.
  destruct (Z.eqb_spec x b) as [->|Hne]; [done|]. cbn. apply IH.
  by apply elem_of_cons in H as [->|H].
Qed.
Lemma log_slot_out b bs : b ∉ bs -> log_slot b bs = length bs.
Proof.
  induction bs as [|x bs IH]; [done|]. intros [Hx H]%not_elem_of_cons. cbn.
  destruct (Z.eqb_spec x b); [congruence|]. by rewrite IH.
Qed.

(** The in-memory header holds [bs]. *)
Definition log_has (bs : list Z) (l : logstate) : Prop :=
  lh_n (log_lh l) = Z.of_nat (length bs) /\
  length (lh_block (log_lh l)) = Z.to_nat LOGBLOCKS /\
  exists rest, lh_block (log_lh l) = bs ++ rest.

Definition log_append (bs : list Z) (b : Z) (l : logstate) : logstate :=
  set_n (Z.of_nat (length bs) + 1) (set_block (length bs) b l).

Lemma log_append_has bs b l : log_has bs l -> (length bs < 30)%nat -> log_has (bs ++ [b]) (log_append bs b l).
Proof.
  intros (Hn & Hlen & rest & E) H30. change (Z.to_nat LOGBLOCKS) with 30%nat in *. split; [|split].
  - cbn. rewrite length_app. cbn. lia.
  - cbn. by rewrite length_insert.
  - cbn. rewrite E. exists (drop 1 rest). apply insert_at_end. rewrite E, length_app in Hlen. lia.
Qed.

Section LogWrite.
Context (me i : nat) (b : Z) (bs : list Z) (s : kstate).
Context (Hinv : bio_inv s) (Hc : bio_ctx me s) (Hl : loaded me i b s) (Hlog : L_log ∉ held s).
Context (Hhas : log_has bs (klog s)).

Lemma log_write_enter (Hn : (length bs < 30)%nat) (Ho : 1 <= log_outstanding (klog s)) :
  log_write i s =
  (let slot := log_slot b bs in
   setlog (set_block slot b);;
   when (Z.of_nat slot =? Z.of_nat (length bs))
     (bpin i;; setlog (fun l => set_n (lh_n (log_lh l) + 1) l));;
   release L_log) (set_held (L_log :: held s) s).
Proof.
  destruct Hhas as (E & Hlen & rest & Eb).
  unfold log_write, bind at 1. rewrite acquire_eval by done.
  unfold bind at 1, getlog, gets at 1. cbn [klog set_held].
  unfold bind at 1, panic_if. rewrite E. unfold LOGBLOCKS, MAXOPBLOCKS.
  destruct (Z.leb_spec (10 * 3) (Z.of_nat (length bs))); [lia|]. unfold ret at 1.
  unfold bind at 1. destruct (Z.ltb_spec (log_outstanding (klog s)) 1); [lia|]. unfold ret at 1.
  unfold bind at 1, get_buf, gets. cbn [bufs set_held].
  rewrite Eb, Nat2Z.id, take_app_length, (ld_blk _ _ _ _ Hl). done.
Qed.

(** Absorption: a block that the transaction has already is not added again. *)
Lemma log_write_absorb : b ∈ bs -> (length bs < 30)%nat -> 1 <= log_outstanding (klog s) ->
  log_write i s = Ok tt s.
Proof.
  intros Hb Hn Ho. rewrite log_write_enter by done. cbv zeta.
  pose proof (log_slot_in b bs Hb) as Hs. apply lookup_lt_Some in Hs as Hlt.
  unfold bind, setlog, modify, when. destruct (Z.eqb_spec (Z.of_nat (log_slot b bs)) (Z.of_nat (length bs))); [lia|].
  unfold ret. erewrite release_eval by reflexivity. f_equal. cbn [klog set_held].
  assert (E : set_block (log_slot b bs) b (klog s) = klog s); [|rewrite E; done].
  destruct Hhas as (_ & _ & rest & Eb). unfold set_block. rewrite Eb.
  rewrite list_insert_id by (rewrite lookup_app_l by done; done).
  rewrite <-Eb. destruct (klog s) as [? ? ? ? ? []]. done.
Qed.

(** A new block is appended and pinned. *)
Lemma log_write_append : b ∉ bs -> (length bs < 30)%nat -> 1 <= log_outstanding (klog s) ->
  wp (log_write i) (fun _ s' => exists s1, s' = set_klog (log_append bs b (klog s)) s1 /\
    edited me i b (view s b) 1 s s1 /\ s1 = set_bufs (bufs s1) s) s.
Proof.
  intros Hb Hn Ho. unfold wp. rewrite log_write_enter by done. cbv zeta.
  rewrite log_slot_out by done. unfold when. rewrite Z.eqb_refl.
  set (s0 := set_klog (set_block (length bs) b (klog s)) (set_held (L_log :: held s) s)).
  destruct Hhas as (E & _ & _).
  unfold bind, bpin, setlog, modify. cbn [klog set_held]. fold s0.
  unfold bind. rewrite acquire_eval.
  2: { apply not_elem_of_cons. split; [done|apply Hc]. }
  unfold set_buf, modify. erewrite release_eval by reflexivity.
  erewrite release_eval by reflexivity.
  exists (set_bufs (alter (fun b => {| b with refcnt := refcnt b + 1 |}) i (bufs s)) s).
  split; [|split; [|done]].
  - unfold s0, log_append. cbn [klog set_klog set_held set_bufs]. unfold set_n at 1.
    cbn [log_lh set_block lh_n]. rewrite E. done.
  - apply edited_field; try done.
    + intros o ->. by rewrite (loaded_view me i).
    + destruct Hl. lia.
Qed.
End LogWrite.

(** The blocks that the operations [us] in progress may still write: [us] are the numbers of
    distinct blocks each has recorded. *)
Definition credits (us : list Z) : Z := foldr (fun u a => MAXOPBLOCKS - u + a) 0 us.
Record log_inv (us bs : list Z) (s : kstate) : Prop := {
  li_has : log_has bs (klog s);
  li_out : log_outstanding (klog s) = Z.of_nat (length us);
  li_idle : log_committing (klog s) = 0;
  li_us : Forall (fun u => 0 <= u <= MAXOPBLOCKS) us;
  li_room : Z.of_nat (length bs) + credits us <= LOGBLOCKS }.

Lemma credits_nonneg us : Forall (fun u => 0 <= u <= MAXOPBLOCKS) us -> 0 <= credits us.
Proof.
  induction 1 as [|u us Hu _ IH]; [done|]. cbn [credits foldr]. fold (credits us). lia.
Qed.
Lemma credits_le us : Forall (fun u => 0 <= u <= MAXOPBLOCKS) us ->
  credits us <= MAXOPBLOCKS * Z.of_nat (length us).
Proof.
  induction 1 as [|u us Hu _ IH]; [done|]. cbn [credits foldr length].
  fold (credits us). rewrite Nat2Z.inj_succ. lia.
Qed.
Lemma credits_insert us j u : us !! j = Some u -> credits (<[j := u + 1]> us) = credits us - 1.
Proof.
  revert j. induction us as [|x us IH]; intros [|j] H; try done.
  - injection H as ->. cbn. lia.
  - cbn [insert list_insert credits foldr]. fold (credits (<[j := u + 1]> us)) (credits us).
    rewrite IH by done. lia.
Qed.

Lemma log_inv_klog us bs s s' : klog s' = klog s -> log_inv us bs s -> log_inv us bs s'.
Proof. intros E []. split; rewrite ?E; done. Qed.

Lemma begin_op_ok us bs s : log_inv us bs s -> L_log ∉ held s ->
  Z.of_nat (length bs) + (Z.of_nat (length us) + 1) * MAXOPBLOCKS <= LOGBLOCKS ->
  exists s', begin_op s = Ok tt s' /\ log_inv (0 :: us) bs s'.
Proof.
  intros [Hhas Ho Hi Hu Hr] Hh Hroom. eexists. split.
  - unfold begin_op, begin_op_test, bind at 1. rewrite acquire_eval by done.
    unfold bind at 1, getlog, gets. cbn [klog set_held]. rewrite Hi. cbn [negb Z.eqb].
    destruct Hhas as (-> & _ & _). rewrite Ho.
    destruct (Z.ltb_spec LOGBLOCKS (Z.of_nat (length bs) + (Z.of_nat (length us) + 1) * MAXOPBLOCKS)); [lia|].
    unfold bind, setlog, modify. by erewrite release_eval.
  - split; cbn; try done.
    + lia.
    + constructor; [unfold MAXOPBLOCKS; lia|done].
    + fold (credits us). pose proof (credits_le us Hu). lia.
Qed.

Lemma begin_op_waits us bs s i : log_inv us bs s -> held s = [] -> cur s = Some i ->
  (i < length (procs s))%nat ->
  LOGBLOCKS < Z.of_nat (length bs) + (Z.of_nat (length us) + 1) * MAXOPBLOCKS ->
  begin_op s = Block (set_held [L_proc i] (set_procs (alter (asleep C_log) i (procs s)) s)).
Proof.
  intros [Hhas Ho Hi Hu Hr] Hh Hc Hlt Hroom.
  unfold begin_op, begin_op_test, bind at 1. rewrite acquire_eval by (rewrite Hh; apply not_elem_of_nil).
  unfold bind at 1, getlog, gets. cbn [klog set_held]. rewrite Hi. cbn [negb Z.eqb].
  destruct Hhas as (-> & _ & _). rewrite Ho.
  destruct (Z.ltb_spec LOGBLOCKS (Z.of_nat (length bs) + (Z.of_nat (length us) + 1) * MAXOPBLOCKS)); [|lia].
  rewrite sleep_eval with (i := i); [done|done|cbn; by rewrite Hh|done|done].
Qed.

Lemma log_write_inv me us bs s j u i b :
  log_inv us bs s -> L_log ∉ held s -> us !! j = Some u -> u < MAXOPBLOCKS ->
  bio_inv s -> bio_ctx me s -> loaded me i b s ->
  exists s' bs', log_write i s = Ok tt s' /\ log_inv (<[j := u + 1]> us) bs' s' /\
    bs' = (if decide (b ∈ bs) then bs else bs ++ [b]) /\
    pins s' b = pins s b + (if decide (b ∈ bs) then 0 else 1).
Proof.
  intros [Hhas Ho Hi Hu Hr] Hh Hj Hlt Hinv Hc Hl.
  pose proof (credits_insert us j u Hj) as Hcr.
  assert (Hu' : Forall (fun u => 0 <= u <= MAXOPBLOCKS) (<[j := u + 1]> us)).
  { apply Forall_insert; [done|]. rewrite Forall_lookup in Hu. pose proof (Hu _ _ Hj). lia. }
  pose proof (credits_nonneg _ Hu'). unfold LOGBLOCKS, MAXOPBLOCKS in *.
  assert (1 <= log_outstanding (klog s)) by (rewrite Ho; apply lookup_lt_Some in Hj; lia).
  case_decide as Hb.
  - exists s, bs. split; [apply (log_write_absorb me i b bs); try done; lia|]. split; [|split; [done|lia]].
    split; try done; [by rewrite length_insert|unfold LOGBLOCKS, MAXOPBLOCKS; lia].
  - destruct (wp_elim _ _ _ (log_write_append me i b bs s Hinv Hc Hl Hh Hhas Hb ltac:(lia) ltac:(done)))
      as ([] & s' & E & s1 & -> & Ed & Es1).
    exists (set_klog (log_append bs b (klog s)) s1), (bs ++ [b]). split; [done|].
    split; [|split; [done|]].
    + split; cbn [klog set_klog]; try done.
      * apply log_append_has; [done|lia].
      * rewrite length_insert. done.
      * rewrite length_app. cbn [length]. unfold LOGBLOCKS, MAXOPBLOCKS. lia.
    + change (pins (set_klog _ s1) b) with (pins s1 b).
      rewrite (ed_pins _ _ _ _ _ _ _ Ed), decide_True by done. done.
Qed.

Lemma end_op_more u us bs s : log_inv (u :: us) bs s -> us <> [] -> L_log ∉ held s ->
  length (procs s) = NPROC -> others_unlocked s ->
  exists s', end_op s = Ok tt s' /\ log_inv us bs s' /\
    procs s' = wake C_log (cur s) (procs s).
Proof.
  intros [Hhas Ho Hi Hu Hr] Hne Hh Hlen Hun. eexists. split.
  - unfold end_op, bind at 1. rewrite acquire_eval by done.
    unfold bind at 1, setlog at 1, modify at 1. cbn [klog set_held].
    unfold bind at 1, getlog, gets. cbn [klog set_klog log_committing log_outstanding].
    unfold bind at 1, panic_if. rewrite Hi, Ho. cbn [negb Z.eqb]. unfold ret at 1.
    destruct (Z.eqb_spec (Z.of_nat (length (u :: us)) - 1) 0) as [E|_].
    { destruct us; [done|cbn in E; lia]. }
    unfold bind at 1 2. rewrite wakeup_eval.
    + unfold ret. cbn [when]. unfold bind. by erewrite release_eval.
    + done.
    + intros k Hk Hne'. cbn. apply not_elem_of_cons. split; [done|by apply Hun].
  - apply Forall_cons_iff in Hu as [Hu0 Hu]. split; [|done]. split; cbn; try done.
    + lia.
    + cbn in Hr. fold (credits us) in *. lia.
Qed.



(** ** A full log *)
Lemma all_cached_full s bs : bio_inv s -> NoDup bs -> length bs = NBUF ->
  (forall b, b ∈ bs -> 1 <= pins s b) ->
  forall i, (i < NBUF)%nat -> b_blockno (bufs s !!! i) ∈ bs /\ refcnt (bufs s !!! i) <> 0.
Proof.
  intros Hinv Hnd Hlen Hpin.
  assert (Hc : forall b, b ∈ bs -> exists i, cached s b = Some i /\ (i < NBUF)%nat /\
    b_blockno (bufs s !!! i) = b /\ 1 <= refcnt (bufs s !!! i)).
  { intros b Hb. specialize (Hpin b Hb). unfold pins in Hpin.
    destruct (cached s b) as [i|] eqn:E; [|lia]. exists i.
    apply (cached_Some s Hinv) in E as (? & ? & ?). done. }
  set (idx := fun b => default 0%nat (cached s b)).
  assert (Hperm : map idx bs ≡ₚ seq 0 NBUF).
  { symmetry. apply submseteq_length_Permutation.
    - apply NoDup_submseteq.
      + apply NoDup_seq.
      + intros i Hi%elem_of_seq. 
        assert (Hsub : map idx bs ⊆+ seq 0 NBUF).
        { apply NoDup_submseteq.
          - apply NoDup_fmap_2_strong; [|done]. intros b b' Hb Hb' E.
            destruct (Hc b Hb) as (k & Ek & _ & <- & _), (Hc b' Hb') as (k' & Ek' & _ & <- & _).
            unfold idx in E. rewrite Ek, Ek' in E. cbn in E. by subst.
          - intros k (b & -> & Hb)%list_elem_of_fmap. destruct (Hc b Hb) as (k & Ek & ? & _).
            unfold idx. rewrite Ek. apply elem_of_seq. cbn. lia. }
        apply submseteq_length_Permutation in Hsub; [|rewrite length_map, length_seq; lia].
        rewrite Hsub. apply elem_of_seq. lia.
    - rewrite length_map, length_seq. lia. }
  intros i Hi. assert (i ∈ map idx bs) as (b & -> & Hb)%list_elem_of_fmap.
  { rewrite Hperm. apply elem_of_seq. lia. }
  destruct (Hc b Hb) as (k & Ek & _ & Eb & Hr). unfold idx. rewrite Ek. cbn. rewrite Eb. split; [done|lia].
Qed.

(** C37: the log is as large as the cache.  A transaction of [LOGBLOCKS] blocks, which
    [begin_op] and [log_write] admit (three operations that use their whole reservation),
    pins all [NBUF] buffers, and [commit] then panics: it has no buffer for the log's blocks. *)
Theorem full_log_panics me bs s :
  log_wf (klog s) bs -> Z.of_nat (length bs) = LOGBLOCKS -> bio_inv s -> bio_ctx me s ->
  (forall b, b ∈ bs -> 1 <= pins s b) ->
  commit s = Panic "bget: no buffers".
Proof.
  intros Hwf Hlen Hinv Hc Hpin.
  assert (Hlen' : length bs = NBUF) by (unfold LOGBLOCKS, MAXOPBLOCKS, NBUF in *; lia).
  pose proof (all_cached_full s bs Hinv (lw_nodup _ _ Hwf) Hlen' Hpin) as Hfull.
  assert (Hb1 : bread ROOTDEV (log_start (klog s) + Z.of_nat 0 + 1) s = Panic "bget: no buffers").
  { apply (bread_full me); [done| |].
    - destruct (cached s _) as [i|] eqn:E; [|done].
      apply (cached_Some s Hinv) in E as (Hi & _ & Hb). destruct (Hfull i Hi) as [Hin _].
      exfalso. apply (lw_home _ _ Hwf _ Hin). rewrite Hb. unfold LOGBLOCKS, MAXOPBLOCKS. lia.
    - intros j Hj%(lru_in s Hinv). by apply Hfull. }
  assert (Hw : write_log s = Panic "bget: no buffers").
  { unfold write_log, getlog, bind at 1, gets at 1. rewrite (lw_n _ _ Hwf), Hlen', Nat2Z.id.
    unfold NBUF. cbn [seq mfor]. unfold bind, gets. rewrite (lw_dev _ _ Hwf), Hb1. done. }
  unfold commit, getlog, bind at 1, gets, when. rewrite (lw_n _ _ Hwf), Hlen.
  change (0 <? LOGBLOCKS) with true. cbv iota. unfold bind. by rewrite Hw.
Qed.

(** A full log: buffer [i] holds block [100 + i], pinned. *)
Definition w_full : kstate :=
  set_klog (mklogstate 2 0 1 ROOTDEV 0 (mklogheader 30 (map (fun i => 100 + Z.of_nat i) (seq 0 30))))
    (set_bufs (map (fun i => {| w_buf with b_blockno := 100 + Z.of_nat i |}) (seq 0 30)) (demo w_disk)).

Lemma w_full_lookup i : (i < NBUF)%nat ->
  bufs w_full !!! i = {| w_buf with b_blockno := 100 + Z.of_nat i |}.
Proof.
  intros Hi. apply list_lookup_total_correct. cbn [w_full bufs set_klog set_bufs].
  rewrite list_lookup_fmap, lookup_seq_lt by done. done.
Qed.

Lemma w_full_inv : bio_inv w_full.
Proof.
  split.
  - reflexivity.
  - apply (bi_lru _ (demo_inv w_disk)).
  - intros i j Hi Hj. rewrite !w_full_lookup by done. cbn. lia.
  - intros i Hi. rewrite w_full_lookup by done. by right.
  - intros i Hi. rewrite w_full_lookup by done. done.
  - intros i Hi. rewrite w_full_lookup by done. done.
  - intros i Hi. rewrite w_full_lookup by done. done.
Qed.

Lemma full_log_panics_witness : commit w_full = Panic "bget: no buffers".
Proof.
  apply (full_log_panics 0 (map (fun i => 100 + Z.of_nat i) (seq 0 30))).
  - split; try reflexivity.
    + exists []. reflexivity.
    + apply NoDup_fmap_2; [intros ? ?; lia|apply NoDup_seq].
    + intros b (i & -> & _)%list_elem_of_fmap. cbn. unfold LOGBLOCKS, MAXOPBLOCKS. lia.
  - reflexivity.
  - apply w_full_inv.
  - eapply bio_ctx_frame; [apply (demo_ctx w_disk)|reflexivity..].
  - intros b (i & -> & Hi%elem_of_seq)%list_elem_of_fmap. unfold pins.
    assert (cached w_full (100 + Z.of_nat i) = Some i) as ->.
    { apply (cached_Some _ w_full_inv). unfold NBUF. rewrite w_full_lookup by (unfold NBUF; lia).
      split; [lia|done]. }
    rewrite w_full_lookup by (unfold NBUF; lia). cbn. lia.
Defined.
