(* ===== verification/Fs.v ===== *)
(** * The file system (kernel/fs.c)

    Disk blocks are byte lists; an on-disk inode is a slice of an inode block, and a
    directory entry a slice of a file.  In-memory inodes are entries of [itable]. *)

From S2P Require Import Prelude Spinlock State Printk Kstring Kalloc Vm Sync Bio Log.

Definition get_inode (i : nat) : K inode := gets (fun s => itable s !!! i).
Definition set_inode (i : nat) (f : inode -> inode) : K unit :=
  modify (fun s => set_itable (alter f i (itable s)) s).
Definition get_sb : K superblock := gets (fun s => ksb s).

Definition IBLOCK (i : Z) (sb : superblock) : Z := u32 (i / IPB + sb_inodestart sb).
Definition BBLOCK (b : Z) (sb : superblock) : Z := u32 (b / BPB + sb_bmapstart sb).

(** ** Blocks *)
Definition sb_of_data (d : list Z) : superblock :=
  {| sb_magic := get_le 0 4 d; sb_size := get_le 4 4 d; sb_nblocks := get_le 8 4 d;
     sb_ninodes := get_le 12 4 d; sb_nlog := get_le 16 4 d; sb_logstart := get_le 20 4 d;
     sb_inodestart := get_le 24 4 d; sb_bmapstart := get_le 28 4 d |}.

Definition readsb (dev : Z) : K unit :=
  bp ← bread dev 1;
  b ← get_buf bp;
  modify (set_ksb (sb_of_data (b_data b)));;
  brelse bp.

Definition bzero (dev bno : Z) : K unit :=
  bp ← bread dev bno;
  set_data bp (replicate (Z.to_nat BSIZE) 0);;
  log_write bp;;
  brelse bp.

(** Bit [bi] of a bitmap block. *)
Definition bit_byte (d : list Z) (bi : Z) : Z := nth (Z.to_nat (bi / 8)) d 0.
Definition bit_mask (bi : Z) : Z := Z.shiftl 1 (bi mod 8).
Definition bit_free (d : list Z) (bi : Z) : bool := Z.land (bit_byte d bi) (bit_mask bi) =? 0.
Definition set_bit (d : list Z) (bi : Z) : list Z :=
  <[Z.to_nat (bi / 8) := u8 (Z.lor (bit_byte d bi) (bit_mask bi))]> d.
Definition clear_bit (d : list Z) (bi : Z) : list Z :=
  <[Z.to_nat (bi / 8) := u8 (Z.land (bit_byte d bi) (Z.lnot (bit_mask bi)))]> d.

(** The inner loop of [balloc]: the first free bit below [n], from [bi]. *)
Fixpoint free_bit (fuel : nat) (d : list Z) (bi n : Z) : option Z :=
  match fuel with
  | O => None
  | S fuel' =>
      if bi <? n then if bit_free d bi then Some bi else free_bit fuel' d (bi + 1) n
      else None
  end.

Definition balloc (dev : Z) : K Z :=
  sb ← get_sb;
  r ← mfind (seq 0 (Z.to_nat ((sb_size sb + BPB - 1) / BPB))) (fun k =>
    let b := Z.of_nat k * BPB in
    bp ← bread dev (BBLOCK b sb);
    bd ← get_buf bp;
    match free_bit (Z.to_nat BPB) (b_data bd) 0 (Z.min BPB (sb_size sb - b)) with
    | Some bi =>
        set_data bp (set_bit (b_data bd) bi);;
        log_write bp;;
        brelse bp;;
        bzero dev (b + bi);;
        ret (Some (b + bi))
    | None => brelse bp;; ret None
    end);
  match r with
  | Some b => ret b
  | None => printk (str "balloc: out of blocks" ++ [10]) [];; ret 0
  end.

Definition bfree (dev b : Z) : K unit :=
  sb ← get_sb;
  bp ← bread dev (BBLOCK b sb);
  bd ← get_buf bp;
  let bi := b mod BPB in
  panic_if (bit_free (b_data bd) bi) "freeing free block";;
  set_data bp (clear_bit (b_data bd) bi);;
  log_write bp;;
  brelse bp.

(** ** On-disk inodes (struct dinode in fs.h) *)
Record dinode := mkdinode {
  di_type : Z; di_major : Z; di_minor : Z; di_nlink : Z; di_size : Z; di_addrs : list Z }.

(** [(struct dinode* )bp->data + inum % IPB]: the offset, and the fields there. *)
Definition di_off (inum : Z) : nat := Z.to_nat (inum mod IPB * DINODE_SIZE).
Definition get_dinode (o : nat) (d : list Z) : dinode :=
  {| di_type := s16 (get_le o 2 d); di_major := s16 (get_le (o + 2) 2 d);
     di_minor := s16 (get_le (o + 4) 2 d); di_nlink := s16 (get_le (o + 6) 2 d);
     di_size := get_le (o + 8) 4 d;
     di_addrs := map (fun k => get_le (o + 12 + 4 * k) 4 d) (seq 0 13) |}.
(** The bytes of an inode. *)
Definition dinode_bytes (x : dinode) : list Z :=
  le_bytes 2 (di_type x) ++ le_bytes 2 (di_major x) ++ le_bytes 2 (di_minor x) ++
  le_bytes 2 (di_nlink x) ++ le_bytes 4 (di_size x) ++
  concat (map (le_bytes 4) (di_addrs x)).
Definition put_dinode (o : nat) (x : dinode) (d : list Z) : list Z := splice o (dinode_bytes x) d.

Definition dinode_of (x : inode) : dinode :=
  {| di_type := i_type x; di_major := i_major x; di_minor := i_minor x; di_nlink := i_nlink x;
     di_size := i_size x; di_addrs := i_addrs x |}.
Definition load_dinode (y : dinode) (x : inode) : inode :=
  {| x with i_type := di_type y; i_major := di_major y; i_minor := di_minor y;
            i_nlink := di_nlink y; i_size := di_size y; i_addrs := di_addrs y |}.

(** ** The inode table *)
Definition iinit : K unit :=
  mfor (seq 0 NINODE) (fun i => initsleeplock (SL_inode i)).

(** The loop of [iget]: the entry for the inode, or the first empty slot. *)
Fixpoint iget_scan (dev inum : Z) (l : list inode) (i : nat) (empty : option nat) :
    option nat * option nat :=
  match l with
  | [] => (None, empty)
  | x :: l' =>
      if (0 <? i_ref x) && (i_dev x =? dev) && (i_inum x =? inum) then (Some i, empty)
      else iget_scan dev inum l' (S i)
             (match empty with
              | None => if i_ref x =? 0 then Some i else None
              | Some _ => empty
              end)
  end.

Definition iget (dev inum : Z) : K nat :=
  acquire L_itable;;
  t ← gets (fun s => itable s);
  match iget_scan dev inum t 0 None with
  | (Some i, _) =>
      set_inode i (fun x => {| x with i_ref := i_ref x + 1 |});;
      release L_itable;;
      ret i
  | (None, None) => panic "iget: no inodes"
  | (None, Some i) =>
      set_inode i (fun x => {| x with i_dev := dev |});;
      set_inode i (fun x => {| x with i_inum := inum |});;
      set_inode i (fun x => {| x with i_ref := 1 |});;
      set_inode i (fun x => {| x with i_valid := 0 |});;
      release L_itable;;
      ret i
  end.

Definition ialloc (dev type : Z) : K (option nat) :=
  sb ← get_sb;
  r ← mfind (seq 1 (Z.to_nat (sb_ninodes sb - 1))) (fun k =>
    let inum := Z.of_nat k in
    bp ← bread dev (IBLOCK inum sb);
    bd ← get_buf bp;
    if di_type (get_dinode (di_off inum) (b_data bd)) =? 0 then
      set_data bp (put_dinode (di_off inum)
        {| di_type := type; di_major := 0; di_minor := 0; di_nlink := 0; di_size := 0;
           di_addrs := replicate 13 0 |} (b_data bd));;
      log_write bp;;
      brelse bp;;
      ip ← iget dev inum;
      ret (Some ip)
    else brelse bp;; ret None);
  match r with
  | Some ip => ret (Some ip)
  | None => printk (str "ialloc: no inodes" ++ [10]) [];; ret None
  end.

Definition iupdate (ip : nat) : K unit :=
  sb ← get_sb;
  x ← get_inode ip;
  bp ← bread (i_dev x) (IBLOCK (i_inum x) sb);
  bd ← get_buf bp;
  set_data bp (put_dinode (di_off (i_inum x)) (dinode_of x) (b_data bd));;
  log_write bp;;
  brelse bp.

Definition idup (ip : nat) : K nat :=
  acquire L_itable;;
  set_inode ip (fun x => {| x with i_ref := i_ref x + 1 |});;
  release L_itable;;
  ret ip.

Definition ilock (o : option nat) : K unit :=
  match o with
  | None => panic "ilock"
  | Some ip =>
      x ← get_inode ip;
      panic_if (i_ref x <? 1) "ilock";;
      acquiresleep (SL_inode ip);;
      x ← get_inode ip;
      when (i_valid x =? 0)
        (sb ← get_sb;
         bp ← bread (i_dev x) (IBLOCK (i_inum x) sb);
         bd ← get_buf bp;
         set_inode ip (load_dinode (get_dinode (di_off (i_inum x)) (b_data bd)));;
         brelse bp;;
         set_inode ip (fun x => {| x with i_valid := 1 |});;
         x ← get_inode ip;
         panic_if (i_type x =? 0) "ilock: no type")
  end.

Definition iunlock (o : option nat) : K unit :=
  match o with
  | None => panic "iunlock"
  | Some ip =>
      h ← holdingsleep (SL_inode ip);
      x ← get_inode ip;
      panic_if (negb h || (i_ref x <? 1)) "iunlock";;
      releasesleep (SL_inode ip)
  end.

(** [ip->addrs[k]] *)
Definition addr_at (x : inode) (k : nat) : Z := nth k (i_addrs x) 0.
Definition set_addr (ip k : nat) (v : Z) : K unit :=
  set_inode ip (fun x => {| x with i_addrs := <[k := v]> (i_addrs x) |}).
(** Entry [k] of an indirect block. *)
Definition ind_at (d : list Z) (k : nat) : Z := get_le (4 * k) 4 d.

Definition itrunc (ip : nat) : K unit :=
  mfor (seq 0 (Z.to_nat NDIRECT)) (fun i =>
    x ← get_inode ip;
    when (negb (addr_at x i =? 0))
      (bfree (i_dev x) (addr_at x i);;
       set_addr ip i 0));;
  x ← get_inode ip;
  when (negb (addr_at x (Z.to_nat NDIRECT) =? 0))
    (bp ← bread (i_dev x) (addr_at x (Z.to_nat NDIRECT));
     mfor (seq 0 (Z.to_nat NINDIRECT)) (fun j =>
       bd ← get_buf bp;
       when (negb (ind_at (b_data bd) j =? 0)) (bfree (i_dev x) (ind_at (b_data bd) j)));;
     brelse bp;;
     bfree (i_dev x) (addr_at x (Z.to_nat NDIRECT));;
     set_addr ip (Z.to_nat NDIRECT) 0);;
  set_inode ip (fun x => {| x with i_size := 0 |});;
  iupdate ip.

Definition iput (ip : nat) : K unit :=
  acquire L_itable;;
  x ← get_inode ip;
  when ((i_ref x =? 1) && negb (i_valid x =? 0) && (i_nlink x =? 0))
    (acquiresleep (SL_inode ip);;
     release L_itable;;
     itrunc ip;;
     set_inode ip (fun x => {| x with i_type := 0 |});;
     iupdate ip;;
     set_inode ip (fun x => {| x with i_valid := 0 |});;
     releasesleep (SL_inode ip);;
     acquire L_itable);;
  set_inode ip (fun x => {| x with i_ref := i_ref x - 1 |});;
  release L_itable.

Definition iunlockput (ip : nat) : K unit := iunlock (Some ip);; iput ip.

Definition ireclaim (dev : Z) : K unit :=
  sb ← get_sb;
  mfor (seq 1 (Z.to_nat (sb_ninodes sb - 1))) (fun k =>
    let inum := Z.of_nat k in
    bp ← bread dev (IBLOCK inum sb);
    bd ← get_buf bp;
    let dip := get_dinode (di_off inum) (b_data bd) in
    o ← (if negb (di_type dip =? 0) && (di_nlink dip =? 0) then
           printk (str "ireclaim: orphaned inode %d" ++ [10]) [VInt inum];;
           ip ← iget dev inum;
           ret (Some ip)
         else ret None);
    brelse bp;;
    match o with
    | Some ip => begin_op;; ilock (Some ip);; iunlock (Some ip);; iput ip;; end_op
    | None => ret tt
    end).

Definition fsinit (dev : Z) : K unit :=
  readsb dev;;
  sb ← get_sb;
  panic_if (negb (sb_magic sb =? FSMAGIC)) "invalid file system";;
  initlog dev sb;;
  ireclaim dev.

(** ** Inode content *)
Definition bmap (ip : nat) (bn : Z) : K Z :=
  x ← get_inode ip;
  if bn <? NDIRECT then
    let addr := addr_at x (Z.to_nat bn) in
    if addr =? 0 then
      addr ← balloc (i_dev x);
      if addr =? 0 then ret 0
      else set_addr ip (Z.to_nat bn) addr;; ret addr
    else ret addr
  else
    let bn := bn - NDIRECT in
    if bn <? NINDIRECT then
      addr ←
        (let addr := addr_at x (Z.to_nat NDIRECT) in
         if addr =? 0 then
           addr ← balloc (i_dev x);
           if addr =? 0 then ret 0
           else set_addr ip (Z.to_nat NDIRECT) addr;; ret addr
         else ret addr);
      if addr =? 0 then ret 0
      else
        bp ← bread (i_dev x) addr;
        bd ← get_buf bp;
        addr ←
          (let addr := ind_at (b_data bd) (Z.to_nat bn) in
           if addr =? 0 then
             addr ← balloc (i_dev x);
             when (negb (addr =? 0))
               (bd ← get_buf bp;
                set_data bp (put_le (4 * Z.to_nat bn) 4 addr (b_data bd));;
                log_write bp);;
             ret addr
           else ret addr);
        brelse bp;;
        ret addr
    else panic "bmap: out of range".

(** [struct stat]. *)
Record stat := mkstat { st_dev : Z; st_ino : Z; st_type : Z; st_nlink : Z; st_size : Z }.
Definition stati (ip : nat) : K stat :=
  x ← get_inode ip;
  ret {| st_dev := i_dev x; st_ino := i_inum x; st_type := i_type x; st_nlink := i_nlink x;
         st_size := i_size x |}.

(** The loop of [readi]; the bytes copied so far are returned with the count.  A round ends
    a block or the request, so [n / BSIZE + 2] rounds are enough. *)
Fixpoint readi_loop (fuel ip : nat) (dst : kptr) (off n tot : Z) (acc : list Z) :
    K (Z * list Z) :=
  if tot <? n then
    match fuel with
    | O => fault "readi: out of fuel"
    | S fuel' =>
        addr ← bmap ip (off / BSIZE);
        if addr =? 0 then ret (tot, acc)
        else
          x ← get_inode ip;
          bp ← bread (i_dev x) addr;
          bd ← get_buf bp;
          let m := Z.min (n - tot) (BSIZE - off mod BSIZE) in
          let src := take (Z.to_nat m) (drop (Z.to_nat (off mod BSIZE)) (b_data bd)) in
          r ← either_copyout dst src;
          if r =? -1 then brelse bp;; ret (-1, acc)
          else
            brelse bp;;
            readi_loop fuel' ip (kptr_add dst m) (u32 (off + m)) n (u32 (tot + m)) (acc ++ src)
    end
  else ret (tot, acc).

Definition readi (ip : nat) (dst : kptr) (off n : Z) : K (Z * list Z) :=
  x ← get_inode ip;
  if (i_size x <? off) || (u32 (off + n) <? off) then ret (0, [])
  else
    let n := if i_size x <? u32 (off + n) then i_size x - off else n in
    readi_loop (Z.to_nat (n / BSIZE) + 2) ip dst off n 0 [].

(** The loop of [writei]: [tot] and [off] at its end.  When the copy from user space fails
    the bytes copied before the failure stay in the buffer. *)
Fixpoint writei_loop (fuel ip : nat) (src : kptr) (off n tot : Z) : K (Z * Z) :=
  if tot <? n then
    match fuel with
    | O => fault "writei: out of fuel"
    | S fuel' =>
        addr ← bmap ip (off / BSIZE);
        if addr =? 0 then ret (tot, off)
        else
          x ← get_inode ip;
          bp ← bread (i_dev x) addr;
          bd ← get_buf bp;
          let m := Z.min (n - tot) (BSIZE - off mod BSIZE) in
          '(r, bs) ← either_copyin src m;
          set_data bp (splice (Z.to_nat (off mod BSIZE)) bs (b_data bd));;
          if r =? -1 then brelse bp;; ret (tot, off)
          else
            log_write bp;;
            brelse bp;;
            writei_loop fuel' ip (kptr_add src m) (u32 (off + m)) n (u32 (tot + m))
    end
  else ret (tot, off).

Definition writei (ip : nat) (src : kptr) (off n : Z) : K Z :=
  x ← get_inode ip;
  if (i_size x <? off) || (u32 (off + n) <? off) then ret (-1)
  else if MAXFILE * BSIZE <? u32 (off + n) then ret (-1)
  else
    '(tot, off) ← writei_loop (Z.to_nat (n / BSIZE) + 2) ip src off n 0;
    x ← get_inode ip;
    when (i_size x <? off) (set_inode ip (fun x => {| x with i_size := off |}));;
    iupdate ip;;
    ret tot.

(** ** Directories *)
Definition DIRENT_SIZE : Z := 16.
Definition de_inum (de : list Z) : Z := get_le 0 2 de.
Definition de_name (de : list Z) : list Z := drop 2 de.

Definition namecmp (s t : list Z) : Z := strncmp s t (Z.to_nat DIRSIZ).

(** The offsets of a directory's entries. *)
Definition dir_offsets (size : Z) : list Z :=
  map (fun k => Z.of_nat k * DIRENT_SIZE)
      (seq 0 (Z.to_nat ((size + DIRENT_SIZE - 1) / DIRENT_SIZE))).

(** The inode, and the offset that is stored in [*poff]. *)
Definition dirlookup (dp : nat) (name : list Z) : K (option (nat * Z)) :=
  x ← get_inode dp;
  panic_if (negb (i_type x =? T_DIR)) "dirlookup not DIR";;
  mfind (dir_offsets (i_size x)) (fun off =>
    '(r, de) ← readi dp (Klocal []) off DIRENT_SIZE;
    panic_if (negb (r =? DIRENT_SIZE)) "dirlookup read";;
    if de_inum de =? 0 then ret None
    else if namecmp name (de_name de) =? 0 then
      ip ← iget (i_dev x) (de_inum de);
      ret (Some (ip, off))
    else ret None).

Definition dirlink (dp : nat) (name : list Z) (inum : Z) : K Z :=
  o ← dirlookup dp name;
  match o with
  | Some (ip, _) => iput ip;; ret (-1)
  | None =>
      x ← get_inode dp;
      r ← mfind (dir_offsets (i_size x)) (fun off =>
        '(r, de) ← readi dp (Klocal []) off DIRENT_SIZE;
        panic_if (negb (r =? DIRENT_SIZE)) "dirlink read";;
        ret (if de_inum de =? 0 then Some off else None));
      let off := default (Z.of_nat (length (dir_offsets (i_size x))) * DIRENT_SIZE) r in
      let de := le_bytes 2 inum ++ strncpy (replicate 14 0) name (Z.to_nat DIRSIZ) in
      w ← writei dp (Klocal de) off DIRENT_SIZE;
      if negb (w =? DIRENT_SIZE) then ret (-1) else ret 0
  end.

(** ** Paths *)
Fixpoint skip_slashes (path : list Z) : list Z :=
  match path with
  | c :: path' => if c =? 47 then skip_slashes path' else path
  | [] => []
  end.
(** The element up to the next slash, and the rest. *)
Fixpoint path_elem (path : list Z) : list Z * list Z :=
  match path with
  | c :: path' =>
      if c =? 47 then ([], path)
      else let '(e, r) := path_elem path' in (c :: e, r)
  | [] => ([], [])
  end.

(** [name] is the buffer that is passed in; the new contents are returned. *)
Definition skipelem (path name : list Z) : option (list Z * list Z) :=
  let path := skip_slashes path in
  match path with
  | [] => None
  | _ =>
      let '(s, path) := path_elem path in
      let len := Z.of_nat (length s) in
      let name :=
        if DIRSIZ <=? len then splice 0 (take (Z.to_nat DIRSIZ) s) name
        else splice 0 (s ++ [0]) name in
      Some (skip_slashes path, name)
  end.

(** The loop of [namex]: the inode and the name buffer.  Every round consumes a character. *)
Fixpoint namex_loop (fuel : nat) (path : list Z) (nameiparent : bool) (name : list Z) (ip : nat) :
    K (option nat * list Z) :=
  match skipelem path name with
  | None => if nameiparent then iput ip;; ret (None, name) else ret (Some ip, name)
  | Some (path, name) =>
      match fuel with
      | O => fault "namex: out of fuel"
      | S fuel' =>
          ilock (Some ip);;
          x ← get_inode ip;
          if negb (i_type x =? T_DIR) then iunlockput ip;; ret (None, name)
          else if nameiparent && bool_decide (path = []) then
            iunlock (Some ip);; ret (Some ip, name)
          else
            next ← dirlookup ip name;
            match next with
            | None => iunlockput ip;; ret (None, name)
            | Some (next, _) =>
                iunlockput ip;;
                namex_loop fuel' path nameiparent name next
            end
      end
  end.

Definition namex (path : list Z) (nameiparent : bool) (name : list Z) : K (option nat * list Z) :=
  ip ← (if nth 0 path 0 =? 47 then iget ROOTDEV ROOTINO
        else
          i ← myproc_deref;
          p ← get_proc i;
          ip ← deref "idup" (cwd p);
          idup ip);
  namex_loop (length path) path nameiparent name ip.

Definition namei (path : list Z) : K (option nat) :=
  '(ip, _) ← namex path false (replicate 14 0);
  ret ip.
Definition nameiparent (path : list Z) : K (option nat * list Z) :=
  namex path true (replicate 14 0).
