(* ===== verification/Fsblk.v ===== *)
(** * Blocks, the bitmap and inodes inside a transaction (the theory of kernel/fs.c)

    [tx] is the state of an open transaction as the file system sees it: the blocks that it
    has logged are pinned in the cache, every other block is as on the disk.  Reading a block
    and updating a block through the cache and the log then are a lookup and an update of the
    map [view], and the block allocator and the inode routines are proved over that map. *)

From S2P Require Import Prelude Spinlock State Printk Kstring Kalloc Vm Sync Bio Log Fs.

Record tx (me : nat) (bs : list Z) (s : kstate) : Prop := {
  tx_inv : bio_inv s;
  tx_ctx : bio_ctx me s;
  tx_log : log_has bs (klog s);
  tx_open : 1 <= log_outstanding (klog s);
  tx_lock : L_log ∉ held s;
  tx_pinned : forall b, b ∈ bs -> 1 <= pins s b;
  tx_clean : forall b, b ∉ bs -> view s b = disk_blocks s b }.

(** The blocks of the transaction after [b] is logged. *)
Definition logged (b : Z) (bs : list Z) : list Z := if decide (b ∈ bs) then bs else bs ++ [b].

(** From [s] to [s'], touching the blocks [ws]: the contents of the blocks become [v], what the
    process has locked stays as it is, and nothing but the cache, the log's header and
    the output changes. *)
Record txstep (me : nat) (ws bs : list Z) (s : kstate) (v : Z -> list Z) (bs' : list Z) (s' : kstate) : Prop := {
  ts_tx : tx me bs' s';
  ts_bs : forall b, b ∈ bs -> b ∈ bs';
  ts_grow : (length bs <= length bs')%nat;
  ts_view : forall x, view s' x = v x;
  ts_locked : forall x, locked s' x = locked s x;
  ts_held : forall j x, loaded me j x s -> x ∉ ws -> loaded me j x s' /\ bufs s' !!! j = bufs s !!! j;
  ts_nused : (nused s' + length bs <= nused s + length bs')%nat;
  ts_frame : exists l, io_frame (set_klog l s) s' }.

Lemma txstep_same me ws bs s v bs' s' : txstep me ws bs s v bs' s' ->
  ksb s' = ksb s /\ itable s' = itable s /\ held s' = held s /\ cur s' = cur s.
Proof. intros T. destruct (ts_frame _ _ _ _ _ _ _ T) as [l F]. by rewrite (if_rest _ _ F). Qed.

Lemma io_frame_klog_trans l1 l2 s s1 s2 : io_frame (set_klog l1 s) s1 -> io_frame (set_klog l2 s1) s2 ->
  io_frame (set_klog l2 s) s2.
Proof. intros F1 F2. eapply io_frame_trans; [|exact F2]. by apply (io_frame_klog l2) in F1. Qed.

Lemma txstep_trans me ws1 ws2 bs s v1 bs1 s1 v2 bs2 s2 :
  txstep me ws1 bs s v1 bs1 s1 -> txstep me ws2 bs1 s1 v2 bs2 s2 ->
  txstep me (ws1 ++ ws2) bs s v2 bs2 s2.
Proof.
  intros A B. split.
  - apply B.
  - intros b Hb. by apply B, A.
  - etransitivity; [apply A|apply B].
  - apply B.
  - intros x. by rewrite (ts_locked _ _ _ _ _ _ _ B), (ts_locked _ _ _ _ _ _ _ A).
  - intros j x Hl [H1 H2]%not_elem_of_app. destruct (ts_held _ _ _ _ _ _ _ A j x Hl H1) as [L1 E1].
    destruct (ts_held _ _ _ _ _ _ _ B j x L1 H2) as [L2 E2]. by rewrite E2.
  - pose proof (ts_nused _ _ _ _ _ _ _ A). pose proof (ts_nused _ _ _ _ _ _ _ B). lia.
  - destruct (ts_frame _ _ _ _ _ _ _ A) as [l1 F1], (ts_frame _ _ _ _ _ _ _ B) as [l2 F2].
    exists l2. by eapply io_frame_klog_trans.
Qed.

(** A block that can be read: not locked, and a buffer for it. *)
Definition can_read (s : kstate) (b : Z) : Prop :=
  locked s b = false /\ (pins s b <> 0 \/ (nused s < NBUF)%nat).

(** ** Reading a block *)
(** The transaction with block [b] read into buffer [i] and locked. *)
Record reading (me : nat) (bs : list Z) (s : kstate) (b : Z) (i : nat) (s1 : kstate) : Prop := {
  rd_got : got me s b i s1;
  rd_tx : tx me bs s1 }.

Lemma tx_bread me bs s b : tx me bs s -> can_read s b -> wp (bread ROOTDEV b) (reading me bs s b) s.
Proof.
  intros T [Hl Hr]. eapply wp_mono; [apply bread_spec; [apply T|apply T|done|done]|].
  intros i s1 G. split; [done|]. pose proof (got_frame _ _ _ _ _ G) as F. split.
  - apply G.
  - apply G.
  - rewrite F. apply T.
  - rewrite F. apply T.
  - rewrite F. apply T.
  - intros x Hx. rewrite (got_pins _ _ _ _ _ G). pose proof (tx_pinned _ _ _ T x Hx). case_decide; lia.
  - intros x Hx. rewrite (got_view _ _ _ _ _ G), F. by apply T.
Qed.

(** Releasing the buffer again. *)
Lemma tx_brelse me bs s i b : tx me bs s -> loaded me i b s -> (b ∈ bs -> 1 < pins s b) ->
  wp (brelse i) (fun _ s' => released me i b s s' /\ tx me bs s') s.
Proof.
  intros T L Hp. eapply wp_mono; [eapply brelse_spec; [apply T|apply T|done|]|].
  { destruct (decide (b ∈ bs)); [left; auto|right; by apply T]. }
  intros [] s' R. split; [done|]. pose proof (re_frame _ _ _ _ _ R) as F. split.
  - apply R.
  - apply R.
  - rewrite F. apply T.
  - rewrite F. apply T.
  - rewrite F. apply T.
  - intros x Hx. rewrite (re_pins _ _ _ _ _ R). pose proof (tx_pinned _ _ _ T x Hx).
    case_decide; [subst; specialize (Hp Hx)|]; lia.
  - intros x Hx. rewrite (re_view _ _ _ _ _ R), F. by apply T.
Qed.

Lemma loaded_released me i b s s' j x : loaded me j x s -> j <> i -> released me i b s s' ->
  loaded me j x s' /\ bufs s' !!! j = bufs s !!! j.
Proof.
  intros L Hne R. pose proof (re_other _ _ _ _ _ R j Hne) as E. split; [|done].
  eapply loaded_frame; [done|done|apply R].
Qed.

Definition upd (b : Z) (d : list Z) (v : Z -> list Z) (x : Z) : list Z := if decide (x = b) then d else v x.

Lemma edited_refl me i b s : bio_inv s -> bio_ctx me s -> loaded me i b s -> edited me i b (view s b) 0 s s.
Proof. intros Hi Hc L. split; try done; intros x; by_cases. Qed.

Lemma txstep_view_ext me ws bs s v w bs' s' : txstep me ws bs s v bs' s' -> (forall x, v x = w x) ->
  txstep me ws bs s w bs' s'.
Proof. intros [] E. split; try done. intros x. rewrite <-E. auto. Qed.

(** An edit followed by a pin and a change of the log's header. *)
Lemma edited_logged me i b d l s1 s2 s3 : edited me i b d 0 s1 s2 -> edited me i b d 1 s2 s3 ->
  edited me i b d 1 s1 (set_klog l s3).
Proof.
  intros E E3. split.
  - apply bio_inv_klog, E3.
  - eapply bio_ctx_frame; [apply E3|done..].
  - eapply loaded_frame; [apply E3|done..].
  - intros x. change (view (set_klog l s3) x) with (view s3 x).
    rewrite (ed_view _ _ _ _ _ _ _ E3), (ed_view _ _ _ _ _ _ _ E). by_cases.
  - intros x. change (pins (set_klog l s3) x) with (pins s3 x).
    rewrite (ed_pins _ _ _ _ _ _ _ E3), (ed_pins _ _ _ _ _ _ _ E). by_cases.
  - intros x. change (locked (set_klog l s3) x) with (locked s3 x).
    by rewrite (ed_locked _ _ _ _ _ _ _ E3), (ed_locked _ _ _ _ _ _ _ E).
  - change (nused (set_klog l s3)) with (nused s3).
    by rewrite (ed_nused _ _ _ _ _ _ _ E3), (ed_nused _ _ _ _ _ _ _ E).
  - intros j Hj. change (bufs (set_klog l s3)) with (bufs s3).
    by rewrite (ed_other _ _ _ _ _ _ _ E3), (ed_other _ _ _ _ _ _ _ E).
Qed.

(** ** A block held across other steps

    [s1] is reached from [s] with block [b] locked in buffer [i] all the while; the steps in
    between touched the blocks [ws], and the blocks now hold [v]. *)
Record holds_blk (me : nat) (ws bs : list Z) (s : kstate) (b : Z) (i : nat) (v : Z -> list Z)
    (bs1 : list Z) (s1 : kstate) : Prop := {
  hb_tx : tx me bs1 s1;
  hb_loaded : loaded me i b s1;
  hb_in : b ∈ bs1 -> b ∈ bs;
  hb_pins : pins s1 b = pins s b + 1;
  hb_bs : forall x, x ∈ bs -> x ∈ bs1;
  hb_grow : (length bs <= length bs1)%nat;
  hb_view : forall x, view s1 x = v x;
  hb_locked : forall x, locked s1 x = if decide (x = b) then true else locked s x;
  hb_held : forall j x, loaded me j x s -> x ∉ b :: ws -> j <> i /\ loaded me j x s1 /\ bufs s1 !!! j = bufs s !!! j;
  hb_nused : (nused s1 + length bs <= nused s + (if decide (pins s b = 0%Z) then 1 else 0) + length bs1)%nat;
  hb_frame : exists l, io_frame (set_klog l s) s1 }.

Lemma hold_read me bs s b i s1 : tx me bs s -> reading me bs s b i s1 -> locked s b = false ->
  holds_blk me [] bs s b i (view s) bs s1.
Proof.
  intros T [G T1] Hl. split; try done; try apply G.
  - rewrite (got_pins _ _ _ _ _ G). by_cases.
  - intros j x Hj Hx. assert (x <> b) by set_solver. pose proof (got_fresh _ _ _ _ _ G j x Hj H) as Hji. split; [done|].
    split; [by eapply loaded_got|by apply (got_other _ _ _ _ _ G)].
  - rewrite (got_nused _ _ _ _ _ G). lia.
  - exists (klog s). apply (io_frame_trans _ s); [apply (io_frame_refl s)|by eapply got_io].
Qed.

Lemma hold_step me ws ws' bs s b i v bs1 s1 v' bs2 s2 : holds_blk me ws bs s b i v bs1 s1 ->
  txstep me ws' bs1 s1 v' bs2 s2 -> b ∉ ws' -> (b ∈ bs2 -> b ∈ bs1) ->
  holds_blk me (ws ++ ws') bs s b i v' bs2 s2.
Proof.
  intros H T Hb Hin. destruct (ts_held _ _ _ _ _ _ _ T i b (hb_loaded _ _ _ _ _ _ _ _ _ H) Hb) as [L2 E2]. split.
  - apply T.
  - done.
  - intros Hx. by apply (hb_in _ _ _ _ _ _ _ _ _ H), Hin.
  - rewrite (loaded_pins me i b s2) by (done || apply T). rewrite E2.
    rewrite <-(loaded_pins me i b s1) by apply H. apply H.
  - intros x Hx. by apply T, H.
  - pose proof (hb_grow _ _ _ _ _ _ _ _ _ H). pose proof (ts_grow _ _ _ _ _ _ _ T). lia.
  - apply T.
  - intros x. by rewrite (ts_locked _ _ _ _ _ _ _ T), (hb_locked _ _ _ _ _ _ _ _ _ H).
  - intros j x Hj [Hx Hw]%not_elem_of_cons. apply not_elem_of_app in Hw as [Hw Hw'].
    destruct (hb_held _ _ _ _ _ _ _ _ _ H j x Hj) as (Hji & L1 & E1); [by apply not_elem_of_cons|].
    destruct (ts_held _ _ _ _ _ _ _ T j x L1 Hw') as [L3 E3]. split; [done|]. split; [done|congruence].
  - pose proof (hb_nused _ _ _ _ _ _ _ _ _ H). pose proof (ts_nused _ _ _ _ _ _ _ T). lia.
  - destruct (hb_frame _ _ _ _ _ _ _ _ _ H) as [l1 F1], (ts_frame _ _ _ _ _ _ _ T) as [l2 F2].
    exists l2. by eapply io_frame_klog_trans.
Qed.

(** The block is let go, after an edit that leaves [d] in it. *)
Lemma hold_finish me ws bs s b i v bs1 s1 bs' s2 d dp :
  tx me bs s -> locked s b = false -> holds_blk me ws bs s b i v bs1 s1 ->
  tx me bs' s2 -> edited me i b d dp s1 s2 -> 0 <= dp ->
  (forall x, x ∈ bs1 -> x ∈ bs') -> (b ∈ bs' -> b ∈ bs \/ 1 <= dp) ->
  length bs' = (length bs1 + Z.to_nat dp)%nat -> (exists l, s2 = set_klog l (set_bufs (bufs s2) s1)) ->
  wp (brelse i) (fun _ s' => txstep me (b :: ws) bs s (upd b d v) bs' s') s2.
Proof.
  intros T0 Hul H T2 E Hdp Hsub Hpin Hlen [l F]. pose proof (ed_loaded _ _ _ _ _ _ _ E) as L.
  pose proof (pins_nonneg s (tx_inv _ _ _ T0) b) as Hp0. pose proof (hb_grow _ _ _ _ _ _ _ _ _ H) as Hgr.
  assert (Hp2 : pins s2 b = pins s b + 1 + dp).
  { rewrite (ed_pins _ _ _ _ _ _ _ E), (hb_pins _ _ _ _ _ _ _ _ _ H), decide_True by done. done. }
  eapply wp_mono; [eapply tx_brelse; [done|done|]|].
  { intros Hb. rewrite Hp2. destruct (Hpin Hb) as [Hb'|]; [pose proof (tx_pinned _ _ _ T0 b Hb')|]; lia. }
  intros [] s' [R T']. split; [done| |lia| | | | |].
  - intros x Hx. by apply Hsub, H.
  - intros x. rewrite (re_view _ _ _ _ _ R), (ed_view _ _ _ _ _ _ _ E), (hb_view _ _ _ _ _ _ _ _ _ H). done.
  - intros x. rewrite (re_locked _ _ _ _ _ R), (ed_locked _ _ _ _ _ _ _ E), (hb_locked _ _ _ _ _ _ _ _ _ H). by_cases.
  - intros j x Hj Hx. destruct (hb_held _ _ _ _ _ _ _ _ _ H j x Hj Hx) as (Hji & L1 & E1).
    pose proof (ed_other _ _ _ _ _ _ _ E j Hji) as E2.
    assert (L2 : loaded me j x s2) by (eapply loaded_frame; [exact L1|done|by rewrite F]).
    destruct (loaded_released _ _ _ _ _ _ _ L2 Hji R) as [L' E']. split; [done|congruence].
  - pose proof (hb_nused _ _ _ _ _ _ _ _ _ H) as Hn.
    rewrite (re_nused _ _ _ _ _ R), Hp2, (ed_nused _ _ _ _ _ _ _ E). revert Hn. by_cases.
  - destruct (hb_frame _ _ _ _ _ _ _ _ _ H) as [l1 F1]. exists l. apply (io_frame_klog l) in F1.
    eapply io_frame_trans; [exact F1|]. eapply io_frame_trans; [|eapply released_io; exact R].
    rewrite F. apply (set_bufs_io (bufs s2) (set_klog l s1)).
Qed.

Lemma hold_done me ws bs s b i v bs1 s1 : tx me bs s -> locked s b = false -> holds_blk me ws bs s b i v bs1 s1 ->
  wp (brelse i) (fun _ s' => txstep me (b :: ws) bs s v bs1 s') s1.
Proof.
  intros T Hl H. eapply wp_mono.
  - eapply (hold_finish me ws bs s b i v bs1 s1 bs1 s1 (view s1 b) 0); try done; try lia.
    + apply H.
    + apply edited_refl; apply H.
    + intros Hb. left. by apply H.
    + by exists (klog s1).
  - intros [] s' S. eapply txstep_view_ext; [exact S|]. intros x. unfold upd.
    case_decide; [subst; apply H|done].
Qed.

Lemma hold_update me ws bs s b i v bs1 s1 d : tx me bs s -> locked s b = false -> holds_blk me ws bs s b i v bs1 s1 ->
  (length bs1 < 30)%nat ->
  wp (set_data i d;; log_write i;; brelse i)
     (fun _ s' => txstep me (b :: ws) bs s (upd b d v) (logged b bs1) s') s1.
Proof.
  intros T Hl H Hn. pose proof (hb_tx _ _ _ _ _ _ _ _ _ H) as T1.
  apply wp_bind. eapply wp_mono; [eapply (set_data_spec me i b d); apply H || apply T1|]. intros [] s2 [E F].
  assert (Hh : L_log ∉ held s2) by (rewrite F; apply T1).
  assert (Hlog : log_has bs1 (klog s2)) by (rewrite F; apply T1).
  assert (Ho : 1 <= log_outstanding (klog s2)) by (rewrite F; apply T1).
  assert (Hpin : forall x, pins s2 x = pins s1 x) by (intros x; rewrite (ed_pins _ _ _ _ _ _ _ E); by_cases).
  assert (Hfl : exists l, s2 = set_klog l (set_bufs (bufs s2) s1)) by (exists (klog s1); rewrite F at 1; done).
  assert (Hdsk : disk_blocks s2 = disk_blocks s1) by (by rewrite F).
  apply wp_bind. unfold logged. case_decide as Hb.
  - eapply wp_intro; [eapply (log_write_absorb me i b bs1 s2); try done; apply E|].
    eapply hold_finish; [exact T|done|exact H| |exact E|lia|done| |lia|done].
    + split; try done; try apply E.
      * intros x Hx. rewrite Hpin. by apply T1.
      * intros x Hx. rewrite (ed_view _ _ _ _ _ _ _ E), decide_False, Hdsk by congruence. by apply T1.
    + intros _. left. by apply H.
  - eapply wp_mono; [apply (log_write_append me i b bs1 s2); try done; apply E|].
    intros [] s4 (s3 & -> & E3 & F3).
    rewrite (ed_view _ _ _ _ _ _ _ E), decide_True in E3 by done.
    set (l := log_append bs1 b (klog s2)).
    pose proof (edited_logged me i b d l s1 s2 s3 E E3) as E4.
    eapply (hold_finish me ws bs s b i v bs1 s1 (bs1 ++ [b])); [exact T|done|exact H| |exact E4|lia| | | |].
    + split.
      * apply E4.
      * apply E4.
      * apply log_append_has; [done|lia].
      * cbn. done.
      * cbn. rewrite F3. done.
      * intros x Hx. rewrite (ed_pins _ _ _ _ _ _ _ E4).
        pose proof (pins_nonneg s1 (tx_inv _ _ _ T1) x) as Hnn.
        apply elem_of_app in Hx as [Hx| ->%list_elem_of_singleton].
        { pose proof (tx_pinned _ _ _ T1 x Hx). case_decide; lia. }
        rewrite decide_True by done. lia.
      * intros x [Hx Hne]%not_elem_of_app. rewrite (ed_view _ _ _ _ _ _ _ E4), decide_False by set_solver.
        cbn. rewrite F3. cbn. rewrite Hdsk. by apply T1.
    + intros x Hx. apply elem_of_app. by left.
    + right. lia.
    + rewrite length_app. cbn. lia.
    + exists l. rewrite F3 at 1. rewrite F at 1. done.
Qed.

(** A block that was only read. *)
Lemma tx_done me bs s b i s1 : tx me bs s -> reading me bs s b i s1 -> locked s b = false ->
  wp (brelse i) (fun _ s' => txstep me [b] bs s (view s) bs s') s1.
Proof. intros T R Hl. eapply hold_done; [done|done|]. by apply hold_read. Qed.

(** A block that is given contents [d] and logged. *)
Lemma tx_update me bs s b i s1 d : tx me bs s -> reading me bs s b i s1 -> locked s b = false ->
  (length bs < 30)%nat ->
  wp (set_data i d;; log_write i;; brelse i)
     (fun _ s' => txstep me [b] bs s (upd b d (view s)) (logged b bs) s') s1.
Proof. intros T R Hl Hn. eapply hold_update; [done|done|by apply hold_read|done]. Qed.

Lemma tx_update_then {A} me bs s b i s1 d (k : K A) Q :
  tx me bs s -> reading me bs s b i s1 -> locked s b = false -> (length bs < 30)%nat ->
  (forall s', txstep me [b] bs s (upd b d (view s)) (logged b bs) s' -> wp k Q s') ->
  wp (set_data i d;; log_write i;; brelse i;; k) Q s1.
Proof.
  intros T R Hl Hn Hk. pose proof (tx_update me bs s b i s1 d T R Hl Hn) as U. unfold wp, bind in *.
  destruct (set_data i d s1) as [[] s2| | |]; try done. destruct (log_write i s2) as [[] s3| | |]; try done.
  destruct (brelse i s3) as [[] s4| | |]; try done. by apply Hk.
Qed.

Lemma length_logged b bs : (length bs <= length (logged b bs) <= length bs + 1)%nat.
Proof. unfold logged. case_decide; [lia|]. rewrite length_app. cbn. lia. Qed.

Definition zeros : list Z := replicate (Z.to_nat BSIZE) 0.

Lemma bzero_spec me bs s b : tx me bs s -> can_read s b -> (length bs < 30)%nat ->
  wp (bzero ROOTDEV b) (fun _ s' => txstep me [b] bs s (upd b zeros (view s)) (logged b bs) s') s.
Proof.
  intros T C Hn. unfold bzero. apply wp_bind. eapply wp_mono; [by apply tx_bread|]. intros i s1 R.
  apply tx_update; [done|done|apply C|done].
Qed.

(** ** Bits of a bitmap block *)
Lemma testbit_land_mask x k : 0 <= k -> (Z.land x (Z.shiftl 1 k) =? 0) = negb (Z.testbit x k).
Proof.
  intros Hk. rewrite Z.shiftl_1_l. destruct (Z.testbit x k) eqn:E; cbn.
  - apply Z.eqb_neq. intros H. assert (Ht : Z.testbit (Z.land x (2 ^ k)) k = false) by (by rewrite H, Z.bits_0).
    rewrite Z.land_spec, E, Z.pow2_bits_true in Ht by lia. done.
  - apply Z.eqb_eq. apply Z.bits_inj'. intros n Hn. rewrite Z.land_spec, Z.bits_0.
    rewrite Z.pow2_bits_eqb by lia. destruct (Z.eqb_spec k n) as [->|]; [by rewrite E|apply andb_false_r].
Qed.

Lemma bit_free_testbit d bi : 0 <= bi -> bit_free d bi = negb (Z.testbit (bit_byte d bi) (bi mod 8)).
Proof. intros. unfold bit_free, bit_mask. apply testbit_land_mask. dlia. Qed.

Lemma testbit_u8 x k : 0 <= k < 8 -> Z.testbit (u8 x) k = Z.testbit x k.
Proof. intros. unfold u8. by rewrite Z.mod_pow2_bits_low by lia. Qed.

(** A bit in the block. *)
Definition bit_ok (d : list Z) (bi : Z) : Prop := 0 <= bi < 8 * Z.of_nat (length d).

Section Bits.
Context (d : list Z) (bi bj : Z) (Hi : bit_ok d bi) (Hj : bit_ok d bj).

Lemma byte_insert v : bit_byte (<[Z.to_nat (bi / 8) := v]> d) bj =
  if decide (bi / 8 = bj / 8) then v else bit_byte d bj.
Proof.
  unfold bit_byte, bit_ok in *. rewrite !nth_lookup. case_decide as E.
  - rewrite <-E, list_lookup_insert_eq by dlia. done.
  - rewrite list_lookup_insert_ne; [done|]. dlia.
Qed.

Lemma set_bit_free : bit_free (set_bit d bi) bj = if decide (bi = bj) then false else bit_free d bj.
Proof.
  unfold bit_ok in *. rewrite !bit_free_testbit by lia. unfold set_bit. rewrite byte_insert.
  destruct (decide (bi / 8 = bj / 8)) as [E|E]; [|by rewrite decide_False by congruence].
  rewrite testbit_u8, Z.lor_spec by dlia. unfold bit_mask. rewrite Z.shiftl_1_l, Z.pow2_bits_eqb by dlia.
  assert (Hb : bit_byte d bi = bit_byte d bj) by (unfold bit_byte; by rewrite E).
  rewrite Hb. case_decide as Hij.
  - subst. by rewrite Z.eqb_refl, orb_true_r.
  - destruct (Z.eqb_spec (bi mod 8) (bj mod 8)); [dlia|]. by rewrite orb_false_r.
Qed.

Lemma clear_bit_free : bit_free (clear_bit d bi) bj = if decide (bi = bj) then true else bit_free d bj.
Proof.
  unfold bit_ok in *. rewrite !bit_free_testbit by lia. unfold clear_bit. rewrite byte_insert.
  destruct (decide (bi / 8 = bj / 8)) as [E|E]; [|by rewrite decide_False by congruence].
  rewrite testbit_u8, Z.land_spec, Z.lnot_spec by dlia.
  unfold bit_mask. rewrite Z.shiftl_1_l, Z.pow2_bits_eqb by dlia.
  assert (Hb : bit_byte d bi = bit_byte d bj) by (unfold bit_byte; by rewrite E).
  rewrite Hb. case_decide as Hij.
  - subst. by rewrite Z.eqb_refl, andb_false_r.
  - destruct (Z.eqb_spec (bi mod 8) (bj mod 8)); [dlia|]. by rewrite andb_true_r.
Qed.
End Bits.

(** The first free bit from [bi] on. *)
Lemma free_bit_spec fuel d n : forall bi, 0 <= bi -> n - bi <= Z.of_nat fuel ->
  match free_bit fuel d bi n with
  | Some r => bi <= r < n /\ bit_free d r = true /\ forall j, bi <= j < r -> bit_free d j = false
  | None => forall j, bi <= j < n -> bit_free d j = false
  end.
Proof.
  induction fuel as [|fuel IH]; intros bi Hbi Hf; cbn [free_bit]; [lia|].
  destruct (Z.ltb_spec bi n); [|lia]. destruct (bit_free d bi) eqn:E; [split_and!; lia || done|].
  specialize (IH (bi + 1) ltac:(lia) ltac:(lia)). destruct (free_bit fuel d (bi + 1) n) as [r|].
  - destruct IH as (H1 & H2 & H3). split_and!; [lia|lia|done|]. intros j Hj.
    destruct (decide (j = bi)) as [->|]; [done|]. apply H3. lia.
  - intros j Hj. destruct (decide (j = bi)) as [->|]; [done|]. apply IH. lia.
Qed.

(** ** The block allocator *)

(** Whether the bitmap has block [b] free, when the blocks hold [v]. *)
Definition blk_free (sb : superblock) (v : Z -> list Z) (b : Z) : bool :=
  bit_free (v (BBLOCK b sb)) (b mod BPB).
Definition is_bitmap (sb : superblock) (x : Z) : Prop :=
  sb_bmapstart sb <= x <= sb_bmapstart sb + (sb_size sb - 1) / BPB.

(** A file system whose bitmap is intact: its blocks are whole and not marked free themselves. *)
Record bitmap_ok (sb : superblock) (v : Z -> list Z) : Prop := {
  bm_size : 0 < sb_size sb < 2 ^ 31;
  bm_start : 0 <= sb_bmapstart sb < 2 ^ 31;
  bm_len : forall x, is_bitmap sb x -> length (v x) = Z.to_nat BSIZE;
  bm_self : forall b, 0 <= b < sb_size sb -> blk_free sb v b = true -> ~ is_bitmap sb b }.

Lemma BBLOCK_eq sb b : 0 <= sb_bmapstart sb < 2 ^ 31 -> 0 <= b < 2 ^ 31 ->
  BBLOCK b sb = sb_bmapstart sb + b / BPB.
Proof. intros. unfold BBLOCK. change BPB with 8192. rewrite u32_small; dlia. Qed.

Lemma BBLOCK_bitmap sb v b : bitmap_ok sb v -> 0 <= b < sb_size sb -> is_bitmap sb (BBLOCK b sb).
Proof.
  intros [Hs Hb _ _] Hr. rewrite BBLOCK_eq by lia. unfold is_bitmap. change BPB with 8192. dlia.
Qed.

(** Marking block [b]: its bit changes and no other. *)
Definition mark (sb : superblock) (g : list Z -> Z -> list Z) (b : Z) (v : Z -> list Z) : Z -> list Z :=
  upd (BBLOCK b sb) (g (v (BBLOCK b sb)) (b mod BPB)) v.

Lemma mark_free sb v g r b c :
  (forall d bi bj, bit_ok d bi -> bit_ok d bj ->
     bit_free (g d bi) bj = if decide (bi = bj) then r else bit_free d bj) ->
  bitmap_ok sb v -> 0 <= b < sb_size sb -> 0 <= c < sb_size sb ->
  blk_free sb (mark sb g b v) c = if decide (c = b) then r else blk_free sb v c.
Proof.
  intros Hg Hok Hb Hc. pose proof (bm_size _ _ Hok). pose proof (bm_start _ _ Hok).
  unfold blk_free, mark, upd.
  pose proof (bm_len _ _ Hok _ (BBLOCK_bitmap _ _ _ Hok Hb)) as Hlen.
  assert (Hbit : forall x, bit_ok (v (BBLOCK b sb)) (x mod BPB)).
  { intros x. unfold bit_ok. rewrite Hlen. change (Z.to_nat BSIZE) with 1024%nat. change BPB with 8192. dlia. }
  rewrite !BBLOCK_eq by lia. case_decide as E.
  - replace (sb_bmapstart sb + b / BPB) with (BBLOCK b sb) by (rewrite BBLOCK_eq; lia).
    rewrite Hg by apply Hbit. destruct (decide (c = b)) as [->|Hne]; [by rewrite decide_True|].
    rewrite decide_False by (change BPB with 8192 in *; dlia). do 2 f_equal. rewrite BBLOCK_eq; lia.
  - by rewrite decide_False by (intros ->; lia).
Qed.

(** The state in which the allocator runs: the bitmap's blocks and the free blocks are not
    locked, and there are buffers for two more blocks. *)
Record alloc_ok (me : nat) (bs : list Z) (s : kstate) : Prop := {
  ao_tx : tx me bs s;
  ao_bm : bitmap_ok (ksb s) (view s);
  ao_bmul : forall x, is_bitmap (ksb s) x -> locked s x = false;
  ao_frul : forall b, 0 <= b < sb_size (ksb s) -> blk_free (ksb s) (view s) b = true -> locked s b = false;
  ao_room : (nused s + 1 < NBUF)%nat;
  ao_log : (length bs + 1 < 30)%nat }.

Lemma can_read_bitmap me bs s b : alloc_ok me bs s -> 0 <= b < sb_size (ksb s) ->
  can_read s (BBLOCK b (ksb s)).
Proof.
  intros O Hb. split; [apply (ao_bmul _ _ _ O); by eapply BBLOCK_bitmap; [apply O|]|].
  right. pose proof (ao_room _ _ _ O). lia.
Qed.

(** Reading blocks keeps it so. *)
Lemma alloc_ok_read me ws bs s s' : alloc_ok me bs s -> txstep me ws bs s (view s) bs s' -> alloc_ok me bs s'.
Proof.
  intros O S. destruct (txstep_same _ _ _ _ _ _ _ S) as (Esb & _).
  pose proof (ts_view _ _ _ _ _ _ _ S) as Hv. pose proof (ts_locked _ _ _ _ _ _ _ S) as Hl.
  assert (Hf : forall b, blk_free (ksb s) (view s') b = blk_free (ksb s) (view s) b) by (intros b; unfold blk_free; by rewrite Hv).
  split; rewrite ?Esb.
  - apply S.
  - destruct (ao_bm _ _ _ O) as [H1 H2 H3 H4]. split; [done|done| |].
    + intros x Hx. rewrite Hv. by apply H3.
    + intros b Hb. rewrite Hf. by apply H4.
  - intros x Hx. rewrite Hl. by apply O.
  - intros b Hb. rewrite Hf, Hl. by apply O.
  - pose proof (ts_nused _ _ _ _ _ _ _ S). pose proof (ao_room _ _ _ O). lia.
  - apply O.
Qed.

(** The blocks after [balloc] took [b]. *)
Definition allocated (sb : superblock) (b : Z) (v : Z -> list Z) : Z -> list Z :=
  upd b zeros (mark sb set_bit b v).

(** The result of a search for a free block from [lo] on. *)
Definition found (me : nat) (bs : list Z) (s : kstate) (lo : Z) (r : option Z) (s' : kstate) : Prop :=
  let sb := ksb s in
  let free := blk_free sb (view s) in
  match r with
  | Some b => lo <= b < sb_size sb /\ free b = true /\ (forall c, lo <= c < b -> free c = false) /\
      exists ws, (forall x, x ∈ ws -> is_bitmap sb x \/ x = b) /\
        txstep me ws bs s (allocated sb b (view s)) (logged b (logged (BBLOCK b sb) bs)) s'
  | None => (forall c, lo <= c < sb_size sb -> free c = false) /\
      exists ws, (forall x, x ∈ ws -> is_bitmap sb x) /\ txstep me ws bs s (view s) bs s'
  end.

Definition balloc_body (sb : superblock) (k : nat) : K (option Z) :=
  let b := Z.of_nat k * BPB in
  bp ← bread ROOTDEV (BBLOCK b sb);
  bd ← get_buf bp;
  match free_bit (Z.to_nat BPB) (b_data bd) 0 (Z.min BPB (sb_size sb - b)) with
  | Some bi =>
      set_data bp (set_bit (b_data bd) bi);;
      log_write bp;;
      brelse bp;;
      bzero ROOTDEV (b + bi);;
      ret (Some (b + bi))
  | None => brelse bp;; ret None
  end.

(** The blocks of one bitmap block. *)
Lemma BBLOCK_offset sb v k bi : bitmap_ok sb v -> let b0 := Z.of_nat k * BPB in
  0 <= bi < BPB -> b0 + bi < sb_size sb -> BBLOCK (b0 + bi) sb = BBLOCK b0 sb /\ (b0 + bi) mod BPB = bi.
Proof.
  intros [Hsz Hst _ _] b0 Hbi Hlt. unfold b0 in *. change BPB with 8192 in *.
  rewrite !BBLOCK_eq by lia. change BPB with 8192. split; dlia.
Qed.

(** A free block that the search has come to is taken. *)
Lemma balloc_take me bs s k i s1 bi : alloc_ok me bs s -> let b0 := Z.of_nat k * BPB in
  reading me bs s (BBLOCK b0 (ksb s)) i s1 -> 0 <= bi < BPB -> b0 + bi < sb_size (ksb s) ->
  bit_free (view s (BBLOCK b0 (ksb s))) bi = true ->
  (forall j, 0 <= j < bi -> bit_free (view s (BBLOCK b0 (ksb s))) j = false) ->
  wp (set_data i (set_bit (view s (BBLOCK b0 (ksb s))) bi);; log_write i;; brelse i;;
      bzero ROOTDEV (b0 + bi);; ret (Some (b0 + bi))) (found me bs s b0) s1.
Proof.
  intros O b0 R Hbi Hlt Hfree Hmin. set (sb := ksb s) in *.
  pose proof (ao_bm _ _ _ O) as B. fold sb in B.
  pose proof (ao_room _ _ _ O) as Hroom. pose proof (ao_log _ _ _ O) as Hlog.
  assert (Hb0 : 0 <= b0 < sb_size sb) by (unfold b0 in *; change BPB with 8192 in *; lia).
  destruct (BBLOCK_offset sb _ k bi B Hbi Hlt) as [EB Em]. fold b0 in EB, Em.
  assert (Hfr : blk_free sb (view s) (b0 + bi) = true) by (unfold blk_free; by rewrite EB, Em).
  pose proof (length_logged (BBLOCK b0 sb) bs) as Hlen.
  eapply tx_update_then; [apply O|exact R| |lia|].
  { apply (can_read_bitmap _ _ _ b0 O Hb0). }
  intros s4 U. apply wp_bind. eapply wp_mono; [apply (bzero_spec me (logged (BBLOCK b0 sb) bs)); [apply U| |lia]|].
  { split.
    - rewrite (ts_locked _ _ _ _ _ _ _ U). apply (ao_frul _ _ _ O); [fold sb; lia|done].
    - right. pose proof (ts_nused _ _ _ _ _ _ _ U). lia. }
  intros [] s5 Z. apply wp_ret. unfold found. fold sb. cbv zeta. split_and!; [lia|lia|done| |].
  - intros c Hc. replace c with (b0 + (c - b0)) by lia.
    destruct (BBLOCK_offset sb _ k (c - b0) B) as [E1 E2]; [lia|fold b0; lia|].
    fold b0 in E1, E2. unfold blk_free. rewrite E1, E2. apply Hmin. lia.
  - exists ([BBLOCK b0 sb] ++ [b0 + bi]). split.
    + intros x [->%list_elem_of_singleton| ->%list_elem_of_singleton]%elem_of_app; [left|by right].
      by eapply BBLOCK_bitmap.
    + rewrite EB. eapply txstep_view_ext; [eapply txstep_trans; [exact U|exact Z]|].
      intros x. unfold allocated, mark, upd. rewrite EB, Em. case_decide; [done|].
      by rewrite (ts_view _ _ _ _ _ _ _ U).
Qed.

(** One bitmap block. *)
Lemma balloc_body_spec me bs s k : alloc_ok me bs s -> let b0 := Z.of_nat k * BPB in
  b0 < sb_size (ksb s) ->
  wp (balloc_body (ksb s) k) (fun r s' => match r with
    | Some _ => found me bs s b0 r s'
    | None => (forall c, b0 <= c < sb_size (ksb s) -> c < b0 + BPB -> blk_free (ksb s) (view s) c = false) /\
              txstep me [BBLOCK b0 (ksb s)] bs s (view s) bs s'
    end) s.
Proof.
  intros O b0 Hk. pose proof (ao_bm _ _ _ O) as B.
  assert (Hb0 : 0 <= b0 < sb_size (ksb s)) by (unfold b0 in *; change BPB with 8192 in *; lia).
  pose proof (can_read_bitmap _ _ _ b0 O Hb0) as C.
  unfold balloc_body. cbv zeta. fold b0. apply wp_bind.
  eapply wp_mono; [apply tx_bread; [apply O|done]|]. intros i s1 R.
  apply wp_bind, wp_gets. rewrite (got_data _ _ _ _ _ (rd_got _ _ _ _ _ _ R)).
  pose proof (free_bit_spec (Z.to_nat BPB) (view s (BBLOCK b0 (ksb s))) (Z.min BPB (sb_size (ksb s) - b0)) 0
    ltac:(lia) ltac:(lia)) as Hfb.
  destruct (free_bit _ _ _ _) as [bi|].
  - destruct Hfb as (Hbi & Hfree & Hmin). eapply wp_mono; [apply (balloc_take me bs s k i s1 bi); try done; fold b0; lia|].
    intros [b|] s' F; [done|]. destruct F as [F _]. exfalso.
    destruct (BBLOCK_offset (ksb s) _ k bi B) as [E1 E2]; [lia|fold b0; lia|]. fold b0 in E1, E2.
    specialize (F (b0 + bi) ltac:(lia)). unfold blk_free in F. rewrite E1, E2 in F. congruence.
  - apply wp_bind. eapply wp_mono; [apply tx_done; [apply O|done|apply C]|]. intros [] s' S. apply wp_ret.
    split; [|done]. intros c Hc Hc'. replace c with (b0 + (c - b0)) by lia.
    destruct (BBLOCK_offset (ksb s) _ k (c - b0) B) as [E1 E2]; [lia|fold b0; lia|]. fold b0 in E1, E2.
    unfold blk_free. rewrite E1, E2. apply Hfb. lia.
Qed.

Lemma balloc_loop_spec me n : forall k bs s, alloc_ok me bs s ->
  (Z.of_nat k + Z.of_nat n) * BPB < sb_size (ksb s) + BPB -> sb_size (ksb s) <= (Z.of_nat k + Z.of_nat n) * BPB ->
  wp (mfind (seq k n) (balloc_body (ksb s))) (found me bs s (Z.of_nat k * BPB)) s.
Proof.
  induction n as [|n IH]; intros k bs s O H1 H2; cbn [seq mfind].
  { apply wp_ret. split; [lia|]. exists []. split; [by intros x ?%not_elem_of_nil|].
    split; try done; [apply O|]. exists (klog s). apply io_frame_refl. }
  change BPB with 8192 in *. apply wp_bind.
  eapply wp_mono; [apply balloc_body_spec; [done|change BPB with 8192; lia]|].
  change BPB with 8192. intros [b|] s1 F; [by apply wp_ret|]. destruct F as [Hno S1].
  destruct (txstep_same _ _ _ _ _ _ _ S1) as (Esb & _).
  assert (Hf : forall b, blk_free (ksb s) (view s1) b = blk_free (ksb s) (view s) b).
  { intros b. unfold blk_free. by rewrite (ts_view _ _ _ _ _ _ _ S1). }
  pose proof (IH (S k) bs s1 (alloc_ok_read _ _ _ _ _ O S1)) as W. rewrite Esb in W. change BPB with 8192 in W.
  eapply wp_mono; [apply W; lia|]. clear W.
  assert (Hbm : is_bitmap (ksb s) (BBLOCK (Z.of_nat k * 8192) (ksb s))).
  { eapply BBLOCK_bitmap; [apply O|lia]. }
  intros r s2 F. unfold found in *. rewrite Esb in F. cbv zeta in *. destruct r as [b|].
  - destruct F as (Hr & Hb & Hmin & ws & Hws & S2). rewrite Hf in Hb. split_and!; [lia|lia|done| |].
    + intros c Hc. destruct (decide (c < Z.of_nat (S k) * 8192)); [apply Hno; lia|].
      rewrite <-Hf. apply Hmin. lia.
    + eexists. split; [|eapply txstep_view_ext; [eapply txstep_trans; [exact S1|exact S2]|]].
      * intros x [->%list_elem_of_singleton|Hx]%elem_of_app; [by left|by apply Hws].
      * intros x. unfold allocated, mark, upd. by rewrite !(ts_view _ _ _ _ _ _ _ S1).
  - destruct F as (Hr & ws & Hws & S2). split.
    + intros c Hc. destruct (decide (c < Z.of_nat (S k) * 8192)); [apply Hno; lia|].
      rewrite <-Hf. apply Hr. lia.
    + eexists. split; [|eapply txstep_view_ext; [eapply txstep_trans; [exact S1|exact S2]|]].
      * intros x [->%list_elem_of_singleton|Hx]%elem_of_app; [done|by apply Hws].
      * intros x. by rewrite (ts_view _ _ _ _ _ _ _ S1).
Qed.

Lemma printk_plain l s : L_pr ∉ held s -> Forall (fun c => 0 <= c < 256 /\ c <> 37) l ->
  exists o, printk l [] s = Ok 0 (set_output o s).
Proof.
  intros Hp Hl. unfold printk, bind. rewrite acquire_eval by done.
  rewrite <-(app_nil_r l), printk_loop_plain by done. cbn [printk_loop]. unfold ret.
  erewrite release_eval by reflexivity. by eexists.
Qed.

Lemma txstep_output me ws bs s v bs' s' o : txstep me ws bs s v bs' s' ->
  txstep me ws bs s v bs' (set_output o s').
Proof.
  intros S. destruct (ts_tx _ _ _ _ _ _ _ S) as [Hi Hc Hl Ho Hk Hp Hv]. split; try apply S.
  - split; [|by eapply bio_ctx_frame|done..]. destruct Hi. split; done.
  - intros j x Hj Hx. destruct (ts_held _ _ _ _ _ _ _ S j x Hj Hx) as [L E]. split; [|done].
    eapply loaded_frame; [exact L|done..].
  - destruct (ts_frame _ _ _ _ _ _ _ S) as [l F]. exists l. eapply io_frame_trans; [exact F|apply output_io].
Qed.

Lemma balloc_spec me bs s : alloc_ok me bs s -> L_pr ∉ held s ->
  wp (balloc ROOTDEV) (fun r s' =>
    (exists b, r = b /\ found me bs s 0 (Some b) s') \/ r = 0 /\ found me bs s 0 None s') s.
Proof.
  intros O Hp. unfold balloc. apply wp_bind, wp_gets, wp_bind.
  set (n := Z.to_nat ((sb_size (ksb s) + BPB - 1) / BPB)).
  destruct (bm_size _ _ (ao_bm _ _ _ O)) as [Hs1 Hs2].
  change (fun k => let b := Z.of_nat k * BPB in _) with (balloc_body (ksb s)).
  assert (Hn : Z.of_nat n = (sb_size (ksb s) + BPB - 1) / BPB).
  { unfold n. rewrite Z2Nat.id; [done|]. change BPB with 8192. dlia. }
  eapply wp_mono; [apply balloc_loop_spec; [exact O|rewrite Hn; change BPB with 8192; dlia..]|].
  intros [b|] s1 F; [apply wp_ret; left; by exists b|].
  destruct F as (Hno & ws & Hws & S). destruct (txstep_same _ _ _ _ _ _ _ S) as (_ & _ & Hh & _).
  apply wp_bind. destruct (printk_plain (str "balloc: out of blocks" ++ [10]) s1) as [o Ho].
  - by rewrite Hh.
  - repeat constructor; cbn; lia.
  - eapply wp_intro; [exact Ho|]. apply wp_ret. right. split; [done|]. split; [done|].
    exists ws. split; [done|]. by apply txstep_output.
Qed.

(** The block allocator.  [balloc] returns the first block that the bitmap has free, or
    0 with nothing changed when there is none.  The block is zeroed and marked in use, the
    marks of all other blocks and the contents of every block outside the bitmap stay as they
    are, and both changed blocks are in the transaction. *)
Theorem balloc_first_free (me : nat) (bs : list Z) (s : kstate) :
  alloc_ok me bs s -> L_pr ∉ held s ->
  let sb := ksb s in
  let inside c := 0 <= c < sb_size sb in
  exists r s' bs', balloc ROOTDEV s = Ok r s' /\ tx me bs' s' /\ (forall b, b ∈ bs -> b ∈ bs') /\
    ((inside r /\ blk_free sb (view s) r = true /\ r ∈ bs' /\ BBLOCK r sb ∈ bs' /\ view s' r = zeros /\
      (forall c, 0 <= c < r -> blk_free sb (view s) c = false) /\
      (forall c, inside c -> blk_free sb (view s') c = if decide (c = r) then false else blk_free sb (view s) c) /\
      (forall x, x <> r -> ~ is_bitmap sb x -> view s' x = view s x)) \/
     (r = 0 /\ bs' = bs /\ (forall c, inside c -> blk_free sb (view s) c = false) /\
      forall x, view s' x = view s x)).
Proof.
  intros O Hp sb inside. destruct (wp_elim _ _ _ (balloc_spec me bs s O Hp)) as (r & s' & E & [(b & -> & F)|[-> F]]).
  - destruct F as (Hb & Hfree & Hmin & ws & Hws & S). fold sb in Hb, Hfree, Hmin, Hws, S.
    exists b, s', (logged b (logged (BBLOCK b sb) bs)). split; [done|]. split; [apply S|]. split; [apply S|].
    left. pose proof (ao_bm _ _ _ O) as B. fold sb in B.
    assert (Hin : forall x l, x ∈ logged x l /\ forall y, y ∈ l -> y ∈ logged x l).
    { intros x l. unfold logged. case_decide; set_solver. }
    assert (Hv : forall c, inside c -> blk_free sb (view s') c = blk_free sb (mark sb set_bit b (view s)) c).
    { intros c Hc. unfold blk_free. rewrite (ts_view _ _ _ _ _ _ _ S). unfold allocated, upd.
      rewrite decide_False; [done|]. intros Eb. apply (bm_self _ _ B b Hb Hfree). rewrite <-Eb.
      by eapply BBLOCK_bitmap. }
    split_and!; try done; try apply Hb.
    + apply (proj1 (Hin _ _)).
    + apply (proj2 (Hin _ _)), (proj1 (Hin _ _)).
    + rewrite (ts_view _ _ _ _ _ _ _ S). unfold allocated, upd. by rewrite decide_True.
    + intros c Hc. rewrite Hv by done. apply mark_free; try done. apply set_bit_free.
    + intros x Hx Hnb. rewrite (ts_view _ _ _ _ _ _ _ S). unfold allocated, mark, upd.
      rewrite !decide_False; [done| |done]. intros ->. apply Hnb. by eapply BBLOCK_bitmap.
  - destruct F as (Hno & ws & Hws & S). exists 0, s', bs. split; [done|]. split; [apply S|]. split; [done|].
    right. split_and!; [done|done|done|apply S].
Qed.

(** [bfree] of a block in use marks it free, leaves every other mark and every block
    outside the bitmap as they are, and logs the bitmap block; [bfree] of a free block panics. *)
Theorem bfree_correct (me : nat) (bs : list Z) (s : kstate) (b : Z) :
  alloc_ok me bs s -> let sb := ksb s in 0 <= b < sb_size sb ->
  (blk_free sb (view s) b = true -> bfree ROOTDEV b s = Panic "freeing free block") /\
  (blk_free sb (view s) b = false -> exists s' bs', bfree ROOTDEV b s = Ok tt s' /\ tx me bs' s' /\
     (forall x, x ∈ bs -> x ∈ bs') /\ BBLOCK b sb ∈ bs' /\
     (forall c, 0 <= c < sb_size sb ->
        blk_free sb (view s') c = if decide (c = b) then true else blk_free sb (view s) c) /\
     (forall x, ~ is_bitmap sb x -> view s' x = view s x)).
Proof.
  intros O sb Hb. pose proof (ao_bm _ _ _ O) as B. pose proof (can_read_bitmap _ _ _ b O Hb) as C. fold sb in C.
  pose proof (wp_elim _ _ _ (tx_bread me bs s _ (ao_tx _ _ _ O) C)) as (i & s1 & E1 & R).
  pose proof (got_data _ _ _ _ _ (rd_got _ _ _ _ _ _ R)) as Hd.
  assert (Hst : bfree ROOTDEV b s =
    (panic_if (blk_free sb (view s) b) "freeing free block";;
     set_data i (clear_bit (view s (BBLOCK b sb)) (b mod BPB));; log_write i;; brelse i) s1).
  { unfold bfree, bind at 1, get_sb, gets. fold sb. unfold bind at 1. rewrite E1.
    unfold bind at 1, get_buf, gets. rewrite Hd. done. }
  rewrite Hst. split; intros Hfr; rewrite Hfr; cbn [panic_if]; [done|].
  pose proof (ao_log _ _ _ O) as Hlog.
  destruct (wp_elim _ _ _ (tx_update me bs s _ i s1 (clear_bit (view s (BBLOCK b sb)) (b mod BPB))
    (ao_tx _ _ _ O) R (proj1 C) ltac:(lia))) as ([] & s' & E & S).
  exists s', (logged (BBLOCK b sb) bs). split; [exact E|]. split; [apply S|]. split; [apply S|].
  split; [unfold logged; case_decide; set_solver|]. split.
  - intros c Hc. transitivity (blk_free sb (mark sb clear_bit b (view s)) c).
    + unfold blk_free. by rewrite (ts_view _ _ _ _ _ _ _ S).
    + apply mark_free; try done. apply clear_bit_free.
  - intros x Hx. rewrite (ts_view _ _ _ _ _ _ _ S). unfold upd. rewrite decide_False; [done|].
    intros ->. apply Hx. by eapply BBLOCK_bitmap.
Qed.

(** ** An example: a file system of 2000 blocks whose first 47 are in use *)
Definition f_bitmap : list Z := replicate 5 255 ++ [127] ++ replicate 1018 0.
Definition f_disk : Z -> list Z := fun x => if x =? 46 then f_bitmap else replicate 1024 7.
Definition f_state : kstate :=
  set_klog (mklogstate 2 1 0 ROOTDEV 0 (mklogheader 0 (replicate 30 0))) (demo f_disk).

Lemma f_view x : view f_state x = f_disk x.
Proof.
  destruct (binit_inv (demo f_disk)) as (_ & H & _); [reflexivity|].
  change (set_bcache_lru (reverse (seq 0 NBUF)) (demo f_disk)) with (demo f_disk) in H. apply H.
Qed.
Lemma f_calm : bio_inv f_state /\ (forall x, locked f_state x = false) /\ nused f_state = 0%nat.
Proof.
  destruct (binit_inv (demo f_disk)) as (H1 & _ & _ & H2 & H3); [reflexivity|].
  change (set_bcache_lru (reverse (seq 0 NBUF)) (demo f_disk)) with (demo f_disk) in *.
  split; [by apply bio_inv_klog|]. done.
Qed.

Lemma f_is_bitmap x : is_bitmap (ksb f_state) x <-> x = 46.
Proof. unfold is_bitmap. change (sb_bmapstart (ksb f_state)) with 46.
  change ((sb_size (ksb f_state) - 1) / BPB) with 0. lia. Qed.

Lemma f_alloc_ok : alloc_ok 0 [] f_state.
Proof.
  destruct f_calm as (Hi & Hl & Hn). split.
  - split.
    + exact Hi.
    + eapply bio_ctx_frame; [apply (demo_ctx f_disk)|done..].
    + split; [done|]. split; [done|]. by exists (replicate 30 0).
    + done.
    + apply not_elem_of_nil.
    + by intros b ?%not_elem_of_nil.
    + intros b _. apply f_view.
  - split; [cbn; lia|cbn; lia| |].
    + intros x ->%f_is_bitmap. by rewrite f_view.
    + intros b Hb Hf ->%f_is_bitmap. unfold blk_free in Hf. rewrite f_view in Hf. by vm_compute in Hf.
  - intros x _. apply Hl.
  - intros b _ _. apply Hl.
  - rewrite Hn. unfold NBUF. lia.
  - cbn. lia.
Qed.

Lemma balloc_first_free_witness : exists s', balloc ROOTDEV f_state = Ok 47 s' /\ view s' 47 = zeros.
Proof.
  destruct (balloc_first_free 0 [] f_state) as (r & s' & bs' & E & _ & _ & H).
  - apply f_alloc_ok.
  - apply not_elem_of_nil.
  - assert (Hr : match balloc ROOTDEV f_state with Ok x _ => x | _ => 0 end = 47) by (vm_compute; reflexivity).
    rewrite E in Hr. subst r. exists s'. split; [exact E|].
    destruct H as [(_ & _ & _ & _ & H & _)|(H & _)]; [exact H|discriminate H].
Defined.

Lemma bfree_correct_witness : bfree ROOTDEV 47 f_state = Panic "freeing free block" /\
  exists s', bfree ROOTDEV 46 f_state = Ok tt s' /\ blk_free (ksb f_state) (view s') 46 = true.
Proof.
  split.
  - apply (bfree_correct 0 [] f_state 47).
    + apply f_alloc_ok.
    + cbn. lia.
    + vm_compute. reflexivity.
  - destruct (bfree_correct 0 [] f_state 46) as [_ H].
    + apply f_alloc_ok.
    + cbn. lia.
    + destruct H as (s' & bs' & E & _ & _ & _ & H & _); [vm_compute; reflexivity|].
      exists s'. split; [exact E|]. rewrite H by (cbn; lia). reflexivity.
Defined.
