(* ===== verification/Fsinode.v ===== *)
(** * On-disk inodes and the inode table (the theory of kernel/fs.c: ilock, iupdate, iget) *)

From S2P Require Import Prelude Spinlock State Printk Kstring Kalloc Vm Sync Bio Log Fs Fsblk.

(** ** The layout of an on-disk inode *)
Lemma get_le_splice o k n bs d : (o + length bs <= length d)%nat -> (k + n <= length bs)%nat ->
  get_le (o + k) n (splice o bs d) = get_le k n bs.
Proof.
  intros Hl Hk. unfold get_le. f_equal. apply list_eq. intros i.
  destruct (decide (i < n)%nat); [|by rewrite !lookup_take_ge by lia].
  rewrite !lookup_take_lt, !lookup_drop by lia. rewrite lookup_splice_in by lia. f_equal. lia.
Qed.

Lemma get_le_splice_ne o bs d o' n : (o + length bs <= length d)%nat ->
  (o' + n <= o \/ o + length bs <= o')%nat -> get_le o' n (splice o bs d) = get_le o' n d.
Proof. intros Hl Hd. unfold get_le. f_equal. by apply slice_splice_ne. Qed.

(** Reading a field past [l1], and the first field. *)
Lemma get_le_skip n k l1 l2 : (length l1 <= k)%nat -> get_le k n (l1 ++ l2) = get_le (k - length l1) n l2.
Proof. intros H. unfold get_le. by rewrite drop_app_ge. Qed.
Lemma get_le_head n v l : get_le 0 n (le_bytes n v ++ l) = v mod 256 ^ Z.of_nat n.
Proof.
  unfold get_le. rewrite drop_0, <-(length_le_bytes n v) at 1. rewrite take_app_length. apply le_val_bytes.
Qed.

Lemma get_le_words l k v : l !! k = Some v -> get_le (4 * k) 4 (concat (map (le_bytes 4) l)) = v mod 2 ^ 32.
Proof.
  revert k. induction l as [|x l IH]; intros [|k] H; try done.
  - injection H as ->. apply get_le_head.
  - cbn [map concat]. rewrite get_le_skip by (rewrite length_le_bytes; lia). rewrite length_le_bytes.
    replace (4 * S k - 4)%nat with (4 * k)%nat by lia. by apply IH.
Qed.

Lemma length_words l : length (concat (map (le_bytes 4) l)) = (4 * length l)%nat.
Proof. induction l as [|x l IH]; [done|]. cbn [map concat]. rewrite length_app, length_le_bytes, IH. cbn [length]. lia. Qed.

(** An inode whose fields fit the types of [struct dinode]. *)
Definition short_ok (z : Z) : Prop := - 2 ^ 15 <= z < 2 ^ 15.
Record dinode_ok (x : dinode) : Prop := {
  dk_type : short_ok (di_type x); dk_major : short_ok (di_major x); dk_minor : short_ok (di_minor x);
  dk_nlink : short_ok (di_nlink x); dk_size : 0 <= di_size x < 2 ^ 32;
  dk_len : length (di_addrs x) = 13%nat;
  dk_addrs : Forall (fun a => 0 <= a < 2 ^ 32) (di_addrs x) }.

Lemma s16_mod z : short_ok z -> s16 (z mod 2 ^ 16) = z.
Proof. unfold short_ok, s16. intros. dlia. Qed.

Lemma length_dinode_bytes x : length (di_addrs x) = 13%nat -> length (dinode_bytes x) = 64%nat.
Proof. intros H. unfold dinode_bytes. rewrite !length_app, !length_le_bytes, length_words, H. done. Qed.

(** The inode read back where it was written, and one read elsewhere. *)
Lemma get_put_dinode o x d : (o + 64 <= length d)%nat -> dinode_ok x ->
  get_dinode o (put_dinode o x d) = x.
Proof.
  intros Hl [H1 H2 H3 H4 H5 H6 H7]. pose proof (length_dinode_bytes x H6) as Hb. unfold get_dinode, put_dinode.
  rewrite <-(Nat.add_0_r o) at 1. rewrite !get_le_splice by lia. unfold dinode_bytes at 1 2 3 4 5.
  rewrite get_le_head. do 1 (rewrite get_le_skip by (rewrite !length_le_bytes; lia)).
  rewrite length_le_bytes, get_le_head.
  do 2 (rewrite get_le_skip by (rewrite !length_le_bytes; lia)). rewrite !length_le_bytes, get_le_head.
  do 3 (rewrite get_le_skip by (rewrite !length_le_bytes; lia)). rewrite !length_le_bytes, get_le_head.
  do 4 (rewrite get_le_skip by (rewrite !length_le_bytes; lia)). rewrite !length_le_bytes, get_le_head.
  change (256 ^ Z.of_nat 2) with (2 ^ 16). change (256 ^ Z.of_nat 4) with (2 ^ 32).
  rewrite !s16_mod by done. rewrite Z.mod_small by done.
  assert (map (fun k => get_le (o + 12 + 4 * k) 4 (splice o (dinode_bytes x) d)) (seq 0 13) = di_addrs x) as ->.
  { apply list_eq. intros k. rewrite list_lookup_fmap. destruct (decide (k < 13)%nat) as [Hk|Hk].
    - rewrite lookup_seq_lt by done. cbn [fmap option_fmap option_map Nat.add].
      destruct (lookup_lt_is_Some_2 (di_addrs x) k) as [v Hv]; [lia|]. rewrite Hv. f_equal.
      rewrite <-Nat.add_assoc, get_le_splice by lia. unfold dinode_bytes.
      do 5 (rewrite get_le_skip by (rewrite !length_le_bytes; lia)). rewrite !length_le_bytes.
      replace (12 + 4 * k - 2 - 2 - 2 - 2 - 4)%nat with (4 * k)%nat by lia.
      rewrite (get_le_words _ _ _ Hv). apply Z.mod_small. rewrite Forall_lookup in H7. by eapply H7.
    - rewrite lookup_seq_ge, lookup_ge_None_2 by lia. done. }
  by destruct x.
Qed.

Lemma get_put_dinode_ne o o' x d : (o + 64 <= length d)%nat -> length (di_addrs x) = 13%nat ->
  (o' + 64 <= o \/ o + 64 <= o')%nat -> get_dinode o' (put_dinode o x d) = get_dinode o' d.
Proof.
  intros Hl Hx Hd. pose proof (length_dinode_bytes x Hx) as Hb. unfold get_dinode, put_dinode.
  rewrite !get_le_splice_ne by lia. f_equal. apply map_ext_in. intros k [_ Hk]%in_seq.
  apply get_le_splice_ne; lia.
Qed.

(** ** Inode blocks *)
Definition inode_on (sb : superblock) (v : Z -> list Z) (inum : Z) : dinode :=
  get_dinode (di_off inum) (v (IBLOCK inum sb)).
Definition inum_ok (sb : superblock) (inum : Z) : Prop :=
  0 <= inum < 2 ^ 31 /\ 0 <= sb_inodestart sb < 2 ^ 31.

Lemma IBLOCK_eq sb inum : inum_ok sb inum -> IBLOCK inum sb = inum / 16 + sb_inodestart sb.
Proof. intros [? ?]. unfold IBLOCK. change IPB with 16. rewrite u32_small; dlia. Qed.
Lemma di_off_eq inum : 0 <= inum -> di_off inum = Z.to_nat (inum mod 16 * 64) /\ (di_off inum + 64 <= 1024)%nat.
Proof. intros. unfold di_off. change IPB with 16. change DINODE_SIZE with 64. split; [done|]. dlia. Qed.

(** An update of one inode, seen from all of them. *)
Lemma inode_on_upd sb v inum inum' x :
  inum_ok sb inum -> inum_ok sb inum' -> dinode_ok x -> length (v (IBLOCK inum sb)) = Z.to_nat BSIZE ->
  inode_on sb (upd (IBLOCK inum sb) (put_dinode (di_off inum) x (v (IBLOCK inum sb))) v) inum' =
    if decide (inum' = inum) then x else inode_on sb v inum'.
Proof.
  intros Hi Hi' Hx Hl. change (Z.to_nat BSIZE) with 1024%nat in Hl. unfold inode_on, upd.
  destruct (di_off_eq inum) as [E1 L1]; [apply Hi|]. destruct (di_off_eq inum') as [E2 L2]; [apply Hi'|].
  case_decide as E.
  - case_decide as En; [subst; apply get_put_dinode; [lia|done]|].
    rewrite E. apply get_put_dinode_ne; [lia|apply Hx|].
    rewrite !IBLOCK_eq in E by done. destruct Hi as [? _], Hi' as [? _].
    rewrite E1, E2. assert (inum mod 16 <> inum' mod 16) by dlia. dlia.
  - by rewrite decide_False by (intros ->; done).
Qed.


Lemma iupdate_spec me bs s ip : let x := itable s !!! ip in let blk := IBLOCK (i_inum x) (ksb s) in
  tx me bs s -> i_dev x = ROOTDEV -> can_read s blk -> (length bs < 30)%nat ->
  wp (iupdate ip) (fun _ s' => txstep me [blk] bs s
    (upd blk (put_dinode (di_off (i_inum x)) (dinode_of x) (view s blk)) (view s)) (logged blk bs) s') s.
Proof.
  intros x blk T Hd C Hn. unfold iupdate. apply wp_bind, wp_gets, wp_bind, wp_gets. fold x blk. rewrite Hd.
  apply wp_bind. eapply wp_mono; [by apply tx_bread|]. intros i s1 R. apply wp_bind, wp_gets.
  rewrite (got_data _ _ _ _ _ (rd_got _ _ _ _ _ _ R)). apply tx_update; [done|done|apply C|done].
Qed.

(** A transaction does not depend on the inode table. *)
Lemma tx_itable me bs t s : tx me bs s -> tx me bs (set_itable t s).
Proof.
  intros [Hi Hc Hl Ho Hk Hp Hv]. split; [|by eapply bio_ctx_frame|done..]. destruct Hi. split; done.
Qed.

Record free_inode (s : kstate) (ip : nat) : Prop := {
  fi_lt : (ip < length (itable s))%nat;
  fi_ref : 1 <= i_ref (itable s !!! ip);
  fi_lock : sl_locked (i_lock (itable s !!! ip)) = 0;
  fi_held : L_inodesl ip ∉ held s }.

Lemma set_inode_lookup s ip f : (ip < length (itable s))%nat ->
  set_inode ip f s = Ok tt (set_itable (alter f ip (itable s)) s) /\
  alter f ip (itable s) !!! ip = f (itable s !!! ip) /\ length (alter f ip (itable s)) = length (itable s).
Proof.
  intros Hi. split; [done|]. by rewrite list_lookup_total_alter_eq, length_alter by done.
Qed.

(** What [ilock] leaves of an entry [x] of the table, when [y] is the inode on the disk. *)
Definition ilocked (me : sleeplock) (x : inode) (y : dinode) : inode :=
  {| (load_dinode y {| x with i_lock := me |}) with i_valid := 1 |}.

(** [ilock] of an entry that is not loaded. *)
Lemma ilock_loads me bs s ip : let x := itable s !!! ip in let blk := IBLOCK (i_inum x) (ksb s) in
  let y := get_dinode (di_off (i_inum x)) (view s blk) in
  tx me bs s -> free_inode s ip -> i_dev x = ROOTDEV -> i_valid x = 0 -> can_read s blk -> di_type y <> 0 ->
  exists s', ilock (Some ip) s = Ok tt s' /\ tx me bs s' /\ (forall b, view s' b = view s b) /\
    itable s' = <[ip := ilocked (mine me s) x y]> (itable s).
Proof.
  intros x blk y T [Hlt Href Hul Hh] Hd Hv C Hty.
  set (s0 := sl_set (SL_inode ip) (mine me s) s).
  assert (Hacq : acquiresleep (SL_inode ip) s = Ok tt s0).
  { apply (acquiresleep_eval (SL_inode ip) s me); [apply T|done..]. }
  assert (T0 : tx me bs s0) by (by apply tx_itable).
  assert (Hx0 : itable s0 !!! ip = {| x with i_lock := mine me s |}) by (cbn; by rewrite list_lookup_total_alter_eq).
  destruct (wp_elim _ _ _ (tx_bread me bs s0 blk T0 C)) as (i & s1 & E1 & R1).
  pose proof (rd_got _ _ _ _ _ _ R1) as G. pose proof (got_frame _ _ _ _ _ G) as F1.
  set (t1 := alter (load_dinode y) ip (itable s0)).
  assert (R2 : reading me bs (set_itable t1 s0) blk i (set_itable t1 s1)).
  { split; [|by apply tx_itable, R1]. destruct G as [Hinv Hctx HL H4 H5 H6 H7 H8 H9 H10 H11] eqn:EG. split; try done.
    - by apply (tx_inv me bs), tx_itable, R1.
    - by eapply bio_ctx_frame.
    - by eapply loaded_frame.
    - by rewrite F1.
    - intros j z Hj. apply (got_fresh _ _ _ _ _ G j z). by eapply loaded_frame. }
  destruct (wp_elim _ _ _ (tx_done me bs (set_itable t1 s0) blk i (set_itable t1 s1)
    (tx_itable _ _ _ _ T0) R2 (proj1 C))) as ([] & s2 & E2 & S2).
  destruct (txstep_same _ _ _ _ _ _ _ S2) as (_ & Hit & _). cbn [itable set_itable] in Hit.
  set (t3 := alter (fun x => {| x with i_valid := 1 |}) ip t1).
  assert (Ht : t3 = <[ip := ilocked (mine me s) x y]> (itable s)).
  { unfold t3, t1, s0. cbn [sl_set itable set_itable].
    rewrite !list_alter_alter_eq. apply list_eq. intros j. destruct (decide (ip = j)) as [<-|Hne].
    - rewrite list_lookup_alter_eq, list_lookup_insert_eq by done.
      rewrite list_lookup_lookup_total_lt by done. done.
    - by rewrite list_lookup_alter_ne, list_lookup_insert_ne by done. }
  exists (set_itable t3 s2). split; [|split; [by apply tx_itable, S2|split]].
  - unfold ilock, bind at 1, get_inode at 1, gets at 1. fold x.
    destruct (Z.ltb_spec (i_ref x) 1) as [|_]; [unfold x in *; lia|].
    unfold bind at 1, panic_if, ret at 1. unfold bind at 1. rewrite Hacq.
    unfold bind at 1, get_inode at 1, gets at 1. rewrite Hx0. cbn [i_valid i_dev i_inum].
    rewrite Hv, Hd. cbn [when Z.eqb]. unfold bind at 1, get_sb, gets at 1. unfold bind at 1.
    change (ksb s0) with (ksb s). fold blk. rewrite E1.
    unfold bind at 1, get_buf, gets at 1. rewrite (got_data _ _ _ _ _ G). change (view s0 blk) with (view s blk).
    fold y. unfold bind at 1, set_inode at 1, modify at 1.
    assert (itable s1 = itable s0) as -> by (by rewrite F1). fold t1. unfold bind at 1. rewrite E2.
    unfold bind at 1, set_inode at 1, modify at 1. rewrite Hit. fold t3.
    unfold bind at 1, get_inode, gets at 1. cbn [itable set_itable]. rewrite Ht.
    rewrite list_lookup_total_insert, decide_True by done.
    change (i_type (ilocked (mine me s) x y)) with (di_type y). unfold panic_if.
    by rewrite (proj2 (Z.eqb_neq _ _) Hty).
  - intros b. change (view (set_itable t3 s2) b) with (view s2 b).
    rewrite (ts_view _ _ _ _ _ _ _ S2). done.
  - exact Ht.
Qed.

(** C11: inodes survive the round trip to the disk.  [iupdate] of an in-memory inode changes
    that inode on the disk and no other inode and no other block; and a later [ilock] of an
    empty entry of the table for the same inode, in any state whose transaction still sees
    that inode block, loads exactly the fields that were written and locks the entry. *)
Theorem inode_update_load (me : nat) (bs : list Z) (s : kstate) (ip : nat) :
  let x := itable s !!! ip in let sb := ksb s in let blk := IBLOCK (i_inum x) sb in
  tx me bs s -> i_dev x = ROOTDEV -> can_read s blk -> (length bs < 30)%nat ->
  inum_ok sb (i_inum x) -> dinode_ok (dinode_of x) -> i_type x <> 0 ->
  length (view s blk) = Z.to_nat BSIZE ->
  exists s', iupdate ip s = Ok tt s' /\ tx me (logged blk bs) s' /\ itable s' = itable s /\
    (forall b, b <> blk -> view s' b = view s b) /\
    (forall inum, inum_ok sb inum -> inode_on sb (view s') inum =
       if decide (inum = i_inum x) then dinode_of x else inode_on sb (view s) inum) /\
    forall me' bs1 s1 jp, let y := itable s1 !!! jp in
      tx me' bs1 s1 -> ksb s1 = sb -> view s1 blk = view s' blk -> can_read s1 blk ->
      free_inode s1 jp -> i_dev y = ROOTDEV -> i_inum y = i_inum x -> i_valid y = 0 ->
      exists s2, ilock (Some jp) s1 = Ok tt s2 /\ (forall b, view s2 b = view s1 b) /\
        dinode_of (itable s2 !!! jp) = dinode_of x /\ i_valid (itable s2 !!! jp) = 1 /\
        i_lock (itable s2 !!! jp) = mine me' s1.
Proof.
  intros x sb blk T Hd C Hn Hin Hok Hty Hl.
  destruct (wp_elim _ _ _ (iupdate_spec me bs s ip T Hd C Hn)) as ([] & s' & E & S). fold x sb blk in S.
  assert (Hinode : forall inum, inum_ok sb inum -> inode_on sb (view s') inum =
       if decide (inum = i_inum x) then dinode_of x else inode_on sb (view s) inum).
  { intros inum Hi. rewrite <-inode_on_upd by done. unfold inode_on. by rewrite (ts_view _ _ _ _ _ _ _ S). }
  exists s'. split; [done|]. split; [apply S|].
  split; [by destruct (txstep_same _ _ _ _ _ _ _ S) as (_ & -> & _)|]. split; [|split; [done|]].
  { intros b Hb. rewrite (ts_view _ _ _ _ _ _ _ S). unfold upd. by rewrite decide_False. }
  intros me' bs1 s1 jp y T1 Esb Hv C1 Hf Hdy Hiy Hvy.
  specialize (Hinode _ Hin). rewrite decide_True in Hinode by done.
  assert (Hy : get_dinode (di_off (i_inum y)) (view s1 (IBLOCK (i_inum y) (ksb s1))) = dinode_of x).
  { rewrite Hiy, Esb. fold blk. rewrite Hv. exact Hinode. }
  destruct (ilock_loads me' bs1 s1 jp T1 Hf Hdy Hvy) as (s2 & E2 & T2 & V2 & I2).
  { fold y. rewrite Hiy, Esb. exact C1. }
  { fold y. rewrite Hy. exact Hty. }
  exists s2. fold y in I2. rewrite Hy in I2. rewrite I2, list_lookup_total_insert, decide_True by (split; [done|apply Hf]).
  done.
Qed.

(** ** An example: inode 5 of the file system of [Fsblk.f_state] *)
Definition f_inode (valid : Z) : inode :=
  {| i_dev := ROOTDEV; i_inum := 5; i_ref := 1; i_lock := {| sl_locked := 0; sl_pid := 0 |};
     i_valid := valid; i_type := T_FILE; i_major := 0; i_minor := 0; i_nlink := 1; i_size := 3000;
     i_addrs := [100; 101; 102] ++ replicate 10 0 |}.
Definition f_open (valid : Z) : kstate := set_itable (<[0%nat := f_inode valid]> (itable f_state)) f_state.

Lemma f_open_read valid b : can_read (f_open valid) b.
Proof.
  destruct f_calm as (_ & Hl & Hn). split; [exact (Hl b)|]. right. change (nused (f_open valid)) with (nused f_state).
  rewrite Hn. unfold NBUF. lia.
Qed.

Lemma f_inode_ok valid : dinode_ok (dinode_of (f_inode valid)).
Proof.
  split; unfold short_ok; cbn [dinode_of f_inode di_type di_major di_minor di_nlink di_size di_addrs
    i_type i_major i_minor i_nlink i_size i_addrs]; unfold T_FILE; [lia..|reflexivity|].
  cbn [app replicate]. repeat (apply Forall_cons; split; [lia|]). by apply Forall_nil.
Qed.

Lemma inode_update_load_witness :
  exists s', iupdate 0 (f_open 1) = Ok tt s' /\ inode_on (ksb s') (view s') 5 = dinode_of (f_inode 1).
Proof.
  pose proof (inode_update_load 0 [] (f_open 1) 0) as P. cbv zeta in P.
  destruct P as (s' & E & _ & _ & _ & H & _).
  - apply tx_itable, f_alloc_ok.
  - reflexivity.
  - apply f_open_read.
  - cbn. lia.
  - split; cbn; lia.
  - apply f_inode_ok.
  - discriminate.
  - assert (Hv : view (f_open 1) (IBLOCK 5 (ksb f_state)) = f_disk (IBLOCK 5 (ksb f_state))) by apply f_view.
    change (IBLOCK (i_inum (itable (f_open 1) !!! 0%nat)) (ksb (f_open 1))) with (IBLOCK 5 (ksb f_state)).
    rewrite Hv. reflexivity.
  - exists s'. split; [exact E|]. specialize (H 5 ltac:(split; cbn; lia)). rewrite decide_True in H by reflexivity.
    assert (Hsb : ksb s' = ksb (f_open 1)); [|rewrite Hsb; exact H].
    apply (f_equal (fun r => match r with Ok _ t => ksb t | _ => ksb f_state end)) in E.
    cbv beta iota in E. rewrite <-E. vm_compute. reflexivity.
Defined.
