(* ===== verification/Fsfile.v ===== *)
(** * The contents of files: block maps, reading and writing (the theory of kernel/fs.c) *)

From S2P Require Import Prelude Spinlock State Printk Kstring Kalloc Vm Sync Bio Log Fs Fsblk Fsinode.

(** ** The blocks of a file

    [blkmap v x bn] is the disk block that holds block [bn] of the file with inode [x], or 0,
    when the disk blocks hold [v]. *)
Definition ind_blk (x : inode) : Z := addr_at x 12.
Definition blkmap (v : Z -> list Z) (x : inode) (bn : Z) : Z :=
  if bn <? 12 then addr_at x (Z.to_nat bn)
  else if ind_blk x =? 0 then 0 else ind_at (v (ind_blk x)) (Z.to_nat (bn - 12)).
Definition in_file (bn : Z) : Prop := 0 <= bn < 268.

Definition owns (v : Z -> list Z) (x : inode) (b : Z) : Prop :=
  b <> 0 /\ (b = ind_blk x \/ exists bn, in_file bn /\ blkmap v x bn = b).

(** The byte of the file at [k]; a block that is not there reads as zeros. *)
Definition fbyte (v : Z -> list Z) (x : inode) (k : Z) : Z :=
  let b := blkmap v x (k / BSIZE) in
  if b =? 0 then 0 else nth (Z.to_nat (k mod BSIZE)) (v b) 0.

(** A block that a file may own: in use, whole, and not one of the file system's own. *)
Definition data_blk (sb : superblock) (v : Z -> list Z) (iblk b : Z) : Prop :=
  0 < b < sb_size sb /\ blk_free sb v b = false /\ ~ is_bitmap sb b /\ b <> iblk /\
  length (v b) = Z.to_nat BSIZE.

Record file_ok (sb : superblock) (v : Z -> list Z) (iblk : Z) (x : inode) : Prop := {
  fo_len : length (i_addrs x) = 13%nat;
  fo_range : Forall (fun a => 0 <= a < 2 ^ 32) (i_addrs x);
  fo_used : forall b, owns v x b -> data_blk sb v iblk b;
  fo_inj : forall bn bn', in_file bn -> in_file bn' -> blkmap v x bn <> 0 -> blkmap v x bn = blkmap v x bn' -> bn = bn';
  fo_ind : forall bn, in_file bn -> blkmap v x bn <> 0 -> blkmap v x bn <> ind_blk x }.

(** The metadata around it: the bitmap is intact, and neither block 0 nor the inode block is
    free. *)
Record meta_ok (sb : superblock) (v : Z -> list Z) (iblk : Z) : Prop := {
  mo_bm : bitmap_ok sb v;
  mo_zero : blk_free sb v 0 = false;
  mo_iblk : 0 <= iblk < sb_size sb /\ blk_free sb v iblk = false /\ ~ is_bitmap sb iblk }.

(** ** Taking a free block *)
Section Alloc.
Context (sb : superblock) (v : Z -> list Z) (iblk r : Z).
Hypothesis (Hm : meta_ok sb v iblk) (Hr : 0 <= r < sb_size sb) (Hfree : blk_free sb v r = true).

Lemma alloc_pos : r <> 0 /\ r <> iblk /\ ~ is_bitmap sb r.
Proof.
  split; [intros ->; rewrite (mo_zero _ _ _ Hm) in Hfree; done|]. split.
  - intros ->. destruct (mo_iblk _ _ _ Hm) as (_ & H & _). congruence.
  - by apply (bm_self _ _ (mo_bm _ _ _ Hm)).
Qed.

Lemma allocated_free c : 0 <= c < sb_size sb ->
  blk_free sb (allocated sb r v) c = if decide (c = r) then false else blk_free sb v c.
Proof.
  intros Hc. pose proof (mo_bm _ _ _ Hm) as B. rewrite <-(mark_free sb v set_bit false r c); try done; [|apply set_bit_free].
  unfold blk_free, allocated, upd. rewrite decide_False; [done|].
  intros E. apply (proj2 (proj2 alloc_pos)). rewrite <-E. by eapply BBLOCK_bitmap.
Qed.

Lemma allocated_other b : b <> r -> ~ is_bitmap sb b -> allocated sb r v b = v b.
Proof.
  intros Hb Hn. unfold allocated, mark, upd. rewrite !decide_False; [done| |done].
  intros ->. apply Hn. eapply BBLOCK_bitmap; [apply Hm|done].
Qed.
Lemma allocated_new : allocated sb r v r = zeros.
Proof. unfold allocated, upd. by rewrite decide_True. Qed.

Lemma allocated_meta : meta_ok sb (allocated sb r v) iblk.
Proof.
  pose proof (mo_bm _ _ _ Hm) as B. destruct (mo_iblk _ _ _ Hm) as (I1 & I2 & I3). destruct alloc_pos as (P1 & P2 & P3).
  split.
  - split; [apply B|apply B| |].
    + intros x Hx. unfold allocated, mark, upd. rewrite decide_False by (intros ->; done). case_decide as E.
      * subst x. unfold set_bit. rewrite length_insert. by apply (bm_len _ _ B).
      * by apply (bm_len _ _ B).
    + intros b Hb. rewrite allocated_free by done. case_decide; [done|]. by apply (bm_self _ _ B).
  - rewrite allocated_free by (destruct (bm_size _ _ B); lia). rewrite decide_False by congruence. apply Hm.
  - split; [done|]. split; [|done]. rewrite allocated_free by done. by rewrite decide_False by congruence.
Qed.

(** Blocks in use stay as they are. *)
Lemma allocated_data b : data_blk sb v iblk b -> allocated sb r v b = v b /\ b <> r /\ data_blk sb (allocated sb r v) iblk b.
Proof.
  intros (H1 & H2 & H3 & H4 & H5). assert (b <> r) by (intros ->; congruence).
  assert (E : allocated sb r v b = v b) by (by apply allocated_other). split; [done|]. split; [done|].
  split; [done|]. rewrite allocated_free, decide_False by (done || lia). by rewrite E.
Qed.
Lemma allocated_mine : data_blk sb (allocated sb r v) iblk r.
Proof.
  destruct alloc_pos as (P1 & P2 & P3). split; [lia|]. rewrite allocated_free, decide_True by done.
  split; [done|]. split; [done|]. split; [done|]. by rewrite allocated_new.
Qed.
End Alloc.

(** ** Adding a block to a file *)
Lemma owns_blkmap v x bn : in_file bn -> blkmap v x bn <> 0 -> owns v x (blkmap v x bn).
Proof. intros Hb Hn. split; [done|]. right. by exists bn. Qed.
Lemma owns_ind v x : ind_blk x <> 0 -> owns v x (ind_blk x).
Proof. intros Hn. split; [done|]. by left. Qed.

Lemma nth_zeros k : nth k zeros 0 = 0.
Proof.
  unfold zeros. rewrite nth_lookup. destruct (replicate (Z.to_nat BSIZE) 0 !! k) eqn:E; [|done].
  by apply lookup_replicate in E as [-> _].
Qed.
Lemma ind_at_zeros k : ind_at zeros k = 0.
Proof.
  unfold ind_at, get_le, zeros. rewrite drop_replicate, take_replicate.
  generalize (4 `min` (Z.to_nat BSIZE - 4 * k))%nat. intros n. induction n as [|n IH]; [done|]. cbn [replicate le_val]. rewrite IH. done.
Qed.

(** The file with [r] as its block [bn]. *)
Record added (v : Z -> list Z) (x : inode) (bn r : Z) (v' : Z -> list Z) (x' : inode) : Prop := {
  ad_map : forall c, in_file c -> blkmap v' x' c = if decide (c = bn) then r else blkmap v x c;
  ad_ind : ind_blk x' = ind_blk x;
  ad_data : forall b, owns v x b -> b <> ind_blk x -> v' b = v b;
  ad_new : v' r = zeros }.

Section Grow.
Context (sb : superblock) (v v' : Z -> list Z) (iblk : Z) (x x' : inode) (bn r : Z).
Hypothesis (F : file_ok sb v iblk x) (A : added v x bn r v' x') (Hbn : in_file bn) (H0 : blkmap v x bn = 0).
Hypothesis (Hr : data_blk sb v' iblk r) (Hnew : ~ owns v x r).
Hypothesis (Hold : forall b, owns v x b -> data_blk sb v' iblk b).
Hypothesis (Hlen : length (i_addrs x') = 13%nat) (Hrg : Forall (fun a => 0 <= a < 2 ^ 32) (i_addrs x')).

Lemma added_not_ind : r <> ind_blk x.
Proof. intros E. apply Hnew. split; [destruct Hr; lia|]. by left. Qed.
Lemma added_not_map c : in_file c -> blkmap v x c <> r.
Proof. intros Hc E. apply Hnew. split; [destruct Hr; lia|]. right. by exists c. Qed.

Lemma added_ok : file_ok sb v' iblk x'.
Proof.
  assert (Hr0 : r <> 0) by (destruct Hr; lia). split; [done|done| | |].
  - intros b [Hb [->|(c & Hc & <-)]].
    + rewrite (ad_ind _ _ _ _ _ _ A) in *. apply Hold. split; [done|by left].
    + rewrite (ad_map _ _ _ _ _ _ A) in * by done. case_decide; [done|]. apply Hold. by apply owns_blkmap.
  - intros c c' Hc Hc'. rewrite !(ad_map _ _ _ _ _ _ A) by done. repeat case_decide; subst; try congruence.
    + intros _ E. by destruct (added_not_map c' Hc').
    + intros _ E. by destruct (added_not_map c Hc).
    + by apply F.
  - intros c Hc. rewrite (ad_map _ _ _ _ _ _ A), (ad_ind _ _ _ _ _ _ A) by done. case_decide.
    + intros _. apply added_not_ind.
    + by apply F.
Qed.

(** It reads as it did. *)
Lemma added_bytes k : 0 <= k < 268 * BSIZE -> fbyte v' x' k = fbyte v x k.
Proof.
  intros Hk. assert (Hc : in_file (k / BSIZE)) by (unfold in_file; change BSIZE with 1024 in *; dlia).
  unfold fbyte. rewrite (ad_map _ _ _ _ _ _ A) by done. case_decide as E.
  - rewrite E, H0. cbn [Z.eqb]. rewrite (ad_new _ _ _ _ _ _ A), nth_zeros. by destruct (r =? 0).
  - destruct (Z.eqb_spec (blkmap v x (k / BSIZE)) 0) as [|Hn]; [done|].
    rewrite (ad_data _ _ _ _ _ _ A); [done|by apply owns_blkmap|]. by apply F.
Qed.
End Grow.

Definition with_addr (k : nat) (r : Z) (x : inode) : inode := {| x with i_addrs := <[k := r]> (i_addrs x) |}.
Lemma addr_at_with k r x j : length (i_addrs x) = 13%nat -> (k < 13)%nat ->
  addr_at (with_addr k r x) j = if decide (j = k) then r else addr_at x j.
Proof.
  intros Hl Hk. unfold addr_at, with_addr. cbn [i_addrs]. rewrite !nth_lookup. case_decide as E.
  - subst. by rewrite list_lookup_insert_eq by lia.
  - by rewrite list_lookup_insert_ne.
Qed.

Section NewBlock.
Context (sb : superblock) (v : Z -> list Z) (iblk : Z) (x : inode) (r : Z).
Hypothesis (Hm : meta_ok sb v iblk) (F : file_ok sb v iblk x).
Hypothesis (Hr : 0 <= r < sb_size sb) (Hfree : blk_free sb v r = true).
Let v1 := allocated sb r v.

Lemma new_not_owned : ~ owns v x r.
Proof. intros (_ & Hf & _)%(fo_used _ _ _ _ F). congruence. Qed.
Lemma new_range : 0 <= r < 2 ^ 32.
Proof. destruct (bm_size _ _ (mo_bm _ _ _ Hm)). lia. Qed.
Lemma new_old b : owns v x b -> v1 b = v b /\ data_blk sb v1 iblk b.
Proof. intros H%(fo_used _ _ _ _ F). destruct (allocated_data sb v iblk r Hm Hr Hfree b H) as (? & _ & ?). done. Qed.

(** A direct block. *)
Lemma add_direct bn : 0 <= bn < 12 -> blkmap v x bn = 0 ->
  let x' := with_addr (Z.to_nat bn) r x in added v x bn r v1 x' /\ file_ok sb v1 iblk x'.
Proof.
  intros Hbn H0 x'. pose proof (fo_len _ _ _ _ F) as Hl.
  assert (Hind : ind_blk x' = ind_blk x) by (unfold ind_blk, x'; rewrite addr_at_with by lia; by_cases).
  assert (A : added v x bn r v1 x').
  { split; [|done|intros b Hb _; by apply new_old|apply allocated_new].
    intros c Hc. unfold blkmap. rewrite Hind. unfold in_file in Hc. destruct (Z.ltb_spec c 12) as [H|H].
    - unfold x'. rewrite addr_at_with by lia. repeat case_decide; try done; lia.
    - rewrite decide_False by lia. destruct (Z.eqb_spec (ind_blk x) 0); [done|].
      by rewrite (proj1 (new_old _ (owns_ind v x n))). }
  split; [done|]. apply (added_ok sb v v1 iblk x x' bn r); try done.
  - by apply allocated_mine.
  - apply new_not_owned.
  - intros b Hb. by apply new_old.
  - unfold x'. cbn. by rewrite length_insert.
  - unfold x'. cbn. apply Forall_insert; [apply F|apply new_range].
Qed.

(** The indirect block: the map does not change yet. *)
Lemma add_indirect : ind_blk x = 0 -> let x' := with_addr 12 r x in
  file_ok sb v1 iblk x' /\ (forall c, in_file c -> blkmap v1 x' c = blkmap v x c) /\ ind_blk x' = r /\
  (forall k, 0 <= k < 268 * BSIZE -> fbyte v1 x' k = fbyte v x k).
Proof.
  intros H0 x'. pose proof (fo_len _ _ _ _ F) as Hl. pose proof (alloc_pos sb v iblk r Hm Hr Hfree) as (Hr0 & _).
  assert (Hind : ind_blk x' = r) by (unfold ind_blk, x'; rewrite addr_at_with by lia; by_cases).
  assert (Hmap : forall c, in_file c -> blkmap v1 x' c = blkmap v x c).
  { intros c Hc. unfold in_file in Hc. unfold blkmap. rewrite Hind, H0. destruct (Z.ltb_spec c 12) as [H|H].
    - unfold x'. rewrite addr_at_with by lia. rewrite decide_False by lia. done.
    - cbn [Z.eqb]. destruct (Z.eqb_spec r 0); [done|]. unfold v1. by rewrite allocated_new, ind_at_zeros. }
  split; [|split; [done|split; [done|]]].
  - split.
    + unfold x'. cbn. by rewrite length_insert.
    + unfold x'. cbn. apply Forall_insert; [apply F|apply new_range].
    + intros b [Hb [->|(c & Hc & <-)]]; [rewrite Hind; by apply allocated_mine|].
      rewrite Hmap in * by done. by apply new_old, owns_blkmap.
    + intros c c' Hc Hc'. rewrite !Hmap by done. by apply F.
    + intros c Hc. rewrite Hmap, Hind by done. intros Hn E. apply new_not_owned. rewrite <-E. by apply owns_blkmap.
  - intros k Hk. assert (Hc : in_file (k / BSIZE)) by (unfold in_file; change BSIZE with 1024 in *; dlia).
    unfold fbyte. rewrite Hmap by done. destruct (Z.eqb_spec (blkmap v x (k / BSIZE)) 0) as [|Hn]; [done|].
    by rewrite (proj1 (new_old _ (owns_blkmap v x _ Hc Hn))).
Qed.

(** An entry of the indirect block. *)
Lemma add_entry bn : 12 <= bn < 268 -> ind_blk x <> 0 -> blkmap v x bn = 0 ->
  let a := ind_blk x in let v2 := upd a (put_le (4 * Z.to_nat (bn - 12)) 4 r (v a)) v1 in
  added v x bn r v2 x /\ file_ok sb v2 iblk x /\ meta_ok sb v2 iblk.
Proof.
  intros Hbn Ha H0 a v2. pose proof (fo_used _ _ _ _ F _ (owns_ind v x Ha)) as Da. fold a in Da.
  destruct Da as (A1 & A2 & A3 & A4 & A5). change (Z.to_nat BSIZE) with 1024%nat in A5.
  assert (Hra : r <> a) by (intros ->; congruence).
  assert (Hnb : forall b, b <> a -> v2 b = v1 b) by (intros b Hb; unfold v2, upd; by rewrite decide_False).
  assert (Hfr : forall c, 0 <= c < sb_size sb -> blk_free sb v2 c = blk_free sb v1 c).
  { intros c Hc. unfold blk_free. rewrite Hnb; [done|]. intros <-. apply A3. eapply BBLOCK_bitmap; [apply Hm|done]. }
  assert (Hd2 : forall b, data_blk sb v1 iblk b -> b <> a -> data_blk sb v2 iblk b).
  { intros b (B1 & B2 & B3) Hb. split; [done|]. rewrite Hfr, Hnb by (done || lia). done. }
  assert (Hlen : length (v2 a) = 1024%nat).
  { unfold v2, upd. rewrite decide_True by done. rewrite length_put_le by lia. done. }
  assert (A : added v x bn r v2 x).
  { split; [|done| |rewrite Hnb by done; apply allocated_new].
    - intros c Hc. unfold in_file in Hc. unfold blkmap. destruct (Z.ltb_spec c 12); [by rewrite decide_False by lia|].
      destruct (Z.eqb_spec (ind_blk x) 0); [done|]. fold a. unfold v2, upd. rewrite decide_True by done. unfold ind_at.
      case_decide as E.
      + subst c. rewrite get_put_le by lia. change (256 ^ Z.of_nat 4) with (2 ^ 32). apply Z.mod_small, new_range.
      + rewrite get_put_le_ne by lia. done.
    - intros b Hb Hn. rewrite Hnb by done. by apply new_old. }
  split; [done|]. split.
  - apply (added_ok sb v v2 iblk x x bn r); try done.
    + apply Hd2; [by apply allocated_mine|done].
    + apply new_not_owned.
    + intros b Hb. destruct (decide (b = a)) as [->|Hne]; [|apply Hd2; [by apply new_old|done]].
      split; [done|]. rewrite Hfr by lia. destruct (new_old _ Hb) as [_ (_ & B2 & _)]. by rewrite Hlen.
    + apply F.
    + apply F.
  - pose proof (allocated_meta sb v iblk r Hm Hr Hfree) as [B Z0 (I1 & I2 & I3)]. fold v1 in B, Z0, I2. split.
    + split; [apply B|apply B| |].
      * intros y Hy. rewrite Hnb by (intros ->; done). by apply (bm_len _ _ B).
      * intros b Hb. rewrite Hfr by done. by apply (bm_self _ _ B).
    + rewrite Hfr; [done|]. destruct (bm_size _ _ B). lia.
    + split; [done|]. by rewrite Hfr.
Qed.
End NewBlock.

(** ** The routines on a file

    The blocks that they touch are not locked by anyone. *)
Definition relevant (sb : superblock) (v : Z -> list Z) (iblk : Z) (x : inode) (b : Z) : Prop :=
  is_bitmap sb b \/ (0 <= b < sb_size sb /\ blk_free sb v b = true) \/ owns v x b \/ b = iblk.

Definition inode_blk (s : kstate) (ip : nat) : Z := IBLOCK (i_inum (itable s !!! ip)) (ksb s).

Record fctx (me : nat) (bs : list Z) (s : kstate) (ip : nat) : Prop := {
  fx_tx : tx me bs s;
  fx_ip : (ip < length (itable s))%nat;
  fx_dev : i_dev (itable s !!! ip) = ROOTDEV;
  fx_meta : meta_ok (ksb s) (view s) (inode_blk s ip);
  fx_file : file_ok (ksb s) (view s) (inode_blk s ip) (itable s !!! ip);
  fx_unl : forall b, relevant (ksb s) (view s) (inode_blk s ip) (itable s !!! ip) b -> locked s b = false;
  fx_pr : L_pr ∉ held s }.

(** Room for [k] more blocks in the log and in the cache. *)
Definition room (k : nat) (bs : list Z) (s : kstate) : Prop := (length bs + k < 30)%nat /\ (nused s + k < NBUF)%nat.

(** Blocks and inode before and after: the file keeps its blocks, takes only free ones, and
    the other blocks stay. *)
Record fgrow (sb : superblock) (iblk : Z) (v : Z -> list Z) (x : inode) (v' : Z -> list Z) (x' : inode) : Prop := {
  fg_meta : meta_ok sb v' iblk;
  fg_file : file_ok sb v' iblk x';
  fg_owns : forall b, owns v x b -> owns v' x' b;
  fg_map : forall c, in_file c -> blkmap v x c <> 0 -> blkmap v' x' c = blkmap v x c;
  fg_rel : forall b, relevant sb v' iblk x' b -> relevant sb v iblk x b;
  fg_view : forall b, ~ is_bitmap sb b -> b <> iblk -> ~ owns v' x' b -> v' b = v b }.

Record fstep (me ip g : nat) (bs : list Z) (s : kstate) (bs' : list Z) (s' : kstate) : Prop := {
  fs_tx : tx me bs' s';
  fs_bs : forall b, b ∈ bs -> b ∈ bs';
  fs_len : (length bs <= length bs' <= length bs + g)%nat;
  fs_nused : (nused s' + length bs <= nused s + length bs')%nat;
  fs_locked : forall b, locked s' b = locked s b;
  fs_frame : exists l t, io_frame (set_klog l (set_itable t s)) s';
  fs_other : length (itable s') = length (itable s) /\ forall j, j <> ip -> itable s' !!! j = itable s !!! j;
  fs_node : exists l z, itable s' !!! ip = {| {| (itable s !!! ip) with i_addrs := l |} with i_size := z |};
  fs_grow : fgrow (ksb s) (inode_blk s ip) (view s) (itable s !!! ip) (view s') (itable s' !!! ip) }.

(** Only what the blocks hold matters. *)
Section Ext.
Context (sb : superblock) (iblk : Z) (x : inode) (v w : Z -> list Z) (E : forall b, w b = v b).
Lemma blkmap_ext bn : blkmap w x bn = blkmap v x bn.
Proof. unfold blkmap. by rewrite E. Qed.
Lemma owns_ext b : owns w x b <-> owns v x b.
Proof. unfold owns. by setoid_rewrite blkmap_ext. Qed.
Lemma blk_free_ext b : blk_free sb w b = blk_free sb v b.
Proof. unfold blk_free. by rewrite E. Qed.
Lemma data_blk_ext b : data_blk sb w iblk b <-> data_blk sb v iblk b.
Proof. unfold data_blk. by rewrite blk_free_ext, E. Qed.
Lemma relevant_ext b : relevant sb w iblk x b <-> relevant sb v iblk x b.
Proof. unfold relevant. by rewrite blk_free_ext, owns_ext. Qed.
Lemma fbyte_ext k : fbyte w x k = fbyte v x k.
Proof. unfold fbyte. by rewrite blkmap_ext, E. Qed.
Lemma meta_ok_ext : meta_ok sb v iblk -> meta_ok sb w iblk.
Proof.
  intros [[B1 B2 B3 B4] M2 M3]. split; [|by rewrite blk_free_ext|by rewrite blk_free_ext]. split; [done|done| |].
  - intros y Hy. rewrite E. by apply B3.
  - intros b Hb. rewrite blk_free_ext. by apply B4.
Qed.
Lemma file_ok_ext : file_ok sb v iblk x -> file_ok sb w iblk x.
Proof.
  intros [F1 F2 F3 F4 F5]. split; [done|done| | |].
  - intros b. rewrite owns_ext, data_blk_ext. apply F3.
  - intros bn bn'. rewrite !blkmap_ext. apply F4.
  - intros bn. rewrite blkmap_ext. apply F5.
Qed.
End Ext.

Lemma fgrow_ext sb iblk v x v' w' x' : (forall b, w' b = v' b) -> fgrow sb iblk v x v' x' -> fgrow sb iblk v x w' x'.
Proof.
  intros E [M F O P R V]. split.
  - by eapply meta_ok_ext.
  - by eapply file_ok_ext.
  - intros b Hb. apply (owns_ext x' v' w' E). by apply O.
  - intros c Hc Hn. rewrite (blkmap_ext x' v' w' E). by apply P.
  - intros b Hb. apply R. by apply (relevant_ext sb iblk x' v' w' E).
  - intros b Hb Hi Hn. rewrite E. apply V; [done|done|]. intros Ho. by apply Hn, (owns_ext x' v' w' E).
Qed.

Lemma fgrow_trans sb iblk v1 x1 v2 x2 v3 x3 : fgrow sb iblk v1 x1 v2 x2 -> fgrow sb iblk v2 x2 v3 x3 ->
  fgrow sb iblk v1 x1 v3 x3.
Proof.
  intros A B. split; [apply B|apply B|intros b Hb; by apply B, A| |intros b Hb; by apply A, B|].
  - intros c Hc Hn. pose proof (fg_map _ _ _ _ _ _ A c Hc Hn) as E. rewrite (fg_map _ _ _ _ _ _ B); [done|done|congruence].
  - intros b Hb Hi Hn. rewrite (fg_view _ _ _ _ _ _ B) by done. apply (fg_view _ _ _ _ _ _ A); [done|done|].
    intros Ho. by apply Hn, B.
Qed.

Lemma fstep_same me ip g bs s bs' s' : fstep me ip g bs s bs' s' ->
  ksb s' = ksb s /\ held s' = held s /\ cur s' = cur s /\ mem s' = mem s /\ inode_blk s' ip = inode_blk s ip /\
  i_dev (itable s' !!! ip) = i_dev (itable s !!! ip).
Proof.
  intros F. destruct (fs_frame _ _ _ _ _ _ _ F) as (l & t & Fr). destruct (fs_node _ _ _ _ _ _ _ F) as (al & z & Hn).
  unfold inode_blk. rewrite Hn. by rewrite (if_rest _ _ Fr).
Qed.

Lemma fstep_ctx me ip g bs s bs' s' : fctx me bs s ip -> fstep me ip g bs s bs' s' -> fctx me bs' s' ip.
Proof.
  intros C F. destruct (fstep_same _ _ _ _ _ _ _ F) as (E1 & E2 & E3 & _ & E4 & E5).
  pose proof (fs_grow _ _ _ _ _ _ _ F) as G. split.
  - apply F.
  - destruct (fs_other _ _ _ _ _ _ _ F) as [-> _]. apply C.
  - rewrite E5. apply C.
  - rewrite E4, E1. apply G.
  - rewrite E4, E1. apply G.
  - intros b Hb. rewrite E4, E1 in Hb. rewrite (fs_locked _ _ _ _ _ _ _ F). by apply C, G.
  - rewrite E2. apply C.
Qed.

Lemma fstep_trans me ip g1 g2 bs s bs1 s1 bs2 s2 : fstep me ip g1 bs s bs1 s1 -> fstep me ip g2 bs1 s1 bs2 s2 ->
  fstep me ip (g1 + g2) bs s bs2 s2.
Proof.
  intros A B. destruct (fstep_same _ _ _ _ _ _ _ A) as (E1 & _ & _ & _ & E4 & _). split.
  - apply B.
  - intros b Hb. by apply B, A.
  - pose proof (fs_len _ _ _ _ _ _ _ A). pose proof (fs_len _ _ _ _ _ _ _ B). lia.
  - pose proof (fs_nused _ _ _ _ _ _ _ A). pose proof (fs_nused _ _ _ _ _ _ _ B). lia.
  - intros b. by rewrite (fs_locked _ _ _ _ _ _ _ B), (fs_locked _ _ _ _ _ _ _ A).
  - destruct (fs_frame _ _ _ _ _ _ _ A) as (l1 & t1 & F1), (fs_frame _ _ _ _ _ _ _ B) as (l2 & t2 & F2).
    exists l2, t2. eapply io_frame_trans; [|exact F2]. destruct F1 as [R1 P1]. split; [rewrite R1; done|exact P1].
  - destruct (fs_other _ _ _ _ _ _ _ A) as [La Ja], (fs_other _ _ _ _ _ _ _ B) as [Lb Jb]. split; [congruence|].
    intros j Hj. by rewrite Jb, Ja.
  - destruct (fs_node _ _ _ _ _ _ _ A) as (l1 & z1 & N1), (fs_node _ _ _ _ _ _ _ B) as (l2 & z2 & N2).
    exists l2, z2. by rewrite N2, N1.
  - eapply fgrow_trans; [apply A|]. rewrite <-E1, <-E4. apply B.
Qed.

(** From the blocks to the state: steps on blocks, then a change of the inode. *)
Lemma fstep_intro me ip g ws bs s v bs' s1 f : fctx me bs s ip -> txstep me ws bs s v bs' s1 ->
  (length bs' <= length bs + g)%nat -> let x := itable s !!! ip in
  (exists l z, f x = {| {| x with i_addrs := l |} with i_size := z |}) ->
  fgrow (ksb s) (inode_blk s ip) (view s) x v (f x) ->
  fstep me ip g bs s bs' (set_itable (alter f ip (itable s1)) s1).
Proof.
  intros C T Hg x Hx G. destruct (txstep_same _ _ _ _ _ _ _ T) as (Esb & Eit & Eh & Ec).
  assert (Hv : forall b, view s1 b = v b) by apply T. set (s2 := set_itable _ s1).
  assert (Hx' : itable s2 !!! ip = f x).
  { cbn [s2 itable set_itable]. rewrite Eit. apply list_lookup_total_alter_eq, C. }
  split.
  - by apply tx_itable, T.
  - apply T.
  - split; [apply T|done].
  - apply T.
  - apply T.
  - destruct (ts_frame _ _ _ _ _ _ _ T) as (l & Fr). exists l, (itable s2). destruct Fr as [R P]. split; [|exact P].
    unfold s2 at 1. rewrite R at 2. done.
  - cbn [s2 itable set_itable]. rewrite length_alter, Eit. split; [done|]. intros j Hj.
    by rewrite list_lookup_total_alter_ne by congruence.
  - by rewrite Hx'.
  - rewrite Hx'. change (view s2) with (view s1). by eapply fgrow_ext; [|exact G].
Qed.

Lemma added_owns sb v iblk x bn r v' x' b : file_ok sb v iblk x -> added v x bn r v' x' -> in_file bn -> blkmap v x bn = 0 ->
  owns v x b -> owns v' x' b.
Proof.
  intros F A Hbn H0 [Hb [->|(c & Hc & <-)]].
  - split; [done|]. left. by rewrite (ad_ind _ _ _ _ _ _ A).
  - split; [done|]. right. exists c. split; [done|]. rewrite (ad_map _ _ _ _ _ _ A) by done.
    rewrite decide_False; [done|]. intros ->. done.
Qed.
Lemma added_owns_inv v x bn r v' x' b : added v x bn r v' x' -> owns v' x' b -> owns v x b \/ b = r.
Proof.
  intros A [Hb [->|(c & Hc & Hm)]].
  - left. rewrite (ad_ind _ _ _ _ _ _ A) in *. split; [done|by left].
  - rewrite (ad_map _ _ _ _ _ _ A) in Hm by done. case_decide; [by right|]. left. split; [done|]. right. by exists c.
Qed.

Section Grows.
Context (sb : superblock) (v : Z -> list Z) (iblk : Z) (x : inode) (r : Z).
Hypothesis (Hm : meta_ok sb v iblk) (F : file_ok sb v iblk x).
Hypothesis (Hr : 0 <= r < sb_size sb) (Hfree : blk_free sb v r = true).

Lemma added_fgrow bn v' x' : added v x bn r v' x' -> in_file bn -> blkmap v x bn = 0 ->
  file_ok sb v' iblk x' -> meta_ok sb v' iblk ->
  (forall c, 0 <= c < sb_size sb -> blk_free sb v' c = blk_free sb (allocated sb r v) c) ->
  (forall b, b <> ind_blk x \/ ind_blk x = 0 -> v' b = allocated sb r v b) -> r <> 0 ->
  fgrow sb iblk v x v' x'.
Proof.
  intros A Hbn H0 F' M' Hf Hv Hr0. split; [done|done| | | |].
  - intros b. by eapply added_owns.
  - intros c Hc Hn. rewrite (ad_map _ _ _ _ _ _ A) by done. rewrite decide_False; [done|]. by intros ->.
  - intros b [Hb|[[Hb Hb2]|[Hb|Hb]]]; [by left| | |by right; right; right].
    + right. left. split; [done|]. rewrite Hf, (allocated_free sb v iblk r Hm Hr Hfree) in Hb2 by done.
      by case_decide.
    + destruct (added_owns_inv _ _ _ _ _ _ _ A Hb) as [Ho| ->]; [by right; right; left|]. right. by left.
  - intros b Hb _ Hn. rewrite Hv.
    + apply (allocated_other sb v iblk); try done. intros ->. apply Hn. split; [done|]. right. exists bn.
      split; [done|]. rewrite (ad_map _ _ _ _ _ _ A) by done. by rewrite decide_True.
    + destruct (decide (ind_blk x = 0)); [by right|]. left. intros ->. apply Hn.
      split; [done|]. left. by rewrite (ad_ind _ _ _ _ _ _ A).
Qed.

Lemma grow_direct bn : 0 <= bn < 12 -> blkmap v x bn = 0 -> let x' := with_addr (Z.to_nat bn) r x in
  fgrow sb iblk v x (allocated sb r v) x' /\ blkmap (allocated sb r v) x' bn = r /\
  (forall k, 0 <= k < 268 * BSIZE -> fbyte (allocated sb r v) x' k = fbyte v x k).
Proof.
  intros Hbn H0 x'. assert (Hin : in_file bn) by (unfold in_file; lia).
  destruct (add_direct sb v iblk x r Hm F Hr Hfree bn Hbn H0) as [A F']. fold x' in A, F'.
  destruct (alloc_pos sb v iblk r Hm Hr Hfree) as (Hr0 & _). split; [|split].
  - eapply added_fgrow; try done. by apply allocated_meta.
  - rewrite (ad_map _ _ _ _ _ _ A) by done. by rewrite decide_True.
  - intros k Hk. by apply (added_bytes sb v _ iblk x _ bn r F A H0 (fo_len _ _ _ _ F')).
Qed.

Lemma grow_indirect : ind_blk x = 0 -> let x' := with_addr 12 r x in
  fgrow sb iblk v x (allocated sb r v) x' /\ ind_blk x' = r /\
  (forall c, in_file c -> blkmap (allocated sb r v) x' c = blkmap v x c) /\
  (forall k, 0 <= k < 268 * BSIZE -> fbyte (allocated sb r v) x' k = fbyte v x k).
Proof.
  intros H0 x'. destruct (add_indirect sb v iblk x r Hm F Hr Hfree H0) as (F' & Hmap & Hind & Hby). fold x' in F', Hmap, Hind, Hby.
  destruct (alloc_pos sb v iblk r Hm Hr Hfree) as (Hr0 & _). split; [|done]. split.
  - by apply allocated_meta.
  - done.
  - intros b [Hb [->|(c & Hc & <-)]]; [by rewrite H0 in Hb|]. split; [done|]. right. exists c. by rewrite Hmap.
  - intros c Hc _. by apply Hmap.
  - intros b [Hb|[[Hb Hb2]|[[Hb [->|(c & Hc & <-)]]|Hb]]]; [by left| | | |by right; right; right].
    + right. left. split; [done|]. rewrite (allocated_free sb v iblk r Hm Hr Hfree) in Hb2 by done. by case_decide.
    + rewrite Hind. right. by left.
    + rewrite Hmap in * by done. right; right; left. by apply owns_blkmap.
  - intros b Hb _ Hn. apply (allocated_other sb v iblk); try done. intros ->. apply Hn. split; [done|]. left. done.
Qed.

Lemma grow_entry bn : 12 <= bn < 268 -> ind_blk x <> 0 -> blkmap v x bn = 0 ->
  let a := ind_blk x in let v2 := upd a (put_le (4 * Z.to_nat (bn - 12)) 4 r (v a)) (allocated sb r v) in
  fgrow sb iblk v x v2 x /\ blkmap v2 x bn = r /\ (forall k, 0 <= k < 268 * BSIZE -> fbyte v2 x k = fbyte v x k).
Proof.
  intros Hbn Ha H0 a v2. assert (Hin : in_file bn) by (unfold in_file; lia).
  destruct (add_entry sb v iblk x r Hm F Hr Hfree bn Hbn Ha H0) as (A & F' & M'). fold a v2 in A, F', M'.
  destruct (alloc_pos sb v iblk r Hm Hr Hfree) as (Hr0 & _).
  destruct (fo_used _ _ _ _ F _ (owns_ind v x Ha)) as (_ & _ & Hnb & _). fold a in Hnb. split; [|split].
  - eapply added_fgrow; try done.
    + intros c Hc. unfold blk_free, v2, upd. rewrite decide_False; [done|]. intros E. apply Hnb. rewrite <-E.
      eapply BBLOCK_bitmap; [apply Hm|done].
    + intros b [Hb|Hb]; [|done]. unfold v2, upd. by rewrite decide_False.
  - rewrite (ad_map _ _ _ _ _ _ A) by done. by rewrite decide_True.
  - intros k Hk. by apply (added_bytes sb v _ iblk x _ bn r F A H0 (fo_len _ _ _ _ F')).
Qed.
End Grows.

(** ** Overwriting a block of the file *)
Lemma grow_write sb v iblk x bn d : meta_ok sb v iblk -> file_ok sb v iblk x -> in_file bn -> blkmap v x bn <> 0 ->
  length d = Z.to_nat BSIZE -> let v' := upd (blkmap v x bn) d v in
  fgrow sb iblk v x v' x /\ (forall c, in_file c -> blkmap v' x c = blkmap v x c) /\
  (forall k, 0 <= k < 268 * BSIZE -> fbyte v' x k = if decide (k / BSIZE = bn) then nth (Z.to_nat (k mod BSIZE)) d 0 else fbyte v x k).
Proof.
  intros M F Hbn Hn Hd v'. set (a := blkmap v x bn) in *.
  destruct (fo_used _ _ _ _ F _ (owns_blkmap v x bn Hbn Hn)) as (A1 & A2 & A3 & A4 & A5). fold a in A1, A2, A3, A4, A5.
  assert (Hia : ind_blk x <> 0 -> v' (ind_blk x) = v (ind_blk x)).
  { intros Hi. unfold v', upd. rewrite decide_False; [done|]. intros E. by apply (fo_ind _ _ _ _ F bn). }
  assert (Hmap : forall c, in_file c -> blkmap v' x c = blkmap v x c).
  { intros c Hc. unfold blkmap. destruct (c <? 12); [done|]. destruct (Z.eqb_spec (ind_blk x) 0); [done|]. by rewrite Hia. }
  assert (Hfr : forall c, 0 <= c < sb_size sb -> blk_free sb v' c = blk_free sb v c).
  { intros c Hc. unfold blk_free, v', upd. rewrite decide_False; [done|]. intros E. apply A3. rewrite <-E.
    eapply BBLOCK_bitmap; [apply M|done]. }
  assert (Hown : forall b, owns v' x b <-> owns v x b).
  { intros b. unfold owns. split; intros [? [?|(c & Hc & E)]]; (split; [done|]); [by left| |by left|];
      right; exists c; (split; [done|]); [by rewrite <-Hmap|by rewrite Hmap]. }
  assert (Hdb : forall b, data_blk sb v iblk b -> data_blk sb v' iblk b).
  { intros b (B1 & B2 & B3 & B4 & B5). split; [done|]. rewrite Hfr by lia. split; [done|]. split; [done|]. split; [done|].
    unfold v', upd. by case_decide. }
  split; [|split; [done|]].
  - split.
    + destruct M as [[B1 B2 B3 B4] M2 (I1 & I2 & I3)]. split.
      * split; [done|done| |].
        -- intros y Hy. unfold v', upd. rewrite decide_False by (intros ->; done). by apply B3.
        -- intros b Hb. rewrite Hfr by done. by apply B4.
      * rewrite Hfr; [done|lia].
      * by rewrite Hfr.
    + split; [apply F|apply F| | |].
      * intros b Hb%Hown. by apply Hdb, F.
      * intros c c' Hc Hc'. rewrite !Hmap by done. by apply F.
      * intros c Hc. rewrite Hmap by done. by apply F.
    + intros b. by rewrite Hown.
    + intros c Hc _. by apply Hmap.
    + intros b. unfold relevant. rewrite Hown. intros [?|[[? Hb]|?]]; [by left| |by right; right].
      right. left. split; [done|]. by rewrite <-Hfr.
    + intros b _ _ Hno. unfold v', upd. rewrite decide_False; [done|]. intros ->. apply Hno, Hown. by apply owns_blkmap.
  - intros k Hk. assert (Hc : in_file (k / BSIZE)) by (unfold in_file; change BSIZE with 1024 in *; dlia).
    unfold fbyte. rewrite Hmap by done. case_decide as E.
    + rewrite E. fold a. destruct (Z.eqb_spec a 0); [done|]. unfold v', upd. by rewrite decide_True.
    + destruct (Z.eqb_spec (blkmap v x (k / BSIZE)) 0); [done|]. unfold v', upd. rewrite decide_False; [done|].
      intros Ea. apply E. symmetry. by apply (fo_inj _ _ _ _ F bn).
Qed.

(** ** [bmap] *)
Lemma fctx_alloc me bs s ip k : fctx me bs s ip -> room k bs s -> (2 <= k)%nat -> alloc_ok me bs s.
Proof.
  intros C [R1 R2] Hk. split; [apply C|apply C| | |lia|lia].
  - intros b Hb. apply C. by left.
  - intros b Hb Hf. apply C. right. by left.
Qed.

Lemma fgrow_refl sb iblk v x : meta_ok sb v iblk -> file_ok sb v iblk x -> fgrow sb iblk v x v x.
Proof. intros M F. by split. Qed.

Lemma set_itable_id t s : itable s = t -> set_itable t s = s.
Proof. intros <-. by destruct s. Qed.

(** Steps that leave the blocks as they are. *)
Lemma fstep_read me ip ws bs s s1 : fctx me bs s ip -> txstep me ws bs s (view s) bs s1 -> fstep me ip 0 bs s bs s1.
Proof.
  intros C T. pose proof (fstep_intro me ip 0 ws bs s (view s) bs s1 (fun x => x) C T) as H. cbv zeta in H.
  rewrite alter_id, set_itable_id in H by done. apply H; [lia|exists (i_addrs (itable s !!! ip)), (i_size (itable s !!! ip))|].
  - by destruct (itable s !!! ip).
  - apply fgrow_refl; apply C.
Qed.
Lemma txstep_refl me bs s : tx me bs s -> txstep me [] bs s (view s) bs s.
Proof. intros T. split; try done. exists (klog s). apply (io_frame_refl s). Qed.
Lemma fstep_refl me ip bs s : fctx me bs s ip -> fstep me ip 0 bs s bs s.
Proof. intros C. eapply fstep_read; [done|]. apply txstep_refl, C. Qed.

Lemma fstep_weaken me ip g g' bs s bs' s' : fstep me ip g bs s bs' s' -> (g <= g')%nat -> fstep me ip g' bs s bs' s'.
Proof. intros [] H. split; try done. lia. Qed.

Lemma room_step me ip g k bs s bs' s' : room (g + k) bs s -> fstep me ip g bs s bs' s' -> room k bs' s'.
Proof.
  intros [R1 R2] F. pose proof (fs_len _ _ _ _ _ _ _ F). pose proof (fs_nused _ _ _ _ _ _ _ F). split; lia.
Qed.

(** The block of the inode is untouched. *)
Definition same_iblk (ip : nat) (s s' : kstate) : Prop := view s' (inode_blk s ip) = view s (inode_blk s ip).
Lemma alloc_iblk sb v iblk r : meta_ok sb v iblk -> 0 <= r < sb_size sb -> blk_free sb v r = true ->
  allocated sb r v iblk = v iblk.
Proof.
  intros M Hr Hf. destruct (alloc_pos sb v iblk r M Hr Hf) as (_ & Hn & _).
  apply (allocated_other sb v iblk); try congruence; try done. by destruct (mo_iblk _ _ _ M) as (_ & _ & ?).
Qed.

(** What [bmap] promises: the file reads as before, and block [bn] is at [a], or there was
    none and the disk is full. *)
Definition bmapped (me ip g : nat) (bs : list Z) (s : kstate) (bn a : Z) (s' : kstate) : Prop :=
  exists bs', fstep me ip g bs s bs' s' /\ same_iblk ip s s' /\
    i_size (itable s' !!! ip) = i_size (itable s !!! ip) /\
    (forall k, 0 <= k < 268 * BSIZE -> fbyte (view s') (itable s' !!! ip) k = fbyte (view s) (itable s !!! ip) k) /\
    (a <> 0 -> blkmap (view s') (itable s' !!! ip) bn = a) /\
    (a = 0 -> blkmap (view s) (itable s !!! ip) bn = 0 /\
       forall c, 0 <= c < sb_size (ksb s) -> blk_free (ksb s) (view s') c = false) /\
    (blkmap (view s) (itable s !!! ip) bn <> 0 -> a = blkmap (view s) (itable s !!! ip) bn /\ bs' = bs /\
       itable s' = itable s /\ forall b, view s' b = view s b).

Lemma length_logged2 a b bs : (length (logged a (logged b bs)) <= length bs + 2)%nat.
Proof. pose proof (length_logged a (logged b bs)). pose proof (length_logged b bs). lia. Qed.

Lemma set_inode_same f ip s : set_inode ip f s = Ok tt (set_itable (alter f ip (itable s)) s).
Proof. done. Qed.

(** A block taken and put into the inode's table of addresses. *)
Lemma balloc_set_addr me bs s ip k slot : fctx me bs s ip -> room k bs s -> (2 <= k)%nat ->
  let sb := ksb s in let x := itable s !!! ip in
  wp (a ← balloc (i_dev x); if a =? 0 then ret 0 else set_addr ip slot a;; ret a) (fun r s' =>
    (r = 0 /\ (forall c, 0 <= c < sb_size sb -> blk_free sb (view s) c = false) /\
       (exists ws, txstep me ws bs s (view s) bs s')) \/
    (r <> 0 /\ 0 <= r < sb_size sb /\ blk_free sb (view s) r = true /\ exists ws s1,
       txstep me ws bs s (allocated sb r (view s)) (logged r (logged (BBLOCK r sb) bs)) s1 /\
       s' = set_itable (alter (with_addr slot r) ip (itable s1)) s1)) s.
Proof.
  intros C R Hk sb x. assert (Hd : i_dev x = ROOTDEV) by apply C. rewrite Hd. apply wp_bind.
  eapply wp_mono; [apply balloc_spec; [by eapply fctx_alloc|apply C]|].
  intros r s1 [(b & -> & Hb & Hfree & _ & ws & _ & T)|(-> & Hno & ws & _ & T)].
  - destruct (alloc_pos sb (view s) (inode_blk s ip) b (fx_meta _ _ _ _ C) Hb Hfree) as (Hb0 & _).
    destruct (Z.eqb_spec b 0); [done|]. apply wp_bind. eapply wp_intro; [apply set_inode_same|]. apply wp_ret.
    right. split; [done|]. split; [done|]. split; [done|]. by exists ws, s1.
  - cbn [Z.eqb]. apply wp_ret. left. split; [done|]. split; [done|]. by exists ws.
Qed.

Lemma bmapped_there me bs s ip bn : fctx me bs s ip -> blkmap (view s) (itable s !!! ip) bn <> 0 ->
  bmapped me ip 0 bs s bn (blkmap (view s) (itable s !!! ip) bn) s.
Proof. intros C Hn. exists bs. split; [by apply fstep_refl|]. split_and!; done. Qed.

Lemma bmap_direct me bs s ip k bn : fctx me bs s ip -> room k bs s -> (2 <= k)%nat -> 0 <= bn < 12 ->
  wp (bmap ip bn) (bmapped me ip 2 bs s bn) s.
Proof.
  intros C R Hk Hbn. unfold bmap. apply wp_bind, wp_gets. change NDIRECT with 12.
  destruct (Z.ltb_spec bn 12) as [Hlt|]; [|lia]. set (x := itable s !!! ip).
  assert (Hmap : blkmap (view s) x bn = addr_at x (Z.to_nat bn)) by (unfold blkmap; by rewrite (proj2 (Z.ltb_lt _ _) Hlt)).
  destruct (Z.eqb_spec (addr_at x (Z.to_nat bn)) 0) as [E|E].
  - assert (H0 : blkmap (view s) x bn = 0) by congruence.
    eapply wp_mono; [by eapply balloc_set_addr|]. fold x.
    intros r s' [(-> & Hno & ws & T)|(Hr0 & Hr & Hfree & ws & s1 & T & ->)].
    + exists bs. destruct (txstep_same _ _ _ _ _ _ _ T) as (_ & Eit & _). split; [eapply fstep_weaken; [by eapply fstep_read|lia]|].
      rewrite Eit. fold x. split_and!; try done.
      * apply T.
      * intros j Hj. apply fbyte_ext, T.
      * intros _. split; [done|]. intros c Hc. rewrite (blk_free_ext _ _ _ (ts_view _ _ _ _ _ _ _ T)). by apply Hno.
    + destruct (grow_direct (ksb s) (view s) (inode_blk s ip) x r (fx_meta _ _ _ _ C) (fx_file _ _ _ _ C) Hr Hfree bn Hbn H0)
        as (G & Hm & Hby). pose proof (length_logged2 r (BBLOCK r (ksb s)) bs) as Hlen.
      pose proof (fstep_intro me ip 2 ws bs s _ _ s1 (with_addr (Z.to_nat bn) r) C T Hlen) as F.
      destruct (txstep_same _ _ _ _ _ _ _ T) as (_ & Eit & _). pose proof (ts_view _ _ _ _ _ _ _ T) as Hv.
      eexists. split; [apply F; [exists (<[Z.to_nat bn := r]> (i_addrs x)), (i_size x); done|exact G]|].
      assert (Hx' : alter (with_addr (Z.to_nat bn) r) ip (itable s1) !!! ip = with_addr (Z.to_nat bn) r x).
      { rewrite Eit. apply list_lookup_total_alter_eq, C. }
      cbn [itable set_itable]. rewrite Hx'. split_and!; try done.
      * unfold same_iblk. change (view (set_itable _ s1) (inode_blk s ip)) with (view s1 (inode_blk s ip)).
        rewrite Hv. apply alloc_iblk; [apply C|done|done].
      * intros j Hj. rewrite (fbyte_ext _ _ _ Hv). by apply Hby.
      * intros _. rewrite (blkmap_ext _ _ _ Hv). done.
  - apply wp_ret. rewrite <-Hmap. destruct (bmapped_there me bs s ip bn C) as (bs' & F & H); [by fold x; rewrite Hmap|].
    exists bs'. split; [eapply fstep_weaken; [exact F|lia]|exact H].
Qed.

(** The indirect block. *)
Definition with_indirect (ip : nat) : K Z :=
  x ← get_inode ip;
  if addr_at x 12 =? 0 then
    a ← balloc (i_dev x);
    if a =? 0 then ret 0 else set_addr ip 12 a;; ret a
  else ret (addr_at x 12).

Lemma with_indirect_spec me bs s ip k bn : fctx me bs s ip -> room k bs s -> (2 <= k)%nat -> 12 <= bn < 268 ->
  wp (with_indirect ip) (fun a s' => exists bs', fstep me ip 2 bs s bs' s' /\ same_iblk ip s s' /\ a = ind_blk (itable s' !!! ip) /\
    i_size (itable s' !!! ip) = i_size (itable s !!! ip) /\
    (forall c, in_file c -> blkmap (view s') (itable s' !!! ip) c = blkmap (view s) (itable s !!! ip) c) /\
    (forall k, 0 <= k < 268 * BSIZE -> fbyte (view s') (itable s' !!! ip) k = fbyte (view s) (itable s !!! ip) k) /\
    (a = 0 -> forall c, 0 <= c < sb_size (ksb s) -> blk_free (ksb s) (view s') c = false) /\
    (ind_blk (itable s !!! ip) <> 0 -> bs' = bs /\ s' = s)) s.
Proof.
  intros C R Hk Hbn. unfold with_indirect. apply wp_bind, wp_gets. set (x := itable s !!! ip).
  destruct (Z.eqb_spec (addr_at x 12) 0) as [E|E].
  - eapply wp_mono; [by eapply balloc_set_addr|]. fold x.
    intros r s' [(-> & Hno & ws & T)|(Hr0 & Hr & Hfree & ws & s1 & T & ->)].
    + exists bs. destruct (txstep_same _ _ _ _ _ _ _ T) as (_ & Eit & _). pose proof (ts_view _ _ _ _ _ _ _ T) as Hv.
      split; [eapply fstep_weaken; [by eapply fstep_read|lia]|]. rewrite Eit. fold x. split_and!; try done.
      * apply Hv.
      * intros c Hc. by apply blkmap_ext.
      * intros j Hj. by apply fbyte_ext.
      * intros _ c Hc. rewrite (blk_free_ext _ _ _ Hv). by apply Hno.
    + destruct (grow_indirect (ksb s) (view s) (inode_blk s ip) x r (fx_meta _ _ _ _ C) (fx_file _ _ _ _ C) Hr Hfree E)
        as (G & Hind & Hm & Hby). pose proof (length_logged2 r (BBLOCK r (ksb s)) bs) as Hlen.
      pose proof (fstep_intro me ip 2 ws bs s _ _ s1 (with_addr 12 r) C T Hlen) as F.
      destruct (txstep_same _ _ _ _ _ _ _ T) as (_ & Eit & _). pose proof (ts_view _ _ _ _ _ _ _ T) as Hv.
      eexists. split; [apply F; [exists (<[12%nat := r]> (i_addrs x)), (i_size x); done|exact G]|].
      assert (Hx' : alter (with_addr 12 r) ip (itable s1) !!! ip = with_addr 12 r x).
      { rewrite Eit. apply list_lookup_total_alter_eq, C. }
      cbn [itable set_itable]. rewrite Hx'. split_and!; try done.
      * unfold same_iblk. change (view (set_itable _ s1) (inode_blk s ip)) with (view s1 (inode_blk s ip)).
        rewrite Hv. apply alloc_iblk; [apply C|done|done].
      * intros c Hc. rewrite (blkmap_ext _ _ _ Hv). by apply Hm.
      * intros j Hj. rewrite (fbyte_ext _ _ _ Hv). by apply Hby.
  - apply wp_ret. exists bs. split; [eapply fstep_weaken; [by apply fstep_refl|lia]|]. split_and!; try done.
Qed.

(** The entry of the indirect block [a]. *)
Definition indirect_entry (dev a bn : Z) : K Z :=
  bp ← bread dev a;
  bd ← get_buf bp;
  addr ←
    (let addr := ind_at (b_data bd) (Z.to_nat bn) in
     if addr =? 0 then
       addr ← balloc dev;
       when (negb (addr =? 0))
         (bd ← get_buf bp;
          set_data bp (put_le (4 * Z.to_nat bn) 4 addr (b_data bd));;
          log_write bp);;
       ret addr
     else ret addr);
  brelse bp;;
  ret addr.

Lemma hold_update_then {A} me ws bs s b i v bs1 s1 d (k : K A) Q : tx me bs s -> locked s b = false ->
  holds_blk me ws bs s b i v bs1 s1 -> (length bs1 < 30)%nat ->
  (forall s', txstep me (b :: ws) bs s (upd b d v) (logged b bs1) s' -> wp k Q s') ->
  wp (set_data i d;; log_write i) (fun _ => wp (brelse i;; k) Q) s1.
Proof.
  intros T Hl H Hn Hk. pose proof (hold_update me ws bs s b i v bs1 s1 d T Hl H Hn) as U. unfold wp, bind in *.
  destruct (set_data i d s1) as [[] s2| | |]; try done. destruct (log_write i s2) as [[] s3| | |]; try done.
  destruct (brelse i s3) as [[] s4| | |]; try done. by apply Hk.
Qed.

(** The allocator may run while a data block of the file is held. *)
Lemma alloc_ok_held me bs s ip k b i s1 : fctx me bs s ip -> room k bs s -> (3 <= k)%nat ->
  owns (view s) (itable s !!! ip) b -> reading me bs s b i s1 -> alloc_ok me bs s1.
Proof.
  intros C [R1 R2] Hk Ho [G T1]. pose proof (got_frame _ _ _ _ _ G) as F.
  destruct (fo_used _ _ _ _ (fx_file _ _ _ _ C) b Ho) as (B1 & B2 & B3 & _).
  assert (Esb : ksb s1 = ksb s) by (by rewrite F). pose proof (got_view _ _ _ _ _ G) as Hv.
  split; [done|..]; rewrite ?Esb.
  - apply (mo_bm _ _ (inode_blk s ip)). eapply meta_ok_ext; [exact Hv|apply C].
  - intros y Hy. rewrite (got_locked _ _ _ _ _ G), decide_False by (intros ->; done). apply C. by left.
  - intros c Hc Hf. rewrite (blk_free_ext _ _ _ Hv) in Hf. rewrite (got_locked _ _ _ _ _ G), decide_False by congruence.
    apply C. right. by left.
  - rewrite (got_nused _ _ _ _ _ G). case_decide; lia.
  - lia.
Qed.

Lemma bmapped_intro me ip g ws bs s v bs' s1 bn r : fctx me bs s ip -> txstep me ws bs s v bs' s1 ->
  (length bs' <= length bs + g)%nat -> fgrow (ksb s) (inode_blk s ip) (view s) (itable s !!! ip) v (itable s !!! ip) ->
  (forall k, 0 <= k < 268 * BSIZE -> fbyte v (itable s !!! ip) k = fbyte (view s) (itable s !!! ip) k) ->
  blkmap (view s) (itable s !!! ip) bn = 0 ->
  (r <> 0 -> blkmap v (itable s !!! ip) bn = r) ->
  (r = 0 -> forall c, 0 <= c < sb_size (ksb s) -> blk_free (ksb s) v c = false) ->
  v (inode_blk s ip) = view s (inode_blk s ip) ->
  bmapped me ip g bs s bn r s1.
Proof.
  intros C T Hg G Hby H0 Hr1 Hr0 Hib. destruct (txstep_same _ _ _ _ _ _ _ T) as (_ & Eit & _).
  pose proof (ts_view _ _ _ _ _ _ _ T) as Hv.
  pose proof (fstep_intro me ip g ws bs s v bs' s1 (fun x => x) C T Hg) as F. cbv zeta in F.
  rewrite alter_id, set_itable_id in F by done. exists bs'. split; [apply F|].
  - exists (i_addrs (itable s !!! ip)), (i_size (itable s !!! ip)). by destruct (itable s !!! ip).
  - done.
  - rewrite Eit. split_and!; try done.
    + unfold same_iblk. by rewrite Hv.
    + intros j Hj. rewrite (fbyte_ext _ _ _ Hv). by apply Hby.
    + intros Hr. rewrite (blkmap_ext _ _ _ Hv). by apply Hr1.
    + intros Hr. split; [done|]. intros c Hc. rewrite (blk_free_ext _ _ _ Hv). by apply Hr0.
Qed.

Lemma not_logged a b bs : a <> b -> a ∈ logged b bs -> a ∈ bs.
Proof. intros Hn. unfold logged. case_decide; [done|]. intros [?| ->%list_elem_of_singleton]%elem_of_app; done. Qed.

Lemma indirect_entry_spec me bs s ip k bn : let x := itable s !!! ip in let a := ind_blk x in
  fctx me bs s ip -> room k bs s -> (4 <= k)%nat -> 12 <= bn < 268 -> a <> 0 ->
  wp (indirect_entry (i_dev x) a (bn - 12)) (bmapped me ip 3 bs s bn) s.
Proof.
  intros x a C R Hk Hbn Ha. pose proof (fx_tx _ _ _ _ C) as T. assert (Hd : i_dev x = ROOTDEV) by apply C.
  assert (Hown : owns (view s) x a) by (by apply owns_ind).
  assert (Hul : locked s a = false) by (apply C; right; right; by left).
  assert (Hin : in_file bn) by (unfold in_file; lia). destruct R as [R1 R2]. pose proof (conj R1 R2 : room k bs s) as R.
  assert (Hmap : forall v, blkmap v x bn = ind_at (v a) (Z.to_nat (bn - 12))).
  { intros v. unfold blkmap. destruct (Z.ltb_spec bn 12); [lia|]. fold a. by destruct (Z.eqb_spec a 0). }
  unfold indirect_entry. rewrite Hd. apply wp_bind. eapply wp_mono; [apply tx_bread; [done|]|].
  { split; [done|]. right. lia. }
  intros i s1 Rd. pose proof (hold_read me bs s a i s1 T Rd Hul) as Hh. pose proof (rd_got _ _ _ _ _ _ Rd) as Gt.
  apply wp_bind, wp_gets. rewrite (got_data _ _ _ _ _ Gt). cbv zeta. rewrite <-(Hmap (view s)).
  destruct (Z.eqb_spec (blkmap (view s) x bn) 0) as [E|E].
  - apply wp_bind, wp_bind. eapply wp_mono; [apply balloc_spec; [apply (alloc_ok_held me bs s ip k a i s1); [exact C|exact R|lia|exact Hown|exact Rd]|]|].
    { rewrite (got_frame _ _ _ _ _ Gt). apply C. }
    assert (Esb : ksb s1 = ksb s) by (by rewrite (got_frame _ _ _ _ _ Gt)).
    destruct (fo_used _ _ _ _ (fx_file _ _ _ _ C) a Hown) as (A1 & A2 & A3 & A4 & A5).
    intros r s2 [(b & -> & F)|(-> & F)]; unfold found in F; cbv zeta in F; rewrite Esb in F.
    + destruct F as (Hb & Hfree & _ & ws & Hws & T2). rewrite (blk_free_ext _ _ _ (got_view _ _ _ _ _ Gt)) in Hfree.
      destruct (alloc_pos (ksb s) (view s) (inode_blk s ip) b (fx_meta _ _ _ _ C) Hb Hfree) as (Hb0 & _).
      assert (Hab : a <> b) by congruence.
      assert (Haw : a ∉ ws) by (intros [Hx|Hx]%Hws; done).
      assert (Hain : a ∈ logged b (logged (BBLOCK b (ksb s)) bs) -> a ∈ bs).
      { intros Hx. apply not_logged in Hx; [|done]. apply not_logged in Hx; [done|]. intros E'. apply A3. rewrite E'.
        eapply BBLOCK_bitmap; [apply (fx_meta _ _ _ _ C)|done]. }
      pose proof (hold_step _ _ _ _ _ _ _ _ _ _ _ _ _ Hh T2 Haw Hain) as Hh2.
      assert (Hext : forall y, view s2 y = allocated (ksb s) b (view s) y).
      { intros y. rewrite (ts_view _ _ _ _ _ _ _ T2). unfold allocated, mark, upd. by rewrite !(got_view _ _ _ _ _ Gt). }
      assert (Hda : b_data (bufs s2 !!! i) = view s a).
      { rewrite <-(loaded_view me i a s2) by apply Hh2. rewrite Hext. by apply (allocated_other _ _ (inode_blk s ip)); [apply C|..]. }
      destruct (Z.eqb_spec b 0); [done|]. cbn [negb when]. apply wp_bind.
      apply wp_bind, wp_gets. rewrite Hda. pose proof (length_logged2 b (BBLOCK b (ksb s)) bs) as Hl2.
      eapply wp_mono; [eapply hold_update_then with (k := ret b) (Q := bmapped me ip 3 bs s bn); [exact T|done|exact Hh2|lia|]|].
      * intros s' T3. apply wp_ret. destruct (grow_entry (ksb s) (view s) (inode_blk s ip) x b (fx_meta _ _ _ _ C) (fx_file _ _ _ _ C)
          Hb Hfree bn Hbn Ha E) as (G & Hm & Hby). fold a in G, Hm, Hby.
        eapply bmapped_intro; [done|eapply txstep_view_ext; [exact T3|]| |exact G|exact Hby|done|by intros _|done|].
        -- intros y. unfold upd. case_decide; [done|]. by rewrite <-Hext, (ts_view _ _ _ _ _ _ _ T2).
        -- pose proof (length_logged a (logged b (logged (BBLOCK b (ksb s)) bs))). lia.
        -- unfold upd. rewrite decide_False by congruence. apply alloc_iblk; [apply C|done|done].
      * intros [] s3 W. apply wp_ret. exact W.
    + destruct F as (Hno & ws & Hws & T2). cbn [Z.eqb negb when]. apply wp_bind, wp_ret, wp_ret, wp_bind.
      assert (Haw : a ∉ ws) by (intros Hx%Hws; done).
      pose proof (hold_step _ _ _ _ _ _ _ _ _ _ _ _ _ Hh T2 Haw (fun H => H)) as Hh2.
      eapply wp_mono; [eapply hold_done; [exact T|done|exact Hh2]|]. intros [] s' T3. apply wp_ret.
      eapply (bmapped_intro me ip 3 _ bs s (view s1)); [done|exact T3|lia| |intros j _; by apply fbyte_ext, Gt|done|done| |by apply Gt].
      * eapply fgrow_ext; [apply Gt|]. apply fgrow_refl; apply C.
      * intros _ c Hc. by apply Hno.
  - apply wp_bind, wp_ret, wp_bind. eapply wp_mono; [eapply hold_done; [exact T|done|exact Hh]|].
    intros [] s' T3. apply wp_ret. exists bs. destruct (txstep_same _ _ _ _ _ _ _ T3) as (_ & Eit & _).
    pose proof (ts_view _ _ _ _ _ _ _ T3) as Hv.
    split; [eapply fstep_weaken; [by eapply fstep_read|lia]|]. rewrite Eit. fold x. split_and!; try done.
    + apply Hv.
    + intros j _. by apply fbyte_ext.
    + intros _. by apply blkmap_ext.
Qed.

Lemma bmap_indirect_eq ip bn s : 12 <= bn < 268 ->
  bmap ip bn s = (a ← with_indirect ip; if a =? 0 then ret 0 else indirect_entry (i_dev (itable s !!! ip)) a (bn - 12)) s.
Proof.
  intros Hbn. unfold bmap, bind at 1, get_inode, gets. change NDIRECT with 12. change NINDIRECT with 256.
  destruct (Z.ltb_spec bn 12); [lia|]. cbv zeta. destruct (Z.ltb_spec (bn - 12) 256); [|lia]. reflexivity.
Qed.

Lemma bmapped_after me ip g1 g2 bs s bs1 s1 bn a s2 :
  fstep me ip g1 bs s bs1 s1 -> same_iblk ip s s1 -> i_size (itable s1 !!! ip) = i_size (itable s !!! ip) ->
  blkmap (view s1) (itable s1 !!! ip) bn = blkmap (view s) (itable s !!! ip) bn ->
  (forall k, 0 <= k < 268 * BSIZE -> fbyte (view s1) (itable s1 !!! ip) k = fbyte (view s) (itable s !!! ip) k) ->
  (blkmap (view s) (itable s !!! ip) bn <> 0 -> bs1 = bs /\ s1 = s) ->
  bmapped me ip g2 bs1 s1 bn a s2 -> bmapped me ip (g1 + g2) bs s bn a s2.
Proof.
  intros F Hib Hsz Hm Hby Hsame (bs2 & F2 & I2 & S2 & B2 & A2 & Z2 & N2).
  destruct (fstep_same _ _ _ _ _ _ _ F) as (Esb & _ & _ & _ & Eib & _).
  exists bs2. split; [by eapply fstep_trans|]. split; [unfold same_iblk in *; congruence|]. split; [congruence|]. split; [intros k Hk; rewrite B2, Hby by done; done|].
  split; [done|]. split.
  - intros Ha. destruct (Z2 Ha) as [Z1 Zf]. rewrite Hm in Z1. split; [done|]. rewrite <-Esb. exact Zf.
  - intros Hn. destruct (Hsame Hn) as [-> ->]. by apply N2.
Qed.

Lemma bmap_spec me bs s ip bn : fctx me bs s ip -> room 6 bs s -> in_file bn ->
  wp (bmap ip bn) (bmapped me ip 5 bs s bn) s.
Proof.
  intros C R Hbn. destruct (decide (bn < 12)) as [Hlt|Hge].
  - eapply wp_mono; [eapply bmap_direct; [done|done|lia|unfold in_file in Hbn; lia]|].
    intros a s' (bs' & F & H). exists bs'. split; [eapply fstep_weaken; [exact F|lia]|exact H].
  - assert (Hr : 12 <= bn < 268) by (unfold in_file in Hbn; lia). unfold wp. rewrite bmap_indirect_eq by done.
    change (wp (a ← with_indirect ip; if a =? 0 then ret 0 else indirect_entry (i_dev (itable s !!! ip)) a (bn - 12))
      (bmapped me ip 5 bs s bn) s). apply wp_bind.
    eapply wp_mono; [eapply with_indirect_spec; [done|done|lia|done]|].
    intros a s1 (bs1 & F1 & Hib & Ea & Hsz & Hm & Hby & Hz & Hs). pose proof (fstep_ctx _ _ _ _ _ _ _ C F1) as C1.
    pose proof (room_step me ip 2 4 bs s bs1 s1 R F1) as R1.
    assert (Hs' : blkmap (view s) (itable s !!! ip) bn <> 0 -> ind_blk (itable s !!! ip) <> 0).
    { intros Hn E. apply Hn. unfold blkmap. destruct (Z.ltb_spec bn 12); [lia|]. by rewrite E. }
    destruct (Z.eqb_spec a 0) as [Ha|Ha].
    + apply wp_ret. exists bs1. split; [eapply fstep_weaken; [exact F1|lia]|]. split; [done|]. split; [done|]. split; [done|].
      assert (H0 : blkmap (view s) (itable s !!! ip) bn = 0).
      { rewrite <-(Hm bn Hbn). unfold blkmap. destruct (Z.ltb_spec bn 12); [lia|]. by rewrite <-Ea, Ha. }
      split; [done|]. split; [intros _; split; [done|by apply Hz]|done].
    + destruct (fstep_same _ _ _ _ _ _ _ F1) as (_ & _ & _ & _ & _ & Edev). rewrite <-Edev, Ea.
      eapply wp_mono; [eapply (indirect_entry_spec me bs1 s1 ip 4); [done|done|lia|done|by rewrite <-Ea]|].
      intros a' s2 B. eapply (bmapped_after me ip 2 3); [done|done|done|by apply Hm|done|intros Hn; by apply Hs, Hs'|done].
Qed.

(** ** Writing the inode back, with a new size *)
Definition with_size (z : Z) (x : inode) : inode := {| x with i_size := z |}.
Lemma grow_inode sb v iblk x z d : meta_ok sb v iblk -> file_ok sb v iblk x -> let v' := upd iblk d v in
  fgrow sb iblk v x v' (with_size z x) /\
  (forall k, 0 <= k < 268 * BSIZE -> fbyte v' (with_size z x) k = fbyte v x k).
Proof.
  intros M F v'. destruct (mo_iblk _ _ _ M) as (I1 & I2 & I3).
  assert (Hne : forall b, b <> iblk -> v' b = v b) by (intros b Hb; unfold v', upd; by rewrite decide_False).
  assert (Hfr : forall c, 0 <= c < sb_size sb -> blk_free sb v' c = blk_free sb v c).
  { intros c Hc. unfold blk_free. rewrite Hne; [done|]. intros <-. apply I3. eapply BBLOCK_bitmap; [apply M|done]. }
  assert (Hown : forall b, owns v x b -> b <> iblk) by (intros b (_ & _ & _ & H & _)%(fo_used _ _ _ _ F); done).
  assert (Hmap : forall c, blkmap v' (with_size z x) c = blkmap v x c).
  { intros c. unfold blkmap. change (ind_blk (with_size z x)) with (ind_blk x). destruct (c <? 12); [done|].
    destruct (Z.eqb_spec (ind_blk x) 0); [done|]. by rewrite Hne by (by apply Hown, owns_ind). }
  assert (Ho : forall b, owns v' (with_size z x) b <-> owns v x b).
  { intros b. unfold owns. by setoid_rewrite Hmap. }
  split; [split|].
  - destruct M as [[B1 B2 B3 B4] M2 M3]. split.
    + split; [done|done| |].
      * intros y Hy. rewrite Hne by (intros ->; done). by apply B3.
      * intros b Hb. rewrite Hfr by done. by apply B4.
    + rewrite Hfr; [done|lia].
    + by rewrite Hfr.
  - destruct F as [F1 F2 F3 F4 F5]. split; [done|done| | |].
    + intros b Hb%Ho. destruct (F3 b Hb) as (D1 & D2 & D3 & D4 & D5). split; [done|].
      rewrite Hfr, Hne by (done || lia). done.
    + intros c c' Hc Hc'. rewrite !Hmap. by apply F4.
    + intros c Hc. rewrite Hmap. by apply F5.
  - intros b. by rewrite Ho.
  - intros c _ _. apply Hmap.
  - intros b. unfold relevant. rewrite Ho. intros [?|[[? Hb]|?]]; [by left| |by right; right].
    right. left. split; [done|]. by rewrite <-Hfr.
  - intros b _ Hb _. by apply Hne.
  - intros k Hk. assert (Hc : in_file (k / BSIZE)) by (unfold in_file; change BSIZE with 1024 in *; dlia).
    unfold fbyte. rewrite Hmap. destruct (Z.eqb_spec (blkmap v x (k / BSIZE)) 0); [done|].
    by rewrite Hne by (by apply Hown, owns_blkmap).
Qed.
