(* ===== verification/Fsrw.v ===== *)
(** * Reading and writing files (the theory of kernel/fs.c: readi and writei) *)

From S2P Require Import Prelude Spinlock State Printk Kstring Kalloc Vm Pgtbl Sync Bio Log Fs Fsblk Fsinode Fsfile.

(** ** Where the bytes come from

    [supplies src data s]: copying from [src] gives the bytes [data], piece by piece, in every
    state with the same memory and the same current process as [s]. *)
Definition same_user (s s' : kstate) : Prop :=
  mem s' = mem s /\ cur s' = cur s /\ freelist s' = freelist s /\
  forall i, pagetable (procs s' !!! i) = pagetable (procs s !!! i) /\ sz (procs s' !!! i) = sz (procs s !!! i).
Definition supplies (src : kptr) (data : list Z) (s : kstate) : Prop :=
  forall k m s', (k + m <= length data)%nat -> same_user s s' ->
    either_copyin (kptr_add src (Z.of_nat k)) (Z.of_nat m) s' = Ok (0, take m (drop k data)) s'.

Lemma supplies_local data s : supplies (Klocal data) data s.
Proof.
  intros k m s' Hk _. unfold either_copyin, kptr_add. rewrite !Nat2Z.id. done.
Qed.

Lemma woken_same p p' : woken p p' -> pagetable p' = pagetable p /\ sz p' = sz p.
Proof. by intros [->|[_ ->]]. Qed.

Lemma fstep_user me ip g bs s bs' s' : fstep me ip g bs s bs' s' -> same_user s s'.
Proof.
  intros F. destruct (fs_frame _ _ _ _ _ _ _ F) as (l & t & [R P]). rewrite R. split_and!; try done.
  intros i. cbn [procs set_procs]. cbn [procs set_klog set_itable] in P.
  destruct (decide (i < length (procs s))%nat) as [Hi|Hi].
  - destruct (lookup_lt_is_Some_2 _ _ Hi) as [p Hp]. destruct (Forall2_lookup_l _ _ _ _ _ P Hp) as (p' & Hp' & W).
    rewrite (list_lookup_total_correct _ _ _ Hp), (list_lookup_total_correct _ _ _ Hp'). by apply woken_same.
  - apply Forall2_length in P. rewrite !list_lookup_total_alt, !lookup_ge_None_2 by lia. done.
Qed.

Lemma same_user_trans s1 s2 s3 : same_user s1 s2 -> same_user s2 s3 -> same_user s1 s3.
Proof.
  intros (A1 & A2 & A3 & A4) (B1 & B2 & B3 & B4). split_and!; [congruence..|]. intros i.
  destruct (A4 i), (B4 i). split; congruence.
Qed.
Lemma supplies_mono src data s s' : supplies src data s -> same_user s s' -> supplies src data s'.
Proof. intros H U k m s2 Hk U2. apply H; [done|]. by eapply same_user_trans. Qed.

Lemma kptr_add_add src a b : 0 <= a -> 0 <= b -> kptr_add (kptr_add src a) b = kptr_add src (a + b).
Proof.
  intros Ha Hb. destruct src; cbn [kptr_add]; f_equal.
  - unfold u64. rewrite Zplus_mod_idemp_l. f_equal. lia.
  - unfold u64. rewrite Zplus_mod_idemp_l. f_equal. lia.
  - rewrite drop_drop. f_equal. lia.
Qed.
Lemma supplies_drop src data s n : (n <= length data)%nat -> supplies src data s ->
  supplies (kptr_add src (Z.of_nat n)) (drop n data) s.
Proof.
  intros Hn H k m s' Hk U. rewrite length_drop in Hk. rewrite kptr_add_add by lia.
  rewrite <-Nat2Z.inj_add, H by (done || lia). by rewrite drop_drop.
Qed.
(** The first piece, at the pointer itself. *)
Lemma supplies_head src data s m : supplies src data s -> (m <= length data)%nat -> kptr_add src 0 = src ->
  either_copyin src (Z.of_nat m) s = Ok (0, take m data) s.
Proof.
  intros H Hm E. specialize (H 0%nat m s). change (Z.of_nat 0) with 0 in H. rewrite E in H. apply H; [lia|by split_and!].
Qed.

(** A buffer of the current process. *)
Lemma uload_slice f va n k m : (k + m <= n)%nat -> take m (drop k (uload f va n)) = uload f (va + Z.of_nat k) m.
Proof.
  intros H. replace n with (k + (m + (n - k - m)))%nat by lia. rewrite !uload_app.
  assert (L : forall w j, length (uload f w j) = j) by (intros; unfold uload; by rewrite length_map, length_seq).
  rewrite drop_app_length' by (by rewrite L). by rewrite take_app_length' by (by rewrite L).
Qed.
Lemma supplies_user s i T va n : cur s = Some i -> uspace (mem s) T (pagetable (procs s !!! i)) ->
  0 <= va -> va + Z.of_nat n < 2 ^ 64 -> (forall a, in_range va (Z.of_nat n) a -> user_ok PTE_U (mem s) T a) ->
  supplies (Uaddr va) (uload (umem (mem s) T) va n) s.
Proof.
  intros Hc U Hva Hlt Hok k m s' Hk (Em & Ec & _ & Ep).
  assert (L : length (uload (umem (mem s) T) va n) = n) by (unfold uload; by rewrite length_map, length_seq). rewrite L in Hk.
  unfold either_copyin, kptr_add. rewrite u64_small by lia. unfold bind at 1. rewrite (myproc_deref_eval s' i) by congruence.
  unfold bind at 1, get_proc, gets. destruct (Ep i) as [-> _]. rewrite Nat2Z.id. unfold copyin.
  rewrite (copyin_loop_spec T); [|lia|by rewrite Em|lia|].
  - cbn [app]. by rewrite Em, uload_slice.
  - intros a Ha. rewrite Em. apply Hok. unfold in_range in *. lia.
Qed.

(** ** Writing *)

(** The number of blocks that [r] bytes from [off] on touch. *)
Definition nblocks (off r : Z) : Z := if r <=? 0 then 0 else (off + r - 1) / BSIZE - off / BSIZE + 1.

Lemma nblocks_step off r : 0 <= off -> 0 < r -> let m := Z.min r (BSIZE - off mod BSIZE) in
  0 < m <= r /\ off mod BSIZE + m <= BSIZE /\ (off mod BSIZE + m = BSIZE \/ m = r) /\
  nblocks off r = 1 + nblocks (off + m) (r - m) /\ 0 <= nblocks (off + m) (r - m).
Proof.
  intros Ho Hr m. unfold nblocks. change BSIZE with 1024 in *. subst m.
  destruct (Z.leb_spec r 0); [lia|].
  destruct (Z.leb_spec (r - Z.min r (1024 - off mod 1024)) 0); dlia.
Qed.

(** Blocks that change, and the inode not. *)
Lemma fstep_blocks me ip g ws bs s v bs' s1 : fctx me bs s ip -> txstep me ws bs s v bs' s1 ->
  (length bs' <= length bs + g)%nat -> fgrow (ksb s) (inode_blk s ip) (view s) (itable s !!! ip) v (itable s !!! ip) ->
  fstep me ip g bs s bs' s1.
Proof.
  intros C T Hg G. pose proof (fstep_intro me ip g ws bs s v bs' s1 (fun x => x) C T Hg) as F. cbv zeta in F.
  rewrite alter_id, set_itable_id in F by done. apply F; [|exact G].
  exists (i_addrs (itable s !!! ip)), (i_size (itable s !!! ip)). by destruct (itable s !!! ip).
Qed.

(** The bytes of the file after [data] is written at [off]. *)
Definition overlay (off : Z) (data : list Z) (f : Z -> Z) (k : Z) : Z :=
  if decide (off <= k < off + Z.of_nat (length data)) then nth (Z.to_nat (k - off)) data 0 else f k.

Lemma nth_splice (o : nat) (new l : list Z) (i : nat) : (o + length new <= length l)%nat ->
  nth i (splice o new l) 0 = if decide (o <= i < o + length new)%nat then nth (i - o) new 0 else nth i l 0.
Proof.
  intros H. rewrite !nth_lookup. case_decide.
  - by rewrite lookup_splice_in by lia.
  - by rewrite lookup_splice_out by lia.
Qed.

Lemma write_bytes v x bn a d off bs k : (forall j, 0 <= j < 268 * BSIZE -> fbyte (upd a d v) x j =
    if decide (j / BSIZE = bn) then nth (Z.to_nat (j mod BSIZE)) d 0 else fbyte v x j) ->
  blkmap v x bn = a -> a <> 0 -> bn = off / BSIZE -> 0 <= off -> off mod BSIZE + Z.of_nat (length bs) <= BSIZE ->
  length (v a) = Z.to_nat BSIZE -> d = splice (Z.to_nat (off mod BSIZE)) bs (v a) -> 0 <= k < 268 * BSIZE ->
  fbyte (upd a d v) x k = overlay off bs (fbyte v x) k.
Proof.
  intros H Hm Ha -> Ho Hle Hl -> Hk. rewrite H by done. unfold overlay. change BSIZE with 1024 in *. change (Z.to_nat 1024) with 1024%nat in Hl.
  case_decide as E.
  - rewrite nth_splice by (rewrite Hl; dlia). unfold fbyte. change BSIZE with 1024. rewrite E, Hm, (proj2 (Z.eqb_neq _ _) Ha).
    repeat case_decide; try dlia. f_equal. dlia.
  - rewrite decide_False; [done|]. intros Hr. apply E. dlia.
Qed.

(** The piece is put into the block that holds [off]. *)
Lemma write_piece_spec {A} me bs s ip a off piece (k : K A) Q : fctx me bs s ip -> room 1 bs s -> 0 <= off ->
  in_file (off / BSIZE) -> blkmap (view s) (itable s !!! ip) (off / BSIZE) = a -> a <> 0 ->
  off mod BSIZE + Z.of_nat (length piece) <= BSIZE ->
  (forall bs' s', fstep me ip 1 bs s bs' s' -> same_iblk ip s s' -> itable s' = itable s ->
     (forall k, 0 <= k < 268 * BSIZE -> fbyte (view s') (itable s' !!! ip) k =
        overlay off piece (fbyte (view s) (itable s !!! ip)) k) -> wp k Q s') ->
  forall i s1, reading me bs s a i s1 ->
  wp (set_data i (splice (Z.to_nat (off mod BSIZE)) piece (view s a));; log_write i;; brelse i;; k) Q s1.
Proof.
  intros C [R1 R2] Ho Hin Hm Ha Hle Hk i s1 Rd. set (x := itable s !!! ip) in *.
  assert (Hown : owns (view s) x a) by (rewrite <-Hm; apply owns_blkmap; [done|by rewrite Hm]).
  destruct (fo_used _ _ _ _ (fx_file _ _ _ _ C) a Hown) as (_ & _ & _ & Hni & Hlen).
  assert (Hul : locked s a = false) by (apply C; right; right; by left).
  set (d := splice (Z.to_nat (off mod BSIZE)) piece (view s a)).
  assert (Hld : length d = Z.to_nat BSIZE).
  { unfold d. rewrite length_splice; [done|]. rewrite Hlen. change BSIZE with 1024 in *. dlia. }
  destruct (grow_write (ksb s) (view s) (inode_blk s ip) x (off / BSIZE) d) as (G & _ & Hby);
    [apply C|apply C|done|by rewrite Hm|done|]. rewrite Hm in G, Hby.
  eapply tx_update_then; [apply C|exact Rd|done|lia|]. intros s' T.
  pose proof (length_logged a bs) as [_ Hlg]. destruct (txstep_same _ _ _ _ _ _ _ T) as (_ & Eit & _).
  eapply Hk; [eapply fstep_blocks; [done|exact T|exact Hlg|exact G]| |done|].
  { unfold same_iblk. rewrite (ts_view _ _ _ _ _ _ _ T). unfold upd. by rewrite decide_False by congruence. }
  intros j Hj. rewrite Eit. fold x. rewrite (fbyte_ext _ _ _ (ts_view _ _ _ _ _ _ _ T)).
  by apply (write_bytes (view s) x (off / BSIZE) a d off piece j Hby).
Qed.

Definition disk_full (s : kstate) : Prop :=
  forall c, 0 <= c < sb_size (ksb s) -> blk_free (ksb s) (view s) c = false.

(** [w] bytes of [data] have been written from [off] on; the rest found the disk full. *)
Definition wrote_bytes (me ip g : nat) (bs : list Z) (s : kstate) (off : Z) (data : list Z) (w : nat) (s' : kstate) : Prop :=
  (w <= length data)%nat /\ (exists bs', fstep me ip g bs s bs' s') /\ same_iblk ip s s' /\
  i_size (itable s' !!! ip) = i_size (itable s !!! ip) /\
  (forall k, 0 <= k < 268 * BSIZE -> fbyte (view s') (itable s' !!! ip) k =
     overlay off (take w data) (fbyte (view s) (itable s !!! ip)) k) /\
  ((w < length data)%nat -> disk_full s') /\
  (forall k, off <= k < off + Z.of_nat w -> blkmap (view s') (itable s' !!! ip) (k / BSIZE) <> 0).

Lemma overlay_nil off f k : overlay off [] f k = f k.
Proof. unfold overlay. rewrite decide_False; [done|]. cbn. lia. Qed.

Lemma overlay_app off d1 d2 f k :
  overlay (off + Z.of_nat (length d1)) d2 (overlay off d1 f) k = overlay off (d1 ++ d2) f k.
Proof.
  unfold overlay. rewrite length_app. repeat case_decide; try lia; try done.
  - rewrite app_nth2 by lia. f_equal. lia.
  - rewrite app_nth1 by lia. done.
Qed.
Lemma overlay_ext off d f g k : f k = g k -> overlay off d f k = overlay off d g k.
Proof. unfold overlay. by case_decide. Qed.

Lemma wrote_none me ip g bs s off data bs' s' : fstep me ip g bs s bs' s' -> same_iblk ip s s' ->
  i_size (itable s' !!! ip) = i_size (itable s !!! ip) ->
  (forall k, 0 <= k < 268 * BSIZE -> fbyte (view s') (itable s' !!! ip) k = fbyte (view s) (itable s !!! ip) k) ->
  (data <> [] -> disk_full s') -> wrote_bytes me ip g bs s off data 0 s'.
Proof.
  intros F Hi Hs Hb Hf. split; [lia|]. split; [by exists bs'|]. split; [done|]. split; [done|]. split.
  - intros k Hk. rewrite take_0, overlay_nil. by apply Hb.
  - split; [|lia]. intros Hl. apply Hf. intros ->. cbn in Hl. lia.
Qed.

Lemma wrote_more me ip g1 g2 bs s bs1 s1 off d1 d2 w s' : fstep me ip g1 bs s bs1 s1 -> same_iblk ip s s1 ->
  i_size (itable s1 !!! ip) = i_size (itable s !!! ip) ->
  (forall k, 0 <= k < 268 * BSIZE -> fbyte (view s1) (itable s1 !!! ip) k =
     overlay off d1 (fbyte (view s) (itable s !!! ip)) k) ->
  (forall k, off <= k < off + Z.of_nat (length d1) ->
     in_file (k / BSIZE) /\ blkmap (view s1) (itable s1 !!! ip) (k / BSIZE) <> 0) ->
  wrote_bytes me ip g2 bs1 s1 (off + Z.of_nat (length d1)) d2 w s' ->
  wrote_bytes me ip (g1 + g2) bs s off (d1 ++ d2) (length d1 + w) s'.
Proof.
  intros F Hi Hs Hb Hm (W1 & (bs' & F2) & W2 & W3 & W4 & W5 & W6). unfold wrote_bytes. rewrite length_app. split; [lia|].
  destruct (fstep_same _ _ _ _ _ _ _ F) as (_ & _ & _ & _ & Eib & _).
  split; [exists bs'; by eapply fstep_trans|]. split; [unfold same_iblk in *; congruence|]. split; [congruence|]. split; [|split; [intros; apply W5; lia|]].
  - intros k Hk. rewrite W4 by done. rewrite take_app_add. rewrite <-overlay_app. by apply overlay_ext, Hb.
  - intros k Hk. destruct (decide (k < off + Z.of_nat (length d1))) as [Hlt|Hge]; [|apply W6; lia].
    destruct (Hm k ltac:(lia)) as [Hin Hn]. by rewrite (fg_map _ _ _ _ _ _ (fs_grow _ _ _ _ _ _ _ F2)).
Qed.

Lemma writei_loop_spec me ip n N : forall bs s src off tot data fuel,
  fctx me bs s ip -> room (6 * N + 1) bs s -> nblocks off (n - tot) <= Z.of_nat N -> (N <= fuel)%nat ->
  0 <= tot -> n < 2 ^ 32 -> 0 <= off -> off + (n - tot) <= 268 * BSIZE -> n - tot = Z.of_nat (length data) ->
  supplies src data s -> kptr_add src 0 = src ->
  wp (writei_loop fuel ip src off n tot) (fun r s' => exists w,
    r = (tot + Z.of_nat w, off + Z.of_nat w) /\ wrote_bytes me ip (6 * N) bs s off data w s') s.
Proof.
  induction N as [|N IH]; intros bs s src off tot data fuel C R HN Hf Htot Hn32 Hoff Hmax Hlen Hsup Hptr.
  - assert (n - tot <= 0).
    { destruct (decide (n - tot <= 0)); [done|]. destruct (nblocks_step off (n - tot) Hoff ltac:(lia)) as (_ & _ & _ & E & ?). lia. }
    assert (data = []) as -> by (destruct data; [done|cbn in Hlen; lia]).
    destruct fuel; cbn [writei_loop]; (destruct (Z.ltb_spec tot n); [lia|]); apply wp_ret; exists 0%nat;
      (split; [f_equal; lia|]); (eapply wrote_none; [by apply fstep_refl|done|done|done|done]).
  - destruct fuel as [|fuel]; [lia|]. cbn [writei_loop]. destruct (Z.ltb_spec tot n) as [Hlt|Hge].
    2: { assert (data = []) as -> by (destruct data; [done|cbn in Hlen; lia]). apply wp_ret. exists 0%nat.
         split; [f_equal; lia|]. eapply wrote_none; [eapply fstep_weaken; [by apply fstep_refl|lia]|done|done|done|done]. }
    assert (Hin : in_file (off / BSIZE)) by (unfold in_file; change BSIZE with 1024 in *; dlia).
    destruct (nblocks_step off (n - tot) Hoff ltac:(lia)) as (Hm & Hmb & Hmc & Hnb & Hnb0).
    set (m := Z.min (n - tot) (BSIZE - off mod BSIZE)) in *. set (mn := Z.to_nat m).
    assert (Hmn : Z.of_nat mn = m) by (unfold mn; lia).
    apply wp_bind. eapply wp_mono; [apply bmap_spec; [done| |done]|].
    { destruct R. split; lia. }
    intros a s1 (bs1 & F1 & Hib & Hsz & Hby & Ha & H0 & _). pose proof (fstep_ctx _ _ _ _ _ _ _ C F1) as C1.
    assert (R1 : room (6 * N + 2) bs1 s1) by (eapply (room_step me ip 5); [|exact F1]; destruct R; split; lia).
    destruct (fstep_same _ _ _ _ _ _ _ F1) as (Esb & _ & _ & _ & _ & Edev).
    destruct (Z.eqb_spec a 0) as [Ea|Ea].
    { apply wp_ret. exists 0%nat. split; [f_equal; lia|]. eapply wrote_none; [eapply fstep_weaken; [exact F1|lia]|done|done|done|].
      intros _. unfold disk_full. rewrite Esb. by apply H0. }
    specialize (Ha Ea). pose proof (supplies_mono _ _ _ _ Hsup (fstep_user _ _ _ _ _ _ _ F1)) as Hsup1.
    apply wp_bind, wp_gets. rewrite (fx_dev _ _ _ _ C1). apply wp_bind.
    assert (Hown : owns (view s1) (itable s1 !!! ip) a) by (rewrite <-Ha; apply owns_blkmap; [done|by rewrite Ha]).
    eapply wp_mono; [apply tx_bread; [apply C1|]|].
    { split; [apply C1; right; right; by left|]. right. destruct R1. lia. }
    intros i s2 Rd. pose proof (rd_got _ _ _ _ _ _ Rd) as G. apply wp_bind, wp_gets. rewrite (got_data _ _ _ _ _ G).
    cbv zeta. fold m. apply wp_bind.
    assert (Hu2 : same_user s1 s2) by (rewrite (got_frame _ _ _ _ _ G); by split_and!).
    eapply wp_intro; [rewrite <-Hmn; apply (supplies_head _ data); [by eapply supplies_mono|lia|done]|].
    change (0 =? -1) with false. cbv iota.
    assert (Hlt' : length (take mn data) = mn) by (rewrite length_take; lia).
    eapply (write_piece_spec me bs1 s1 ip a off (take mn data)); [done|destruct R1; split; lia|done|done|done|done|by rewrite Hlt', Hmn| |exact Rd].
    intros bs3 s3 F3 Hib3 Eit3 Hb3. rewrite !u32_small by (change BSIZE with 1024 in *; lia).
    assert (F13 : fstep me ip 6 bs s bs3 s3) by (apply (fstep_trans me ip 5 1 _ _ _ _ _ _ F1 F3)).
    eapply wp_mono.
    + apply (IH bs3 s3 (kptr_add src m) (off + m) (tot + m) (drop mn data) fuel).
      * by eapply fstep_ctx.
      * eapply (room_step me ip 1); [|exact F3]. destruct R1. split; lia.
      * replace (n - (tot + m)) with (n - tot - m) by lia. lia.
      * lia.
      * lia.
      * lia.
      * lia.
      * lia.
      * rewrite length_drop. lia.
      * rewrite <-Hmn. apply supplies_drop; [lia|]. eapply supplies_mono; [exact Hsup|]. by eapply fstep_user.
      * rewrite kptr_add_add by lia. f_equal. lia.
    + intros r s' (w & -> & W). exists (mn + w)%nat. split; [f_equal; lia|].
      replace (6 * S N)%nat with (6 + 6 * N)%nat by lia.
      pose proof (wrote_more me ip 6 (6 * N) bs s bs3 s3 off (take mn data) (drop mn data) w s' F13) as Wm.
      rewrite take_drop, Hlt', Hmn in Wm. destruct (fstep_same _ _ _ _ _ _ _ F1) as (_ & _ & _ & _ & Eib & _).
      apply Wm; [unfold same_iblk in *; congruence|by rewrite Eit3| | |done].
      * intros k Hk. rewrite Hb3 by done. apply overlay_ext. by apply Hby.
      * intros k Hk. assert (Ek : k / BSIZE = off / BSIZE) by (change BSIZE with 1024 in *; dlia). rewrite Ek.
        split; [done|]. rewrite (fg_map _ _ _ _ _ _ (fs_grow _ _ _ _ _ _ _ F3)) by (done || by rewrite Ha). by rewrite Ha.
Qed.

Lemma set_size_eval ip o s :
  (x ← get_inode ip; when (i_size x <? o) (set_inode ip (fun x => {| x with i_size := o |}))) s =
  Ok tt (set_itable (alter (with_size (Z.max (i_size (itable s !!! ip)) o)) ip (itable s)) s).
Proof.
  unfold bind, get_inode, gets, when. destruct (Z.ltb_spec (i_size (itable s !!! ip)) o).
  - rewrite Z.max_r by lia. done.
  - rewrite Z.max_l by lia. rewrite alter_id; [by rewrite set_itable_id|]. intros x Hx.
    rewrite (list_lookup_total_correct _ _ _ Hx). by destruct x.
Qed.

(** The end of [writei]: the size and the inode. *)
Lemma inode_step me bs s ip z : let x' := with_size z (itable s !!! ip) in
  let s1 := set_itable (alter (with_size z) ip (itable s)) s in
  fctx me bs s ip -> room 1 bs s ->
  wp (iupdate ip) (fun _ s' => fstep me ip 1 bs s (logged (inode_blk s ip) bs) s' /\ itable s' !!! ip = x' /\
    view s' (inode_blk s ip) = put_dinode (di_off (i_inum x')) (dinode_of x') (view s (inode_blk s ip)) /\
    (forall k, 0 <= k < 268 * BSIZE -> fbyte (view s') x' k = fbyte (view s) (itable s !!! ip) k)) s1.
Proof.
  intros x' s1 C [R1 R2]. pose proof (fx_ip _ _ _ _ C) as Hip.
  assert (Hx1 : itable s1 !!! ip = x') by (cbn; by rewrite list_lookup_total_alter_eq).
  assert (Hul : locked s (inode_blk s ip) = false) by (apply C; by right; right; right).
  pose proof (iupdate_spec me bs s1 ip) as U. cbv zeta in U. rewrite Hx1 in U.
  eapply wp_mono; [apply U; [by apply tx_itable, C|apply C|split; [exact Hul|right; change (nused s1) with (nused s); lia]|lia]|].
  intros [] s' T. change (IBLOCK (i_inum x') (ksb s1)) with (inode_blk s ip) in T. change (view s1) with (view s) in T.
  set (d := put_dinode _ _ _) in T. destruct (txstep_same _ _ _ _ _ _ _ T) as (Esb & Eit & Eh & Ec).
  pose proof (ts_view _ _ _ _ _ _ _ T) as Hv. assert (Hx : itable s' !!! ip = x') by (by rewrite Eit).
  destruct (grow_inode (ksb s) (view s) (inode_blk s ip) (itable s !!! ip) z d (fx_meta _ _ _ _ C) (fx_file _ _ _ _ C)) as [G Hby].
  split; [split|split; [done|split]].
  - apply T.
  - apply T.
  - pose proof (length_logged (inode_blk s ip) bs). split; [apply T|lia].
  - apply T.
  - apply T.
  - destruct (ts_frame _ _ _ _ _ _ _ T) as (l & Fr). by exists l, (itable s1).
  - rewrite Eit. cbn [s1 itable set_itable]. rewrite length_alter. split; [done|]. intros j Hj.
    by rewrite list_lookup_total_alter_ne by congruence.
  - rewrite Hx. exists (i_addrs (itable s !!! ip)), z. done.
  - rewrite Hx. by eapply fgrow_ext; [exact Hv|].
  - rewrite Hv. unfold upd. by rewrite decide_True.
  - intros k Hk. rewrite (fbyte_ext _ _ _ Hv). by apply Hby.
Qed.

Lemma nblocks_fuel off n : 0 <= off -> 0 <= n -> 0 <= nblocks off n <= n / BSIZE + 2.
Proof. intros. unfold nblocks. change BSIZE with 1024. destruct (Z.leb_spec n 0); dlia. Qed.

(** ** Reading *)
Definition fbytes (v : Z -> list Z) (x : inode) (off : Z) (n : nat) : list Z :=
  map (fun i => fbyte v x (off + Z.of_nat i)) (seq 0 n).
Lemma fbytes_app v x off n k : fbytes v x off (n + k) = fbytes v x off n ++ fbytes v x (off + Z.of_nat n) k.
Proof.
  unfold fbytes. rewrite seq_app, map_app. f_equal. cbn. rewrite <-(Nat.add_0_r n) at 1.
  rewrite <-fmap_add_seq, map_map. apply map_ext. intros i. f_equal. lia.
Qed.

Lemma read_piece v x off m : 0 <= off -> blkmap v x (off / BSIZE) <> 0 ->
  length (v (blkmap v x (off / BSIZE))) = Z.to_nat BSIZE -> off mod BSIZE + Z.of_nat m <= BSIZE ->
  take m (drop (Z.to_nat (off mod BSIZE)) (v (blkmap v x (off / BSIZE)))) = fbytes v x off m.
Proof.
  intros Ho Hn Hl Hm. set (a := blkmap v x (off / BSIZE)) in *. change (Z.to_nat BSIZE) with 1024%nat in Hl.
  apply list_eq. intros i. unfold fbytes. rewrite list_lookup_fmap.
  destruct (decide (i < m)%nat) as [Hi|Hi].
  - rewrite lookup_take_lt, lookup_drop, lookup_seq_lt by done. cbn [fmap option_fmap option_map Nat.add].
    unfold fbyte. assert (E1 : (off + Z.of_nat i) / BSIZE = off / BSIZE) by (change BSIZE with 1024 in *; dlia).
    rewrite E1. fold a. rewrite (proj2 (Z.eqb_neq _ _) Hn).
    replace (Z.to_nat ((off + Z.of_nat i) mod BSIZE)) with (Z.to_nat (off mod BSIZE) + i)%nat by (change BSIZE with 1024 in *; dlia).
    rewrite nth_lookup, (list_lookup_lookup_total_lt (v a)); [done|]. rewrite Hl. change BSIZE with 1024 in *. dlia.
  - rewrite lookup_take_ge, lookup_seq_ge by lia. done.
Qed.

Lemma readi_loop_spec me ip n N : forall bs s l off tot acc fuel,
  fctx me bs s ip -> room 6 bs s -> nblocks off (n - tot) <= Z.of_nat N -> (N <= fuel)%nat ->
  0 <= tot <= n -> n < 2 ^ 32 -> 0 <= off -> off + (n - tot) <= 268 * BSIZE ->
  (forall k, off <= k < off + (n - tot) -> blkmap (view s) (itable s !!! ip) (k / BSIZE) <> 0) ->
  wp (readi_loop fuel ip (Klocal l) off n tot acc) (fun r s' =>
    r = (n, acc ++ fbytes (view s) (itable s !!! ip) off (Z.to_nat (n - tot))) /\
    fstep me ip 0 bs s bs s' /\ itable s' = itable s /\ forall b, view s' b = view s b) s.
Proof.
  induction N as [|N IH]; intros bs s l off tot acc fuel C R HN Hf Htot Hn32 Hoff Hmax Hmap.
  - assert (n - tot <= 0).
    { destruct (decide (n - tot <= 0)); [done|]. destruct (nblocks_step off (n - tot) Hoff ltac:(lia)) as (_ & _ & _ & E & ?). lia. }
    replace (Z.to_nat (n - tot)) with 0%nat by lia. rewrite app_nil_r.
    destruct fuel; cbn [readi_loop]; (destruct (Z.ltb_spec tot n); [lia|]); apply wp_ret;
      (split; [f_equal; lia|]); (split; [by apply fstep_refl|done]).
  - destruct fuel as [|fuel]; [lia|]. cbn [readi_loop]. destruct (Z.ltb_spec tot n) as [Hlt|Hge].
    2: { replace (Z.to_nat (n - tot)) with 0%nat by lia. rewrite app_nil_r. apply wp_ret.
         split; [f_equal; lia|]. split; [by apply fstep_refl|done]. }
    assert (Hin : in_file (off / BSIZE)) by (unfold in_file; change BSIZE with 1024 in *; dlia).
    destruct (nblocks_step off (n - tot) Hoff ltac:(lia)) as (Hm & Hmb & Hmc & Hnb & Hnb0).
    set (m := Z.min (n - tot) (BSIZE - off mod BSIZE)) in *. set (x := itable s !!! ip) in *.
    assert (Hbn : blkmap (view s) x (off / BSIZE) <> 0) by (apply Hmap; lia).
    apply wp_bind. eapply wp_mono; [by apply bmap_spec|].
    intros a s1 (bs1 & F1 & _ & _ & _ & _ & _ & Hsame). destruct (Hsame Hbn) as (Ea & -> & Eit & Hv). fold x in Ea.
    pose proof (fstep_ctx _ _ _ _ _ _ _ C F1) as C1.
    assert (R1 : room 1 bs s1) by (eapply (room_step me ip 5); [|exact F1]; destruct R; split; lia).
    destruct (Z.eqb_spec a 0); [congruence|].
    apply wp_bind, wp_gets. rewrite (fx_dev _ _ _ _ C1). apply wp_bind.
    assert (Hx1 : itable s1 !!! ip = x) by (by rewrite Eit).
    assert (Hown : owns (view s1) (itable s1 !!! ip) a).
    { rewrite Hx1. apply (owns_ext x (view s) (view s1) Hv). rewrite Ea. by apply owns_blkmap. }
    assert (Hul : locked s1 a = false) by (apply C1; right; right; by left).
    destruct (fo_used _ _ _ _ (fx_file _ _ _ _ C1) a Hown) as (_ & _ & _ & _ & Hlen).
    eapply wp_mono; [apply tx_bread; [apply C1|]|].
    { split; [done|]. right. destruct R1. lia. }
    intros i s2 Rd. pose proof (rd_got _ _ _ _ _ _ Rd) as G. apply wp_bind, wp_gets. rewrite (got_data _ _ _ _ _ G), Hv.
    cbv zeta. fold m. apply wp_bind, wp_ret. change (0 =? -1) with false. cbv iota. apply wp_bind.
    eapply wp_mono; [eapply tx_done; [apply C1|exact Rd|done]|]. intros [] s3 T.
    pose proof (fstep_read me ip _ bs s1 s3 C1 T) as F3. destruct (txstep_same _ _ _ _ _ _ _ T) as (_ & Eit3 & _).
    assert (Hv3 : forall b, view s3 b = view s b) by (intros b; by rewrite (ts_view _ _ _ _ _ _ _ T), Hv).
    assert (F13 : fstep me ip 0 bs s bs s3).
    { pose proof (fstep_trans _ _ _ _ _ _ _ _ _ _ F1 F3) as F. destruct F. split; try done. lia. }
    assert (C3 : fctx me bs s3 ip) by (by eapply fstep_ctx).
    rewrite Hv in Hlen. rewrite Ea in Hlen |- *.
    rewrite <-(Z2Nat.id m) at 1 by lia. cbn [kptr_add]. rewrite !u32_small by (change BSIZE with 1024 in *; lia).
    rewrite (read_piece (view s) x off (Z.to_nat m)) by (done || lia).
    eapply wp_mono.
    + apply (IH bs s3 _ (off + m) (tot + m)); [done| | |lia|lia|done|lia|lia|].
      * eapply (room_step me ip 0); [|exact F13]. exact R.
      * replace (n - (tot + m)) with (n - tot - m) by lia. lia.
      * intros k Hk. rewrite Eit3, Eit. fold x. rewrite (blkmap_ext x _ _ Hv3). apply Hmap. lia.
    + intros r s' (-> & F & Eit' & Hv'). split.
      * rewrite <-app_assoc. do 2 f_equal. rewrite Eit3, Eit. fold x.
        assert (Efb : forall o k, fbytes (view s3) x o k = fbytes (view s) x o k).
        { intros o k. unfold fbytes. apply map_ext. intros j. by apply fbyte_ext. }
        rewrite Efb. replace (Z.to_nat (n - tot)) with (Z.to_nat m + Z.to_nat (n - (tot + m)))%nat by lia.
        rewrite fbytes_app. by rewrite Z2Nat.id by lia.
      * split; [exact (fstep_trans _ _ _ _ _ _ _ _ _ _ F13 F)|]. split; [congruence|]. intros b. by rewrite Hv'.
Qed.

(** Every block below the file's size is there. *)
Definition no_holes (s : kstate) (ip : nat) : Prop :=
  forall k, 0 <= k < i_size (itable s !!! ip) -> blkmap (view s) (itable s !!! ip) (k / BSIZE) <> 0.

(** What a read of [n] bytes at [off] from a file of [size] bytes returns. *)
Definition read_count (size off n : Z) : Z := if size <? off then 0 else Z.min n (size - off).

Lemma readi_spec me bs s ip l off n : let x := itable s !!! ip in
  fctx me bs s ip -> room 6 bs s -> no_holes s ip -> i_size x <= 268 * BSIZE ->
  0 <= off -> 0 <= n -> off + n < 2 ^ 32 ->
  exists s', readi ip (Klocal l) off n s = Ok (read_count (i_size x) off n,
      fbytes (view s) x off (Z.to_nat (read_count (i_size x) off n))) s' /\
    fstep me ip 0 bs s bs s' /\ itable s' = itable s /\ forall b, view s' b = view s b.
Proof.
  intros x C R Hnh Hsz Ho Hn H32. unfold readi, read_count, bind at 1, get_inode, gets. fold x.
  destruct (Z.ltb_spec (i_size x) off) as [Hlt|Hge]; cbn [orb].
  { exists s. split; [done|]. split; [by apply fstep_refl|done]. }
  rewrite u32_small by lia. destruct (Z.ltb_spec (off + n) off); [lia|].
  set (n' := if i_size x <? off + n then i_size x - off else n).
  assert (En : n' = Z.min n (i_size x - off)) by (unfold n'; destruct (Z.ltb_spec (i_size x) (off + n)); lia).
  pose proof (nblocks_fuel off n' Ho ltac:(lia)) as Hfuel.
  destruct (wp_elim _ _ _ (readi_loop_spec me ip n' (Z.to_nat (nblocks off n')) bs s l off 0 [] (Z.to_nat (n' / BSIZE) + 2)
    C R ltac:(rewrite Z.sub_0_r; lia) ltac:(change BSIZE with 1024 in *; dlia) ltac:(lia) ltac:(lia) Ho
    ltac:(rewrite Z.sub_0_r; change BSIZE with 1024 in *; lia) ltac:(intros k Hk; apply Hnh; fold x; lia)))
    as (r & s' & E & -> & F & Hit & Hv).
  exists s'. rewrite E. cbn [app]. rewrite Z.sub_0_r. fold x. rewrite En. done.
Qed.

Definition shorts_ok (x : inode) : Prop :=
  short_ok (i_type x) /\ short_ok (i_major x) /\ short_ok (i_minor x) /\ short_ok (i_nlink x).

Lemma writei_spec me bs s ip src data off : let x := itable s !!! ip in let n := Z.of_nat (length data) in
  let N := Z.to_nat (nblocks off n) in
  fctx me bs s ip -> room (6 * N + 1) bs s -> 0 <= off <= i_size x -> off + n <= 268 * BSIZE ->
  supplies src data s -> kptr_add src 0 = src ->
  exists w s1 s' bs', writei ip src off n s = Ok (Z.of_nat w) s' /\ wrote_bytes me ip (6 * N) bs s off data w s1 /\
    fstep me ip (6 * N + 1) bs s bs' s' /\
    itable s' !!! ip = with_size (Z.max (i_size x) (off + Z.of_nat w)) (itable s1 !!! ip) /\
    view s' (inode_blk s ip) = put_dinode (di_off (i_inum x)) (dinode_of (itable s' !!! ip)) (view s (inode_blk s ip)) /\
    (forall k, 0 <= k < 268 * BSIZE -> fbyte (view s') (itable s' !!! ip) k = fbyte (view s1) (itable s1 !!! ip) k) /\
    (forall c, in_file c -> blkmap (view s1) (itable s1 !!! ip) c <> 0 -> blkmap (view s') (itable s' !!! ip) c <> 0) /\
    (disk_full s1 -> disk_full s').
Proof.
  intros x n N C R Hoff Hmax Hsup Hptr. pose proof (nblocks_fuel off n ltac:(lia) ltac:(lia)) as Hfuel.
  destruct (wp_elim _ _ _ (writei_loop_spec me ip n N bs s src off 0 data (Z.to_nat (n / BSIZE) + 2) C R
    ltac:(rewrite Z.sub_0_r; lia) ltac:(unfold N; change BSIZE with 1024 in *; dlia) ltac:(lia)
    ltac:(change BSIZE with 1024 in *; lia) ltac:(lia) ltac:(rewrite Z.sub_0_r; lia) ltac:(lia) Hsup Hptr))
    as (r & s1 & E1 & w & -> & W).
  pose proof W as (W1 & (bs1 & F1) & W3 & W4 & W5 & W6 & W7). rewrite Z.add_0_l in E1.
  pose proof (fstep_ctx _ _ _ _ _ _ _ C F1) as C1. pose proof (room_step _ _ _ 1 _ _ _ _ R F1) as R1.
  set (z := Z.max (i_size x) (off + Z.of_nat w)).
  assert (Ez : z = Z.max (i_size (itable s1 !!! ip)) (off + Z.of_nat w)) by (by rewrite W4).
  destruct (wp_elim _ _ _ (inode_step me bs1 s1 ip z C1 R1)) as ([] & s' & E2 & F2 & Hx' & Hd & Hb2).
  destruct (fstep_same _ _ _ _ _ _ _ F1) as (Esb & _ & _ & _ & Eib & _).
  assert (Einum : i_inum (itable s1 !!! ip) = i_inum x).
  { destruct (fs_node _ _ _ _ _ _ _ F1) as (al & zz & ->). done. }
  exists w, s1, s', (logged (inode_blk s1 ip) bs1). split; [|split; [done|split; [by eapply fstep_trans|]]].
  - unfold writei, bind at 1, get_inode at 1, gets at 1. fold x. destruct (Z.ltb_spec (i_size x) off); [lia|]. cbn [orb].
    rewrite u32_small by (change BSIZE with 1024 in *; lia). destruct (Z.ltb_spec (off + n) off); [lia|].
    change (MAXFILE * BSIZE) with (268 * BSIZE). destruct (Z.ltb_spec (268 * BSIZE) (off + n)); [lia|].
    unfold bind at 1. rewrite E1. pose proof (set_size_eval ip (off + Z.of_nat w) s1) as Es. rewrite <-Ez in Es.
    unfold bind at 1 in Es. unfold bind at 1. destruct (get_inode ip s1) as [x1 s1'| | |] eqn:Eg; try discriminate Es.
    unfold bind at 1. rewrite Es. unfold bind. by rewrite E2.
  - rewrite Hx'. split; [done|]. rewrite Eib in Hd. split; [|split; [done|split]].
    + rewrite Hd. cbn [with_size i_inum]. rewrite Einum. f_equal. exact W3.
    + intros c Hc Hn. rewrite <-Hx'. by rewrite (fg_map _ _ _ _ _ _ (fs_grow _ _ _ _ _ _ _ F2)).
    + unfold disk_full. destruct (fstep_same _ _ _ _ _ _ _ F2) as (-> & _). intros H c Hc.
      specialize (H c Hc). destruct (blk_free (ksb s1) (view s') c) eqn:Ef; [|done]. exfalso.
      pose proof (fg_rel _ _ _ _ _ _ (fs_grow _ _ _ _ _ _ _ F2) c (or_intror (or_introl (conj Hc Ef)))) as [Hr|[[_ Hr]|[Hr|Hr]]].
      * by apply (bm_self _ _ (mo_bm _ _ _ (fg_meta _ _ _ _ _ _ (fs_grow _ _ _ _ _ _ _ F2))) c Hc Ef).
      * congruence.
      * apply (fg_owns _ _ _ _ _ _ (fs_grow _ _ _ _ _ _ _ F2)) in Hr.
        destruct (fo_used _ _ _ _ (fg_file _ _ _ _ _ _ (fs_grow _ _ _ _ _ _ _ F2)) c Hr) as (_ & Hu & _). congruence.
      * subst c. destruct (mo_iblk _ _ _ (fg_meta _ _ _ _ _ _ (fs_grow _ _ _ _ _ _ _ F2))) as (_ & Hu & _). congruence.
Qed.

(** The file after a write: its bytes, its size and its blocks. *)
Lemma writei_result me bs s ip src data off : let x := itable s !!! ip in let n := Z.of_nat (length data) in
  let N := Z.to_nat (nblocks off n) in
  fctx me bs s ip -> room (6 * N + 1) bs s -> no_holes s ip ->
  0 <= off <= i_size x -> i_size x <= 268 * BSIZE -> off + n <= 268 * BSIZE ->
  supplies src data s -> kptr_add src 0 = src ->
  exists w s' bs', writei ip src off n s = Ok (Z.of_nat w) s' /\ (w <= length data)%nat /\
    ((w < length data)%nat -> disk_full s') /\ fstep me ip (6 * N + 1) bs s bs' s' /\ no_holes s' ip /\
    let x' := itable s' !!! ip in
    i_size x' = Z.max (i_size x) (off + Z.of_nat w) /\
    view s' (inode_blk s ip) = put_dinode (di_off (i_inum x)) (dinode_of x') (view s (inode_blk s ip)) /\
    (forall k, 0 <= k < 268 * BSIZE -> fbyte (view s') x' k = overlay off (take w data) (fbyte (view s) x) k).
Proof.
  intros x n N C R Hnh Hoff Hsz Hmax Hsup Hptr.
  destruct (writei_spec me bs s ip src data off C R Hoff Hmax Hsup Hptr)
    as (w & s1 & s' & bs' & E & (W1 & (bs1 & F1) & _ & W4 & W5 & W6 & W7) & F & Ex & Ed & Eb & Em & Ef).
  fold x n in E, F, Ex, Ed. pose proof (fs_grow _ _ _ _ _ _ _ F) as G. fold x in G.
  set (x' := itable s' !!! ip) in *. assert (Esz : i_size x' = Z.max (i_size x) (off + Z.of_nat w)) by (by rewrite Ex).
  exists w, s', bs'. split; [exact E|]. split; [done|]. split; [intros Hw; by apply Ef, W6|]. split; [done|].
  split; [|split; [done|split; [done|]]].
  - intros k Hk. fold x'. fold x' in Hk. rewrite Esz in Hk. destruct (decide (k < i_size x)) as [Hlt|Hge].
    + assert (Hc : in_file (k / BSIZE)) by (unfold in_file; change BSIZE with 1024 in *; dlia).
      specialize (Hnh k ltac:(fold x; lia)). by rewrite (fg_map _ _ _ _ _ _ G).
    + apply Em; [unfold in_file; change BSIZE with 1024 in *; dlia|]. apply W7. lia.
  - intros k Hk. rewrite Eb by done. by apply W5.
Qed.

(** C19: what is written to a file is read back.  [writei] of [data] at [off] writes the first
    [w] bytes, all of them unless the disk is full; afterwards the file's bytes are the old
    ones with those in place, its size has grown if need be, the inode on the disk is the one
    in memory, the other inodes of that block and every block that is not the file's, the
    bitmap's or the inode's are unchanged, and the file's new blocks were free before.  A later
    [readi] of any range returns exactly those bytes, cut at the file's size.  The source may
    be in the kernel or in the user memory of the calling process. *)
Theorem file_write_read (me : nat) (bs : list Z) (s : kstate) (ip : nat) (src : kptr) (data : list Z) (off : Z) :
  let x := itable s !!! ip in let sb := ksb s in let iblk := inode_blk s ip in
  let n := Z.of_nat (length data) in let N := Z.to_nat (nblocks off n) in
  fctx me bs s ip -> room (6 * N + 1) bs s -> no_holes s ip ->
  0 <= off <= i_size x -> i_size x <= MAXFILE * BSIZE -> off + n <= MAXFILE * BSIZE ->
  supplies src data s -> kptr_add src 0 = src ->
  shorts_ok x -> inum_ok sb (i_inum x) -> length (view s iblk) = Z.to_nat BSIZE ->
  exists (w : nat) s' bs', writei ip src off n s = Ok (Z.of_nat w) s' /\ (w <= length data)%nat /\
    ((w < length data)%nat -> disk_full s') /\ fctx me bs' s' ip /\ no_holes s' ip /\
    let x' := itable s' !!! ip in
    i_size x' = Z.max (i_size x) (off + Z.of_nat w) /\
    (forall inum, inum_ok sb inum -> IBLOCK inum sb = iblk ->
       inode_on sb (view s') inum = if decide (inum = i_inum x) then dinode_of x' else inode_on sb (view s) inum) /\
    (forall b, ~ is_bitmap sb b -> b <> iblk -> ~ owns (view s') x' b -> view s' b = view s b) /\
    (forall b, owns (view s') x' b -> owns (view s) x b \/ blk_free sb (view s) b = true) /\
    forall l off2 n2, room 6 bs' s' -> 0 <= off2 -> 0 <= n2 -> off2 + n2 < 2 ^ 32 ->
      let cnt := read_count (i_size x') off2 n2 in
      exists s'', readi ip (Klocal l) off2 n2 s' = Ok (cnt,
        map (fun i => overlay off (take w data) (fbyte (view s) x) (off2 + Z.of_nat i)) (seq 0 (Z.to_nat cnt))) s''.
Proof.
  intros x sb iblk n N C R Hnh Hoff Hsz Hmax Hsup Hptr Hsh Hin Hil.
  change (MAXFILE * BSIZE) with (268 * BSIZE) in Hsz, Hmax.
  destruct (writei_result me bs s ip src data off C R Hnh Hoff Hsz Hmax Hsup Hptr) as (w & s' & bs' & E & Hw & Hfull & F & Hnh' & Esz & Ed & Eb).
  fold x sb iblk n in E, F, Esz, Ed, Eb. pose proof (fstep_ctx _ _ _ _ _ _ _ C F) as C'.
  pose proof (fs_grow _ _ _ _ _ _ _ F) as G. fold x sb iblk in G. destruct (fstep_same _ _ _ _ _ _ _ F) as (Esb & _ & _ & _ & Eib & _).
  set (x' := itable s' !!! ip) in *.
  exists w, s', bs'. split; [exact E|]. split; [done|]. split; [done|]. split; [done|]. split; [done|].
  cbv zeta. fold x'. split; [done|]. split; [|split; [|split]].
  - intros inum Hi Hib. pose proof (fx_file _ _ _ _ C') as [Fl Fr _ _ _]. fold x' in Fl, Fr.
    destruct (fs_node _ _ _ _ _ _ _ F) as (al & zz & Hn). fold x x' in Hn.
    assert (Hok : dinode_ok (dinode_of x')).
    { destruct Hsh as (S1 & S2 & S3 & S4). split; cbn [dinode_of di_type di_major di_minor di_nlink di_size di_addrs];
        [by rewrite Hn..| |done|done]. rewrite Esz. change BSIZE with 1024 in *. lia. }
    rewrite <-(inode_on_upd sb (view s) (i_inum x) inum (dinode_of x')) by done.
    change (IBLOCK (i_inum x) sb) with iblk. unfold inode_on, upd. rewrite Hib, decide_True by done. by rewrite Ed.
  - apply G.
  - intros b Hb. destruct (fg_rel _ _ _ _ _ _ G b) as [Hr|[[_ Hr]|[Hr|Hr]]]; [by right; right; left| |by right|by left|];
      exfalso; destruct (fo_used _ _ _ _ (fg_file _ _ _ _ _ _ G) b Hb) as (_ & _ & D3 & D4 & _); done.
  - intros l off2 n2 R6 H1 H2 H3. destruct (readi_spec me bs' s' ip l off2 n2 C' R6 Hnh') as (s'' & Er & _); fold x'; try done.
    { rewrite Esz. change BSIZE with 1024 in *. lia. }
    exists s''. rewrite Er. fold x'. do 2 f_equal. unfold fbytes. apply map_ext_in. intros i [_ Hi]%in_seq.
    assert (Hk : 0 <= off2 + Z.of_nat i < 268 * BSIZE).
    { cbn in Hi. unfold read_count in Hi. revert Hi. destruct (Z.ltb_spec (i_size x') off2); [lia|].
      rewrite Esz. change BSIZE with 1024 in *. lia. }
    by apply Eb.
Qed.

(** ** An example: a file in the blocks 100, 101 and 102

    [fill] is what the blocks other than the bitmap hold. *)
Definition g_bitmap : list Z := replicate 16 255 ++ replicate 1008 0.
Definition ex_disk (fill : Z -> list Z) : Z -> list Z := fun x => if x =? 46 then g_bitmap else fill x.
Definition ex_inode (ty size : Z) : inode := {| {| (f_inode 1) with i_type := ty |} with i_size := size |}.
Definition ex_state (fill : Z -> list Z) (ty size : Z) : kstate :=
  set_itable (<[0%nat := ex_inode ty size]> (itable zero_state))
    (set_klog (mklogstate 2 1 0 ROOTDEV 0 (mklogheader 0 (replicate 30 0))) (demo (ex_disk fill))).

Section Example.
Context (fill : Z -> list Z) (Hfill : forall x, length (fill x) = 1024%nat) (ty size : Z).
Local Notation st := (ex_state fill ty size).
Local Notation node := (ex_inode ty size).

Lemma g_view x : view st x = ex_disk fill x.
Proof.
  destruct (binit_inv (demo (ex_disk fill))) as (_ & H & _); [reflexivity|].
  change (set_bcache_lru (reverse (seq 0 NBUF)) (demo (ex_disk fill))) with (demo (ex_disk fill)) in H. apply H.
Qed.
Lemma g_calm : bio_inv st /\ (forall x, locked st x = false) /\ nused st = 0%nat.
Proof.
  destruct (binit_inv (demo (ex_disk fill))) as (H1 & _ & _ & H2 & H3); [reflexivity|].
  change (set_bcache_lru (reverse (seq 0 NBUF)) (demo (ex_disk fill))) with (demo (ex_disk fill)) in *.
  split; [destruct H1; split; done|]. done.
Qed.
Lemma g_tx : tx 0 [] st.
Proof.
  destruct g_calm as (Hi & Hl & Hn). apply tx_itable. split.
  - destruct Hi. split; done.
  - eapply bio_ctx_frame; [apply (demo_ctx (ex_disk fill))|done..].
  - split; [done|]. split; [done|]. by exists (replicate 30 0).
  - done.
  - apply not_elem_of_nil.
  - by intros b ?%not_elem_of_nil.
  - intros b _. apply g_view.
Qed.
Lemma g_is_bitmap x : is_bitmap (ksb st) x <-> x = 46.
Proof.
  unfold is_bitmap. change (sb_bmapstart (ksb st)) with 46.
  change ((sb_size (ksb st) - 1) / BPB) with 0. lia.
Qed.
Lemma g_free b : blk_free (ksb st) (view st) b = blk_free (ksb st) (ex_disk fill) b.
Proof. apply blk_free_ext, g_view. Qed.
Lemma g_meta : meta_ok (ksb st) (view st) (inode_blk st 0).
Proof.
  split.
  - split; [cbn; lia|cbn; lia| |].
    + intros x ->%g_is_bitmap. by rewrite g_view.
    + intros b Hb Hf ->%g_is_bitmap. rewrite g_free in Hf. by vm_compute in Hf.
  - rewrite g_free. by vm_compute.
  - split; [vm_compute; split; [discriminate|reflexivity]|]. rewrite g_free. split; [by vm_compute|].
    rewrite g_is_bitmap. vm_compute. discriminate.
Qed.
Lemma g_map v bn : in_file bn -> blkmap v node bn =
  if bn =? 0 then 100 else if bn =? 1 then 101 else if bn =? 2 then 102 else 0.
Proof.
  intros H. unfold in_file in H. unfold blkmap. change (ind_blk node) with 0. cbn [Z.eqb].
  destruct (Z.ltb_spec bn 12) as [Hlt|]; [|by rewrite !(proj2 (Z.eqb_neq _ _)) by lia].
  assert (Hc : bn = 0 \/ bn = 1 \/ bn = 2 \/ bn = 3 \/ bn = 4 \/ bn = 5 \/ bn = 6 \/ bn = 7 \/ bn = 8 \/ bn = 9 \/ bn = 10 \/ bn = 11) by lia.
  repeat (destruct Hc as [->|Hc]; [reflexivity|]). by subst.
Qed.
Lemma g_owns v b : owns v node b -> b = 100 \/ b = 101 \/ b = 102.
Proof.
  intros [Hb [E|(bn & Hbn & E)]]; [done|]. rewrite g_map in E by done.
  destruct (bn =? 0), (bn =? 1), (bn =? 2); lia.
Qed.
Lemma g_fctx : fctx 0 [] st 0.
Proof.
  split; [apply g_tx|cbn; lia|reflexivity|apply g_meta| | |apply not_elem_of_nil].
  - change (itable st !!! 0%nat) with node. split.
    + reflexivity.
    + apply (dk_addrs _ (f_inode_ok 1)).
    + intros b Hb%g_owns. split; [change (sb_size (ksb st)) with 2000; lia|]. rewrite g_free, g_is_bitmap, g_view.
      destruct Hb as [->|[->| ->]]; (split; [by vm_compute|split; [done|split; [by vm_compute|apply Hfill]]]).
    + intros bn bn' H H'. rewrite !g_map by done.
      destruct (Z.eqb_spec bn 0), (Z.eqb_spec bn 1), (Z.eqb_spec bn 2), (Z.eqb_spec bn' 0), (Z.eqb_spec bn' 1), (Z.eqb_spec bn' 2); lia.
    + intros bn H Hn. change (ind_blk node) with 0. done.
  - intros b _. apply g_calm.
Qed.

(** Every block below the size is there. *)
Lemma g_no_holes : size <= 3 * BSIZE -> no_holes st 0.
Proof.
  intros Hs k Hk. change (itable st !!! 0%nat) with node in Hk |- *. cbn [ex_inode i_size] in Hk.
  assert (Hin : 0 <= k / 1024 <= 2) by (change BSIZE with 1024 in *; dlia). change BSIZE with 1024. rewrite g_map by (unfold in_file; lia).
  destruct (Z.eqb_spec (k / 1024) 0), (Z.eqb_spec (k / 1024) 1), (Z.eqb_spec (k / 1024) 2); lia.
Qed.
End Example.

Definition g_fill : Z -> list Z := fun _ => replicate 1024 7.
Definition g_state : kstate := ex_state g_fill T_FILE 3000.
Definition g_data : list Z := replicate 2000 9.

Lemma file_write_read_witness : exists w s' s'', writei 0 (Klocal g_data) 2500 2000 g_state = Ok (Z.of_nat w) s' /\
  i_size (itable s' !!! 0%nat) = 4500 /\ (w = 2000)%nat /\
  readi 0 (Klocal []) 2498 4 s' = Ok (4, [7; 7; 9; 9]) s''.
Proof.
  pose proof (file_write_read 0 [] g_state 0 (Klocal g_data) g_data 2500) as P. cbv zeta in P.
  change (itable g_state !!! 0%nat) with (f_inode 1) in P.
  destruct P as (w & s' & bs' & E & Hw & _ & C & _ & Hsz & _ & _ & _ & Hrd).
  - by apply g_fctx.
  - destruct (g_calm g_fill T_FILE 3000) as (_ & _ & Hn). split; [vm_compute; lia|]. unfold g_state. rewrite Hn. vm_compute. lia.
  - by apply g_no_holes.
  - cbn. lia.
  - vm_compute. discriminate.
  - vm_compute. discriminate.
  - apply supplies_local.
  - reflexivity.
  - unfold shorts_ok, short_ok. cbn. unfold T_FILE. lia.
  - split; cbn; lia.
  - unfold g_state. rewrite g_view. reflexivity.
  - assert (Hr : match writei 0 (Klocal g_data) 2500 2000 g_state with
      Ok x t => (x, nused t, lh_n (log_lh (klog t))) | _ => (0, 0%nat, 0) end = (2000, 5%nat, 5)) by (vm_compute; reflexivity).
    change (Z.of_nat (length g_data)) with 2000 in E. rewrite E in Hr. injection Hr as Hw2 Hn Hl.
    assert (w = 2000%nat) as -> by lia.
    destruct (tx_log _ _ _ (fx_tx _ _ _ _ C)) as (Hlen & _). rewrite Hl in Hlen.
    destruct (Hrd [] 2498 4) as (s'' & Er).
    + split; [lia|]. rewrite Hn. unfold NBUF. lia.
    + lia.
    + lia.
    + lia.
    + exists 2000%nat, s', s''. split; [exact E|]. split; [rewrite Hsz; reflexivity|]. split; [reflexivity|].
      rewrite Er, Hsz. change (i_size (f_inode 1) `max` (2500 + Z.of_nat 2000)) with 4500.
      change (read_count 4500 2498 4) with 4. change (Z.to_nat 4) with 4%nat. cbn [seq map].
      assert (Ho : forall k, overlay 2500 (take 2000 g_data) (fbyte (view g_state) (f_inode 1)) k =
        overlay 2500 g_data (fbyte (ex_disk g_fill) (f_inode 1)) k).
      { intros k. apply overlay_ext, fbyte_ext, g_view. }
      rewrite !Ho. reflexivity.
Defined.
