(* ===== verification/Fspath.v ===== *)
(** * Path names (the theory of kernel/fs.c: skipelem and namex) *)

From S2P Require Import Prelude Spinlock State Printk Kstring Kalloc Vm Sync Bio Log Fs.

(** ** The components of a path, by definition

    The pieces between slashes, the empty ones left out. *)
Definition nonempty (l : list Z) : bool := match l with [] => false | _ => true end.
Definition components (path : list Z) : list (list Z) := List.filter nonempty (split_on 47 path).

(** ** The components as [skipelem] finds them

    The names that a caller sees who calls [skipelem] until it answers 0. *)
Fixpoint path_names (fuel : nat) (path name : list Z) : option (list (list Z)) :=
  match skipelem path name with
  | None => Some []
  | Some (path', name') =>
      match fuel with
      | O => None
      | S fuel' => option_map (fun l => cstr 14 name' :: l) (path_names fuel' path' name')
      end
  end.

Lemma components_slash path : components (47 :: path) = components path.
Proof. done. Qed.

Lemma components_skip path : components (skip_slashes path) = components path.
Proof.
  induction path as [|c path IH]; [done|]. cbn [skip_slashes]. destruct (Z.eqb_spec c 47) as [->|]; [|done].
  by rewrite components_slash.
Qed.

Lemma skip_slashes_head path : skip_slashes path = [] \/ exists c l, skip_slashes path = c :: l /\ c <> 47.
Proof.
  induction path as [|c path IH]; [by left|]. cbn [skip_slashes]. destruct (Z.eqb_spec c 47); [done|].
  right. by exists c, path.
Qed.
Lemma skip_slashes_len path : (length (skip_slashes path) <= length path)%nat.
Proof. induction path as [|c path IH]; [done|]. cbn [skip_slashes]. destruct (c =? 47); cbn; lia. Qed.
Lemma skip_slashes_forall P path : Forall P path -> Forall P (skip_slashes path).
Proof.
  induction path as [|c path IH]; [done|]. intros H. cbn [skip_slashes]. destruct (c =? 47); [|done].
  apply IH. by apply Forall_cons in H as [_ ?].
Qed.

(** One element and the rest. *)
Lemma path_elem_spec path : let '(e, r) := path_elem path in
  path = e ++ r /\ split_on 47 path = match split_on 47 r with _ :: t => e :: t | [] => [e] end /\
  (r = [] \/ exists l, r = 47 :: l).
Proof.
  induction path as [|c path IH]; cbn [path_elem]; [split_and!; [done|done|by left]|].
  destruct (Z.eqb_spec c 47) as [->|Hc]; [split_and!; [done| |right; by exists path]|].
  - cbn [split_on Z.eqb Pos.eqb]. done.
  - destruct (path_elem path) as [e r]. destruct IH as (-> & H2 & H3). split_and!; [done| |done].
    cbn [app split_on]. rewrite (proj2 (Z.eqb_neq _ _) Hc), H2. by destruct (split_on 47 r).
Qed.

Lemma components_elem path e r : path_elem path = (e, r) -> e <> [] ->
  components path = e :: components (skip_slashes r).
Proof.
  intros E Hne. pose proof (path_elem_spec path) as H. rewrite E in H. destruct H as (_ & H2 & H3).
  rewrite components_skip. unfold components. rewrite H2.
  assert (Hn : nonempty e = true) by (by destruct e). destruct H3 as [->|(l & ->)].
  - cbn [split_on List.filter nonempty]. by rewrite Hn.
  - cbn [split_on Z.eqb Pos.eqb List.filter nonempty]. by rewrite Hn.
Qed.

Lemma path_elem_forall P path : Forall P path -> Forall P (path_elem path).1 /\ Forall P (path_elem path).2.
Proof.
  intros H. pose proof (path_elem_spec path) as E. destruct (path_elem path) as [e r]. destruct E as (-> & _).
  by apply Forall_app in H.
Qed.

(** The name buffer after one element. *)
Lemma cstr_full n l rest : Forall (fun c => c <> 0) l -> (n <= length l)%nat -> cstr n (l ++ rest) = take n l.
Proof.
  revert l. induction n as [|n IH]; intros l Hl Hn; [done|]. destruct l as [|c l]; [cbn in Hn; lia|].
  apply Forall_cons in Hl as [Hc Hl]. cbn [app]. rewrite cstr_hd_tl. cbn [hd tl]. destruct (Z.eqb_spec c 0); [done|].
  cbn [take]. f_equal. apply IH; [done|cbn in Hn; lia].
Qed.
Lemma cstr_short n l rest : Forall (fun c => c <> 0) l -> (length l < n)%nat -> cstr n (l ++ 0 :: rest) = l.
Proof.
  revert n. induction l as [|c l IH]; intros n Hl Hn; (destruct n as [|n]; [cbn in Hn; lia|]); cbn [app]; rewrite cstr_hd_tl; cbn [hd tl].
  - done.
  - apply Forall_cons in Hl as [Hc Hl]. destruct (Z.eqb_spec c 0); [done|]. f_equal. apply IH; [done|cbn in Hn; lia].
Qed.

Lemma skipelem_spec path name : Forall (fun c => c <> 0) path -> length name = 14%nat ->
  match skipelem path name with
  | None => components path = []
  | Some (path', name') => exists e, components path = e :: components path' /\ cstr 14 name' = take 14 e /\
      length name' = 14%nat /\ Forall (fun c => c <> 0) path' /\ (length path' < length path)%nat
  end.
Proof.
  intros Hp Hn. unfold skipelem. pose proof (skip_slashes_forall _ _ Hp) as Hp1. pose proof (skip_slashes_len path) as Hl1.
  rewrite <-components_skip. destruct (skip_slashes_head path) as [->|(c & l & E & Hc)]; [done|].
  rewrite E in *. destruct (path_elem (c :: l)) as [e r] eqn:Ee.
  pose proof (path_elem_forall _ _ Hp1) as [He Hr]. rewrite Ee in He, Hr. cbn [fst snd] in He, Hr.
  pose proof (path_elem_spec (c :: l)) as Hs. rewrite Ee in Hs. destruct Hs as (Hcat & _).
  assert (Hne : e <> []).
  { cbn [path_elem] in Ee. rewrite (proj2 (Z.eqb_neq _ _) Hc) in Ee. destruct (path_elem l). by injection Ee as <- _. }
  exists e. rewrite (components_elem _ _ _ Ee Hne). split; [done|].
  assert (Hlr : (length (skip_slashes r) < length path)%nat).
  { pose proof (skip_slashes_len r). apply (f_equal length) in Hcat. rewrite length_app in Hcat.
    destruct e; [done|]. cbn [length] in *. lia. }
  change DIRSIZ with 14. destruct (Z.leb_spec 14 (Z.of_nat (length e))) as [Hlong|Hshort].
  - change (Z.to_nat 14) with 14%nat. assert (Ht : length (take 14 e) = 14%nat) by (rewrite length_take; lia).
    assert (Es : splice 0 (take 14 e) name = take 14 e).
    { unfold splice. rewrite take_0, Ht. cbn [app Nat.add]. rewrite drop_ge by lia. by rewrite app_nil_r. }
    rewrite Es. split_and!; [|done|by apply skip_slashes_forall|done].
    pose proof (cstr_full 14 (take 14 e) [] (Forall_take _ _ _ He) ltac:(lia)) as Hc14. rewrite app_nil_r in Hc14.
    by rewrite Hc14, take_take.
  - assert (Hd : splice 0 (e ++ [0]) name = e ++ 0 :: drop (length e + 1) name).
    { unfold splice. rewrite take_0, length_app. cbn [app length Nat.add]. by rewrite <-app_assoc. }
    rewrite Hd. split_and!; [| |by apply skip_slashes_forall|done].
    + rewrite cstr_short by (done || lia). by rewrite take_ge by lia.
    + rewrite length_app. cbn [length]. rewrite length_drop. lia.
Qed.

Lemma path_names_spec fuel : forall path name, Forall (fun c => c <> 0) path -> length name = 14%nat ->
  (length path <= fuel)%nat -> path_names fuel path name = Some (map (take 14) (components path)).
Proof.
  induction fuel as [|fuel IH]; intros path name Hp Hn Hf; cbn [path_names];
    pose proof (skipelem_spec path name Hp Hn) as H; destruct (skipelem path name) as [[path' name']|].
  - destruct H as (_ & _ & _ & _ & _ & H). lia.
  - by rewrite H.
  - destruct H as (e & H1 & H2 & H3 & H4 & H5). rewrite (IH path' name') by (done || lia). cbn [option_map].
    by rewrite H1, H2.
  - by rewrite H.
Qed.

(** The fuel of [namex] is enough: more of it makes no difference. *)
Lemma namex_loop_fuel : forall fuel path np name ip s k, Forall (fun c => c <> 0) path -> length name = 14%nat ->
  (length path <= fuel)%nat -> namex_loop (fuel + k) path np name ip s = namex_loop fuel path np name ip s.
Proof.
  induction fuel as [|fuel IH]; intros path np name ip s k Hp Hn Hf;
    pose proof (skipelem_spec path name Hp Hn) as H.
  - destruct path; [|cbn in Hf; lia]. by destruct k.
  - cbn [Nat.add namex_loop]. destruct (skipelem path name) as [[path' name']|]; [|done].
    destruct H as (e & _ & _ & H3 & H4 & H5). apply bind_ext. intros [] s1. apply bind_ext. intros x s2.
    destruct (negb (i_type x =? T_DIR)); [done|]. destruct (np && bool_decide (path' = [])); [done|].
    apply bind_ext. intros [[nx o]|] s3; [|done]. apply bind_ext. intros [] s4. apply IH; [done|done|lia].
Qed.

(** C30: a path is resolved component by component.  Calling [skipelem] until it answers 0
    gives the non-empty pieces between slashes, in order, each cut to DIRSIZ characters, whatever
    was in the name buffer; and it comes to an end: the loop of [namex] makes at most as many
    rounds as the path has characters, so any more fuel gives the same result. *)
Theorem path_elements (path name : list Z) (np : bool) (ip : nat) (s : kstate) (k : nat) :
  Forall (fun c => c <> 0) path -> length name = 14%nat ->
  path_names (length path) path name = Some (map (take (Z.to_nat DIRSIZ)) (components path)) /\
  namex_loop (length path + k) path np name ip s = namex_loop (length path) path np name ip s.
Proof. intros Hp Hn. split; [by apply path_names_spec|by apply namex_loop_fuel]. Qed.

Lemma path_elements_witness :
  path_names 26 (str "//usr///a_rather_long_name") (replicate 14 0) = Some [str "usr"; str "a_rather_long_"].
Proof.
  destruct (path_elements (str "//usr///a_rather_long_name") (replicate 14 0) false 0 zero_state 0) as [H _].
  - repeat constructor; discriminate.
  - reflexivity.
  - exact H.
Defined.
