(* ===== verification/Fsdir.v ===== *)
(** * Directories (the theory of kernel/fs.c: dirlookup and dirlink)

    A directory is the list of its slots: an inode number, 0 when the slot is free, and a name.
    Looking a name up finds the first slot in use with that name. *)

From S2P Require Import Prelude Spinlock State Printk Kstring Kalloc Vm Pgtbl Sync Bio Log Fs Fsblk Fsinode Fsfile Fsrw.

(** ** Slots *)
Definition slot_of (de : list Z) : Z * list Z := (de_inum de, cstr 14 (de_name de)).
Definition dir_entry (v : Z -> list Z) (x : inode) (k : nat) : list Z := fbytes v x (Z.of_nat k * 16) 16.
Definition dir_slots (v : Z -> list Z) (x : inode) : list (Z * list Z) :=
  map (fun k => slot_of (dir_entry v x k)) (seq 0 (Z.to_nat (i_size x / 16))).

Definition is_named (name : list Z) (e : Z * list Z) : bool := bool_decide (e.1 <> 0 /\ e.2 = name).
Fixpoint dfind (name : list Z) (l : list (Z * list Z)) : option (nat * Z) :=
  match l with
  | [] => None
  | e :: l' => if is_named name e then Some (0%nat, e.1) else prod_map S id <$> dfind name l'
  end.
Definition dlook (name : list Z) (l : list (Z * list Z)) : option Z := snd <$> dfind name l.

(** The first free slot, or the one after the last; and an entry put there. *)
Fixpoint dfree (l : list (Z * list Z)) : nat :=
  match l with
  | [] => 0
  | e :: l' => if e.1 =? 0 then 0 else S (dfree l')
  end.
Definition dput (e : Z * list Z) (l : list (Z * list Z)) : list (Z * list Z) := take (dfree l) l ++ e :: drop (S (dfree l)) l.

Lemma dfree_le l : (dfree l <= length l)%nat.
Proof. induction l as [|e l IH]; cbn; [lia|]. destruct (e.1 =? 0); lia. Qed.

Lemma dlook_dput name i n l : i <> 0 -> dfind n l = None ->
  dlook name (dput (i, n) l) = if decide (name = n) then Some i else dlook name l.
Proof.
  intros Hi. unfold dlook, dput. induction l as [|e l IH]; intros Hn; cbn [dfree take drop app dfind].
  - unfold is_named. cbn. case_decide as E; [rewrite bool_decide_true by done|rewrite bool_decide_false by (intros [_ ?]; congruence)]; done.
  - cbn [dfind] in Hn. destruct (is_named n e) eqn:En; [done|]. destruct (dfind n l) eqn:Ed; [done|].
    destruct (Z.eqb_spec e.1 0) as [E0|E0]; cbn [take drop app dfind].
    + assert (Hf : is_named name e = false) by (apply bool_decide_eq_false; intros [? _]; done). rewrite Hf.
      unfold is_named at 1. cbn. case_decide as E; [rewrite bool_decide_true by done; done|].
      rewrite bool_decide_false by (intros [_ ?]; congruence). done.
    + destruct (is_named name e) eqn:Ee.
      * apply bool_decide_eq_true in Ee as [_ Ee]. rewrite decide_False; [done|]. intros ->.
        apply bool_decide_eq_false in En. by apply En.
      * specialize (IH eq_refl). rewrite <-!option_fmap_compose. cbn in IH.
        destruct (dfind name (take (dfree l) l ++ (i, n) :: drop (S (dfree l)) l)) as [[k j]|]; cbn in *.
        -- rewrite IH. by destruct (dfind name l) as [[]|].
        -- rewrite IH. by destruct (dfind name l) as [[]|].
Qed.

(** ** A directory that can be read *)
Record dctx (me : nat) (bs : list Z) (s : kstate) (dp : nat) : Prop := {
  dx_file : fctx me bs s dp;
  dx_holes : no_holes s dp;
  dx_size : 0 <= i_size (itable s !!! dp) <= 268 * BSIZE;
  dx_align : i_size (itable s !!! dp) mod 16 = 0;
  dx_type : i_type (itable s !!! dp) = T_DIR;
  dx_bytes : forall k, 0 <= k < i_size (itable s !!! dp) -> 0 <= fbyte (view s) (itable s !!! dp) k < 256;
  dx_lock : L_itable ∉ held s
}.

(** From [s] to [s'] the directory was only read. *)
Record only_read (me dp : nat) (bs : list Z) (s s' : kstate) : Prop := {
  or_step : fstep me dp 0 bs s bs s';
  or_table : itable s' = itable s;
  or_view : forall b, view s' b = view s b
}.
Lemma only_read_refl me dp bs s : fctx me bs s dp -> only_read me dp bs s s.
Proof. intros C. split; [by apply fstep_refl|done|done]. Qed.
Lemma only_read_trans me dp bs s1 s2 s3 : only_read me dp bs s1 s2 -> only_read me dp bs s2 s3 -> only_read me dp bs s1 s3.
Proof.
  intros [A1 A2 A3] [B1 B2 B3]. split; [exact (fstep_trans _ _ _ _ _ _ _ _ _ _ A1 B1)|congruence|]. intros b. by rewrite B3.
Qed.
Lemma only_read_slots me dp bs s s' : only_read me dp bs s s' ->
  dir_slots (view s') (itable s' !!! dp) = dir_slots (view s) (itable s !!! dp) /\
  forall k, dir_entry (view s') (itable s' !!! dp) k = dir_entry (view s) (itable s !!! dp) k.
Proof.
  intros [_ Ht Hv]. rewrite Ht. assert (He : forall k, dir_entry (view s') (itable s !!! dp) k = dir_entry (view s) (itable s !!! dp) k).
  { intros k. unfold dir_entry, fbytes. apply map_ext. intros i. by apply fbyte_ext. }
  split; [|done]. unfold dir_slots. apply map_ext. intros k. by rewrite He.
Qed.
Lemma only_read_ctx me dp bs s s' : dctx me bs s dp -> only_read me dp bs s s' -> dctx me bs s' dp.
Proof.
  intros [C1 C2 C3 C4 C5 C6 C7] O. pose proof O as [F Ht Hv]. split; rewrite ?Ht; try done.
  - by eapply fstep_ctx.
  - intros k Hk. rewrite Ht in *. rewrite (blkmap_ext _ _ _ Hv). by apply C2.
  - intros k Hk. rewrite (fbyte_ext _ _ _ Hv). by apply C6.
  - by destruct (fstep_same _ _ _ _ _ _ _ F) as (_ & -> & _).
Qed.

Lemma room_read me dp k bs s s' : room k bs s -> only_read me dp bs s s' -> room k bs s'.
Proof. intros R [F _ _]. apply (room_step me dp 0 k bs s bs s'); [by rewrite Nat.add_0_l|exact F]. Qed.

(** One entry of a directory. *)
Lemma read_entry me bs s dp k : dctx me bs s dp -> room 6 bs s -> Z.of_nat k < i_size (itable s !!! dp) / 16 ->
  exists s', readi dp (Klocal []) (Z.of_nat k * 16) 16 s = Ok (16, dir_entry (view s) (itable s !!! dp) k) s' /\
    only_read me dp bs s s'.
Proof.
  intros C R Hk. pose proof (dx_size _ _ _ _ C) as Hsz. pose proof (dx_align _ _ _ _ C) as Hal.
  destruct (readi_spec me bs s dp [] (Z.of_nat k * 16) 16 (dx_file _ _ _ _ C) R (dx_holes _ _ _ _ C)) as (s' & E & F & Ht & Hv);
    [apply Hsz|lia|lia|change BSIZE with 1024 in *; dlia|].
  assert (Ec : read_count (i_size (itable s !!! dp)) (Z.of_nat k * 16) 16 = 16).
  { unfold read_count. destruct (Z.ltb_spec (i_size (itable s !!! dp)) (Z.of_nat k * 16)); [dlia|]. dlia. }
  rewrite Ec in E. exists s'. split; [exact E|]. by split.
Qed.

Lemma dir_offsets_eq size : 0 <= size -> size mod 16 = 0 ->
  dir_offsets size = map (fun k => Z.of_nat k * 16) (seq 0 (Z.to_nat (size / 16))).
Proof.
  intros Hs Ha. unfold dir_offsets. change DIRENT_SIZE with 16. replace ((size + 16 - 1) / 16) with (size / 16) by dlia. done.
Qed.

Lemma length_dir_entry v x k : length (dir_entry v x k) = 16%nat.
Proof. unfold dir_entry, fbytes. by rewrite length_map, length_seq. Qed.
Lemma bytes_dir_entry me bs s dp k : dctx me bs s dp -> Z.of_nat k < i_size (itable s !!! dp) / 16 ->
  bytes (dir_entry (view s) (itable s !!! dp) k).
Proof.
  intros C Hk. pose proof (dx_align _ _ _ _ C) as Hal. unfold bytes. apply Forall_forall. intros b Hb. unfold dir_entry, fbytes in Hb.
  apply list_elem_of_fmap in Hb as (i & -> & Hi). apply elem_of_seq in Hi. apply (dx_bytes _ _ _ _ C). dlia.
Qed.

(** The test of [dirlookup] on an entry is the test on its slot. *)
Lemma slot_test name de : bytes name -> bytes de ->
  is_named (cstr 14 name) (slot_of de) = negb (de_inum de =? 0) && (namecmp name (de_name de) =? 0).
Proof.
  intros Hn Hd. unfold is_named, slot_of. cbn [fst snd]. assert (Hs : strncmp name (de_name de) 14 = 0 <-> cstr 14 name = cstr 14 (de_name de)).
  { apply strncmp_cstr; [done|]. unfold de_name. by apply Forall_drop. }
  unfold namecmp. change (Z.to_nat DIRSIZ) with 14%nat. destruct (Z.eqb_spec (de_inum de) 0); cbn [negb andb].
  - apply bool_decide_eq_false. by intros [? _].
  - destruct (Z.eqb_spec (strncmp name (de_name de) 14) 0) as [E|E].
    + apply bool_decide_eq_true. split; [done|]. symmetry. by apply Hs.
    + apply bool_decide_eq_false. intros [_ E']. apply E, Hs. by symmetry.
Qed.

(** What [dirlookup] does once the slot is known. *)
Definition looked_up (dev : Z) (o : option (nat * Z)) : K (option (nat * Z)) :=
  match o with
  | None => ret None
  | Some (k, inum) => ip ← iget dev inum; ret (Some (ip, Z.of_nat k * 16))
  end.

Lemma drop_slots v x k : (k < Z.to_nat (i_size x / 16))%nat ->
  drop k (dir_slots v x) = slot_of (dir_entry v x k) :: drop (S k) (dir_slots v x).
Proof.
  intros Hk. unfold dir_slots. apply drop_S. rewrite list_lookup_fmap, lookup_seq_lt by done. done.
Qed.
Lemma length_slots v x : length (dir_slots v x) = Z.to_nat (i_size x / 16).
Proof. unfold dir_slots. by rewrite length_map, length_seq. Qed.

(** One turn of the loop of [dirlookup]. *)
Definition lookup_turn (dp : nat) (name : list Z) (off : Z) : K (option (nat * Z)) :=
  '(r, de) ← readi dp (Klocal []) off DIRENT_SIZE;
  panic_if (negb (r =? DIRENT_SIZE)) "dirlookup read";;
  if de_inum de =? 0 then ret None
  else if namecmp name (de_name de) =? 0 then
    ip ← iget ROOTDEV (de_inum de);
    ret (Some (ip, off))
  else ret None.
Lemma lookup_turn_eval dp name off de s s' : readi dp (Klocal []) off 16 s = Ok (16, de) s' -> bytes name -> bytes de ->
  lookup_turn dp name off s =
  (if is_named (cstr 14 name) (slot_of de) then ip ← iget ROOTDEV (de_inum de); ret (Some (ip, off)) else ret None) s'.
Proof.
  intros E Hn Hd. rewrite slot_test by done. unfold lookup_turn. change DIRENT_SIZE with 16. unfold bind at 1. rewrite E.
  cbn [Z.eqb Pos.eqb negb panic_if]. unfold bind at 1, ret at 1. by destruct (de_inum de =? 0), (namecmp name (de_name de) =? 0).
Qed.

Lemma lookup_shift dev k (o : option (nat * Z)) s :
  looked_up dev (prod_map (Nat.add (S k)) id <$> o) s = looked_up dev (prod_map (Nat.add k) id <$> (prod_map S id <$> o)) s.
Proof. destruct o as [[j i]|]; [|done]. cbn. by rewrite Nat.add_succ_r. Qed.

Lemma lookup_scan me bs s dp name m k0 s1 : dctx me bs s dp -> room 6 bs s -> bytes name -> let x := itable s !!! dp in
  (k0 + m = Z.to_nat (i_size x / 16))%nat -> only_read me dp bs s s1 ->
  exists s', only_read me dp bs s s' /\ mfind (map (fun k => Z.of_nat k * 16) (seq k0 m)) (lookup_turn dp name) s1 =
    looked_up ROOTDEV (prod_map (Nat.add k0) id <$> dfind (cstr 14 name) (drop k0 (dir_slots (view s) x))) s'.
Proof.
  intros C R Hn x. revert k0 s1. induction m as [|m IH]; intros k0 s1 Hk O.
  { exists s1. split; [done|]. cbn [seq map mfind]. rewrite drop_ge by (rewrite length_slots; lia). done. }
  cbn [seq map mfind]. pose proof (only_read_ctx _ _ _ _ _ C O) as C1. pose proof (or_table _ _ _ _ _ O) as Ht.
  destruct (read_entry me bs s1 dp k0 C1 (room_read _ _ _ _ _ _ R O)) as (s2 & E & O2); [rewrite Ht; fold x; lia|].
  destruct (only_read_slots _ _ _ _ _ O) as [_ He]. rewrite He in E. fold x in E.
  pose proof (only_read_trans _ _ _ _ _ _ O O2) as O12.
  assert (Hb : bytes (dir_entry (view s) x k0)) by (apply (bytes_dir_entry me bs s dp k0 C); fold x; lia).
  rewrite drop_slots by lia. cbn [dfind]. unfold bind at 1. rewrite (lookup_turn_eval _ _ _ _ _ _ E Hn Hb).
  destruct (is_named (cstr 14 name) (slot_of (dir_entry (view s) x k0))).
  - exists s2. split; [done|]. cbn [fmap option_fmap option_map prod_map fst snd looked_up slot_of id]. rewrite Nat.add_0_r.
    unfold bind. by destruct (iget ROOTDEV (de_inum (dir_entry (view s) x k0)) s2).
  - cbn [ret]. destruct (IH (S k0) s2 ltac:(lia) O12) as (s' & O' & E'). exists s'. split; [done|]. rewrite E'. apply lookup_shift.
Qed.

Lemma dirlookup_spec me bs s dp name : dctx me bs s dp -> room 6 bs s -> bytes name ->
  exists s', only_read me dp bs s s' /\
    dirlookup dp name s = looked_up ROOTDEV (dfind (cstr 14 name) (dir_slots (view s) (itable s !!! dp))) s'.
Proof.
  intros C R Hn. pose proof (dx_size _ _ _ _ C) as Hsz. pose proof (dx_align _ _ _ _ C) as Hal.
  destruct (lookup_scan me bs s dp name (Z.to_nat (i_size (itable s !!! dp) / 16)) 0 s C R Hn eq_refl
    (only_read_refl _ _ _ _ (dx_file _ _ _ _ C))) as (s' & O' & E').
  exists s'. split; [done|]. unfold dirlookup, bind at 1, get_inode, gets. rewrite (dx_type _ _ _ _ C).
  change (negb (T_DIR =? T_DIR)) with false. cbn [panic_if]. unfold bind at 1, ret at 1. rewrite dir_offsets_eq by (done || lia).
  rewrite (fx_dev _ _ _ _ (dx_file _ _ _ _ C)). unfold lookup_turn in E'. rewrite E'. cbn [drop].
  by destruct (dfind (cstr 14 name) _) as [[j i]|].
Qed.

(** ** The inode table: iget, and iput right after it *)
Definition more_ref (x : inode) : inode := {| x with i_ref := i_ref x + 1 |}.
Definition less_ref (x : inode) : inode := {| x with i_ref := i_ref x - 1 |}.
Definition taken (dev inum : Z) (x : inode) : inode :=
  {| {| {| {| x with i_dev := dev |} with i_inum := inum |} with i_ref := 1 |} with i_valid := 0 |}.

Lemma iget_scan_spec dev inum l i0 e : match iget_scan dev inum l i0 e with
  | (Some i, _) => exists x, (i0 <= i)%nat /\ l !! (i - i0)%nat = Some x /\ 0 < i_ref x /\ i_dev x = dev /\ i_inum x = inum
  | (None, Some i) => e = Some i \/ exists x, e = None /\ (i0 <= i)%nat /\ l !! (i - i0)%nat = Some x /\ i_ref x = 0
  | (None, None) => e = None /\ Forall (fun x => i_ref x <> 0) l
  end.
Proof.
  revert i0 e. induction l as [|x l IH]; intros i0 e; cbn [iget_scan].
  { destruct e; [by left|done]. }
  destruct ((0 <? i_ref x) && (i_dev x =? dev) && (i_inum x =? inum)) eqn:E.
  { apply andb_true_iff in E as [[E1%Z.ltb_lt E2%Z.eqb_eq]%andb_true_iff E3%Z.eqb_eq]. exists x. rewrite Nat.sub_diag. done. }
  specialize (IH (S i0) (match e with None => if i_ref x =? 0 then Some i0 else None | Some _ => e end)).
  destruct (iget_scan dev inum l (S i0) _) as [[i|] o].
  - destruct IH as (y & Hi & Hy & H). exists y. split; [lia|]. by replace (i - i0)%nat with (S (i - S i0)) by lia.
  - destruct o as [i|].
    + destruct IH as [He|(y & He & Hi & Hy & H)].
      * destruct e as [e|]; [by left|]. destruct (Z.eqb_spec (i_ref x) 0) as [E0|E0]; [|done]. injection He as <-.
        right. exists x. by rewrite Nat.sub_diag.
      * destruct e as [e|]; [done|]. right. exists y. split; [done|]. split; [lia|]. by replace (i - i0)%nat with (S (i - S i0)) by lia.
    + destruct IH as [He HF]. destruct e as [e|]; [done|]. destruct (Z.eqb_spec (i_ref x) 0); [done|]. split; [done|]. by constructor.
Qed.

(** The slot that [iget] answers, and the table afterwards. *)
Definition got (dev inum : Z) (t : list inode) (i : nat) (t' : list inode) : Prop :=
  exists x, t !! i = Some x /\
    ((0 < i_ref x /\ i_dev x = dev /\ i_inum x = inum /\ t' = alter more_ref i t) \/
     (i_ref x = 0 /\ t' = alter (taken dev inum) i t)).
Definition table_room (s : kstate) : Prop := exists x, x ∈ itable s /\ i_ref x = 0.

Lemma iget_spec dev inum s : L_itable ∉ held s -> table_room s ->
  exists i t', iget dev inum s = Ok i (set_itable t' s) /\ got dev inum (itable s) i t'.
Proof.
  intros Hl (y & Hy & Hy0). pose proof (iget_scan_spec dev inum (itable s) 0 None) as Hs.
  unfold iget, bind at 1. rewrite acquire_eval by done. unfold bind at 1, gets at 1. cbn [itable set_held].
  destruct (iget_scan dev inum (itable s) 0 None) as [[i|] [e|]].
  1,2: destruct Hs as (x & _ & Hx & H1 & H2 & H3); rewrite Nat.sub_0_r in Hx; exists i, (alter more_ref i (itable s));
    (split; [|exists x; split; [done|]; by left]).
  1,2: unfold bind at 1, set_inode, modify; unfold bind at 1; erewrite release_eval by reflexivity; by destruct s.
  - destruct Hs as [?|(x & _ & _ & Hx & H1)]; [done|]. rewrite Nat.sub_0_r in Hx. exists e, (alter (taken dev inum) e (itable s)).
    split; [|exists x; split; [done|]; by right].
    unfold set_inode, modify. unfold bind at 1. unfold bind at 1. unfold bind at 1. unfold bind at 1. unfold bind at 1.
    erewrite release_eval by reflexivity. unfold ret.
    assert (Ht : alter (taken dev inum) e (itable s) = alter (fun x => {| x with i_valid := 0 |}) e (alter (fun x => {| x with i_ref := 1 |}) e
      (alter (fun x => {| x with i_inum := inum |}) e (alter (fun x => {| x with i_dev := dev |}) e (itable s))))) by by rewrite !list_alter_alter_eq.
    rewrite Ht. clear. destruct s. reflexivity.
  - exfalso. destruct Hs as [_ HF]. eapply Forall_forall in HF; done.
Qed.

Lemma iput_spec ip s : L_itable ∉ held s -> (i_ref (itable s !!! ip) <> 1 \/ i_valid (itable s !!! ip) = 0) ->
  iput ip s = Ok tt (set_itable (alter less_ref ip (itable s)) s).
Proof.
  intros Hl Hr. unfold iput, bind at 1. rewrite acquire_eval by done. unfold bind at 1, get_inode, gets.
  assert (Hc : (i_ref (itable (set_held (L_itable :: held s) s) !!! ip) =? 1) &&
    negb (i_valid (itable (set_held (L_itable :: held s) s) !!! ip) =? 0) &&
    (i_nlink (itable (set_held (L_itable :: held s) s) !!! ip) =? 0) = false).
  { cbn [itable set_held]. destruct Hr as [Hr|Hr]; [by rewrite (proj2 (Z.eqb_neq _ _) Hr)|]. rewrite Hr. by rewrite andb_false_r. }
  rewrite Hc. cbn [when]. unfold bind at 1, ret at 1. unfold bind at 1, set_inode, modify.
  erewrite release_eval by reflexivity. by destruct s.
Qed.

(** ** Adding an entry *)
Definition link_turn (dp : nat) (off : Z) : K (option Z) :=
  '(r, de) ← readi dp (Klocal []) off DIRENT_SIZE;
  panic_if (negb (r =? DIRENT_SIZE)) "dirlink read";;
  ret (if de_inum de =? 0 then Some off else None).

Lemma link_scan me bs s dp m k0 s1 : dctx me bs s dp -> room 6 bs s -> let x := itable s !!! dp in
  (k0 + m = Z.to_nat (i_size x / 16))%nat -> only_read me dp bs s s1 ->
  let j := dfree (drop k0 (dir_slots (view s) x)) in
  exists s', only_read me dp bs s s' /\ mfind (map (fun k => Z.of_nat k * 16) (seq k0 m)) (link_turn dp) s1 =
    Ok (if (j <? m)%nat then Some (Z.of_nat (k0 + j) * 16) else None) s'.
Proof.
  intros C R x. revert k0 s1. induction m as [|m IH]; intros k0 s1 Hk O j.
  { exists s1. split; [done|]. by destruct (Nat.ltb_spec j 0); [lia|]. }
  cbn [seq map mfind]. pose proof (only_read_ctx _ _ _ _ _ C O) as C1. pose proof (or_table _ _ _ _ _ O) as Ht.
  destruct (read_entry me bs s1 dp k0 C1 (room_read _ _ _ _ _ _ R O)) as (s2 & E & O2); [rewrite Ht; fold x; lia|].
  destruct (only_read_slots _ _ _ _ _ O) as [_ He]. rewrite He in E. fold x in E.
  pose proof (only_read_trans _ _ _ _ _ _ O O2) as O12. subst j. rewrite drop_slots by lia. cbn [dfree slot_of fst].
  unfold bind at 1. unfold link_turn at 1. change DIRENT_SIZE with 16. unfold bind at 1. rewrite E.
  cbn [Z.eqb Pos.eqb negb panic_if]. unfold bind at 1, ret at 1. destruct (de_inum (dir_entry (view s) x k0) =? 0); cbn [ret].
  - exists s2. split; [done|]. rewrite Nat.add_0_r. done.
  - destruct (IH (S k0) s2 ltac:(lia) O12) as (s' & O' & E'). exists s'. split; [done|]. rewrite E'. cbv zeta.
    set (j := dfree (drop (S k0) (dir_slots (view s) x))). change (S j <? S m)%nat with (j <? m)%nat. by rewrite Nat.add_succ_r.
Qed.

Definition dirent_bytes (inum : Z) (name : list Z) : list Z := le_bytes 2 inum ++ strncpy (replicate 14 0) name 14.
Lemma length_dirent_bytes inum name : length (dirent_bytes inum name) = 16%nat.
Proof.
  unfold dirent_bytes. rewrite length_app, length_le_bytes.
  assert (H : forall n s t, length (strncpy s t n) = length s); [|by rewrite H].
  induction n as [|n IH]; intros s t; [by destruct s|]. destruct s as [|c s]; [done|]. cbn [strncpy length].
  destruct (negb _); [by rewrite IH|]. f_equal. revert s. clear. induction n as [|n IH]; intros s; [by destruct s|].
  destruct s; [done|]. cbn [pad0 length]. by rewrite IH.
Qed.
Lemma slot_of_dirent inum name : 0 <= inum < 2 ^ 16 -> slot_of (dirent_bytes inum name) = (inum, cstr 14 name).
Proof.
  intros Hi. unfold slot_of, dirent_bytes. f_equal.
  - unfold de_inum. rewrite get_le_head. by rewrite Z.mod_small.
  - unfold de_name. change (le_bytes 2 inum) with [inum mod 256; inum / 256 mod 256]. cbn [app drop]. by apply cstr_strncpy.
Qed.

Lemma lookup_dput e l j : dput e l !! j = if decide (j = dfree l) then Some e else l !! j.
Proof.
  unfold dput. pose proof (dfree_le l) as Hk. set (k := dfree l) in *. case_decide as E.
  - subst j. rewrite lookup_app_r; rewrite length_take; [|lia]. by replace (k - k `min` length l)%nat with 0%nat by lia.
  - destruct (decide (j < k)%nat).
    + rewrite lookup_app_l by (rewrite length_take; lia). by rewrite lookup_take_lt.
    + rewrite lookup_app_r; rewrite length_take; [|lia]. replace (j - k `min` length l)%nat with (S (j - S k)) by lia.
      change ((e :: drop (S k) l) !! S (j - S k)) with (drop (S k) l !! (j - S k)%nat). rewrite lookup_drop. f_equal. lia.
Qed.

(** The slots after 16 bytes were written over the first free one. *)
Lemma slots_written v x v' x' inum name : let l := dir_slots v x in let off := Z.of_nat (dfree l) * 16 in
  0 <= inum < 2 ^ 16 -> 0 <= i_size x <= 268 * BSIZE -> i_size x mod 16 = 0 -> off + 16 <= 268 * BSIZE ->
  i_size x' = Z.max (i_size x) (off + 16) ->
  (forall k, 0 <= k < 268 * BSIZE -> fbyte v' x' k = overlay off (dirent_bytes inum name) (fbyte v x) k) ->
  dir_slots v' x' = dput (inum, cstr 14 name) l.
Proof.
  intros l off Hi Hsz Hal Hoff Hx' Hb. pose proof (dfree_le l) as Hk. unfold l in Hk. rewrite length_slots in Hk. fold l in Hk.
  assert (Hn : Z.to_nat (i_size x' / 16) = Nat.max (Z.to_nat (i_size x / 16)) (S (dfree l))) by (rewrite Hx'; unfold off; dlia).
  apply list_eq. intros j. rewrite lookup_dput. unfold dir_slots at 1. rewrite list_lookup_fmap, Hn.
  assert (Hent : (j < Nat.max (Z.to_nat (i_size x / 16)) (S (dfree l)))%nat -> dir_entry v' x' j =
    if decide (j = dfree l) then dirent_bytes inum name else dir_entry v x j).
  { intros Hj. apply list_eq. intros i. destruct (decide (i < 16)%nat) as [Hlt|Hge].
    2: { rewrite !lookup_ge_None_2; [done|case_decide; rewrite ?length_dirent_bytes, ?length_dir_entry; lia|rewrite length_dir_entry; lia]. }
    unfold dir_entry at 1, fbytes. rewrite list_lookup_fmap, lookup_seq_lt by done. cbn [fmap option_fmap option_map Nat.add].
    rewrite Hb by (unfold off in Hoff; change BSIZE with 1024 in *; dlia). unfold overlay. rewrite length_dirent_bytes. unfold off.
    destruct (decide (j = dfree l)) as [Ej|Ej].
    - rewrite Ej. rewrite decide_True by lia. replace (Z.to_nat (Z.of_nat (dfree l) * 16 + Z.of_nat i - Z.of_nat (dfree l) * 16)) with i by lia.
      rewrite nth_lookup. destruct (lookup_lt_is_Some_2 (dirent_bytes inum name) i) as [b E]; [rewrite length_dirent_bytes; lia|]. by rewrite E.
    - rewrite decide_False by lia. unfold dir_entry, fbytes. rewrite list_lookup_fmap, lookup_seq_lt by done. done. }
  destruct (decide (j < Nat.max (Z.to_nat (i_size x / 16)) (S (dfree l)))%nat) as [Hj|Hj].
  - rewrite lookup_seq_lt by done. cbn [fmap option_fmap option_map Nat.add]. rewrite Hent by done. case_decide as E.
    + by rewrite slot_of_dirent.
    + unfold l at 1, dir_slots. rewrite list_lookup_fmap, lookup_seq_lt by lia. done.
  - rewrite lookup_seq_ge by lia. case_decide; [lia|]. rewrite lookup_ge_None_2; [done|]. unfold l. rewrite length_slots. lia.
Qed.

(** ** What the operations answer *)

(** [dirlookup] answers an entry of the inode table with a reference for the inode of the slot. *)
Definition finds (dp : nat) (name : list Z) (s : kstate) (o : option Z) : Prop :=
  match o with
  | None => exists s', dirlookup dp name s = Ok None s' /\ forall b, view s' b = view s b
  | Some inum => exists ip off s', dirlookup dp name s = Ok (Some (ip, off)) s' /\ (forall b, view s' b = view s b) /\
      i_dev (itable s' !!! ip) = ROOTDEV /\ i_inum (itable s' !!! ip) = inum /\ 1 <= i_ref (itable s' !!! ip)
  end.

Lemma got_entry dev inum t i t' : got dev inum t i t' ->
  i_dev (t' !!! i) = dev /\ i_inum (t' !!! i) = inum /\ 1 <= i_ref (t' !!! i) /\
  (i_ref (t' !!! i) <> 1 \/ i_valid (t' !!! i) = 0).
Proof.
  intros (x & Hx & H). pose proof (lookup_lt_Some _ _ _ Hx) as Hi. apply list_lookup_total_correct in Hx.
  destruct H as [(H1 & H2 & H3 & ->)|[H1 ->]]; rewrite list_lookup_total_alter_eq by done; rewrite Hx; cbn; [|auto 6 with lia].
  split; [done|]. split; [done|]. split; [lia|]. left. lia.
Qed.

Lemma room_only_read me dp bs s s' : table_room s -> only_read me dp bs s s' -> table_room s'.
Proof. intros (x & Hx & H0) O. exists x. by rewrite (or_table _ _ _ _ _ O). Qed.

Lemma dirlookup_result me bs s dp name : dctx me bs s dp -> room 6 bs s -> bytes name -> table_room s ->
  finds dp name s (dlook (cstr 14 name) (dir_slots (view s) (itable s !!! dp))).
Proof.
  intros C R Hn Ht. destruct (dirlookup_spec me bs s dp name C R Hn) as (s1 & O & E). unfold dlook.
  destruct (dfind (cstr 14 name) _) as [[k i]|]; cbn [fmap option_fmap option_map snd finds looked_up] in *.
  - destruct (iget_spec ROOTDEV i s1) as (ip & t' & Eg & G).
    + by destruct (fstep_same _ _ _ _ _ _ _ (or_step _ _ _ _ _ O)) as (_ & -> & _); apply C.
    + by eapply room_only_read.
    + exists ip, (Z.of_nat k * 16), (set_itable t' s1). rewrite E. unfold bind. rewrite Eg. split; [done|].
      split; [intros b; apply (or_view _ _ _ _ _ O)|]. cbn [itable set_itable]. destruct (got_entry _ _ _ _ _ G) as (H1 & H2 & H3 & _). done.
  - exists s1. split; [exact E|apply O].
Qed.

(** The entry exists: the reference that was taken is given back. *)
Lemma dirlink_exists me bs s dp name inum : dctx me bs s dp -> room 6 bs s -> bytes name -> table_room s ->
  dfind (cstr 14 name) (dir_slots (view s) (itable s !!! dp)) <> None ->
  exists s', dirlink dp name inum s = Ok (-1) s' /\ (forall b, view s' b = view s b) /\
    forall j, i_ref (itable s' !!! j) = i_ref (itable s !!! j).
Proof.
  intros C R Hn Ht Hf. destruct (dirlookup_spec me bs s dp name C R Hn) as (s1 & O & E).
  destruct (dfind (cstr 14 name) _) as [[k i]|]; [|done]. cbn [looked_up] in E.
  assert (Hh : L_itable ∉ held s1) by (by destruct (fstep_same _ _ _ _ _ _ _ (or_step _ _ _ _ _ O)) as (_ & -> & _); apply C).
  destruct (iget_spec ROOTDEV i s1 Hh) as (ip & t' & Eg & G); [by eapply room_only_read|].
  destruct (got_entry _ _ _ _ _ G) as (_ & _ & _ & Hput).
  exists (set_itable (alter less_ref ip t') (set_itable t' s1)). split; [|split].
  - unfold dirlink, bind at 1. rewrite E. unfold bind at 1. rewrite Eg. cbn [ret]. unfold bind at 1. by rewrite iput_spec.
  - intros b. apply (or_view _ _ _ _ _ O).
  - intros j. cbn [itable set_itable]. rewrite <-(or_table _ _ _ _ _ O). destruct G as (x & Hx & G).
    pose proof (lookup_lt_Some _ _ _ Hx) as Hi. apply list_lookup_total_correct in Hx.
    destruct (decide (j = ip)) as [->|Hj].
    + destruct G as [(H1 & H2 & H3 & ->)|[H1 ->]]; rewrite !list_lookup_total_alter_eq by (by rewrite ?length_alter); rewrite Hx; cbn; lia.
    + destruct G as [(H1 & H2 & H3 & ->)|[H1 ->]]; by rewrite !list_lookup_total_alter_ne.
Qed.

Lemma nblocks_16 off : 0 <= off -> off mod 16 = 0 -> nblocks off 16 = 1.
Proof. intros H0 Ha. unfold nblocks. cbn [Z.leb Z.compare]. change BSIZE with 1024. dlia. Qed.

Lemma supplies_dirent inum name s : supplies (Klocal (dirent_bytes inum name)) (dirent_bytes inum name) s.
Proof. apply supplies_local. Qed.

(** [dirlink] up to the write, when the name is not there. *)
Lemma dirlink_write me bs s dp name inum : dctx me bs s dp -> room 6 bs s -> bytes name ->
  let l := dir_slots (view s) (itable s !!! dp) in dfind (cstr 14 name) l = None ->
  exists s1, only_read me dp bs s s1 /\
    dirlink dp name inum s =
    (w ← writei dp (Klocal (dirent_bytes inum name)) (Z.of_nat (dfree l) * 16) 16;
     if negb (w =? 16) then ret (-1) else ret 0) s1.
Proof.
  intros C R Hn l Hf. destruct (dirlookup_spec me bs s dp name C R Hn) as (s0 & O0 & E0). fold l in E0. rewrite Hf in E0.
  pose proof (dx_size _ _ _ _ C) as Hsz. pose proof (dx_align _ _ _ _ C) as Hal.
  destruct (link_scan me bs s dp (Z.to_nat (i_size (itable s !!! dp) / 16)) 0 s0 C R eq_refl O0) as (s1 & O1 & E1).
  fold l in E1. rewrite drop_0, Nat.add_0_l in E1. exists s1. split; [done|]. unfold dirlink, bind at 1. rewrite E0. cbn [looked_up ret].
  unfold bind at 1, get_inode, gets. rewrite (or_table _ _ _ _ _ O0), dir_offsets_eq by (done || lia).
  unfold bind at 1. unfold link_turn in E1. rewrite E1. rewrite length_map, length_seq.
  pose proof (dfree_le l) as Hk. unfold l in Hk at 2. rewrite length_slots in Hk.
  destruct (Nat.ltb_spec (dfree l) (Z.to_nat (i_size (itable s !!! dp) / 16))) as [Hlt|Hge]; cbn [default from_option id]; [reflexivity|].
  by replace (Z.to_nat (i_size (itable s !!! dp) / 16)) with (dfree l) by lia.
Qed.

(** The directory after the write. *)
Lemma dctx_written me bs s dp bs' s' g data off : dctx me bs s dp -> fstep me dp g bs s bs' s' -> no_holes s' dp ->
  0 <= off -> off mod 16 = 0 -> length data = 16%nat -> bytes data -> off + 16 <= 268 * BSIZE ->
  i_size (itable s' !!! dp) = Z.max (i_size (itable s !!! dp)) (off + 16) ->
  (forall k, 0 <= k < 268 * BSIZE -> fbyte (view s') (itable s' !!! dp) k = overlay off data (fbyte (view s) (itable s !!! dp)) k) ->
  off <= i_size (itable s !!! dp) -> dctx me bs' s' dp.
Proof.
  intros C F Hnh Ho Ha Hlen Hd Hmax Hsz Hb Hle. pose proof (dx_size _ _ _ _ C) as Hs. pose proof (dx_align _ _ _ _ C) as Hal.
  destruct (fs_node _ _ _ _ _ _ _ F) as (al & z & Hnode).
  split; [eapply fstep_ctx; [apply C|exact F]|done|rewrite Hsz; lia|rewrite Hsz; dlia|rewrite Hnode; exact (dx_type _ _ _ _ C)| |].
  - intros k Hk. rewrite Hsz in Hk. rewrite Hb by lia. unfold overlay. rewrite Hlen. case_decide as E; [|apply (dx_bytes _ _ _ _ C); lia].
    assert (Hi : (Z.to_nat (k - off) < length data)%nat) by lia. eapply Forall_forall in Hd; [exact Hd|].
    rewrite nth_lookup. destruct (lookup_lt_is_Some_2 _ _ Hi) as [b Eb]. rewrite Eb. by eapply list_elem_of_lookup_2.
  - destruct (fstep_same _ _ _ _ _ _ _ F) as (_ & -> & _). exact (dx_lock _ _ _ _ C).
Qed.

Lemma table_room_step me dp g bs s bs' s' : fstep me dp g bs s bs' s' -> table_room s -> table_room s'.
Proof.
  intros F (y & Hy & H0). apply list_elem_of_lookup in Hy as [j Hj]. destruct (fs_other _ _ _ _ _ _ _ F) as [Hl Ho].
  pose proof (lookup_lt_Some _ _ _ Hj) as Hlt. rewrite <-Hl in Hlt. destruct (lookup_lt_is_Some_2 _ _ Hlt) as [y' Hy'].
  exists y'. split; [by eapply list_elem_of_lookup_2|]. apply list_lookup_total_correct in Hj, Hy'.
  destruct (decide (j = dp)) as [->|Hne].
  - destruct (fs_node _ _ _ _ _ _ _ F) as (al & z & Hn). rewrite Hy' in Hn. rewrite Hn, Hj. exact H0.
  - rewrite Ho in Hy' by done. congruence.
Qed.

Lemma bytes_dirent inum name : 0 <= inum -> bytes name -> bytes (dirent_bytes inum name).
Proof.
  intros Hi Hn. unfold dirent_bytes. apply Forall_app. split.
  - apply Forall_forall. intros b Hb. by eapply le_bytes_range.
  - apply bytes_strncpy; [|done]. apply Forall_replicate. lia.
Qed.

(** C20: a directory is a map from names to inodes.  [dirlookup] answers an entry of the inode
    table, with a reference, for the inode of the first slot in use with the name (of which 14
    characters count), or that there is none, and changes no block.  [dirlink] of a name that is
    there fails and changes neither the blocks nor the reference counts; of a name that is not
    there, it writes the first free slot, or a new one at the end, and afterwards the name is
    found with the new inode and every other name as before, unless the disk is full. *)
Theorem dir_link_lookup (me : nat) (bs : list Z) (s : kstate) (dp : nat) (name : list Z) (inum : Z) :
  let l := dir_slots (view s) (itable s !!! dp) in
  dctx me bs s dp -> room 13 bs s -> table_room s -> bytes name -> 0 < inum < 2 ^ 16 ->
  Z.of_nat (dfree l) * 16 + 16 <= MAXFILE * BSIZE ->
  (forall name2, bytes name2 -> finds dp name2 s (dlook (cstr 14 name2) l)) /\
  (dfind (cstr 14 name) l <> None ->
     exists s', dirlink dp name inum s = Ok (-1) s' /\ (forall b, view s' b = view s b) /\
       forall j, i_ref (itable s' !!! j) = i_ref (itable s !!! j)) /\
  (dfind (cstr 14 name) l = None ->
     exists r s', dirlink dp name inum s = Ok r s' /\
       ((r = -1 /\ disk_full s') \/
        (r = 0 /\ dir_slots (view s') (itable s' !!! dp) = dput (inum, cstr 14 name) l /\
         forall name2, bytes name2 -> finds dp name2 s'
           (if decide (cstr 14 name2 = cstr 14 name) then Some inum else dlook (cstr 14 name2) l)))).
Proof.
  intros l C R Ht Hn Hi Hmax. change (MAXFILE * BSIZE) with (268 * BSIZE) in Hmax.
  assert (R6 : room 6 bs s) by (destruct R; split; lia).
  split; [intros name2 Hn2; by eapply dirlookup_result|]. split; [by eapply dirlink_exists|]. intros Hf.
  destruct (dirlink_write me bs s dp name inum C R6 Hn Hf) as (s1 & O & E). fold l in E.
  pose proof (only_read_ctx _ _ _ _ _ C O) as C1. pose proof (room_read _ _ _ _ _ _ R O) as R1.
  destruct (only_read_slots _ _ _ _ _ O) as [El _]. pose proof (or_table _ _ _ _ _ O) as Et.
  pose proof (dx_size _ _ _ _ C1) as Hsz. pose proof (dx_align _ _ _ _ C1) as Hal.
  assert (Hle : 0 <= Z.of_nat (dfree l) * 16 <= i_size (itable s1 !!! dp)).
  { pose proof (dfree_le l) as Hk. unfold l in Hk at 2. rewrite length_slots, <-Et in Hk. dlia. }
  pose proof (nblocks_16 (Z.of_nat (dfree l) * 16) ltac:(lia) ltac:(dlia)) as Hnb.
  destruct (writei_result me bs s1 dp (Klocal (dirent_bytes inum name)) (dirent_bytes inum name) (Z.of_nat (dfree l) * 16))
    as (w & s' & bs' & Ew & Hw & Hfull & F & Hnh & Hsz' & _ & Hb);
    rewrite ?length_dirent_bytes; change (Z.of_nat 16) with 16; rewrite ?Hnb; [apply C1| |apply C1|done|lia|done|apply supplies_local|done|].
  { destruct R1. split; cbn; lia. }
  rewrite length_dirent_bytes in Ew, Hw, Hfull, F. change (Z.of_nat 16) with 16 in Ew, F. rewrite Hnb in F.
  change (6 * Z.to_nat 1 + 1)%nat with 7%nat in F.
  exists (if negb (Z.of_nat w =? 16) then -1 else 0), s'. split.
  { rewrite E. unfold bind. rewrite Ew. by destruct (negb (Z.of_nat w =? 16)). }
  destruct (Z.eqb_spec (Z.of_nat w) 16) as [Hw16|Hw16]; cbn [negb]; [right|left; split; [done|apply Hfull; lia]].
  assert (w = 16%nat) as -> by lia. rewrite take_ge in Hb by (by rewrite length_dirent_bytes). change (Z.of_nat 16) with 16 in Hsz'.
  assert (Es : dir_slots (view s') (itable s' !!! dp) = dput (inum, cstr 14 name) l).
  { pose proof (slots_written (view s1) (itable s1 !!! dp) (view s') (itable s' !!! dp) inum name) as P. cbv zeta in P.
    rewrite El in P. fold l in P. apply P; (done || lia). }
  split; [done|]. split; [exact Es|]. intros name2 Hn2. rewrite <-dlook_dput by (done || lia). rewrite <-Es.
  eapply dirlookup_result; [|apply (room_step me dp 7 6 bs s1 bs' s'); [done|exact F]|done|].
  - eapply (dctx_written me bs s1 dp bs' s' 7 (dirent_bytes inum name) (Z.of_nat (dfree l) * 16)); try done; try lia.
    + dlia.
    + by rewrite length_dirent_bytes.
    + apply bytes_dirent; [lia|done].
  - eapply table_room_step; [exact F|]. by eapply room_only_read.
Qed.

(** ** An example: a directory of four slots, the third of them free *)
Definition d_entries : list Z :=
  dirent_bytes 1 (str ".") ++ dirent_bytes 1 (str "..") ++ dirent_bytes 0 (str "old") ++ dirent_bytes 5 (str "a").
Definition d_fill : Z -> list Z := fun x => if x =? 100 then d_entries ++ replicate 960 0 else replicate 1024 7.
Definition d_state : kstate := ex_state d_fill T_DIR 64.
Definition d_slots : list (Z * list Z) := [(1, str "."); (1, str ".."); (0, str "old"); (5, str "a")].

Lemma d_fill_len x : length (d_fill x) = 1024%nat.
Proof. unfold d_fill. destruct (x =? 100); vm_compute; reflexivity. Qed.
Lemma d_byte k : fbyte (view d_state) (ex_inode T_DIR 64) k = fbyte (ex_disk d_fill) (ex_inode T_DIR 64) k.
Proof. apply fbyte_ext, g_view. Qed.
Lemma d_dctx : dctx 0 [] d_state 0.
Proof.
  assert (Hx : itable d_state !!! 0%nat = ex_inode T_DIR 64) by reflexivity.
  split; rewrite ?Hx; [apply g_fctx, d_fill_len|by apply g_no_holes|by cbn; change BSIZE with 1024; lia|done|done| |apply not_elem_of_nil].
  intros k Hk. rewrite d_byte. cbn [ex_inode i_size] in Hk. assert (Hall : Forall (fun k => 0 <= fbyte (ex_disk d_fill) (ex_inode T_DIR 64) (Z.of_nat k) < 256) (seq 0 64)).
  { apply (bool_decide_unpack (Forall _ _)). vm_compute. reflexivity. }
  assert (Hin : Z.to_nat k ∈ seq 0 64) by (apply elem_of_seq; lia). pose proof (proj1 (Forall_forall _ _) Hall _ Hin) as H1.
  cbv beta in H1. by rewrite Z2Nat.id in H1 by lia.
Qed.
Lemma d_slots_eq : dir_slots (view d_state) (itable d_state !!! 0%nat) = d_slots.
Proof.
  transitivity (dir_slots (ex_disk d_fill) (ex_inode T_DIR 64)); [|vm_compute; reflexivity].
  change (itable d_state !!! 0%nat) with (ex_inode T_DIR 64). apply map_ext. intros k. apply f_equal.
  unfold dir_entry, fbytes. apply map_ext. intros i. apply d_byte.
Qed.

Lemma dir_link_lookup_witness :
  finds 0 (str "a") d_state (Some 5) /\
  exists s', dirlink 0 (str "new") 7 d_state = Ok 0 s' /\
    dir_slots (view s') (itable s' !!! 0%nat) = [(1, str "."); (1, str ".."); (7, str "new"); (5, str "a")] /\
    finds 0 (str "new") s' (Some 7) /\ finds 0 (str "old") s' None.
Proof.
  pose proof (dir_link_lookup 0 [] d_state 0 (str "new") 7) as P. cbv zeta in P. rewrite d_slots_eq in P.
  destruct P as (P1 & _ & P3).
  - exact d_dctx.
  - destruct (g_calm d_fill T_DIR 64) as (_ & _ & Hn). split; [cbn; lia|]. unfold d_state. rewrite Hn. unfold NBUF. lia.
  - exists inhabitant. split; [|reflexivity]. apply (list_elem_of_lookup_2 _ 1). reflexivity.
  - apply (bool_decide_unpack (Forall _ _)). vm_compute. reflexivity.
  - lia.
  - vm_compute. discriminate.
  - assert (Hb : bytes (str "a") /\ bytes (str "new") /\ bytes (str "old")).
    { split; [|split]; apply (bool_decide_unpack (Forall _ _)); vm_compute; reflexivity. }
    destruct Hb as (B1 & B2 & B3). split; [exact (P1 _ B1)|]. destruct P3 as (r & s' & E & H); [reflexivity|].
    assert (Hr : match dirlink 0 (str "new") 7 d_state with Ok r _ => r | _ => 1 end = 0) by (vm_compute; reflexivity).
    rewrite E in Hr. subst r. exists s'. split; [exact E|]. destruct H as [[Hm _]|(_ & Hs & Hf)]; [discriminate Hm|].
    split; [exact Hs|]. split; [exact (Hf _ B2)|exact (Hf _ B3)].
Defined.
