(* ===== verification/File.v ===== *)
(** * Open files (kernel/file.c) and the creation of pipes (pipealloc in kernel/pipe.c)

    An open file is an index of [ftable]. *)

From S2P Require Import Prelude Spinlock State Kalloc Vm Sync Pipe Console Bio Log Fs.

Definition get_file (f : nat) : K file := gets (fun s => ftable s !!! f).
Definition set_file (f : nat) (g : file -> file) : K unit :=
  modify (fun s => set_ftable (alter g f (ftable s)) s).

(** The first entry with no references. *)
Fixpoint free_file (l : list file) (i : nat) : option nat :=
  match l with
  | [] => None
  | x :: l' => if f_ref x =? 0 then Some i else free_file l' (S i)
  end.

Definition filealloc : K (option nat) :=
  acquire L_ftable;;
  t ← gets (fun s => ftable s);
  match free_file t 0 with
  | Some f =>
      set_file f (fun x => {| x with f_ref := 1 |});;
      release L_ftable;;
      ret (Some f)
  | None => release L_ftable;; ret None
  end.

Definition filedup (f : nat) : K nat :=
  acquire L_ftable;;
  x ← get_file f;
  panic_if (f_ref x <? 1) "filedup";;
  set_file f (fun x => {| x with f_ref := f_ref x + 1 |});;
  release L_ftable;;
  ret f.

Definition fileclose (f : nat) : K unit :=
  acquire L_ftable;;
  x ← get_file f;
  panic_if (f_ref x <? 1) "fileclose";;
  set_file f (fun x => {| x with f_ref := f_ref x - 1 |});;
  ff ← get_file f;
  if 0 <? f_ref ff then release L_ftable
  else
    set_file f (fun x => {| x with f_ref := 0 |});;
    set_file f (fun x => {| x with f_type := FD_NONE |});;
    release L_ftable;;
    match f_type ff with
    | FD_PIPE => pipeclose (f_pipe ff) (writable ff)
    | FD_INODE | FD_DEVICE =>
        begin_op;;
        ip ← deref "iput" (f_ip ff);
        iput ip;;
        end_op
    | FD_NONE => ret tt
    end.

(** [struct stat] in memory: 24 bytes, with four bytes of padding after [nlink]. *)
Definition stat_bytes (st : stat) : list Z :=
  le_bytes 4 (st_dev st) ++ le_bytes 4 (st_ino st) ++ le_bytes 2 (st_type st) ++
  le_bytes 2 (st_nlink st) ++ replicate 4 0 ++ le_bytes 8 (st_size st).

Definition filestat (f : nat) (addr : Z) : K Z :=
  i ← myproc_deref;
  p ← get_proc i;
  x ← get_file f;
  if bool_decide (f_type x = FD_INODE) || bool_decide (f_type x = FD_DEVICE) then
    ilock (f_ip x);;
    ip ← deref "stati" (f_ip x);
    st ← stati ip;
    iunlock (f_ip x);;
    r ← copyout (pagetable p) addr (stat_bytes st);
    ret (if r <? 0 then -1 else 0)
  else ret (-1).

(** [devsw[f->major]], when the number is in range. *)
Definition dev_entry (major : Z) : K (option devsw_entry) :=
  if (major <? 0) || (NDEV <=? major) then ret None
  else gets (fun s => devsw s !! Z.to_nat major).
Definition call_devfn (g : devfn) (a : kptr) (n : Z) : K Z :=
  match g with
  | consoleread_fn => consoleread a n
  | consolewrite_fn => consolewrite a n
  end.

Definition fileread (f : nat) (addr n : Z) : K Z :=
  x ← get_file f;
  if readable x =? 0 then ret (-1)
  else
    match f_type x with
    | FD_PIPE => piperead (f_pipe x) addr n
    | FD_DEVICE =>
        e ← dev_entry (f_major x);
        match e with
        | Some (mkdevsw (Some g) _) => call_devfn g (Uaddr addr) n
        | _ => ret (-1)
        end
    | FD_INODE =>
        ilock (f_ip x);;
        ip ← deref "readi" (f_ip x);
        '(r, _) ← readi ip (Uaddr addr) (f_off x) (u32 n);
        when (0 <? r) (set_file f (fun x => {| x with f_off := u32 (f_off x + r) |}));;
        iunlock (f_ip x);;
        ret r
    | FD_NONE => panic "fileread"
    end.

(** The transactions of [filewrite]: at most [max] bytes each. *)
Definition filewrite_max : Z := (MAXOPBLOCKS - 1 - 1 - 2) / 2 * BSIZE.
Fixpoint filewrite_loop (fuel f : nat) (addr n i : Z) : K Z :=
  if i <? n then
    match fuel with
    | O => fault "filewrite: out of fuel"
    | S fuel' =>
        let n1 := Z.min (n - i) filewrite_max in
        begin_op;;
        x ← get_file f;
        ilock (f_ip x);;
        ip ← deref "writei" (f_ip x);
        x ← get_file f;
        r ← writei ip (Uaddr (u64 (addr + i))) (f_off x) n1;
        when (0 <? r) (set_file f (fun x => {| x with f_off := u32 (f_off x + r) |}));;
        iunlock (f_ip x);;
        end_op;;
        if negb (r =? n1) then ret i else filewrite_loop fuel' f addr n (i + r)
    end
  else ret i.

Definition filewrite (f : nat) (addr n : Z) : K Z :=
  x ← get_file f;
  if writable x =? 0 then ret (-1)
  else
    match f_type x with
    | FD_PIPE => pipewrite (f_pipe x) addr n
    | FD_DEVICE =>
        e ← dev_entry (f_major x);
        match e with
        | Some (mkdevsw _ (Some g)) => call_devfn g (Uaddr addr) n
        | _ => ret (-1)
        end
    | FD_INODE =>
        i ← filewrite_loop (S (Z.to_nat (n / filewrite_max))) f addr n 0;
        ret (if i =? n then n else -1)
    | FD_NONE => panic "filewrite"
    end.

(** ** kernel/pipe.c: pipealloc.  The files, and the return value. *)
Definition pipe_new (p : pipe) : pipe :=
  {| p with readopen := 1; writeopen := 1; nwrite := 0; nread := 0 |}.

Definition pipealloc : K (Z * option nat * option nat) :=
  f0 ← filealloc;
  f1 ← (match f0 with Some _ => filealloc | None => ret None end);
  pi ← (match f0, f1 with Some _, Some _ => kalloc | _, _ => ret 0 end);
  match f0, f1 with
  | Some a, Some b =>
      if pi =? 0 then fileclose a;; fileclose b;; ret (-1, f0, f1)
      else
        set_pipe pi pipe_new;;
        set_file a (fun x => {| x with f_type := FD_PIPE; readable := 1; writable := 0; f_pipe := pi |});;
        set_file b (fun x => {| x with f_type := FD_PIPE; readable := 0; writable := 1; f_pipe := pi |});;
        ret (0, f0, f1)
  | Some a, None => fileclose a;; ret (-1, f0, f1)
  | _, _ => ret (-1, f0, f1)
  end.
