(* ===== verification/Proc.v ===== *)
(** * Processes (kernel/proc.c)

    The process table, creation, exit and reaping of processes.  The schedulers are in
    [Sched]. *)

From S2P Require Import Prelude Spinlock State Printk Kstring Kalloc Vm Sync Pipe Console Bio Log Fs File.

Definition proc_mapstacks (kpgtbl : Z) : K unit :=
  mfor proc_ids (fun i =>
    pa ← kalloc;
    panic_if (pa =? 0) "kalloc";;
    kvmmap kpgtbl (KSTACK i) pa PGSIZE (Z.lor PTE_R PTE_W)).

Definition procinit : K unit :=
  mfor proc_ids (fun i =>
    set_proc i (fun p => {| p with state := UNUSED |});;
    set_proc i (fun p => {| p with kstack := KSTACK i |})).

Definition allocpid : K Z :=
  acquire L_pid;;
  pid ← gets (fun s => nextpid s);
  modify (fun s => set_nextpid (s32 (nextpid s + 1)) s);;
  release L_pid;;
  ret pid.

Definition proc_freepagetable (pt size : Z) : K unit :=
  uvmunmap pt TRAMPOLINE 1 false;;
  uvmunmap pt TRAPFRAME 1 false;;
  uvmfree pt size.

(** A user page table for process [i] with no user memory. *)
Definition proc_pagetable (i : nat) : K Z :=
  pt ← uvmcreate;
  if pt =? 0 then ret 0
  else
    l ← gets (fun s => ld s);
    r ← mappages pt TRAMPOLINE PGSIZE (ld_trampoline l) (Z.lor PTE_R PTE_X);
    if r <? 0 then uvmfree pt 0;; ret 0
    else
      p ← get_proc i;
      r ← mappages pt TRAPFRAME PGSIZE (p_trapframe p) (Z.lor PTE_R PTE_W);
      if r <? 0 then
        uvmunmap pt TRAMPOLINE 1 false;;
        uvmfree pt 0;;
        ret 0
      else ret pt.

Definition freeproc (i : nat) : K unit :=
  p ← get_proc i;
  when (negb (p_trapframe p =? 0)) (kfree (p_trapframe p));;
  set_proc i (fun p => {| p with p_trapframe := 0 |});;
  when (negb (pagetable p =? 0)) (proc_freepagetable (pagetable p) (sz p));;
  set_proc i (fun p =>
    {| p with pagetable := 0; sz := 0; pid := 0; parent := None; name := put_nul (name p);
              p_chan := C_null; p_killed := 0; xstate := 0; state := UNUSED |}).

(** A process with its lock held, or null. *)
Definition allocproc : K (option nat) :=
  o ← mfind proc_ids (fun i =>
    acquire (L_proc i);;
    p ← get_proc i;
    if bool_decide (state p = UNUSED) then ret (Some i)
    else release (L_proc i);; ret None);
  match o with
  | None => ret None
  | Some i =>
      v ← allocpid;
      set_proc i (fun p => {| p with pid := v |});;
      set_proc i (fun p => {| p with state := USED |});;
      tf ← kalloc;
      set_proc i (fun p => {| p with p_trapframe := tf |});;
      if tf =? 0 then freeproc i;; release (L_proc i);; ret None
      else
        pt ← proc_pagetable i;
        set_proc i (fun p => {| p with pagetable := pt |});;
        if pt =? 0 then freeproc i;; release (L_proc i);; ret None
        else
          l ← gets (fun s => ld s);
          set_proc i (fun p =>
            {| p with p_context :=
                 {| ctx_ra := ld_forkret l; ctx_sp := u64 (kstack p + PGSIZE);
                    ctx_s := replicate 12 0 |} |});;
          ret (Some i)
  end.

Definition userinit : K unit :=
  o ← allocproc;
  modify (set_initproc o);;
  i ← deref "userinit" o;
  ip ← namei (str "/");
  set_proc i (fun p => {| p with cwd := ip |});;
  set_proc i (fun p => {| p with state := RUNNABLE |});;
  release (L_proc i).

Definition growproc (n : Z) : K Z :=
  i ← myproc_deref;
  p ← get_proc i;
  r ← (if 0 <? n then
         if TRAPFRAME <? u64 (sz p + n) then ret None
         else
           v ← uvmalloc (pagetable p) (sz p) (u64 (sz p + n)) PTE_W;
           ret (if v =? 0 then None else Some v)
       else if n <? 0 then
         v ← uvmdealloc (pagetable p) (sz p) (u64 (sz p + n));
         ret (Some v)
       else ret (Some (sz p)));
  match r with
  | None => ret (-1)
  | Some v => set_proc i (fun p => {| p with sz := v |});; ret 0
  end.

Definition set_tframe (tf : Z) (v : trapframe) : K unit :=
  modify (fun s => set_tframes (fun x => if x =? tf then v else tframes s x) s).

Definition kfork : K Z :=
  i ← myproc_deref;
  o ← allocproc;
  match o with
  | None => ret (-1)
  | Some np =>
      p ← get_proc i;
      q ← get_proc np;
      r ← uvmcopy (pagetable p) (pagetable q) (sz p);
      if r <? 0 then freeproc np;; release (L_proc np);; ret (-1)
      else
        set_proc np (fun q => {| q with sz := sz p |});;
        tf ← gets (fun s => tframes s (p_trapframe p));
        set_tframe (p_trapframe q) {| tf with a0 := 0 |};;
        mfor (seq 0 NOFILE) (fun fd =>
          match nth fd (ofile p) None with
          | None => ret tt
          | Some f =>
              f ← filedup f;
              set_proc np (fun q => {| q with ofile := <[fd := Some f]> (ofile q) |})
          end);;
        c ← deref "idup" (cwd p);
        c ← idup c;
        set_proc np (fun q => {| q with cwd := Some c |});;
        set_proc np (fun q => {| q with name := safestrcpy (name q) (name p) 16 |});;
        q ← get_proc np;
        release (L_proc np);;
        acquire L_wait;;
        set_proc np (fun q => {| q with parent := Some i |});;
        release L_wait;;
        acquire (L_proc np);;
        set_proc np (fun q => {| q with state := RUNNABLE |});;
        release (L_proc np);;
        ret (pid q)
  end.

(** The channel that is the address of a process structure. *)
Definition chan_of (o : option nat) : chan :=
  match o with Some i => C_proc i | None => C_null end.

Definition reparent (i : nat) : K unit :=
  mfor proc_ids (fun pp =>
    q ← get_proc pp;
    when (bool_decide (parent q = Some i))
      (ip ← gets (fun s => initproc s);
       set_proc pp (fun q => {| q with parent := ip |});;
       wakeup (chan_of ip))).

Definition kexit {A} (status : Z) : K A :=
  i ← myproc_deref;
  ip ← gets (fun s => initproc s);
  panic_if (bool_decide (Some i = ip)) "init exiting";;
  mfor (seq 0 NOFILE) (fun fd =>
    p ← get_proc i;
    match nth fd (ofile p) None with
    | None => ret tt
    | Some f =>
        fileclose f;;
        set_proc i (fun p => {| p with ofile := <[fd := None]> (ofile p) |})
    end);;
  begin_op;;
  p ← get_proc i;
  c ← deref "iput" (cwd p);
  iput c;;
  end_op;;
  set_proc i (fun p => {| p with cwd := None |});;
  acquire L_wait;;
  reparent i;;
  p ← get_proc i;
  wakeup (chan_of (parent p));;
  acquire (L_proc i);;
  set_proc i (fun p => {| p with xstate := status |});;
  set_proc i (fun p => {| p with state := ZOMBIE |});;
  release L_wait;;
  sched;;
  panic "zombie exit".

(** The scan of [kwait] over the rest [l] of the table: whether there are children, and the
    value to return if it is known. *)
Fixpoint kwait_scan (i : nat) (addr : Z) (l : list nat) (havekids : bool) :
    K (bool * option Z) :=
  match l with
  | [] => ret (havekids, None)
  | pp :: l' =>
      q ← get_proc pp;
      if bool_decide (parent q = Some i) then
        acquire (L_proc pp);;
        q ← get_proc pp;
        if bool_decide (state q = ZOMBIE) then
          p ← get_proc i;
          r ← (if negb (addr =? 0) then copyout (pagetable p) addr (le_bytes 4 (xstate q))
               else ret 0);
          if r <? 0 then
            release (L_proc pp);; release L_wait;; ret (true, Some (-1))
          else
            freeproc pp;;
            release (L_proc pp);; release L_wait;; ret (true, Some (pid q))
        else
          release (L_proc pp);;
          kwait_scan i addr l' true
      else kwait_scan i addr l' havekids
  end.

Definition kwait_test (addr : Z) : K Z :=
  i ← myproc_deref;
  '(havekids, o) ← kwait_scan i addr proc_ids false;
  match o with
  | Some r => ret r
  | None =>
      k ← (if negb havekids then ret 1 else killed i);
      if negb (k =? 0) then release L_wait;; ret (-1)
      else sleep (C_proc i) L_wait;; ret 0
  end.
Definition kwait (addr : Z) : K Z := acquire L_wait;; kwait_test addr.
Definition kwait_resume (addr : Z) : K Z := sleep_after L_wait;; kwait_test addr.

Definition kkill (v : Z) : K Z :=
  o ← mfind proc_ids (fun i =>
    acquire (L_proc i);;
    p ← get_proc i;
    if pid p =? v then
      set_proc i (fun p => {| p with p_killed := 1 |});;
      when (bool_decide (state p = SLEEPING))
        (set_proc i (fun p => {| p with state := RUNNABLE |}));;
      release (L_proc i);;
      ret (Some 0)
    else release (L_proc i);; ret None);
  ret (default (-1) o).
