(* ===== verification/Procops.v ===== *)
(** * Killing and adopting processes (the theory of kernel/proc.c: kkill and reparent) *)

From S2P Require Import Prelude Spinlock State Printk Kstring Kalloc Vm Sync Pipe Console Bio Log Fs File Proc.

(** ** [kkill] *)

(** The process marked killed, and woken if it sleeps. *)
Definition doomed (p : proc) : proc :=
  {| p with p_killed := 1; state := if bool_decide (state p = SLEEPING) then RUNNABLE else state p |}.

Definition has_pid (v : Z) (s : kstate) (i : nat) : bool := pid (procs s !!! i) =? v.

Lemma held_step1 h l s : set_held (held s) (set_procs l (set_held h s)) = set_procs l s.
Proof. by destruct s. Qed.
Lemma held_step h l l' s : set_held (held s) (set_procs l' (set_procs l (set_held h s))) = set_procs l' s.
Proof. by destruct s. Qed.

Lemma kkill_scan v l s :
  Forall (fun i => i < length (procs s) /\ L_proc i ∉ held s)%nat l ->
  mfind l (fun i =>
    acquire (L_proc i);;
    p ← get_proc i;
    if pid p =? v then
      set_proc i (fun p => {| p with p_killed := 1 |});;
      when (bool_decide (state p = SLEEPING))
        (set_proc i (fun p => {| p with state := RUNNABLE |}));;
      release (L_proc i);;
      ret (Some 0)
    else release (L_proc i);; ret None) s =
  match find (has_pid v s) l with
  | Some i => Ok (Some 0) (set_procs (alter doomed i (procs s)) s)
  | None => Ok None s
  end.
Proof.
  induction 1 as [|i l [Hi Hl] Hall IH]; [done|]. cbn [mfind find]. unfold has_pid at 1.
  unfold bind at 1. unfold bind at 1. rewrite acquire_eval by done.
  unfold bind at 1, get_proc at 1, gets at 1. cbn [procs set_held].
  destruct (pid (procs s !!! i) =? v).
  - assert (Hd : forall f, (forall p, procs s !! i = Some p -> f p = doomed p) -> alter f i (procs s) = alter doomed i (procs s)).
    { intros f Hf. apply list_alter_ext; [|done]. intros p Hp. by apply Hf. }
    destruct (lookup_lt_is_Some_2 _ _ Hi) as [p Hp]. rewrite (list_lookup_total_correct _ _ _ Hp).
    unfold bind, set_proc, modify, when. destruct (bool_decide (state p = SLEEPING)) eqn:E; unfold ret.
    + erewrite release_eval by reflexivity. rewrite held_step. cbn [procs set_procs set_held].
      rewrite list_alter_alter_eq, Hd; [done|]. intros q Hq. assert (q = p) as -> by congruence. unfold doomed, compose. by rewrite E.
    + erewrite release_eval by reflexivity. rewrite held_step1. cbn [procs set_procs set_held].
      rewrite Hd; [done|]. intros q Hq. assert (q = p) as -> by congruence. unfold doomed. by rewrite E.
  - unfold bind at 1. erewrite release_eval by reflexivity. unfold ret at 1.
    assert (Hs : set_held (held s) (set_held (L_proc i :: held s) s) = s) by (by destruct s).
    rewrite Hs. exact IH.
Qed.

Lemma kkill_eval v s : length (procs s) = NPROC -> (forall i, L_proc i ∉ held s) ->
  kkill v s = match find (has_pid v s) proc_ids with
              | Some i => Ok 0 (set_procs (alter doomed i (procs s)) s)
              | None => Ok (-1) s
              end.
Proof.
  intros Hl Hh. unfold kkill, bind at 1. rewrite kkill_scan.
  - by destruct (find (has_pid v s) proc_ids).
  - apply Forall_forall. intros i Hi. apply elem_of_seq in Hi. rewrite Hl. split; [lia|apply Hh].
Qed.

(** [kkill] marks the first process of the table that has the pid, makes it RUNNABLE if it
    sleeps so that it can notice, changes nothing else, and answers 0; when no process has the
    pid it answers -1 and changes nothing. *)
Theorem kkill_marks_first (s : kstate) (v : Z) :
  length (procs s) = NPROC -> (forall i, L_proc i ∉ held s) ->
  (exists i, (i < NPROC)%nat /\ pid (procs s !!! i) = v /\
     (forall j, (j < i)%nat -> pid (procs s !!! j) <> v) /\
     kkill v s = Ok 0 (set_procs (alter doomed i (procs s)) s)) \/
  ((forall i, (i < NPROC)%nat -> pid (procs s !!! i) <> v) /\ kkill v s = Ok (-1) s).
Proof.
  intros Hl Hh. rewrite kkill_eval by done. unfold proc_ids. destruct (find (has_pid v s) (seq 0 NPROC)) as [i|] eqn:E.
  - left. pose proof (find_some _ _ E) as [Hin Hp]. apply in_seq in Hin. unfold has_pid in Hp. apply Z.eqb_eq in Hp.
    exists i. split; [lia|]. split; [done|]. split; [|done]. intros j Hj Hpj.
    assert (Hgen : forall n m, find (has_pid v s) (seq m n) = Some i -> (m <= j)%nat -> False).
    { induction n as [|n IH]; intros m Hf Hm; cbn [seq find] in Hf; [done|]. unfold has_pid at 1 in Hf.
      destruct (Z.eqb_spec (pid (procs s !!! m)) v) as [Em|Em]; [injection Hf as ->; lia|].
      apply (IH (S m) Hf). destruct (decide (m = j)) as [->|]; [done|lia]. }
    apply (Hgen NPROC 0%nat E). lia.
  - right. split; [|reflexivity]. intros i Hi Hp. pose proof (find_none _ _ E i ltac:(apply in_seq; lia)) as Hf.
    unfold has_pid in Hf. by rewrite Hp, Z.eqb_refl in Hf.
Qed.

(** ** A killed slot that is not a process *)

(** Routines that leave the process table alone. *)
Definition keepsp {A} (m : K A) : Prop := forall s a s', m s = Ok a s' -> procs s' = procs s.
Section Keeps.
Lemma keepsp_ret {A} (a : A) : keepsp (ret a).
Proof. by intros s a' s' [= _ <-]. Qed.
Lemma keepsp_bind {A B} (m : K A) (k : A -> K B) : keepsp m -> (forall a, keepsp (k a)) -> keepsp (bind m k).
Proof. intros Hm Hk s b s' (a & s1 & E1 & E2)%bind_inv. rewrite (Hk a _ _ _ E2). by eapply Hm. Qed.
Lemma keepsp_gets {A} (f : kstate -> A) : keepsp (gets f).
Proof. by intros s a s' [= _ <-]. Qed.
Lemma keepsp_modify f : (forall s, procs (f s) = procs s) -> keepsp (modify f).
Proof. intros H s a s' [= _ <-]. apply H. Qed.
Lemma keepsp_panic b e : keepsp (panic_if b e).
Proof. unfold panic_if. destruct b; [by intros s a s'|apply keepsp_ret]. Qed.
Lemma keepsp_fault {A} e : keepsp (@fault kstate A e).
Proof. by intros s a s'. Qed.
Lemma keepsp_when b m : keepsp m -> keepsp (when b m).
Proof. intros H. unfold when. destruct b; [done|apply keepsp_ret]. Qed.
Lemma keepsp_acquire l : keepsp (acquire l).
Proof.
  apply keepsp_bind; [apply keepsp_gets|]. intros h. destruct (HeldList.held_acquire l h); [by apply keepsp_modify|by intros s a s'].
Qed.
Lemma keepsp_release l : keepsp (release l).
Proof.
  apply keepsp_bind; [apply keepsp_gets|]. intros h. destruct (HeldList.held_release l h); [by apply keepsp_modify|by intros s a s'].
Qed.
End Keeps.
Create HintDb keepsp.
#[export] Hint Resolve keepsp_ret keepsp_gets keepsp_modify keepsp_panic keepsp_fault keepsp_when keepsp_acquire keepsp_release : keepsp.
#[export] Hint Extern 1 (procs _ = procs _) => reflexivity : keepsp.
Ltac keepsp := repeat first [solve [auto with keepsp] | apply keepsp_bind; [|intros ?] | case_match].

Lemma keepsp_kalloc : keepsp kalloc.
Proof. unfold kalloc. keepsp. Qed.
Lemma keepsp_zero_page p : keepsp (zero_page p).
Proof. unfold zero_page. keepsp. Qed.
Lemma keepsp_write_pte a v : keepsp (write_pte a v).
Proof. unfold write_pte. keepsp. Qed.
#[export] Hint Resolve keepsp_kalloc keepsp_zero_page keepsp_write_pte : keepsp.
Lemma keepsp_walk pt va al : keepsp (walk pt va al).
Proof.
  assert (H : forall l pt, keepsp (walk_loop l pt va al)).
  { induction l as [|x l IH]; intros p; cbn [walk_loop]; unfold read_pte; keepsp; apply IH. }
  unfold walk. keepsp; apply H.
Qed.
#[export] Hint Resolve keepsp_walk : keepsp.
Lemma keepsp_mappages pt va size pa perm : keepsp (mappages pt va size pa perm).
Proof.
  assert (H : forall f a l p, keepsp (mappages_loop f pt a l p perm)).
  { induction f as [|f IH]; intros a l p; cbn [mappages_loop]; unfold read_pte; keepsp; apply IH. }
  unfold mappages. keepsp; apply H.
Qed.
#[export] Hint Resolve keepsp_mappages : keepsp.
Lemma keepsp_kfree p : keepsp (kfree p).
Proof. unfold kfree. keepsp. Qed.
Lemma keepsp_mfor {A} (l : list A) (f : A -> K unit) : (forall x, keepsp (f x)) -> keepsp (mfor l f).
Proof. intros H. induction l as [|x l IH]; cbn [mfor]; [apply keepsp_ret|]. by apply keepsp_bind. Qed.
#[export] Hint Resolve keepsp_kfree keepsp_mfor : keepsp.
Lemma keepsp_uvmunmap pt va n b : keepsp (uvmunmap pt va n b).
Proof.
  assert (H : forall f a l, keepsp (uvmunmap_loop f pt a l b)).
  { induction f as [|f IH]; intros a l; cbn [uvmunmap_loop]; unfold read_pte; keepsp; apply IH. }
  unfold uvmunmap. keepsp; apply H.
Qed.
Lemma keepsp_freewalk f pt : keepsp (freewalk f pt).
Proof.
  revert pt. induction f as [|f IH]; intros pt; cbn [freewalk]; [keepsp|].
  apply keepsp_bind; [|keepsp]. apply keepsp_mfor. intros i. unfold read_pte. keepsp; apply IH.
Qed.
#[export] Hint Resolve keepsp_uvmunmap keepsp_freewalk : keepsp.
Lemma keepsp_uvmfree pt n : keepsp (uvmfree pt n).
Proof. unfold uvmfree. keepsp. Qed.
#[export] Hint Resolve keepsp_uvmfree : keepsp.
Lemma keepsp_proc_pagetable i : keepsp (proc_pagetable i).
Proof. unfold proc_pagetable, uvmcreate, get_proc. keepsp. Qed.
Lemma keepsp_allocpid : keepsp allocpid.
Proof. unfold allocpid. keepsp. Qed.

(** The scan of [allocproc] stops at the first UNUSED slot, with its lock held. *)
Lemma allocproc_scan i n m s : (m <= i < m + n)%nat ->
  (forall j, (m <= j < i)%nat -> state (procs s !!! j) <> UNUSED) ->
  state (procs s !!! i) = UNUSED -> (forall j, L_proc j ∉ held s) ->
  mfind (seq m n) (fun i =>
    acquire (L_proc i);;
    p ← get_proc i;
    if bool_decide (state p = UNUSED) then ret (Some i)
    else release (L_proc i);; ret None) s = Ok (Some i) (set_held (L_proc i :: held s) s).
Proof.
  revert m. induction n as [|n IH]; intros m Hm Hb Hi Hh; [lia|]. cbn [seq mfind].
  unfold bind at 1. unfold bind at 1. rewrite acquire_eval by apply Hh.
  unfold bind at 1, get_proc at 1, gets at 1. cbn [procs set_held].
  destruct (decide (m = i)) as [->|Hne].
  - rewrite bool_decide_true by done. reflexivity.
  - rewrite bool_decide_false by (apply Hb; lia). unfold bind at 1.
    erewrite release_eval by reflexivity. unfold ret at 1.
    assert (Hs : set_held (held s) (set_held (L_proc m :: held s) s) = s) by (by destruct s). rewrite Hs.
    apply IH; [lia| |done|done]. intros j Hj. apply Hb. lia.
Qed.

(** What a routine does to the flags of the processes. *)
Lemma set_proc_killed i f s s' : set_proc i f s = Ok tt s' -> (forall p, p_killed (f p) = p_killed p) ->
  forall j, (j < length (procs s))%nat -> p_killed (procs s' !!! j) = p_killed (procs s !!! j) /\ length (procs s') = length (procs s).
Proof.
  intros [= <-] Hf j Hj. cbn [procs set_procs]. split; [|apply length_alter].
  destruct (decide (i = j)) as [<-|]; [|by rewrite list_lookup_total_alter_ne].
  rewrite list_lookup_total_alter_eq by done. apply Hf.
Qed.

(** When [allocproc] succeeds, the slot it took still has the killed flag it had. *)
Lemma allocproc_keeps_killed i s j s' : length (procs s) = NPROC -> (i < NPROC)%nat ->
  (forall j, (j < i)%nat -> state (procs s !!! j) <> UNUSED) ->
  state (procs s !!! i) = UNUSED -> (forall j, L_proc j ∉ held s) ->
  allocproc s = Ok (Some j) s' -> j = i /\ p_killed (procs s' !!! i) = p_killed (procs s !!! i).
Proof.
  intros Hl Hi Hb Hu Hh H. unfold allocproc, proc_ids in H. apply bind_inv in H as (o & s1 & E & H).
  rewrite (allocproc_scan i) in E; [|lia|intros k Hk; apply Hb; lia|done|done]. injection E as <- <-.
  set (same := fun s' : kstate => length (procs s') = NPROC /\ p_killed (procs s' !!! i) = p_killed (procs s !!! i)).
  assert (Hk : forall A (m : K A) a x y, keepsp m -> m x = Ok a y -> same x -> same y).
  { intros A m a x y Hm E. unfold same. by rewrite (Hm _ _ _ E). }
  assert (Hp : forall f x y, set_proc i f x = Ok tt y -> (forall p, p_killed (f p) = p_killed p) -> same x -> same y).
  { intros f x y E Hf [Hx Hx']. pose proof (set_proc_killed _ _ _ _ E Hf i ltac:(lia)) as [? ?]. split; congruence. }
  assert (S0 : same (set_held (L_proc i :: held s) s)) by done. revert S0 H. generalize (set_held (L_proc i :: held s) s).
  intros t S0 H.
  apply bind_inv in H as (v & t1 & E & H). apply (Hk _ _ _ _ _ keepsp_allocpid E) in S0. clear E t.
  apply bind_inv in H as ([] & t2 & E & H). apply (Hp _ _ _ E) in S0; [|done]. clear E t1.
  apply bind_inv in H as ([] & t3 & E & H). apply (Hp _ _ _ E) in S0; [|done]. clear E t2.
  apply bind_inv in H as (tf & t4 & E & H). apply (Hk _ _ _ _ _ keepsp_kalloc E) in S0. clear E t3.
  apply bind_inv in H as ([] & t5 & E & H). apply (Hp _ _ _ E) in S0; [|done]. clear E t4.
  destruct (tf =? 0).
  { apply bind_inv in H as (? & ? & _ & H). apply bind_inv in H as (? & ? & _ & H). discriminate H. }
  apply bind_inv in H as (pt & t6 & E & H). apply (Hk _ _ _ _ _ (keepsp_proc_pagetable i) E) in S0. clear E t5.
  apply bind_inv in H as ([] & t7 & E & H). apply (Hp _ _ _ E) in S0; [|done]. clear E t6.
  destruct (pt =? 0).
  { apply bind_inv in H as (? & ? & _ & H). apply bind_inv in H as (? & ? & _ & H). discriminate H. }
  apply bind_inv in H as (l & t8 & E & H). apply (Hk _ _ _ _ _ (keepsp_gets _) E) in S0. clear E t7.
  apply bind_inv in H as ([] & t9 & E & H). apply (Hp _ _ _ E) in S0; [|done]. injection H as -> <-. by destruct S0.
Qed.

(** Slot [i] is the first free one of a process table whose free slots have pid 0. *)
Definition first_free (s : kstate) (i : nat) : Prop :=
  (i < NPROC)%nat /\ (forall j, (j < NPROC)%nat -> pid (procs s !!! j) = 0 <-> state (procs s !!! j) = UNUSED) /\
  state (procs s !!! i) = UNUSED /\ forall j, (j < i)%nat -> state (procs s !!! j) <> UNUSED.

(** C33: a process can condemn one that does not exist yet. Free slots of the table have pid 0, so
    [kkill 0] finds the first of them, sets its killed flag and reports success; [allocproc] does
    not clear the flag, so the next process created, which takes that slot, is born killed. *)
Theorem kill_zero_condemns (s : kstate) (i : nat) :
  length (procs s) = NPROC -> (forall j, L_proc j ∉ held s) -> first_free s i ->
  exists s1, kkill 0 s = Ok 0 s1 /\ state (procs s1 !!! i) = UNUSED /\
    forall j s2, allocproc s1 = Ok (Some j) s2 -> j = i /\ p_killed (procs s2 !!! i) = 1.
Proof.
  intros Hl Hh (Hi & Hpid & Hu & Hb). exists (set_procs (alter doomed i (procs s)) s).
  assert (Hf : find (has_pid 0 s) proc_ids = Some i).
  { assert (Hgen : forall n m, (m <= i < m + n)%nat -> (m + n <= NPROC)%nat -> find (has_pid 0 s) (seq m n) = Some i).
    { induction n as [|n IH]; intros m Hm Hn; [lia|]. cbn [seq find]. unfold has_pid at 1.
      destruct (decide (m = i)) as [->|Hne].
      - by rewrite (proj2 (Hpid i Hi) Hu).
      - assert (Hne' : pid (procs s !!! m) <> 0) by (rewrite Hpid by lia; apply Hb; lia).
        apply Z.eqb_neq in Hne'. rewrite Hne'. apply IH; lia. }
    apply Hgen; lia. }
  rewrite kkill_eval, Hf by done. split; [done|].
  assert (Hat : procs (set_procs (alter doomed i (procs s)) s) !!! i = doomed (procs s !!! i)).
  { cbn [procs set_procs]. apply list_lookup_total_alter_eq. lia. }
  assert (Hst : state (doomed (procs s !!! i)) = UNUSED).
  { unfold doomed. cbn [state]. rewrite bool_decide_false; [done|]. by rewrite Hu. }
  split; [by rewrite Hat|].
  intros j s2 H. apply (allocproc_keeps_killed i) in H as [-> ->]; [|..].
  - split; [done|]. by rewrite Hat.
  - cbn [procs set_procs]. by rewrite length_alter.
  - done.
  - intros k Hk. cbn [procs set_procs]. rewrite list_lookup_total_alter_ne by lia. by apply Hb.
  - by rewrite Hat.
  - exact Hh.
Qed.

(** A machine with one process, pid 1 asleep in slot 0, and four free pages. *)
Definition pages4 : list Z := map (fun k => KERNBASE + 0x100000 + 4096 * k) [0; 1; 2; 3].
Definition one_process : kstate :=
  set_procs (<[0%nat := {| inhabitant with pid := 1; state := SLEEPING |}]> (replicate NPROC inhabitant))
  (set_mem (foldr (fun p m => store64 m p (if p =? KERNBASE + 0x103000 then 0 else p + 4096)) (fun _ => 0) pages4)
  (set_freelist (KERNBASE + 0x100000) (boot_state (KERNBASE + 0x20000)))).

Lemma one_process_pid j : (j < NPROC)%nat ->
  pid (procs one_process !!! j) = 0 <-> state (procs one_process !!! j) = UNUSED.
Proof.
  intros Hj. destruct j as [|j]; [done|]. unfold one_process. cbn [procs set_procs].
  rewrite list_lookup_total_insert_ne by done. by rewrite lookup_total_replicate_2 by done.
Qed.

Lemma kkill_marks_first_witness : exists s1, kkill 1 one_process = Ok 0 s1 /\
  state (procs s1 !!! 0%nat) = RUNNABLE /\ p_killed (procs s1 !!! 0%nat) = 1.
Proof.
  destruct (kkill_marks_first one_process 1) as [(i & Hi & Hp & _ & E)|[H _]].
  - reflexivity.
  - intros i. apply not_elem_of_nil.
  - assert (i = 0%nat) as ->.
    { destruct i as [|i]; [done|]. exfalso. unfold one_process in Hp. cbn [procs set_procs] in Hp.
      rewrite list_lookup_total_insert_ne in Hp by done. by rewrite lookup_total_replicate_2 in Hp by done. }
    eexists. split; [exact E|]. split; reflexivity.
  - exfalso. apply (H 0%nat); [apply Nat.ltb_lt; reflexivity|reflexivity].
Defined.

Lemma kill_zero_condemns_witness : exists s1 s2, kkill 0 one_process = Ok 0 s1 /\
  allocproc s1 = Ok (Some 1%nat) s2 /\ p_killed (procs s2 !!! 1%nat) = 1.
Proof.
  destruct (kill_zero_condemns one_process 1) as (s1 & E & Hs & H).
  - reflexivity.
  - intros i. apply not_elem_of_nil.
  - split; [apply Nat.ltb_lt; reflexivity|]. split; [exact one_process_pid|]. split; [reflexivity|].
    intros j Hj. assert (j = 0%nat) as -> by lia. discriminate.
  - exists s1. destruct (allocproc s1) as [o s2|?|?|?] eqn:Ea.
    all: try (exfalso; revert Ea E; clear; intros Ea E;
      assert (Hx : match kkill 0 one_process with Ok _ s => match allocproc s with Ok _ _ => true | _ => false end | _ => false end = true)
        by (vm_compute; reflexivity); rewrite E, Ea in Hx; discriminate Hx).
    assert (Hx : match kkill 0 one_process with Ok _ s => match allocproc s with Ok (Some 1%nat) _ => true | _ => false end | _ => false end = true)
      by (vm_compute; reflexivity).
    rewrite E, Ea in Hx. destruct o as [[|[|o]]|]; try discriminate Hx. exists s2. split; [exact E|]. split; [done|].
    by apply (H 1%nat s2).
Defined.

(** ** [reparent] *)

Section Reparent.
Context (i : nat) (ip : option nat) (me : option nat).
Hypothesis ip_ne : ip <> Some i.

(** One step of the loop on the process table. *)
Definition reparent_step (ps : list proc) (pp : nat) : list proc :=
  if bool_decide (parent (ps !!! pp) = Some i)
  then wake (chan_of ip) me (alter (fun q => {| q with parent := ip |}) pp ps)
  else ps.

(** What becomes of process [j] when the children listed in [l] have been given away. *)
Definition adopt (l : list nat) (j : nat) (q : proc) : proc :=
  if bool_decide (j ∈ l) && bool_decide (parent q = Some i) then {| q with parent := ip |} else q.
Definition has_child (ps : list proc) (l : list nat) : bool :=
  existsb (fun pp => bool_decide (parent (ps !!! pp) = Some i)) l.
Definition adopted (ps : list proc) (l : list nat) (j : nat) (q : proc) : proc :=
  (if has_child ps l then wake1 (chan_of ip) me j else id) (adopt l j q).

Lemma wake1_parent c j q : parent (wake1 c me j q) = parent q.
Proof. unfold wake1. by repeat case_match. Qed.
Lemma wake1_idemp c j q : wake1 c me j (wake1 c me j q) = wake1 c me j q.
Proof.
  unfold wake1. destruct (bool_decide (Some j = me)); [done|].
  destruct (bool_decide (state q = SLEEPING) && bool_decide (p_chan q = c)) eqn:E; [done|]. by rewrite E.
Qed.
Lemma wake1_adopt c l j q : adopt l j (wake1 c me j q) = wake1 c me j (adopt l j q).
Proof. unfold adopt. rewrite wake1_parent. case_match; [|done]. unfold wake1. cbn [state p_chan]. by repeat case_match. Qed.

Lemma adopted_nil ps j q : adopted ps [] j q = q.
Proof. reflexivity. Qed.

Lemma fold_adopted l ps j : (j < length ps)%nat -> Forall (fun pp => pp < length ps)%nat l ->
  length (foldl reparent_step ps l) = length ps /\
  foldl reparent_step ps l !!! j = adopted ps l j (ps !!! j).
Proof.
  revert ps. induction l as [|pp l IH]; intros ps Hj Hl; [done|]. inversion_clear Hl as [|? ? Hpp Hl'].
  cbn [foldl]. unfold reparent_step at 2 4.
  destruct (bool_decide_reflect (parent (ps !!! pp) = Some i)) as [Hc|Hc].
  - set (ps' := wake (chan_of ip) me (alter (fun q => {| q with parent := ip |}) pp ps)).
    assert (Hlen : length ps' = length ps) by (unfold ps'; by rewrite length_wake, length_alter).
    assert (Hj' : ps' !!! j = wake1 (chan_of ip) me j (adopt [pp] j (ps !!! j))).
    { unfold ps', wake. rewrite lookup_total_imap by (rewrite length_alter; done). f_equal. unfold adopt.
      destruct (decide (pp = j)) as [<-|Hne].
      - by rewrite list_lookup_total_alter_eq, !bool_decide_true by (done || constructor).
      - rewrite list_lookup_total_alter_ne by done. rewrite bool_decide_false; [done|]. by intros ->%list_elem_of_singleton. }
    destruct (IH ps') as [L E]; [by rewrite Hlen|by rewrite Hlen|]. split; [by rewrite L|]. rewrite E, Hj'. unfold adopted.
    assert (Hh : has_child ps (pp :: l) = true) by (cbn [has_child existsb]; unfold has_child; cbn [existsb]; by rewrite bool_decide_true).
    rewrite Hh, wake1_adopt.
    assert (Ha : adopt l j (adopt [pp] j (ps !!! j)) = adopt (pp :: l) j (ps !!! j)).
    { unfold adopt at 1 3. unfold adopt. destruct (decide (j = pp)) as [->|Hne].
      - rewrite (bool_decide_true (pp ∈ [pp])), (bool_decide_true (pp ∈ pp :: l)), (bool_decide_true (parent (ps !!! pp) = Some i)) by (done || constructor).
        cbn [andb parent]. rewrite (bool_decide_false (ip = Some i)) by done. by rewrite andb_false_r.
      - rewrite (bool_decide_false (j ∈ [pp])) by (by intros ?%list_elem_of_singleton). cbn [andb].
        by rewrite (bool_decide_ext (j ∈ l) (j ∈ pp :: l)) by (rewrite elem_of_cons; tauto). }
    rewrite Ha. destruct (has_child ps' l); [apply wake1_idemp|done].
  - destruct (IH ps Hj Hl') as [L E]. split; [done|]. rewrite E. unfold adopted.
    assert (Hh : has_child ps (pp :: l) = has_child ps l) by (unfold has_child; cbn [existsb]; by rewrite bool_decide_false).
    rewrite Hh. f_equal. unfold adopt. destruct (decide (j = pp)) as [->|Hne].
    + by rewrite (bool_decide_false (parent _ = _)), !andb_false_r by done.
    + by rewrite (bool_decide_ext (j ∈ pp :: l) (j ∈ l)) by (rewrite elem_of_cons; tauto).
Qed.
End Reparent.

Lemma reparent_fold i l s : length (procs s) = NPROC -> others_unlocked s ->
  mfor l (fun pp =>
    q ← get_proc pp;
    when (bool_decide (parent q = Some i))
      (ip ← gets (fun s => initproc s);
       set_proc pp (fun q => {| q with parent := ip |});;
       wakeup (chan_of ip))) s = Ok tt (set_procs (foldl (reparent_step i (initproc s) (cur s)) (procs s) l) s).
Proof.
  revert s. induction l as [|pp l IH]; intros s Hl Hu; cbn [mfor foldl].
  { unfold ret. by destruct s. }
  unfold bind at 1. unfold bind at 1, get_proc, gets at 1, when. unfold reparent_step at 2.
  destruct (bool_decide (parent (procs s !!! pp) = Some i)).
  - unfold bind at 1, gets at 1. unfold bind at 1, set_proc at 1, modify. rewrite wakeup_eval; [|cbn [procs set_procs]; by rewrite length_alter|exact Hu].
    rewrite IH; [reflexivity|cbn [procs set_procs]; by rewrite length_wake, length_alter|exact Hu].
  - unfold ret at 1. by apply IH.
Qed.

(** [reparent] gives every child of the exiting process to init, wakes init once it has been
    given one (if it sleeps in wait), and changes nothing else; no process is left with the
    exiting one as its parent. *)
Lemma reparent_adopts (s : kstate) (i : nat) :
  length (procs s) = NPROC -> others_unlocked s -> initproc s <> Some i ->
  exists ps, reparent i s = Ok tt (set_procs ps s) /\ length ps = NPROC /\
    forall j, (j < NPROC)%nat ->
      ps !!! j = adopted i (initproc s) (cur s) (procs s) proc_ids j (procs s !!! j) /\
      parent (ps !!! j) = (if bool_decide (parent (procs s !!! j) = Some i) then initproc s else parent (procs s !!! j)) /\
      parent (ps !!! j) <> Some i.
Proof.
  intros Hl Hu Hip. unfold reparent. rewrite reparent_fold by done. eexists. split; [done|].
  assert (Hall : Forall (fun pp => pp < length (procs s))%nat proc_ids).
  { apply Forall_forall. intros pp Hpp. apply elem_of_seq in Hpp. lia. }
  split.
  { destruct (fold_adopted i (initproc s) (cur s) Hip proc_ids (procs s) 0) as [L _]; [rewrite Hl; apply Nat.ltb_lt; reflexivity|done|congruence]. }
  intros j Hj. destruct (fold_adopted i (initproc s) (cur s) Hip proc_ids (procs s) j) as [_ E]; [lia|done|].
  rewrite E. split; [done|].
  assert (Hp : parent (adopted i (initproc s) (cur s) (procs s) proc_ids j (procs s !!! j)) =
    if bool_decide (parent (procs s !!! j) = Some i) then initproc s else parent (procs s !!! j)).
  { unfold adopted. transitivity (parent (adopt i (initproc s) proc_ids j (procs s !!! j))).
    { case_match; [apply wake1_parent|done]. }
    unfold adopt. rewrite (bool_decide_true (j ∈ proc_ids)) by (apply elem_of_seq; lia). cbn [andb]. by case_match. }
  rewrite Hp. split; [done|]. case_bool_decide; done.
Qed.
