(* ===== verification/Wait.v ===== *)
(** * Waiting for a child (the theory of kernel/proc.c: freeproc and kwait) *)

From S2P Require Import Prelude Spinlock State Kstring Kalloc Vm Pgtbl Vmcopy Vmfree Sync Proc.

(** ** Memory that changes elsewhere *)
Lemma chain_agree m m' l : forall r, chain m r l -> (forall p x, p ∈ l -> p <= x < p + PGSIZE -> m' x = m x) -> chain m' r l.
Proof.
  induction l as [|p l IH]; intros r Hc Hm; [done|]. destruct Hc as [-> Hc]. split; [done|].
  assert (load64 m' p = load64 m p) as ->.
  { unfold load64. f_equal. apply load_ext. intros x Hx. apply (Hm p); [by left|]. unfold PGSIZE. lia. }
  apply IH; [done|]. intros q x Hq. apply Hm. by right.
Qed.

Lemma ctx_agree s T A l m' : vmctx s T A l ->
  (forall p x, p ∈ l \/ (exists a, T a = Some p) -> p <= x < p + PGSIZE -> m' x = mem s x) ->
  vmctx (set_mem m' s) T A l /\ forall va, 0 <= va -> pte_at m' T va = pte_at (mem s) T va.
Proof.
  intros C Hm. destruct (rep_ext (mem s) m' T (vc_rep _ _ _ _ C)) as [Hr Hp].
  { intros a p x Ha. apply Hm. right. eauto. }
  split; [|done]. split; [|done|apply C|apply C]. destruct (vc_kmem _ _ _ _ C) as [Hch Hnd Hpg He]. split; try done.
  eapply chain_agree; [exact Hch|]. intros p x Hp'. apply Hm. by left.
Qed.

(** [copyout] writes only to the frames of the pages it is given. *)
Lemma copyout_elsewhere T pt fuel : forall s dst src m', (length src <= fuel)%nat -> uspace (mem s) T pt -> 0 <= dst ->
  (forall va, in_range dst (Z.of_nat (length src)) va -> user_ok PTE_W (mem s) T va) ->
  copyout_loop fuel pt dst src s = Ok 0 (set_mem m' s) ->
  forall x, (forall va, in_range dst (Z.of_nat (length src)) va ->
    x < PTE2PA (pte_at (mem s) T va) \/ PTE2PA (pte_at (mem s) T va) + PGSIZE <= x) -> m' x = mem s x.
Proof.
  assert (Hnil : forall f s dst m', copyout_loop f pt dst [] s = Ok 0 (set_mem m' s) -> forall x, m' x = mem s x).
  { intros f s dst m' H x. assert (s = set_mem m' s) as E by (destruct f; cbn in H; unfold ret in H; congruence).
    change (mem (set_mem m' s) x = mem s x). by rewrite <-E. }
  induction fuel as [|fuel IH]; intros s dst src m' Hf U Hd Hok Hev x Hx.
  { assert (src = []) as -> by (destruct src; [done|cbn in Hf; lia]). by eapply Hnil. }
  destruct (decide (length src = 0)%nat) as [->%nil_length_inv|Hlen]; [by eapply Hnil|].
  pose proof (Hok dst ltac:(unfold in_range; lia)) as Hdok.
  rewrite (copyout_round s T) in Hev by (done || lia).
  destruct (chunk_le dst (length src) ltac:(lia)) as (Hn & Hfit & Hnext). set (n := chunk _ _) in *.
  assert (Htl : length (take n src) = n) by (rewrite length_take; lia). rewrite <-Htl in Hfit.
  pose proof (store_user_copied (mem s) T pt dst (take n src) U (proj1 Hdok) Hfit) as C1.
  set (m1 := store _ _ _) in *.
  assert (Hm1 : m1 x = mem s x).
  { unfold m1, store, uaddr. rewrite bool_decide_false; [done|]. rewrite Htl in Hfit |- *.
    pose proof (Z.mod_pos_bound dst PGSIZE ltac:(done)). destruct (Hx dst ltac:(unfold in_range; lia)); lia. }
  destruct (decide (n = length src)) as [En|En].
  - assert (drop n src = []) as Ed by (rewrite En; apply drop_all). rewrite Ed in Hev. rewrite <-Hm1. by eapply (Hnil fuel (set_mem m1 s)).
  - rewrite <-Hnext in Hev by lia. destruct (Hok (dst + Z.of_nat n)) as [[Hmax _] _]; [unfold in_range; lia|].
    rewrite u64_small in Hev by (change MAXVA with (2 ^ 38) in Hmax; lia). rewrite <-Hm1.
    apply (IH (set_mem m1 s) (dst + Z.of_nat n) (drop n src) m').
    + rewrite length_drop. lia.
    + apply C1.
    + lia.
    + intros va Hva. unfold in_range in Hva. rewrite length_drop in Hva.
      eapply copied_out_user; [exact C1|]. apply Hok. unfold in_range. lia.
    + exact Hev.
    + intros va Hva. unfold in_range in Hva. rewrite length_drop in Hva. destruct C1 as (_ & Hp & _). cbn [mem set_mem]. rewrite Hp by lia.
      apply Hx. unfold in_range. lia.
Qed.

(** ** Freeing a process

    The memory of a process: the pages below its size have frames of their own, the two pages at
    the top are the trampoline and the trap frame, and nothing else is mapped. *)
Record proc_space (m : memory) (p : proc) (T : ptree) (A : list Z) : Prop := {
  sp_root : T N2 = Some (pagetable p);
  sp_low : forall i j q, T (N0 i j) = Some q -> i < 256;
  sp_size : 0 <= sz p <= TRAPFRAME;
  sp_own : own_frames m T A 0 (npages (sz p) * PGSIZE);
  sp_above : forall va, npages (sz p) * PGSIZE <= va < TRAPFRAME -> has (pte_at m T va) PTE_V = false;
  sp_tf : p_trapframe p ∈ A;
  sp_tf_tree : forall a, T a <> Some (p_trapframe p);
  sp_tf_frame : ~ frame_in m T 0 (npages (sz p) * PGSIZE) (p_trapframe p) }.
(** The pages of the process. *)
Definition owned (m : memory) (p : proc) (T : ptree) (q : Z) : Prop :=
  q = p_trapframe p \/ (exists a, T a = Some q) \/ frame_in m T 0 (npages (sz p) * PGSIZE) q.

Definition reaped (p : proc) : proc :=
  {| p with p_trapframe := 0; pagetable := 0; sz := 0; pid := 0; parent := None; name := put_nul (name p);
            p_chan := C_null; p_killed := 0; xstate := 0; state := UNUSED |}.

Lemma own_frames_ext m m' T A A' a b : own_frames m T A a b -> (forall va, a <= va < b -> pte_at m' T va = pte_at m T va) ->
  (forall q, q ∈ A -> frame_in m T a b q -> q ∈ A') -> own_frames m' T A' a b.
Proof.
  intros [H1 H2] Hp HA. split.
  - intros va Hva. rewrite Hp by done. intros Hv. destruct (H1 va Hva Hv) as [H3 H4]. split; [|done]. apply HA; [done|]. by exists va.
  - intros va va' Hva Hva'. rewrite !Hp by done. by apply H2.
Qed.
Lemma frame_in_ext m m' T a b q : (forall va, a <= va < b -> pte_at m' T va = pte_at m T va) -> frame_in m' T a b q <-> frame_in m T a b q.
Proof. intros Hp. split; intros (va & Hva & H); exists va; (split; [done|]); [rewrite <-Hp by done|rewrite Hp by done]; done. Qed.

(** Only the entries of the page table matter. *)
Lemma proc_space_ext m m' p T A : proc_space m p T A -> (forall va, 0 <= va -> pte_at m' T va = pte_at m T va) -> proc_space m' p T A.
Proof.
  intros [S1 S2 S3 S4 S5 S6 S7 S8] Hp.
  assert (Hrange : forall va, 0 <= va < npages (sz p) * PGSIZE -> pte_at m' T va = pte_at m T va) by (intros va Hva; apply Hp; lia).
  split; try done.
  - by eapply own_frames_ext.
  - intros va Hva. rewrite Hp by (unfold npages, PGSIZE in *; dlia). by apply S5.
  - by rewrite (frame_in_ext m).
Qed.
Lemma owned_ext m m' p T q : (forall va, 0 <= va -> pte_at m' T va = pte_at m T va) -> owned m' p T q <-> owned m p T q.
Proof. intros Hp. unfold owned. by rewrite (frame_in_ext m m') by (intros va Hva; apply Hp; lia). Qed.

(** Fields of the processes do not matter to memory. *)
Lemma vmctx_procs s T A l ps : vmctx s T A l -> vmctx (set_procs ps s) T A l.
Proof. intros [[H1 H2 H3 H4] H5 H6 H7]. split; [split|..]; done. Qed.

Lemma TOP_eq : TRAPFRAME = 2 ^ 38 - 2 * PGSIZE /\ TRAMPOLINE = 2 ^ 38 - PGSIZE.
Proof. done. Qed.

Section Freepagetable.
Context (s : kstate) (p : proc) (T : ptree) (A l : list Z) (C : vmctx s T A l) (Hroot : T N2 = Some (pagetable p)).
Context (Hlow : forall i j q, T (N0 i j) = Some q -> i < 256) (Hsz : 0 <= sz p <= TRAPFRAME).
Context (Hown : own_frames (mem s) T A 0 (npages (sz p) * PGSIZE)).
Context (Habove : forall va, npages (sz p) * PGSIZE <= va < TRAPFRAME -> has (pte_at (mem s) T va) PTE_V = false).

Lemma freepagetable_spec : wp (proc_freepagetable (pagetable p) (sz p)) (fun _ s' => exists A' l', kmem_inv s' A' l' /\
    (forall q, q ∈ A' <-> q ∈ A /\ (forall a, T a <> Some q) /\ ~ frame_in (mem s) T 0 (npages (sz p) * PGSIZE) q) /\
    (forall q x, q ∈ A' -> q <= x < q + PGSIZE -> mem s' x = mem s x) /\ s' = set_freelist (freelist s') (set_mem (mem s') s)) s.
Proof.
  destruct TOP_eq as [Etf Etr].
  assert (Hn : npages (sz p) * PGSIZE <= TRAPFRAME) by (unfold npages in *; rewrite Etf in *; unfold PGSIZE in *; dlia).
  unfold proc_freepagetable. apply wp_bind.
  eapply wp_mono; [apply (unmap_one s T A l _ TRAMPOLINE C Hroot); [rewrite Etr; change MAXVA with (2 ^ 38); unfold PGSIZE; lia|done]|].
  intros [] s1 (C1 & K1 & Hp1). apply wp_bind.
  eapply wp_mono; [apply (unmap_one s1 T A l _ TRAPFRAME C1 Hroot); [rewrite Etf; change MAXVA with (2 ^ 38); unfold PGSIZE; lia|done]|].
  intros [] s2 (C2 & K2 & Hp2). pose proof (kept_trans _ _ _ _ _ _ _ _ _ K1 K2) as K.
  assert (Hbelow : forall va, 0 <= va < TRAPFRAME -> pte_at (mem s2) T va = pte_at (mem s) T va).
  { intros va Hva. assert (0 <= va < MAXVA) by (rewrite Etf in Hva; change MAXVA with (2 ^ 38); unfold PGSIZE in *; lia).
    rewrite (proj2 (Hp2 va ltac:(done))) by (rewrite Etf in *; unfold PGSIZE in *; dlia).
    apply (proj2 (Hp1 va ltac:(done))). rewrite Etr, Etf in *. unfold PGSIZE in *. dlia. }
  assert (Hrange : forall va, 0 <= va < npages (sz p) * PGSIZE -> pte_at (mem s2) T va = pte_at (mem s) T va) by (intros va Hva; apply Hbelow; lia).
  eapply wp_mono; [apply (uvmfree_spec s2 T A l _ _ C2 Hroot Hlow)|].
  - rewrite Etf in Hsz. change MAXVA with (2 ^ 38). unfold PGSIZE in *. lia.
  - by eapply own_frames_ext.
  - intros va Hva. destruct (decide (va < TRAPFRAME)) as [Hlt|Hge].
    { rewrite Hbelow by (unfold npages, PGSIZE in *; dlia). apply Habove. lia. }
    destruct (decide (va < TRAMPOLINE)) as [Hlt|Hge'].
    + apply (Hp2 va); [lia|]. rewrite Etf, Etr in *. unfold PGSIZE in *. dlia.
    + rewrite (proj2 (Hp2 va ltac:(lia))) by (rewrite Etf, Etr in *; unfold PGSIZE in *; dlia).
      apply (Hp1 va); [lia|]. rewrite Etr in *. change MAXVA with (2 ^ 38) in *. unfold PGSIZE in *. dlia.
  - intros [] s' (A' & l' & Hk & HA & Hm & E). exists A', l'. split_and!; [done| | |rewrite E; rewrite (kp_frame _ _ _ _ _ _ K); done].
    + intros q. rewrite HA, (frame_in_ext (mem s) (mem s2)) by done. done.
    + intros q x Hq Hx. rewrite (Hm q) by done. apply HA in Hq as (Hq1 & Hq2 & _). by apply (kp_frames _ _ _ _ _ _ K q).
Qed.
End Freepagetable.

(** [s'] is [s] with the pages of process [i] given back and its slot free. *)
Definition gone (s : kstate) (i : nat) (T : ptree) (A : list Z) (s' : kstate) : Prop :=
  exists A' l', kmem_inv s' A' l' /\ (forall q, q ∈ A' <-> q ∈ A /\ ~ owned (mem s) (procs s !!! i) T q) /\
    (forall q x, q ∈ A' -> q <= x < q + PGSIZE -> mem s' x = mem s x) /\
    s' = set_procs (alter reaped i (procs s)) (set_freelist (freelist s') (set_mem (mem s') s)).

Lemma freeproc_spec s i T A l : vmctx s T A l -> proc_space (mem s) (procs s !!! i) T A -> (i < length (procs s))%nat ->
  wp (freeproc i) (fun _ s' => gone s i T A s') s.
Proof.
  intros C [S1 S2 S3 S4 S5 S6 S7 S8] Hi. set (p := procs s !!! i) in *.
  destruct (ctx_page _ _ _ _ _ C S6) as ([Htfal _] & Htf & _).
  assert (Hpt : 0 < pagetable p) by (apply (rp_page _ _ (vc_rep _ _ _ _ C) N2 _ S1)).
  unfold freeproc. apply wp_bind, wp_gets. fold p. destruct (Z.eqb_spec (p_trapframe p) 0); [lia|]. cbn [negb]. unfold when at 1.
  apply wp_bind, (kfree_ctx s T A l (p_trapframe p) _ C S6 S7). intros s1 A1 l1 C1 HA1 Hm1 E1.
  apply wp_bind, wp_modify. destruct (Z.eqb_spec (pagetable p) 0); [lia|]. cbn [negb]. unfold when.
  assert (Hpte : forall va, 0 <= va -> pte_at (mem s1) T va = pte_at (mem s) T va).
  { by apply (rep_same_but (mem s) (mem s1) T (p_trapframe p) (vc_rep _ _ _ _ C) Htfal S7 Hm1). }
  set (s2 := set_procs _ s1). assert (C2 : vmctx s2 T A1 l1) by (by apply vmctx_procs).
  apply wp_bind. eapply wp_mono; [apply (freepagetable_spec s2 p T A1 l1 C2 S1 S2 S3)|].
  - eapply own_frames_ext; [exact S4|intros va Hva; apply Hpte; lia|]. intros q Hq Hf. apply HA1. split; [done|]. by intros ->.
  - intros va Hva. change (mem s2) with (mem s1). rewrite Hpte by (unfold npages, PGSIZE in *; dlia). by apply S5.
  - intros [] s3 (A3 & l3 & Hk & HA3 & Hm3 & E3). apply wp_modify. exists A3, l3. split_and!.
    + destruct Hk as [H1 H2 H3 H4]. by split.
    + intros q. rewrite HA3, HA1, (frame_in_ext (mem s) (mem s2)) by (intros va Hva; apply Hpte; lia). fold p. unfold owned.
      split; [intros ((Hq & Hne) & HT & Hf); split; [done|]; intros [?|[(a & Ha)|?]]; [done|by apply (HT a)|done]|].
      intros [Hq Hn]. split_and!; [done|intros ->; apply Hn; by left|intros a Ha; apply Hn; right; left; eauto|intros Hf; apply Hn; by right; right].
    + intros q x Hq Hx. change (mem (set_procs _ s3) x) with (mem s3 x). rewrite (Hm3 q) by done. change (mem s2 x) with (mem s1 x).
      apply HA3 in Hq as [[HqA Hne]%HA1 _]. apply (same_but_page (p_trapframe p) q); [done|by apply (ctx_al _ _ _ _ _ C)|done|done|done].
    + assert (Hps : procs s3 = alter (fun p => {| p with p_trapframe := 0 |}) i (procs s)) by (rewrite E3; unfold s2; by rewrite E1).
      rewrite Hps, list_alter_alter_eq, E3. unfold s2. rewrite E1. reflexivity.
Qed.

(** ** The scan for children *)
Definition child_of (i : nat) (p : proc) : bool := bool_decide (parent p = Some i).
Definition dead_child (i : nat) (p : proc) : bool := child_of i p && bool_decide (state p = ZOMBIE).

Lemma scan_alive i addr js l : forall hk s, held s = [L_wait] -> (forall j, j ∈ js -> dead_child i (procs s !!! j) = false) ->
  kwait_scan i addr (js ++ l) hk s = kwait_scan i addr l (hk || existsb (fun j => child_of i (procs s !!! j)) js) s.
Proof.
  induction js as [|j js IH]; intros hk s Hh Hjs; [by rewrite orb_false_r|].
  assert (Hrest : forall j, j ∈ js -> dead_child i (procs s !!! j) = false) by (intros j' Hj'; apply Hjs; by right).
  pose proof (Hjs j ltac:(by left)) as Hj. cbn [app kwait_scan existsb]. unfold bind at 1, get_proc at 1, gets. unfold dead_child, child_of in *.
  destruct (bool_decide (parent (procs s !!! j) = Some i)); cbn [andb orb] in *.
  - unfold bind at 1. rewrite acquire_eval by (rewrite Hh; by intros ?%list_elem_of_singleton).
    unfold bind at 1, get_proc, gets. cbn [procs set_held]. rewrite Hj. unfold bind. erewrite release_eval by done.
    assert (set_held (held s) (set_held (L_proc j :: held s) s) = s) as -> by (by destruct s).
    rewrite IH by done. f_equal. by rewrite orb_true_r.
  - by rewrite IH.
Qed.

Lemma vmctx_held s T A l h : vmctx s T A l -> L_kmem ∉ h -> vmctx (set_held h s) T A l.
Proof. intros [[H1 H2 H3 H4] H5 H6 H7] Hh. split; [split|..]; done. Qed.

(** User memory with the exit status stored at [addr], if that is not null. *)
Definition stored (addr : Z) (bytes : list Z) (old : Z -> Z) (va : Z) : Z :=
  if addr =? 0 then old va else ustore addr bytes old va.

Section Wait.
Context (s : kstate) (i pp : nat) (T T1 : ptree) (A l : list Z) (addr : Z).
Let p := procs s !!! i.
Let c := procs s !!! pp.
Context (Hcur : cur s = Some i) (Hheld : held s = []) (Hlen : length (procs s) = NPROC) (Hpp : (pp < NPROC)%nat).
(** The child, a zombie, and its memory. *)
Context (C : vmctx s T A l) (Hsp : proc_space (mem s) c T A).
(** The memory of the parent is separate. *)
Context (U : uspace (mem s) T1 (pagetable p)).
Context (Hsep1 : forall a q, T1 a = Some q -> q ∈ A /\ ~ owned (mem s) c T q).
Context (Hsep2 : forall va, 0 <= va < TRAPFRAME -> uvalid (mem s) T1 va ->
  PTE2PA (pte_at (mem s) T1 va) ∈ A /\ ~ owned (mem s) c T (PTE2PA (pte_at (mem s) T1 va))).
Context (Haddr : addr = 0 \/ 0 <= addr /\ addr + 4 <= TRAPFRAME /\ forall va, in_range addr 4 va -> user_ok PTE_W (mem s) T1 va).
Let status := le_bytes 4 (xstate c).

Lemma status_copied s1 : mem s1 = mem s -> exists m',
  (if negb (addr =? 0) then copyout (pagetable p) addr status else ret 0) s1 = Ok 0 (set_mem m' s1) /\
  uspace m' T1 (pagetable p) /\ (forall va, 0 <= va -> pte_at m' T1 va = pte_at (mem s) T1 va) /\
  (forall va, uvalid (mem s) T1 va -> umem m' T1 va = stored addr status (umem (mem s) T1) va) /\
  (forall q x, q ∈ l \/ (exists a, T a = Some q) -> q <= x < q + PGSIZE -> m' x = mem s x).
Proof.
  intros Em. unfold stored. destruct (Z.eqb_spec addr 0) as [E|Hne]; cbn [negb].
  { exists (mem s). split_and!; [unfold ret; rewrite <-Em; by destruct s1|done..]. }
  destruct Haddr as [?|(H0 & Htop & Hok)]; [done|]. assert (Hl4 : Z.of_nat (length status) = 4) by (unfold status; by rewrite length_le_bytes).
  destruct (copyout_loop_spec T1 (pagetable p) (length status) s1 addr status) as (m' & Hev & U' & Hp & Hm); [done|by rewrite Em|done|by rewrite Em, Hl4|].
  rewrite Em in *. exists m'. split_and!; try done. intros q x Hq Hx.
  pose proof (copyout_elsewhere T1 (pagetable p) (length status) s1 addr status m' ltac:(done) ltac:(by rewrite Em) H0 ltac:(by rewrite Em, Hl4) Hev x) as He.
  rewrite Em in He. apply He. intros va Hva. rewrite Hl4 in Hva. destruct (Hok va Hva) as [Hv _].
  destruct (Hsep2 va ltac:(unfold in_range in Hva; lia) Hv) as [HfA Hfo]. set (f := PTE2PA _) in *.
  assert (q <> f /\ q mod PGSIZE = 0) as [Hqf Hqal].
  { destruct Hq as [Hq|(a & Ha)].
    - pose proof (kmem_aligned _ _ _ (vc_kmem _ _ _ _ C)) as Hal. rewrite Forall_forall in Hal. split; [|apply Hal, elem_of_app; by right].
      intros ->. destruct (vc_kmem _ _ _ _ C) as [_ Hnd _ _]. apply NoDup_app in Hnd as (_ & Hd & _). by apply (Hd f).
    - split; [|apply (ctx_al _ _ _ _ _ C), (vc_in _ _ _ _ C a q Ha)]. intros ->. apply Hfo. right; left. eauto. }
  destruct (pages_disjoint q f Hqal (ctx_al _ _ _ _ _ C HfA) Hqf); lia.
Qed.

(** The child is gone, its pages are free, and the parent has the status. *)
Definition reaping (s' : kstate) : Prop :=
  (exists A' l', kmem_inv s' A' l' /\ forall q, q ∈ A' <-> q ∈ A /\ ~ owned (mem s) c T q) /\
  (forall va, 0 <= va < TRAPFRAME -> uvalid (mem s) T1 va ->
     pte_at (mem s') T1 va = pte_at (mem s) T1 va /\ umem (mem s') T1 va = stored addr status (umem (mem s) T1) va) /\
  s' = set_procs (alter reaped pp (procs s)) (set_freelist (freelist s') (set_mem (mem s') s)).

(** What happens to memory. *)
Lemma gone_reaping s2 s3 : vmctx s2 T A l -> uspace (mem s2) T1 (pagetable p) ->
  s2 = set_held (held s2) (set_mem (mem s2) s) ->
  (forall va, 0 <= va -> pte_at (mem s2) T va = pte_at (mem s) T va) ->
  (forall va, 0 <= va -> pte_at (mem s2) T1 va = pte_at (mem s) T1 va) ->
  (forall va, uvalid (mem s) T1 va -> umem (mem s2) T1 va = stored addr status (umem (mem s) T1) va) ->
  gone s2 pp T A s3 -> reaping (set_held [] s3).
Proof.
  intros C2 U2 E2 Hpc Hpp1 Hm2 (A' & l' & Hk & HA & Hm & E3).
  assert (Hps : procs s2 = procs s) by (by rewrite E2). rewrite Hps in HA, E3. fold c in HA.
  assert (Hown : forall q, q ∈ A' <-> q ∈ A /\ ~ owned (mem s) c T q).
  { intros q. rewrite HA. by rewrite (owned_ext (mem s) (mem s2)). }
  split_and!.
  - exists A', l'. split; [|done]. destruct Hk as [H1 H2 H3 H4]. by split.
  - intros va Hva Hv. change (mem (set_held [] s3)) with (mem s3).
    destruct (rep_ext (mem s2) (mem s3) T1 (us_rep _ _ _ U2)) as [_ Hp3].
    { intros a q x Ha. apply Hm, Hown. by apply (Hsep1 a). }
    assert (Hpe : pte_at (mem s3) T1 va = pte_at (mem s) T1 va) by (rewrite Hp3, Hpp1 by lia; done). split; [done|].
    rewrite <-Hm2 by done. unfold umem, uaddr. rewrite Hpe, Hpp1 by lia. destruct (Hsep2 va Hva Hv) as [H1 H2].
    apply (Hm (PTE2PA (pte_at (mem s) T1 va))); [by apply Hown|]. pose proof (Z.mod_pos_bound va PGSIZE ltac:(done)). lia.
  - rewrite E3, E2. transitivity (set_held (held s) (set_procs (alter reaped pp (procs s)) (set_freelist (freelist s3) (set_mem (mem s3) s)))); [by rewrite Hheld|reflexivity].
Qed.

Lemma reap_zombie hk l' : parent c = Some i -> state c = ZOMBIE ->
  exists s', kwait_scan i addr (pp :: l') hk (set_held [L_wait] s) = Ok (true, Some (pid c)) s' /\ reaping s'.
Proof.
  intros Hpar Hz. cbn [kwait_scan]. unfold bind at 1, get_proc at 1, gets. cbn [procs set_held]. fold c. rewrite Hpar, bool_decide_true by done.
  unfold bind at 1. rewrite acquire_eval by (cbn; by intros ?%list_elem_of_singleton).
  unfold bind at 1, get_proc at 1, gets. cbn [procs set_held held]. fold c. rewrite Hz, bool_decide_true by done.
  unfold bind at 1, get_proc at 1, gets. cbn [procs set_held]. fold p status.
  change (set_held [L_proc pp; L_wait] (set_held [L_wait] s)) with (set_held [L_proc pp; L_wait] s).
  set (s1 := set_held [L_proc pp; L_wait] s).
  destruct (status_copied s1 eq_refl) as (m' & Hev & U' & Hp1 & Hm1 & Helse). unfold bind at 1. rewrite Hev. cbn [Z.ltb Z.compare].
  assert (C1 : vmctx s1 T A l) by (apply vmctx_held; [done|]; intros [?|[?|?%not_elem_of_nil]%elem_of_cons]%elem_of_cons; done).
  destruct (ctx_agree s1 T A l m' C1 Helse) as [C2 Hpc]. set (s2 := set_mem m' s1) in *.
  assert (Hsp2 : proc_space (mem s2) (procs s2 !!! pp) T A).
  { change (procs s2 !!! pp) with c. change (mem s2) with m'. by apply (proc_space_ext (mem s)). }
  pose proof (freeproc_spec s2 pp T A l C2 Hsp2 ltac:(change (procs s2) with (procs s); lia)) as Hf.
  apply wp_elim in Hf as ([] & s3 & Hfe & Hg). unfold bind at 1. rewrite Hfe. exists (set_held [] s3).
  assert (Hh3 : held s3 = [L_proc pp; L_wait]) by (by destruct Hg as (? & ? & _ & _ & _ & ->)).
  split; [|eapply (gone_reaping s2 s3); try done].
  unfold bind. rewrite (release_eval _ _ _ Hh3). by erewrite release_eval by done.
Qed.
End Wait.

Lemma kwait_scans s i addr : cur s = Some i -> held s = [] ->
  kwait addr s = ('(havekids, o) ← kwait_scan i addr proc_ids false;
    match o with
    | Some r => ret r
    | None =>
        k ← (if negb havekids then ret 1 else killed i);
        if negb (k =? 0) then release L_wait;; ret (-1)
        else sleep (C_proc i) L_wait;; ret 0
    end) (set_held [L_wait] s).
Proof.
  intros Hc Hh. unfold kwait, bind at 1. rewrite acquire_eval, Hh by (rewrite Hh; apply not_elem_of_nil).
  unfold kwait_test, bind at 1. by rewrite (myproc_deref_eval _ i).
Qed.

Lemma proc_ids_split pp : (pp < NPROC)%nat -> proc_ids = seq 0 pp ++ pp :: seq (S pp) (NPROC - S pp).
Proof. intros Hpp. unfold proc_ids. change (pp :: seq (S pp) (NPROC - S pp)) with (seq (0 + pp) (S (NPROC - S pp))). rewrite <-seq_app. f_equal. lia. Qed.


(** ** An example: process 0 waits for process 1, which has exited with status 42 *)
Definition demo_wait : kstate :=
  set_cur (Some 0%nat) (set_procs
    ([ {| inhabitant with pid := 6; state := RUNNING; pagetable := demo_root; sz := 4096 |};
       {| inhabitant with pid := 7; state := ZOMBIE; parent := Some 0%nat; xstate := 42; pagetable := demo_child; p_trapframe := demo_tf |} ]
     ++ replicate 62 inhabitant) demo_parent).

Lemma demo_wait_ctx T A l : vmctx demo_parent T A l -> vmctx demo_wait T A l.
Proof. intros [[H1 H2 H3 H4] H5 H6 H7]. split; [split|..]; done. Qed.

(** A page table without pages. *)
Lemma empty_space m p r A : pagetable p = r -> sz p = 0 -> p_trapframe p ∈ A -> p_trapframe p <> r -> proc_space m p (root_only r) A.
Proof.
  intros Er Es Htf Hne. assert (E0 : npages (sz p) * PGSIZE = 0) by (by rewrite Es). split; rewrite ?E0.
  - by rewrite Er.
  - intros i j q [=].
  - rewrite Es. done.
  - split; [intros va Hva|intros va va' Hva]; lia.
  - intros va _. reflexivity.
  - exact Htf.
  - intros [] [=]. congruence.
  - intros (va & Hva & _). lia.
Qed.
Lemma demo_space m A : demo_tf ∈ A -> proc_space m (procs demo_wait !!! 1%nat) (root_only demo_child) A.
Proof. intros Htf. by apply empty_space. Qed.

Lemma demo_parent_space T A l : vmctx demo_parent T A l -> T N2 = Some demo_root ->
  (forall q, q ∈ [demo_frame; demo_child; demo_tf] -> q ∈ A /\ forall a, T a <> Some q) ->
  (forall va, 0 <= va < PGSIZE -> pte_at (mem demo_parent) T va = mkpte demo_frame (Z.lor demo_perm PTE_V)) ->
  (forall va, PGSIZE <= va < MAXVA -> pte_at (mem demo_parent) T va = 0) ->
  uspace (mem demo_parent) T demo_root /\ (forall va, uvalid (mem demo_parent) T va -> 0 <= va < PGSIZE) /\
  forall va, 0 <= va < PGSIZE -> user_ok PTE_W (mem demo_parent) T va.
Proof.
  generalize demo_parent as s. intros s C Hroot Hin Hpte Hrest.
  assert (Hpa : PTE2PA (mkpte demo_frame (Z.lor demo_perm PTE_V)) = demo_frame) by (vm_compute; reflexivity).
  assert (Hv : forall va, uvalid (mem s) T va -> 0 <= va < PGSIZE).
  { intros va [Hva Hv]. destruct (decide (va < PGSIZE)); [lia|]. rewrite Hrest in Hv by lia. done. }
  split_and!.
  - split; [apply C|done| |].
    + intros va Hva%Hv. rewrite Hpte, Hpa by done. split; [done|]. split; [done|]. apply Hin. by left.
    + intros va va' Hva%Hv Hva'%Hv _. unfold PGSIZE in *. dlia.
  - exact Hv.
  - intros va Hva. unfold user_ok, uvalid. rewrite Hpte by done. unfold PGSIZE in Hva. change MAXVA with (2 ^ 38).
    split; [split; [lia|]|split]; vm_compute; reflexivity.
Qed.

