(* ===== verification/Exec.v ===== *)
(** * Loading programs (kernel/exec.c, elf.h) *)

From S2P Require Import Prelude Spinlock State Kstring Kalloc Vm Sync Bio Log Fs File Proc.

Definition ELF_MAGIC : Z := 0x464C457F.
Definition ELF_PROG_LOAD : Z := 1.

(** The fields of [struct elfhdr] (64 bytes) and [struct proghdr] (56 bytes) that are used. *)
Record elfhdr := mkelfhdr { e_magic : Z; e_entry : Z; e_phoff : Z; e_phnum : Z }.
Definition elfhdr_of (d : list Z) : elfhdr :=
  {| e_magic := get_le 0 4 d; e_entry := get_le 24 8 d; e_phoff := get_le 32 8 d;
     e_phnum := get_le 56 2 d |}.
Record proghdr := mkproghdr {
  ph_type : Z; ph_flags : Z; ph_off : Z; ph_vaddr : Z; ph_filesz : Z; ph_memsz : Z }.
Definition proghdr_of (d : list Z) : proghdr :=
  {| ph_type := get_le 0 4 d; ph_flags := get_le 4 4 d; ph_off := get_le 8 8 d;
     ph_vaddr := get_le 16 8 d; ph_filesz := get_le 32 8 d; ph_memsz := get_le 40 8 d |}.
Definition ELFHDR_SIZE : Z := 64.
Definition PROGHDR_SIZE : Z := 56.

Definition flags2perm (flags : Z) : Z :=
  let perm := if negb (Z.land flags 0x1 =? 0) then PTE_X else 0 in
  if negb (Z.land flags 0x2 =? 0) then Z.lor perm PTE_W else perm.

(** The loop of [loadseg] from page offset [i]. *)
Fixpoint loadseg_loop (fuel : nat) (pt va : Z) (ip : nat) (offset size i : Z) : K Z :=
  if i <? size then
    match fuel with
    | O => fault "loadseg: out of fuel"
    | S fuel' =>
        pa ← walkaddr pt (u64 (va + i));
        panic_if (pa =? 0) "loadseg: address should exist";;
        let n := if size - i <? PGSIZE then size - i else PGSIZE in
        '(r, _) ← readi ip (Kaddr pa) (u32 (offset + i)) n;
        if negb (r =? n) then ret (-1)
        else loadseg_loop fuel' pt va ip offset size (u32 (i + PGSIZE))
    end
  else ret 0.
Definition loadseg (pt va : Z) (ip : nat) (offset size : Z) : K Z :=
  loadseg_loop (S (Z.to_nat (size / PGSIZE))) pt va ip offset size 0.

(** The loop over the program headers: the new size of the process, or an error with the size
    that is to be freed. *)
Fixpoint load_segments (n : nat) (pt : Z) (ip : nat) (off size : Z) : K (bool * Z) :=
  match n with
  | O => ret (true, size)
  | S n' =>
      '(r, bs) ← readi ip (Klocal []) (u32 off) PROGHDR_SIZE;
      if negb (r =? PROGHDR_SIZE) then ret (false, size)
      else
        let ph := proghdr_of bs in
        if negb (ph_type ph =? ELF_PROG_LOAD) then load_segments n' pt ip (s32 (off + PROGHDR_SIZE)) size
        else if ph_memsz ph <? ph_filesz ph then ret (false, size)
        else if u64 (ph_vaddr ph + ph_memsz ph) <? ph_vaddr ph then ret (false, size)
        else if negb (ph_vaddr ph mod PGSIZE =? 0) then ret (false, size)
        else
          size1 ← uvmalloc pt size (u64 (ph_vaddr ph + ph_memsz ph)) (flags2perm (ph_flags ph));
          if size1 =? 0 then ret (false, size)
          else
            r ← loadseg pt (ph_vaddr ph) ip (u32 (ph_off ph)) (u32 (ph_filesz ph));
            if r <? 0 then ret (false, size1)
            else load_segments n' pt ip (s32 (off + PROGHDR_SIZE)) size1
  end.

(** Copy the argument strings [argv] to the stack: the stack pointer and [ustack], or an
    error.  The strings end with a NUL. *)
Fixpoint push_args (argv : list (list Z)) (pt sp stackbase : Z) (ustack : list Z) :
    K (option (Z * list Z)) :=
  match argv with
  | [] => ret (Some (sp, ustack))
  | arg :: argv' =>
      if (MAXARG <=? length ustack)%nat then ret None
      else
        let sp := u64 (sp - (strlen arg + 1)) in
        let sp := sp - sp mod 16 in
        if sp <? stackbase then ret None
        else
          r ← copyout pt sp (take (Z.to_nat (strlen arg)) arg ++ [0]);
          if r <? 0 then ret None
          else push_args argv' pt sp stackbase (ustack ++ [sp])
  end.

(** The part of a path after its last slash. *)
Fixpoint last_elem (path last : list Z) : list Z :=
  match path with
  | [] => last
  | c :: path' => last_elem path' (if c =? 47 then path' else last)
  end.

(** The [bad] exit with the page table [pt], if there is one, and the inode, if still held. *)
Definition exec_bad (pt size : Z) (ip : option nat) : K Z :=
  when (negb (pt =? 0)) (proc_freepagetable pt size);;
  (match ip with
   | Some ip => iunlockput ip;; end_op
   | None => ret tt
   end);;
  ret (-1).

(** From the loaded segments to the return: the stack, the arguments and the switch to the
    new image. *)
Definition exec_commit (path : list Z) (argv : list (list Z)) (pt size entry : Z) : K Z :=
  i ← myproc_deref;
  p ← get_proc i;
  let oldsz := sz p in
  let size := PGROUNDUP size in
  size1 ← uvmalloc pt size (u64 (size + (USERSTACK + 1) * PGSIZE)) PTE_W;
  if size1 =? 0 then exec_bad pt size None
  else
    uvmclear pt (size1 - (USERSTACK + 1) * PGSIZE);;
    let stackbase := size1 - USERSTACK * PGSIZE in
    r ← push_args argv pt size1 stackbase [];
    match r with
    | None => exec_bad pt size1 None
    | Some (sp, ustack) =>
        let argc := Z.of_nat (length ustack) in
        if (MAXARG <=? length ustack)%nat then fault "ustack[argc] out of range"
        else
          let sp := u64 (sp - (argc + 1) * 8) in
          let sp := sp - sp mod 16 in
          if sp <? stackbase then exec_bad pt size1 None
          else
            r ← copyout pt sp (concat (map (le_bytes 8) (ustack ++ [0])));
            if r <? 0 then exec_bad pt size1 None
            else
              tf ← gets (fun s => tframes s (p_trapframe p));
              set_tframe (p_trapframe p) {| tf with a1 := sp |};;
              set_proc i (fun p => {| p with name := safestrcpy (name p) (last_elem path path) 16 |});;
              set_proc i (fun p => {| p with pagetable := pt |});;
              set_proc i (fun p => {| p with sz := size1 |});;
              tf ← gets (fun s => tframes s (p_trapframe p));
              set_tframe (p_trapframe p) {| tf with epc := entry |};;
              tf ← gets (fun s => tframes s (p_trapframe p));
              set_tframe (p_trapframe p) {| tf with tf_sp := sp |};;
              proc_freepagetable (pagetable p) oldsz;;
              ret argc
    end.

Definition kexec (path : list Z) (argv : list (list Z)) : K Z :=
  i ← myproc_deref;
  begin_op;;
  o ← namei path;
  match o with
  | None => end_op;; ret (-1)
  | Some ip =>
      ilock (Some ip);;
      '(r, bs) ← readi ip (Klocal []) 0 ELFHDR_SIZE;
      if negb (r =? ELFHDR_SIZE) then exec_bad 0 0 (Some ip)
      else
        let elf := elfhdr_of bs in
        if negb (e_magic elf =? ELF_MAGIC) then exec_bad 0 0 (Some ip)
        else
          pt ← proc_pagetable i;
          if pt =? 0 then exec_bad 0 0 (Some ip)
          else
            '(ok, size) ← load_segments (Z.to_nat (e_phnum elf)) pt ip (s32 (e_phoff elf)) 0;
            if negb ok then exec_bad pt size (Some ip)
            else
              iunlockput ip;;
              end_op;;
              exec_commit path argv pt size (e_entry elf)
  end.
