(* ===== verification/Syscall.v ===== *)
(** * System calls: arguments and the calls on processes (kernel/syscall.c, sysproc.c) *)

From S2P Require Import Prelude Spinlock State Printk Kstring Kalloc Vm Sync Bio Log Fs File Proc Exec.

(** ** kernel/syscall.c: arguments *)

(** The value stored at [*ip] is returned with the result. *)
Definition fetchaddr (addr : Z) : K (Z * Z) :=
  i ← myproc_deref;
  p ← get_proc i;
  if (sz p <=? addr) || (sz p <? u64 (addr + 8)) then ret (-1, 0)
  else
    '(r, bs) ← copyin (pagetable p) addr 8;
    if negb (r =? 0) then ret (-1, 0) else ret (0, le_val bs).

(** The length, and the contents of [buf]. *)
Definition fetchstr (addr : Z) (max : nat) : K (Z * list Z) :=
  i ← myproc_deref;
  p ← get_proc i;
  '(r, buf) ← copyinstr (pagetable p) addr max;
  if r <? 0 then ret (-1, buf) else ret (strlen buf, buf).

Definition my_trapframe : K trapframe :=
  i ← myproc_deref;
  p ← get_proc i;
  gets (fun s => tframes s (p_trapframe p)).

Definition argraw (n : Z) : K Z :=
  tf ← my_trapframe;
  if n =? 0 then ret (a0 tf)
  else if n =? 1 then ret (a1 tf)
  else if n =? 2 then ret (a2 tf)
  else if n =? 3 then ret (a3 tf)
  else if n =? 4 then ret (a4 tf)
  else if n =? 5 then ret (a5 tf)
  else panic "argraw".

Definition argint (n : Z) : K Z := v ← argraw n; ret (s32 v).
Definition argaddr (n : Z) : K Z := argraw n.
Definition argstr (n : Z) (max : nat) : K (Z * list Z) :=
  addr ← argaddr n; fetchstr addr max.
(** A path argument without its NUL, or an error. *)
Definition path_of (buf : list Z) : list Z := take (Z.to_nat (strlen buf)) buf.

(** ** kernel/sysproc.c *)
Definition SBRK_EAGER : Z := 1.

Definition sys_exit : K Z := n ← argint 0; kexit n.

Definition sys_getpid : K Z := i ← myproc_deref; p ← get_proc i; ret (pid p).

Definition sys_fork : K Z := kfork.

Definition sys_wait : K Z := p ← argaddr 0; kwait p.

Definition sys_sbrk : K Z :=
  n ← argint 0;
  t ← argint 1;
  i ← myproc_deref;
  p ← get_proc i;
  let addr := sz p in
  if (t =? SBRK_EAGER) || (n <? 0) then
    r ← growproc n;
    if r <? 0 then ret (-1) else ret addr
  else if u64 (addr + n) <? addr then ret (-1)
  else if TRAPFRAME <? u64 (addr + n) then ret (-1)
  else
    set_proc i (fun p => {| p with sz := u64 (sz p + n) |});;
    ret addr.

(** The waiting loop of [sys_pause], with the lock held. *)
Definition sys_pause_test (ticks0 n : Z) : K Z :=
  t ← gets (fun s => ticks s);
  if u32 (t - ticks0) <? n then
    i ← myproc_deref;
    k ← killed i;
    if negb (k =? 0) then release L_ticks;; ret (-1)
    else sleep C_ticks L_ticks;; ret 0
  else release L_ticks;; ret 0.
Definition sys_pause : K Z :=
  n ← argint 0;
  let n := if n <? 0 then 0 else n in
  acquire L_ticks;;
  ticks0 ← gets (fun s => ticks s);
  sys_pause_test ticks0 n.
Definition sys_pause_resume (ticks0 n : Z) : K Z := sleep_after L_ticks;; sys_pause_test ticks0 n.

Definition sys_kill : K Z := v ← argint 0; kkill v.

Definition sys_uptime : K Z :=
  acquire L_ticks;;
  t ← gets (fun s => ticks s);
  release L_ticks;;
  ret t.

Definition sys_getidade : K Z := ret 2026.

(** The pid of the parent, or 1. *)
Definition sys_getppid : K Z :=
  i ← myproc_deref;
  p ← get_proc i;
  match parent p with
  | Some q => r ← get_proc q; ret (pid r)
  | None => ret 1
  end.
