(* ===== verification/Sbrk.v ===== *)
(** * The memory of a process: sbrk and page faults (the theory of sys_sbrk, growproc and vmfault)

    Memory can be added at once or when it is first used; the process cannot tell which. *)

From S2P Require Import Prelude Spinlock State Kstring Kalloc Vm Pgtbl Vmcopy Vmfree Sync Vmgrow Proc Wait Syscall.

Definition with_sz (n : Z) (p : proc) : proc := {| p with sz := n |}.

(** From [s] to [s'] the memory of process [p] is resized to [newsz]: what it sees below the new
    size is unchanged, with zeros above; nobody else's page changes, and none is lost. *)
Record resized (s : kstate) (p : proc) (T : ptree) (A : list Z) (newsz : Z) (s' : kstate) (T' : ptree) (A' l' : list Z) : Prop := {
  rz_ctx : vmctx s' T' A' l';
  rz_space : proc_space (mem s') (with_sz newsz p) T' A';
  rz_state : s' = set_freelist (freelist s') (set_mem (mem s') s);
  rz_mem : forall va, 0 <= va < TRAPFRAME ->
    lazymem (mem s') T' va = if decide (va < npages newsz * PGSIZE) then lazymem (mem s) T va else 0;
  rz_top : forall va, TRAPFRAME <= va < MAXVA -> pte_at (mem s') T' va = pte_at (mem s) T va;
  rz_others : forall q, q ∈ A -> ~ owned (mem s) p T q ->
    q ∈ A' /\ ~ owned (mem s') (with_sz newsz p) T' q /\ forall x, q <= x < q + PGSIZE -> mem s' x = mem s x;
  rz_acct : forall q, q ∈ A' -> q ∉ A \/ owned (mem s) p T q -> owned (mem s') (with_sz newsz p) T' q }.

Lemma TRAPFRAME_MAXVA : TRAPFRAME < MAXVA.
Proof. done. Qed.
Lemma npages_top size : 0 <= size <= TRAPFRAME -> 0 <= npages size /\ npages size * PGSIZE <= TRAPFRAME /\ size <= npages size * PGSIZE.
Proof. destruct TOP_eq as [-> _]. intros H. unfold npages, PGSIZE in *. dlia. Qed.

Section Resize.
Context (s : kstate) (p : proc) (T : ptree) (A l : list Z).
Context (C : vmctx s T A l) (Hsp : proc_space (mem s) p T A).
Let lo := npages (sz p).

Let Hlo : 0 <= lo /\ lo * PGSIZE <= TRAPFRAME /\ sz p <= lo * PGSIZE.
Proof. apply npages_top, Hsp. Qed.

(** A valid page is below the size. *)
Lemma valid_low va : 0 <= va < TRAPFRAME -> has (pte_at (mem s) T va) PTE_V = true -> va < lo * PGSIZE.
Proof. intros Hva Hv. destruct (decide (va < lo * PGSIZE)); [done|]. rewrite (sp_above _ _ _ _ Hsp) in Hv by (fold lo; lia). done. Qed.
Lemma space_own : own_frames (mem s) T A 0 TRAPFRAME.
Proof.
  destruct (sp_own _ _ _ _ Hsp) as [H1 H2]. fold lo in H1, H2. split.
  - intros va Hva Hv. apply H1; [|done]. split; [apply Hva|by apply valid_low].
  - intros va va' Hva Hva' Hv Hv'. apply H2; try done; (split; [lia|by apply valid_low]).
Qed.
Lemma space_frames q c : lo * PGSIZE <= c -> c <= TRAPFRAME -> frame_in (mem s) T 0 (lo * PGSIZE) q <-> frame_in (mem s) T 0 c q.
Proof.
  intros Hc Ht. split; intros (va & Hva & Hv & E); exists va; (split; [|done]); [lia|].
  split; [lia|]. apply valid_low; [lia|done].
Qed.

(** The pages from [a] to [b], which were not mapped, may have got new frames. *)
Section Grows.
Context (newsz : Z) (s1 : kstate) (T1 : ptree) (A1 l1 : list Z) (a b : Z).
Let hi := npages newsz.
Context (Hnew : sz p <= newsz <= TRAPFRAME) (Hb : b * PGSIZE <= TRAPFRAME).
Context (C1 : vmctx s1 T1 A1 l1) (K : undisturbed s T A s1 T1 A1).
Context (Hpte : forall va, 0 <= va < MAXVA -> ~ a * PGSIZE <= va < b * PGSIZE -> pte_at (mem s1) T1 va = pte_at (mem s) T va).
Context (Hfree : forall va, a * PGSIZE <= va < b * PGSIZE -> has (pte_at (mem s) T va) PTE_V = false).
Context (Hrange : own_frames (mem s1) T1 A1 (a * PGSIZE) (b * PGSIZE)).
Context (Hfresh : forall q, frame_in (mem s1) T1 (a * PGSIZE) (b * PGSIZE) q -> q ∉ A).
Context (Hzero : forall va, a * PGSIZE <= va < b * PGSIZE -> lazymem (mem s1) T1 va = 0).
Context (Habove : forall va, hi * PGSIZE <= va < TRAPFRAME -> has (pte_at (mem s1) T1 va) PTE_V = false).
Context (Hacct : forall q, q ∈ A1 -> q ∈ A \/ (exists n, T1 n = Some q) \/ frame_in (mem s1) T1 (a * PGSIZE) (b * PGSIZE) q).
Context (Ha : 0 <= a).

Let Hhi : lo <= hi /\ hi * PGSIZE <= TRAPFRAME.
Proof. pose proof (sp_size _ _ _ _ Hsp) as H. split; [apply npages_mono, Hnew|]. apply npages_top. lia. Qed.
Let Hsame va : 0 <= va < TRAPFRAME -> ~ a * PGSIZE <= va < b * PGSIZE -> pte_at (mem s1) T1 va = pte_at (mem s) T va.
Proof. intros Hva. apply Hpte. pose proof TRAPFRAME_MAXVA. lia. Qed.
Let Hown1 : own_frames (mem s1) T1 A1 0 TRAPFRAME.
Proof. by apply (refill_own s T A s1 T1 A1 (a * PGSIZE) (b * PGSIZE)); [|apply space_own|..]. Qed.

Lemma grows_frame q : q ∈ A -> frame_in (mem s1) T1 0 (hi * PGSIZE) q -> frame_in (mem s) T 0 (lo * PGSIZE) q.
Proof.
  intros Hq (va & Hva & Hv & E). destruct (decide (a * PGSIZE <= va < b * PGSIZE)) as [Hin|Hout].
  - exfalso. apply (Hfresh q); [by exists va|done].
  - rewrite Hsame in Hv, E by (done || lia). exists va. split; [|done]. split; [lia|]. apply valid_low; [lia|done].
Qed.
Lemma grows_frame_in q : frame_in (mem s) T 0 (lo * PGSIZE) q -> frame_in (mem s1) T1 0 (hi * PGSIZE) q.
Proof.
  intros (va & Hva & Hv & E). exists va. rewrite Hsame; [split; [unfold PGSIZE in *; lia|done]|lia|].
  intros Hin. by rewrite Hfree in Hv.
Qed.

Lemma grows_resized : resized s p T A newsz s1 T1 A1 l1.
Proof.
  destruct Hsp as [S1 S2 S3 S4 S5 S6 S7 S8]. pose proof TRAPFRAME_MAXVA.
  assert (HT1 : forall q, q ∈ A -> (forall n, T n <> Some q) -> forall n, T1 n <> Some q) by (intros q Hq HT; by apply (ud_frames _ _ _ _ _ _ K)).
  split; try done.
  - split; try done.
    + by apply K.
    + intros i j q [Hq|?]%(ud_low _ _ _ _ _ _ K); [|done]. by apply (S2 i j q).
    + cbn. lia.
    + cbn. fold hi. destruct Hown1 as [O1 O2]. split; [intros va Hva; apply O1; lia|intros va va' Hva Hva'; apply O2; lia].
    + by apply K.
    + by apply HT1.
    + intros Hf. by apply S8, grows_frame.
  - apply K.
  - intros va Hva. case_decide as Hd; [|by apply lazymem_none, Habove; fold hi in Hd; lia].
    by apply (refill_mem s T A s1 T1 A1 (a * PGSIZE) (b * PGSIZE) TRAPFRAME); [|apply space_own|..].
  - intros va Hva. apply Hpte; [|lia]. destruct TOP_eq as [E _]. rewrite E in Hva. unfold PGSIZE in *. lia.
  - intros q Hq Ho. assert (HT : forall n, T n <> Some q) by (intros n Hn; apply Ho; right; left; eauto).
    destruct (ud_frames _ _ _ _ _ _ K q Hq HT) as [HTq Hm]. split_and!; [by apply K| |done].
    intros [?|[[n Hn]|Hf]]; [apply Ho; by left|by apply (HTq n)|apply Ho; right; right; by apply grows_frame].
  - intros q Hq [Hn|[->|[[n Hn]|Hf]]].
    + right. destruct (Hacct q Hq) as [?|[?|(va & Hva & Hv & E)]]; [by destruct Hn|by left|right]. exists va. split; [|done].
      split; [unfold PGSIZE in *; lia|]. destruct (decide (va < hi * PGSIZE)); [done|]. rewrite Habove in Hv by lia. done.
    + by left.
    + right; left. exists n. by apply K.
    + right; right. by apply grows_frame_in.
Qed.
End Grows.

(** Only the size changes. *)
Lemma lazy_resized newsz : sz p <= newsz <= TRAPFRAME -> resized s p T A newsz s T A l.
Proof.
  intros Hnew. assert (Hno : forall va, ~ 0 * PGSIZE <= va < 0 * PGSIZE) by lia.
  apply (grows_resized newsz s T A l 0 0); try done.
  - apply undisturbed_refl.
  - intros va Hva. by destruct (Hno va).
  - split; [intros va Hva|intros va va' Hva]; by destruct (Hno va).
  - intros q (va & Hva & _). by destruct (Hno va).
  - intros va Hva. by destruct (Hno va).
  - intros va Hva. apply (sp_above _ _ _ _ Hsp). pose proof (npages_mono (sz p) newsz ltac:(lia)). unfold PGSIZE in *. lia.
  - intros q Hq. by left.
Qed.

(** The pages from [a] to [b] are mapped. *)
Lemma growing_resized newsz s1 T1 A1 l1 a b : sz p <= newsz <= TRAPFRAME -> 0 <= a <= b -> b <= npages newsz ->
  (forall va, a * PGSIZE <= va < b * PGSIZE -> has (pte_at (mem s) T va) PTE_V = false) ->
  growing s T A a PTE_W b s1 T1 A1 l1 -> resized s p T A newsz s1 T1 A1 l1.
Proof.
  intros Hnew Hab Hb Hfree G. pose proof TRAPFRAME_MAXVA. pose proof (sp_size _ _ _ _ Hsp).
  destruct (npages_top newsz ltac:(lia)) as (H1 & H2 & _). pose proof (npages_mono (sz p) newsz ltac:(lia)) as H3. fold lo in H3.
  apply (grows_resized newsz s1 T1 A1 l1 a b); try done.
  - unfold PGSIZE in *. lia.
  - apply G.
  - apply G.
  - apply (fi_rest _ _ _ _ _ _ _ _ _ _ _ G).
  - by eapply filling_own.
  - intros q Hq. by eapply filling_frame_in.
  - intros va Hva. by destruct (growing_mem s T A a b PTE_W s1 T1 A1 l1 va ltac:(done) G Hva) as (f & _ & _ & _ & _ & _ & _ & Hz).
  - intros va Hva. rewrite (fi_rest _ _ _ _ _ _ _ _ _ _ _ G) by (unfold PGSIZE in *; lia).
    apply (sp_above _ _ _ _ Hsp). fold lo. unfold PGSIZE in *. lia.
  - intros q Hq. destruct (fi_acct _ _ _ _ _ _ _ _ _ _ _ G q Hq) as [?|[?|(va & Hva & Hv & E)]]; [by left|by right; left|].
    right; right. exists va. split; [done|]. split; [|done]. by rewrite (filling_entry _ _ _ a _ _ _ _ _ _ _ va G) by done.
  - lia.
Qed.

(** There was no memory for them. *)
Lemma unfilled_resized s1 T1 A1 l1 a b : 0 <= a <= b -> b * PGSIZE <= TRAPFRAME ->
  (forall va, a * PGSIZE <= va < b * PGSIZE -> has (pte_at (mem s) T va) PTE_V = false) ->
  unfilled s T A a b s1 T1 A1 l1 -> resized s p T A (sz p) s1 T1 A1 l1.
Proof.
  intros Hab Hb Hfree [U1 U2 U3 U4 U5]. pose proof TRAPFRAME_MAXVA. pose proof (sp_size _ _ _ _ Hsp).
  apply (grows_resized (sz p) s1 T1 A1 l1 a b); try done.
  - lia.
  - split; [intros va Hva Hv|intros va va' Hva _ Hv]; by rewrite U3 in Hv.
  - intros q (va & Hva & Hv & _). by rewrite U3 in Hv.
  - intros va Hva. by apply lazymem_none, U3.
  - intros va Hva. destruct (decide (a * PGSIZE <= va < b * PGSIZE)); [by apply U3|].
    rewrite U4 by (done || (unfold PGSIZE in *; lia)). by apply (sp_above _ _ _ _ Hsp).
  - intros q Hq. destruct (U5 q Hq); [by left|by right; left].
  - lia.
Qed.

(** Pages are given back. *)
Lemma unmapped_resized newsz s1 A1 l1 : 0 <= newsz <= sz p ->
  unmapped s T A (npages newsz * PGSIZE) (lo * PGSIZE) s1 A1 l1 -> resized s p T A newsz s1 T A1 l1.
Proof.
  intros Hnew [U1 U2 U3 U4 U5 U6]. pose proof TRAPFRAME_MAXVA. set (hi := npages newsz) in *.
  pose proof (npages_mono newsz (sz p) ltac:(lia)) as Hle. fold hi lo in Hle.
  destruct (npages_top newsz) as (H1 & H2 & H3); [pose proof (sp_size _ _ _ _ Hsp); lia|]. fold hi in H1, H2, H3.
  assert (Hsame : forall va, 0 <= va < hi * PGSIZE -> pte_at (mem s1) T va = pte_at (mem s) T va).
  { intros va Hva. apply U4; lia. }
  assert (Hf1 : forall q, frame_in (mem s1) T 0 (hi * PGSIZE) q <-> frame_in (mem s) T 0 (hi * PGSIZE) q).
  { intros q. by apply frame_in_ext. }
  assert (Hf2 : forall q, frame_in (mem s) T 0 (hi * PGSIZE) q -> frame_in (mem s) T 0 (lo * PGSIZE) q).
  { intros q (va & Hva & H'). exists va. split; [unfold PGSIZE in *; lia|done]. }
  assert (Hf3 : forall q, frame_in (mem s) T (hi * PGSIZE) (lo * PGSIZE) q -> frame_in (mem s) T 0 (lo * PGSIZE) q).
  { intros q (va & Hva & H'). exists va. split; [unfold PGSIZE in *; lia|done]. }
  assert (Hsep : forall q, frame_in (mem s) T 0 (hi * PGSIZE) q -> ~ frame_in (mem s) T (hi * PGSIZE) (lo * PGSIZE) q).
  { intros q (va & Hva & Hv & E) (va' & Hva' & Hv' & E'). destruct (sp_own _ _ _ _ Hsp) as [_ O2]. fold lo in O2.
    specialize (O2 va va' ltac:(unfold PGSIZE in *; lia) ltac:(unfold PGSIZE in *; lia) Hv Hv' ltac:(congruence)). unfold PGSIZE in *. dlia. }
  destruct Hsp as [S1 S2 S3 S4 S5 S6 S7 S8]. fold lo in S4, S5, S8. split.
  - done.
  - split; try done; cbn; fold hi.
    + lia.
    + split.
      * intros va Hva. rewrite Hsame by done. intros Hv. destruct (proj1 S4 va ltac:(unfold PGSIZE in *; lia) Hv) as [O1 O2]. split; [|done].
        apply U2. split; [done|]. apply Hsep. by exists va.
      * intros va va' Hva Hva'. rewrite !Hsame by done. apply S4; unfold PGSIZE in *; lia.
    + intros va Hva. destruct (decide (va < lo * PGSIZE)); [apply U3; lia|]. rewrite U4 by lia. apply S5. lia.
    + apply U2. split; [done|]. intros Hf. by apply S8, Hf3.
    + intros Hf%Hf1. by apply S8, Hf2.
  - done.
  - intros va Hva. fold hi. case_decide as Hd.
    + unfold lazymem. rewrite Hsame by lia. destruct (has (pte_at (mem s) T va) PTE_V) eqn:Hv; [|done].
      destruct (proj1 S4 va ltac:(unfold PGSIZE in *; lia) Hv) as [O1 O2].
      eapply umem_same; [apply Hsame; lia|done|]. intros x Hx. apply (U5 (PTE2PA (pte_at (mem s) T va)) x); [|done|done]. apply U2. split; [done|]. apply Hsep. exists va. by split; [lia|].
    + apply lazymem_none. destruct (decide (va < lo * PGSIZE)); [apply U3; lia|]. rewrite U4 by lia. apply S5. lia.
  - intros va Hva. apply U4; [|lia]. destruct TOP_eq as [E _]. rewrite E in Hva. unfold PGSIZE in *. lia.
  - intros q Hq Ho. assert (HT : forall n, T n <> Some q) by (intros n Hn; apply Ho; right; left; eauto).
    assert (Hq1 : q ∈ A1) by (apply U2; split; [done|]; intros Hf; apply Ho; right; right; by apply Hf3).
    split_and!; [done| |intros x Hx; by apply (U5 q x)].
    intros [?|[[n Hn]|Hf%Hf1]]; [apply Ho; by left|by apply (HT n)|apply Ho; right; right; by apply Hf2].
  - intros q [Hq Hnf]%U2 [Hn|[->|[[n Hn]|(va & Hva & Hv & E)]]]; [done|by left|right; left; eauto|].
    right; right. apply Hf1. exists va. split; [|done]. split; [lia|].
    destruct (decide (va < hi * PGSIZE)); [done|]. destruct Hnf. exists va. by split; [fold lo in Hva; lia|].
Qed.
End Resize.

(** ** The system call and the page fault *)
Section Calls.
Context (s : kstate) (i : nat) (T : ptree) (A l : list Z).
Let p := procs s !!! i.
Context (Hcur : cur s = Some i) (C : vmctx s T A l) (Hsp : proc_space (mem s) p T A).

Definition sized (newsz : Z) (s1 : kstate) : kstate := set_procs (alter (with_sz newsz) i (procs s1)) s1.
Definition resize_post (newsz : Z) (s' : kstate) : Prop :=
  exists s1 T1 A1 l1, s' = sized newsz s1 /\ resized s p T A newsz s1 T1 A1 l1.

Lemma resized_procs newsz s1 T1 A1 l1 : resized s p T A newsz s1 T1 A1 l1 -> procs s1 = procs s.
Proof. intros [_ _ -> _ _ _ _]. done. Qed.

(** [growproc], and why it fails. *)
Lemma growproc_spec n : - 2 ^ 31 <= n < 2 ^ 31 ->
  wp (growproc n) (fun r s' =>
    r = 0 /\ (sz p + n <= TRAPFRAME \/ n <= 0) /\ resize_post (if sz p + n <? 0 then sz p else sz p + n) s' \/
    r = -1 /\ 0 < n /\ exists T1 A1 l1, resized s p T A (sz p) s' T1 A1 l1) s.
Proof.
  intros Hn. pose proof (sp_size _ _ _ _ Hsp) as Hsz. pose proof (sp_root _ _ _ _ Hsp) as Hroot. pose proof TRAPFRAME_MAXVA as Htop.
  assert (Htf : TRAPFRAME = 2 ^ 38 - 8192) by done.
  unfold growproc. apply wp_bind. eapply wp_intro; [by apply myproc_deref_eval|]. apply wp_bind, wp_gets. fold p.
  assert (Hset : forall newsz s1 T1 A1 l1, resized s p T A newsz s1 T1 A1 l1 ->
    wp (set_proc i (fun p => {| p with sz := newsz |});; ret 0) (fun r s' => r = 0 /\ resize_post newsz s') s1).
  { intros newsz s1 T1 A1 l1 Hr. apply wp_bind, wp_modify, wp_ret. split; [done|]. by exists s1, T1, A1, l1. }
  destruct (Z.ltb_spec 0 n).
  - assert (Hfail : forall s' T1 A1 l1, resized s p T A (sz p) s' T1 A1 l1 -> wp (ret (-1)) (fun r s' =>
      r = 0 /\ (sz p + n <= TRAPFRAME \/ n <= 0) /\ resize_post (if sz p + n <? 0 then sz p else sz p + n) s' \/
      r = -1 /\ 0 < n /\ exists T1 A1 l1, resized s p T A (sz p) s' T1 A1 l1) s').
    { intros s' T1 A1 l1 Hr. apply wp_ret. right. split_and!; [done|done|]. by exists T1, A1, l1. }
    destruct (Z.ltb_spec (sz p + n) 0); [lia|]. rewrite u64_small by lia.
    destruct (Z.ltb_spec TRAPFRAME (sz p + n)); apply wp_bind.
    { apply wp_ret. by eapply Hfail, lazy_resized; [..|lia]. }
    assert (Hfree : forall va, npages (sz p) * PGSIZE <= va < npages (sz p + n) * PGSIZE -> has (pte_at (mem s) T va) PTE_V = false).
    { intros va Hva. apply (sp_above _ _ _ _ Hsp). destruct (npages_top (sz p + n)) as (_ & H3 & _); lia. }
    destruct (npages_top (sz p) Hsz) as (H3 & _). destruct (npages_top (sz p + n) ltac:(lia)) as (H4 & H5 & _).
    pose proof (npages_mono (sz p) (sz p + n) ltac:(lia)).
    apply wp_bind. eapply wp_mono; [apply (uvmalloc_spec s T A l (pagetable p) (sz p) (sz p + n) PTE_W C Hroot); (done || lia)|].
    intros r s1 (T1 & A1 & l1 & [[-> G]|[-> G]]); apply wp_ret.
    + destruct (Z.eqb_spec (sz p + n) 0); [lia|]. eapply wp_mono; [eapply Hset|intros r' s' [-> Hr]; left; split_and!; [done|lia|done]].
      apply (growing_resized s p T A Hsp _ s1 T1 A1 l1 (npages (sz p)) (npages (sz p + n))); [lia|lia|lia|done|exact G].
    + eapply Hfail, (unfilled_resized s p T A Hsp s1 T1 A1 l1 (npages (sz p)) (npages (sz p + n))); [lia|lia|done|exact G].
  - apply wp_bind. destruct (Z.ltb_spec n 0).
    + apply wp_bind. destruct (Z.ltb_spec (sz p + n) 0).
      * eapply wp_intro; [unfold uvmdealloc; rewrite (proj2 (Z.leb_le _ _)); [done|]; unfold u64; rewrite <-(Z_mod_plus_full _ 1), Z.mod_small; lia|].
        apply wp_ret. eapply wp_mono; [eapply Hset, lazy_resized; [done|done|lia]|intros r' s' [-> Hr]; left; split_and!; [done|lia|done]].
      * rewrite u64_small by lia.
        eapply wp_mono; [apply (uvmdealloc_spec s T A l (pagetable p) (npages (sz p + n)) (npages (sz p)) (sz p) (sz p + n) C Hroot); try done; try lia|].
        { destruct (sp_own _ _ _ _ Hsp) as [O1 O2]. destruct (npages_top (sz p + n)) as (H3 & _); [lia|].
          split; [intros va Hva; apply O1|intros va va' Hva Hva'; apply O2]; unfold PGSIZE in *; lia. }
        intros r s1 (-> & A1 & l1 & U). apply wp_ret. eapply wp_mono; [eapply Hset, (unmapped_resized s p T A Hsp); [lia|exact U]|intros r' s' [-> Hr]; left; split_and!; [done|lia|done]].
    + apply wp_ret. assert (n = 0) as -> by lia. rewrite Z.add_0_r. destruct (Z.ltb_spec (sz p) 0); [lia|].
      eapply wp_mono; [eapply Hset, lazy_resized; [done|done|lia]|intros r' s' [-> Hr]; left; split_and!; [done|lia|done]].
Qed.

(** The arguments. *)
Lemma argint_eval k v : k = 0 /\ v = a0 (tframes s (p_trapframe p)) \/ k = 1 /\ v = a1 (tframes s (p_trapframe p)) -> argint k s = Ok (s32 v) s.
Proof. intros [[-> ->]|[-> ->]]; unfold argint, argraw, my_trapframe, bind; by rewrite (myproc_deref_eval _ i). Qed.
End Calls.

(** What sbrk and page faults do to the memory of process [i], of size [sz p]; [n] and [eager] are
    the arguments of the call. *)
Definition sbrk_outcome (s : kstate) (i : nat) (T : ptree) (A : list Z) (n : Z) (eager : bool) (r : Z) (s' : kstate) : Prop :=
  let p := procs s !!! i in
  r = sz p /\ (sz p + n <= TRAPFRAME \/ n <= 0) /\ resize_post s i T A (if sz p + n <? 0 then sz p else sz p + n) s' \/
  r = -1 /\ 0 < n /\ (TRAPFRAME < sz p + n \/ eager = true) /\ exists T' A' l', resized s p T A (sz p) s' T' A' l'.
Definition fault_outcome (s : kstate) (p : proc) (T : ptree) (A : list Z) (va r : Z) (s' : kstate) : Prop :=
  exists T' A' l', resized s p T A (sz p) s' T' A' l' /\
    (r = 0 \/ va < sz p /\ ~ uvalid (mem s) T va /\ user_ok PTE_W (mem s') T' va /\ PTE2PA (pte_at (mem s') T' va) = r) /\
    (sz p <= va \/ uvalid (mem s) T va -> r = 0 /\ s' = s).


(** ** An example: a process without memory asks for 4000 bytes *)
Definition demo_sbrk : kstate :=
  set_cur (Some 1%nat) (set_tframes (fun _ => {| zero_trapframe with a0 := 4000; a1 := 1 |}) demo_wait).

