(* ===== verification/Execmem.v ===== *)
(** * The new image of a process (the theory of kernel/exec.c: from the loaded segments to the
    switch)

    The stack of the new program holds its arguments; then the old memory is given back, or on
    an error the new one. *)

From S2P Require Import Prelude Spinlock State Kstring Kalloc Vm Pgtbl Vmcopy Vmfree Sync Vmgrow Proc Wait Exec Sbrk.

(** ** A page without user access *)
Lemma mkpte_clear f fl : pa_ok f -> Z.land (mkpte f fl) (Z.lnot PTE_U) = mkpte f (Z.land fl (Z.lnot PTE_U)).
Proof.
  intros Hf. unfold mkpte. rewrite Z.land_lor_distr_l. f_equal. rewrite PA2PTE_eq by done.
  apply Z.bits_inj'. intros n Hn. rewrite Z.land_spec, Z.lnot_spec by done. change PTE_U with (2 ^ 4).
  destruct (Z.eq_dec n 4) as [->|Hne].
  - change 1024 with (2 ^ 10). by rewrite Z.mul_pow2_bits_low by lia.
  - by rewrite Z.pow2_bits_false, andb_true_r by lia.
Qed.

Lemma uvmclear_spec s T A l pt va f fl : vmctx s T A l -> T N2 = Some pt -> 0 <= va < MAXVA ->
  pte_at (mem s) T va = mkpte f fl -> pa_ok f -> flags_ok fl -> has fl PTE_V = true ->
  wp (uvmclear pt va) (fun _ s' => vmctx s' T A l /\ kept s T A s' T A /\
    forall va', 0 <= va' < MAXVA -> pte_at (mem s') T va' =
      if decide (va' / PGSIZE = va / PGSIZE) then mkpte f (Z.land fl (Z.lnot PTE_U)) else pte_at (mem s) T va') s.
Proof.
  intros C Hroot Hva E Hf Hfl HV. unfold uvmclear. pose proof (vc_rep _ _ _ _ C) as Hr.
  apply wp_bind. eapply wp_intro; [exact (walk_eval (mem s) T pt _ s Hr eq_refl Hroot Hva)|].
  destruct (T (N0 _ _)) as [q|] eqn:Hq.
  2:{ exfalso. assert (Hz : pte_at (mem s) T va = 0) by (unfold pte_at, leaf; by rewrite Hq).
      assert (Hv : has (pte_at (mem s) T va) PTE_V = true) by (rewrite E, mkpte_has by (done || (split; done)); done). by rewrite Hz in Hv. }
  destruct (Z.eqb_spec (q + 8 * PX 0 va) 0) as [E0|_]; [destruct (leaf_addr_pos (mem s) T va q Hr (proj1 Hva) Hq E0)|].
  unfold panic_if. apply wp_bind, wp_ret, wp_bind, wp_gets. rewrite (read_leaf _ T), E, mkpte_clear by done. apply wp_modify.
  assert (Hfl' : flags_ok (Z.land fl (Z.lnot PTE_U))).
  { rewrite <-(PTE_FLAGS_id fl Hfl). unfold PTE_FLAGS. rewrite <-Z.land_assoc, (Z.land_comm 0x3FF), Z.land_assoc. apply PTE_FLAGS_ok. }
  pose proof (mkpte_range f _ Hf Hfl') as Hrng.
  split; [by apply set_leaf_ctx|]. split; [by eapply set_leaf_kept|]. intros va' Hva'. by apply (set_leaf_pte s T A l va q).
Qed.

Lemma Forall2_both {X Y} (P Q R : X -> Y -> Prop) l k : Forall2 P l k -> Forall2 Q l k -> (forall x y, P x y -> Q x y -> R x y) -> Forall2 R l k.
Proof. intros HP HQ H. induction HP; inversion HQ; constructor; auto. Qed.

(** ** The layout of the stack: the last stack pointer and the addresses of the strings *)
Fixpoint stack_layout (argv : list (list Z)) (sp base : Z) : option (Z * list Z) :=
  match argv with
  | [] => Some (sp, [])
  | arg :: argv' =>
      let a := (sp - (strlen arg + 1)) / 16 * 16 in
      if a <? base then None
      else match stack_layout argv' a base with
           | Some (e, ps) => Some (e, a :: ps)
           | None => None
           end
  end.
Definition cstring (arg : list Z) : list Z := take (Z.to_nat (strlen arg)) arg ++ [0].
(** The C string at address [a] is [arg]. *)
Definition string_at (f : Z -> Z) (arg : list Z) (a : Z) : Prop := uload f a (length (cstring arg)) = cstring arg.

Lemma align16 a : a - a mod 16 = a / 16 * 16.
Proof. dlia. Qed.
Lemma strlen_bounds arg : 0 <= strlen arg <= Z.of_nat (length arg).
Proof. induction arg as [|c arg IH]; cbn [strlen length]; [lia|]. destruct (negb (c =? 0)); lia. Qed.
Lemma length_cstring arg : Z.of_nat (length (cstring arg)) = strlen arg + 1.
Proof. unfold cstring. rewrite length_app, length_take. pose proof (strlen_bounds arg). cbn. lia. Qed.

Lemma length_ptrs ps : length (concat (map (le_bytes 8) ps)) = (8 * length ps)%nat.
Proof. induction ps as [|q ps IH]; [done|]. cbn [map concat length]. rewrite length_app, length_le_bytes, IH. lia. Qed.

Lemma uload_ext f g a n : (forall va, a <= va < a + Z.of_nat n -> f va = g va) -> uload f a n = uload g a n.
Proof. intros H. unfold uload. apply map_ext_in. intros k [_ Hk]%in_seq. apply H. lia. Qed.
Lemma uload_ustore a src f g : (forall va, a <= va < a + Z.of_nat (length src) -> g va = ustore a src f va) -> uload g a (length src) = src.
Proof.
  intros H. apply list_eq_same_length with (length src); [done|unfold uload; by rewrite length_map, length_seq|].
  intros k x y Hk Hx Hy. change (((fun k => g (a + Z.of_nat k)) <$> seq 0 (length src)) !! k = Some x) in Hx.
  rewrite list_lookup_fmap, lookup_seq_lt in Hx by done. injection Hx as <-.
  rewrite H by (cbn; lia). unfold ustore. rewrite decide_True by (cbn; lia).
  rewrite nth_lookup. match goal with |- context [src !! ?n] => replace n with k by lia end. by rewrite Hy.
Qed.

(** ** The image under construction *)

(** The pages at the top are the trap frame of the process and the trampoline of the kernel. *)
Definition top_pages (s : kstate) (p : proc) (T : ptree) : Prop :=
  forall va, TRAPFRAME <= va < MAXVA -> has (pte_at (mem s) T va) PTE_V = true ->
    PTE2PA (pte_at (mem s) T va) = if decide (va < TRAMPOLINE) then p_trapframe p else ld_trampoline (ld s).
Definition trampoline_ok (s : kstate) : Prop :=
  ld_trampoline (ld s) mod PGSIZE = 0 /\ 0 < ld_trampoline (ld s) < ld_end (ld s).

(** An address space in which the kernel can copy. *)
Lemma space_uspace s p T A l : vmctx s T A l -> proc_space (mem s) p T A -> top_pages s p T -> trampoline_ok s ->
  uspace (mem s) T (pagetable p).
Proof.
  intros C Hsp Htop [Htr1 Htr2]. pose proof (space_own s p T A Hsp) as [O1 O2]. destruct TOP_eq as [Etf Etr].
  assert (HA : forall q, q ∈ A -> q mod PGSIZE = 0 /\ 0 < q /\ q <> ld_trampoline (ld s)).
  { intros q Hq. destruct (ctx_page _ _ _ _ _ C Hq) as ([? _] & ? & [_ ?]). split_and!; [done|done|]. intros ->. lia. }
  assert (Hcase : forall va, uvalid (mem s) T va -> let f := PTE2PA (pte_at (mem s) T va) in
    0 <= va < TRAPFRAME /\ f ∈ A /\ frame_in (mem s) T 0 (npages (sz p) * PGSIZE) f \/ TRAPFRAME <= va < TRAMPOLINE /\ f = p_trapframe p \/
    TRAMPOLINE <= va < MAXVA /\ f = ld_trampoline (ld s)).
  { intros va [Hva Hv]. destruct (decide (va < TRAPFRAME)) as [Hlt|Hge].
    - left. assert (Hr : 0 <= va < TRAPFRAME) by lia. split_and!; [lia|lia|by apply O1|].
      exists va. split; [|done]. split; [lia|]. by apply (valid_low s p T A Hsp).
    - right. pose proof (Htop va ltac:(lia) Hv) as E. cbv zeta. rewrite E. case_decide; [left|right]; split; (done || lia). }
  split.
  - apply C.
  - apply Hsp.
  - intros va Hv f. destruct (Hcase va Hv) as [(Hva & Hf & _)|[(Hva & Ef)|(Hva & Ef)]]; fold f in Hf || fold f in Ef.
    + destruct (HA f Hf) as (? & ? & _). split_and!; [done|done|]. by apply O1; [|apply Hv].
    + rewrite Ef. destruct (HA _ (sp_tf _ _ _ _ Hsp)) as (? & ? & _). split_and!; [done|done|]. apply Hsp.
    + rewrite Ef. split_and!; [done|lia|]. intros a Ha. destruct (HA _ (vc_in _ _ _ _ C a _ Ha)) as (_ & _ & ?). done.
  - intros va va' Hv Hv' E. pose proof (sp_tf _ _ _ _ Hsp) as Htf. pose proof (sp_tf_frame _ _ _ _ Hsp) as Hnf.
    destruct (Hcase va Hv) as [(Hva & Hf & Hi)|[(Hva & Ef)|(Hva & Ef)]], (Hcase va' Hv') as [(Hva' & Hf' & Hi')|[(Hva' & Ef')|(Hva' & Ef')]];
      try (exfalso; rewrite E in *; rewrite ?Ef, ?Ef' in *; first [by destruct Hnf | by destruct (HA _ Hf) as (_ & _ & []) | by destruct (HA _ Hf') as (_ & _ & []) | by destruct (HA _ Htf) as (_ & _ & [])]).
    + apply O2; [done|done|apply Hv|apply Hv'|done].
    + rewrite Etf, Etr in *. unfold PGSIZE in *. dlia.
    + rewrite Etr in *. change MAXVA with (2 ^ 38) in *. unfold PGSIZE in *. dlia.
Qed.

Lemma space_round m p T A n : proc_space m p T A -> npages n = npages (sz p) -> 0 <= n <= TRAPFRAME -> proc_space m (with_sz n p) T A.
Proof. intros [S1 S2 S3 S4 S5 S6 S7 S8] E Hn. split; cbn; rewrite ?E; done. Qed.

(** Only validity and frames matter to [proc_space] and [owned]. *)
Definition same_frames (m m' : memory) (T : ptree) : Prop := forall va, 0 <= va < TRAPFRAME ->
  has (pte_at m' T va) PTE_V = has (pte_at m T va) PTE_V /\ PTE2PA (pte_at m' T va) = PTE2PA (pte_at m T va).
Lemma same_frames_in m m' T b q : same_frames m m' T -> b <= TRAPFRAME -> frame_in m' T 0 b q <-> frame_in m T 0 b q.
Proof.
  intros H Hb. split; intros (va & Hva & Hv & E); exists va; destruct (H va ltac:(lia)) as [H1 H2]; (split; [done|]); split; congruence.
Qed.
Lemma same_frames_space m m' p T A : same_frames m m' T -> proc_space m p T A -> proc_space m' p T A.
Proof.
  intros H [S1 S2 S3 S4 S5 S6 S7 S8]. destruct (npages_top (sz p) S3) as (H1 & H2 & _). split; try done.
  - destruct S4 as [O1 O2]. split.
    + intros va Hva. destruct (H va ltac:(lia)) as [-> ->]. by apply O1.
    + intros va va' Hva Hva'. destruct (H va ltac:(lia)) as [-> ->], (H va' ltac:(lia)) as [-> ->]. by apply O2.
  - intros va Hva. destruct (H va ltac:(unfold PGSIZE in *; lia)) as [-> _]. by apply S5.
  - by rewrite (same_frames_in m).
Qed.
Lemma same_frames_owned m m' p T A q : same_frames m m' T -> proc_space m p T A -> owned m' p T q <-> owned m p T q.
Proof. intros H Hs. unfold owned. by rewrite (same_frames_in m m') by (done || apply (npages_top (sz p) (sp_size _ _ _ _ Hs))). Qed.

Section Image.
(** The state [s] in which the segments are loaded: [img] is the process with the new page table. *)
Context (s : kstate) (img : proc) (T : ptree) (A l : list Z).
Let pt := pagetable img.
Let sz0 := npages (sz img) * PGSIZE.
Let base := sz0 + PGSIZE.
Let sz1 := base + PGSIZE.
Context (C : vmctx s T A l) (Hsp : proc_space (mem s) img T A) (Htop : top_pages s img T) (Htr : trampoline_ok s).
Context (Hroom : sz1 <= TRAPFRAME).

(** The segments are as they were loaded; above them are a page without user access and the stack. *)
Record built (s' : kstate) (T' : ptree) (A' l' : list Z) : Prop := {
  im_ctx : vmctx s' T' A' l';
  im_space : proc_space (mem s') (with_sz sz1 img) T' A';
  im_user : uspace (mem s') T' pt;
  im_state : s' = set_freelist (freelist s') (set_mem (mem s') s);
  im_alloc : forall q, q ∈ A -> q ∈ A';
  im_stack : forall va, base <= va < sz1 -> user_ok PTE_W (mem s') T' va /\ has (pte_at (mem s') T' va) PTE_R = true;
  im_guard : forall va, sz0 <= va < base -> has (pte_at (mem s') T' va) PTE_U = false;
  im_low : forall va, 0 <= va < sz0 -> pte_at (mem s') T' va = pte_at (mem s) T va /\ lazymem (mem s') T' va = lazymem (mem s) T va;
  im_others : forall q, q ∈ A -> ~ owned (mem s) img T q ->
    q ∈ A' /\ ~ owned (mem s') (with_sz sz1 img) T' q /\ forall x, q <= x < q + PGSIZE -> mem s' x = mem s x;
  im_acct : forall q, q ∈ A' -> q ∉ A \/ owned (mem s) img T q -> owned (mem s') (with_sz sz1 img) T' q }.

Lemma image_npages : npages sz1 * PGSIZE = sz1.
Proof. unfold sz1, base, sz0. unfold npages, PGSIZE. dlia. Qed.
Lemma base_bounds : PGSIZE <= base /\ base <= sz1.
Proof. unfold sz1, base, sz0. destruct (npages_top (sz img) (sp_size _ _ _ _ Hsp)) as (? & _). unfold PGSIZE in *. lia. Qed.

(** Copies to the stack. *)
Lemma copyout_image s' T' A' l' dst src : built s' T' A' l' -> base <= dst -> dst + Z.of_nat (length src) <= sz1 ->
  exists m', copyout pt dst src s' = Ok 0 (set_mem m' s') /\ built (set_mem m' s') T' A' l' /\
    forall va, base <= va < sz1 -> umem m' T' va = ustore dst src (umem (mem s') T') va.
Proof.
  intros I Hlo Hhi. pose proof base_bounds as [Hb0 Hb1]. destruct I as [I1 I2 I3 I4 Ia I5 I6 I7 I8 I9].
  assert (Hok : forall va, in_range dst (Z.of_nat (length src)) va -> user_ok PTE_W (mem s') T' va).
  { intros va Hva. unfold in_range in Hva. apply I5. lia. }
  assert (H0 : 0 <= dst) by (unfold PGSIZE in *; lia).
  destruct (copyout_loop_spec T' pt (length src) s' dst src) as (m' & Hev & U' & Hp & Hm); [done..|].
  pose proof (copyout_elsewhere T' pt (length src) s' dst src m' ltac:(done) I3 H0 Hok Hev) as Helse.
  assert (Hfr : forall q, q mod PGSIZE = 0 -> ~ frame_in (mem s') T' 0 (npages sz1 * PGSIZE) q -> forall x, q <= x < q + PGSIZE -> m' x = mem s' x).
  { intros q Hq Hnf x Hx. apply Helse. intros va Hva. pose proof (Hok va Hva) as [Hv _]. destruct (us_frame _ _ _ I3 va Hv) as (Hal & _).
    unfold in_range in Hva. destruct (pages_disjoint q _ Hq Hal); [|lia|lia]. intros ->. apply Hnf. exists va. rewrite image_npages.
    split; [unfold PGSIZE in *; lia|]. by split; [apply Hv|]. }
  assert (Hctx : vmctx (set_mem m' s') T' A' l').
  { apply ctx_agree; [done|]. intros q x Hq. pose proof (kmem_aligned _ _ _ (vc_kmem _ _ _ _ I1)) as Hal. rewrite Forall_forall in Hal.
    pose proof (sp_own _ _ _ _ I2) as [O1 _]. destruct Hq as [Hq|[a Ha]]; apply Hfr.
    - apply Hal, elem_of_app. by right.
    - intros (va & Hva & Hv & <-). destruct (O1 va Hva Hv) as [HA _]. destruct (vc_kmem _ _ _ _ I1) as [_ Hnd _ _]. apply NoDup_app in Hnd as (_ & Hd & _). by apply (Hd _ HA).
    - by apply (ctx_al _ _ _ _ _ I1), (vc_in _ _ _ _ I1 a).
    - intros (va & Hva & Hv & <-). destruct (O1 va Hva Hv) as [_ HT]. by apply (HT a). }
  exists m'. split; [done|]. split.
  - split; try done.
    + by apply (proc_space_ext (mem s')).
    + by rewrite I4 at 1.
    + intros va Hva. destruct (I5 va Hva) as [[[? ?] ?] ?]. unfold user_ok, uvalid. cbn [mem set_mem]. rewrite Hp by lia. done.
    + intros va Hva. cbn [mem set_mem]. rewrite Hp by (unfold PGSIZE in *; lia). by apply I6.
    + intros va Hva. cbn [mem set_mem]. rewrite Hp by lia. destruct (I7 va Hva) as [H1 H2]. split; [done|]. rewrite <-H2. unfold lazymem. rewrite Hp by lia.
      destruct (has (pte_at (mem s') T' va) PTE_V) eqn:Hv; [|done]. rewrite Hm.
      * unfold ustore. by rewrite decide_False by (unfold base, PGSIZE in *; lia).
      * split; [|done]. pose proof TRAPFRAME_MAXVA. unfold sz1, base, PGSIZE in *. lia.
    + intros q Hq Ho. destruct (I8 q Hq Ho) as (H1 & H2 & H3). split_and!; [done|cbn [mem set_mem]; by rewrite (owned_ext (mem s'))|].
      intros x Hx. cbn [mem set_mem]. rewrite <-(H3 x) by done. apply (Hfr q); [by apply (ctx_al _ _ _ _ _ C)|intros Hf; apply H2; by right; right|done].
    + intros q Hq Ho. cbn [mem set_mem]. rewrite (owned_ext (mem s')) by done. by apply I9.
  - intros va Hva. apply Hm. apply I5. lia.
Qed.

Let sz0_pages : npages sz0 = npages (sz img).
Proof. apply npages_mult. Qed.
Let sz1_pages : npages sz1 = npages (sz img) + 2.
Proof. unfold sz1, base, sz0. replace (npages (sz img) * PGSIZE + PGSIZE + PGSIZE) with ((npages (sz img) + 2) * PGSIZE) by lia. apply npages_mult. Qed.
Let Hsz0 : 0 <= sz0 /\ sz0 <= sz1.
Proof. destruct (npages_top (sz img) (sp_size _ _ _ _ Hsp)) as (? & _). unfold sz1, base, sz0, PGSIZE in *. lia. Qed.
Let round : proc := with_sz sz0 img.
Let Hround : proc_space (mem s) round T A.
Proof. apply space_round; [done|done|lia]. Qed.
Let round_owned q : owned (mem s) round T q <-> owned (mem s) img T q.
Proof. unfold owned, round. cbn. by rewrite sz0_pages. Qed.

(** The first of the two new pages loses its user access. *)
Lemma clear_image s1 T1 A1 l1 : growing s T A (npages (sz img)) PTE_W (npages (sz img) + 2) s1 T1 A1 l1 ->
  wp (uvmclear pt sz0) (fun _ s2 => built s2 T1 A1 l1) s1.
Proof.
  intros G. pose proof TRAPFRAME_MAXVA as Hmax. destruct base_bounds as [Hb0 Hb1]. set (k := npages (sz img)) in *.
  assert (E2 : k * PGSIZE = sz0 /\ (k + 2) * PGSIZE = sz1) by (unfold sz1, base, sz0; fold k; lia). destruct E2 as [Ek Ek2].
  assert (Hk : 0 <= k) by (apply (npages_top (sz img)), Hsp).
  assert (Hfree : forall va, k * PGSIZE <= va < (k + 2) * PGSIZE -> has (pte_at (mem s) T va) PTE_V = false) by (intros va Hva; apply (sp_above _ _ _ _ Hsp); fold k; lia).
  assert (R : resized s round T A sz1 s1 T1 A1 l1).
  { apply (growing_resized s round T A Hround sz1 s1 T1 A1 l1 k (k + 2)); [cbn; lia|lia|lia|done|exact G]. }
  assert (Hnew : forall va, sz0 <= va < sz1 -> exists f, pte_at (mem s1) T1 va = mkpte f (user_flags PTE_W) /\ pa_ok f).
  { intros va Hva. destruct (growing_mem s T A k (k + 2) PTE_W s1 T1 A1 l1 va ltac:(done) G ltac:(lia)) as (f & ? & ? & _). by exists f. }
  destruct R as [R1 R2 R3 R4 R5 R6 R7]. change (with_sz sz1 round) with (with_sz sz1 img) in *.
  destruct (Hnew sz0 ltac:(unfold sz1, base, PGSIZE in *; lia)) as (f & Ef & Hf).
  eapply wp_mono; [apply (uvmclear_spec s1 T1 A1 l1 pt sz0 f (user_flags PTE_W) R1 (sp_root _ _ _ _ R2)); [lia|done|done|apply user_flags_ok; done|done]|].
  intros [] s2 (C2 & K2 & Hpte). apply kept_undisturbed in K2 as U2.
  assert (Hpage : forall va, 0 <= va -> va / PGSIZE = sz0 / PGSIZE <-> sz0 <= va < base) by (intros va Hva; unfold base; rewrite <-Ek; unfold PGSIZE; dlia).
  assert (Hsame : forall va, 0 <= va < MAXVA -> ~ sz0 <= va < base -> pte_at (mem s2) T1 va = pte_at (mem s1) T1 va).
  { intros va Hva Hn. rewrite Hpte, decide_False by (done || (rewrite Hpage by lia; done)). done. }
  assert (Hguard : forall va, sz0 <= va < base -> pte_at (mem s2) T1 va = mkpte f (Z.land (user_flags PTE_W) (Z.lnot PTE_U)) /\ pte_at (mem s1) T1 va = mkpte f (user_flags PTE_W)).
  { intros va Hva. rewrite Hpte, decide_True by (lia || (apply Hpage; lia)). split; [done|]. rewrite <-Ef. apply page_entry; [lia|lia|apply Hpage; lia]. }
  assert (Hsf : same_frames (mem s1) (mem s2) T1).
  { intros va Hva. destruct (decide (sz0 <= va < base)) as [Hg|Hn]; [|by rewrite Hsame by (done || lia)].
    destruct (Hguard va Hg) as [-> ->]. by rewrite !mkpte_has, !mkpte_pa. }
  assert (Hown : forall q, owned (mem s2) (with_sz sz1 img) T1 q <-> owned (mem s1) (with_sz sz1 img) T1 q) by (intros q; by eapply same_frames_owned).
  assert (Hsp2 : proc_space (mem s2) (with_sz sz1 img) T1 A1) by (by eapply same_frames_space).
  assert (Est : s2 = set_freelist (freelist s2) (set_mem (mem s2) s)) by (rewrite (ud_frame _ _ _ _ _ _ U2), R3; done).
  split.
  - done.
  - done.
  - apply (space_uspace s2 (with_sz sz1 img) T1 A1 l1 C2 Hsp2).
    + intros va Hva. rewrite Hsame, R5 by (done || (unfold PGSIZE in *; lia)). intros Hv. rewrite (Htop va Hva Hv). by rewrite Est.
    + unfold trampoline_ok. rewrite Est. exact Htr.
  - done.
  - intros q Hq. by apply (fi_kept _ _ _ _ _ _ _ _ _ _ _ G).
  - intros va Hva. destruct (Hnew va ltac:(unfold base, PGSIZE in *; lia)) as (g & Eg & Hg). unfold user_ok, uvalid.
    rewrite Hsame, Eg, !mkpte_has by (done || lia || (by apply user_flags_ok)). split; [split; [split; [unfold PGSIZE in *; lia|]|split]|]; reflexivity.
  - intros va Hva. destruct (Hguard va Hva) as [-> _]. by rewrite mkpte_has.
  - intros va Hva. assert (Hlow : 0 <= va < MAXVA) by lia.
    assert (E1 : pte_at (mem s2) T1 va = pte_at (mem s1) T1 va) by (apply Hsame; (done || lia)). split.
    + rewrite E1. apply (fi_rest _ _ _ _ _ _ _ _ _ _ _ G); [done|lia].
    + rewrite (undisturbed_lazymem s1 T1 A1 s2 T1 A1 0 TRAPFRAME va U2 (space_own _ _ _ _ R2) ltac:(lia) E1), R4 by lia.
      rewrite decide_True; [done|]. rewrite image_npages. lia.
  - intros q Hq Ho. rewrite Hown. destruct (R6 q Hq) as (H1 & H2 & H3); [by rewrite round_owned|]. split_and!; [done|done|].
    intros x Hx. rewrite <-H3 by done. apply (ud_frames _ _ _ _ _ _ U2 q H1); [|done]. intros a Ha. apply H2. right; left. eauto.
  - intros q Hq Ho. rewrite Hown. apply R7; [done|]. by rewrite round_owned.
Qed.

(** The stack is allocated, or nothing is. *)
Lemma stack_pages : wp (uvmalloc pt sz0 sz1 PTE_W) (fun r s1 =>
    r = 0 /\ (exists T1 A1 l1, resized s round T A sz0 s1 T1 A1 l1) \/
    r = sz1 /\ exists T1 A1 l1, growing s T A (npages (sz img)) PTE_W (npages (sz img) + 2) s1 T1 A1 l1) s.
Proof.
  pose proof TRAPFRAME_MAXVA as Hmax.
  eapply wp_mono; [apply (uvmalloc_spec s T A l pt sz0 sz1 PTE_W C (sp_root _ _ _ _ Hsp)); [done|lia|lia|lia|]|].
  { intros va Hva. rewrite sz0_pages in Hva. apply (sp_above _ _ _ _ Hsp). rewrite image_npages in Hva. lia. }
  intros r s1 (T1 & A1 & l1 & [[-> G]|[-> G]]); rewrite sz0_pages, sz1_pages in G; [right|left]; (split; [done|]); exists T1, A1, l1; [done|].
  apply (unfilled_resized s round T A Hround s1 T1 A1 l1 (npages (sz img)) (npages (sz img) + 2)); [|rewrite <-sz1_pages, image_npages; lia| |exact G].
  - pose proof (npages_top (sz img) (sp_size _ _ _ _ Hsp)). lia.
  - intros va Hva. apply (sp_above _ _ _ _ Hsp). rewrite <-sz1_pages, image_npages in Hva. lia.
Qed.

(** ** The arguments *)
Lemma layout_bounds argv : forall sp e ps, base <= sp <= sz1 -> stack_layout argv sp base = Some (e, ps) ->
  base <= e <= sp /\ length ps = length argv /\ (sp mod 16 = 0 -> e mod 16 = 0) /\
  Forall2 (fun arg a => e <= a /\ a + (strlen arg + 1) <= sp) argv ps.
Proof.
  induction argv as [|arg argv IH]; intros sp e ps Hsp' E; cbn [stack_layout] in E; [injection E as <- <-; split_and!; [lia|lia|done|done|constructor]|].
  set (a := (sp - (strlen arg + 1)) / 16 * 16) in *. destruct (Z.ltb_spec a base); [done|].
  pose proof (strlen_bounds arg). assert (Ha : a + (strlen arg + 1) <= sp) by (unfold a; dlia).
  destruct (stack_layout argv a base) as [[e' ps']|] eqn:E'; [|done]. injection E as <- <-.
  destruct (IH a e' ps' ltac:(lia) E') as (H1 & H2 & H3 & H4). split_and!; [lia|lia|cbn; by rewrite H2| |].
  - intros _. apply H3. unfold a. by rewrite Z_mod_mult.
  - constructor; [lia|]. eapply Forall2_impl; [exact H4|]. intros ? ? [? ?]. split; lia.
Qed.

(** The strings are pushed, in memory below [sp]; or they do not fit. *)
Definition pushed (argv : list (list Z)) (sp : Z) (ustack : list Z) (f : Z -> Z) T' A' l' (r : option (Z * list Z)) (s'' : kstate) : Prop :=
  built s'' T' A' l' /\
  match stack_layout argv sp base with
  | None => r = None
  | Some (e, ps) => r = Some (e, ustack ++ ps) /\ Forall2 (string_at (umem (mem s'') T')) argv ps /\
      forall va, sp <= va < sz1 -> umem (mem s'') T' va = f va
  end.

Lemma push_args_spec argv : forall s' T' A' l' sp ustack, built s' T' A' l' -> base <= sp <= sz1 ->
  Forall (fun arg => strlen arg < PGSIZE) argv -> (length ustack + length argv <= MAXARG)%nat ->
  wp (push_args argv pt sp base ustack) (pushed argv sp ustack (umem (mem s') T') T' A' l') s'.
Proof.
  induction argv as [|arg argv IH]; intros s' T' A' l' sp ustack I Hsp' Hlen Hmax; cbn [push_args].
  { apply wp_ret. split; [done|]. cbn. rewrite app_nil_r. split_and!; [done|constructor|done]. }
  apply Forall_cons in Hlen as [Harg Hlen]. cbn [length] in Hmax. destruct (Nat.leb_spec MAXARG (length ustack)); [lia|].
  pose proof (strlen_bounds arg) as Hs. destruct base_bounds as [Hb0 Hb1]. unfold pushed at 1. cbn [stack_layout].
  rewrite u64_small by (pose proof TRAPFRAME_MAXVA; change MAXVA with (2 ^ 38) in *; lia). rewrite align16.
  set (a := (sp - (strlen arg + 1)) / 16 * 16) in *. assert (Ha : a + (strlen arg + 1) <= sp) by (unfold a; dlia).
  destruct (Z.ltb_spec a base); [by apply wp_ret|]. pose proof (length_cstring arg) as Hc. fold (cstring arg).
  destruct (copyout_image s' T' A' l' a (cstring arg) I ltac:(lia) ltac:(lia)) as (m1 & Hev & I1 & Hm1).
  apply wp_bind. eapply wp_intro; [exact Hev|]. cbn [Z.ltb Z.compare].
  eapply wp_mono; [apply (IH _ T' A' l' a (ustack ++ [a]) I1); [lia|done|rewrite length_app; cbn; lia]|].
  intros r s2 [I2 H2]. split; [done|]. destruct (stack_layout argv a base) as [[e ps]|]; [|done]. destruct H2 as (-> & Hstr & Hm2).
  cbn [mem set_mem] in Hm2. split_and!; [by rewrite <-app_assoc| |].
  - constructor; [|done]. unfold string_at. apply uload_ustore with (umem (mem s') T'). intros va Hva. rewrite Hm2 by lia. apply Hm1. lia.
  - intros va Hva. rewrite Hm2, Hm1 by lia. unfold ustore. by rewrite decide_False by lia.
Qed.
End Image.

(** ** Giving an address space back *)
Lemma proc_space_sub m p T A A' : proc_space m p T A -> (forall q, q ∈ A -> owned m p T q -> q ∈ A') -> proc_space m p T A'.
Proof.
  intros [S1 S2 S3 S4 S5 S6 S7 S8] H. split; try done; [|apply H; [done|by left]].
  eapply own_frames_ext; [exact S4|done|]. intros q Hq Hf. apply H; [done|by right; right].
Qed.

(** The pages of the tree [T] and its frames, without the trap frame. *)
Definition pages_of (m : memory) (p : proc) (T : ptree) (q : Z) : Prop :=
  (exists a, T a = Some q) \/ frame_in m T 0 (npages (sz p) * PGSIZE) q.
Lemma pages_owned m p T q : owned m p T q <-> q = p_trapframe p \/ pages_of m p T q.
Proof. done. Qed.
Lemma pages_not_tf m p T A : proc_space m p T A -> ~ pages_of m p T (p_trapframe p).
Proof. intros Hs [[a Ha]|Hf]; [by apply (sp_tf_tree _ _ _ _ Hs a)|by apply (sp_tf_frame _ _ _ _ Hs)]. Qed.

Definition given_back (s : kstate) (p : proc) (T : ptree) (A : list Z) (s' : kstate) : Prop :=
  (exists A' l', kmem_inv s' A' l' /\ (forall q, q ∈ A' <-> q ∈ A /\ ~ pages_of (mem s) p T q) /\
    forall q x, q ∈ A' -> q <> p_trapframe p -> q <= x < q + PGSIZE -> mem s' x = mem s x) /\
  s' = set_freelist (freelist s') (set_mem (mem s') s).

Lemma freespace_spec s p T A l : vmctx s T A l -> proc_space (mem s) p T A ->
  wp (proc_freepagetable (pagetable p) (sz p)) (fun _ s' => given_back s p T A s') s.
Proof.
  intros C [S1 S2 S3 S4 S5 S6 S7 S8]. eapply wp_mono; [by apply (freepagetable_spec s p T A l)|].
  intros [] s' (A' & l' & Hk & HA & Hm & E). split; [|done]. exists A', l'. split_and!; [done| |intros q x Hq _; by apply Hm].
  intros q. rewrite HA. unfold pages_of. split.
  - intros (H1 & H2 & H3). split; [done|]. intros [[a Ha]|Hf]; [by apply (H2 a)|done].
  - intros (H1 & H2). split_and!; [done|intros a Ha; apply H2; left; eauto|intros Hf; apply H2; by right].
Qed.

(** What was allocated for the larger space [p'] goes back too. *)
Lemma given_back_grown s p T A s1 p' T1 A1 s' :
  p_trapframe p' = p_trapframe p -> proc_space (mem s) p T A -> proc_space (mem s1) p' T1 A1 ->
  s1 = set_freelist (freelist s1) (set_mem (mem s1) s) ->
  (forall q, q ∈ A -> ~ owned (mem s) p T q -> q ∈ A1 /\ ~ owned (mem s1) p' T1 q /\ forall x, q <= x < q + PGSIZE -> mem s1 x = mem s x) ->
  (forall q, q ∈ A1 -> q ∉ A \/ owned (mem s) p T q -> owned (mem s1) p' T1 q) ->
  given_back s1 p' T1 A1 s' -> given_back s p T A s'.
Proof.
  intros Etf Hs Hs1 E1 Ho Ha [(A' & l' & Hk & HA & Hm) E].
  assert (HA' : forall q, q ∈ A' <-> q ∈ A /\ ~ pages_of (mem s) p T q).
  { intros q. rewrite HA. split.
    - intros [Hq Hn]. assert (Hno : owned (mem s1) p' T1 q -> q = p_trapframe p) by (rewrite pages_owned, Etf; tauto).
      destruct (decide (q ∈ A)) as [HqA|HqA].
      + split; [done|]. intros Hp. assert (q = p_trapframe p) as -> by (apply Hno, Ha; [done|right; by right]). by apply (pages_not_tf _ _ _ _ Hs).
      + exfalso. apply HqA. rewrite (Hno (Ha q Hq (or_introl HqA))). apply Hs.
    - intros [Hq Hn]. destruct (decide (q = p_trapframe p)) as [->|Hne].
      + rewrite <-Etf. split; [apply Hs1|by apply (pages_not_tf _ _ _ A1)].
      + destruct (Ho q Hq) as (H1 & H2 & _); [rewrite pages_owned; tauto|]. split; [done|]. rewrite pages_owned in H2. tauto. }
  split; [|rewrite E, E1; done]. exists A', l'. split_and!; [done|done|]. intros q x Hq Hne Hx. rewrite (Hm q) by (done || by rewrite Etf).
  apply HA' in Hq as [HqA Hn]. apply (Ho q HqA); [rewrite pages_owned; tauto|done].
Qed.

(** ** The switch *)
Definition with_image (pt n : Z) (p : proc) : proc := {| p with pagetable := pt; sz := n |}.
Definition renamed (path : list Z) (p : proc) : proc := {| p with name := safestrcpy (name p) (last_elem path path) 16 |}.

(** The registers with which the program starts. *)
Definition start_regs (entry sp : Z) (tf : trapframe) : trapframe := {| tf with a1 := sp; epc := entry; tf_sp := sp |}.

(** The fields of the process and its trap frame are set. *)
Definition regs_procs (s s' : kstate) : Prop := s' = set_tframes (tframes s') (set_procs (procs s') s).
Lemma regs_procs_trans a b c : regs_procs a b -> regs_procs b c -> regs_procs a c.
Proof. unfold regs_procs. intros E1 E2. rewrite E2. cbn [tframes procs set_tframes set_procs]. rewrite E1. done. Qed.

Lemma step_tframe s tf (g : trapframe -> trapframe) (k : K Z) Q :
  (forall s', (forall x, tframes s' x = if x =? tf then g (tframes s x) else tframes s x) -> procs s' = procs s -> regs_procs s s' -> wp k Q s') ->
  wp (v ← gets (fun s => tframes s tf); set_tframe tf (g v);; k) Q s.
Proof. intros H. apply wp_bind, wp_gets, wp_bind, wp_modify. apply H; [|done|by destruct s]. intros x. cbn. by destruct (Z.eqb_spec x tf) as [->|]. Qed.
Lemma step_proc s i (g : proc -> proc) (k : K Z) Q :
  (forall s', procs s' = alter g i (procs s) -> tframes s' = tframes s -> regs_procs s s' -> wp k Q s') -> wp (set_proc i g;; k) Q s.
Proof. intros H. apply wp_bind, wp_modify. by apply H; [..|destruct s]. Qed.

Lemma commit_fields (s : kstate) (i : nat) (tf pt n entry sp : Z) (path : list Z) (k : K Z) Q :
  (forall s', procs s' = alter (fun p => with_image pt n (renamed path p)) i (procs s) ->
     (forall x, tframes s' x = if x =? tf then start_regs entry sp (tframes s x) else tframes s x) ->
     regs_procs s s' -> wp k Q s') ->
  wp (v ← gets (fun s => tframes s tf);
      set_tframe tf {| v with a1 := sp |};;
      set_proc i (fun p => {| p with name := safestrcpy (name p) (last_elem path path) 16 |});;
      set_proc i (fun p => {| p with pagetable := pt |});;
      set_proc i (fun p => {| p with sz := n |});;
      v ← gets (fun s => tframes s tf);
      set_tframe tf {| v with epc := entry |};;
      v ← gets (fun s => tframes s tf);
      set_tframe tf {| v with tf_sp := sp |};;
      k) Q s.
Proof.
  intros H. apply (step_tframe s tf (fun v => {| v with a1 := sp |})). intros s1 T1 P1 R1.
  apply step_proc. intros s2 P2 T2 R2. apply step_proc. intros s3 P3 T3 R3. apply step_proc. intros s4 P4 T4 R4.
  apply (step_tframe s4 tf (fun v => {| v with epc := entry |})). intros s5 T5 P5 R5.
  apply (step_tframe s5 tf (fun v => {| v with tf_sp := sp |})). intros s6 T6 P6 R6.
  apply H; [| |eauto 7 using regs_procs_trans].
  - rewrite P6, P5, P4, P3, P2, P1. by rewrite !list_alter_alter_eq.
  - intros x. rewrite T6, T5, T4, T3, T2, T1. by destruct (x =? tf).
Qed.

Section Commit.
Context (s : kstate) (i : nat) (pt size : Z) (T T0 : ptree) (A l : list Z).
Let p := procs s !!! i.
Let img := with_image pt size p.
Let sz0 := npages size * PGSIZE.
Let base := sz0 + PGSIZE.
Let sz1 := base + PGSIZE.
Context (Hcur : cur s = Some i).
(** The new address space with the segments loaded. *)
Context (C : vmctx s T A l) (Hsp : proc_space (mem s) img T A) (Htop : top_pages s img T) (Htr : trampoline_ok s).
Context (Hroom : sz1 <= TRAPFRAME).
(** The old one, apart from it. *)
Context (Hrep0 : rep (mem s) T0) (Hin0 : forall a q, T0 a = Some q -> q ∈ A) (Hsp0 : proc_space (mem s) p T0 A).
Context (Hsep : forall q, pages_of (mem s) p T0 q -> ~ pages_of (mem s) img T q).
Context (path : list Z) (argv : list (list Z)) (entry : Z).
Context (Hargc : (length argv < MAXARG)%nat) (Hargs : Forall (fun arg => strlen arg < PGSIZE) argv).

Definition argv_sp (e : Z) : Z := (e - (Z.of_nat (length argv) + 1) * 8) / 16 * 16.

(** The stack that the new program finds. *)
Record started (f : Z -> Z) (sp : Z) (ps : list Z) : Prop := {
  st_layout : exists e, stack_layout argv sz1 base = Some (e, ps) /\ sp = argv_sp e;
  st_sp : base <= sp /\ sp mod 16 = 0;
  st_argv : uload f sp (8 * (length argv + 1)) = concat (map (le_bytes 8) (ps ++ [0]));
  st_strings : Forall2 (string_at f) argv ps }.

Definition switched (s' : kstate) : Prop :=
  exists T' A' l' sp ps,
    vmctx s' T' A' l' /\ proc_space (mem s') (with_image pt sz1 p) T' A' /\
    started (umem (mem s') T') sp ps /\
    (forall va, base <= va < sz1 -> user_ok PTE_W (mem s') T' va) /\
    (forall va, sz0 <= va < base -> has (pte_at (mem s') T' va) PTE_U = false) /\
    (forall va, 0 <= va < sz0 -> pte_at (mem s') T' va = pte_at (mem s) T va /\ lazymem (mem s') T' va = lazymem (mem s) T va) /\
    (forall q, q ∈ A -> q ∈ A' <-> ~ pages_of (mem s) p T0 q) /\
    (forall q, q ∈ A' -> q ∉ A -> pages_of (mem s') (with_image pt sz1 p) T' q) /\
    (forall q x, q ∈ A -> ~ owned (mem s) img T q -> ~ pages_of (mem s) p T0 q -> q <= x < q + PGSIZE -> mem s' x = mem s x) /\
    procs s' = alter (fun p => with_image pt sz1 (renamed path p)) i (procs s) /\
    (forall x, tframes s' x = if x =? p_trapframe p then start_regs entry sp (tframes s x) else tframes s x) /\
    s' = set_tframes (tframes s') (set_procs (procs s') (set_freelist (freelist s') (set_mem (mem s') s))).

Let Himg : proc_space (mem s) (with_sz sz0 img) T A.
Proof. apply space_round; [done|apply npages_mult|]. destruct (npages_top size (sp_size _ _ _ _ Hsp)) as (H & _). unfold sz1, base, PGSIZE in *. unfold sz0, PGSIZE in *. lia. Qed.

(** The error exits. *)
Lemma bad_spec n s1 T1 A1 l1 : vmctx s1 T1 A1 l1 -> proc_space (mem s1) (with_sz n img) T1 A1 ->
  s1 = set_freelist (freelist s1) (set_mem (mem s1) s) ->
  (forall q, q ∈ A -> ~ owned (mem s) img T q -> q ∈ A1 /\ ~ owned (mem s1) (with_sz n img) T1 q /\ forall x, q <= x < q + PGSIZE -> mem s1 x = mem s x) ->
  (forall q, q ∈ A1 -> q ∉ A \/ owned (mem s) img T q -> owned (mem s1) (with_sz n img) T1 q) ->
  wp (exec_bad pt n None) (fun r s' => r = -1 /\ given_back s img T A s') s1.
Proof.
  intros C1 S1 E1 Ho Ha. assert (Hpt : 0 < pt) by (apply (rp_page _ _ (vc_rep _ _ _ _ C1) N2 _ (sp_root _ _ _ _ S1))).
  unfold exec_bad. destruct (Z.eqb_spec pt 0); [lia|]. cbn [negb when]. apply wp_bind.
  eapply wp_mono; [apply (freespace_spec s1 (with_sz n img) T1 A1 l1 C1 S1)|]. intros [] s2 H. apply wp_bind, wp_ret, wp_ret. split; [done|].
  by apply (given_back_grown s img T A s1 (with_sz n img) T1 A1).
Qed.

Lemma bad_image s1 T1 A1 l1 : built s img T A s1 T1 A1 l1 -> wp (exec_bad pt sz1 None) (fun r s' => r = -1 /\ given_back s img T A s') s1.
Proof. intros [I1 I2 I3 I4 Ia I5 I6 I7 I8 I9]. by apply (bad_spec sz1 s1 T1 A1 l1). Qed.

(** The old pages are not touched before the switch. *)
Lemma old_pages q : pages_of (mem s) p T0 q -> q ∈ A /\ ~ owned (mem s) img T q.
Proof.
  intros Hq. split.
  - destruct Hq as [[a Ha]|(va & Hva & Hv & <-)]; [by apply (Hin0 a)|by apply (sp_own _ _ _ _ Hsp0)].
  - rewrite pages_owned. intros [->|Hp]; [by apply (pages_not_tf _ _ _ _ Hsp0) in Hq|by apply (Hsep q)].
Qed.

(** Fields other than memory do not matter. *)
Lemma kmem_inv_fields a b A' l' : mem b = mem a -> freelist b = freelist a -> ld b = ld a -> kmem_inv a A' l' -> kmem_inv b A' l'.
Proof. intros E1 E2 E3 [H1 H2 H3 H4]. split; [by rewrite E1, E2|done|unfold page_ok; by rewrite E3|by rewrite E3]. Qed.
Lemma vmctx_fields a b T' A' l' : mem b = mem a -> freelist b = freelist a -> ld b = ld a -> held b = held a -> vmctx a T' A' l' -> vmctx b T' A' l'.
Proof. intros E1 E2 E3 E4 [H1 H2 H3 H4]. split; [by apply (kmem_inv_fields a)|by rewrite E1|done|by rewrite E4]. Qed.

(** The stack is below the size, so that memory elsewhere does not matter. *)
Lemma started_ext f g sp ps : (forall va, base <= va < sz1 -> g va = f va) -> started f sp ps -> started g sp ps.
Proof.
  intros Hg [(e & Hl & Es) Hs Ha Hstr].
  destruct base_bounds with (s := s) (img := img) (T := T) (A := A) as [_ Hb]; [exact Hsp|].
  change (base <= sz1) in Hb. destruct (layout_bounds img argv sz1 e ps ltac:(split; [exact Hb|reflexivity]) Hl) as (H1 & H2 & _ & H4).
  change (base <= e <= sz1) in H1. split; [by exists e|done| |].
  - rewrite <-Ha. apply uload_ext. intros va Hva. apply Hg. unfold argv_sp in Es. dlia.
  - eapply Forall2_both; [exact Hstr|exact H4|]. cbv beta. intros arg a Hs' [Ha1 Ha2]. unfold string_at in *. rewrite <-Hs' at 2. apply uload_ext.
    intros va Hva. rewrite length_cstring in Hva. apply Hg. lia.
Qed.

Section Switch.
Context (s1 : kstate) (T1 : ptree) (A1 l1 : list Z) (I : built s img T A s1 T1 A1 l1).

Lemma old_kept q x : pages_of (mem s) p T0 q -> q <= x < q + PGSIZE -> mem s1 x = mem s x.
Proof. intros Hq. destruct (old_pages q Hq) as [H1 H2]. by apply (im_others _ _ _ _ _ _ _ _ I q). Qed.
Lemma old_rep : rep (mem s1) T0 /\ forall va, 0 <= va -> pte_at (mem s1) T0 va = pte_at (mem s) T0 va.
Proof. apply rep_ext; [done|]. intros a q x Ha. apply old_kept. left. eauto. Qed.
Lemma old_pages_of q : pages_of (mem s1) p T0 q <-> pages_of (mem s) p T0 q.
Proof. unfold pages_of. by rewrite (frame_in_ext (mem s) (mem s1)) by (intros va Hva; apply old_rep; lia). Qed.
Lemma old_ctx : vmctx s1 T0 A1 l1.
Proof.
  split; [apply I|apply old_rep| |apply I]. intros a q Ha. apply (im_alloc _ _ _ _ _ _ _ _ I). by apply (Hin0 a).
Qed.
Lemma old_space : proc_space (mem s1) p T0 A1.
Proof.
  eapply proc_space_sub; [apply (proc_space_ext (mem s)); [exact Hsp0|apply old_rep]|]. intros q Hq _. by apply (im_alloc _ _ _ _ _ _ _ _ I).
Qed.
(** The new pages are not old. *)
Lemma new_not_old q : owned (mem s1) (with_sz sz1 img) T1 q -> ~ pages_of (mem s1) p T0 q.
Proof.
  intros Ho Hq%old_pages_of. destruct (old_pages q Hq) as [H1 H2]. by apply (im_others _ _ _ _ _ _ _ _ I q).
Qed.

(** The image after the old pages are gone. *)
Lemma image_survives s2 : given_back s1 p T0 A1 s2 -> exists A2 l2,
  vmctx s2 T1 A2 l2 /\ proc_space (mem s2) (with_sz sz1 img) T1 A2 /\
  (forall va, 0 <= va -> pte_at (mem s2) T1 va = pte_at (mem s1) T1 va) /\
  (forall va, 0 <= va < TRAPFRAME -> has (pte_at (mem s1) T1 va) PTE_V = true -> umem (mem s2) T1 va = umem (mem s1) T1 va) /\
  forall q, q ∈ A2 <-> q ∈ A1 /\ ~ pages_of (mem s) p T0 q.
Proof.
  intros [(A2 & l2 & Hk & HA & Hm) E]. pose proof (im_ctx _ _ _ _ _ _ _ _ I) as C1. pose proof (im_space _ _ _ _ _ _ _ _ I) as S1.
  pose proof old_pages_of as Hp0.
  assert (Hnew : forall q, q ∈ A1 -> owned (mem s1) (with_sz sz1 img) T1 q -> q ∈ A2) by (intros q Hq Ho; apply HA; split; [done|by apply new_not_old]).
  assert (Hne : forall q, pages_of (mem s1) (with_sz sz1 img) T1 q -> q <> p_trapframe p) by (intros q Hq ->; by apply (pages_not_tf _ _ _ _ S1)).
  assert (Hkeep : forall q x, q ∈ A1 -> pages_of (mem s1) (with_sz sz1 img) T1 q -> q <= x < q + PGSIZE -> mem s2 x = mem s1 x).
  { intros q x Hq Hp. apply Hm; [apply Hnew; [done|by right]|by apply Hne]. }
  destruct (rep_ext (mem s1) (mem s2) T1 (vc_rep _ _ _ _ C1)) as [Hr Hp].
  { intros a q x Ha. apply Hkeep; [by apply (vc_in _ _ _ _ C1 a)|left; eauto]. }
  exists A2, l2. split_and!; [| |done| |intros q; by rewrite HA, Hp0].
  - split; [done|done| |rewrite E; apply C1]. intros a q Ha. apply Hnew; [by apply (vc_in _ _ _ _ C1 a)|right; left; eauto].
  - eapply proc_space_sub; [by apply (proc_space_ext (mem s1))|]. intros q Hq. rewrite (owned_ext (mem s1)) by done. by apply Hnew.
  - intros va Hva Hv. destruct (proj1 (space_own s1 _ _ _ S1) va Hva Hv) as [HfA _]. eapply umem_same; [apply Hp; lia|done|].
    intros x Hx. apply (Hkeep _ x HfA); [|done]. right. exists va. split; [|done]. split; [lia|]. by apply (valid_low s1 _ _ _ S1).
Qed.

(** From the copied arguments to the end. *)
Lemma commit_tail sp ps (argc : Z) : started (umem (mem s1) T1) sp ps ->
  wp (tf ← gets (fun s => tframes s (p_trapframe p));
      set_tframe (p_trapframe p) {| tf with a1 := sp |};;
      set_proc i (fun p => {| p with name := safestrcpy (name p) (last_elem path path) 16 |});;
      set_proc i (fun p => {| p with pagetable := pt |});;
      set_proc i (fun p => {| p with sz := sz1 |});;
      tf ← gets (fun s => tframes s (p_trapframe p));
      set_tframe (p_trapframe p) {| tf with epc := entry |};;
      tf ← gets (fun s => tframes s (p_trapframe p));
      set_tframe (p_trapframe p) {| tf with tf_sp := sp |};;
      proc_freepagetable (pagetable p) (sz p);;
      ret argc) (fun r s' => r = argc /\ switched s') s1.
Proof.
  intros St. apply commit_fields. intros sF Eps Etf EF. unfold regs_procs in EF. apply wp_bind.
  assert (HF : mem sF = mem s1 /\ freelist sF = freelist s1 /\ ld sF = ld s1 /\ held sF = held s1) by (by rewrite EF).
  assert (E1 : procs s1 = procs s /\ tframes s1 = tframes s) by (by rewrite (im_state _ _ _ _ _ _ _ _ I)). destruct E1 as [Ep1 Et1].
  rewrite Ep1 in Eps. rewrite Et1 in Etf.
  destruct HF as (F1 & F2 & F3 & F4). eapply wp_mono; [apply (freespace_spec sF p T0 A1 l1); [|rewrite F1; apply old_space]|].
  { apply (vmctx_fields s1); [done..|apply old_ctx]. }
  intros [] s2 [(A2 & l2 & Hk & HA & Hm) E2]. rewrite F1 in HA, Hm. apply wp_ret. split; [done|].
  assert (Eld : ld s2 = ld s1) by (rewrite E2; exact F3). assert (Ehd : held s2 = held s1) by (rewrite E2; exact F4).
  destruct (image_survives (set_freelist (freelist s2) (set_mem (mem s2) s1))) as (A3 & l3 & C3 & S3 & P3 & M3 & HA3).
  { split; [|done]. exists A2, l2. split_and!; [|done|done]. apply (kmem_inv_fields s2); [reflexivity|reflexivity|symmetry; exact Eld|done]. }
  destruct base_bounds with (s := s) (img := img) (T := T) (A := A) as [Hb0 Hb1]; [exact Hsp|].
  change (npages (sz img) * PGSIZE) with sz0 in Hb0, Hb1. fold base in Hb0, Hb1. fold sz1 in Hb1. pose proof TRAPFRAME_MAXVA as Hmax.
  assert (Hst : forall va, base <= va < sz1 -> umem (mem s2) T1 va = umem (mem s1) T1 va).
  { intros va Hva. apply M3; [unfold PGSIZE in *; lia|]. by destruct (im_stack _ _ _ _ _ _ _ _ I va Hva) as [[[_ ?] _] _]. }
  exists T1, A3, l3, sp, ps. split_and!.
  - by apply (vmctx_fields (set_freelist (freelist s2) (set_mem (mem s2) s1))); [reflexivity|reflexivity|exact Eld|exact Ehd|].
  - exact S3.
  - by apply (started_ext (umem (mem s1) T1)).
  - intros va Hva. destruct (im_stack _ _ _ _ _ _ _ _ I va Hva) as [[[? ?] ?] _]. unfold user_ok, uvalid. rewrite P3 by lia. done.
  - intros va Hva. rewrite P3 by (unfold base, PGSIZE in *; lia). by apply (im_guard _ _ _ _ _ _ _ _ I).
  - intros va Hva. destruct (im_low _ _ _ _ _ _ _ _ I va Hva) as [H1 H2]. rewrite P3 by lia. split; [done|]. rewrite <-H2. unfold lazymem. rewrite P3 by lia.
    destruct (has (pte_at (mem s1) T1 va) PTE_V) eqn:Hv; [|done]. apply M3; [unfold sz1, base, PGSIZE in *; lia|done].
  - intros q Hq. rewrite HA3. pose proof (im_alloc _ _ _ _ _ _ _ _ I q Hq). tauto.
  - intros q [Hq _]%HA3 Hn. pose proof (im_acct _ _ _ _ _ _ _ _ I q Hq (or_introl Hn)) as Ho. rewrite <-(owned_ext (mem s1) (mem s2)), pages_owned in Ho by done.
    destruct Ho as [->|?]; [|done]. destruct Hn. apply Hsp.
  - intros q x Hq Ho Hn Hx. destruct (im_others _ _ _ _ _ _ _ _ I q Hq Ho) as (H1 & H2 & H3). rewrite <-H3 by done.
    apply (Hm q); [|intros ->; apply Ho; by left|done]. apply HA. split; [done|]. by rewrite old_pages_of.
  - rewrite E2. exact Eps.
  - intros x. rewrite <-Etf. by rewrite E2.
  - rewrite E2. transitivity (set_tframes (tframes sF) (set_procs (procs sF) (set_freelist (freelist s2) (set_mem (mem s2) s1)))); [by rewrite EF|].
    rewrite (im_state _ _ _ _ _ _ _ _ I). done.
Qed.
End Switch.

(** The arguments do not fit, or there is no memory for the stack. *)
Definition stack_fails : Prop :=
  match stack_layout argv sz1 base with Some (e, _) => argv_sp e < base | None => True end \/
  exists s1, uvmalloc pt sz0 sz1 PTE_W s = Ok 0 s1.

(** The old memory is as it was. *)
Definition intact (s' : kstate) : Prop := forall va, 0 <= va < TRAPFRAME ->
  pte_at (mem s') T0 va = pte_at (mem s) T0 va /\ lazymem (mem s') T0 va = lazymem (mem s) T0 va.
Lemma given_back_intact s' : given_back s img T A s' -> intact s'.
Proof.
  intros [(A' & l' & _ & HA & Hm) _].
  assert (Hold : forall q x, pages_of (mem s) p T0 q -> q <= x < q + PGSIZE -> mem s' x = mem s x).
  { intros q x Hq Hx. destruct (old_pages q Hq) as [H1 H2]. rewrite pages_owned in H2. apply (Hm q); [apply HA; tauto|tauto|done]. }
  destruct (rep_ext (mem s) (mem s') T0 Hrep0) as [_ Hp]; [intros a q x Ha; apply Hold; left; eauto|].
  intros va Hva. split; [apply Hp; lia|]. unfold lazymem. rewrite Hp by lia. destruct (has (pte_at (mem s) T0 va) PTE_V) eqn:Hv; [|done].
  eapply umem_same; [apply Hp; lia|done|]. intros x. apply Hold. right. exists va. split; [|done]. split; [lia|]. by apply (valid_low s p T0 A).
Qed.

Lemma exec_commit_spec : wp (exec_commit path argv pt size entry) (fun r s' =>
  r = -1 /\ stack_fails /\ given_back s img T A s' /\ intact s' \/ r = Z.of_nat (length argv) /\ switched s') s.
Proof.
  assert (Hbad : forall s1 m, wp m (fun r s' => r = -1 /\ given_back s img T A s') s1 -> stack_fails ->
    wp m (fun r s' => r = -1 /\ stack_fails /\ given_back s img T A s' /\ intact s' \/ r = Z.of_nat (length argv) /\ switched s') s1).
  { intros s1 m H Hf. eapply wp_mono; [exact H|]. intros r s' [-> G]. left. split_and!; [done|done|done|by apply given_back_intact]. }
  assert (Hb : PGSIZE <= base /\ base <= sz1) by (exact (base_bounds s img T A Hsp)). destruct Hb as [Hb0 Hb1].
  pose proof TRAPFRAME_MAXVA as Hmax. pose proof (sp_size _ _ _ _ Hsp) as Hsz. change (sz img) with size in Hsz. change MAXVA with (2 ^ 38) in *.
  unfold exec_commit. apply wp_bind. eapply wp_intro; [by apply myproc_deref_eval|]. apply wp_bind, wp_gets. fold p.
  rewrite PGROUNDUP_pages by (change MAXVA with (2 ^ 38); lia). fold sz0. change ((USERSTACK + 1) * PGSIZE) with (2 * PGSIZE). change (USERSTACK * PGSIZE) with PGSIZE.
  rewrite u64_small by (unfold base, sz1 in *; unfold PGSIZE in *; lia). replace (sz0 + 2 * PGSIZE) with sz1 by (unfold sz1, base; lia).
  assert (Hst : wp (uvmalloc pt sz0 sz1 PTE_W) (fun r s1 =>
    r = 0 /\ (exists T1 A1 l1, resized s (with_sz sz0 img) T A sz0 s1 T1 A1 l1) \/
    r = sz1 /\ exists T1 A1 l1, growing s T A (npages size) PTE_W (npages size + 2) s1 T1 A1 l1) s) by exact (stack_pages s img T A l C Hsp Hroom).
  apply wp_elim in Hst as (r & s1 & Hev & Hr). apply wp_bind. eapply wp_intro; [exact Hev|].
  destruct Hr as [(-> & T1 & A1 & l1 & R)|(-> & T1 & A1 & l1 & G)].
  { cbn [Z.eqb]. apply Hbad; [|right; by exists s1]. destruct R as [R1 R2 R3 R4 R5 R6 R7]. change (with_sz sz0 (with_sz sz0 img)) with (with_sz sz0 img) in *.
    assert (Ho : forall q, owned (mem s) (with_sz sz0 img) T q <-> owned (mem s) img T q).
    { intros q. unfold owned. cbn [sz with_sz p_trapframe]. unfold sz0 at 1. by rewrite npages_mult. }
    apply (bad_spec sz0 s1 T1 A1 l1); [done|done|done| |].
    - intros q Hq Hn. apply (R6 q Hq). by rewrite Ho.
    - intros q Hq Hn. apply (R7 q Hq). by rewrite Ho. }
  destruct (Z.eqb_spec sz1 0); [unfold PGSIZE in *; lia|]. apply wp_bind. replace (sz1 - 2 * PGSIZE) with sz0 by (unfold sz1, base; lia).
  eapply wp_mono; [exact (clear_image s img T A Hsp Htop Htr Hroom s1 T1 A1 l1 G)|]. intros [] s2 I2.
  replace (sz1 - PGSIZE) with base by (unfold sz1; lia). apply wp_bind.
  eapply wp_mono; [exact (push_args_spec s img T A l C Hsp Hroom argv s2 T1 A1 l1 sz1 [] I2 (conj Hb1 (Z.le_refl _)) Hargs ltac:(cbn; lia))|].
  intros r s3 [I3 Hr]. change (stack_layout argv sz1 (npages (sz img) * PGSIZE + PGSIZE)) with (stack_layout argv sz1 base) in Hr. cbn [app] in Hr. unfold stack_fails in *.
  destruct (stack_layout argv sz1 base) as [[e ps]|] eqn:El.
  2:{ rewrite Hr. apply Hbad; [by eapply bad_image|by left]. }
  destruct Hr as (-> & Hstr & _). destruct (layout_bounds img argv sz1 e ps (conj Hb1 (Z.le_refl _)) El) as (He & Hlen & Hal & Hps). change (base <= e <= sz1) in He.
  rewrite Hlen. destruct (Nat.leb_spec MAXARG (length argv)); [lia|].
  assert (HP : PGSIZE = 4096) by done. assert (Hn : Z.of_nat (length argv) < 32) by (clear - Hargc; change MAXARG with 32%nat in Hargc; lia).
  assert (Hu : 0 <= e - (Z.of_nat (length argv) + 1) * 8 < 2 ^ 64) by (clearbody sz1 base; rewrite HP in Hb0; lia).
  rewrite (u64_small _ Hu), align16. fold (argv_sp e).
  destruct (Z.ltb_spec (argv_sp e) base) as [Hlow|Hfit]; [apply Hbad; [by eapply bad_image|by left]|].
  set (bytes := concat (map (le_bytes 8) (ps ++ [0]))).
  assert (Hbytes : length bytes = (8 * (length argv + 1))%nat) by (unfold bytes; rewrite length_ptrs, length_app, Hlen; cbn; lia).
  assert (Hsp_e : argv_sp e + Z.of_nat (length bytes) <= e) by (rewrite Hbytes; unfold argv_sp; dlia).
  destruct (copyout_image s img T A l C Hsp Hroom s3 T1 A1 l1 (argv_sp e) bytes I3 Hfit ltac:(change (argv_sp e + Z.of_nat (length bytes) <= sz1); lia)) as (m4 & Hev4 & I4 & Hm4).
  change (forall va, base <= va < sz1 -> umem m4 T1 va = ustore (argv_sp e) bytes (umem (mem s3) T1) va) in Hm4.
  apply wp_bind. eapply wp_intro; [exact Hev4|]. cbn [Z.ltb Z.compare].
  eapply wp_mono; [apply (commit_tail (set_mem m4 s3) T1 A1 l1 I4 (argv_sp e) ps)|intros r s' H'; by right].
  split; [by exists e| | |].
  - split; [done|]. unfold argv_sp. apply Z_mod_mult.
  - rewrite <-Hbytes. fold bytes. apply uload_ustore with (umem (mem s3) T1). intros va Hva. apply Hm4. lia.
  - eapply Forall2_both; [exact Hstr|exact Hps|]. cbv beta. intros arg a Hs [Ha1 Ha2]. unfold string_at in *. rewrite <-Hs at 2. apply uload_ext.
    intros va Hva. rewrite length_cstring in Hva. cbn [mem set_mem]. rewrite Hm4 by lia. unfold ustore. by rewrite decide_False by lia.
Qed.
End Commit.

(** ** The theorem *)

(** The segments of the new program are loaded in the page table [pt] (with tree [T]) up to [size],
    with room for the stack; the old memory (with tree [T0]) has other pages. *)
Record loaded (s : kstate) (p : proc) (pt size : Z) (T T0 : ptree) (A l : list Z) : Prop := {
  lo_ctx : vmctx s T A l;
  lo_space : proc_space (mem s) (with_image pt size p) T A;
  lo_top : top_pages s (with_image pt size p) T;
  lo_tramp : trampoline_ok s;
  lo_room : npages size * PGSIZE + PGSIZE + PGSIZE <= TRAPFRAME;
  lo_old_rep : rep (mem s) T0;
  lo_old_in : forall a q, T0 a = Some q -> q ∈ A;
  lo_old : proc_space (mem s) p T0 A;
  lo_sep : forall q, pages_of (mem s) p T0 q -> ~ pages_of (mem s) (with_image pt size p) T q }.


(** ** An example: a program without segments and with one argument *)
Definition demo_exec : kstate :=
  set_cur (Some 0%nat) (set_procs ({| inhabitant with pid := 6; state := RUNNING; pagetable := demo_root; p_trapframe := demo_tf |}
    :: replicate 63 inhabitant) demo_start).

Lemma demo_loaded : exists A l, loaded demo_exec (procs demo_exec !!! 0%nat) demo_child 0 (root_only demo_child) (root_only demo_root) A l.
Proof.
  destruct demo_start_ctx as [Hk Hr Hin Hl]. set (A := [demo_root; demo_frame; demo_child; demo_tf]) in *. exists A, demo_pages.
  assert (Hrep : rep (mem demo_exec) (root_only demo_child)).
  { apply root_only_rep; [split; [done|vm_compute; split; congruence]|done|]. intros k Hk'. apply demo_chain_load; [done..|]. by apply (bool_decide_unpack _). }
  assert (Htf : demo_tf ∈ A) by (by apply (bool_decide_unpack _)). assert (Hc : demo_child ∈ A) by (by apply (bool_decide_unpack _)).
  split.
  - split; [destruct Hk as [K1 K2 K3 K4]; by split|done|by intros [] q [= <-]|done].
  - by apply empty_space.
  - intros va _ [=].
  - vm_compute. split; [reflexivity|split; congruence].
  - vm_compute. congruence.
  - exact Hr.
  - exact Hin.
  - by apply empty_space.
  - intros q [([] & [= <-])|(va & Hva & _)]; [|exfalso; vm_compute in Hva; destruct Hva, va; congruence].
    intros [([] & [=])|(va & Hva & _)]. vm_compute in Hva. destruct Hva, va; congruence.
Qed.

