(* ===== verification/Family.v ===== *)
(** * Parents and children (kernel/proc.c: reparent; kernel/sysproc.c: getppid) *)

From S2P Require Import Prelude Spinlock State Kalloc Vm Sync Proc Procops Syscall.

(** What getppid answers to the process [c]. *)
Definition ppid (ps : list proc) (c : nat) : Z :=
  match parent (ps !!! c) with Some q => pid (ps !!! q) | None => 1 end.

Lemma sys_getppid_eval s c : cur s = Some c -> sys_getppid s = Ok (ppid (procs s) c) s.
Proof.
  intros Hc. unfold sys_getppid, bind at 1. rewrite (myproc_deref_eval _ c) by done.
  unfold bind at 1, get_proc at 1, gets, ppid. by destruct (parent (procs s !!! c)).
Qed.

Lemma adopted_pid i ip me ps l j q : pid (adopted i ip me ps l j q) = pid q.
Proof. unfold adopted, wake1, adopt. repeat (case_match; cbn [pid]; try done). Qed.


(** Process 2 exits while init, process 0, waits and process 3 is a child of 2. *)
Definition exiting : kstate :=
  set_initproc (Some 0%nat) (set_cur (Some 2%nat) (set_procs
    ([ {| inhabitant with pid := 1; state := SLEEPING; p_chan := C_proc 0 |}; inhabitant;
       {| inhabitant with pid := 3; state := RUNNING; parent := Some 0%nat |};
       {| inhabitant with pid := 4; state := RUNNABLE; parent := Some 2%nat |} ] ++ replicate 60 inhabitant)
    (boot_state (KERNBASE + 0x20000)))).


