(* ===== verification/Sysfile.v ===== *)
(** * System calls on files (kernel/sysfile.c), and the table of system calls
    (syscall in kernel/syscall.c) *)

From S2P Require Import Prelude Spinlock State Printk Kstring Kalloc Vm Sync Pipe Console Bio Log Fs File Proc Exec Syscall.

Definition O_RDONLY : Z := 0x000.
Definition O_WRONLY : Z := 0x001.
Definition O_RDWR : Z := 0x002.
Definition O_CREATE : Z := 0x200.
Definition O_TRUNC : Z := 0x400.

(** The descriptor and the file, or an error. *)
Definition argfd (n : Z) : K (option (Z * nat)) :=
  fd ← argint n;
  if (fd <? 0) || (Z.of_nat NOFILE <=? fd) then ret None
  else
    i ← myproc_deref;
    p ← get_proc i;
    match nth (Z.to_nat fd) (ofile p) None with
    | None => ret None
    | Some f => ret (Some (fd, f))
    end.

(** The first free descriptor of [l], from [fd] on. *)
Fixpoint free_fd (l : list (option nat)) (fd : nat) : option nat :=
  match l with
  | [] => None
  | None :: _ => Some fd
  | Some _ :: l' => free_fd l' (S fd)
  end.
Definition fdalloc (f : nat) : K Z :=
  i ← myproc_deref;
  p ← get_proc i;
  match free_fd (ofile p) 0 with
  | Some fd =>
      set_proc i (fun p => {| p with ofile := <[fd := Some f]> (ofile p) |});;
      ret (Z.of_nat fd)
  | None => ret (-1)
  end.

Definition sys_dup : K Z :=
  o ← argfd 0;
  match o with
  | None => ret (-1)
  | Some (_, f) =>
      fd ← fdalloc f;
      if fd <? 0 then ret (-1) else filedup f;; ret fd
  end.

Definition sys_read : K Z :=
  p ← argaddr 1;
  n ← argint 2;
  o ← argfd 0;
  match o with None => ret (-1) | Some (_, f) => fileread f p n end.

Definition sys_write : K Z :=
  p ← argaddr 1;
  n ← argint 2;
  o ← argfd 0;
  match o with None => ret (-1) | Some (_, f) => filewrite f p n end.

Definition clear_fd (fd : Z) : K unit :=
  i ← myproc_deref;
  set_proc i (fun p => {| p with ofile := <[Z.to_nat fd := None]> (ofile p) |}).

Definition sys_close : K Z :=
  o ← argfd 0;
  match o with
  | None => ret (-1)
  | Some (fd, f) => clear_fd fd;; fileclose f;; ret 0
  end.

Definition sys_fstat : K Z :=
  st ← argaddr 1;
  o ← argfd 0;
  match o with None => ret (-1) | Some (_, f) => filestat f st end.

Definition set_nlink (ip : nat) (d : Z) : K unit :=
  set_inode ip (fun x => {| x with i_nlink := s16 (i_nlink x + d) |}).

Definition sys_link : K Z :=
  '(r0, old) ← argstr 0 MAXPATH;
  if r0 <? 0 then ret (-1) else
  '(r1, new) ← argstr 1 MAXPATH;
  if r1 <? 0 then ret (-1) else
  begin_op;;
  o ← namei (path_of old);
  match o with
  | None => end_op;; ret (-1)
  | Some ip =>
      ilock (Some ip);;
      x ← get_inode ip;
      if i_type x =? T_DIR then iunlockput ip;; end_op;; ret (-1)
      else
        set_nlink ip 1;;
        iupdate ip;;
        iunlock (Some ip);;
        let bad :=
          ilock (Some ip);;
          set_nlink ip (-1);;
          iupdate ip;;
          iunlockput ip;;
          end_op;;
          ret (-1) in
        '(dpo, name) ← nameiparent (path_of new);
        match dpo with
        | None => bad
        | Some dp =>
            ilock (Some dp);;
            y ← get_inode dp;
            x ← get_inode ip;
            r ← (if negb (i_dev y =? i_dev x) then ret (-1) else dirlink dp name (i_inum x));
            if r <? 0 then iunlockput dp;; bad
            else
              iunlockput dp;;
              iput ip;;
              end_op;;
              ret 0
        end
  end.

Definition isdirempty (dp : nat) : K bool :=
  x ← get_inode dp;
  o ← mfind (drop 2 (dir_offsets (i_size x))) (fun off =>
    '(r, de) ← readi dp (Klocal []) off DIRENT_SIZE;
    panic_if (negb (r =? DIRENT_SIZE)) "isdirempty: readi";;
    ret (if negb (de_inum de =? 0) then Some tt else None));
  ret (match o with Some _ => false | None => true end).

Definition sys_unlink : K Z :=
  '(r, path) ← argstr 0 MAXPATH;
  if r <? 0 then ret (-1) else
  begin_op;;
  '(dpo, name) ← nameiparent (path_of path);
  match dpo with
  | None => end_op;; ret (-1)
  | Some dp =>
      let bad := iunlockput dp;; end_op;; ret (-1) in
      ilock (Some dp);;
      if (namecmp name (str ".") =? 0) || (namecmp name (str "..") =? 0) then bad
      else
        o ← dirlookup dp name;
        match o with
        | None => bad
        | Some (ip, off) =>
            ilock (Some ip);;
            x ← get_inode ip;
            panic_if (i_nlink x <? 1) "unlink: nlink < 1";;
            e ← (if i_type x =? T_DIR then isdirempty ip else ret true);
            if negb e then iunlockput ip;; bad
            else
              w ← writei dp (Klocal (replicate 16 0)) off DIRENT_SIZE;
              panic_if (negb (w =? DIRENT_SIZE)) "unlink: writei";;
              when (i_type x =? T_DIR) (set_nlink dp (-1);; iupdate dp);;
              iunlockput dp;;
              set_nlink ip (-1);;
              iupdate ip;;
              iunlockput ip;;
              end_op;;
              ret 0
        end
  end.

(** The inode, locked, or null. *)
Definition create (path : list Z) (type major minor : Z) : K (option nat) :=
  '(dpo, name) ← nameiparent path;
  match dpo with
  | None => ret None
  | Some dp =>
      ilock (Some dp);;
      o ← dirlookup dp name;
      match o with
      | Some (ip, _) =>
          iunlockput dp;;
          ilock (Some ip);;
          x ← get_inode ip;
          if (type =? T_FILE) && ((i_type x =? T_FILE) || (i_type x =? T_DEVICE)) then ret (Some ip)
          else iunlockput ip;; ret None
      | None =>
          y ← get_inode dp;
          o ← ialloc (i_dev y) type;
          match o with
          | None => iunlockput dp;; ret None
          | Some ip =>
              ilock (Some ip);;
              set_inode ip (fun x => {| x with i_major := s16 major |});;
              set_inode ip (fun x => {| x with i_minor := s16 minor |});;
              set_inode ip (fun x => {| x with i_nlink := 1 |});;
              iupdate ip;;
              x ← get_inode ip;
              y ← get_inode dp;
              let fail :=
                set_inode ip (fun x => {| x with i_nlink := 0 |});;
                iupdate ip;;
                iunlockput ip;;
                iunlockput dp;;
                ret None in
              r ← (if type =? T_DIR then
                     r ← dirlink ip (str ".") (i_inum x);
                     if r <? 0 then ret (-1) else dirlink ip (str "..") (i_inum y)
                   else ret 0);
              if r <? 0 then fail
              else
                r ← dirlink dp name (i_inum x);
                if r <? 0 then fail
                else
                  when (type =? T_DIR) (set_nlink dp 1;; iupdate dp);;
                  iunlockput dp;;
                  ret (Some ip)
          end
      end
  end.

Definition has_flag (omode flag : Z) : bool := negb (Z.land omode flag =? 0).
Definition zbool (b : bool) : Z := if b then 1 else 0.

(** From the locked inode on. *)
Definition open_inode (ip : nat) (omode : Z) : K Z :=
  x ← get_inode ip;
  if (i_type x =? T_DEVICE) && ((i_major x <? 0) || (NDEV <=? i_major x)) then
    iunlockput ip;; end_op;; ret (-1)
  else
    o ← filealloc;
    fd ← (match o with Some f => fdalloc f | None => ret (-1) end);
    match o with
    | None => iunlockput ip;; end_op;; ret (-1)
    | Some f =>
        if fd <? 0 then fileclose f;; iunlockput ip;; end_op;; ret (-1)
        else
          (if i_type x =? T_DEVICE then
             set_file f (fun y => {| y with f_type := FD_DEVICE; f_major := i_major x |})
           else set_file f (fun y => {| y with f_type := FD_INODE; f_off := 0 |}));;
          set_file f (fun y =>
            {| y with f_ip := Some ip; readable := zbool (negb (has_flag omode O_WRONLY));
                      writable := zbool (has_flag omode O_WRONLY || has_flag omode O_RDWR) |});;
          when (has_flag omode O_TRUNC && (i_type x =? T_FILE)) (itrunc ip);;
          iunlock (Some ip);;
          end_op;;
          ret fd
    end.

Definition sys_open : K Z :=
  omode ← argint 1;
  '(n, path) ← argstr 0 MAXPATH;
  if n <? 0 then ret (-1) else
  begin_op;;
  if has_flag omode O_CREATE then
    o ← create (path_of path) T_FILE 0 0;
    match o with
    | None => end_op;; ret (-1)
    | Some ip => open_inode ip omode
    end
  else
    o ← namei (path_of path);
    match o with
    | None => end_op;; ret (-1)
    | Some ip =>
        ilock (Some ip);;
        x ← get_inode ip;
        if (i_type x =? T_DIR) && negb (omode =? O_RDONLY) then
          iunlockput ip;; end_op;; ret (-1)
        else open_inode ip omode
    end.

Definition sys_mkdir : K Z :=
  begin_op;;
  '(r, path) ← argstr 0 MAXPATH;
  o ← (if r <? 0 then ret None else create (path_of path) T_DIR 0 0);
  match o with
  | None => end_op;; ret (-1)
  | Some ip => iunlockput ip;; end_op;; ret 0
  end.

Definition sys_mknod : K Z :=
  begin_op;;
  major ← argint 1;
  minor ← argint 2;
  '(r, path) ← argstr 0 MAXPATH;
  o ← (if r <? 0 then ret None else create (path_of path) T_DEVICE major minor);
  match o with
  | None => end_op;; ret (-1)
  | Some ip => iunlockput ip;; end_op;; ret 0
  end.

Definition sys_chdir : K Z :=
  i ← myproc_deref;
  begin_op;;
  '(r, path) ← argstr 0 MAXPATH;
  o ← (if r <? 0 then ret None else namei (path_of path));
  match o with
  | None => end_op;; ret (-1)
  | Some ip =>
      ilock (Some ip);;
      x ← get_inode ip;
      if negb (i_type x =? T_DIR) then iunlockput ip;; end_op;; ret (-1)
      else
        iunlock (Some ip);;
        p ← get_proc i;
        c ← deref "iput" (cwd p);
        iput c;;
        end_op;;
        set_proc i (fun p => {| p with cwd := Some ip |});;
        ret 0
  end.

(** The argument strings of [sys_exec]: the pages that hold them, whether all of them were
    fetched, and the strings. *)
Fixpoint fetch_args (n : nat) (uargv i : Z) (pages : list Z) (argv : list (list Z)) :
    K (bool * list Z * list (list Z)) :=
  match n with
  | O => ret (false, pages, argv)
  | S n' =>
      '(r, uarg) ← fetchaddr (u64 (uargv + 8 * i));
      if r <? 0 then ret (false, pages, argv)
      else if uarg =? 0 then ret (true, pages, argv)
      else
        pa ← kalloc;
        if pa =? 0 then ret (false, pages, argv)
        else
          '(r, buf) ← fetchstr uarg (Z.to_nat PGSIZE);
          modify (fun s => set_mem (store (mem s) pa buf) s);;
          if r <? 0 then ret (false, pages ++ [pa], argv)
          else fetch_args n' uargv (i + 1) (pages ++ [pa]) (argv ++ [buf])
  end.

Definition sys_exec : K Z :=
  uargv ← argaddr 1;
  '(r, path) ← argstr 0 MAXPATH;
  if r <? 0 then ret (-1) else
  '(ok, pages, argv) ← fetch_args MAXARG uargv 0 [] [];
  r ← (if ok then kexec (path_of path) argv else ret (-1));
  mfor pages kfree;;
  ret r.

Definition sys_pipe : K Z :=
  i ← myproc_deref;
  fdarray ← argaddr 0;
  '(r, rf, wf) ← pipealloc;
  match r <? 0, rf, wf with
  | false, Some rf, Some wf =>
      fd0 ← fdalloc rf;
      fd1 ← (if fd0 <? 0 then ret (-1) else fdalloc wf);
      if (fd0 <? 0) || (fd1 <? 0) then
        when (0 <=? fd0) (clear_fd fd0);;
        fileclose rf;;
        fileclose wf;;
        ret (-1)
      else
        p ← get_proc i;
        r0 ← copyout (pagetable p) fdarray (le_bytes 4 fd0);
        r1 ← (if r0 <? 0 then ret (-1) else copyout (pagetable p) (u64 (fdarray + 4)) (le_bytes 4 fd1));
        if r1 <? 0 then
          clear_fd fd0;;
          clear_fd fd1;;
          fileclose rf;;
          fileclose wf;;
          ret (-1)
        else ret 0
  | _, _, _ => ret (-1)
  end.

(** ** kernel/syscall.c: the table and the dispatcher *)
Definition syscalls (num : Z) : option (K Z) :=
  nth (Z.to_nat num)
    [None; Some sys_fork; Some sys_exit; Some sys_wait; Some sys_pipe; Some sys_read;
     Some sys_kill; Some sys_exec; Some sys_fstat; Some sys_chdir; Some sys_dup;
     Some sys_getpid; Some sys_sbrk; Some sys_pause; Some sys_uptime; Some sys_open;
     Some sys_write; Some sys_mknod; Some sys_unlink; Some sys_link; Some sys_mkdir;
     Some sys_close; Some sys_sync; Some sys_getidade; Some sys_getppid] None.
Definition NSYSCALLS : Z := 25.

(** [p->trapframe->a0 = v] *)
Definition set_a0 (i : nat) (v : Z) : K unit :=
  p ← get_proc i;
  tf ← gets (fun s => tframes s (p_trapframe p));
  set_tframe (p_trapframe p) {| tf with a0 := u64 v |}.

Definition syscall : K unit :=
  i ← myproc_deref;
  tf ← my_trapframe;
  let num := s32 (a7 tf) in
  match (if (0 <? num) && (num <? NSYSCALLS) then syscalls num else None) with
  | Some f => v ← f; set_a0 i v
  | None =>
      p ← get_proc i;
      printk (str "%d %s: unknown sys call %d" ++ [10])
        [VInt (pid p); VStr (Some (name_chars (name p))); VInt num];;
      set_a0 i (-1)
  end.
