(* ===== verification/Plic.v ===== *)
(** * The interrupt controller (kernel/plic.c)

    The platform-level interrupt controller is a device behind 32-bit loads and stores; the
    driver is written against the class [Plic].  What the driver relies on, the behaviour
    that the specification of the controller prescribes, is the class [PlicLaws]: an
    abstract state of the device, with the effect of each access on it.  [model_plic] is a
    device that has this behaviour. *)

From S2P Require Import Prelude Spinlock State.

Class Plic := {
  plic_dev : Type;
  plic_load : Z -> plic_dev -> Z * plic_dev;
  plic_store : Z -> Z -> plic_dev -> plic_dev }.

(** ** kernel/memlayout.h *)
Definition UART0_IRQ : Z := 10.
Definition VIRTIO0_IRQ : Z := 1.
Definition PLIC : Z := 0x0c000000.
Definition PLIC_SENABLE (hart : Z) : Z := PLIC + 0x2080 + hart * 0x100.
Definition PLIC_SPRIORITY (hart : Z) : Z := PLIC + 0x201000 + hart * 0x2000.
Definition PLIC_SCLAIM (hart : Z) : Z := PLIC + 0x201004 + hart * 0x2000.

(** ** kernel/plic.c; [hart] is what [cpuid] returns *)
Section Driver.
Context `{Plic}.

Definition plicinit (d : plic_dev) : plic_dev :=
  let d := plic_store (PLIC + UART0_IRQ * 4) 1 d in
  plic_store (PLIC + VIRTIO0_IRQ * 4) 1 d.

Definition plicinithart (hart : Z) (d : plic_dev) : plic_dev :=
  let d := plic_store (PLIC_SENABLE hart)
             (Z.lor (Z.shiftl 1 UART0_IRQ) (Z.shiftl 1 VIRTIO0_IRQ)) d in
  plic_store (PLIC_SPRIORITY hart) 0 d.

Definition plic_claim (hart : Z) (d : plic_dev) : Z * plic_dev :=
  let '(irq, d) := plic_load (PLIC_SCLAIM hart) d in (s32 irq, d).

Definition plic_complete (hart irq : Z) (d : plic_dev) : plic_dev :=
  plic_store (PLIC_SCLAIM hart) (u32 irq) d.
End Driver.

(** ** What the controller does

    Sources are numbered from 1 to 1023; a context is a target of interrupts.  An interrupt
    is in service from its claim to its completion. *)
Record plic_view := mkview {
  prio : Z -> Z; enabled : Z -> Z -> bool; threshold : Z -> Z;
  pending : Z -> bool; in_service : Z -> bool }.

Definition plic_upd {A} (i : Z) (a : A) (f : Z -> A) : Z -> A := fun j => if j =? i then a else f j.

(** The interrupts that a claim of context [c] may return. *)
Definition candidate (v : plic_view) (c j : Z) : bool :=
  (1 <=? j) && (j <? 1024) && pending v j && enabled v c j && (0 <? prio v j).

(** The controller raises the external interrupt of context [c]. *)
Definition notified (v : plic_view) (c : Z) : Prop :=
  exists j, candidate v c j = true /\ threshold v c < prio v j.

Definition set_prio (i x : Z) (v : plic_view) : plic_view := {| v with prio := plic_upd i x (prio v) |}.
Definition set_threshold (c x : Z) (v : plic_view) : plic_view :=
  {| v with threshold := plic_upd c x (threshold v) |}.
Definition enable_word (c w x : Z) (v : plic_view) : plic_view :=
  {| v with enabled := fun c' j =>
       if (c' =? c) && (j / 32 =? w) && (0 <? j) then Z.testbit x (j mod 32) else enabled v c' j |}.
Definition take_irq (j : Z) (v : plic_view) : plic_view :=
  {| v with pending := plic_upd j false (pending v); in_service := plic_upd j true (in_service v) |}.
Definition finish_irq (c j : Z) (v : plic_view) : plic_view :=
  if enabled v c j then {| v with in_service := plic_upd j false (in_service v) |} else v.
(** A device asserts its line: the gateway lets it through unless the last interrupt of the
    device is still in service. *)
Definition raise_irq (j : Z) (v : plic_view) : plic_view :=
  if in_service v j then v else {| v with pending := plic_upd j true (pending v) |}.

Class PlicLaws `{Plic} := {
  plic_state : plic_dev -> plic_view;
  store_priority d i x : 1 <= i < 1024 -> 0 <= x <= 1 ->
    plic_state (plic_store (PLIC + 4 * i) x d) = set_prio i x (plic_state d);
  store_enable d c w x : 0 <= c < 15872 -> 0 <= w < 32 ->
    plic_state (plic_store (PLIC + 0x2000 + 0x80 * c + 4 * w) x d) = enable_word c w x (plic_state d);
  store_threshold d c : 0 <= c < 15872 ->
    plic_state (plic_store (PLIC + 0x200000 + 0x1000 * c) 0 d) = set_threshold c 0 (plic_state d);
  load_claim d c : 0 <= c < 15872 ->
    let '(r, d') := plic_load (PLIC + 0x200004 + 0x1000 * c) d in
    (r = 0 /\ plic_state d' = plic_state d /\ forall j, candidate (plic_state d) c j = false) \/
    (candidate (plic_state d) c r = true /\ plic_state d' = take_irq r (plic_state d) /\
     forall j, candidate (plic_state d) c j = true ->
       prio (plic_state d) j < prio (plic_state d) r \/ prio (plic_state d) j = prio (plic_state d) r /\ r <= j);
  store_complete d c x : 0 <= c < 15872 -> 0 <= x < 1024 ->
    plic_state (plic_store (PLIC + 0x200004 + 0x1000 * c) x d) = finish_irq c x (plic_state d) }.

(** ** The driver's registers are those of the supervisor context of the hart *)
Definition s_context (hart : Z) : Z := 2 * hart + 1.

(** The controller serves hart [h]: exactly the UART and the disk are enabled for it. *)
Record serving (h : Z) (v : plic_view) : Prop := {
  sv_uart : prio v UART0_IRQ = 1;
  sv_disk : prio v VIRTIO0_IRQ = 1;
  sv_enabled j : 1 <= j < 1024 -> enabled v (s_context h) j = true <-> j = UART0_IRQ \/ j = VIRTIO0_IRQ;
  sv_threshold : threshold v (s_context h) = 0 }.

(** The enable bits that [plicinithart] does not write, those of the sources from 32. *)
Definition quiet_above (h : Z) (v : plic_view) : Prop :=
  forall j, 32 <= j < 1024 -> enabled v (s_context h) j = false.

Section Laws.
Context `{PlicLaws}.

Lemma plicinit_view d : plic_state (plicinit d) = set_prio VIRTIO0_IRQ 1 (set_prio UART0_IRQ 1 (plic_state d)).
Proof.
  unfold plicinit. change (VIRTIO0_IRQ * 4) with (4 * VIRTIO0_IRQ). change (UART0_IRQ * 4) with (4 * UART0_IRQ).
  rewrite !store_priority by (unfold UART0_IRQ, VIRTIO0_IRQ; lia). done.
Qed.

Lemma plicinithart_view h d : 0 <= h < 8 -> plic_state (plicinithart h d) =
  set_threshold (s_context h) 0
    (enable_word (s_context h) 0 (Z.lor (Z.shiftl 1 UART0_IRQ) (Z.shiftl 1 VIRTIO0_IRQ)) (plic_state d)).
Proof.
  intros Hh. unfold plicinithart, s_context.
  replace (PLIC_SPRIORITY h) with (PLIC + 0x200000 + 0x1000 * (2 * h + 1)) by (unfold PLIC_SPRIORITY; lia).
  replace (PLIC_SENABLE h) with (PLIC + 0x2000 + 0x80 * (2 * h + 1) + 4 * 0) by (unfold PLIC_SENABLE; lia).
  rewrite store_threshold, store_enable by lia. done.
Qed.

Lemma plic_complete_view h irq d : 0 <= h < 8 -> 0 <= irq < 1024 ->
  plic_state (plic_complete h irq d) = finish_irq (s_context h) irq (plic_state d).
Proof.
  intros Hh Hi. unfold plic_complete, s_context.
  replace (PLIC_SCLAIM h) with (PLIC + 0x200004 + 0x1000 * (2 * h + 1)) by (unfold PLIC_SCLAIM; lia).
  rewrite u32_small by lia. by apply store_complete; lia.
Qed.

(** ** The interrupts that a hart is given *)
Lemma plicinit_prio d : prio (plic_state (plicinit d)) UART0_IRQ = 1 /\ prio (plic_state (plicinit d)) VIRTIO0_IRQ = 1.
Proof. by rewrite plicinit_view. Qed.

Lemma enable_bits j : 0 <= j ->
  Z.testbit (Z.lor (Z.shiftl 1 UART0_IRQ) (Z.shiftl 1 VIRTIO0_IRQ)) j = true <-> j = UART0_IRQ \/ j = VIRTIO0_IRQ.
Proof.
  intros Hj. rewrite !Z.shiftl_1_l, Z.lor_spec, !Z.pow2_bits_eqb by (unfold UART0_IRQ, VIRTIO0_IRQ; lia).
  rewrite orb_true_iff, !Z.eqb_eq. intuition.
Qed.

Lemma plicinithart_serving h d : 0 <= h < 8 ->
  prio (plic_state d) UART0_IRQ = 1 -> prio (plic_state d) VIRTIO0_IRQ = 1 -> quiet_above h (plic_state d) ->
  serving h (plic_state (plicinithart h d)).
Proof.
  intros Hh Hu Hv Hq. rewrite plicinithart_view by done. split; [done|done| |cbn; unfold plic_upd; by rewrite Z.eqb_refl].
  intros j Hj. cbn. rewrite Z.eqb_refl. destruct (Z.ltb_spec 0 j) as [_|]; [|lia].
  destruct (Z.eqb_spec (j / 32) 0) as [E|E]; cbn [andb].
  - apply Z.div_small_iff in E; [|lia]. rewrite Z.mod_small by lia. apply enable_bits. lia.
  - rewrite Z.div_small_iff in E by lia. rewrite Hq by lia. unfold UART0_IRQ, VIRTIO0_IRQ. split; [done|lia].
Qed.

Lemma plic_claim_view h d : 0 <= h < 8 ->
  let v := plic_state d in let c := s_context h in
  let '(irq, d') := plic_claim h d in
  (irq = 0 /\ plic_state d' = v /\ forall j, candidate v c j = false) \/
  (candidate v c irq = true /\ plic_state d' = take_irq irq v /\
   forall j, candidate v c j = true -> prio v j < prio v irq \/ prio v j = prio v irq /\ irq <= j).
Proof.
  intros Hh. cbv zeta. unfold plic_claim, s_context.
  replace (PLIC_SCLAIM h) with (PLIC + 0x200004 + 0x1000 * (2 * h + 1)) by (unfold PLIC_SCLAIM; lia).
  pose proof (load_claim d (2 * h + 1) ltac:(lia)) as L.
  destruct (plic_load _ d) as [r d']. destruct L as [(-> & L)|(L & R)]; [by left|right].
  assert (Hr : 1 <= r < 1024).
  { unfold candidate in L. destruct (Z.leb_spec 1 r), (Z.ltb_spec r 1024); cbn in L; lia || done. }
  rewrite s32_small by lia. done.
Qed.

Lemma serving_candidate h v j : serving h v ->
  candidate v (s_context h) j = true <-> (j = UART0_IRQ \/ j = VIRTIO0_IRQ) /\ pending v j = true.
Proof.
  intros S. unfold candidate. rewrite !andb_true_iff, Z.leb_le, !Z.ltb_lt. split.
  - intros [[[[H1 H2] Hp] He] _]. split; [|done]. by apply (sv_enabled _ _ S); [lia|].
  - intros [Hj Hp].
    assert (Hr : 1 <= j < 1024) by (unfold UART0_IRQ, VIRTIO0_IRQ in Hj; lia).
    rewrite (proj2 (sv_enabled _ _ S j Hr) Hj).
    destruct Hj as [-> | ->]; [rewrite (sv_uart _ _ S)|rewrite (sv_disk _ _ S)]; repeat split; lia || done.
Qed.

(** The interrupt that the hart is to serve: the disk first. *)
Definition next_irq (v : plic_view) : Z :=
  if pending v VIRTIO0_IRQ then VIRTIO0_IRQ else if pending v UART0_IRQ then UART0_IRQ else 0.

Lemma serving_notified h v : serving h v -> notified v (s_context h) <-> next_irq v <> 0.
Proof.
  intros S. unfold next_irq. split.
  - intros (j & Hc & _). rewrite serving_candidate in Hc by done.
    destruct Hc as [[-> | ->] Hp]; rewrite Hp; by destruct (pending v VIRTIO0_IRQ).
  - intros Hn. exists (next_irq v). rewrite (serving_candidate h) by done. unfold next_irq in *.
    rewrite (sv_threshold _ _ S). destruct (pending v VIRTIO0_IRQ) eqn:E.
    + rewrite (sv_disk _ _ S). intuition lia.
    + destruct (pending v UART0_IRQ) eqn:E'; [|done]. rewrite (sv_uart _ _ S). intuition lia.
Qed.

Lemma plic_claim_next h d : 0 <= h < 8 -> serving h (plic_state d) ->
  let '(irq, d') := plic_claim h d in
  irq = next_irq (plic_state d) /\ plic_state d' = if irq =? 0 then plic_state d else take_irq irq (plic_state d).
Proof.
  intros Hh S. pose proof (plic_claim_view h d Hh) as C. cbv zeta in C. destruct (plic_claim h d) as [irq d'].
  pose proof (fun j => serving_candidate h (plic_state d) j S) as Hc. unfold next_irq.
  destruct C as [(-> & -> & Hno)|(Hi & -> & Hbest)].
  - assert (Hp : forall j, j = UART0_IRQ \/ j = VIRTIO0_IRQ -> pending (plic_state d) j = false).
    { intros j Hj. apply not_true_iff_false. intros Hp. pose proof (proj2 (Hc j) (conj Hj Hp)) as E. by rewrite Hno in E. }
    by rewrite !Hp by auto.
  - apply Hc in Hi as [Hj Hp].
    assert (Hn : (irq =? 0) = false) by (destruct Hj as [-> | ->]; done). rewrite Hn. split; [|done].
    destruct (pending (plic_state d) VIRTIO0_IRQ) eqn:E; [|destruct Hj as [-> | ->]; [by rewrite Hp|congruence]].
    destruct Hj as [-> | ->]; [|done]. specialize (Hbest VIRTIO0_IRQ (proj2 (Hc _) (conj (or_intror eq_refl) E))).
    rewrite (sv_uart _ _ S), (sv_disk _ _ S) in Hbest. unfold UART0_IRQ, VIRTIO0_IRQ in Hbest. lia.
Qed.

(** ** What may happen to the controller once it is set up: a device asserts its line, and
    the harts that start, claim and complete *)
Inductive plic_event (d : plic_dev) : plic_dev -> Prop :=
| ev_raise j d' : plic_state d' = raise_irq j (plic_state d) -> plic_event d d'
| ev_start h : 0 <= h < 8 -> plic_event d (plicinithart h d)
| ev_claim h : 0 <= h < 8 -> plic_event d (snd (plic_claim h d))
| ev_complete h irq : 0 <= h < 8 -> 0 <= irq < 1024 -> plic_event d (plic_complete h irq d).

(** The priorities and the enable bits of hart [h] survive, whatever other harts do. *)
Lemma event_stable d d' : plic_event d d' ->
  prio (plic_state d') = prio (plic_state d) /\
  forall h, quiet_above h (plic_state d) -> quiet_above h (plic_state d').
Proof.
  destruct 1 as [j d' E|h Hh|h Hh|h irq Hh Hi].
  - rewrite E. unfold raise_irq. by destruct (in_service _ _).
  - rewrite plicinithart_view by done. split; [done|]. intros h' Hq j Hj. cbn.
    replace (j / 32 =? 0) with false by (symmetry; apply Z.eqb_neq; rewrite Z.div_small_iff; lia). rewrite andb_false_r. by apply Hq.
  - pose proof (plic_claim_view h d Hh) as C. destruct (plic_claim h d) as [irq d']. cbn [snd].
    by destruct C as [(_ & -> & _)|(_ & -> & _)].
  - rewrite plic_complete_view by done. unfold finish_irq. by destruct (enabled _ _ _).
Qed.

Lemma serving_same h v v' : prio v' = prio v -> enabled v' = enabled v -> threshold v' = threshold v ->
  serving h v -> serving h v'.
Proof. intros E1 E2 E3 [S1 S2 S3 S4]. split; [rewrite E1..|rewrite E2|rewrite E3]; done. Qed.

Lemma event_serving h d d' : plic_event d d' -> 0 <= h -> serving h (plic_state d) -> serving h (plic_state d').
Proof.
  intros Ev Hh S. destruct Ev as [j d' E|h' Hh'|h' Hh'|h' irq Hh' Hi].
  - rewrite E. unfold raise_irq. destruct (in_service _ _); [done|]. by eapply serving_same; [..|exact S].
  - destruct (decide (h' = h)) as [->|Hne].
    + apply plicinithart_serving; [done|apply S|apply S|]. intros j Hj. apply not_true_iff_false.
      rewrite (sv_enabled _ _ S) by lia. unfold UART0_IRQ, VIRTIO0_IRQ. lia.
    + rewrite plicinithart_view by done. assert (Hc : (s_context h =? s_context h') = false) by (apply Z.eqb_neq; unfold s_context; lia).
      split; cbn; [apply S|apply S| |unfold plic_upd; rewrite Hc; apply S]. intros j Hj. rewrite Hc. by apply S.
  - pose proof (plic_claim_view h' d Hh') as C. destruct (plic_claim h' d) as [irq d']. cbn [snd].
    destruct C as [(_ & -> & _)|(_ & -> & _)]; [done|]. by eapply serving_same; [..|exact S].
  - rewrite plic_complete_view by done. unfold finish_irq. destruct (enabled _ _ _); [|done]. by eapply serving_same; [..|exact S].
Qed.

(** A hart that has set itself up after [plicinit] is served from then on. *)
Lemma events_serving h d0 d1 d : 0 <= h < 8 -> quiet_above h (plic_state d0) ->
  rtc plic_event (plicinit d0) d1 -> rtc plic_event (plicinithart h d1) d -> serving h (plic_state d).
Proof.
  intros Hh Hq E1 E2.
  assert (S : serving h (plic_state (plicinithart h d1))).
  { destruct (plicinit_prio d0) as [Hu Hv]. assert (Hq' : quiet_above h (plic_state (plicinit d0))) by by rewrite plicinit_view.
    clear E2. induction E1 as [d2|d2 d3 d4 Ev _ IH]; [by apply plicinithart_serving|].
    destruct (event_stable _ _ Ev) as [Hp Hs]. apply IH; [by rewrite Hp..|by apply Hs]. }
  revert S. clear E1. induction E2 as [|d2 d3 d4 Ev _ IH]; [done|]. intros S. apply IH. eapply event_serving; [done|lia|done].
Qed.
End Laws.

(** ** A controller with this behaviour *)
Fixpoint best_irq (v : plic_view) (c : Z) (l : list Z) : Z :=
  match l with
  | [] => 0
  | j :: l' =>
      let b := best_irq v c l' in
      if candidate v c j && ((b =? 0) || (prio v b <=? prio v j)) then j else b
  end.
Definition model_store (a x : Z) (v : plic_view) : plic_view :=
  let off := a - PLIC in
  if off <? 0x1000 then set_prio (off / 4) x v
  else if off <? 0x200000 then enable_word ((off - 0x2000) / 0x80) ((off - 0x2000) mod 0x80 / 4) x v
  else if (off - 0x200000) mod 0x1000 =? 0 then set_threshold ((off - 0x200000) / 0x1000) x v
  else finish_irq ((off - 0x200000) / 0x1000) x v.
Definition model_load (a : Z) (v : plic_view) : Z * plic_view :=
  let r := best_irq v ((a - PLIC - 0x200000) / 0x1000) (seqZ 1 1023) in
  (r, if r =? 0 then v else take_irq r v).
Definition reset_view : plic_view :=
  mkview (fun _ => 0) (fun _ _ => false) (fun _ => 0) (fun _ => false) (fun _ => false).
Definition model_plic : Plic := {| plic_dev := plic_view; plic_load := model_load; plic_store := model_store |}.

Lemma best_spec v c n k : 1 <= n ->
  let b := best_irq v c (seqZ n (Z.of_nat k)) in
  (b = 0 /\ forall j, n <= j < n + Z.of_nat k -> candidate v c j = false) \/
  (candidate v c b = true /\ n <= b /\
   forall j, n <= j < n + Z.of_nat k -> candidate v c j = true -> prio v j < prio v b \/ prio v j = prio v b /\ b <= j).
Proof.
  revert n. induction k as [|k IH]; intros n Hn b; [left; split; [done|lia]|].
  subst b. rewrite seqZ_cons by lia. replace (Z.pred (Z.of_nat (S k))) with (Z.of_nat k) by lia. cbn [best_irq].
  specialize (IH (Z.succ n) ltac:(lia)). cbv zeta in IH. set (b := best_irq v c _) in *.
  destruct (candidate v c n) eqn:E; cbn [andb].
  - destruct IH as [[-> IH]|(Hb & Hnb & IH)]; [right|].
    + cbn [Z.eqb orb]. split; [done|]. split; [lia|]. intros j Hj Hc. destruct (decide (j = n)) as [->|]; [lia|].
      rewrite IH in Hc by lia. done.
    + right. destruct (Z.eqb_spec b 0); [lia|]. cbn [orb].
      destruct (Z.leb_spec (prio v b) (prio v n)); (split; [done|split; [lia|]]); intros j Hj Hc;
        (destruct (decide (j = n)) as [->|]; [lia|]); specialize (IH j ltac:(lia) Hc); lia.
  - destruct IH as [[-> IH]|(Hb & Hnb & IH)].
    + left. split; [done|]. intros j Hj. destruct (decide (j = n)) as [->|]; [done|]. apply IH. lia.
    + right. split; [done|]. split; [lia|]. intros j Hj Hc. apply IH; [|done].
      destruct (decide (j = n)) as [->|]; [congruence|lia].
Qed.

Lemma div_at c k r : 0 < k -> 0 <= r < k -> (k * c + r) / k = c /\ (k * c + r) mod k = r.
Proof.
  intros. split.
  - rewrite Z.mul_comm, Z.div_add_l, Z.div_small by lia. lia.
  - rewrite Z.add_comm, Z.mul_comm, Z.mod_add, Z.mod_small by lia. done.
Qed.

Definition model_laws : @PlicLaws model_plic.
Proof.
  unshelve refine (@Build_PlicLaws model_plic (fun v => v : plic_view) _ _ _ _ _); cbn [plic_store plic_load plic_dev model_plic].
  - intros d i x Hi Hx. unfold model_store. replace (PLIC + 4 * i - PLIC) with (4 * i + 0) by lia.
    destruct (Z.ltb_spec (4 * i + 0) 0x1000); [|lia]. by rewrite (proj1 (div_at i 4 0 ltac:(lia) ltac:(lia))).
  - intros d c w x Hc Hw. unfold model_store. replace (PLIC + 0x2000 + 0x80 * c + 4 * w - PLIC) with (0x2000 + (0x80 * c + 4 * w)) by lia.
    destruct (Z.ltb_spec (0x2000 + (0x80 * c + 4 * w)) 0x1000); [lia|]. destruct (Z.ltb_spec (0x2000 + (0x80 * c + 4 * w)) 0x200000); [|lia].
    replace (0x2000 + (0x80 * c + 4 * w) - 0x2000) with (0x80 * c + 4 * w) by lia.
    destruct (div_at c 0x80 (4 * w) ltac:(lia) ltac:(lia)) as [-> ->].
    replace (4 * w) with (4 * w + 0) by lia. by rewrite (proj1 (div_at w 4 0 ltac:(lia) ltac:(lia))).
  - intros d c Hc. unfold model_store. replace (PLIC + 0x200000 + 0x1000 * c - PLIC) with (0x200000 + 0x1000 * c) by lia.
    destruct (Z.ltb_spec (0x200000 + 0x1000 * c) 0x1000); [lia|]. destruct (Z.ltb_spec (0x200000 + 0x1000 * c) 0x200000); [lia|].
    replace (0x200000 + 0x1000 * c - 0x200000) with (0x1000 * c + 0) by lia.
    by destruct (div_at c 0x1000 0 ltac:(lia) ltac:(lia)) as [-> ->].
  - intros d c Hc. unfold model_load. replace (PLIC + 0x200004 + 0x1000 * c - PLIC - 0x200000) with (0x1000 * c + 4) by lia.
    rewrite (proj1 (div_at c 0x1000 4 ltac:(lia) ltac:(lia))).
    pose proof (best_spec d c 1 1023 ltac:(lia)) as B. cbv zeta in B. change (Z.of_nat 1023) with 1023 in B.
    set (b := best_irq d c _) in *.
    assert (Hr : forall j, candidate d c j = true -> 1 <= j < 1 + 1023).
    { intros j. unfold candidate. destruct (Z.leb_spec 1 j), (Z.ltb_spec j 1024); cbn; done || lia. }
    destruct B as [[E B]|(Hb & Hn & B)].
    + left. rewrite E. cbn [Z.eqb]. split; [done|]. split; [done|]. intros j. apply not_true_iff_false. intros Hj.
      rewrite B in Hj by by apply Hr. done.
    + right. destruct (Z.eqb_spec b 0); [lia|]. split; [done|]. split; [done|]. intros j Hj. apply B; [by apply Hr|done].
  - intros d c x Hc Hx. unfold model_store. replace (PLIC + 0x200004 + 0x1000 * c - PLIC) with (0x200004 + 0x1000 * c) by lia.
    destruct (Z.ltb_spec (0x200004 + 0x1000 * c) 0x1000); [lia|]. destruct (Z.ltb_spec (0x200004 + 0x1000 * c) 0x200000); [lia|].
    replace (0x200004 + 0x1000 * c - 0x200000) with (0x1000 * c + 4) by lia.
    by destruct (div_at c 0x1000 4 ltac:(lia) ltac:(lia)) as [-> ->].
Defined.
