(* ===== verification/Trap.v ===== *)
(** * Traps (kernel/trap.c), the first return of a process to user space (forkret in
    kernel/proc.c) and the kernel's own page table (kvmmake in kernel/vm.c)

    The control registers of the hart and the devices that interrupt it are the record
    [hart]; a handler takes the registers as the trap leaves them and returns them as it sets
    them.  The interrupt controller is any device of the class [Plic]. *)

From S2P Require Import Prelude Spinlock State Printk Kstring Kalloc Vm Sync Sched Pipe Console Bio Log Fs File Proc Exec Syscall Sysfile Plic.

Section Traps.
Context `{Plic}.

Record hart := mkhart {
  sstatus : Z; scause : Z; sepc : Z; stval : Z; stvec : Z; satp : Z; tp : Z; time : Z;
  stimecmp : Z;
  plic : plic_dev;     (** the interrupt controller *)
  tx_idle : bool       (** the transmit bit of the UART's line status *) }.

Definition SSTATUS_SPP : Z := Z.shiftl 1 8.
Definition SSTATUS_SPIE : Z := Z.shiftl 1 5.
Definition SSTATUS_SIE : Z := Z.shiftl 1 1.
Definition SATP_SV39 : Z := Z.shiftl 8 60.
Definition MAKE_SATP (pt : Z) : Z := Z.lor SATP_SV39 (Z.shiftr pt 12).

(** kernel/proc.c: cpuid *)
Definition cpuid (h : hart) : Z := s32 (tp h).

(** ** kernel/trap.c *)
Definition clockintr (h : hart) : K hart :=
  when (cpuid h =? 0)
    (acquire L_ticks;;
     modify (fun s => set_ticks (u32 (ticks s + 1)) s);;
     wakeup C_ticks;;
     release L_ticks);;
  ret {| h with stimecmp := u64 (time h + 1000000) |}.

(** The disk's interrupt handler is the argument [virtio_disk_intr]: the disk is modelled by
    its contract, by which a transfer is complete when [virtio_disk_rw] returns. *)
Definition devintr (virtio_disk_intr : K unit) (h : hart) : K (Z * hart) :=
  if scause h =? 0x8000000000000009 then
    let '(irq, d) := plic_claim (cpuid h) (plic h) in
    (if irq =? UART0_IRQ then uartintr (tx_idle h)
     else if irq =? VIRTIO0_IRQ then virtio_disk_intr
     else when (negb (irq =? 0))
       (printk (str "unexpected interrupt irq=%d" ++ [10]) [VInt irq];; ret tt));;
    let d := if negb (irq =? 0) then plic_complete (cpuid h) irq d else d in
    ret (1, {| h with plic := d |})
  else if scause h =? 0x8000000000000005 then
    h ← clockintr h;
    ret (2, h)
  else ret (0, h).

(** Set up the trap frame and the control registers for a return to user space. *)
Definition prepare_return (h : hart) : K hart :=
  i ← myproc_deref;
  p ← get_proc i;
  l ← gets (fun s => ld s);
  tf ← gets (fun s => tframes s (p_trapframe p));
  set_tframe (p_trapframe p)
    {| tf with kernel_satp := satp h; kernel_sp := u64 (kstack p + PGSIZE);
               kernel_trap := ld_usertrap l; kernel_hartid := tp h |};;
  let x := Z.land (sstatus h) (Z.lnot SSTATUS_SIE) in
  let x := Z.land x (Z.lnot SSTATUS_SPP) in
  let x := Z.lor x SSTATUS_SPIE in
  ret {| h with stvec := u64 (TRAMPOLINE + (ld_uservec l - ld_trampoline l));
                sstatus := x; sepc := epc tf |}.

Definition save_epc (i : nat) (v : Z) : K unit :=
  p ← get_proc i;
  tf ← gets (fun s => tframes s (p_trapframe p));
  set_tframe (p_trapframe p) {| tf with epc := v |}.

(** The user page table to switch to, and the registers. *)
Definition usertrap (virtio_disk_intr : K unit) (h : hart) : K (Z * hart) :=
  panic_if (negb (Z.land (sstatus h) SSTATUS_SPP =? 0)) "usertrap: not from user mode";;
  l ← gets (fun s => ld s);
  let h := {| h with stvec := ld_kernelvec l |} in
  i ← myproc_deref;
  save_epc i (sepc h);;
  '(which_dev, h) ←
    (if scause h =? 8 then
       k ← killed i;
       when (negb (k =? 0)) (kexit (-1));;
       save_epc i (u64 (sepc h + 4));;
       syscall;;
       ret (0, {| h with sstatus := Z.lor (sstatus h) SSTATUS_SIE |})
     else
       '(which_dev, h) ← devintr virtio_disk_intr h;
       if negb (which_dev =? 0) then ret (which_dev, h)
       else
         p ← get_proc i;
         r ← (if (scause h =? 15) || (scause h =? 13)
              then vmfault (pagetable p) (stval h) (scause h =? 13) else ret 0);
         when (r =? 0)
           (printk (str "usertrap(): unexpected scause 0x%lx pid=%d" ++ [10])
              [VInt (scause h); VInt (pid p)];;
            printk (str "            sepc=0x%lx stval=0x%lx" ++ [10]) [VInt (sepc h); VInt (stval h)];;
            setkilled i);;
         ret (0, h));
  k ← killed i;
  when (negb (k =? 0)) (kexit (-1));;
  when (which_dev =? 2) yield;;
  h ← prepare_return h;
  p ← get_proc i;
  ret (MAKE_SATP (pagetable p), h).

Definition kerneltrap (virtio_disk_intr : K unit) (h : hart) : K hart :=
  panic_if (Z.land (sstatus h) SSTATUS_SPP =? 0) "kerneltrap: not from supervisor mode";;
  panic_if (negb (Z.land (sstatus h) SSTATUS_SIE =? 0)) "kerneltrap: interrupts enabled";;
  '(which_dev, h') ← devintr virtio_disk_intr h;
  (if which_dev =? 0 then
     printk (str "scause=0x%lx sepc=0x%lx stval=0x%lx" ++ [10])
       [VInt (scause h); VInt (sepc h); VInt (stval h)];;
     panic "kerneltrap"
   else ret tt);;
  me ← myproc;
  when ((which_dev =? 2) && bool_decide (is_Some me)) yield;;
  ret {| h' with sepc := sepc h; sstatus := sstatus h |}.

(** ** kernel/proc.c: forkret.  The jump to [userret] with the page table is the result. *)
Definition forkret (h : hart) : K (Z * hart) :=
  i ← myproc_deref;
  release (L_proc i);;
  f ← gets (fun s => first s);
  when (negb (f =? 0))
    (fsinit ROOTDEV;;
     modify (set_first 0);;
     r ← kexec (str "/init") [str "/init"];
     set_a0 i r;;
     panic_if (r =? -1) "exec");;
  h ← prepare_return h;
  p ← get_proc i;
  ret (MAKE_SATP (pagetable p), h).

(** ** kernel/vm.c: the kernel's page table *)
Definition UART0 : Z := 0x10000000.
Definition VIRTIO0 : Z := 0x10001000.

Definition kvmmake : K Z :=
  l ← gets (fun s => ld s);
  kpgtbl ← kalloc;
  (if kpgtbl =? 0 then fault "kvmmake: memset(0)" else zero_page kpgtbl);;
  kvmmap kpgtbl UART0 UART0 PGSIZE (Z.lor PTE_R PTE_W);;
  kvmmap kpgtbl VIRTIO0 VIRTIO0 PGSIZE (Z.lor PTE_R PTE_W);;
  kvmmap kpgtbl PLIC PLIC 0x4000000 (Z.lor PTE_R PTE_W);;
  kvmmap kpgtbl KERNBASE KERNBASE (u64 (ld_etext l - KERNBASE)) (Z.lor PTE_R PTE_X);;
  kvmmap kpgtbl (ld_etext l) (ld_etext l) (u64 (PHYSTOP - ld_etext l)) (Z.lor PTE_R PTE_W);;
  kvmmap kpgtbl TRAMPOLINE (ld_trampoline l) PGSIZE (Z.lor PTE_R PTE_X);;
  proc_mapstacks kpgtbl;;
  ret kpgtbl.

Definition kvminit : K unit :=
  pt ← kvmmake;
  modify (set_kernel_pagetable pt).

Definition kvminithart (h : hart) : K hart :=
  pt ← gets (fun s => kernel_pagetable s);
  ret {| h with satp := MAKE_SATP pt |}.

Definition trapinithart (h : hart) : K hart :=
  l ← gets (fun s => ld s);
  ret {| h with stvec := ld_kernelvec l |}.

End Traps.
