(* ===== verification/Kvm.v ===== *)
(** * The kernel's page table (the theory of kvmmake in kernel/vm.c and proc_mapstacks in
    kernel/proc.c)

    [kernel_entry] says which page-table entry each virtual address of the kernel has: the
    devices and physical memory at their own addresses, the text executable and not writable,
    the trampoline at the top, and below it a stack for each process with an unmapped page on
    either side.  [building] is the invariant of the construction; it counts the pages that the
    page table takes, so that the construction is shown not to run out of memory. *)

From S2P Require Import Prelude Spinlock State Kalloc Vm Pgtbl Vmcopy Proc Plic Trap.

Definition RW : Z := Z.lor (Z.lor PTE_R PTE_W) PTE_V.
Definition RX : Z := Z.lor (Z.lor PTE_R PTE_X) PTE_V.
Definition page_of (va : Z) : Z := va / PGSIZE * PGSIZE.

(** The process whose kernel stack is at [va]: every second page below the trampoline. *)
Definition stack_at (va : Z) : option nat :=
  let k := (TRAMPOLINE - page_of va) / PGSIZE in
  if (0 <? k) && Z.even k then Some (Z.to_nat (k / 2 - 1)) else None.

Definition in_device (va : Z) : bool :=
  bool_decide (UART0 <= va < UART0 + PGSIZE \/ VIRTIO0 <= va < VIRTIO0 + PGSIZE \/
               PLIC <= va < PLIC + 0x4000000).

Definition kernel_entry (l : ldsyms) (stacks : list Z) (va : Z) : Z :=
  if in_device va || bool_decide (ld_etext l <= va < PHYSTOP) then mkpte (page_of va) RW
  else if bool_decide (KERNBASE <= va < ld_etext l) then mkpte (page_of va) RX
  else if bool_decide (TRAMPOLINE <= va) then mkpte (ld_trampoline l) RX
  else match stack_at va ≫= (stacks !!.) with Some p => mkpte p RW | None => 0 end.

(** ** The nodes of the tree *)
Definition kernel_nodes : list node :=
  N2 :: [N1 0; N1 2; N1 255] ++ (N0 0 <$> seqZ 96 33) ++ (N0 2 <$> seqZ 0 64) ++ [N0 255 511].

(** The parts of the address space that the kernel uses. *)
Definition kernel_va (va : Z) : Prop :=
  PLIC <= va < 0x10002000 \/ KERNBASE <= va < PHYSTOP \/ MAXVA - 2 ^ 21 <= va < MAXVA.

Lemma kernel_path va b : kernel_va va -> path_to va b -> b ∈ kernel_nodes.
Proof.
  unfold kernel_va, path_to, PLIC, KERNBASE, PHYSTOP. change MAXVA with (2 ^ 38). rewrite !PX_eq by lia.
  change (2 ^ (12 + 9 * 2)) with (2 ^ 30). change (2 ^ (12 + 9 * 1)) with (2 ^ 21). intros Hva Hb.
  assert (H : va / 2 ^ 30 mod 512 = 0 /\ 96 <= va / 2 ^ 21 mod 512 < 129 \/
              va / 2 ^ 30 mod 512 = 2 /\ 0 <= va / 2 ^ 21 mod 512 < 64 \/
              va / 2 ^ 30 mod 512 = 255 /\ va / 2 ^ 21 mod 512 = 511).
  { unfold KERNBASE in *. destruct Hva as [?|[?|?]]; [left|right; left|right; right]; dlia. }
  unfold kernel_nodes. rewrite !elem_of_cons, !elem_of_app, !list_elem_of_fmap. setoid_rewrite elem_of_seqZ.
  destruct Hb as [-> | ->], H as [[-> H]|[[-> H]|[-> H]]].
  - right. left. by left.
  - right. left. set_solver.
  - right. left. set_solver.
  - right. right. left. exists (va / 2 ^ 21 mod 512). split; [done|lia].
  - right. right. right. left. exists (va / 2 ^ 21 mod 512). split; [done|lia].
  - rewrite H. right. right. right. right. set_solver.
Qed.

(** ** The construction *)
Section Build.
Context (s0 : kstate) (l0 : list Z) (pt : Z).

(** The page table so far has the entries [f]; the pages taken from [l0] are those of the tree
    and the stacks [ps]. *)
Record building (ps : list Z) (f : Z -> Z) (s : kstate) (T : ptree) (A l : list Z) : Prop := {
  bd_ctx : vmctx s T A l;
  bd_root : T N2 = Some pt;
  bd_pages : A ++ l ≡ₚ l0;
  bd_nodes b p : T b = Some p -> b ∈ kernel_nodes;
  bd_used p : p ∈ A -> p ∈ ps \/ exists b, T b = Some p;
  bd_stacks p : p ∈ ps -> p ∈ A /\ forall b, T b <> Some p;
  bd_distinct : NoDup ps;
  bd_map va : 0 <= va < MAXVA -> pte_at (mem s) T va = f va;
  bd_frame : s = set_freelist (freelist s) (set_mem (mem s) s0) }.

Lemma building_count ps f s T A l : building ps f s T A l ->
  (length A <= length ps + length kernel_nodes)%nat.
Proof.
  intros B. destruct (vc_kmem _ _ _ _ (bd_ctx _ _ _ _ _ _ B)) as [_ Hnd _ _]. apply NoDup_app in Hnd as [Hnd _].
  assert (Hsub : A ⊆+ ps ++ omap T kernel_nodes).
  { apply NoDup_submseteq; [done|]. intros p Hp. apply elem_of_app.
    destruct (bd_used _ _ _ _ _ _ B p Hp) as [?|[b Hb]]; [by left|right]. apply list_elem_of_omap.
    exists b. split; [|done]. by eapply (bd_nodes _ _ _ _ _ _ B). }
  apply submseteq_length in Hsub. rewrite length_app in Hsub.
  assert (Hle : (length (omap T kernel_nodes) <= length kernel_nodes)%nat).
  { generalize kernel_nodes. intros L. induction L as [|b L IH]; [done|]. cbn. destruct (T b); cbn; lia. }
  lia.
Qed.

Lemma building_free ps f s T A l : building ps f s T A l ->
  (length ps + length kernel_nodes < length l0)%nat -> l <> [].
Proof.
  intros B Hl ->. pose proof (building_count _ _ _ _ _ _ B). rewrite <-(bd_pages _ _ _ _ _ _ B), app_nil_r in Hl. lia.
Qed.

(** One mapping. *)
Lemma kvmmap_step ps f s T A l va pa n perm Q :
  building ps f s T A l -> (length ps + length kernel_nodes < length l0)%nat -> flags_ok perm ->
  va mod PGSIZE = 0 -> 0 <= va -> 1 <= n -> va + n * PGSIZE <= MAXVA ->
  pa mod PGSIZE = 0 -> 0 <= pa -> pa + n * PGSIZE <= 2 ^ 56 ->
  (forall v, va <= v < va + n * PGSIZE -> kernel_va v /\ f v = 0) ->
  (forall s' T' A' l', building ps (map_range va n pa (Z.lor perm PTE_V) f) s' T' A' l' -> Q tt s') ->
  wp (kvmmap pt va pa (n * PGSIZE) perm) Q s.
Proof.
  intros B Hroom Hperm Hal Hva Hn Hend Hpal Hpa Hpend Hf HQ. unfold kvmmap. apply wp_bind. eapply wp_mono.
  { apply (mappages_spec s T A l pt perm va pa n); try done; [apply B|apply B|].
    intros i Hi. rewrite (bd_map _ _ _ _ _ _ B) by (unfold PGSIZE in *; lia).
    rewrite (proj2 (Hf (va + i * PGSIZE) ltac:(unfold PGSIZE in *; lia))). done. }
  intros r s' (T' & A' & l' & d & C' & K & P & Hr & Hpte).
  assert (B' : building ps (map_range va d pa (Z.lor perm PTE_V) f) s' T' A' l').
  { split; [done|by apply K, B|by rewrite (sp_pages _ _ _ _ _ _ _ P); apply B| | | |apply B| |].
    - intros b p [Hb|(i & Hi & Hb)]%(sp_nodes _ _ _ _ _ _ _ P); [by eapply B|].
      eapply kernel_path; [|exact Hb]. apply Hf. unfold PGSIZE in *. lia.
    - intros p [Hp|Hp]%(kp_new _ _ _ _ _ _ K); [|by right].
      destruct (bd_used _ _ _ _ _ _ B p Hp) as [?|[b Hb]]; [by left|right]. exists b. by apply K.
    - intros p Hp. destruct (bd_stacks _ _ _ _ _ _ B p Hp) as [Hp1 Hp2]. split; [by apply K|].
      by apply (kp_frames _ _ _ _ _ _ K p).
    - intros v Hv. rewrite Hpte by done. unfold map_range. case_decide; [done|]. by apply B.
    - rewrite (kp_frame _ _ _ _ _ _ K) at 1. rewrite (bd_frame _ _ _ _ _ _ B) at 1. done. }
  destruct Hr as [[-> ->]|(-> & _ & ->)].
  - cbn. apply wp_ret. by eapply HQ.
  - by destruct (building_free _ _ _ _ _ _ B' Hroom).
Qed.

Lemma building_ext ps f g s T A l : (forall va, 0 <= va < MAXVA -> f va = g va) ->
  building ps f s T A l -> building ps g s T A l.
Proof. intros Hfg []. split; try done. intros va Hva. rewrite <-Hfg by done. auto. Qed.

(** A page for a stack. *)
Lemma kalloc_stack ps f s T A l Q : building ps f s T A l ->
  (length ps + length kernel_nodes < length l0)%nat ->
  (forall p s' A' l', p <> 0 -> pa_ok p -> p < PHYSTOP -> building (ps ++ [p]) f s' T A' l' -> Q p s') ->
  wp kalloc Q s.
Proof.
  intros B Hroom HQ. pose proof (bd_ctx _ _ _ _ _ _ B) as C.
  apply (kalloc_spec s A l); [apply C|apply C|intros E; by destruct (building_free _ _ _ _ _ _ B Hroom)|].
  intros p l' -> HpA Hpok Hp0 s' Hk.
  assert (HpT : forall b q, T b = Some q -> p <> q) by (intros b q Hb ->; by apply HpA, (vc_in _ _ _ _ C b)).
  destruct (page_ok_pa s p (ki_end _ _ _ (vc_kmem _ _ _ _ C)) Hpok) as [Hppa _].
  destruct (rep_ext (mem s) (mem s') T (vc_rep _ _ _ _ C)) as [Hrep Hpte].
  { intros b q x Hb Hx. cbn. unfold fill.
    destruct (pages_disjoint p q (proj1 Hpok)); [apply (rp_page _ _ (vc_rep _ _ _ _ C) b q Hb)|by eapply HpT|..];
      by rewrite bool_decide_false by lia. }
  apply (HQ p s' (p :: A) l'); [done|done|apply Hpok|]. split.
  - split; [done|done|intros b q Hb; right; by eapply C|apply C].
  - apply B.
  - rewrite <-(bd_pages _ _ _ _ _ _ B). by rewrite <-Permutation_middle.
  - apply B.
  - intros q [->|Hq]%elem_of_cons; [left; set_solver|].
    destruct (bd_used _ _ _ _ _ _ B q Hq) as [?|?]; [left; set_solver|by right].
  - intros q [Hq| ->%list_elem_of_singleton]%elem_of_app.
    + destruct (bd_stacks _ _ _ _ _ _ B q Hq). split; [by right|done].
    + split; [by left|]. intros b Hb. by eapply HpT.
  - apply NoDup_app. split; [apply B|]. split; [|apply NoDup_singleton].
    intros q Hq ->%list_elem_of_singleton. by apply HpA, (bd_stacks _ _ _ _ _ _ B).
  - intros va Hva. rewrite Hpte by lia. by apply B.
  - transitivity (set_freelist (freelist s') (set_mem (mem s') s)); [done|].
    generalize (freelist s') (mem s'). intros r m. by rewrite (bd_frame _ _ _ _ _ _ B).
Qed.
End Build.

(** The root. *)
Lemma kvm_root (k : Z -> K Z) s l Q : kmem_inv s [] l -> L_kmem ∉ held s -> l <> [] ->
  (forall pt s' T A l', building s l pt [] (fun _ => 0) s' T A l' -> wp (k pt) Q s') ->
  wp (pt ← kalloc; (if pt =? 0 then fault "kvmmake: memset(0)" else zero_page pt);; k pt) Q s.
Proof.
  intros Hk Hl Hne HQ. apply wp_bind, (kalloc_spec s [] l); [done|done|done|].
  intros p l' -> _ Hpok Hp0 s1 Hk1. destruct (Z.eqb_spec p 0); [done|]. apply wp_bind, wp_modify.
  destruct (page_ok_pa s p (ki_end _ _ _ Hk) Hpok) as [Hppa Hppos].
  eapply (HQ p _ (root_only p) [p] l').
  assert (Hz : forall k', idx k' -> load64 (fill (mem s1) p 0 PGSIZE) (p + 8 * k') = 0) by (intros; by apply load_fill_zero).
  split.
  - split; [|by apply root_only_rep|intros [] q [= <-]; by left|done].
    destruct Hk1 as [Hch Hnd Hpg He]. split; try done.
    apply Forall_app in Hpg as [_ Hpl]. apply NoDup_app in Hnd as (_ & Hd & _).
    eapply (chain_ext (mem s1) _ _ _ p); [exact Hch| |apply Hpok|apply Hd; by left|].
    + eapply Forall_impl; [exact Hpl|by intros ? []].
    + intros x Hx. cbn. unfold fill at 1. by rewrite bool_decide_false by lia.
  - done.
  - done.
  - intros [] q [=]. by left.
  - intros q ->%list_elem_of_singleton. right. by exists N2.
  - by intros q ?%not_elem_of_nil.
  - apply NoDup_nil_2.
  - done.
  - done.
Qed.

(** ** The entries *)
Lemma TRAMPOLINE_eq : TRAMPOLINE = 2 ^ 38 - 4096.
Proof. done. Qed.
Lemma KSTACK_eq i : KSTACK i = 2 ^ 38 - 4096 - (Z.of_nat i + 1) * 8192.
Proof. unfold KSTACK. rewrite TRAMPOLINE_eq. unfold PGSIZE. lia. Qed.

Lemma stack_at_iff va i : 0 <= va < MAXVA -> stack_at va = Some i <-> KSTACK i <= va < KSTACK i + PGSIZE.
Proof.
  change MAXVA with (2 ^ 38). intros Hva. unfold stack_at, page_of. rewrite TRAMPOLINE_eq, KSTACK_eq.
  unfold PGSIZE. set (k := (2 ^ 38 - 4096 - va / 4096 * 4096) / 4096).
  assert (Hk : k = 2 ^ 26 - 1 - va / 4096) by (unfold k; dlia). clearbody k. subst k.
  destruct (Z.ltb_spec 0 (2 ^ 26 - 1 - va / 4096)) as [Hp|Hp]; cbn [andb].
  - destruct (Z.even (2 ^ 26 - 1 - va / 4096)) eqn:E.
    + apply Z.even_spec in E as [h Hh]. rewrite Hh, Z.mul_comm, Z.div_mul by lia. split.
      * intros [= <-]. dlia.
      * intros H. f_equal. dlia.
    + split; [done|]. intros H. exfalso. rewrite <-Z.negb_odd in E. apply negb_false_iff in E.
      apply Z.odd_spec in E as [h Hh]. dlia.
  - split; [done|]. intros H. exfalso. dlia.
Qed.

(** The layout of the kernel image: text and data of whole pages, with the trampoline in the
    text. *)
Record image_ok (l : ldsyms) : Prop := {
  im_etext : ld_etext l mod PGSIZE = 0 /\ KERNBASE < ld_etext l < PHYSTOP;
  im_trampoline : ld_trampoline l mod PGSIZE = 0 /\ KERNBASE <= ld_trampoline l < ld_etext l }.

Section Image.
Context (l : ldsyms) (Him : image_ok l).
Let etext := ld_etext l.

(** The mappings of [kvmmake], first to last. *)
Definition map1 := map_range UART0 1 UART0 RW (fun _ => 0).
Definition map2 := map_range VIRTIO0 1 VIRTIO0 RW map1.
Definition map3 := map_range PLIC 0x4000 PLIC RW map2.
Definition map4 := map_range KERNBASE ((etext - KERNBASE) / PGSIZE) KERNBASE RX map3.
Definition map5 := map_range etext ((PHYSTOP - etext) / PGSIZE) etext RW map4.
Definition map6 := map_range TRAMPOLINE 1 (ld_trampoline l) RX map5.

Lemma sizes : (etext - KERNBASE) / PGSIZE * PGSIZE = etext - KERNBASE /\
  (PHYSTOP - etext) / PGSIZE * PGSIZE = PHYSTOP - etext.
Proof.
  destruct (im_etext _ Him) as [Ha Hr]. fold etext in Ha, Hr. unfold PHYSTOP, KERNBASE, PGSIZE in *. dlia.
Qed.

Lemma map6_entry va : 0 <= va < MAXVA -> map6 va = kernel_entry l [] va.
Proof.
  destruct (im_etext _ Him) as [Ha Hr]. destruct sizes as [S1 S2]. fold etext in Ha, Hr.
  intros Hva. unfold map6, map5, map4, map3, map2, map1, map_range, kernel_entry, in_device, page_of. fold etext.
  rewrite S1, S2. change (0x4000 * PGSIZE) with 0x4000000. rewrite !Z.mul_1_l.
  assert (Hst : match stack_at va ≫= ([] !!.) with Some p => mkpte p RW | None => 0 end = 0).
  { by destruct (stack_at va). }
  rewrite Hst. clear Hst S1 S2.
  assert (E : forall x, x + (va / PGSIZE * PGSIZE - x) = va / PGSIZE * PGSIZE) by lia. rewrite !E. clear E.
  assert (Et : TRAMPOLINE <= va -> ld_trampoline l + (va / PGSIZE * PGSIZE - TRAMPOLINE) = ld_trampoline l).
  { rewrite TRAMPOLINE_eq. change MAXVA with (2 ^ 38) in Hva. unfold PGSIZE. intros. dlia. }
  generalize dependent (ld_trampoline l). generalize dependent (va / PGSIZE * PGSIZE). intros pg tr Et. clearbody etext. clear Ha.
  rewrite TRAMPOLINE_eq in *. change MAXVA with (2 ^ 38) in *. unfold UART0, VIRTIO0, PLIC, PHYSTOP, KERNBASE, PGSIZE in *.
  case_decide; [rewrite (Et ltac:(lia))|]; clear Et.
  all: repeat (case_decide; [|try (exfalso; lia)]).
  all: repeat (case_bool_decide; cbn [orb]; try (exfalso; lia)).
  all: done.
Qed.

(** One more stack. *)
Lemma kernel_entry_stack ps p va : 0 <= va < MAXVA -> (length ps < NPROC)%nat ->
  map_range (KSTACK (length ps)) 1 p RW (kernel_entry l ps) va = kernel_entry l (ps ++ [p]) va /\
  (KSTACK (length ps) <= va < KSTACK (length ps) + PGSIZE -> kernel_va va /\ kernel_entry l ps va = 0).
Proof.
  intros Hva Hn. destruct (im_etext _ Him) as [Ha Hr]. fold etext in Ha, Hr. unfold NPROC in Hn.
  pose proof (stack_at_iff va (length ps) Hva) as Hs.
  assert (Hout : KSTACK (length ps) <= va < KSTACK (length ps) + PGSIZE ->
    kernel_va va /\ forall qs, kernel_entry l qs va = match qs !! length ps with Some q => mkpte q RW | None => 0 end).
  { intros Hin. rewrite KSTACK_eq in Hin. unfold kernel_va, kernel_entry, in_device. fold etext.
    rewrite (proj2 Hs) by (by rewrite KSTACK_eq).
    unfold UART0, VIRTIO0, PLIC, KERNBASE, PHYSTOP in *. rewrite TRAMPOLINE_eq. change MAXVA with (2 ^ 38) in *. unfold KERNBASE, PGSIZE in *.
    split; [lia|]. intros qs. rewrite !bool_decide_false by lia. done. }
  split; [|intros Hin; destruct (Hout Hin) as [H1 H2]; split; [done|by rewrite H2, lookup_ge_None_2]].
  unfold map_range. rewrite Z.mul_1_l. case_decide as Hin.
  - rewrite (proj2 (Hout Hin)), lookup_app_r, Nat.sub_diag by lia. cbn. f_equal. rewrite KSTACK_eq in *. unfold PGSIZE in *. dlia.
  - unfold kernel_entry. destruct (stack_at va) as [i|] eqn:E; [|done]. cbn [mbind option_bind].
    assert (Hi : i <> length ps) by (intros ->; by apply Hin, Hs).
    destruct (decide (i < length ps)%nat); [by rewrite lookup_app_l by lia|]. by rewrite !lookup_ge_None_2 by (rewrite ?length_app; cbn; lia).
Qed.
End Image.

Lemma kvmmap_sized s0 l0 pt ps f s T A l va pa n size perm Q :
  building s0 l0 pt ps f s T A l -> size = n * PGSIZE ->
  (length ps + length kernel_nodes < length l0)%nat -> flags_ok perm ->
  va mod PGSIZE = 0 /\ pa mod PGSIZE = 0 -> 0 <= va /\ 1 <= n /\ va + size <= MAXVA ->
  0 <= pa /\ pa + size <= 2 ^ 56 ->
  (forall v, va <= v < va + size -> kernel_va v /\ f v = 0) ->
  (forall s' T' A' l', building s0 l0 pt ps (map_range va n pa (Z.lor perm PTE_V) f) s' T' A' l' -> Q tt s') ->
  wp (kvmmap pt va pa size perm) Q s.
Proof. intros B -> Hr Hp [? ?] (? & ? & ?) [? ?] Hf HQ. by eapply (kvmmap_step s0 l0 pt). Qed.

Ltac kvm_numbers :=
  unfold map1, map2, map3, map4, map5, map_range, kernel_va, UART0, VIRTIO0, PLIC in *;
  rewrite ?TRAMPOLINE_eq in *; change MAXVA with (2 ^ 38) in *; unfold PHYSTOP, KERNBASE, PGSIZE in *.
(** The address range of one mapping: in the kernel's part of the address space, and not yet
    mapped. *)
Ltac kvm_unmapped :=
  intros v Hv; kvm_numbers; split; [lia|]; by rewrite ?decide_False by lia.

Section Make.
Context (s0 : kstate) (l0 : list Z) (Him : image_ok (ld s0)).
Context (Hmem : (NPROC + length kernel_nodes < length l0)%nat).

Lemma mapstacks_wp pt s T A l Q : building s0 l0 pt [] (kernel_entry (ld s0) []) s T A l ->
  (forall ps s' T' A' l', length ps = NPROC -> building s0 l0 pt ps (kernel_entry (ld s0) ps) s' T' A' l' -> Q tt s') ->
  wp (proc_mapstacks pt) Q s.
Proof.
  intros B HQ. apply (wp_mfor _ _ (fun d _ s => exists ps T A l, length ps = length d /\
    building s0 l0 pt ps (kernel_entry (ld s0) ps) s T A l)).
  - by exists [], T, A, l.
  - intros d i r s1 Hd (ps & T1 & A1 & l1 & Hlen & B1).
    assert (Hi : i = length d /\ (length d < NPROC)%nat).
    { assert (Hl : proc_ids !! length d = Some i) by (rewrite Hd, lookup_app_r, Nat.sub_diag by lia; done).
      unfold proc_ids in Hl. apply lookup_seq in Hl. lia. }
    destruct Hi as [-> Hlt]. rewrite <-Hlen in *. apply wp_bind, (kalloc_stack s0 l0 pt ps (kernel_entry (ld s0) ps) s1 T1 A1 l1); [done|lia|].
    intros p s2 A2 l2 Hp0 Hpa Hph B2. destruct (Z.eqb_spec p 0); [done|]. apply wp_bind, wp_ret.
    assert (Hk : 0 <= KSTACK (length ps) /\ KSTACK (length ps) + PGSIZE <= MAXVA /\ KSTACK (length ps) mod PGSIZE = 0).
    { rewrite KSTACK_eq. unfold NPROC, PGSIZE in *. change MAXVA with (2 ^ 38). dlia. }
    apply (kvmmap_sized s0 l0 pt (ps ++ [p]) (kernel_entry (ld s0) ps) s2 T1 A2 l2 _ _ 1).
    + done.
    + lia.
    + rewrite length_app. cbn [length]. lia.
    + split; [done|reflexivity].
    + split; [apply Hk|apply Hpa].
    + lia.
    + destruct Hpa. unfold PHYSTOP, KERNBASE, PGSIZE in *. lia.
    + intros v Hv. apply (kernel_entry_stack (ld s0) Him ps p v); [lia|done|done].
    + intros s3 T3 A3 l3 B3. exists (ps ++ [p]), T3, A3, l3. split; [by rewrite !length_app, Hlen|].
      eapply building_ext; [|exact B3]. intros va Hva. by apply (kernel_entry_stack (ld s0) Him ps p va).
  - intros s1 (ps & T1 & A1 & l1 & Hlen & B1). eapply HQ; [|done]. by rewrite Hlen.
Qed.

Lemma kvmmake_wp : kmem_inv s0 [] l0 -> L_kmem ∉ held s0 ->
  wp kvmmake (fun pt s' => exists ps T A l, length ps = NPROC /\
    building s0 l0 pt ps (kernel_entry (ld s0) ps) s' T A l) s0.
Proof.
  intros Hk Hl. destruct (im_etext _ Him) as [Ea Er]. destruct (im_trampoline _ Him) as [Ta Tr].
  destruct (sizes (ld s0) Him) as [S1 S2].
  assert (Hroom : (length (@nil Z) + length kernel_nodes < length l0)%nat) by (cbn [length]; unfold NPROC in Hmem; lia).
  unfold kvmmake. apply wp_bind, wp_gets. apply (kvm_root _ s0 l0); [done|done|intros E; rewrite E in Hmem; cbn in Hmem; lia|].
  intros pt s1 T1 A1 l1 B. apply wp_bind.
  apply (kvmmap_sized s0 l0 pt [] _ _ _ _ _ _ _ 1 _ _ _ B); [done|done|done|done|by vm_compute|by vm_compute|kvm_unmapped|].
  clear B. intros s2 T2 A2 l2 B. apply wp_bind.
  apply (kvmmap_sized s0 l0 pt [] _ _ _ _ _ _ _ 1 _ _ _ B); [done|done|done|done|by vm_compute|by vm_compute|kvm_unmapped|].
  clear B. intros s3 T3 A3 l3 B. apply wp_bind.
  apply (kvmmap_sized s0 l0 pt [] _ _ _ _ _ _ _ 0x4000 _ _ _ B); [done|done|done|done|by vm_compute|by vm_compute|kvm_unmapped|].
  clear B. intros s4 T4 A4 l4 B. apply wp_bind.
  rewrite !u64_small by (unfold PHYSTOP, KERNBASE in *; lia).
  apply (kvmmap_sized s0 l0 pt [] _ _ _ _ _ _ _ _ _ _ _ B (eq_sym S1)); [done|done|done| | |kvm_unmapped|].
  { kvm_numbers. dlia. }
  { kvm_numbers. dlia. }
  clear B. intros s5 T5 A5 l5 B. apply wp_bind.
  apply (kvmmap_sized s0 l0 pt [] _ _ _ _ _ _ _ _ _ _ _ B (eq_sym S2)); [done|done|done| | |kvm_unmapped|].
  { kvm_numbers. dlia. }
  { kvm_numbers. dlia. }
  clear B. intros s6 T6 A6 l6 B. apply wp_bind.
  apply (kvmmap_sized s0 l0 pt [] _ _ _ _ _ _ _ 1 _ _ _ B); [done|done|done|done| | |kvm_unmapped|].
  { kvm_numbers. dlia. }
  { kvm_numbers. dlia. }
  clear B. intros s7 T7 A7 l7 B. apply (building_ext _ _ _ _ _ (kernel_entry (ld s0) [])) in B; [|exact (map6_entry (ld s0) Him)].
  apply wp_bind. eapply mapstacks_wp; [exact B|]. intros ps s8 T8 A8 l8 Hps B8. apply wp_ret. by exists ps, T8, A8, l8.
Qed.
End Make.

(** ** The properties of the entries *)
Lemma kernel_entry_flags l ps va : image_ok l -> 0 <= va < MAXVA -> (forall p, p ∈ ps -> pa_ok p) ->
  let e := kernel_entry l ps va in has e PTE_U = false /\ has e PTE_W && has e PTE_X = false.
Proof.
  intros Him Hva Hps e. destruct (im_etext _ Him) as [_ Hr]. destruct (im_trampoline _ Him) as [Ta Tr].
  assert (He : e = 0 \/ exists p f, pa_ok p /\ e = mkpte p f /\ (f = RW \/ f = RX)).
  { assert (Hpg : pa_ok (page_of va)) by (unfold pa_ok, page_of, PGSIZE; change MAXVA with (2 ^ 38) in *; split; dlia).
    unfold e, kernel_entry. destruct (_ || _); [right; eauto 6|]. case_bool_decide; [right; eauto 6|]. case_bool_decide.
    { right. exists (ld_trampoline l), RX. split; [|auto]. unfold pa_ok, PHYSTOP, KERNBASE in *. split; [done|lia]. }
    destruct (stack_at va ≫= (ps !!.)) as [p|] eqn:E; [|by left]. right. exists p, RW. split; [|auto].
    apply Hps. apply bind_Some in E as (i & _ & Hi). by eapply list_elem_of_lookup_2. }
  destruct He as [->|(p & f & Hp & -> & Hf)]; [done|].
  assert (Hff : flags_ok f) by (destruct Hf as [-> | ->]; done).
  rewrite !mkpte_has by done. by destruct Hf as [-> | ->].
Qed.

Lemma kernel_entry_guard l ps i va : image_ok l -> (i < NPROC)%nat ->
  KSTACK i - PGSIZE <= va < KSTACK i \/ KSTACK i + PGSIZE <= va < KSTACK i + 2 * PGSIZE ->
  kernel_entry l ps va = 0.
Proof.
  intros Him Hi Hva. destruct (im_etext _ Him) as [_ Hr]. rewrite KSTACK_eq in Hva. unfold NPROC in Hi.
  assert (Hs : stack_at va = None).
  { destruct (stack_at va) as [j|] eqn:E; [|done]. exfalso.
    apply stack_at_iff in E; [rewrite KSTACK_eq in E|]; change MAXVA with (2 ^ 38); unfold PGSIZE in *; lia. }
  unfold kernel_entry, in_device. rewrite Hs. cbn [mbind option_bind].
  unfold UART0, VIRTIO0, PLIC, KERNBASE, PHYSTOP, PGSIZE in *. rewrite TRAMPOLINE_eq. unfold KERNBASE, PGSIZE in *.
  by rewrite !bool_decide_false by lia.
Qed.


(** An image of 128 kilobytes, half of it text. *)
Definition demo_image : kstate :=
  {| zero_state with ld := mkldsyms (KERNBASE + 0x20000) (KERNBASE + 0x10000) (KERNBASE + 0xf000) 0 0 0 0 0 |}.

