(* ===== verification/Boot.v ===== *)
(** * Booting: kernel/start.c, uartinit (kernel/uart.c) and kernel/main.c

    [start] runs in machine mode on each hart.  The machine-level registers are the record
    [mregs]; which bits of a control register can be set is a parameter of the hart
    ([HartImpl]), with what the code relies on, as the privileged architecture specifies it
    for a hart with supervisor mode and the Sstc extension, in [HartLaws].  The UART is a
    device of the class [Uart]; its laws are those of a 16550.

    The theorem at the end follows a device interrupt from reset to its handler. *)

From S2P Require Import Prelude Spinlock State Printk Kalloc Vm Sync Console Bio Fs Proc Plic Trap.

(** ** The hart in machine mode *)
Record mregs := mkmregs {
  mode : Z;            (** 3: machine, 1: supervisor, 0: user *)
  pc : Z; mhartid : Z; mstatus : Z; mepc : Z; m_satp : Z; medeleg : Z; mideleg : Z; mie : Z;
  pmpaddr0 : Z; pmpcfg0 : Z; menvcfg : Z; mcounteren : Z; m_stimecmp : Z; m_time : Z; m_tp : Z }.

Class HartImpl := {
  medeleg_bits : Z; mideleg_bits : Z; menvcfg_bits : Z; mcounteren_bits : Z }.

Definition MSTATUS_MPP_MASK : Z := Z.shiftl 3 11.
Definition MSTATUS_MPP_S : Z := Z.shiftl 1 11.
Definition SIE_SEIE : Z := Z.shiftl 1 9.
Definition SIE_STIE : Z := Z.shiftl 1 5.

Section Start.
Context `{HartImpl}.

(** *** kernel/riscv.h.  The register sie shows the bits of mie whose interrupts are
    delegated. *)
Definition r_mhartid (c : mregs) : Z := mhartid c.
Definition r_mstatus (c : mregs) : Z := mstatus c.
Definition w_mstatus (x : Z) (c : mregs) : mregs := {| c with mstatus := x |}.
Definition w_mepc (x : Z) (c : mregs) : mregs := {| c with mepc := Z.clearbit x 0 |}.
Definition w_satp (x : Z) (c : mregs) : mregs := {| c with m_satp := x |}.
Definition w_medeleg (x : Z) (c : mregs) : mregs := {| c with medeleg := Z.land x medeleg_bits |}.
Definition w_mideleg (x : Z) (c : mregs) : mregs := {| c with mideleg := Z.land x mideleg_bits |}.
Definition r_sie (c : mregs) : Z := Z.land (mie c) (mideleg c).
Definition w_sie (x : Z) (c : mregs) : mregs :=
  {| c with mie := Z.lor (Z.ldiff (mie c) (mideleg c)) (Z.land x (mideleg c)) |}.
Definition w_pmpaddr0 (x : Z) (c : mregs) : mregs := {| c with pmpaddr0 := Z.land x (Z.ones 54) |}.
Definition w_pmpcfg0 (x : Z) (c : mregs) : mregs := {| c with pmpcfg0 := x |}.
Definition r_menvcfg (c : mregs) : Z := menvcfg c.
Definition w_menvcfg (x : Z) (c : mregs) : mregs := {| c with menvcfg := Z.land x menvcfg_bits |}.
Definition r_mcounteren (c : mregs) : Z := mcounteren c.
Definition w_mcounteren (x : Z) (c : mregs) : mregs := {| c with mcounteren := Z.land x mcounteren_bits |}.
Definition r_time (c : mregs) : Z := m_time c.
Definition w_stimecmp (x : Z) (c : mregs) : mregs := {| c with m_stimecmp := x |}.
Definition w_tp (x : Z) (c : mregs) : mregs := {| c with m_tp := x |}.

(** The instruction mret: return to the previous mode. *)
Definition put_bit (i : Z) (b : bool) (x : Z) : Z := if b then Z.setbit x i else Z.clearbit x i.
Definition mpp (x : Z) : Z := Z.land (Z.shiftr x 11) 3.
Definition mret (c : mregs) : mregs :=
  let x := mstatus c in
  let x' := Z.ldiff (put_bit 7 true (put_bit 3 (Z.testbit x 7) x)) MSTATUS_MPP_MASK in
  {| c with mode := mpp x; pc := mepc c;
            mstatus := if mpp x =? 3 then x' else Z.clearbit x' 17 |}.

(** *** kernel/start.c *)
Definition timerinit (c : mregs) : mregs :=
  let c := w_menvcfg (Z.lor (r_menvcfg c) (Z.shiftl 1 63)) c in
  let c := w_mcounteren (Z.lor (r_mcounteren c) 2) c in
  w_stimecmp (u64 (r_time c + 1000000)) c.

Definition start (main : Z) (c : mregs) : mregs :=
  let x := r_mstatus c in
  let x := Z.land x (Z.lnot MSTATUS_MPP_MASK) in
  let x := Z.lor x MSTATUS_MPP_S in
  let c := w_mstatus x c in
  let c := w_mepc main c in
  let c := w_satp 0 c in
  let c := w_medeleg 0xffff c in
  let c := w_mideleg 0xffff c in
  let c := w_sie (Z.lor (Z.lor (r_sie c) SIE_SEIE) SIE_STIE) c in
  let c := w_pmpaddr0 0x3fffffffffffff c in
  let c := w_pmpcfg0 0xf c in
  let c := timerinit c in
  let id := s32 (r_mhartid c) in
  let c := w_tp (u64 id) c in
  mret c.
End Start.

(** ** The UART *)
Class Uart := { uart_dev : Type; uart_store : Z -> Z -> uart_dev -> uart_dev }.

Definition IER : Z := 1.
Definition IER_RX_ENABLE : Z := Z.shiftl 1 0.
Definition IER_TX_ENABLE : Z := Z.shiftl 1 1.
Definition FCR : Z := 2.
Definition FCR_FIFO_ENABLE : Z := Z.shiftl 1 0.
Definition FCR_FIFO_CLEAR : Z := Z.shiftl 3 1.
Definition LCR : Z := 3.
Definition LCR_EIGHT_BITS : Z := Z.shiftl 3 0.
Definition LCR_BAUD_LATCH : Z := Z.shiftl 1 7.

Section Uart.
Context `{Uart}.
Definition WriteReg (reg v : Z) (u : uart_dev) : uart_dev := uart_store (UART0 + reg) (u8 v) u.

Definition uartinit (u : uart_dev) : uart_dev :=
  let u := WriteReg IER 0x00 u in
  let u := WriteReg LCR LCR_BAUD_LATCH u in
  let u := WriteReg 0 0x03 u in
  let u := WriteReg 1 0x00 u in
  let u := WriteReg LCR LCR_EIGHT_BITS u in
  let u := WriteReg FCR (Z.lor FCR_FIFO_ENABLE FCR_FIFO_CLEAR) u in
  WriteReg IER (Z.lor IER_TX_ENABLE IER_RX_ENABLE) u.
End Uart.

(** ** kernel/main.c, up to the call of the scheduler

    The locks of the kernel are free in the initial state, so the functions that only call
    [initlock] (printkinit, trapinit, fileinit) do nothing.  The disk's initialisation is an
    argument, as its interrupt handler is in [Trap]. *)
Section Main.
Context `{Plic, Uart} (virtio_disk_init : K unit).

Definition main_first (u : uart_dev) (h : hart) : K (uart_dev * hart) :=
  let u := uartinit u in
  consoleinit;;
  printk [10] [];;
  printk (str "xv6 kernel is booting" ++ [10]) [];;
  printk [10] [];;
  kinit;;
  kvminit;;
  h ← kvminithart h;
  procinit;;
  h ← trapinithart h;
  let h := {| h with plic := plicinit (plic h) |} in
  let h := {| h with plic := plicinithart (cpuid h) (plic h) |} in
  binit;;
  iinit;;
  virtio_disk_init;;
  userinit;;
  ret (u, h).

Definition main_other (h : hart) : K hart :=
  printk (str "hart %d starting" ++ [10]) [VInt (cpuid h)];;
  h ← kvminithart h;
  h ← trapinithart h;
  ret {| h with plic := plicinithart (cpuid h) (plic h) |}.

(** With the value of [started]; [None]: the hart is still waiting for it. *)
Definition main (started : Z) (u : uart_dev) (h : hart) : K (option (Z * uart_dev * hart)) :=
  if cpuid h =? 0 then
    '(u, h) ← main_first u h;
    ret (Some (1, u, h))
  else if started =? 0 then ret None
  else
    h ← main_other h;
    ret (Some (started, u, h)).
End Main.

(** ** What the hart does with a trap *)
Definition interrupt_target (c : mregs) (code : Z) : Z := if Z.testbit (mideleg c) code then 1 else 3.
Definition interrupt_taken (c : mregs) (code : Z) : bool :=
  let t := interrupt_target c code in
  Z.testbit (mie c) code &&
  ((mode c <? t) || ((mode c =? t) && Z.testbit (mstatus c) (if t =? 1 then 1 else 3))).
Definition exception_target (c : mregs) (code : Z) : Z :=
  if (mode c <=? 1) && Z.testbit (medeleg c) code then 1 else 3.

(** Access in supervisor or user mode, by the first entry: an address range from 0 (TOR)
    with the permissions to read, write and execute. *)
Definition pmp_allows (c : mregs) (a : Z) : bool :=
  (Z.land (pmpcfg0 c) 0x1f =? 0xf) && (0 <=? a) && (a <? 4 * pmpaddr0 c).

(** The exceptions that supervisor and user code raise: misaligned and faulting accesses,
    illegal instructions, breakpoints, environment calls (8, 9) and page faults. *)
Definition os_exceptions : list Z := [0; 1; 2; 3; 4; 5; 6; 7; 8; 9; 12; 13; 15].

Class HartLaws `{HartImpl} := {
  medeleg_os code : code ∈ os_exceptions -> Z.testbit medeleg_bits code = true;
  mideleg_s code : code = 5 \/ code = 9 -> Z.testbit mideleg_bits code = true;
  menvcfg_stce : Z.testbit menvcfg_bits 63 = true;
  mcounteren_tm : Z.testbit mcounteren_bits 1 = true }.

(** Out of reset: in machine mode, with no interrupt enabled that cannot be delegated. *)
Record at_reset `{HartImpl} (id : Z) (c : mregs) : Prop := {
  ar_mode : mode c = 3;
  ar_id : mhartid c = id /\ 0 <= id < 8;
  ar_mie i : Z.testbit (mie c) i = true -> 0 <= i < 16 /\ Z.testbit mideleg_bits i = true }.

(** [c'] is a state that supervisor and user code can reach from [c]: the machine-level
    registers are out of their reach, and of mie they change the delegated bits only. *)
Record confined (c c' : mregs) : Prop := {
  cf_mode : 0 <= mode c' <= 1;
  cf_medeleg : medeleg c' = medeleg c;
  cf_mideleg : mideleg c' = mideleg c;
  cf_pmp : pmpaddr0 c' = pmpaddr0 c /\ pmpcfg0 c' = pmpcfg0 c;
  cf_mie i : Z.testbit (mideleg c) i = false -> Z.testbit (mie c') i = Z.testbit (mie c) i }.

Lemma mpp_s x : mpp (Z.lor (Z.land x (Z.lnot MSTATUS_MPP_MASK)) MSTATUS_MPP_S) = 1.
Proof.
  unfold mpp. apply Z.bits_inj'. intros n Hn. rewrite Z.land_spec, Z.shiftr_spec by lia.
  rewrite Z.lor_spec, Z.land_spec, Z.lnot_spec by lia. unfold MSTATUS_MPP_MASK, MSTATUS_MPP_S.
  rewrite !Z.shiftl_spec by lia. replace (n + 11 - 11) with n by lia.
  destruct (decide (n = 0)) as [->|]; [by rewrite orb_true_r|].
  destruct (decide (n = 1)) as [->|]; [by rewrite andb_false_r|].
  rewrite (Z.bits_above_log2 3 n), (Z.bits_above_log2 1 n) by (cbn; lia). by rewrite andb_false_r.
Qed.

Lemma clearbit_even x : Z.even x = true -> Z.clearbit x 0 = x.
Proof.
  intros Hx. apply Z.bits_inj'. intros n Hn. rewrite Z.clearbit_eqb by lia.
  destruct (Z.eqb_spec 0 n) as [<-|]; [|apply andb_true_r]. by rewrite Z.bit0_odd, <-Z.negb_even, Hx.
Qed.

Lemma below_16 i : 0 <= i < 16 -> Z.testbit 0xffff i = true.
Proof. change 0xffff with (Z.ones 16). intros. rewrite Z.ones_spec_low by lia. done. Qed.

Section Started.
Context `{HartLaws} (main : Z) (Hmain : Z.even main = true) (id : Z) (c : mregs) (Hreset : at_reset id c).

Lemma start_enters : let c' := start main c in
  mode c' = 1 /\ pc c' = main /\ m_satp c' = 0 /\ m_tp c' = id /\ m_stimecmp c' = u64 (m_time c + 1000000) /\
  Z.testbit (menvcfg c') 63 = true /\ Z.testbit (mcounteren c') 1 = true.
Proof.
  destruct (ar_id _ _ Hreset) as [Hid Hr]. cbv zeta. split_and!; try done.
  - apply mpp_s.
  - by apply clearbit_even.
  - change (m_tp (start main c)) with (u64 (s32 (mhartid c))). rewrite Hid, s32_small, u64_small by lia. done.
  - change (menvcfg (start main c)) with (Z.land (Z.lor (menvcfg c) (Z.shiftl 1 63)) menvcfg_bits).
    rewrite Z.land_spec, Z.lor_spec, menvcfg_stce. by rewrite orb_true_r.
  - change (mcounteren (start main c)) with (Z.land (Z.lor (mcounteren c) 2) mcounteren_bits).
    rewrite Z.land_spec, Z.lor_spec, mcounteren_tm. by rewrite orb_true_r.
Qed.

Lemma start_mideleg : mideleg (start main c) = Z.land 0xffff mideleg_bits.
Proof. done. Qed.
Lemma start_mie_bits : let d := Z.land 0xffff mideleg_bits in
  mie (start main c) = Z.lor (Z.ldiff (mie c) d) (Z.land (Z.lor (Z.lor (Z.land (mie c) d) SIE_SEIE) SIE_STIE) d).
Proof. done. Qed.

(** The interrupts that are enabled are delegated, those of devices and timers among them. *)
Lemma start_mie i : 0 <= i -> let c' := start main c in
  (Z.testbit (mie c') i = true -> Z.testbit (mideleg c') i = true) /\
  (i = 5 \/ i = 9 -> Z.testbit (mie c') i = true).
Proof.
  intros Hi. cbv zeta. rewrite start_mie_bits, start_mideleg, Z.lor_spec, Z.ldiff_spec, !Z.land_spec, !Z.lor_spec, !Z.land_spec. split.
  - destruct (Z.testbit (mie c) i) eqn:E.
    + destruct (ar_mie _ _ Hreset _ E) as [Hb Hd]. by rewrite below_16, Hd.
    + cbn. by rewrite andb_true_iff; intros [_ ?].
  - intros Hc. rewrite (mideleg_s i Hc), below_16 by lia. destruct Hc as [-> | ->]; cbn; by rewrite ?orb_true_r.
Qed.

Lemma confined_traps c' : confined (start main c) c' ->
  (forall code, 0 <= code -> interrupt_taken c' code = true -> interrupt_target c' code = 1) /\
  (forall code, code ∈ os_exceptions -> exception_target c' code = 1) /\
  (forall a, 0 <= a < 2 ^ 56 - 4 -> pmp_allows c' a = true).
Proof.
  intros [Hm Hx Hi [Hp1 Hp2] Hs]. split_and!.
  - intros code Hc. unfold interrupt_taken, interrupt_target. rewrite Hi in *.
    destruct (Z.testbit (mideleg (start main c)) code) eqn:E; [done|]. rewrite Hs by done.
    intros [Ht _]%andb_true_iff. apply start_mie in Ht; [congruence|done].
  - intros code Hc. unfold exception_target. rewrite Hx. destruct (Z.leb_spec (mode c') 1); [|lia].
    change (medeleg (start main c)) with (Z.land 0xffff medeleg_bits).
    rewrite Z.land_spec, medeleg_os by done. rewrite below_16; [done|].
    assert (Hf : Forall (fun x => 0 <= x < 16) os_exceptions) by (repeat constructor; lia).
    rewrite Forall_forall in Hf. by apply Hf.
  - intros a Ha. unfold pmp_allows. rewrite Hp1, Hp2. destruct (Z.leb_spec 0 a); [|lia].
    apply Z.ltb_lt. change (pmpaddr0 (start main c)) with (2 ^ 54 - 1). lia.
Qed.

(** Device interrupts are enabled; nothing but the kernel turns them off. *)
Lemma device_interrupt_taken c' : confined (start main c) c' -> Z.testbit (mie c') 9 = true ->
  mode c' = 0 \/ Z.testbit (mstatus c') 1 = true -> interrupt_taken c' 9 = true.
Proof.
  intros [Hm _ Hi _ _] He Hon. unfold interrupt_taken, interrupt_target. rewrite He, Hi, start_mideleg.
  rewrite Z.land_spec, mideleg_s, below_16 by auto with lia. cbn [andb Z.eqb Pos.eqb]. destruct (Z.ltb_spec (mode c') 1); [done|].
  replace (mode c' =? 1) with true by (symmetry; apply Z.eqb_eq; lia). destruct Hon; [lia|done].
Qed.
End Started.

(** ** The UART after its initialisation

    A 16550: while the divisor latch is open (bit 7 of the line control register) the first
    two registers are the divisor, otherwise the transmitter and the interrupt enables. *)
Record uart_view := mkuart {
  u_lcr : Z; u_ier : Z; u_fcr : Z; u_dll : Z; u_dlm : Z; u_sent : list Z }.
Definition dlab (v : uart_view) : bool := Z.testbit (u_lcr v) 7.

(** The effect of a write of [x] to the register [reg]. *)
Definition uart_write (reg x : Z) (v : uart_view) : uart_view :=
  if reg =? 0 then
    if dlab v then {| v with u_dll := x |} else {| v with u_sent := u_sent v ++ [x] |}
  else if reg =? IER then
    if dlab v then {| v with u_dlm := x |} else {| v with u_ier := Z.land x 0xf |}
  else if reg =? FCR then {| v with u_fcr := x |}
  else {| v with u_lcr := x |}.

Class UartLaws `{Uart} := {
  uart_state : uart_dev -> uart_view;
  uart_store_state reg x u : 0 <= reg <= LCR ->
    uart_state (uart_store (UART0 + reg) x u) = uart_write reg x (uart_state u) }.

Lemma WriteReg_state `{UartLaws} reg x u : 0 <= reg <= 3 ->
  uart_state (WriteReg reg x u) = uart_write reg (u8 x) (uart_state u).
Proof. apply uart_store_state. Qed.

(** [uartinit] sets eight bits at 38.4K baud (a divisor of 3), the FIFOs and both interrupts
    on, and leaves the transmitter at register 0: what is written there from then on is sent,
    and nothing has been sent by the initialisation when the latch was closed. *)
Theorem uartinit_ready `{UartLaws} u ch : dlab (uart_state u) = false ->
  let v := uart_state (uartinit u) in
  v = mkuart LCR_EIGHT_BITS 3 7 3 0 (u_sent (uart_state u)) /\
  u_sent (uart_state (WriteReg 0 ch (uartinit u))) = u_sent (uart_state u) ++ [u8 ch].
Proof.
  intros Hl. assert (E : uart_state (uartinit u) = mkuart LCR_EIGHT_BITS 3 7 3 0 (u_sent (uart_state u))).
  { unfold uartinit. rewrite (WriteReg_state IER), (WriteReg_state FCR), (WriteReg_state LCR), (WriteReg_state 1),
      (WriteReg_state 0), (WriteReg_state LCR), (WriteReg_state IER) by (unfold IER, LCR, FCR; lia).
    destruct (uart_state u) as [l i f dl dm se]. unfold uart_write at 7. cbn [Z.eqb]. rewrite Hl. reflexivity. }
  cbv zeta. split; [done|]. rewrite WriteReg_state, E by lia. reflexivity.
Qed.

(** ** The other harts *)
Lemma printk_d pre post v s : L_pr ∉ held s -> Forall (fun c => 0 <= c < 256 /\ c <> 37) pre ->
  Forall (fun c => 0 <= c < 256 /\ c <> 37) post ->
  printk (pre ++ str "%d" ++ post) [VInt v] s =
    Ok 0 (set_output (output s ++ pre ++ reverse (printint_buf (s32 v) 10 true) ++ post) s).
Proof.
  intros Hh Hpre Hpost. unfold printk. rewrite (bind_ok _ _ _ _ _ (acquire_eval _ _ Hh)).
  unfold bind at 1. rewrite printk_loop_plain by done. change (str "%d" ++ post) with (37 :: 100 :: post).
  rewrite printk_loop_d, <-(app_nil_r post), printk_loop_plain by done. cbn [printk_loop]. unfold ret at 1.
  erewrite bind_ok by (by apply release_eval). unfold ret. f_equal. rewrite app_nil_r. destruct s. cbn. by rewrite <-!app_assoc.
Qed.

Lemma main_other_ready `{Plic} h s : L_pr ∉ held s ->
  main_other h s =
    Ok {| h with satp := MAKE_SATP (kernel_pagetable s); stvec := ld_kernelvec (ld s);
                 plic := plicinithart (cpuid h) (plic h) |}
       (set_output (output s ++ str "hart " ++ reverse (printint_buf (cpuid h) 10 true) ++ str " starting" ++ [10]) s).
Proof.
  intros Hh. unfold main_other.
  change (str "hart %d starting" ++ [10]) with (str "hart " ++ str "%d" ++ (str " starting" ++ [10])).
  erewrite bind_ok by (apply printk_d; [done|repeat constructor; cbn; lia..]).
  unfold cpuid. rewrite (s32_small (s32 (tp h))) by apply s32_range. destruct h. reflexivity.
Qed.

(** ** From the interrupt line to the handler *)
Section Interrupts.
Context `{PlicLaws}.

Definition handler (virtio_disk_intr : K unit) (tx : bool) (irq : Z) : K unit :=
  if irq =? UART0_IRQ then uartintr tx else if irq =? VIRTIO0_IRQ then virtio_disk_intr else ret tt.

Lemma devintr_serves virtio_disk_intr id h s :
  0 <= id < 8 -> tp h = id -> scause h = 0x8000000000000009 -> serving id (plic_state (plic h)) ->
  let v := plic_state (plic h) in let irq := next_irq v in
  exists d', devintr virtio_disk_intr h s =
      (handler virtio_disk_intr (tx_idle h) irq;; ret (1, {| h with plic := d' |})) s /\
    (irq = 0 -> plic_state d' = v) /\
    (irq <> 0 -> pending (plic_state d') = plic_upd irq false (pending v) /\
                 forall j, in_service (plic_state d') j = plic_upd irq false (in_service v) j).
Proof.
  intros Hid Ht Hc S v irq. unfold devintr. rewrite Hc, Z.eqb_refl. unfold cpuid. rewrite Ht, s32_small by lia.
  pose proof (plic_claim_next id (plic h) Hid S) as C. destruct (plic_claim id (plic h)) as [r d].
  destruct C as [-> Ed]. fold v irq in Ed |- *.
  exists (if negb (irq =? 0) then plic_complete id irq d else d).
  assert (Hi : irq = 0 \/ irq = UART0_IRQ \/ irq = VIRTIO0_IRQ).
  { unfold irq, next_irq. destruct (pending v VIRTIO0_IRQ), (pending v UART0_IRQ); auto. }
  split; [|split].
  - by destruct Hi as [-> |[-> | ->]].
  - intros E. rewrite E in *. done.
  - intros Hn. apply Z.eqb_neq in Hn as Hn'. rewrite Hn' in *. cbn [negb].
    assert (Hr : 1 <= irq < 1024) by (unfold UART0_IRQ, VIRTIO0_IRQ in Hi; lia).
    rewrite plic_complete_view, Ed by lia. unfold finish_irq.
    change (enabled (take_irq irq v)) with (enabled v).
    rewrite (proj2 (sv_enabled _ v S irq Hr)) by intuition. split; [done|].
    intros j. cbn. unfold plic_upd. by destruct (j =? irq).
Qed.
End Interrupts.

(** C14: device interrupts reach their handlers.  Take a hart out of reset that runs [start],
    enters [main], and sets the interrupt controller up with [plicinit] (on the boot hart) and
    [plicinithart], other harts and devices acting on the controller at any time, and follow
    it to any later state of supervisor or user code.

    [start] has left machine mode for [main] with paging off, the hart's number in tp and the
    timer programmed, and machine mode is never entered again: every interrupt the hart takes
    and every exception that the code can raise trap to supervisor mode, and physical memory
    below 2^56 - 4 is accessible.  The controller raises the hart's external interrupt exactly
    while the disk or the UART has an interrupt pending; the hart takes it whenever it runs
    user code or has interrupts on; and [devintr] then runs the handler of that device (the
    disk first), never reports an unexpected interrupt, and leaves the controller ready for
    the next interrupt of the device. *)
Theorem device_interrupts_served `{HartLaws} `{PlicLaws} (main id : Z) (c c' : mregs)
    (d0 d1 : plic_dev) (h : hart) (virtio_disk_intr : K unit) (s : kstate) :
  Z.even main = true -> at_reset id c -> quiet_above id (plic_state d0) ->
  rtc plic_event (plicinit d0) d1 -> rtc plic_event (plicinithart id d1) (plic h) ->
  confined (start main c) c' ->
  tp h = m_tp (start main c) -> scause h = 0x8000000000000009 ->
  let v := plic_state (plic h) in let irq := next_irq v in
  (mode (start main c) = 1 /\ pc (start main c) = main /\ m_satp (start main c) = 0 /\
   tp h = id /\ m_stimecmp (start main c) = u64 (m_time c + 1000000)) /\
  (forall code, 0 <= code -> interrupt_taken c' code = true -> interrupt_target c' code = 1) /\
  (forall code, code ∈ os_exceptions -> exception_target c' code = 1) /\
  (forall a, 0 <= a < 2 ^ 56 - 4 -> pmp_allows c' a = true) /\
  (notified v (s_context id) <-> pending v VIRTIO0_IRQ = true \/ pending v UART0_IRQ = true) /\
  Z.testbit (mie (start main c)) 9 = true /\
  (Z.testbit (mie c') 9 = true -> mode c' = 0 \/ Z.testbit (mstatus c') 1 = true ->
     interrupt_taken c' 9 = true) /\
  exists d', devintr virtio_disk_intr h s =
      (handler virtio_disk_intr (tx_idle h) irq;; ret (1, {| h with plic := d' |})) s /\
    (irq = 0 -> plic_state d' = v) /\
    (irq <> 0 -> pending (plic_state d') = plic_upd irq false (pending v) /\
                 forall j, in_service (plic_state d') j = plic_upd irq false (in_service v) j).
Proof.
  intros Hmain Hr Hq E1 E2 Hc Ht Hs v irq.
  destruct (start_enters main Hmain id c Hr) as (S1 & S2 & S3 & S4 & S5 & _). rewrite S4 in Ht.
  pose proof (proj2 (ar_id _ _ Hr)) as Hid.
  assert (Hv : serving id v) by by apply (events_serving id d0 d1).
  destruct (confined_traps main id c Hr c' Hc) as (T1 & T2 & T3).
  split_and!; try done.
  - rewrite serving_notified by done. unfold next_irq.
    destruct (pending v VIRTIO0_IRQ), (pending v UART0_IRQ); intuition done.
  - apply (start_mie main id c Hr 9); auto with lia.
  - by apply (device_interrupt_taken main c).
  - by apply (devintr_serves virtio_disk_intr id).
Qed.

(** ** A hart and a controller: the disk interrupts the boot hart *)
Definition demo_impl : HartImpl :=
  {| medeleg_bits := 0xb3ff; mideleg_bits := 0x222; menvcfg_bits := 2 ^ 63; mcounteren_bits := 7 |}.
Lemma demo_hart_laws : @HartLaws demo_impl.
Proof.
  split; [|by intros code [-> | ->]|done|done]. apply Forall_forall.
  by repeat constructor.
Qed.
Definition demo_reset : mregs := mkmregs 3 0 0 0 0 0 0 0 0 0 0 0 0 0 0 0.
Definition demo_before : @plic_dev model_plic := @plicinithart model_plic 0 (@plicinit model_plic reset_view).
Definition demo_after : plic_view := raise_irq VIRTIO0_IRQ demo_before.
Definition demo_boot_hart : @hart model_plic :=
  @mkhart model_plic 2 0x8000000000000009 0 0 0 0 0 0 0 demo_after false.

Lemma device_interrupts_served_witness : next_irq demo_after = VIRTIO0_IRQ /\
  exists d', @devintr model_plic (ret tt) demo_boot_hart zero_state =
      Ok (1, {| demo_boot_hart with plic := d' |}) zero_state /\
    pending d' VIRTIO0_IRQ = false /\ in_service d' VIRTIO0_IRQ = false.
Proof.
  split; [reflexivity|].
  destruct (@device_interrupts_served demo_impl demo_hart_laws model_plic model_laws 0x80000000 0 demo_reset
    (@start demo_impl 0x80000000 demo_reset) reset_view (@plicinit model_plic reset_view) demo_boot_hart (ret tt) zero_state)
    as (_ & _ & _ & _ & _ & _ & _ & d' & E & _ & Hd).
  - reflexivity.
  - split; [reflexivity|split; [reflexivity|lia]|]. intros i Hi. rewrite Z.bits_0 in Hi. discriminate Hi.
  - intros j Hj. reflexivity.
  - apply rtc_refl.
  - apply rtc_once. apply (@ev_raise model_plic model_laws _ VIRTIO0_IRQ). reflexivity.
  - split; [vm_compute; split; discriminate|reflexivity|reflexivity|split; reflexivity|reflexivity].
  - reflexivity.
  - reflexivity.
  - destruct Hd as [Hp Hi]; [vm_compute; discriminate|]. exists d'. split; [exact E|]. split.
    + change (@plic_state model_plic model_laws d') with d' in Hp. rewrite Hp. reflexivity.
    + apply Hi.
Defined.
