(* ===== verification/Locks.v ===== *)
(** * The lock discipline of the kernel: the logic, and the lower layers

    [tr D H m H'] says of the routine [m], called with the locks [H] held (the last one acquired
    first): when it returns [a] the locks [H' a] are held; when it leaves the CPU in [sched] only
    the lock of the running process is; it never acquires a lock that the CPU holds already nor
    releases one that it does not hold.  It also says what [m] leaves alone: reference counts and
    types of the open files, the descriptors of the processes, and which slots of the process
    table are free or zombies, except those in [D]. *)

From S2P Require Import Prelude Spinlock State Printk Kstring Kalloc Vm Sync Pipe Console Bio Log Fs.
Import HeldList.

(** ** The logic *)
Definition dead (p : proc) : Prop := state p = UNUSED \/ state p = ZOMBIE.
Definition fkey (x : file) : Z * ftype := (f_ref x, f_type x).

Record qt (D : nat -> Prop) (s s' : kstate) : Prop := {
  qt_files : map fkey (ftable s') = map fkey (ftable s);
  qt_nproc : length (procs s') = length (procs s);
  qt_ofile : forall i, ofile (procs s' !!! i) = ofile (procs s !!! i);
  qt_dead : forall i, dead (procs s' !!! i) -> dead (procs s !!! i) \/ D i;
  qt_cur : cur s' = cur s }.

Lemma qt_refl D s : qt D s s.
Proof. split; auto. Qed.
Lemma qt_trans D s1 s2 s3 : qt D s1 s2 -> qt D s2 s3 -> qt D s1 s3.
Proof.
  intros [A1 A2 A3 A4 A5] [B1 B2 B3 B4 B5]. split; [congruence..| |congruence].
  intros i [Hd|]%B4; [by apply A4|by right].
Qed.
Lemma qt_mono (D D' : nat -> Prop) s s' : (forall i, D i -> D' i) -> qt D s s' -> qt D' s s'.
Proof. intros HD [A1 A2 A3 A4 A5]. split; [done..| |done]. intros i [|]%A4; [by left|right; auto]. Qed.

(** The panics of [acquire] and [release], and of [filedup] and [fileclose] on a file that is not
    open. *)
Definition bad_panic (e : string) : bool :=
  bool_decide (e ∈ ["acquire"; "release"; "filedup"; "fileclose"])%string.
(** Where a process leaves the CPU. *)
Definition switching (s : kstate) : Prop := exists i, cur s = Some i /\ held s = [L_proc i].

(** The result of a routine: what holds when it returns, and what when it leaves the CPU. *)
Definition runs {A} (Q : A -> kstate -> Prop) (B : kstate -> Prop) (r : res kstate A) : Prop :=
  match r with
  | Ok a s' => Q a s'
  | Block s' => B s'
  | Panic e => bad_panic e = false
  | Fault _ => True
  end.
Lemma runs_bind {A B} (m : K A) (k : A -> K B) s Q1 Q2 Bk :
  runs Q1 Bk (m s) -> (forall a s', Q1 a s' -> runs Q2 Bk (k a s')) -> runs Q2 Bk (bind m k s).
Proof. intros Hm Hk. unfold bind. destruct (m s); cbn in *; auto. Qed.
Lemma runs_mono {A} (Q Q' : A -> kstate -> Prop) (B B' : kstate -> Prop) r :
  runs Q B r -> (forall a s, Q a s -> Q' a s) -> (forall s, B s -> B' s) -> runs Q' B' r.
Proof. destruct r; cbn; auto. Qed.

Definition outcome {A} (R : kstate -> Prop) (H' : A -> list lockid) : res kstate A -> Prop :=
  runs (fun a s' => held s' = H' a /\ R s') (fun s' => switching s' /\ R s').
Definition tr {A} (D : nat -> Prop) (H : list lockid) (m : K A) (H' : A -> list lockid) : Prop :=
  forall s, held s = H -> outcome (qt D s) H' (m s).

Section Rules.
Context (D : nat -> Prop).

Lemma tr_ret {A} H (a : A) : tr D H (ret a) (fun _ => H).
Proof. intros s Hs. split; [done|apply qt_refl]. Qed.
Lemma tr_ret_dep {A} H (a : A) H' : H' a = H -> tr D H (ret a) H'.
Proof. intros E s Hs. split; [by rewrite E|apply qt_refl]. Qed.
Lemma tr_bind {A B} H (m : K A) (k : A -> K B) H1 H2 :
  tr D H m H1 -> (forall a, tr D (H1 a) (k a) H2) -> tr D H (bind m k) H2.
Proof.
  intros Hm Hk s Hs. eapply runs_bind; [exact (Hm s Hs)|]. cbn. intros a s1 [E1 Q1].
  eapply runs_mono; [exact (Hk a s1 E1)|intros b s2 [? ?]|intros s2 [? ?]]; (split; [done|by eapply qt_trans]).
Qed.
Lemma tr_bind_const {A B} H (m : K A) (k : A -> K B) H1 H2 :
  tr D H m (fun _ => H1) -> (forall a, tr D H1 (k a) H2) -> tr D H (bind m k) H2.
Proof. apply (tr_bind H m k (fun _ => H1)). Qed.
Lemma tr_assoc {A B C} H (m : K A) (k : A -> K B) (k' : B -> K C) H' :
  tr D H (bind m (fun a => bind (k a) k')) H' -> tr D H (bind (bind m k) k') H'.
Proof. intros Hm s Hs. specialize (Hm s Hs). unfold bind in *. by destruct (m s). Qed.
Lemma tr_gets {A} H (f : kstate -> A) : tr D H (gets f) (fun _ => H).
Proof. intros s Hs. split; [done|apply qt_refl]. Qed.
Lemma tr_modify H f : (forall s, held (f s) = held s /\ qt D s (f s)) -> tr D H (modify f) (fun _ => H).
Proof. intros Hf s Hs. destruct (Hf s) as [E Q]. split; [by rewrite E|done]. Qed.
Lemma tr_panic {A} H msg H' : bad_panic msg = false -> tr D H (@panic _ A msg) H'.
Proof. by intros E s Hs. Qed.
Lemma tr_fault {A} H msg H' : tr D H (@fault _ A msg) H'.
Proof. done. Qed.
Lemma tr_panic_if H b msg : bad_panic msg = false -> tr D H (panic_if b msg) (fun _ => H).
Proof. intros E. unfold panic_if. destruct b; [by apply tr_panic|apply tr_ret]. Qed.
Lemma tr_when H b m : tr D H m (fun _ => H) -> tr D H (when b m) (fun _ => H).
Proof. intros E. unfold when. destruct b; [done|apply tr_ret]. Qed.
Lemma tr_deref {A} H msg (o : option A) : tr D H (deref msg o) (fun _ => H).
Proof. destruct o; [apply tr_ret|apply tr_fault]. Qed.
Lemma tr_mfor {X} H (l : list X) body : (forall x, tr D H (body x) (fun _ => H)) -> tr D H (mfor l body) (fun _ => H).
Proof. intros E. induction l as [|x l IH]; cbn [mfor]; [apply tr_ret|]. by eapply tr_bind_const. Qed.
Lemma tr_mfind {X A} H H1 (l : list X) (body : X -> K (option A)) :
  (forall x, tr D H (body x) (fun o => match o with Some a => H1 a | None => H end)) ->
  tr D H (mfind l body) (fun o => match o with Some a => H1 a | None => H end).
Proof.
  intros E. induction l as [|x l IH]; cbn [mfind]; [by apply tr_ret_dep|].
  eapply tr_bind; [apply E|]. intros [a|]; [by apply tr_ret_dep|done].
Qed.
Lemma tr_mfind_const {X A} H (l : list X) (body : X -> K (option A)) :
  (forall x, tr D H (body x) (fun _ => H)) -> tr D H (mfind l body) (fun _ => H).
Proof.
  intros E. induction l as [|x l IH]; cbn [mfind]; [apply tr_ret|].
  eapply tr_bind_const; [apply E|]. intros [a|]; [apply tr_ret|done].
Qed.

Lemma tr_acquire H l : l ∉ H -> tr D H (acquire l) (fun _ => l :: H).
Proof. intros Hl s Hs. rewrite acquire_eval by (by rewrite Hs). split; [by rewrite <-Hs|]. split; auto. Qed.
Lemma tr_release H l : tr D (l :: H) (release l) (fun _ => H).
Proof. intros s Hs. rewrite (release_eval l H s Hs). split; [done|]. split; auto. Qed.
Lemma tr_release_under H l l' : l <> l' -> tr D (l' :: l :: H) (release l) (fun _ => l' :: H).
Proof.
  intros Hne s Hs. unfold release, bind, gets, held_release. rewrite Hs, decide_True by set_solver.
  cbn [remove1]. rewrite decide_False by done. rewrite decide_True by done. split; [done|]. split; auto.
Qed.
Lemma tr_weaken {A} (D' : nat -> Prop) H (m : K A) H' : (forall i, D' i -> D i) -> tr D' H m H' -> tr D H m H'.
Proof.
  intros HD Hm s Hs. specialize (Hm s Hs). destruct (m s); cbn in *; try done; destruct Hm; (split; [done|]); by eapply qt_mono.
Qed.

(** A change of one process. *)
Lemma procs_alter (l : list proc) f i j : alter f i l !!! j = if decide (i = j /\ (i < length l)%nat) then f (l !!! j) else l !!! j.
Proof.
  rewrite !list_lookup_total_alt. destruct (decide (i = j)) as [->|Hne].
  - rewrite list_lookup_alter_eq. destruct (l !! j) as [x|] eqn:E; cbn.
    + rewrite decide_True; [done|]. split; [done|]. by eapply lookup_lt_Some.
    + rewrite decide_False; [done|]. intros [_ Hl]. apply lookup_lt_is_Some in Hl as [? ?]. congruence.
  - rewrite list_lookup_alter_ne by done. by rewrite decide_False by (intros [? _]; done).
Qed.
Lemma tr_set_proc H i f : (forall p, ofile (f p) = ofile p) -> (forall p, dead (f p) -> dead p \/ D i) ->
  tr D H (set_proc i f) (fun _ => H).
Proof.
  intros Ho Hd. apply tr_modify. intros s. split; [done|]. split; cbn [ftable procs cur set_procs].
  - done.
  - apply length_alter.
  - intros j. rewrite procs_alter. by case_decide.
  - intros j. rewrite procs_alter. case_decide as E; [|by left]. destruct E as [<- _]. apply Hd.
  - done.
Qed.
End Rules.

(** ** Automation *)
Create HintDb tr.
Create HintDb trp.

(** [l ∉ H] for lists of locks of which the kinds are known. *)
Ltac lockside :=
  solve [ assumption | intros; cbn [sl_lk]; repeat (apply not_elem_of_cons; split; [congruence|]); solve [apply not_elem_of_nil | assumption | auto] ].
(** A process neither becomes nor stops being free or a zombie. *)
Ltac deadside := solve [ let p := fresh in intros p; exact (fun h => or_introl h) | intros ? [?|?]; discriminate ].
(** The variables that a routine assigns to are not among those that [qt] is about. *)
Ltac quiet_update := intros ?; split; [reflexivity|split; [reflexivity|reflexivity|intros; reflexivity|intros ? ?; left; assumption|reflexivity]].

(** A process goes to sleep: set below, when its rule is there. *)
Ltac stop_here := idtac.

Ltac trs :=
  cbv beta zeta;
  lazymatch goal with
  | |- forall _, _ => intros ?; trs
  | |- tr _ _ (bind (sleep _ _) _) _ => stop_here
  | |- tr _ _ (sleep _ _) _ => stop_here
  | |- tr _ _ (bind _ _) _ => eapply tr_bind_const; [trs|trs]
  | |- tr _ _ (ret _) _ => first [apply tr_ret|apply tr_ret_dep; reflexivity]
  | |- tr _ _ (gets _) _ => apply tr_gets
  | |- tr _ _ (modify _) _ => first [apply tr_modify; quiet_update|idtac]
  | |- tr _ _ (set_proc _ _) _ => apply tr_set_proc; [intros ?; reflexivity|try deadside]
  | |- tr _ _ (acquire _) _ => apply tr_acquire; try lockside
  | |- tr _ _ (release _) _ => first [apply tr_release|apply tr_release_under; congruence|idtac]
  | |- tr _ _ (panic _) _ => apply tr_panic; reflexivity
  | |- tr _ _ (fault _) _ => apply tr_fault
  | |- tr _ _ (panic_if _ _) _ => apply tr_panic_if; reflexivity
  | |- tr _ _ (deref _ _) _ => apply tr_deref
  | |- tr _ _ (when _ _) _ => apply tr_when; trs
  | |- tr _ _ (mfor _ _) _ => apply tr_mfor; trs
  | |- tr _ _ (mfind _ _) _ => apply tr_mfind_const; trs
  | |- tr _ _ (if ?b then _ else _) _ => destruct b; trs
  | |- tr _ _ (match ?x with _ => _ end) _ => destruct x; trs
  | |- tr _ _ _ _ => first [solve [eauto with tr nocore] | progress (autounfold with trp); trs | idtac]
  | |- _ => idtac
  end.
#[export] Hint Extern 1 (_ ∉ _) => lockside : tr.
#[export] Hint Extern 1 (forall _, _ ∉ _) => lockside : tr.
#[export] Hint Unfold get_proc myproc myproc_deref holding get_pipe set_pipe get_buf set_buf set_data getlog setlog
  get_inode set_inode get_sb get_cons set_console read_pte write_pte zero_page block_at set_addr : trp.

(** ** Pages and page tables *)
Section Memory.
Context (D : nat -> Prop) (H : list lockid) (Hk : L_kmem ∉ H).

Lemma kfree_tr pa : tr D H (kfree pa) (fun _ => H).
Proof. unfold kfree. trs. Qed.
Lemma kalloc_tr : tr D H kalloc (fun _ => H).
Proof. unfold kalloc. trs. Qed.
Hint Resolve kfree_tr kalloc_tr : tr.

Lemma walk_loop_tr levels : forall pt va alloc, tr D H (walk_loop levels pt va alloc) (fun _ => H).
Proof. induction levels as [|l ls IH]; intros; cbn [walk_loop]; trs. Qed.
Hint Resolve walk_loop_tr : tr.
Lemma walk_tr pt va alloc : tr D H (walk pt va alloc) (fun _ => H).
Proof. unfold walk. trs. Qed.
Hint Resolve walk_tr : tr.
Lemma walkaddr_tr pt va : tr D H (walkaddr pt va) (fun _ => H).
Proof. unfold walkaddr. trs. Qed.
Lemma mappages_loop_tr fuel : forall pt a last pa perm, tr D H (mappages_loop fuel pt a last pa perm) (fun _ => H).
Proof. induction fuel as [|fuel IH]; intros; cbn [mappages_loop]; trs. Qed.
Hint Resolve walkaddr_tr mappages_loop_tr : tr.
Lemma mappages_tr pt va size pa perm : tr D H (mappages pt va size pa perm) (fun _ => H).
Proof. unfold mappages. trs. Qed.
Lemma uvmcreate_tr : tr D H uvmcreate (fun _ => H).
Proof. unfold uvmcreate. trs. Qed.
Lemma uvmunmap_loop_tr fuel : forall pt a last f, tr D H (uvmunmap_loop fuel pt a last f) (fun _ => H).
Proof. induction fuel as [|fuel IH]; intros; cbn [uvmunmap_loop]; trs. Qed.
Hint Resolve mappages_tr uvmcreate_tr uvmunmap_loop_tr : tr.
Lemma uvmunmap_tr pt va n f : tr D H (uvmunmap pt va n f) (fun _ => H).
Proof. unfold uvmunmap. trs. Qed.
Hint Resolve uvmunmap_tr : tr.
Lemma uvmdealloc_tr pt o n : tr D H (uvmdealloc pt o n) (fun _ => H).
Proof. unfold uvmdealloc. trs. Qed.
Hint Resolve uvmdealloc_tr : tr.
Lemma uvmalloc_loop_tr fuel : forall pt a o n x, tr D H (uvmalloc_loop fuel pt a o n x) (fun _ => H).
Proof. induction fuel as [|fuel IH]; intros; cbn [uvmalloc_loop]; trs. Qed.
Hint Resolve uvmalloc_loop_tr : tr.
Lemma uvmalloc_tr pt o n x : tr D H (uvmalloc pt o n x) (fun _ => H).
Proof. unfold uvmalloc. trs. Qed.
Lemma freewalk_tr fuel : forall pt, tr D H (freewalk fuel pt) (fun _ => H).
Proof. induction fuel as [|fuel IH]; intros; cbn [freewalk]; trs. Qed.
Hint Resolve uvmalloc_tr freewalk_tr : tr.
Lemma uvmfree_tr pt n : tr D H (uvmfree pt n) (fun _ => H).
Proof. unfold uvmfree. trs. Qed.
Lemma uvmcopy_loop_tr fuel : forall o n i size, tr D H (uvmcopy_loop fuel o n i size) (fun _ => H).
Proof. induction fuel as [|fuel IH]; intros; cbn [uvmcopy_loop]; trs. Qed.
Hint Resolve uvmfree_tr uvmcopy_loop_tr : tr.
Lemma uvmcopy_tr o n size : tr D H (uvmcopy o n size) (fun _ => H).
Proof. unfold uvmcopy. trs. Qed.
Lemma uvmclear_tr pt va : tr D H (uvmclear pt va) (fun _ => H).
Proof. unfold uvmclear. trs. Qed.
Lemma ismapped_tr pt va : tr D H (ismapped pt va) (fun _ => H).
Proof. unfold ismapped. trs. Qed.
Hint Resolve uvmcopy_tr uvmclear_tr ismapped_tr : tr.
Lemma vmfault_tr pt va r : tr D H (vmfault pt va r) (fun _ => H).
Proof. unfold vmfault. trs. Qed.
Hint Resolve vmfault_tr : tr.
Lemma copyout_loop_tr fuel : forall pt va src, tr D H (copyout_loop fuel pt va src) (fun _ => H).
Proof. induction fuel as [|fuel IH]; intros pt va [|c src]; cbn [copyout_loop]; trs. Qed.
Lemma copyin_loop_tr fuel : forall pt va len dst, tr D H (copyin_loop fuel pt va len dst) (fun _ => H).
Proof. induction fuel as [|fuel IH]; intros pt va [|len] dst; cbn [copyin_loop]; trs. Qed.
Lemma copyinstr_loop_tr fuel : forall pt va len dst, tr D H (copyinstr_loop fuel pt va len dst) (fun _ => H).
Proof. induction fuel as [|fuel IH]; intros pt va [|len] dst; cbn [copyinstr_loop]; trs. Qed.
Hint Resolve copyout_loop_tr copyin_loop_tr copyinstr_loop_tr : tr.
Lemma copyout_tr pt va src : tr D H (copyout pt va src) (fun _ => H).
Proof. apply copyout_loop_tr. Qed.
Lemma copyin_tr pt va len : tr D H (copyin pt va len) (fun _ => H).
Proof. apply copyin_loop_tr. Qed.
Lemma copyinstr_tr pt va len : tr D H (copyinstr pt va len) (fun _ => H).
Proof. apply copyinstr_loop_tr. Qed.
Hint Resolve copyout_tr copyin_tr : tr.
Lemma either_copyout_tr dst src : tr D H (either_copyout dst src) (fun _ => H).
Proof. unfold either_copyout. trs. Qed.
Lemma either_copyin_tr src len : tr D H (either_copyin src len) (fun _ => H).
Proof. unfold either_copyin. trs. Qed.
End Memory.
#[export] Hint Resolve kfree_tr kalloc_tr uvmcreate_tr mappages_tr uvmunmap_tr uvmdealloc_tr uvmalloc_tr uvmfree_tr
  uvmcopy_tr uvmclear_tr vmfault_tr walkaddr_tr copyout_tr copyin_tr copyinstr_tr either_copyout_tr either_copyin_tr : tr.

(** ** Sleep and wakeup, sleep locks, output *)
Lemma sched_tr D H H' : tr D H sched H'.
Proof.
  intros s Hs. unfold sched, myproc_deref, myproc, holding, get_proc, bind, gets, panic_if, deref, ret.
  destruct (cur s) as [i|] eqn:Ec; [|done]. destruct (bool_decide_reflect (L_proc i ∈ held s)) as [Hh|Hh]; [|done].
  cbn [negb]. destruct (Nat.eqb_spec (length (held s)) 1) as [Hl|Hl]; [|done]. cbn [negb].
  destruct (bool_decide _); [done|]. split; [|apply qt_refl]. exists i. split; [done|].
  destruct (held s) as [|l [|l' h]]; [done| |done]. by apply list_elem_of_singleton in Hh as <-.
Qed.

(** What does not return. *)
Definition stops {A} (m : K A) : Prop := forall s a s', m s <> Ok a s'.
Lemma sched_stops : stops sched.
Proof.
  intros s a s' E. unfold sched in E. repeat (apply bind_inv in E as (? & ? & _ & E)). done.
Qed.
Lemma stops_bind {A B} (m : K A) (k : A -> K B) : (forall a, stops (k a)) -> stops (bind m k).
Proof. intros Hk s b s' (a & s1 & _ & E)%bind_inv. exact (Hk _ _ _ _ E). Qed.
Lemma stops_bind_l {A B} (m : K A) (k : A -> K B) : stops m -> stops (bind m k).
Proof. intros Hm s b s' (a & s1 & E & _)%bind_inv. exact (Hm _ _ _ E). Qed.
Lemma tr_stops {A} D H (m : K A) H1 H2 : tr D H m H1 -> stops m -> tr D H m H2.
Proof. intros Hm Hs s E. specialize (Hm s E). specialize (Hs s). destruct (m s) as [a s'| | |]; [by destruct (Hs a s' eq_refl)|done..]. Qed.
Lemma tr_bind_stops {A B} D H (m : K A) (k : A -> K B) H1 H2 : tr D H m H1 -> stops m -> tr D H (bind m k) H2.
Proof.
  intros Hm Hs s E. specialize (Hm s E). specialize (Hs s). unfold bind. destruct (m s) as [a s'| | |]; [by destruct (Hs a s' eq_refl)|done..].
Qed.

Lemma sleep_stops c lk : stops (sleep c lk).
Proof. apply stops_bind. intros _. apply stops_bind_l, sched_stops. Qed.
Lemma sleep_tr D H c lk H' : (forall i, L_proc i ∉ H) -> (forall i, lk <> L_proc i) -> tr D (lk :: H) (sleep c lk) H'.
Proof.
  intros Hp Hlk. unfold sleep, sleep_before. apply tr_assoc. eapply tr_bind_const; [trs|]. intros i. specialize (Hlk i). specialize (Hp i).
  eapply tr_bind_const; [trs|]. intros _. apply (tr_bind_stops D _ sched _ (fun _ => H)); [apply sched_tr|apply sched_stops].
Qed.
Lemma bind_sleep_tr {B} D H c lk (k : unit -> K B) H' : (forall i, L_proc i ∉ H) -> (forall i, lk <> L_proc i) ->
  tr D (lk :: H) (bind (sleep c lk) k) H'.
Proof. intros. apply (tr_bind_stops D _ _ _ (fun _ => H)); [by apply sleep_tr|apply sleep_stops]. Qed.
Ltac stop_here ::= first [apply bind_sleep_tr | apply sleep_tr]; [try lockside|intros ?; try congruence].

Section Wake.
Context (D : nat -> Prop) (H : list lockid) (Hp : forall i, L_proc i ∉ H).

Lemma wakeup_tr c : tr D H (wakeup c) (fun _ => H).
Proof. unfold wakeup. trs. Qed.
Lemma setkilled_tr i : tr D H (setkilled i) (fun _ => H).
Proof. unfold setkilled. trs. Qed.
Lemma killed_tr i : tr D H (killed i) (fun _ => H).
Proof. unfold killed. trs. Qed.
Hint Resolve wakeup_tr : tr.

Lemma sl_lk_proc r i : sl_lk r <> L_proc i.
Proof. by destruct r. Qed.
Lemma tr_sl_set r (f : kstate -> sleeplock) H0 : tr D H0 (modify (fun s => sl_set r (f s) s)) (fun _ => H0).
Proof. destruct r; apply tr_modify; quiet_update. Qed.
Hint Resolve tr_sl_set : tr.
Lemma acquiresleep_tr r : sl_lk r ∉ H -> tr D H (acquiresleep r) (fun _ => H).
Proof.
  intros Hr. unfold acquiresleep. eapply tr_bind_const; [apply tr_acquire, Hr|]. intros _. unfold acquiresleep_test.
  eapply tr_bind_const; [trs|]. intros l. destruct (negb _); [apply sleep_tr; [done|apply sl_lk_proc]|].
  eapply tr_bind_const; [apply tr_sl_set|]. trs. apply tr_sl_set.
Qed.
Lemma releasesleep_tr r : sl_lk r ∉ H -> tr D H (releasesleep r) (fun _ => H).
Proof.
  intros Hr. unfold releasesleep. eapply tr_bind_const; [by apply tr_acquire|]. intros _.
  do 2 (eapply tr_bind_const; [apply tr_sl_set|intros _]). eapply tr_bind_const; [|intros _; apply tr_release].
  assert (forall i, L_proc i ∉ sl_lk r :: H) by (intros i; pose proof (sl_lk_proc r i); specialize (Hp i); lockside).
  unfold wakeup. trs.
Qed.
Lemma holdingsleep_tr r : sl_lk r ∉ H -> tr D H (holdingsleep r) (fun _ => H).
Proof. intros Hr. unfold holdingsleep. trs. Qed.
End Wake.
#[export] Hint Resolve wakeup_tr setkilled_tr killed_tr acquiresleep_tr releasesleep_tr holdingsleep_tr : tr.

Section Print.
Context (D : nat -> Prop) (H : list lockid).
Lemma consputc_tr c : tr D H (consputc c) (fun _ => H).
Proof. unfold consputc, uartputc_sync. trs. Qed.
Hint Resolve consputc_tr : tr.
Lemma printptr_loop_tr n : forall x, tr D H (printptr_loop n x) (fun _ => H).
Proof. induction n as [|n IH]; intros; cbn [printptr_loop]; trs. Qed.
Hint Resolve printptr_loop_tr : tr.
Lemma print_conv_tr c0 c args : tr D H (print_conv c0 c args) (fun _ => H).
Proof. unfold print_conv, printint, printptr. trs. Qed.
Hint Resolve print_conv_tr : tr.
Lemma printk_loop_tr n : forall fmt args, (length fmt <= n)%nat -> tr D H (printk_loop fmt args) (fun _ => H).
Proof.
  induction n as [|n IH]; intros [|cx fmt] args Hn; cbn [printk_loop length] in *; [trs|lia|trs|].
  destruct (negb _).
  - eapply tr_bind_const; [trs|]. intros _. apply IH. lia.
  - destruct fmt as [|c0 fmt2]; [trs|]. cbn [length] in Hn. destruct (conversion _ _ _) as [skip c]. eapply tr_bind_const; [trs|]. intros args'.
    destruct skip as [|[|skip]]; [apply IH; lia| |]; destruct fmt2 as [|? [|? fmt3]]; cbn [length] in Hn; (trs || (apply IH; cbn [length]; lia)).
Qed.
End Print.
Lemma printk_tr D H fmt args : L_pr ∉ H -> tr D H (printk fmt args) (fun _ => H).
Proof.
  intros Hp. unfold printk. eapply tr_bind_const; [by apply tr_acquire|]. intros _.
  eapply tr_bind_const; [by apply (printk_loop_tr D _ (length fmt))|trs].
Qed.
#[export] Hint Resolve consputc_tr printk_tr : tr.

(** ** Pipes and the console *)
Section Devices.
Context (D : nat -> Prop).

Lemma pipeclose_tr pi w : tr D [] (pipeclose pi w) (fun _ => []).
Proof. unfold pipeclose. trs. Qed.
Lemma pipewrite_loop_tr fuel : forall pi addr n i, tr D [L_pipe pi] (pipewrite_loop fuel pi addr n i) (fun _ => []).
Proof. induction fuel as [|fuel IH]; intros; cbn [pipewrite_loop]; trs. Qed.
Lemma piperead_loop_tr fuel : forall pi addr n i, tr D [L_pipe pi] (piperead_loop fuel pi addr n i) (fun _ => [L_pipe pi]).
Proof. induction fuel as [|fuel IH]; intros; cbn [piperead_loop]; trs. Qed.
Hint Resolve pipewrite_loop_tr piperead_loop_tr : tr.
Lemma pipewrite_tr pi addr n : tr D [] (pipewrite pi addr n) (fun _ => []).
Proof. unfold pipewrite. trs. Qed.
Lemma piperead_tr pi addr n : tr D [] (piperead pi addr n) (fun _ => []).
Proof. unfold piperead, piperead_test. trs. Qed.

Lemma uartwrite_loop_tr H buf : (forall i, L_proc i ∉ H) -> tr D (L_tx :: H) (uartwrite_loop buf) (fun _ => H).
Proof. intros Hp. induction buf as [|c buf IH]; cbn [uartwrite_loop]; trs. Qed.
Hint Resolve uartwrite_loop_tr : tr.
Lemma uartwrite_tr buf : tr D [] (uartwrite buf) (fun _ => []).
Proof. unfold uartwrite. trs. Qed.
Hint Resolve uartwrite_tr : tr.
Lemma consolewrite_loop_tr fuel : forall src n i, tr D [] (consolewrite_loop fuel src n i) (fun _ => []).
Proof. induction fuel as [|fuel IH]; intros; cbn [consolewrite_loop]; trs. Qed.
Hint Resolve consolewrite_loop_tr : tr.
Lemma consolewrite_tr src n : tr D [] (consolewrite src n) (fun _ => []).
Proof. apply consolewrite_loop_tr. Qed.
Lemma consoleread_loop_tr fuel : forall dst n target, tr D [L_cons] (consoleread_loop fuel dst n target) (fun _ => []).
Proof. induction fuel as [|fuel IH]; intros; cbn [consoleread_loop]; trs. Qed.
Hint Resolve consoleread_loop_tr : tr.
Lemma consoleread_tr dst n : tr D [] (consoleread dst n) (fun _ => []).
Proof. unfold consoleread. trs. Qed.

Lemma procdump_tr H : L_pr ∉ H -> tr D H procdump (fun _ => H).
Proof. intros. unfold procdump. trs. Qed.
Lemma kill_line_tr fuel H : tr D H (kill_line fuel) (fun _ => H).
Proof. induction fuel as [|fuel IH]; cbn [kill_line]; trs. Qed.
Hint Resolve procdump_tr kill_line_tr : tr.
Lemma consoleintr_tr c : tr D [] (consoleintr c) (fun _ => []).
Proof. unfold consoleintr. trs. Qed.
Hint Resolve consoleintr_tr : tr.
Lemma uartintr_loop_tr fuel : tr D [] (uartintr_loop fuel) (fun _ => []).
Proof. induction fuel as [|fuel IH]; cbn [uartintr_loop]; unfold uartgetc; trs. Qed.
Hint Resolve uartintr_loop_tr : tr.
Lemma uartintr_tr b : tr D [] (uartintr b) (fun _ => []).
Proof. unfold uartintr. trs. Qed.
End Devices.
#[export] Hint Resolve pipeclose_tr pipewrite_tr piperead_tr consolewrite_tr consoleread_tr uartintr_tr : tr.

(** ** The disk: buffers, log, inodes *)
Section Disk.
Context (D : nat -> Prop).
Lemma virtio_disk_rw_tr i w : tr D [] (virtio_disk_rw i w) (fun _ => []).
Proof. unfold virtio_disk_rw. trs. Qed.
Hint Resolve virtio_disk_rw_tr : tr.
Lemma bread_tr dev b : tr D [] (bread dev b) (fun _ => []).
Proof. unfold bread, bget. trs. Qed.
Lemma bwrite_tr i : tr D [] (bwrite i) (fun _ => []).
Proof. unfold bwrite. trs. Qed.
Lemma brelse_tr i : tr D [] (brelse i) (fun _ => []).
Proof. unfold brelse. trs. Qed.
Lemma bpin_tr i : tr D [L_log] (bpin i) (fun _ => [L_log]).
Proof. unfold bpin. trs. Qed.
Lemma bunpin_tr i : tr D [] (bunpin i) (fun _ => []).
Proof. unfold bunpin. trs. Qed.
Hint Resolve bread_tr bwrite_tr brelse_tr bpin_tr bunpin_tr : tr.

Lemma install_trans_tr r : tr D [] (install_trans r) (fun _ => []).
Proof. unfold install_trans. trs. Qed.
Lemma write_head_tr : tr D [] write_head (fun _ => []).
Proof. unfold write_head. trs. Qed.
Lemma write_log_tr : tr D [] write_log (fun _ => []).
Proof. unfold write_log. trs. Qed.
Hint Resolve install_trans_tr write_head_tr write_log_tr : tr.
Lemma commit_tr : tr D [] commit (fun _ => []).
Proof. unfold commit. trs. Qed.
Lemma initlog_tr dev sb : tr D [] (initlog dev sb) (fun _ => []).
Proof. unfold initlog, recover_from_log, read_head. trs. Qed.
Hint Resolve commit_tr : tr.
Lemma begin_op_tr : tr D [] begin_op (fun _ => []).
Proof. unfold begin_op, begin_op_test. trs. Qed.
Lemma end_op_tr : tr D [] end_op (fun _ => []).
Proof. unfold end_op. trs. Qed.
Lemma log_write_tr i : tr D [] (log_write i) (fun _ => []).
Proof. unfold log_write. trs. Qed.
Lemma sys_sync_tr : tr D [] sys_sync (fun _ => []).
Proof. unfold sys_sync, sys_sync_test. trs. Qed.
Hint Resolve begin_op_tr end_op_tr log_write_tr initlog_tr : tr.

Lemma bzero_tr dev b : tr D [] (bzero dev b) (fun _ => []).
Proof. unfold bzero. trs. Qed.
Hint Resolve bzero_tr : tr.
Lemma balloc_tr dev : tr D [] (balloc dev) (fun _ => []).
Proof. unfold balloc. trs. Qed.
Lemma bfree_tr dev b : tr D [] (bfree dev b) (fun _ => []).
Proof. unfold bfree. trs. Qed.
Lemma iget_tr dev inum : tr D [] (iget dev inum) (fun _ => []).
Proof. unfold iget. trs. Qed.
Hint Resolve balloc_tr bfree_tr iget_tr : tr.
Lemma ialloc_tr dev ty : tr D [] (ialloc dev ty) (fun _ => []).
Proof. unfold ialloc. trs. Qed.
Lemma iupdate_tr ip : tr D [] (iupdate ip) (fun _ => []).
Proof. unfold iupdate. trs. Qed.
Lemma idup_tr H ip : L_itable ∉ H -> tr D H (idup ip) (fun _ => H).
Proof. intros. unfold idup. trs. Qed.
Lemma ilock_tr o : tr D [] (ilock o) (fun _ => []).
Proof. unfold ilock. trs. Qed.
Lemma iunlock_tr o : tr D [] (iunlock o) (fun _ => []).
Proof. unfold iunlock. trs. Qed.
Hint Resolve ialloc_tr iupdate_tr idup_tr ilock_tr iunlock_tr : tr.
Lemma itrunc_tr ip : tr D [] (itrunc ip) (fun _ => []).
Proof. unfold itrunc. trs. Qed.
Hint Resolve itrunc_tr : tr.
Lemma iput_tr ip : tr D [] (iput ip) (fun _ => []).
Proof. unfold iput. trs. Qed.
Hint Resolve iput_tr : tr.
Lemma iunlockput_tr ip : tr D [] (iunlockput ip) (fun _ => []).
Proof. unfold iunlockput. trs. Qed.
Lemma fsinit_tr dev : tr D [] (fsinit dev) (fun _ => []).
Proof. unfold fsinit, readsb, ireclaim. trs. Qed.
Lemma bmap_tr ip bn : tr D [] (bmap ip bn) (fun _ => []).
Proof. unfold bmap. trs. Qed.
Hint Resolve iunlockput_tr bmap_tr : tr.
Lemma readi_loop_tr fuel : forall ip dst off n tot acc, tr D [] (readi_loop fuel ip dst off n tot acc) (fun _ => []).
Proof. induction fuel as [|fuel IH]; intros; cbn [readi_loop]; trs. Qed.
Lemma writei_loop_tr fuel : forall ip src off n tot, tr D [] (writei_loop fuel ip src off n tot) (fun _ => []).
Proof. induction fuel as [|fuel IH]; intros; cbn [writei_loop]; trs. Qed.
Hint Resolve readi_loop_tr writei_loop_tr : tr.
Lemma readi_tr ip dst off n : tr D [] (readi ip dst off n) (fun _ => []).
Proof. unfold readi. trs. Qed.
Lemma writei_tr ip src off n : tr D [] (writei ip src off n) (fun _ => []).
Proof. unfold writei. trs. Qed.
Hint Resolve readi_tr writei_tr : tr.
Lemma dirlookup_tr dp name : tr D [] (dirlookup dp name) (fun _ => []).
Proof. unfold dirlookup. trs. Qed.
Hint Resolve dirlookup_tr : tr.
Lemma dirlink_tr dp name inum : tr D [] (dirlink dp name inum) (fun _ => []).
Proof. unfold dirlink. trs. Qed.
Lemma namex_loop_tr fuel : forall path np name ip, tr D [] (namex_loop fuel path np name ip) (fun _ => []).
Proof. induction fuel as [|fuel IH]; intros; cbn [namex_loop]; trs. Qed.
Hint Resolve dirlink_tr namex_loop_tr : tr.
Lemma namex_tr path np name : tr D [] (namex path np name) (fun _ => []).
Proof. unfold namex. trs. Qed.
Hint Resolve namex_tr : tr.
Lemma namei_tr path : tr D [] (namei path) (fun _ => []).
Proof. unfold namei. trs. Qed.
Lemma nameiparent_tr path : tr D [] (nameiparent path) (fun _ => []).
Proof. apply namex_tr. Qed.
End Disk.
#[export] Hint Resolve begin_op_tr end_op_tr sys_sync_tr ialloc_tr iupdate_tr idup_tr ilock_tr iunlock_tr itrunc_tr iput_tr
  iunlockput_tr fsinit_tr readi_tr writei_tr dirlookup_tr dirlink_tr namei_tr nameiparent_tr : tr.
