(* ===== verification/Locksys.v ===== *)
(** * The lock discipline of the kernel, continued: processes, programs and system calls

    The routines that leave reference counts, descriptors and free slots alone.  Those that do
    not are in [Refs]. *)

From S2P Require Import Prelude Spinlock State Printk Kstring Kalloc Vm Sync Pipe Console Bio Log Fs File Proc Exec Syscall Sysfile Plic Trap Locks.
Import HeldList.

#[export] Hint Unfold get_file set_tframe my_trapframe : trp.

(** A process that is read here may be freed later if it is free or a zombie now. *)
Lemma tr_get_proc {B} D H i (k : proc -> K B) H' :
  (forall p, tr (fun j => D j \/ (j = i /\ dead p)) H (k p) H') -> tr D H (bind (get_proc i) k) H'.
Proof.
  intros Hk s Hs. unfold bind, get_proc, gets. eapply runs_mono; [exact (Hk _ s Hs)|intros b s2 [? [A1 A2 A3 A4 A5]]|intros s2 [? [A1 A2 A3 A4 A5]]].
  all: split; [done|]; split; [done..| |done]; intros j [?|[?|[-> ?]]]%A4; auto.
Qed.

(** ** Files *)
Section Files.
Context (D : nat -> Prop).

Lemma tr_set_file H f g : (forall x, fkey (g x) = fkey x) -> tr D H (set_file f g) (fun _ => H).
Proof.
  intros Hg. apply tr_modify. intros s. split; [done|]. split; cbn [ftable procs cur set_ftable]; try auto.
  apply list_eq. intros j. rewrite !list_lookup_fmap. destruct (decide (f = j)) as [->|Hne].
  - rewrite list_lookup_alter_eq. destruct (ftable s !! j); cbn; by rewrite ?Hg.
  - by rewrite list_lookup_alter_ne.
Qed.
Hint Extern 1 (tr _ _ (set_file _ _) _) => apply tr_set_file; intros ?; reflexivity : tr.

Lemma filestat_tr f addr : tr D [] (filestat f addr) (fun _ => []).
Proof. unfold filestat, stati. trs. Qed.
Lemma call_devfn_tr g a n : tr D [] (call_devfn g a n) (fun _ => []).
Proof. unfold call_devfn. trs. Qed.
Hint Resolve call_devfn_tr : tr.
Lemma dev_entry_tr H major : tr D H (dev_entry major) (fun _ => H).
Proof. unfold dev_entry. trs. Qed.
Hint Resolve dev_entry_tr : tr.
Lemma fileread_tr f addr n : tr D [] (fileread f addr n) (fun _ => []).
Proof. unfold fileread. trs. Qed.
Lemma filewrite_loop_tr fuel : forall f addr n i, tr D [] (filewrite_loop fuel f addr n i) (fun _ => []).
Proof. induction fuel as [|fuel IH]; intros; cbn [filewrite_loop]; trs. Qed.
Hint Resolve filewrite_loop_tr : tr.
Lemma filewrite_tr f addr n : tr D [] (filewrite f addr n) (fun _ => []).
Proof. unfold filewrite. trs. Qed.
End Files.
#[export] Hint Resolve filestat_tr fileread_tr filewrite_tr : tr.

(** ** Processes *)
Section Procs.
Context (D : nat -> Prop).

Lemma proc_freepagetable_tr H pt n : L_kmem ∉ H -> tr D H (proc_freepagetable pt n) (fun _ => H).
Proof. intros. unfold proc_freepagetable. trs. Qed.
Lemma proc_pagetable_tr H i : L_kmem ∉ H -> tr D H (proc_pagetable i) (fun _ => H).
Proof. intros. unfold proc_pagetable. trs. Qed.
Hint Resolve proc_freepagetable_tr proc_pagetable_tr : tr.
Lemma freeproc_tr H i : L_kmem ∉ H -> D i -> tr D H (freeproc i) (fun _ => H).
Proof. intros Hk Hi. unfold freeproc. trs. intros p _. by right. Qed.
Lemma allocpid_tr H : L_pid ∉ H -> tr D H allocpid (fun _ => H).
Proof. intros. unfold allocpid. trs. Qed.
Hint Resolve allocpid_tr : tr.
Lemma growproc_tr n : tr D [] (growproc n) (fun _ => []).
Proof. unfold growproc. trs. Qed.
Lemma reparent_tr H i : (forall i, L_proc i ∉ H) -> tr D H (reparent i) (fun _ => H).
Proof. intros. unfold reparent. trs. Qed.
Lemma kkill_tr v : tr D [] (kkill v) (fun _ => []).
Proof. unfold kkill. trs. Qed.
End Procs.
#[export] Hint Resolve proc_freepagetable_tr proc_pagetable_tr allocpid_tr growproc_tr reparent_tr kkill_tr : tr.

Lemma kwait_scan_tr D i addr l : forall h,
  tr D [L_wait] (kwait_scan i addr l h) (fun r => match r.2 with Some _ => [] | None => [L_wait] end).
Proof.
  revert D. induction l as [|pp l IH]; intros D h; cbn [kwait_scan]; [trs|]. eapply tr_bind_const; [trs|]. intros q. destruct (bool_decide _); [|apply IH].
  eapply tr_bind_const; [trs|]. intros _. apply tr_get_proc. intros p. destruct (bool_decide_reflect (state p = ZOMBIE)) as [Hz|Hz].
  - eapply tr_bind_const; [trs|]. intros p'. eapply tr_bind_const; [trs|]. intros r. destruct (r <? 0); [trs|].
    eapply tr_bind_const; [apply freeproc_tr; [lockside|right; split; [done|by right]]|]. trs.
  - eapply tr_bind_const; [trs|]. intros _. apply IH.
Qed.
Lemma kwait_tr D addr : tr D [] (kwait addr) (fun _ => []).
Proof.
  unfold kwait, kwait_test. do 2 (eapply tr_bind_const; [trs|intros ?]). eapply tr_bind; [apply kwait_scan_tr|]. intros [h [r|]]; cbn [snd]; trs.
Qed.
#[export] Hint Resolve kwait_tr : tr.

(** ** Programs *)
Section Exec.
Context (D : nat -> Prop).
Lemma loadseg_loop_tr fuel : forall pt va ip off size i, tr D [] (loadseg_loop fuel pt va ip off size i) (fun _ => []).
Proof. induction fuel as [|fuel IH]; intros; cbn [loadseg_loop]; trs. Qed.
Lemma loadseg_tr pt va ip off size : tr D [] (loadseg pt va ip off size) (fun _ => []).
Proof. apply loadseg_loop_tr. Qed.
Hint Resolve loadseg_tr : tr.
Lemma load_segments_tr n : forall pt ip off size, tr D [] (load_segments n pt ip off size) (fun _ => []).
Proof. induction n as [|n IH]; intros; cbn [load_segments]; trs. Qed.
Lemma push_args_tr argv : forall pt sp base us, tr D [] (push_args argv pt sp base us) (fun _ => []).
Proof. induction argv as [|a argv IH]; intros; cbn [push_args]; trs. Qed.
Lemma exec_bad_tr pt size ip : tr D [] (exec_bad pt size ip) (fun _ => []).
Proof. unfold exec_bad. trs. Qed.
Hint Resolve load_segments_tr push_args_tr exec_bad_tr : tr.
Lemma exec_commit_tr path argv pt size entry : tr D [] (exec_commit path argv pt size entry) (fun _ => []).
Proof. unfold exec_commit. trs. Qed.
Hint Resolve exec_commit_tr : tr.
Lemma kexec_tr path argv : tr D [] (kexec path argv) (fun _ => []).
Proof. unfold kexec. trs. Qed.
End Exec.
#[export] Hint Resolve kexec_tr : tr.

(** ** System calls *)
Section Syscalls.
Context (D : nat -> Prop) {P : Plic}.
Lemma argraw_tr H n : tr D H (argraw n) (fun _ => H).
Proof. unfold argraw. trs. Qed.
Hint Resolve argraw_tr : tr.
Lemma argint_tr H n : tr D H (argint n) (fun _ => H).
Proof. unfold argint. trs. Qed.
Lemma argaddr_tr H n : tr D H (argaddr n) (fun _ => H).
Proof. apply argraw_tr. Qed.
Lemma fetchaddr_tr a : tr D [] (fetchaddr a) (fun _ => []).
Proof. unfold fetchaddr. trs. Qed.
Lemma fetchstr_tr a n : tr D [] (fetchstr a n) (fun _ => []).
Proof. unfold fetchstr. trs. Qed.
Hint Resolve argint_tr argaddr_tr fetchaddr_tr fetchstr_tr : tr.
Lemma argstr_tr a n : tr D [] (argstr a n) (fun _ => []).
Proof. unfold argstr. trs. Qed.
Lemma argfd_tr n : tr D [] (argfd n) (fun _ => []).
Proof. unfold argfd. trs. Qed.
Hint Resolve argstr_tr argfd_tr : tr.
Lemma sys_read_tr : tr D [] sys_read (fun _ => []).
Proof. unfold sys_read. trs. Qed.
Lemma sys_write_tr : tr D [] sys_write (fun _ => []).
Proof. unfold sys_write. trs. Qed.
Lemma sys_fstat_tr : tr D [] sys_fstat (fun _ => []).
Proof. unfold sys_fstat. trs. Qed.
Lemma isdirempty_tr dp : tr D [] (isdirempty dp) (fun _ => []).
Proof. unfold isdirempty. trs. Qed.
Hint Resolve isdirempty_tr : tr.
Hint Unfold set_nlink : trp.
Lemma create_tr path ty ma mi : tr D [] (create path ty ma mi) (fun _ => []).
Proof. unfold create. trs. Qed.
Hint Resolve create_tr : tr.
Lemma sys_link_tr : tr D [] sys_link (fun _ => []).
Proof. unfold sys_link. trs. Qed.
Lemma sys_unlink_tr : tr D [] sys_unlink (fun _ => []).
Proof. unfold sys_unlink. trs. Qed.
Lemma sys_mkdir_tr : tr D [] sys_mkdir (fun _ => []).
Proof. unfold sys_mkdir. trs. Qed.
Lemma sys_mknod_tr : tr D [] sys_mknod (fun _ => []).
Proof. unfold sys_mknod. trs. Qed.
Lemma sys_chdir_tr : tr D [] sys_chdir (fun _ => []).
Proof. unfold sys_chdir. trs. Qed.
Lemma fetch_args_tr n : forall u i pages argv, tr D [] (fetch_args n u i pages argv) (fun _ => []).
Proof. induction n as [|n IH]; intros; cbn [fetch_args]; trs. Qed.
Hint Resolve fetch_args_tr : tr.
Lemma sys_exec_tr : tr D [] sys_exec (fun _ => []).
Proof. unfold sys_exec. trs. Qed.
Lemma sys_wait_tr : tr D [] sys_wait (fun _ => []).
Proof. unfold sys_wait. trs. Qed.
Lemma sys_sbrk_tr : tr D [] sys_sbrk (fun _ => []).
Proof. unfold sys_sbrk. trs. Qed.
Lemma sys_pause_tr : tr D [] sys_pause (fun _ => []).
Proof. unfold sys_pause, sys_pause_test. trs. Qed.
Lemma sys_kill_tr : tr D [] sys_kill (fun _ => []).
Proof. unfold sys_kill. trs. Qed.
Lemma sys_uptime_tr : tr D [] sys_uptime (fun _ => []).
Proof. unfold sys_uptime. trs. Qed.
Lemma sys_getpid_tr : tr D [] sys_getpid (fun _ => []).
Proof. unfold sys_getpid. trs. Qed.
Lemma sys_getppid_tr : tr D [] sys_getppid (fun _ => []).
Proof. unfold sys_getppid. trs. Qed.
Lemma sys_getidade_tr : tr D [] sys_getidade (fun _ => []).
Proof. unfold sys_getidade. trs. Qed.
Lemma set_a0_tr H i v : tr D H (set_a0 i v) (fun _ => H).
Proof. unfold set_a0. trs. Qed.

(** ** Traps *)
Lemma save_epc_tr H i v : tr D H (save_epc i v) (fun _ => H).
Proof. unfold save_epc. trs. Qed.
Lemma prepare_return_tr H h : tr D H (prepare_return h) (fun _ => H).
Proof. unfold prepare_return. trs. Qed.
Lemma clockintr_tr h : tr D [] (clockintr h) (fun _ => []).
Proof. unfold clockintr. trs. Qed.
Hint Resolve clockintr_tr : tr.
Lemma devintr_tr vdi h : tr D [] vdi (fun _ => []) -> tr D [] (devintr vdi h) (fun _ => []).
Proof. intros. unfold devintr. destruct (plic_claim _ _) as [irq d]. trs. Qed.
End Syscalls.
#[export] Hint Resolve argint_tr argaddr_tr argstr_tr argfd_tr create_tr sys_read_tr sys_write_tr sys_fstat_tr sys_link_tr sys_unlink_tr sys_mkdir_tr sys_mknod_tr
  sys_chdir_tr sys_exec_tr sys_wait_tr sys_sbrk_tr sys_pause_tr sys_kill_tr sys_uptime_tr sys_getpid_tr sys_getppid_tr
  sys_getidade_tr set_a0_tr save_epc_tr prepare_return_tr devintr_tr : tr.
