(* ===== verification/Refs.v ===== *)
(** * Descriptors and reference counts

    [fok E s]: the reference count of every open file is the number of descriptors that refer to
    it plus [E], the references that the running code has taken and not yet given to a
    descriptor. *)

From S2P Require Import Prelude Spinlock State Printk Kstring Kalloc Vm Sync Sched Pipe Console Bio Log Fs File Proc Exec Syscall Sysfile Plic Trap Locks Locksys.
Import HeldList.

(** ** Counting *)
Definition is_ref (f : nat) (o : option nat) : Z := if decide (o = Some f) then 1 else 0.
Fixpoint count_refs (f : nat) (l : list (option nat)) : Z :=
  match l with [] => 0 | o :: l' => is_ref f o + count_refs f l' end.
(** The descriptors of all processes that refer to [f]. *)
Definition nrefs (ps : list proc) (f : nat) : Z := count_refs f (concat (map ofile ps)).

Lemma is_ref_bound f o : 0 <= is_ref f o <= 1.
Proof. unfold is_ref. case_decide; lia. Qed.
Lemma count_refs_app f l1 l2 : count_refs f (l1 ++ l2) = count_refs f l1 + count_refs f l2.
Proof. induction l1 as [|o l1 IH]; cbn [app count_refs]; lia. Qed.
Lemma count_refs_nonneg f l : 0 <= count_refs f l.
Proof. induction l as [|o l IH]; cbn [count_refs]; [lia|]. pose proof (is_ref_bound f o). lia. Qed.
Lemma count_refs_insert f l k o o' : l !! k = Some o -> count_refs f (<[k := o']> l) = count_refs f l - is_ref f o + is_ref f o'.
Proof.
  intros Hk. rewrite insert_take_drop by (by eapply lookup_lt_Some). rewrite <-(take_drop_middle l k o Hk) at 3.
  rewrite !count_refs_app. cbn [count_refs]. lia.
Qed.
Lemma count_refs_elem f l : Some f ∈ l -> 1 <= count_refs f l.
Proof.
  induction l as [|o l IH]; [by intros ?%not_elem_of_nil|]. cbn [count_refs]. pose proof (count_refs_nonneg f l). pose proof (is_ref_bound f o).
  intros [<-|Hl]%elem_of_cons; [|specialize (IH Hl); lia]. unfold is_ref. rewrite decide_True by done. lia.
Qed.

Lemma alter_at {A} (g : A -> A) (l : list A) (i : nat) x : l !! i = Some x -> alter g i l = <[i := g x]> l.
Proof.
  intros Hx. apply list_eq. intros j. destruct (decide (i = j)) as [<-|Hne].
  - rewrite list_lookup_alter_eq, Hx, list_lookup_insert_eq by (by eapply lookup_lt_Some). done.
  - by rewrite list_lookup_alter_ne, list_lookup_insert_ne.
Qed.

Definition set_fd (fd : nat) (o : option nat) (p : proc) : proc := {| p with ofile := <[fd := o]> (ofile p) |}.
Lemma nrefs_set_fd f ps i p fd o o' : ps !! i = Some p -> ofile p !! fd = Some o ->
  nrefs (alter (set_fd fd o') i ps) f = nrefs ps f - is_ref f o + is_ref f o'.
Proof.
  intros Hp Ho. unfold nrefs. rewrite <-(take_drop_middle ps i p Hp) at 2. rewrite (alter_at _ _ _ _ Hp), insert_take_drop by (by eapply lookup_lt_Some).
  rewrite !map_app, !concat_app, !count_refs_app. cbn [map concat]. rewrite !count_refs_app. cbn [set_fd ofile].
  rewrite (count_refs_insert _ _ _ o) by done. lia.
Qed.
Lemma nrefs_elem ps i p fd f : ps !! i = Some p -> ofile p !! fd = Some (Some f) -> 1 <= nrefs ps f.
Proof.
  intros Hp Ho. unfold nrefs. rewrite <-(take_drop_middle ps i p Hp), map_app, concat_app, count_refs_app. cbn [map concat]. rewrite count_refs_app.
  pose proof (count_refs_elem f (ofile p) ltac:(by eapply list_elem_of_lookup_2)).
  pose proof (count_refs_nonneg f (concat (map ofile (take i ps)))). pose proof (count_refs_nonneg f (concat (map ofile (drop (S i) ps)))). lia.
Qed.

(** ** The invariant *)
Definition no_files (p : proc) : Prop := forall fd f, ofile p !! fd <> Some (Some f).
Record fok (E : nat -> Z) (s : kstate) : Prop := {
  fk_nfile : length (ftable s) = NFILE;
  fk_nproc : length (procs s) = NPROC;
  fk_nofile : forall i p, procs s !! i = Some p -> length (ofile p) = NOFILE;
  fk_refs : forall f x, ftable s !! f = Some x -> f_ref x = nrefs (procs s) f + E f;
  fk_free : forall f x, ftable s !! f = Some x -> f_ref x = 0 -> f_type x = FD_NONE;
  fk_range : forall i p fd f, procs s !! i = Some p -> ofile p !! fd = Some (Some f) -> (f < NFILE)%nat;
  fk_dead : forall i p, procs s !! i = Some p -> dead p -> no_files p }.

Definition none (f : nat) : Z := 0.
Definition inc (f : nat) (k : Z) (E : nat -> Z) (g : nat) : Z := E g + (if decide (g = f) then k else 0).

(** The promise of the kernel between system calls. *)
Definition files_ok (s : kstate) : Prop := fok none s.

Lemma fok_ext E E' s : (forall f, E f = E' f) -> fok E s -> fok E' s.
Proof. intros HE [A1 A2 A3 A4 A5 A6 A7]. split; try done. intros f x Hx. rewrite <-HE. by apply A4. Qed.

Lemma qt_procs D s s' i p' : qt D s s' -> procs s' !! i = Some p' ->
  exists p, procs s !! i = Some p /\ ofile p' = ofile p /\ (dead p' -> dead p \/ D i).
Proof.
  intros Q Hp. pose proof (lookup_lt_Some _ _ _ Hp) as Hl. rewrite (qt_nproc _ _ _ Q) in Hl. apply lookup_lt_is_Some in Hl as [p Hp0].
  exists p. pose proof (qt_ofile _ _ _ Q i) as Ho. pose proof (qt_dead _ _ _ Q i) as Hd.
  rewrite (list_lookup_total_correct _ _ _ Hp), (list_lookup_total_correct _ _ _ Hp0) in Ho, Hd. done.
Qed.
Lemma qt_ofiles D s s' : qt D s s' -> map ofile (procs s') = map ofile (procs s).
Proof.
  intros Q. apply list_eq. intros i. rewrite !list_lookup_fmap. destruct (procs s' !! i) as [p'|] eqn:E.
  - destruct (qt_procs _ _ _ _ _ Q E) as (p & -> & Ho & _). cbn. by rewrite Ho.
  - apply lookup_ge_None in E. rewrite (qt_nproc _ _ _ Q) in E. by apply lookup_ge_None in E as ->.
Qed.
(** Code that leaves files and descriptors alone keeps the invariant. *)
Lemma fok_qt D E s s' : qt D s s' -> (forall i p, D i -> procs s !! i = Some p -> no_files p) -> fok E s -> fok E s'.
Proof.
  intros Q HD [A1 A2 A3 A4 A5 A6 A7].
  assert (HF : forall f x', ftable s' !! f = Some x' -> exists x, ftable s !! f = Some x /\ f_ref x = f_ref x' /\ f_type x = f_type x').
  { intros f x' Hx'. pose proof (f_equal (fun l => l !! f) (qt_files _ _ _ Q)) as Hf. cbn in Hf. rewrite !list_lookup_fmap, Hx' in Hf.
    destruct (ftable s !! f) as [x|]; [|done]. injection Hf as E1 E2. by exists x. }
  split.
  - rewrite <-A1, <-(length_map fkey (ftable s')), (qt_files _ _ _ Q). apply length_map.
  - rewrite (qt_nproc _ _ _ Q). done.
  - intros i p' Hp'. destruct (qt_procs _ _ _ _ _ Q Hp') as (p & Hp & Ho & _). rewrite Ho. by eapply A3.
  - intros f x' Hx'. destruct (HF f x' Hx') as (x & Hx & Hr & _). unfold nrefs. rewrite (qt_ofiles _ _ _ Q), <-Hr. by apply A4.
  - intros f x' Hx'. destruct (HF f x' Hx') as (x & Hx & Hr & Ht). rewrite <-Hr, <-Ht. by apply (A5 f).
  - intros i p' fd f Hp' Hf. destruct (qt_procs _ _ _ _ _ Q Hp') as (p & Hp & Ho & _). rewrite Ho in Hf. by eapply A6.
  - intros i p' Hp' Hd fd f. destruct (qt_procs _ _ _ _ _ Q Hp') as (p & Hp & Ho & Hdd). rewrite Ho. destruct (Hdd Hd); [by eapply A7|by eapply HD].
Qed.

(** ** Elementary changes *)
Lemma fok_held E h s : fok E s -> fok E (set_held h s).
Proof. intros [A1 A2 A3 A4 A5 A6 A7]. by split. Qed.

(** The reference count of a file changes by [k]. *)
Lemma fok_file E s f g k : fok E s -> (forall x, ftable s !! f = Some x -> f_ref (g x) = f_ref x + k /\ (f_ref (g x) = 0 -> f_type (g x) = FD_NONE)) ->
  fok (inc f k E) (set_ftable (alter g f (ftable s)) s).
Proof.
  intros [A1 A2 A3 A4 A5 A6 A7] Hg.
  assert (HF : forall h y, alter g f (ftable s) !! h = Some y -> exists x, ftable s !! h = Some x /\ f_ref y = f_ref x + (if decide (h = f) then k else 0) /\
    (f_ref y = 0 -> f_type y = FD_NONE)).
  { intros h y. destruct (decide (h = f)) as [->|Hne].
    - rewrite list_lookup_alter_eq. destruct (ftable s !! f) as [x|]; [|done]. intros [= <-]. exists x. by destruct (Hg x eq_refl).
    - rewrite list_lookup_alter_ne by done. intros Hy. exists y. split; [done|]. split; [lia|by apply (A5 h)]. }
  split; cbn [ftable procs set_ftable]; try done.
  - by rewrite length_alter.
  - intros h y Hy. destruct (HF h y Hy) as (x & Hx & -> & _). rewrite (A4 h x Hx). unfold inc. lia.
  - intros h y Hy. by destruct (HF h y Hy) as (x & _ & _ & ?).
Qed.

(** Descriptor [fd] of process [i] changes from [o] to [o']. *)
Lemma fok_fd E E' s i p fd o o' : fok E s -> procs s !! i = Some p -> ofile p !! fd = Some o ->
  (forall f, o' = Some f -> (f < NFILE)%nat /\ ~ dead p) -> (forall f, E' f = E f + is_ref f o - is_ref f o') ->
  fok E' (set_procs (alter (set_fd fd o') i (procs s)) s).
Proof.
  intros [A1 A2 A3 A4 A5 A6 A7] Hp Ho Ho' HE.
  assert (HP : forall j q', alter (set_fd fd o') i (procs s) !! j = Some q' -> exists q, procs s !! j = Some q /\ length (ofile q') = length (ofile q) /\
    (dead q' -> dead q) /\ forall fd' f, ofile q' !! fd' = Some (Some f) -> (j = i /\ o' = Some f) \/ ofile q !! fd' = Some (Some f)).
  { intros j q'. destruct (decide (j = i)) as [->|Hne].
    - rewrite list_lookup_alter_eq, Hp. intros [= <-]. exists p. split; [done|]. cbn [set_fd ofile]. split; [apply length_insert|]. split; [done|].
      intros fd' f. destruct (decide (fd' = fd)) as [->|Hne].
      + rewrite list_lookup_insert_eq by (by eapply lookup_lt_Some). intros [= ->]. by left.
      + rewrite list_lookup_insert_ne by done. by right.
    - rewrite list_lookup_alter_ne by done. intros Hq. exists q'. split; [done|]. split; [done|]. split; [done|]. by right. }
  split; cbn [ftable procs set_procs]; try done.
  - by rewrite length_alter.
  - intros j q' Hq'. destruct (HP j q' Hq') as (q & Hq & -> & _). by eapply A3.
  - intros f x Hx. rewrite (nrefs_set_fd _ _ _ p fd o), (A4 f x Hx), HE by done. lia.
  - intros j q' fd' f Hq' Hf. destruct (HP j q' Hq') as (q & Hq & _ & _ & Hof). destruct (Hof fd' f Hf) as [[_ ->]|?]; [by apply Ho'|by eapply A6].
  - intros j q' Hq' Hd fd' f Hf. destruct (HP j q' Hq') as (q & Hq & _ & Hdd & Hof). destruct (Hof fd' f Hf) as [[-> ->]|Hqf]; [|by apply (A7 j q Hq (Hdd Hd) fd' f)].
    assert (q = p) as -> by congruence. by destruct (Ho' f eq_refl) as [_ []]; auto.
Qed.

(** ** The files *)
Lemma free_file_spec l : forall k, match free_file l k with Some f => (k <= f)%nat /\ exists x, l !! (f - k)%nat = Some x /\ f_ref x = 0 | None => True end.
Proof.
  induction l as [|x l IH]; intros k; cbn [free_file]; [done|]. destruct (Z.eqb_spec (f_ref x) 0) as [E|E].
  - split; [done|]. exists x. by rewrite Nat.sub_diag.
  - specialize (IH (S k)). destruct (free_file l (S k)) as [f|]; [|done]. destruct IH as (Hf & y & Hy & Hr). split; [lia|]. exists y.
    split; [|done]. by replace (f - k)%nat with (S (f - S k)) by lia.
Qed.

Definition up_ref (k : Z) (f : nat) (s : kstate) : kstate := set_ftable (alter (fun x => {| x with f_ref := f_ref x + k |}) f (ftable s)) s.

Lemma filealloc_eval s : L_ftable ∉ held s -> filealloc s = match free_file (ftable s) 0 with
  | Some f => Ok (Some f) (set_ftable (alter (fun x => {| x with f_ref := 1 |}) f (ftable s)) s) | None => Ok None s end.
Proof.
  intros Hl. unfold filealloc. rewrite (bind_ok _ _ _ _ _ (acquire_eval _ _ Hl)). unfold bind at 1, gets. cbn [ftable set_held].
  destruct (free_file (ftable s) 0) as [f|]; unfold set_file, bind, modify; by rewrite (release_eval _ (held s)) by done.
Qed.
Lemma filedup_eval s f x : L_ftable ∉ held s -> ftable s !! f = Some x -> 1 <= f_ref x -> filedup f s = Ok f (up_ref 1 f s).
Proof.
  intros Hl Hx Hr. unfold filedup. rewrite (bind_ok _ _ _ _ _ (acquire_eval _ _ Hl)). unfold bind at 1, get_file, gets. cbn [ftable set_held].
  rewrite (list_lookup_total_correct _ _ _ Hx). destruct (Z.ltb_spec (f_ref x) 1); [lia|]. unfold panic_if, set_file, bind, modify, ret.
  by rewrite (release_eval _ (held s)) by done.
Qed.

(** The running process [i], with the locks [H] held and the references [E] outstanding. *)
Record good (i : nat) (E : nat -> Z) (H : list lockid) (s : kstate) : Prop := {
  gd_held : held s = H;
  gd_fok : fok E s;
  gd_cur : cur s = Some i;
  gd_alive : exists p, procs s !! i = Some p /\ ~ dead p }.
(** What a process that leaves the CPU leaves behind: the invariant, up to the file that an
    exiting process is closing. *)
Definition closing (i : nat) (s : kstate) : Prop :=
  exists f p fd, fok (inc f (-1) none) s /\ procs s !! i = Some p /\ ofile p !! fd = Some (Some f).
Definition left_ok (i : nat) (s : kstate) : Prop := switching s /\ (files_ok s \/ closing i s).

Definition nobody (i : nat) : Prop := False.
Lemma good_qt i E H s s' : good i E H s -> qt nobody s s' -> good i E (held s') s'.
Proof.
  intros [G1 G2 G3 G4] Q. split; [done|by eapply (fok_qt nobody)|by rewrite (qt_cur _ _ _ Q)|]. destruct G4 as (p & Hp & Ha).
  pose proof (lookup_lt_Some _ _ _ Hp) as Hl. rewrite <-(qt_nproc _ _ _ Q) in Hl. apply lookup_lt_is_Some in Hl as [p' Hp'].
  exists p'. split; [done|]. destruct (qt_procs _ _ _ _ _ Q Hp') as (q & Hq & _ & Hd). assert (q = p) as -> by congruence. intros [|[]]%Hd. done.
Qed.
Lemma good_ext i E E' H s : (forall f, E f = E' f) -> good i E H s -> good i E' H s.
Proof. intros HE [G1 G2 G3 G4]. split; try done. by eapply fok_ext. Qed.
Lemma good_held i E H s h : good i E H s -> good i E h (set_held h s).
Proof. intros [G1 G2 G3 G4]. split; try done. by apply fok_held. Qed.

(** The code of [Locks] and [Locksys], which leaves files and descriptors alone. *)
Lemma good_tr {A} i E H (m : K A) H' s : good i E H s -> tr nobody H m H' ->
  runs (fun a s' => good i E (H' a) s' /\ qt nobody s s') (fun s' => switching s' /\ fok E s' /\ qt nobody s s') (m s).
Proof.
  intros G T. eapply runs_mono; [exact (T s (gd_held _ _ _ _ G))| |].
  - intros a s' [E1 Q]. split; [|done]. rewrite <-E1. by eapply good_qt.
  - intros s' [Sw Q]. split; [done|]. split; [|done]. eapply (fok_qt nobody); [done|done|apply G].
Qed.
Lemma good_bind_tr {A B} i H H1 (m : K A) (k : A -> K B) Q s : good i none H s -> tr nobody H m (fun _ => H1) ->
  (forall a s', good i none H1 s' -> qt nobody s s' -> runs Q (left_ok i) (k a s')) -> runs Q (left_ok i) (bind m k s).
Proof.
  intros G T Hk. apply (runs_bind _ _ _ (fun a s' => good i none H1 s' /\ qt nobody s s')).
  - eapply runs_mono; [by apply (good_tr i none H m (fun _ => H1))|done|]. intros s' (Sw & F & _). split; [done|]. by left.
  - intros a s' [G' Q']. exact (Hk a s' G' Q').
Qed.

(** A change of the reference count of a file. *)
Lemma good_file i E H s f g k : good i E H s -> (forall x, ftable s !! f = Some x -> f_ref (g x) = f_ref x + k /\ (f_ref (g x) = 0 -> f_type (g x) = FD_NONE)) ->
  good i (inc f k E) H (set_ftable (alter g f (ftable s)) s).
Proof. intros [G1 G2 G3 G4] Hg. split; try done. by apply fok_file. Qed.
(** A change of one of its own descriptors. *)
Lemma good_fd i E E' H s p fd o o' : good i E H s -> procs s !! i = Some p -> ofile p !! fd = Some o ->
  (forall f, o' = Some f -> (f < NFILE)%nat) -> (forall f, E' f = E f + is_ref f o - is_ref f o') ->
  good i E' H (set_procs (alter (set_fd fd o') i (procs s)) s).
Proof.
  intros [G1 G2 G3 (q & Hq & Ha)] Hp Ho Hf HE. assert (q = p) as -> by congruence. split; try done.
  - eapply fok_fd; try done. intros f Ef. split; [by apply Hf|done].
  - exists (set_fd fd o' p). cbn [procs set_procs]. rewrite list_lookup_alter_eq, Hp. done.
Qed.

(** ** Closing *)
Definition close_tail (ff : file) : K unit :=
  match f_type ff with
  | FD_PIPE => pipeclose (f_pipe ff) (writable ff)
  | FD_INODE | FD_DEVICE => begin_op;; ip ← deref "iput" (f_ip ff); iput ip;; end_op
  | FD_NONE => ret tt
  end.
Lemma close_tail_tr D ff : tr D [] (close_tail ff) (fun _ => []).
Proof. unfold close_tail. trs. Qed.
Lemma fileclose_eval s f x : L_ftable ∉ held s -> ftable s !! f = Some x -> 1 <= f_ref x ->
  fileclose f s = if 0 <? f_ref x - 1 then Ok tt (up_ref (-1) f s)
    else close_tail {| x with f_ref := f_ref x - 1 |} (set_ftable (alter (fun x => {| x with f_ref := 0; f_type := FD_NONE |}) f (ftable s)) s).
Proof.
  intros Hl Hx Hr. unfold fileclose. rewrite (bind_ok _ _ _ _ _ (acquire_eval _ _ Hl)). unfold bind at 1, get_file at 1, gets. cbn [ftable set_held].
  rewrite (list_lookup_total_correct _ _ _ Hx). destruct (Z.ltb_spec (f_ref x) 1); [lia|]. unfold panic_if. unfold bind at 1, ret at 1.
  unfold set_file at 1. unfold bind at 1, modify. unfold bind at 1, get_file, gets. cbn [ftable set_ftable set_held].
  rewrite (list_lookup_total_correct _ _ {| x with f_ref := f_ref x - 1 |}) by (by rewrite list_lookup_alter_eq, Hx). cbn [f_ref f_type].
  destruct (0 <? f_ref x - 1).
  - rewrite (release_eval _ (held s)) by done. done.
  - unfold set_file. unfold bind at 1, modify. unfold bind at 1. unfold bind at 1. rewrite (release_eval _ (held s)) by done.
    unfold close_tail. cbn [f_type f_pipe writable f_ip ftable set_ftable set_held]. rewrite !list_alter_alter_eq. reflexivity.
Qed.

Lemma fileclose_spec i E s f x : good i E [] s -> ftable s !! f = Some x -> 1 <= f_ref x ->
  runs (fun _ s' => good i (inc f (-1) E) [] s' /\ map ofile (procs s') = map ofile (procs s))
       (fun s' => switching s' /\ fok (inc f (-1) E) s' /\ map ofile (procs s') = map ofile (procs s)) (fileclose f s).
Proof.
  intros G Hx Hr. rewrite (fileclose_eval s f x) by (done || rewrite (gd_held _ _ _ _ G); apply not_elem_of_nil).
  destruct (Z.ltb_spec 0 (f_ref x - 1)) as [H1|H1].
  - split; [|done]. apply good_file; [done|]. intros y Hy. assert (y = x) as -> by congruence. cbn. split; lia.
  - eapply runs_mono; [apply (good_tr i (inc f (-1) E) [] _ (fun _ => [])); [|apply close_tail_tr]| |].
    + apply good_file; [done|]. intros y Hy. assert (y = x) as -> by congruence. cbn. split; [lia|done].
    + intros [] s' [G' Q]. split; [done|]. by rewrite (qt_ofiles _ _ _ Q).
    + intros s' (Sw & F & Q). split; [done|]. split; [done|]. by rewrite (qt_ofiles _ _ _ Q).
Qed.
(** A file that was never set up is closed at once. *)
Lemma fileclose_none s f x : L_ftable ∉ held s -> ftable s !! f = Some x -> f_ref x = 1 -> f_type x = FD_NONE ->
  fileclose f s = Ok tt (set_ftable (alter (fun x => {| x with f_ref := 0; f_type := FD_NONE |}) f (ftable s)) s).
Proof. intros Hl Hx Hr Ht. rewrite (fileclose_eval s f x) by (done || lia). rewrite Hr. cbn. unfold close_tail. cbn. by rewrite Ht. Qed.
Lemma good_close_none i E H s f x : good i E H s -> ftable s !! f = Some x -> f_ref x = 1 ->
  good i (inc f (-1) E) H (set_ftable (alter (fun x => {| x with f_ref := 0; f_type := FD_NONE |}) f (ftable s)) s).
Proof. intros G Hx Hr. apply good_file; [done|]. intros y Hy. assert (y = x) as -> by congruence. cbn. split; [lia|done]. Qed.

(** ** Descriptors *)
Lemma free_fd_spec l : forall k, match free_fd l k with Some fd => (k <= fd)%nat /\ l !! (fd - k)%nat = Some None | None => True end.
Proof.
  induction l as [|[f|] l IH]; intros k; cbn [free_fd]; [done| |].
  - specialize (IH (S k)). destruct (free_fd l (S k)) as [fd|]; [|done]. destruct IH. split; [lia|]. by replace (fd - k)%nat with (S (fd - S k)) by lia.
  - split; [done|]. by rewrite Nat.sub_diag.
Qed.
Lemma myproc_ok i s : cur s = Some i -> myproc_deref s = Ok i s.
Proof. intros Hc. unfold myproc_deref, myproc, bind, gets. by rewrite Hc. Qed.

Lemma fdalloc_spec i E H s f : good i E H s -> (f < NFILE)%nat ->
  exists fd s', fdalloc f s = Ok fd s' /\ ftable s' = ftable s /\
    ((fd = -1 /\ s' = s) \/
     (0 <= fd /\ good i (inc f (-1) E) H s' /\ exists p0 p, procs s !! i = Some p0 /\ procs s' !! i = Some p /\
        ofile p !! Z.to_nat fd = Some (Some f) /\ forall k h, ofile p0 !! k = Some (Some h) -> ofile p !! k = Some (Some h))).
Proof.
  intros G Hf. destruct (gd_alive _ _ _ _ G) as (p & Hp & Ha). unfold fdalloc. rewrite (bind_ok _ _ _ _ _ (myproc_ok _ _ (gd_cur _ _ _ _ G))).
  unfold bind at 1, get_proc, gets. rewrite (list_lookup_total_correct _ _ _ Hp). pose proof (free_fd_spec (ofile p) 0) as Hfd.
  destruct (free_fd (ofile p) 0) as [fd|].
  - destruct Hfd as [_ Hfd]. rewrite Nat.sub_0_r in Hfd. eexists _, _. split; [done|]. split; [done|]. right. rewrite Nat2Z.id. split; [lia|]. split.
    + eapply (good_fd _ _ _ _ _ p fd None (Some f)); try done; [by intros ? [= <-]|]. intros g. unfold inc, is_ref. repeat case_decide; try lia; congruence.
    + exists p, (set_fd fd (Some f) p). split; [done|]. cbn [procs set_procs]. change (fun p0 => _) with (set_fd fd (Some f)). rewrite list_lookup_alter_eq, Hp.
      split; [done|]. cbn [set_fd ofile]. split; [apply list_lookup_insert_eq; by eapply lookup_lt_Some|].
      intros k h Hk. rewrite list_lookup_insert_ne; [done|]. intros ->. congruence.
  - eexists _, _. split; [done|]. split; [done|]. by left.
Qed.
Lemma clear_fd_spec i E H s p fd f : good i E H s -> procs s !! i = Some p -> ofile p !! Z.to_nat fd = Some (Some f) ->
  exists s', clear_fd fd s = Ok tt s' /\ good i (inc f 1 E) H s' /\ ftable s' = ftable s /\
    exists p', procs s' !! i = Some p' /\ forall k, k <> Z.to_nat fd -> ofile p' !! k = ofile p !! k.
Proof.
  intros G Hp Ho. unfold clear_fd. rewrite (bind_ok _ _ _ _ _ (myproc_ok _ _ (gd_cur _ _ _ _ G))). eexists. split; [done|]. split; [|split; [done|]].
  - eapply (good_fd _ _ _ _ _ p _ (Some f) None); try done. intros g. unfold inc, is_ref. repeat case_decide; try lia; congruence.
  - exists (set_fd (Z.to_nat fd) None p). cbn [procs set_procs]. change (fun p0 => _) with (set_fd (Z.to_nat fd) None). rewrite list_lookup_alter_eq, Hp.
    split; [done|]. intros k Hk. cbn [set_fd ofile]. by rewrite list_lookup_insert_ne.
Qed.

(** ** The system calls on descriptors *)
Lemma fd_file E s i p fd f : fok E s -> procs s !! i = Some p -> ofile p !! fd = Some (Some f) ->
  exists x, ftable s !! f = Some x /\ f_ref x = nrefs (procs s) f + E f /\ 1 <= nrefs (procs s) f.
Proof.
  intros F Hp Ho. pose proof (fk_range _ _ F _ _ _ _ Hp Ho) as Hf. rewrite <-(fk_nfile _ _ F) in Hf. apply lookup_lt_is_Some in Hf as [x Hx].
  exists x. split; [done|]. split; [by apply (fk_refs _ _ F)|by eapply nrefs_elem].
Qed.
Lemma inc_inc f k k' E g : inc f k (inc f k' E) g = inc f (k + k') E g.
Proof. unfold inc. case_decide; lia. Qed.
Lemma inc_0 f E g : inc f 0 E g = E g.
Proof. unfold inc. case_decide; lia. Qed.
Lemma inc_undo f k k' E g : k + k' = 0 -> inc f k (inc f k' E) g = E g.
Proof. intros Hk. by rewrite inc_inc, Hk, inc_0. Qed.

Lemma argfd_spec i E H n s : good i E H s ->
  runs (fun o s' => s' = s /\ match o with
          | Some (fd, f) => exists p, procs s !! i = Some p /\ ofile p !! Z.to_nat fd = Some (Some f)
          | None => True end) (fun _ => False) (argfd n s).
Proof.
  intros G. destruct (gd_alive _ _ _ _ G) as (p & Hp & Ha). pose proof (myproc_ok _ _ (gd_cur _ _ _ _ G)) as Hm. unfold argfd.
  apply (runs_bind _ _ _ (fun _ s' => s' = s)).
  - unfold argint, argraw, my_trapframe. unfold bind at 1. unfold bind at 1. rewrite (bind_ok _ _ _ _ _ Hm). unfold bind, get_proc, gets, ret.
    by repeat match goal with |- context [if ?b then _ else _] => destruct b end.
  - intros fd s' ->. destruct (_ || _); [done|]. rewrite (bind_ok _ _ _ _ _ Hm). unfold bind, get_proc, gets. rewrite (list_lookup_total_correct _ _ _ Hp).
    rewrite nth_lookup. destruct (ofile p !! Z.to_nat fd) as [[f|]|] eqn:Ho; cbn; [|done|done]. split; [done|]. by exists p.
Qed.

(** A system call keeps the invariant, and leaves the CPU only in a state where it holds. *)
Definition keeps {A} (i : nat) (m : K A) : Prop :=
  forall s, good i none [] s -> runs (fun _ s' => good i none [] s') (left_ok i) (m s).

Lemma keeps_tr {A} i (m : K A) : tr nobody [] m (fun _ => []) -> keeps i m.
Proof.
  intros T s G. eapply runs_mono; [by eapply good_tr|by intros a s' [? _]|]. intros s' (Sw & F & _). split; [done|]. by left.
Qed.
Lemma keeps_bind {A B} i (m : K A) (k : A -> K B) : keeps i m -> (forall a, keeps i (k a)) -> keeps i (bind m k).
Proof. intros Hm Hk s G. eapply runs_bind; [by apply Hm|]. cbn. intros a s' G'. by apply Hk. Qed.
Lemma keeps_argfd {B} i n (k : option (Z * nat) -> K B) :
  keeps i (k None) ->
  (forall fd f p s, good i none [] s -> procs s !! i = Some p -> ofile p !! Z.to_nat fd = Some (Some f) ->
     runs (fun _ s' => good i none [] s') (left_ok i) (k (Some (fd, f)) s)) ->
  keeps i (bind (argfd n) k).
Proof.
  intros Hn Hs s G. eapply runs_bind; [eapply runs_mono; [by eapply argfd_spec|intros a s' Ha; exact Ha|done]|].
  cbn. intros [[fd f]|] s' [-> Ho]; [|by apply Hn]. destruct Ho as (p & Hp & Ho). by eapply Hs.
Qed.

Lemma sys_dup_keeps i : keeps i sys_dup.
Proof.
  apply keeps_argfd; [by apply keeps_tr; trs|]. intros fd0 f p s G Hp Ho. cbn beta iota.
  destruct (fd_file _ _ _ _ _ _ (gd_fok _ _ _ _ G) Hp Ho) as (x & Hx & Hr & H1). unfold none in Hr.
  destruct (fdalloc_spec i none [] s f G) as (fd & s1 & E & Ef & Hc); [by eapply fk_range; [apply G|..]|].
  rewrite (bind_ok _ _ _ _ _ E). destruct Hc as [[-> ->]|(Hfd & G1 & _)]; [done|]. destruct (Z.ltb_spec fd 0); [lia|].
  rewrite (bind_ok _ _ _ _ _ (filedup_eval s1 f x ltac:(rewrite (gd_held _ _ _ _ G1); apply not_elem_of_nil) ltac:(by rewrite Ef) ltac:(lia))).
  change (good i none [] (up_ref 1 f s1)). eapply good_ext; [|apply (good_file _ _ _ _ _ _ 1 G1)].
  - intros g. by apply inc_undo.
  - intros y Hy. assert (y = x) as -> by congruence. cbn. split; [done|lia].
Qed.

Lemma left_close i s' : switching s' /\ fok none s' -> left_ok i s'.
Proof. intros [? ?]. split; [done|]. by left. Qed.

Lemma sys_close_keeps i : keeps i sys_close.
Proof.
  apply keeps_argfd; [by apply keeps_tr; trs|]. intros fd f p s G Hp Ho. cbn beta iota.
  destruct (fd_file _ _ _ _ _ _ (gd_fok _ _ _ _ G) Hp Ho) as (x & Hx & Hr & H1). unfold none in Hr.
  destruct (clear_fd_spec i none [] s p fd f G Hp Ho) as (s1 & E & G1 & Ef & _). rewrite (bind_ok _ _ _ _ _ E).
  assert (HE : forall g, inc f (-1) (inc f 1 none) g = none g) by (intros g; by apply inc_undo).
  eapply runs_bind.
  - eapply runs_mono; [apply (fileclose_spec i (inc f 1 none) s1 f x G1); [by rewrite Ef|lia]|intros a s' [G' _]; exact (good_ext _ _ _ _ _ HE G')|].
    intros s' (Sw & F & _). apply left_close. split; [done|]. by eapply fok_ext.
  - by intros [] s' G'.
Qed.

Record fresh_file (s : kstate) (f : nat) (s' : kstate) : Prop := {
  ff_range : (f < NFILE)%nat;
  ff_new : exists x, ftable s' !! f = Some x /\ f_ref x = 1 /\ f_type x = FD_NONE;
  ff_old : exists x, ftable s !! f = Some x /\ f_ref x = 0;
  ff_other : forall g, g <> f -> ftable s' !! g = ftable s !! g;
  ff_procs : procs s' = procs s }.
Lemma filealloc_spec i E H s : good i E H s -> L_ftable ∉ H ->
  filealloc s = Ok None s \/ exists f s', filealloc s = Ok (Some f) s' /\ good i (inc f 1 E) H s' /\ fresh_file s f s'.
Proof.
  intros G Hl. rewrite filealloc_eval by (by rewrite (gd_held _ _ _ _ G)). pose proof (free_file_spec (ftable s) 0) as Hf.
  destruct (free_file (ftable s) 0) as [f|]; [|by left]. right. destruct Hf as (_ & x & Hx & Hr). rewrite Nat.sub_0_r in Hx.
  eexists f, _. split; [done|]. split; [|split].
  - apply good_file; [done|]. intros y Hy. assert (y = x) as -> by congruence. cbn. split; [lia|done].
  - rewrite <-(fk_nfile _ _ (gd_fok _ _ _ _ G)). by eapply lookup_lt_Some.
  - eexists. cbn [ftable set_ftable]. rewrite list_lookup_alter_eq, Hx. split; [done|]. split; [done|]. cbn. by apply (fk_free _ _ (gd_fok _ _ _ _ G) f).
  - by exists x.
  - intros g Hg. cbn [ftable set_ftable]. by rewrite list_lookup_alter_ne.
  - done.
Qed.

(** Fields of a file that is open may change, its reference count apart. *)
Definition is_open (f : nat) (s : kstate) : Prop := exists x, ftable s !! f = Some x /\ f_ref x <> 0.
Lemma runs_set_file {B} i E H f g (k : unit -> K B) Q Bk s : good i E H s -> is_open f s -> (forall y, f_ref (g y) = f_ref y) ->
  (forall s', good i E H s' -> is_open f s' -> ftable s' = alter g f (ftable s) -> procs s' = procs s -> runs Q Bk (k tt s')) ->
  runs Q Bk (bind (set_file f g) k s).
Proof.
  intros G (x & Hx & Hr) Hg Hk. change (runs Q Bk (k tt (set_ftable (alter g f (ftable s)) s))). apply Hk.
  - eapply good_ext; [|apply (good_file _ _ _ _ _ _ 0 G)]; [intros h; apply inc_0|].
    intros y Hy. assert (y = x) as -> by congruence. rewrite Hg. split; [lia|done].
  - exists (g x). cbn [ftable set_ftable]. by rewrite list_lookup_alter_eq, Hx, Hg.
  - done.
  - done.
Qed.

Lemma open_inode_keeps i ip omode : keeps i (open_inode ip omode).
Proof.
  intros s G. unfold open_inode. eapply good_bind_tr; [done|trs|]. intros x s0 G0 _. destruct (_ && _); [by apply keeps_tr; [trs|]|].
  destruct (filealloc_spec i none [] s0 G0 (not_elem_of_nil _)) as [E|(f & s1 & E & G1 & F1)]; rewrite (bind_ok _ _ _ _ _ E); [by apply keeps_tr; [trs|]|].
  destruct (ff_new _ _ _ F1) as (y & Hy & Hr & Ht).
  destruct (fdalloc_spec i _ [] s1 f G1 (ff_range _ _ _ F1)) as (fd & s2 & E2 & Ef & Hc). rewrite (bind_ok _ _ _ _ _ E2). destruct Hc as [[-> ->]|(Hfd & G2 & _)].
  - change (-1 <? 0) with true. cbn iota. rewrite (bind_ok _ _ _ _ _ (fileclose_none s1 f y ltac:(rewrite (gd_held _ _ _ _ G1); apply not_elem_of_nil) Hy Hr Ht)).
    apply keeps_tr; [trs|]. eapply good_ext; [|by eapply good_close_none]. intros g. by apply inc_undo.
  - destruct (Z.ltb_spec fd 0); [lia|]. assert (G3 : good i none [] s2) by (eapply good_ext; [|exact G2]; intros g; by apply inc_undo).
    assert (O2 : is_open f s2) by (exists y; rewrite Ef; split; [done|lia]).
    destruct (i_type x =? T_DEVICE); (eapply runs_set_file; [done|done|done|]); intros s3 G4 O3 _ _; (eapply runs_set_file; [done|done|done|]); intros s4 G5 _ _ _;
      (apply keeps_tr; [trs|done]).
Qed.
Lemma sys_open_keeps i : keeps i sys_open.
Proof.
  unfold sys_open. apply keeps_bind; [apply keeps_tr; trs|]. intros omode. apply keeps_bind; [apply keeps_tr; trs|]. intros [n path].
  destruct (n <? 0); [apply keeps_tr; trs|]. apply keeps_bind; [apply keeps_tr; trs|]. intros _. destruct (has_flag _ _).
  - apply keeps_bind; [apply keeps_tr; trs|]. intros [ip|]; [apply open_inode_keeps|apply keeps_tr; trs].
  - apply keeps_bind; [apply keeps_tr; trs|]. intros [ip|]; [|apply keeps_tr; trs]. apply keeps_bind; [apply keeps_tr; trs|]. intros _.
    apply keeps_bind; [apply keeps_tr; trs|]. intros x. destruct (_ && _); [apply keeps_tr; trs|apply open_inode_keeps].
Qed.

(** ** Pipes *)
Section Noblock.
Definition noblock {A} (m : K A) : Prop := forall s s', m s <> Block s'.
Lemma noblock_bind {A B} (m : K A) (k : A -> K B) : noblock m -> (forall a, noblock (k a)) -> noblock (bind m k).
Proof. intros Hm Hk s s'. unfold bind. specialize (Hm s). destruct (m s) as [a s1|e|e|s1]; [apply Hk|done|done|by destruct (Hm s1)]. Qed.
Lemma noblock_acquire l : noblock (acquire l).
Proof. intros s s'. unfold acquire, bind, gets. by destruct (held_acquire _ _). Qed.
Lemma noblock_release l : noblock (release l).
Proof. intros s s'. unfold release, bind, gets. by destruct (held_release _ _). Qed.
Lemma noblock_mfor {X} (l : list X) body : (forall x, noblock (body x)) -> noblock (mfor l body).
Proof. intros Hb. induction l as [|x l IH]; cbn [mfor]; [done|]. by apply noblock_bind. Qed.
Ltac noblocks := cbv beta; lazymatch goal with
  | |- noblock (bind _ _) => apply noblock_bind; [noblocks|intros ?; noblocks]
  | |- noblock (acquire _) => apply noblock_acquire
  | |- noblock (release _) => apply noblock_release
  | |- noblock (mfor _ _) => apply noblock_mfor; intros ?; noblocks
  | |- noblock (if ?b then _ else _) => destruct b; noblocks
  | |- noblock (when ?b _) => destruct b; unfold when; noblocks
  | |- noblock (panic_if ?b _) => destruct b; intros ? ?; discriminate
  | |- noblock _ => intros ? ?; discriminate
  end.
Lemma pipeclose_noblock pi w : noblock (pipeclose pi w).
Proof. unfold pipeclose, wakeup, kfree, set_pipe, get_pipe, myproc, get_proc, set_proc. noblocks. Qed.
Lemma kalloc_noblock : noblock kalloc.
Proof. unfold kalloc. noblocks. Qed.
End Noblock.

Lemma qt_file D s s' f x : qt D s s' -> ftable s !! f = Some x -> exists x', ftable s' !! f = Some x' /\ fkey x' = fkey x.
Proof.
  intros Q Hx. pose proof (f_equal (fun l => l !! f) (qt_files _ _ _ Q)) as Hf. cbn in Hf. rewrite !list_lookup_fmap, Hx in Hf.
  destruct (ftable s' !! f) as [x'|]; [|done]. exists x'. split; [done|]. unfold fkey. injection Hf as -> ->. done.
Qed.
(** The end of a pipe. *)
Definition pipe_end (f : nat) (s : kstate) : Prop := exists x, ftable s !! f = Some x /\ 1 <= f_ref x /\ f_type x = FD_PIPE.
Lemma pipe_end_qt D s s' f : qt D s s' -> pipe_end f s -> pipe_end f s'.
Proof. intros Q (x & Hx & Hr & Ht). destruct (qt_file _ _ _ _ _ Q Hx) as (x' & Hx' & E). exists x'. injection E as -> ->. done. Qed.

Lemma fileclose_pipe i E s f : good i E [] s -> pipe_end f s ->
  runs (fun _ s' => good i (inc f (-1) E) [] s' /\ forall g, g <> f -> pipe_end g s -> pipe_end g s') (fun _ => False) (fileclose f s).
Proof.
  intros G (x & Hx & Hr & Ht). rewrite (fileclose_eval s f x) by (done || rewrite (gd_held _ _ _ _ G); apply not_elem_of_nil).
  destruct (Z.ltb_spec 0 (f_ref x - 1)) as [H1|H1].
  - split.
    + apply good_file; [done|]. intros y Hy. assert (y = x) as -> by congruence. cbn. split; lia.
    + intros g Hg (y & Hy & Hyr). exists y. unfold up_ref. cbn [ftable set_ftable]. by rewrite list_lookup_alter_ne.
  - set (s0 := set_ftable _ s). assert (G0 : good i (inc f (-1) E) [] s0).
    { apply good_file; [done|]. intros y Hy. assert (y = x) as -> by congruence. cbn. split; [lia|done]. }
    pose proof (good_tr i _ [] _ (fun _ => []) s0 G0 (close_tail_tr nobody {| x with f_ref := f_ref x - 1 |})) as R.
    unfold close_tail in *. cbn [f_type f_pipe writable] in *. rewrite Ht in *. pose proof (pipeclose_noblock (f_pipe x) (writable x) s0) as Hb.
    destruct (pipeclose _ _ s0) as [a s1|e|e|s1]; cbn in *; [|done|done|by destruct (Hb s1)]. destruct R as [G1 Q]. split; [done|].
    intros g Hg Pg. eapply pipe_end_qt; [exact Q|]. destruct Pg as (y & Hy & Hyr). exists y. unfold s0. cbn [ftable set_ftable]. by rewrite list_lookup_alter_ne.
Qed.

(** What [pipealloc] returns. *)
Definition made_pipe (i : nat) (r : Z * option nat * option nat) (s' : kstate) : Prop :=
  match r with
  | (z, Some a, Some b) =>
      if z <? 0 then good i none [] s'
      else a <> b /\ (a < NFILE)%nat /\ (b < NFILE)%nat /\ pipe_end a s' /\ pipe_end b s' /\ good i (inc b 1 (inc a 1 none)) [] s'
  | (z, _, _) => z = -1 /\ good i none [] s'
  end.

Lemma no_locks i E s l : good i E [] s -> l ∉ held s.
Proof. intros G. rewrite (gd_held _ _ _ _ G). apply not_elem_of_nil. Qed.

(** Closing a file that [pipealloc] has not set up. *)
Lemma close_fresh i E s f x : good i E [] s -> ftable s !! f = Some x -> f_ref x = 1 -> f_type x = FD_NONE ->
  exists s', fileclose f s = Ok tt s' /\ good i (inc f (-1) E) [] s' /\ forall g, g <> f -> ftable s' !! g = ftable s !! g.
Proof.
  intros G Hx Hr Ht. eexists. split; [apply (fileclose_none s f x); [by eapply no_locks|done..]|]. split; [by eapply good_close_none|].
  intros g Hg. cbn [ftable set_ftable]. by rewrite list_lookup_alter_ne.
Qed.

Lemma kalloc_good i E s : good i E [] s -> runs (fun _ s' => good i E [] s' /\ qt nobody s s') (fun _ => False) (kalloc s).
Proof.
  intros G. pose proof (good_tr i E [] kalloc (fun _ => []) s G ltac:(trs)) as R. pose proof (kalloc_noblock s) as Hb.
  destruct (kalloc s) as [a s1|e|e|s1]; cbn in *; [done|done|done|by destruct (Hb s1)].
Qed.

Lemma good_pipes i E H s v : good i E H s -> good i E H (set_pipes v s).
Proof. intros [G1 [A1 A2 A3 A4 A5 A6 A7] G3 G4]. split; [done|by split|done|done]. Qed.
Lemma pipealloc_spec i s : good i none [] s -> runs (made_pipe i) (fun _ => False) (pipealloc s).
Proof.
  intros G. unfold pipealloc.
  destruct (filealloc_spec i none [] s G (not_elem_of_nil _)) as [E|(a & s1 & E & G1 & F1)]; rewrite (bind_ok _ _ _ _ _ E); [done|].
  destruct (ff_new _ _ _ F1) as (x & Hx & Hr & Ht).
  destruct (filealloc_spec i _ [] s1 G1 (not_elem_of_nil _)) as [E2|(b & s2 & E2 & G2 & F2)]; rewrite (bind_ok _ _ _ _ _ E2).
  - change (bind (ret 0) ?k s1) with (k 0 s1). cbn beta. destruct (close_fresh i _ s1 a x G1 Hx Hr Ht) as (s3 & E3 & G3 & _). rewrite (bind_ok _ _ _ _ _ E3).
    split; [done|]. eapply good_ext; [|exact G3]. intros g. by apply inc_undo.
  - destruct (ff_old _ _ _ F2) as (y0 & Hy0 & Hr0). assert (Hab : a <> b) by (intros ->; assert (y0 = x) as -> by congruence; lia).
    destruct (ff_new _ _ _ F2) as (y & Hy & Hyr & Hyt). assert (Hx2 : ftable s2 !! a = Some x) by (by rewrite (ff_other _ _ _ F2)).
    eapply runs_bind; [by apply kalloc_good|]. cbn. intros pi s3 [G3 Q3].
    destruct (qt_file _ _ _ _ _ Q3 Hx2) as (x3 & Hx3 & Ex). destruct (qt_file _ _ _ _ _ Q3 Hy) as (y3 & Hy3 & Ey). injection Ex as Ex1 Ex2. injection Ey as Ey1 Ey2.
    destruct (pi =? 0).
    + destruct (close_fresh i _ s3 a x3 G3 Hx3) as (s4 & E4 & G4 & O4); [congruence..|]. rewrite (bind_ok _ _ _ _ _ E4).
      destruct (close_fresh i _ s4 b y3 G4) as (s5 & E5 & G5 & O5); [by rewrite O4|congruence..|]. rewrite (bind_ok _ _ _ _ _ E5).
      change (good i none [] s5). eapply good_ext; [|exact G5]. intros g. unfold inc. repeat case_decide; lia.
    + unfold set_pipe. unfold bind at 1, modify. pose proof (good_pipes _ _ _ _ (fun z => if z =? pi then pipe_new (pipes s3 pi) else pipes s3 z) G3) as G4. set (s4 := set_pipes _ s3) in *.
      eapply runs_set_file; [exact G4|exists x3; split; [done|lia]|done|]. intros s5 G5 _ O5 _. change (ftable s4) with (ftable s3) in O5.
      eapply runs_set_file; [exact G5|exists y3; rewrite O5, list_lookup_alter_ne by done; split; [done|lia]|done|]. intros s6 G6 _ O6 _.
      split; [done|]. split; [apply F1|]. split; [apply F2|]. split; [|split; [|done]].
      * eexists. rewrite O6, list_lookup_alter_ne, O5, list_lookup_alter_eq, Hx3 by done. split; [done|]. cbn. split; [lia|done].
      * eexists. rewrite O6, list_lookup_alter_eq, O5, list_lookup_alter_ne, Hy3 by done. split; [done|]. cbn. split; [lia|done].
Qed.

Lemma close_both i a b s : a <> b -> pipe_end a s -> pipe_end b s -> good i (inc b 1 (inc a 1 none)) [] s ->
  runs (fun _ s' => good i none [] s') (left_ok i) ((fileclose a;; fileclose b;; ret (-1)) s).
Proof.
  intros Hab Pa Pb G. eapply runs_bind; [eapply runs_mono; [by apply (fileclose_pipe i _ s a G)|intros ? ? R; exact R|done]|].
  cbn. intros [] s1 [G1 P1]. eapply runs_bind; [eapply runs_mono; [apply (fileclose_pipe i _ s1 b G1); by apply P1|intros ? ? R; exact R|done]|].
  cbn. intros [] s2 [G2 _]. eapply good_ext; [|exact G2]. intros g. unfold inc. repeat case_decide; lia.
Qed.

Lemma sys_pipe_keeps i : keeps i sys_pipe.
Proof.
  intros s0 G0. unfold sys_pipe. rewrite (bind_ok _ _ _ _ _ (myproc_ok _ _ (gd_cur _ _ _ _ G0))).
  eapply good_bind_tr; [done|trs|]. intros fdarray s G _.
  eapply runs_bind; [eapply runs_mono; [by apply (pipealloc_spec i s)|intros ? ? R; exact R|done]|]. cbv beta.
  intros [[z [a|]] [b|]] s1 P; cbn in P; [|destruct P as [-> P]; exact P..]. destruct (z <? 0); [exact P|].
  destruct P as (Hab & Ha & Hb & Pa & Pb & G1).
  destruct (fdalloc_spec i _ [] s1 a G1 Ha) as (fd0 & s2 & E2 & Ef2 & Hc). rewrite (bind_ok _ _ _ _ _ E2).
  assert (Pa2 : pipe_end a s2) by (unfold pipe_end; by rewrite Ef2). assert (Pb2 : pipe_end b s2) by (unfold pipe_end; by rewrite Ef2).
  destruct Hc as [[-> ->]|(Hfd0 & G2 & p0 & p1 & _ & Hp1 & Ho1 & _)].
  { change (-1 <? 0) with true. cbn iota. unfold bind at 1, ret at 1. cbn [orb]. change (0 <=? -1) with false. unfold when. unfold bind at 1, ret at 1. by apply close_both. }
  destruct (Z.ltb_spec fd0 0); [lia|].
  destruct (fdalloc_spec i _ [] s2 b G2 Hb) as (fd1 & s3 & E3 & Ef3 & Hc). rewrite (bind_ok _ _ _ _ _ E3).
  assert (Pa3 : pipe_end a s3) by (unfold pipe_end; by rewrite Ef3). assert (Pb3 : pipe_end b s3) by (unfold pipe_end; by rewrite Ef3).
  destruct Hc as [[-> ->]|(Hfd1 & G3 & p2 & p3 & Hp2 & Hp3 & Ho3 & Hk3)].
  { change (-1 <? 0) with true. rewrite orb_true_r. destruct (Z.leb_spec 0 fd0); [|lia]. unfold when.
    destruct (clear_fd_spec i _ [] s2 p1 fd0 a G2 Hp1 Ho1) as (s4 & E4 & G4 & Ef4 & _). rewrite (bind_ok _ _ _ _ _ E4).
    apply close_both; [done|unfold pipe_end; by rewrite Ef4..|]. eapply good_ext; [|exact G4]. intros g. unfold inc. repeat case_decide; lia. }
  destruct (Z.ltb_spec fd1 0); [lia|]. destruct (Z.ltb_spec fd0 0); [lia|]. cbn [orb].
  assert (p2 = p1) as -> by congruence. assert (Ho0 : ofile p3 !! Z.to_nat fd0 = Some (Some a)) by (by apply Hk3).
  assert (G3' : good i none [] s3) by (eapply good_ext; [|exact G3]; intros g; unfold inc; repeat case_decide; lia). clear G3 G2 G1.
  eapply good_bind_tr; [done|trs|]. intros p s4 G4 Q4. eapply good_bind_tr; [done|trs|]. intros r0 s5 G5 Q5. eapply good_bind_tr; [done|trs|]. intros r1 s6 G6 Q6.
  destruct (r1 <? 0); [|done]. pose proof (qt_trans _ _ _ _ Q4 (qt_trans _ _ _ _ Q5 Q6)) as Q.
  destruct (gd_alive _ _ _ _ G6) as (p6 & Hp6 & _). destruct (qt_procs _ _ _ _ _ Q Hp6) as (q & Hq & Eo & _). assert (q = p3) as -> by congruence.
  destruct (clear_fd_spec i none [] s6 p6 fd0 a G6 Hp6) as (s7 & E7 & G7 & Ef7 & p7 & Hp7 & Ho7); [by rewrite Eo|]. rewrite (bind_ok _ _ _ _ _ E7).
  destruct (clear_fd_spec i _ [] s7 p7 fd1 b G7 Hp7) as (s8 & E8 & G8 & Ef8 & _).
  { rewrite Ho7, Eo; [done|]. intros Ek. rewrite Ek in Ho3. congruence. }
  rewrite (bind_ok _ _ _ _ _ E8). apply close_both; [done| | |done]; unfold pipe_end; rewrite Ef8, Ef7; by eapply pipe_end_qt.
Qed.

(** ** New processes *)

(** [allocproc] after the search. *)
Definition alloc_tail (i : nat) : K (option nat) :=
  tf ← kalloc;
  set_proc i (fun p => {| p with p_trapframe := tf |});;
  if tf =? 0 then freeproc i;; release (L_proc i);; ret None
  else
    pt ← proc_pagetable i;
    set_proc i (fun p => {| p with pagetable := pt |});;
    if pt =? 0 then freeproc i;; release (L_proc i);; ret None
    else
      l ← gets (fun s => ld s);
      set_proc i (fun p =>
        {| p with p_context :=
             {| ctx_ra := ld_forkret l; ctx_sp := u64 (kstack p + PGSIZE);
                ctx_s := replicate 12 0 |} |});;
      ret (Some i).
Definition unused_slot (i : nat) : K (option nat) :=
  acquire (L_proc i);;
  p ← get_proc i;
  if bool_decide (state p = UNUSED) then ret (Some i)
  else release (L_proc i);; ret None.
Lemma allocproc_eq : allocproc = (o ← mfind proc_ids unused_slot;
  match o with
  | None => ret None
  | Some i => v ← allocpid; set_proc i (fun p => {| p with pid := v |});; set_proc i (fun p => {| p with state := USED |});; alloc_tail i
  end).
Proof. reflexivity. Qed.

Lemma unused_found l : forall s, held s = [] ->
  mfind l unused_slot s = Ok None s \/
  exists np, np ∈ l /\ mfind l unused_slot s = Ok (Some np) (set_held [L_proc np] s) /\ dead (procs s !!! np).
Proof.
  induction l as [|j l IH]; intros s Hs; cbn [mfind]; [by left|].
  assert (E : unused_slot j s = if bool_decide (state (procs s !!! j) = UNUSED) then Ok (Some j) (set_held [L_proc j] s) else Ok None s).
  { unfold unused_slot. rewrite (bind_ok _ _ _ _ _ (acquire_eval _ _ ltac:(rewrite Hs; apply not_elem_of_nil))). rewrite Hs.
    unfold bind at 1, get_proc, gets. cbn [procs set_held]. destruct (bool_decide _); [done|]. rewrite (bind_ok _ _ _ _ _ (release_eval (L_proc j) [] (set_held [L_proc j] s) eq_refl)).
    unfold ret. f_equal. rewrite <-Hs. reflexivity. }
  unfold bind. rewrite !E. destruct (bool_decide_reflect (state (procs s !!! j) = UNUSED)) as [Hu|Hu].
  - right. exists j. split; [left|]. split; [done|by left].
  - destruct (IH s Hs) as [En|(np & Hin & En & Hd)]; [by left|]. right. exists np. split; [by right|done].
Qed.

(** The rest of [allocproc]: code that may free slot [np] again. *)
Lemma alive_qt s s' i : qt nobody s s' -> ~ dead (procs s !!! i) -> ~ dead (procs s' !!! i).
Proof. intros Q Ha [|[]]%(qt_dead _ _ _ Q). done. Qed.
Lemma runs_alive {A B} np (m : K A) (k : A -> K B) s s0 Q Bk : held s = [L_proc np] -> ~ dead (procs s !!! np) -> qt (eq np) s0 s ->
  tr nobody [L_proc np] m (fun _ => [L_proc np]) -> (forall s', switching s' /\ qt (eq np) s0 s' -> Bk s') ->
  (forall a s', held s' = [L_proc np] -> ~ dead (procs s' !!! np) -> qt (eq np) s0 s' -> runs Q Bk (k a s')) -> runs Q Bk (bind m k s).
Proof.
  intros Hh Ha Q0 T HB Hk. assert (Hw : forall s', qt nobody s s' -> qt (eq np) s0 s') by (intros s' Q'; eapply qt_trans; [exact Q0|]; by eapply qt_mono; [|exact Q']).
  eapply runs_bind; [eapply runs_mono; [exact (T s Hh)|intros a s' R; exact R|]|].
  - intros s' [Sw Q']. apply HB. split; [done|by apply Hw].
  - cbn. intros a s' [Hh' Q']. apply Hk; [done|by eapply alive_qt|by apply Hw].
Qed.
Lemma runs_set_proc {B} D H s i g (k : unit -> K B) Q Bk : held s = H -> (forall p, ofile (g p) = ofile p) -> (forall p, dead (g p) -> dead p \/ D i) ->
  (forall s', held s' = H -> qt D s s' -> procs s' = alter g i (procs s) -> runs Q Bk (k tt s')) -> runs Q Bk (bind (set_proc i g) k s).
Proof. intros Hh Ho Hd Hk. destruct (tr_set_proc D H i g Ho Hd s Hh) as [H1 Q1]. exact (Hk _ H1 Q1 eq_refl). Qed.
Lemma alloc_tail_spec np s s0 : held s = [L_proc np] -> ~ dead (procs s !!! np) -> qt (eq np) s0 s ->
  runs (fun o s' => qt (eq np) s0 s' /\ match o with Some j => j = np /\ held s' = [L_proc np] /\ ~ dead (procs s' !!! np) | None => held s' = [] end)
    (fun s' => switching s' /\ qt (eq np) s0 s') (alloc_tail np s).
Proof.
  intros Hh Ha Q0. unfold alloc_tail.
  assert (Hbad : forall s1, held s1 = [L_proc np] -> qt (eq np) s0 s1 ->
    runs (fun o s' => qt (eq np) s0 s' /\ match o with Some j => j = np /\ held s' = [L_proc np] /\ ~ dead (procs s' !!! np) | None => held s' = [] end)
    (fun s' => switching s' /\ qt (eq np) s0 s') ((freeproc np;; release (L_proc np);; ret None) s1)).
  { intros s1 H1 Q1. assert (T : tr (eq np) [L_proc np] (freeproc np;; release (L_proc np);; ret None) (fun _ : option nat => [])).
    { eapply tr_bind_const; [apply freeproc_tr; [lockside|done]|trs]. }
    assert (Hn : forall o s2, (freeproc np;; release (L_proc np);; ret None) s1 = Ok o s2 -> o = @None nat).
    { intros o s2 (? & ? & _ & (? & ? & _ & [= <- _])%bind_inv)%bind_inv. done. }
    specialize (T s1 H1). destruct (bind (freeproc np) _ s1) as [o s2|e|e|s2]; cbn in *; [|done..|].
    - rewrite (Hn o s2 eq_refl). destruct T as [? ?]. split; [by eapply qt_trans|done].
    - destruct T as [? ?]. split; [done|by eapply qt_trans]. }
  eapply runs_alive; [done..|trs|done|]. clear s Hh Ha Q0. intros tf s Hh Ha Q0.
  eapply runs_alive; [done..|trs|done|]. clear s Hh Ha Q0. intros _ s Hh Ha Q0. destruct (tf =? 0); [by apply Hbad|].
  eapply runs_alive; [done..|trs|done|]. clear s Hh Ha Q0. intros pt s Hh Ha Q0.
  eapply runs_alive; [done..|trs|done|]. clear s Hh Ha Q0. intros _ s Hh Ha Q0. destruct (pt =? 0); [by apply Hbad|].
  eapply runs_alive; [done..|trs|done|]. clear s Hh Ha Q0. intros l s Hh Ha Q0.
  eapply runs_alive; [done..|trs|done|]. clear s Hh Ha Q0. intros _ s Hh Ha Q0. done.
Qed.

(** A slot without files may be freed. *)
Lemma good_qt_slot i np E H s s' : good i E H s -> qt (eq np) s s' -> np <> i -> (forall p, procs s !! np = Some p -> no_files p) -> good i E (held s') s'.
Proof.
  intros [G1 G2 G3 (p & Hp & Ha)] Q Hne Hnf. split; [done| |by rewrite (qt_cur _ _ _ Q)|].
  - eapply fok_qt; [exact Q| |done]. intros j q <-. apply Hnf.
  - pose proof (lookup_lt_Some _ _ _ Hp) as Hl. rewrite <-(qt_nproc _ _ _ Q) in Hl. apply lookup_lt_is_Some in Hl as [p' Hp']. exists p'. split; [done|].
    destruct (qt_procs _ _ _ _ _ Q Hp') as (q & Hq & _ & Hd). assert (q = p) as -> by congruence. intros [|]%Hd; done.
Qed.

(** A new process: alive, and without files. *)
Definition newborn (i np : nat) (s : kstate) : Prop :=
  np <> i /\ exists q, procs s !! np = Some q /\ ~ dead q /\ no_files q.
Lemma allocproc_spec i s : good i none [] s ->
  runs (fun o s' => match o with Some np => good i none [L_proc np] s' /\ newborn i np s' | None => good i none [] s' end) (left_ok i) (allocproc s).
Proof.
  intros G. rewrite allocproc_eq. destruct (unused_found proc_ids s (gd_held _ _ _ _ G)) as [E|(np & Hin & E & Hd)]; rewrite (bind_ok _ _ _ _ _ E); [done|].
  apply elem_of_seq in Hin. pose proof (fk_nproc _ _ (gd_fok _ _ _ _ G)) as Hlen. assert (Hnp : (np < length (procs s))%nat) by lia.
  apply lookup_lt_is_Some in Hnp as [q0 Hq0]. rewrite (list_lookup_total_correct _ _ _ Hq0) in Hd.
  assert (Hne : np <> i) by (intros ->; destruct (gd_alive _ _ _ _ G) as (p & Hp & Ha); congruence).
  set (s1 := set_held [L_proc np] s). pose proof (good_held i none [] s [L_proc np] G : good i none [L_proc np] s1) as G1.
  assert (Hnf : forall p, procs s1 !! np = Some p -> no_files p) by (intros p Hp; eapply (fk_dead _ _ (gd_fok _ _ _ _ G)); [exact Hp|]; assert (p = q0) as -> by (cbn in Hp; congruence); done).
  assert (HB : forall s', switching s' /\ qt (eq np) s1 s' -> left_ok i s').
  { intros s' [Sw Q]. split; [done|]. left. exact (gd_fok _ _ _ _ (good_qt_slot _ _ _ _ _ _ G1 Q Hne Hnf)). }
  eapply runs_bind; [eapply runs_mono; [apply (allocpid_tr nobody [L_proc np] ltac:(lockside) s1 eq_refl)|intros ? ? R; exact R|]|].
  { intros s' [Sw Q]. apply HB. split; [done|]. by eapply qt_mono; [|exact Q]. }
  cbv beta. intros v s2 [H2 Q2]. eapply (runs_set_proc nobody); [exact H2|done|deadside|]. intros s3 H3 Q3 E3. eapply (runs_set_proc nobody); [exact H3|done|deadside|]. intros s4 H4 Q4 E4.
  assert (Q : qt (eq np) s1 s4) by (eapply qt_mono; [|eapply qt_trans; [exact Q2|eapply qt_trans; [exact Q3|exact Q4]]]; intros ? []).
  assert (Ha4 : ~ dead (procs s4 !!! np)).
  { rewrite E4, procs_alter, decide_True; [intros [|]; done|]. split; [done|].
    rewrite (qt_nproc _ _ _ Q3), (qt_nproc _ _ _ Q2). by eapply lookup_lt_Some. }
  eapply runs_mono; [exact (alloc_tail_spec np s4 s1 H4 Ha4 Q)| |exact HB].
  intros [j|] s' [Q' R].
  - destruct R as (-> & Hh & Ha). split.
    + rewrite <-Hh. by apply (good_qt_slot i np none [L_proc np] s1).
    + split; [done|]. pose proof (lookup_lt_Some _ _ _ Hq0) as Hl. change (procs s) with (procs s1) in Hl. rewrite <-(qt_nproc _ _ _ Q') in Hl.
      apply lookup_lt_is_Some in Hl as [q Hq]. exists q. split; [done|]. split; [by rewrite (list_lookup_total_correct _ _ _ Hq) in Ha|].
      destruct (qt_procs _ _ _ _ _ Q' Hq) as (q1 & Hq1 & Eo & _). intros fd f. rewrite Eo. by eapply Hnf.
  - rewrite <-R. by apply (good_qt_slot i np none [L_proc np] s1).
Qed.

(** *** fork *)
Lemma good_fd_other i np E E' H s q fd o o' : good i E H s -> np <> i -> procs s !! np = Some q -> ~ dead q -> ofile q !! fd = Some o ->
  (forall f, o' = Some f -> (f < NFILE)%nat) -> (forall f, E' f = E f + is_ref f o - is_ref f o') ->
  good i E' H (set_procs (alter (set_fd fd o') np (procs s)) s).
Proof.
  intros [G1 G2 G3 (p & Hp & Ha)] Hne Hq Hd Ho Hf HE. split; try done.
  - eapply fok_fd; try done. intros f Ef. split; [by apply Hf|done].
  - exists p. cbn [procs set_procs]. by rewrite list_lookup_alter_ne.
Qed.

(** The descriptors that are still to be copied are free in the child. *)
Record forking (i np : nat) (tbl : list (option nat)) (fds : list nat) (s : kstate) : Prop := {
  fg_good : good i none [L_proc np] s;
  fg_ne : np <> i;
  fg_child : exists q, procs s !! np = Some q /\ ~ dead q /\ forall fd, fd ∈ fds -> ofile q !! fd = Some None;
  fg_parent : exists p, procs s !! i = Some p /\ ofile p = tbl }.
Definition dup_fd (np : nat) (tbl : list (option nat)) (fd : nat) : K unit :=
  match nth fd tbl None with
  | None => ret tt
  | Some f => f ← filedup f; set_proc np (fun q => {| q with ofile := <[fd := Some f]> (ofile q) |})
  end.
Lemma dup_fd_spec i np tbl fd fds s : forking i np tbl (fd :: fds) s -> fd ∉ fds -> exists s', dup_fd np tbl fd s = Ok tt s' /\ forking i np tbl fds s'.
Proof.
  intros [G Hne (q & Hq & Hd & Hfds) (p & Hp & <-)] Hfd. unfold dup_fd. rewrite nth_lookup. destruct (ofile p !! fd) as [[f|]|] eqn:Ho; cbn.
  2,3: (exists s; split; [done|]; split; [done|done| |by exists p]; exists q; split; [done|]; split; [done|]; intros k Hk; apply Hfds; by right).
  destruct (fd_file _ _ _ _ _ _ (gd_fok _ _ _ _ G) Hp Ho) as (x & Hx & Hr & H1). unfold none in Hr.
  rewrite (bind_ok _ _ _ _ _ (filedup_eval s f x ltac:(rewrite (gd_held _ _ _ _ G); lockside) Hx ltac:(lia))). eexists. split; [done|].
  assert (G1 : good i (inc f 1 none) [L_proc np] (up_ref 1 f s)).
  { apply good_file; [done|]. intros y Hy. assert (y = x) as -> by congruence. cbn. split; lia. }
  assert (Ho' : ofile q !! fd = Some None) by (apply Hfds; by left). split; [|done| |].
  - eapply (good_fd_other _ _ _ _ _ _ q fd None (Some f) G1); try done.
    + intros g [= <-]. by eapply (fk_range _ _ (gd_fok _ _ _ _ G)).
    + intros g. unfold inc, none, is_ref. repeat case_decide; try lia; congruence.
  - exists (set_fd fd (Some f) q). cbn [procs set_procs up_ref set_ftable]. change (fun q0 => _) with (set_fd fd (Some f)). rewrite list_lookup_alter_eq, Hq. split; [done|]. split; [done|].
    intros k Hk. cbn [set_fd ofile]. rewrite list_lookup_insert_ne by (intros ->; done). apply Hfds. by right.
  - exists p. cbn [procs set_procs up_ref set_ftable]. by rewrite list_lookup_alter_ne.
Qed.
Lemma dup_fds_spec i np tbl fds : NoDup fds -> forall s, forking i np tbl fds s -> exists s', mfor fds (dup_fd np tbl) s = Ok tt s' /\ forking i np tbl [] s'.
Proof.
  induction 1 as [|fd fds Hfd _ IH]; intros s F; cbn [mfor]; [by exists s|].
  destruct (dup_fd_spec i np tbl fd fds s F Hfd) as (s1 & E1 & F1). rewrite (bind_ok _ _ _ _ _ E1). by apply IH.
Qed.

(** Quiet code under the lock of the child. *)
Lemma runs_child {A B} i np (m : K A) (k : A -> K B) s Q : good i none [L_proc np] s -> newborn i np s -> tr nobody [L_proc np] m (fun _ => [L_proc np]) ->
  (forall a s', good i none [L_proc np] s' -> newborn i np s' -> qt nobody s s' -> runs Q (left_ok i) (k a s')) -> runs Q (left_ok i) (bind m k s).
Proof.
  intros G (Hne & q & Hq & Hd & Hn) T Hk. eapply good_bind_tr; [done|done|]. intros a s' G' Q'. apply Hk; [done| |done]. split; [done|].
  pose proof (lookup_lt_Some _ _ _ Hq) as Hl. rewrite <-(qt_nproc _ _ _ Q') in Hl. apply lookup_lt_is_Some in Hl as [q' Hq']. exists q'. split; [done|].
  destruct (qt_procs _ _ _ _ _ Q' Hq') as (q1 & Hq1 & Eo & Hdd). assert (q1 = q) as -> by congruence. split; [by intros [|[]]%Hdd|].
  intros fd f. rewrite Eo. apply Hn.
Qed.

Lemma kfork_keeps i : keeps i kfork.
Proof.
  intros s0 G0. unfold kfork. rewrite (bind_ok _ _ _ _ _ (myproc_ok _ _ (gd_cur _ _ _ _ G0))).
  eapply runs_bind; [by apply (allocproc_spec i s0)|]. cbv beta. intros [np|] s G; [|done]. destruct G as [G N].
  change (bind (get_proc i) ?k s) with (k (procs s !!! i) s). cbv beta. change (bind (get_proc np) ?k s) with (k (procs s !!! np) s). cbv beta.
  set (p := procs s !!! i). set (q := procs s !!! np).
  destruct (gd_alive _ _ _ _ G) as (p0 & Hp0 & _). assert (p = p0) as -> by (unfold p; by apply list_lookup_total_correct).
  eapply runs_child; [done|done|trs|]. intros r s1 G1 N1 Q1. destruct (r <? 0).
  { assert (T : tr (eq np) [L_proc np] (freeproc np;; release (L_proc np);; ret (-1)) (fun _ : Z => [])).
    { eapply tr_bind_const; [apply freeproc_tr; [lockside|done]|trs]. }
    destruct N1 as (Hne & q1 & Hq1 & _ & Hnf1). assert (Hnf : forall p, procs s1 !! np = Some p -> no_files p) by (intros p Hp; by assert (p = q1) as -> by congruence).
    eapply runs_mono; [exact (T s1 (gd_held _ _ _ _ G1))| |].
    - intros a s' [Hh Q]. rewrite <-Hh. by apply (good_qt_slot i np none [L_proc np] s1).
    - intros s' [Sw Q]. apply left_close. split; [done|]. exact (gd_fok _ _ _ _ (good_qt_slot i np none [L_proc np] s1 s' G1 Q Hne Hnf)). }
  eapply runs_child; [done|done|trs|]. intros _ s2 G2 N2 Q2. eapply runs_child; [done|done|trs|]. intros tf s3 G3 N3 Q3. eapply runs_child; [done|done|trs|]. intros _ s4 G4 N4 Q4.
  pose proof (qt_trans _ _ _ _ Q1 (qt_trans _ _ _ _ Q2 (qt_trans _ _ _ _ Q3 Q4))) as Q.
  assert (F : forking i np (ofile p0) (seq 0 NOFILE) s4).
  { split; [done|apply N4| |].
    - destruct N4 as (_ & q4 & Hq4 & Hd4 & Hn4). exists q4. split; [done|]. split; [done|]. intros fd [_ Hfd]%elem_of_seq.
      rewrite <-(fk_nofile _ _ (gd_fok _ _ _ _ G4) _ _ Hq4) in Hfd. apply lookup_lt_is_Some in Hfd as [[f|] Ho]; [by destruct (Hn4 fd f)|done].
    - destruct (gd_alive _ _ _ _ G4) as (p4 & Hp4 & _). exists p4. split; [done|]. destruct (qt_procs _ _ _ _ _ Q Hp4) as (p1 & Hp1 & -> & _). congruence. }
  destruct (dup_fds_spec i np (ofile p0) (seq 0 NOFILE) (NoDup_seq _ _) s4 F) as (s5 & E5 & [G5 _ _ _]).
  change (mfor (seq 0 NOFILE) _) with (mfor (seq 0 NOFILE) (dup_fd np (ofile p0))). rewrite (bind_ok _ _ _ _ _ E5).
  eapply runs_mono; [eapply (good_tr i none [L_proc np]); [exact G5|trs]| |].
  - intros a s' [G' _]. exact G'.
  - intros s' (Sw & F' & _). by apply left_close.
Qed.

(** *** exit *)
Definition close_fd (i fd : nat) : K unit :=
  p ← get_proc i;
  match nth fd (ofile p) None with
  | None => ret tt
  | Some f => fileclose f;; set_proc i (fun p => {| p with ofile := <[fd := None]> (ofile p) |})
  end.
(** The descriptors of [p'] are among those of [p], without [fds]. *)
Definition closed (fds : list nat) (p p' : proc) : Prop :=
  forall k f, ofile p' !! k = Some (Some f) -> k ∉ fds /\ ofile p !! k = Some (Some f).
Lemma close_fd_spec i fd s p : good i none [] s -> procs s !! i = Some p ->
  runs (fun _ s' => good i none [] s' /\ exists p', procs s' !! i = Some p' /\ closed [fd] p p') (left_ok i) (close_fd i fd s).
Proof.
  intros G Hp. unfold close_fd. change (bind (get_proc i) ?k s) with (k (procs s !!! i) s). cbv beta. rewrite (list_lookup_total_correct _ _ _ Hp), nth_lookup.
  destruct (ofile p !! fd) as [[f|]|] eqn:Ho; cbn [default from_option id].
  2,3: (split; [done|]; exists p; split; [done|]; intros k g Hk; split; [|done]; intros ->%list_elem_of_singleton; congruence).
  destruct (fd_file _ _ _ _ _ _ (gd_fok _ _ _ _ G) Hp Ho) as (x & Hx & Hr & H1). unfold none in Hr.
  assert (Hown : forall s', map ofile (procs s') = map ofile (procs s) -> exists p', procs s' !! i = Some p' /\ ofile p' = ofile p).
  { intros s' E. pose proof (f_equal (fun l => l !! i) E) as Ei. cbn in Ei. rewrite !list_lookup_fmap, Hp in Ei. destruct (procs s' !! i) as [p'|]; [|done].
    exists p'. split; [done|]. by injection Ei. }
  eapply runs_bind; [eapply runs_mono; [apply (fileclose_spec i none s f x G Hx); lia|intros ? ? R; exact R|]|].
  - intros s' (Sw & F & E). split; [done|]. right. destruct (Hown s' E) as (p' & Hp' & Eo). exists f, p', fd. split; [done|]. split; [done|]. by rewrite Eo.
  - cbv beta. intros [] s1 [G1 E1]. destruct (Hown s1 E1) as (p1 & Hp1 & Eo1).
    change (runs (fun _ s' => good i none [] s' /\ exists p', procs s' !! i = Some p' /\ closed [fd] p p') (left_ok i) (Ok tt (set_procs (alter (set_fd fd None) i (procs s1)) s1))).
    split.
    + eapply (good_fd _ _ _ _ _ p1 fd (Some f) None G1 Hp1); [by rewrite Eo1|done|]. intros g. unfold inc, none, is_ref. repeat case_decide; try lia; congruence.
    + exists (set_fd fd None p1). cbn [procs set_procs]. rewrite list_lookup_alter_eq, Hp1. split; [done|]. intros k g. cbn [set_fd ofile]. rewrite Eo1.
      destruct (decide (k = fd)) as [->|Hne]; [by rewrite list_lookup_insert_eq by (by eapply lookup_lt_Some)|]. rewrite list_lookup_insert_ne by done.
      intros Hk. split; [|done]. by intros ->%list_elem_of_singleton.
Qed.
Lemma close_fds_spec i fds : forall s p, good i none [] s -> procs s !! i = Some p ->
  runs (fun _ s' => good i none [] s' /\ exists p', procs s' !! i = Some p' /\ closed fds p p') (left_ok i) (mfor fds (close_fd i) s).
Proof.
  induction fds as [|fd fds IH]; intros s p G Hp; cbn [mfor].
  - split; [done|]. exists p. split; [done|]. intros k f Hk. split; [apply not_elem_of_nil|done].
  - eapply runs_bind; [by apply (close_fd_spec i fd s p)|]. cbv beta. intros [] s1 [G1 (p1 & Hp1 & C1)].
    eapply runs_mono; [by apply (IH s1 p1)| |done]. intros [] s2 [G2 (p2 & Hp2 & C2)]. split; [done|]. exists p2. split; [done|].
    intros k f Hk. destruct (C2 k f Hk) as [Hn Hk1]. destruct (C1 k f Hk1) as [Hn1 Hk0]. split; [|done]. intros [->|?]%elem_of_cons; [by apply Hn1; left|done].
Qed.

(** The end of [kexit]: a zombie without files. *)
Lemma zombie_leaves {A} i status s p Q : good i none [L_proc i; L_wait] s -> procs s !! i = Some p -> no_files p ->
  runs (A := A) Q (left_ok i) ((set_proc i (fun p => {| p with xstate := status |});; set_proc i (fun p => {| p with state := ZOMBIE |});;
    release L_wait;; sched;; panic "zombie exit") s).
Proof.
  intros G Hp Hn.
  assert (T : tr (A := A) (eq i) [L_proc i; L_wait] (set_proc i (fun p => {| p with xstate := status |});; set_proc i (fun p => {| p with state := ZOMBIE |});;
    release L_wait;; sched;; panic "zombie exit") (fun _ => [])).
  { eapply tr_bind_const; [trs|]. intros _. eapply tr_bind_const; [apply tr_set_proc; [done|by right]|]. intros _. eapply tr_bind_const; [by apply tr_release_under|].
    intros _. apply (tr_bind_stops _ _ _ _ (fun _ => [])); [apply sched_tr|apply sched_stops]. }
  assert (St : stops (A := A) (set_proc i (fun p => {| p with xstate := status |});; set_proc i (fun p => {| p with state := ZOMBIE |});;
    release L_wait;; sched;; panic "zombie exit")) by (do 3 (apply stops_bind; intros _); apply stops_bind_l, sched_stops).
  specialize (T s (gd_held _ _ _ _ G)). specialize (St s). destruct (bind _ _ s) as [a s'|e|e|s']; [by destruct (St a s')|done|done|].
  destruct T as [Sw Q']. apply left_close. split; [done|]. eapply (fok_qt (eq i)); [exact Q'| |apply G]. intros j q <- Hq. by assert (q = p) as -> by congruence.
Qed.

(** Quiet code of a process that has closed its files. *)
Lemma runs_closed {A B} i H H1 (m : K A) (k : A -> K B) s Q : good i none H s -> (exists p, procs s !! i = Some p /\ no_files p) -> tr nobody H m (fun _ => H1) ->
  (forall a s', good i none H1 s' -> (exists p, procs s' !! i = Some p /\ no_files p) -> runs Q (left_ok i) (k a s')) -> runs Q (left_ok i) (bind m k s).
Proof.
  intros G (p & Hp & Hn) T Hk. eapply good_bind_tr; [done|done|]. intros a s' G' Q'. apply Hk; [done|].
  destruct (gd_alive _ _ _ _ G') as (p' & Hp' & _). exists p'. split; [done|]. destruct (qt_procs _ _ _ _ _ Q' Hp') as (p1 & Hp1 & Eo & _).
  assert (p1 = p) as -> by congruence. intros fd f. rewrite Eo. apply Hn.
Qed.
Lemma kexit_leaves {A} i status s Q : good i none [] s -> runs (A := A) Q (left_ok i) (kexit status s).
Proof.
  intros G. unfold kexit. rewrite (bind_ok _ _ _ _ _ (myproc_ok _ _ (gd_cur _ _ _ _ G))). eapply good_bind_tr; [done|trs|]. intros ip s1 G1 _.
  eapply good_bind_tr; [done|trs|]. intros _ s2 G2 _. destruct (gd_alive _ _ _ _ G2) as (p2 & Hp2 & _).
  change (mfor (seq 0 NOFILE) _) with (mfor (seq 0 NOFILE) (close_fd i)). eapply runs_bind; [by apply (close_fds_spec i _ s2 p2)|]. cbv beta. intros [] s3 [G3 (p3 & Hp3 & C3)].
  assert (N3 : exists p, procs s3 !! i = Some p /\ no_files p).
  { exists p3. split; [done|]. intros fd f Hf. destruct (C3 fd f Hf) as [Hn _]. apply Hn, elem_of_seq. apply lookup_lt_Some in Hf.
    rewrite (fk_nofile _ _ (gd_fok _ _ _ _ G3) _ _ Hp3) in Hf. lia. }
  clear G G1 G2 Hp2 p2 C3 Hp3 p3.
  do 6 (eapply runs_closed; [done|done|trs|]; clear s3 G3 N3; intros ? s3 G3 N3).
  do 4 (eapply runs_closed; [done|done|trs|]; clear s3 G3 N3; intros ? s3 G3 N3).
  eapply runs_closed; [done|done|trs|]; clear s3 G3 N3; intros ? s3 G3 (p & Hp & Hn). by apply (zombie_leaves i status s3 p).
Qed.

(** ** Every system call, and every trap from user space *)
Ltac quietly := apply keeps_tr; trs.

Lemma sys_exit_keeps i : keeps i sys_exit.
Proof. intros s G. unfold sys_exit. eapply good_bind_tr; [done|trs|]. intros n s1 G1 _. by apply kexit_leaves. Qed.
Lemma syscalls_keep i num f : syscalls num = Some f -> keeps i f.
Proof.
  unfold syscalls. generalize (Z.to_nat num). intros n Hn.
  do 25 (destruct n as [|n]; [cbn in Hn; try discriminate; injection Hn as <-;
    first [quietly; fail|apply kfork_keeps|apply sys_exit_keeps|apply sys_pipe_keeps|apply sys_dup_keeps|apply sys_open_keeps|apply sys_close_keeps|solve [quietly]]|]).
  by destruct n.
Qed.
Lemma syscall_keeps i : keeps i syscall.
Proof.
  intros s G. unfold syscall. rewrite (bind_ok _ _ _ _ _ (myproc_ok _ _ (gd_cur _ _ _ _ G))). eapply good_bind_tr; [done|trs|]. intros tf s1 G1 _.
  destruct (if _ : bool then syscalls _ else None) as [f|] eqn:E; revert s1 G1; [|quietly].
  destruct (_ && _); [|done]. apply keeps_bind; [by eapply syscalls_keep|]. intros v. quietly.
Qed.

Lemma keeps_kexit_if {B} i b (k : unit -> K B) : (forall a, keeps i (k a)) -> keeps i (bind (when b (kexit (-1))) k).
Proof.
  intros Hk. destruct b; unfold when.
  - intros s G. eapply runs_bind; [apply (kexit_leaves i (-1) s (fun _ _ => False) G)|done].
  - apply keeps_bind; [quietly|done].
Qed.
Section Trap.
Context {P : Plic} (virtio_disk_intr : K unit) (Hdisk : tr nobody [] virtio_disk_intr (fun _ => [])).

Lemma usertrap_keeps i h : keeps i (usertrap virtio_disk_intr h).
Proof.
  unfold usertrap. apply keeps_bind; [quietly|]. intros _. apply keeps_bind; [quietly|]. intros l.
  intros s G. rewrite (bind_ok _ _ _ _ _ (myproc_ok _ _ (gd_cur _ _ _ _ G))). revert s G.
  apply keeps_bind; [quietly|]. intros _. apply keeps_bind.
  - cbn [scause sepc sstatus stval]. destruct (scause h =? 8).
    + apply keeps_bind; [quietly|]. intros k. apply keeps_kexit_if. intros _. apply keeps_bind; [quietly|]. intros _. apply keeps_bind; [apply syscall_keeps|]. intros _. quietly.
    + apply keeps_bind; [quietly|]. intros [w h']. quietly.
  - intros [w h']. apply keeps_bind; [quietly|]. intros k. apply keeps_kexit_if. intros _. unfold yield. quietly.
Qed.
End Trap.


(** C5: the reference count of every open file is the number of descriptors that refer to it, and
    a file without references is free, after every trap from user space: whatever the system
    call, and on its error exits too. The file that is being closed by an exiting process apart,
    the same holds when the process leaves the CPU in the middle; duplicating or closing a
    descriptor never finds its file without references. *)
Theorem descriptors_counted {P : Plic} virtio_disk_intr h i s : tr nobody [] virtio_disk_intr (fun _ => []) -> good i none [] s ->
  match usertrap virtio_disk_intr h s with
  | Ok _ s' => files_ok s'
  | Block s' => files_ok s' \/ closing i s'
  | Panic e => e <> "filedup"%string /\ e <> "fileclose"%string
  | Fault _ => True
  end.
Proof.
  intros Hd G. pose proof (usertrap_keeps virtio_disk_intr Hd i h s G) as R. destruct (usertrap virtio_disk_intr h s) as [a s'|e|e|s']; cbn in R; [apply R| |done|apply R].
  apply bool_decide_eq_false in R. split; intros ->; apply R; set_solver.
Qed.

(** ** A process that calls dup *)
Definition demo_hart : @hart model_plic := @mkhart model_plic 0 8 4096 0 0 0 0 0 0 reset_view false.
Definition demo_caller : proc :=
  {| inhabitant with state := RUNNING; pid := 7; p_trapframe := 4096; ofile := Some 5%nat :: replicate 15 None |}.
Definition demo_trap (a7_ : Z) : kstate :=
  set_cur (Some 0%nat) (set_procs (demo_caller :: replicate 63 inhabitant)
    (set_ftable (<[5%nat := mkfile FD_DEVICE 1 1 1 0 None 0 1]> (replicate NFILE inhabitant))
      (set_tframes (fun _ => {| zero_trapframe with a7 := a7_ |}) zero_state))).

Lemma count_refs_none f n : count_refs f (replicate n None) = 0.
Proof. induction n as [|n IH]; cbn [replicate count_refs]; [done|]. rewrite IH. done. Qed.
Lemma demo_good n : good 0 none [] (demo_trap n).
Proof.
  assert (Ef : forall f x, ftable (demo_trap n) !! f = Some x -> f_ref x = is_ref f (Some 5%nat) /\ (f_ref x = 0 -> f_type x = FD_NONE)).
  { intros f x. change (ftable (demo_trap n)) with (<[5%nat := mkfile FD_DEVICE 1 1 1 0 None 0 1]> (replicate NFILE (inhabitant : file))).
    destruct (decide (f = 5%nat)) as [->|Hne]; [by intros [= <-]|]. rewrite list_lookup_insert_ne by done. intros [-> _]%lookup_replicate.
    unfold is_ref. rewrite decide_False by congruence. done. }
  assert (Ep : forall i p, procs (demo_trap n) !! i = Some p -> (i = 0%nat /\ p = demo_caller) \/ p = inhabitant).
  { intros [|i] p Hp; [left; by injection Hp|right]. change (replicate 63 (inhabitant : proc) !! i = Some p) in Hp. by apply lookup_replicate in Hp as [-> _]. }
  assert (Hn : no_files inhabitant) by (intros fd f [? _]%lookup_replicate; done).
  split; [done| |done|by exists demo_caller; split; [done|intros [|]]]. split.
  - reflexivity.
  - reflexivity.
  - intros i p [[_ ->]| ->]%Ep; done.
  - intros f x [-> _]%Ef. unfold nrefs, none. change (concat (map ofile (procs (demo_trap n)))) with ([Some 5%nat] ++ replicate 1023 (@None nat)).
    rewrite count_refs_app, count_refs_none. cbn [count_refs]. lia.
  - intros f x. apply Ef.
  - intros i p fd f [[_ ->]| ->]%Ep Hf; [|by destruct (Hn fd f)]. destruct fd as [|fd]; [by injection Hf as <-; apply Nat.ltb_lt|]. change (replicate 15 (@None nat) !! fd = Some (Some f)) in Hf. by apply lookup_replicate in Hf as [? _].
  - intros i p [[_ ->]| ->]%Ep; [by intros [|]|done].
Qed.

(** [dup(0)]: two descriptors and two references, and no lock is held. *)
Lemma quiet_disk : tr nobody [] (ret tt) (fun _ => []).
Proof. trs. Qed.
Lemma descriptors_counted_witness : exists r s', usertrap (ret tt) demo_hart (demo_trap 10) = Ok r s' /\ files_ok s' /\ f_ref (ftable s' !!! 5%nat) = 2.
Proof.
  pose proof (descriptors_counted (ret tt) demo_hart 0 (demo_trap 10) quiet_disk (demo_good 10)) as H.
  assert (Hx : match usertrap (ret tt) demo_hart (demo_trap 10) with Ok _ s => f_ref (ftable s !!! 5%nat) =? 2 | _ => false end = true) by (vm_compute; reflexivity).
  revert H Hx. generalize (usertrap (ret tt) demo_hart (demo_trap 10)). intros [r s'|e|e|s'] H Hx; [|discriminate Hx..]. exists r, s'. split; [reflexivity|]. split; [exact H|].
  apply Z.eqb_eq. exact Hx.
Defined.
