(* ===== verification/Ulib.v ===== *)
(** * The user library (user/ulib.c) and what user programs see of [read]

    A C string is the list of bytes from the pointer on; reading past the end of the list reads
    NUL.  A destination buffer is the list of its bytes, and a routine that would write past its
    end answers [None].  [memset] and the copies work on memory, as in the kernel. *)

From S2P Require Import Prelude Kstring.

(** ** What a program can read from a file descriptor

    [pending] is what the descriptor will still deliver; [read n] is the system call with a
    request of [n] bytes: the bytes, or [None] for -1. *)
Class Source (S : Type) := {
  pending : S -> list Z;
  read : Z -> S -> option (list Z) * S
}.

(** The promise of the system call on a descriptor that can be read: some of the pending bytes,
    in order, at most as many as were asked for, and at least one while there is one. *)
Class SourceLaws (S : Type) `{Source S} := {
  readable : S -> Prop;
  read_some n s : readable s -> exists l s', read n s = (Some l, s') /\ readable s' /\
    pending s = l ++ pending s' /\ Z.of_nat (length l) <= Z.max 0 n /\
    (0 < n -> pending s <> [] -> l <> [])
}.

(** A file on the disk delivers all that it is asked for. *)
#[export] Instance file_source : Source (list Z) := {|
  pending s := s;
  read n s := (Some (take (Z.to_nat n) s), drop (Z.to_nat n) s)
|}.
#[export] Instance file_laws : SourceLaws (list Z).
Proof.
  refine {| readable _ := True |}. intros n s _. eexists _, _. split; [reflexivity|]. cbn.
  rewrite take_drop, length_take. repeat split; [lia|]. intros Hn Hs Ht. apply Hs.
  apply (f_equal length) in Ht. rewrite length_take in Ht. destruct s; [done|]. cbn in Ht. lia.
Defined.

(** A pipe or a terminal delivers what has arrived: the sizes of the arrivals are a script. *)
Definition arrivals : Type := list nat * list Z.
Definition arrived (n : Z) (ks : list nat) : nat := Nat.min (Z.to_nat n) (S (hd 0%nat ks)).
#[export] Instance pipe_source : Source arrivals := {|
  pending s := s.2;
  read n s := (Some (take (arrived n s.1) s.2), (tl s.1, drop (arrived n s.1) s.2))
|}.
#[export] Instance pipe_laws : SourceLaws arrivals.
Proof.
  refine {| readable _ := True |}. intros n [ks s] _. eexists _, _. split; [reflexivity|]. cbn.
  rewrite take_drop, length_take. unfold arrived. repeat split; [lia|]. intros Hn Hs Ht. apply Hs.
  apply (f_equal length) in Ht. rewrite length_take in Ht. destruct s; [done|]. cbn in Ht. lia.
Defined.

(** ** Strings *)

(** Copies up to and with the NUL; the list is the buffer afterwards. *)
Fixpoint strcpy (s t : list Z) : option (list Z) :=
  match s with
  | [] => None
  | _ :: s' => if hd 0 t =? 0 then Some (0 :: s') else option_map (fun r => hd 0 t :: r) (strcpy s' (tl t))
  end.

Fixpoint strcmp (p q : list Z) : Z :=
  match p with
  | [] => 0 - u8 (hd 0 q)
  | c :: p' => if negb (c =? 0) && (c =? hd 0 q) then strcmp p' (tl q) else u8 c - u8 (hd 0 q)
  end.

Fixpoint strlen_from (n : Z) (s : list Z) : Z :=
  match s with
  | [] => n
  | c :: s' => if negb (c =? 0) then strlen_from (s32 (n + 1)) s' else n
  end.
Definition strlen (s : list Z) : Z := u32 (strlen_from 0 s).

(** The offset of the character from [s], or null. *)
Fixpoint strchr (s : list Z) (c : Z) : option nat :=
  match s with
  | [] => None
  | x :: s' =>
      if x =? 0 then None
      else if x =? c then Some 0%nat
      else option_map S (strchr s' c)
  end.

(** The loop of [gets] with [n] characters left to store: the characters stored. *)
Fixpoint gets_loop {S} `{Source S} (n : nat) (s : S) : list Z * S :=
  match n with
  | O => ([], s)
  | S n' =>
      match read 1 s with
      | (Some (c :: _), s') =>
          if (c =? 10) || (c =? 13) then ([c], s')
          else let '(l, s'') := gets_loop n' s' in (c :: l, s'')
      | (_, s') => ([], s')
      end
  end.
(** The string left in the buffer, its NUL included. *)
Definition gets {S} `{Source S} (max : Z) (s : S) : list Z * S :=
  let '(l, s') := gets_loop (Z.to_nat (max - 1)) s in (l ++ [0], s').

Fixpoint atoi_from (n : Z) (s : list Z) : Z :=
  match s with
  | [] => n
  | c :: s' => if (48 <=? c) && (c <=? 57) then atoi_from (s32 (n * 10 + c - 48)) s' else n
  end.
Definition atoi (s : list Z) : Z := atoi_from 0 s.

(** ** Memory *)
Definition memset (m : memory) (dst c n : Z) : memory := memset_loop m dst c (Z.to_nat n).

Definition memmove (m : memory) (dst src n : Z) : memory :=
  if dst <? src then copy_up m dst src (Z.to_nat n)
  else copy_down m (dst + n) (src + n) (Z.to_nat n).
Definition memcpy (m : memory) (dst src n : Z) : memory := memmove m dst src (s32 n).

Fixpoint memcmp (s1 s2 : list Z) (n : nat) : Z :=
  match n with
  | O => 0
  | S n' =>
      if negb (hd 0 s1 =? hd 0 s2) then hd 0 s1 - hd 0 s2
      else memcmp (tl s1) (tl s2) n'
  end.

(** ** Facts *)

Lemma strchr_some s c k : strchr s c = Some k ->
  exists l r, s = l ++ c :: r /\ length l = k /\ c ∉ l /\ 0 ∉ l /\ c <> 0.
Proof.
  revert k. induction s as [|x s IH]; intros k; cbn [strchr]; [done|].
  destruct (Z.eqb_spec x 0) as [|H0]; [done|]. destruct (Z.eqb_spec x c) as [->|Hc].
  - intros [= <-]. exists [], s. repeat split; [apply not_elem_of_nil..|done].
  - destruct (strchr s c) as [k'|] eqn:E; [|done]. intros [= <-].
    destruct (IH k' eq_refl) as (l & r & -> & <- & Hl & Hz & Hne). exists (x :: l), r.
    repeat split; [by apply not_elem_of_cons; split; congruence..|done].
Qed.

Lemma strchr_found l c r : c ∉ l -> 0 ∉ l -> c <> 0 -> strchr (l ++ c :: r) c = Some (length l).
Proof.
  intros Hc H0 Hne. induction l as [|x l IH]; cbn [strchr app].
  - destruct (Z.eqb_spec c 0); [done|]. by rewrite Z.eqb_refl.
  - apply not_elem_of_cons in Hc as [Hc1 Hc2]. apply not_elem_of_cons in H0 as [H1 H2].
    destruct (Z.eqb_spec x 0); [congruence|]. destruct (Z.eqb_spec x c); [congruence|]. by rewrite IH.
Qed.

Lemma strchr_not_found l c r : c ∉ l -> strchr (l ++ 0 :: r) c = None.
Proof.
  intros Hc. induction l as [|x l IH]; cbn [strchr app]; [done|].
  apply not_elem_of_cons in Hc as [Hc1 Hc2]. destruct (x =? 0); [done|].
  destruct (Z.eqb_spec x c); [congruence|]. by rewrite IH.
Qed.

(** Membership, the way the programs use it. *)
Lemma strchr_in l c : 0 ∉ l -> c <> 0 -> strchr l c <> None <-> c ∈ l.
Proof.
  intros H0 Hc. induction l as [|x l IH]; cbn [strchr].
  - split; [done|]. by intros ?%not_elem_of_nil.
  - apply not_elem_of_cons in H0 as [H1 H2]. destruct (Z.eqb_spec x 0); [congruence|]. rewrite elem_of_cons.
    destruct (Z.eqb_spec x c) as [->|Hne]; [split; [by left|done]|]. rewrite <-IH by done.
    destruct (strchr l c); cbn; [split; [by right|done]|]. split; [done|]. by intros [->|].
Qed.

Lemma memmove_spec m dst src n x : 0 <= n ->
  memmove m dst src n x = store m dst (load m src (Z.to_nat n)) x.
Proof.
  intros Hn. rewrite store_load by done. unfold memmove. destruct (Z.ltb_spec dst src).
  - rewrite copy_up_spec by lia. by rewrite Z2Nat.id by lia.
  - rewrite copy_down_spec by lia. rewrite Z2Nat.id by lia.
    by_cases; try lia; try done. f_equal. lia.
Qed.
