(* ===== verification/Uprintf.v ===== *)
(** * Formatted output of user programs (user/printf.c)

    The result is the list of the bytes written to the descriptor, one [write] each; [None]
    stands for a write past the end of a buffer or for an argument that is missing or of the
    wrong kind. *)

From S2P Require Import Prelude Kstring Ulib.

Definition digits (d : Z) : Z := nth (Z.to_nat d) (str "0123456789ABCDEF") 0.

(** The do/while loop of [printint] with [room] bytes of the buffer left. *)
Fixpoint printint_loop (room : nat) (x base : Z) : option (list Z) :=
  match room with
  | O => None
  | S room' =>
      if x / base =? 0 then Some [digits (x mod base)]
      else option_map (fun l => digits (x mod base) :: l) (printint_loop room' (x / base) base)
  end.

(** The buffer holds the digits from the last to the first, then the sign. *)
Definition printint (xx base : Z) (sgn : bool) : option (list Z) :=
  let neg := sgn && (xx <? 0) in
  let x := if neg then u64 (- xx) else u64 xx in
  match printint_loop 20 x base with
  | None => None
  | Some ds =>
      if neg then if (20 <=? length ds)%nat then None else Some (reverse (ds ++ str "-"))
      else Some (reverse ds)
  end.

Fixpoint printptr_loop (n : nat) (x : Z) : list Z :=
  match n with
  | O => []
  | S n' => digits (Z.shiftr x 60) :: printptr_loop n' (u64 (Z.shiftl x 4))
  end.
Definition printptr (x : Z) : list Z := 48 :: 120 :: printptr_loop 16 x.

Inductive varg := AInt (v : Z) | AStr (s : option (list Z)).
(** The characters of a string up to its NUL. *)
Definition chars (s : list Z) : list Z := cstr (length s) s.

(** What a conversion prints, the arguments left, and how many characters it takes after [c0]. *)
Definition convert (c0 c1 c2 : Z) (ap : list varg) : option (list Z * list varg * nat) :=
  let int (f : Z -> Z) base sgn skip :=
    match ap with
    | AInt v :: ap' => option_map (fun l => (l, ap', skip)) (printint (f v) base sgn)
    | _ => None
    end in
  let d := 100 in let l := 108 in let u := 117 in let x := 120 in
  if c0 =? d then int s32 10 true 0%nat
  else if (c0 =? l) && (c1 =? d) then int s64 10 true 1%nat
  else if (c0 =? l) && (c1 =? l) && (c2 =? d) then int s64 10 true 2%nat
  else if c0 =? u then int u32 10 false 0%nat
  else if (c0 =? l) && (c1 =? u) then int s64 10 false 1%nat
  else if (c0 =? l) && (c1 =? l) && (c2 =? u) then int s64 10 false 2%nat
  else if c0 =? x then int u32 16 false 0%nat
  else if (c0 =? l) && (c1 =? x) then int s64 16 false 1%nat
  else if (c0 =? l) && (c1 =? l) && (c2 =? x) then int s64 16 false 2%nat
  else if c0 =? 112 then match ap with AInt v :: ap' => Some (printptr (u64 v), ap', 0%nat) | _ => None end
  else if c0 =? 99 then match ap with AInt v :: ap' => Some ([u8 v], ap', 0%nat) | _ => None end
  else if c0 =? 115 then
    match ap with AStr o :: ap' => Some (chars (default (str "(null)") o), ap', 0%nat) | _ => None end
  else if c0 =? 37 then Some ([37], ap, 0%nat)
  else Some ([37; c0], ap, 0%nat).

(** The loop: [state] is true after a percent sign; [skip] characters of the format are passed
    over (the [i += 1] and [i += 2]). *)
Fixpoint vprintf_loop (fmt : list Z) (state : bool) (skip : nat) (ap : list varg) : option (list Z) :=
  match fmt with
  | [] => Some []
  | c0 :: fmt' =>
      match skip with
      | S skip' => vprintf_loop fmt' false skip' ap
      | O =>
          if c0 =? 0 then Some []
          else if negb state then
            if c0 =? 37 then vprintf_loop fmt' true 0 ap
            else option_map (cons c0) (vprintf_loop fmt' false 0 ap)
          else
            let c1 := hd 0 fmt' in
            let c2 := if c1 =? 0 then 0 else hd 0 (tl fmt') in
            match convert c0 c1 c2 ap with
            | Some (out, ap', skip') => option_map (app out) (vprintf_loop fmt' false skip' ap')
            | None => None
            end
      end
  end.
Definition vprintf (fmt : list Z) (ap : list varg) : option (list Z) := vprintf_loop fmt false 0 ap.

(** ** Numbers *)

Fixpoint value (base : Z) (ds : list Z) : Z :=
  match ds with [] => 0 | d :: ds' => d + base * value base ds' end.

Lemma printint_loop_spec base n x : 2 <= base <= 16 -> 0 <= x < base ^ Z.of_nat n -> (0 < n)%nat ->
  exists ds, printint_loop n x base = Some (map digits ds) /\ (0 < length ds <= n)%nat /\ value base ds = x /\ Forall (fun d => 0 <= d < base) ds.
Proof.
  intros Hb. revert x. induction n as [|n IH]; intros x Hx Hn; [lia|]. cbn [printint_loop].
  rewrite Nat2Z.inj_succ, Z.pow_succ_r in Hx by lia.
  pose proof (Z.div_mod x base ltac:(lia)) as Hdm. pose proof (Z.mod_pos_bound x base ltac:(lia)) as Hm.
  destruct (Z.eqb_spec (x / base) 0) as [E|E].
  - exists [x mod base]. cbn [map length value]. split; [done|]. split; [lia|]. split; [lia|]. by constructor.
  - destruct n as [|n].
    { exfalso. apply E. apply Z.div_small. cbn in Hx. lia. }
    destruct (IH (x / base)) as (ds & -> & Hl & Hv & Hf); [split; [apply Z.div_pos|apply Z.div_lt_upper_bound]; lia|lia|].
    exists (x mod base :: ds). cbn [map length value option_map]. split; [done|]. split; [lia|]. split; [lia|]. by constructor.
Qed.

Lemma printint_loop_mono base n m x l : printint_loop n x base = Some l -> (n <= m)%nat -> printint_loop m x base = Some l.
Proof.
  revert m x l. induction n as [|n IH]; intros m x l E Hm; [done|]. destruct m as [|m]; [lia|]. cbn [printint_loop] in *.
  destruct (x / base =? 0); [done|]. destruct (printint_loop n (x / base) base) as [l'|] eqn:E'; [|done].
  by rewrite (IH m _ _ E') by lia.
Qed.

Lemma printint_fits xx base sgn : - 2 ^ 63 <= xx < 2 ^ 64 -> base = 10 \/ base = 16 ->
  exists ds, printint xx base sgn = Some (reverse (map digits ds ++ (if sgn && (xx <? 0) then str "-" else []))) /\
    (0 < length (map digits ds ++ (if sgn && (xx <? 0)%Z then str "-" else [])) <= 20)%nat /\
    value base ds = (if sgn && (xx <? 0) then - xx else u64 xx) /\ Forall (fun d => 0 <= d < base) ds.
Proof.
  intros Hxx Hbase. unfold printint. assert (Hb : 2 <= base <= 16) by lia. destruct (sgn && (xx <? 0)) eqn:Eneg.
  - apply andb_true_iff in Eneg as [_ Hneg%Z.ltb_lt]. rewrite (u64_small (- xx)) by lia.
    destruct (printint_loop_spec base 19 (- xx) Hb) as (ds & E & Hl & Hv & Hf); [|lia|].
    { destruct Hbase as [->| ->]; [change (10 ^ Z.of_nat 19) with 10000000000000000000|change (16 ^ Z.of_nat 19) with 75557863725914323419136]; lia. }
    rewrite (printint_loop_mono _ _ 20 _ _ E) by lia. exists ds. rewrite length_map, length_app, length_map. cbn [length str].
    destruct (Nat.leb_spec 20 (length ds)); [lia|]. split; [done|]. split; [cbn; lia|]. done.
  - pose proof (u64_range xx) as Hu. destruct (printint_loop_spec base 20 (u64 xx) Hb) as (ds & E & Hl & Hv & Hf); [|lia|].
    { destruct Hbase as [->| ->]; [change (10 ^ Z.of_nat 20) with 100000000000000000000|change (16 ^ Z.of_nat 20) with 1208925819614629174706176]; lia. }
    rewrite E. exists ds. rewrite app_nil_r. split; [done|]. rewrite length_map. split; [lia|]. done.
Qed.

Lemma digits10 d : 0 <= d < 10 -> digits d = 48 + d.
Proof.
  intros Hd. assert (d = 0 \/ d = 1 \/ d = 2 \/ d = 3 \/ d = 4 \/ d = 5 \/ d = 6 \/ d = 7 \/ d = 8 \/ d = 9) as H by lia.
  repeat (destruct H as [->|H]; [reflexivity|]). by subst.
Qed.

(** [atoi] reads the digits from the most significant one. *)
Lemma atoi_digits ds n : Forall (fun d => 0 <= d < 10) ds -> 0 <= n -> value 10 ds + n * 10 ^ Z.of_nat (length ds) < 2 ^ 31 ->
  atoi_from n (reverse (map digits ds)) = value 10 ds + n * 10 ^ Z.of_nat (length ds).
Proof.
  revert n. induction ds as [|d ds IH] using rev_ind; intros n Hf Hn Hlt; [cbn; lia|].
  apply Forall_app in Hf as [Hf Hd]. apply Forall_cons in Hd as [Hd _].
  assert (Hval : value 10 (ds ++ [d]) = value 10 ds + d * 10 ^ Z.of_nat (length ds)).
  { clear. induction ds as [|e ds IH]; cbn [app value length]; [lia|]. rewrite IH, Nat2Z.inj_succ, Z.pow_succ_r by lia. lia. }
  assert (Hpos : 0 <= value 10 ds).
  { clear -Hf. induction ds as [|e ds IH]; cbn [value]; [done|]. apply Forall_cons in Hf as [He Hf]. specialize (IH Hf). lia. }
  rewrite Hval, length_app in *. cbn [length] in *. rewrite Nat.add_1_r, Nat2Z.inj_succ, Z.pow_succ_r in * by lia.
  rewrite map_app, reverse_app. cbn [map]. rewrite reverse_singleton. cbn [app atoi_from]. rewrite digits10 by lia.
  destruct (Z.leb_spec 48 (48 + d)), (Z.leb_spec (48 + d) 57); try lia. cbn [andb].
  assert (Hp10 : 1 <= 10 ^ Z.of_nat (length ds)) by (assert (0 < 10 ^ Z.of_nat (length ds)) by (apply Z.pow_pos_nonneg; lia); lia).
  rewrite s32_small by nia. rewrite IH; [|done|lia|nia]. nia.
Qed.


