(* ===== verification/Grep.v ===== *)
(** * grep (user/grep.c)

    The matcher is compared with a declarative semantics of the patterns it understands, and the
    buffered loop with the list of the lines of its input. *)

From S2P Require Import Prelude Kstring Ulib.

(** ** The program *)

(** The loop of [matchstar]: [here] is the test of the rest of the pattern. *)
Fixpoint matchstar (here : list Z -> bool) (c : Z) (text : list Z) : bool :=
  if here text then true
  else match text with
       | [] => false
       | t :: text' =>
           if negb (t =? 0) && ((t =? c) || (c =? 46)) then matchstar here c text' else false
       end.

Fixpoint matchhere (re text : list Z) : bool :=
  match re with
  | [] => true
  | c :: re1 =>
      let rest := if (c =? 36) && (hd 0 re1 =? 0) then hd 0 text =? 0
                  else match text with
                       | [] => false
                       | t :: text' =>
                           if negb (t =? 0) && ((c =? 46) || (c =? t)) then matchhere re1 text' else false
                       end in
      if c =? 0 then true
      else match re1 with
           | d :: re2 => if d =? 42 then matchstar (matchhere re2) c text else rest
           | [] => rest
           end
  end.

(** The loop of [match] for a pattern without [^]. *)
Fixpoint match_any (re text : list Z) : bool :=
  if matchhere re text then true
  else match text with
       | [] => false
       | t :: text' => if negb (t =? 0) then match_any re text' else false
       end.
Definition match_ (re text : list Z) : bool :=
  if hd 0 re =? 94 then matchhere (tl re) text else match_any re text.

Definition GBUF : Z := 1024.

(** The inner loop, from [p]: the buffer, the new [p] and what was written to descriptor 1. *)
Fixpoint grep_lines (fuel : nat) (pattern buf : list Z) (p : nat) (out : list Z) : list Z * nat * list Z :=
  match fuel with
  | O => (buf, p, out)
  | S fuel' =>
      match strchr (drop p buf) 10 with
      | None => (buf, p, out)
      | Some k =>
          let q := (p + k)%nat in
          let buf := <[q := 0]> buf in
          if match_ pattern (drop p buf) then
            let buf := <[q := 10]> buf in
            grep_lines fuel' pattern buf (q + 1) (out ++ take (q + 1 - p) (drop p buf))
          else grep_lines fuel' pattern buf (q + 1) out
      end
  end.

(** [memmove(buf, p, m)] on the bytes of the buffer. *)
Definition move_down (buf : list Z) (p m : nat) : list Z := take m (drop p buf) ++ drop m buf.

(** The loop of [grep]: [m] bytes of the buffer are in use; the result is what was written, and
    the descriptor afterwards. *)
Fixpoint grep_loop {S} `{Source S} (fuel : nat) (pattern buf : list Z) (m : Z) (s : S) (out : list Z) :
    option (list Z * S) :=
  match fuel with
  | O => None
  | S fuel' =>
      match read (GBUF - m - 1) s with
      | (Some (x :: l), s') =>
          let n := Z.of_nat (length (x :: l)) in
          let buf := take (Z.to_nat m) buf ++ (x :: l) ++ drop (Z.to_nat (m + n)) buf in
          let m := m + n in
          let buf := <[Z.to_nat m := 0]> buf in
          let '(buf, p, out) := grep_lines (length buf) pattern buf 0 out in
          if 0 <? m then
            let m := m - Z.of_nat p in
            grep_loop fuel' pattern (move_down buf p (Z.to_nat m)) m s' out
          else grep_loop fuel' pattern buf m s' out
      | (_, s') => Some (out, s')
      end
  end.
Definition grep {S} `{Source S} (fuel : nat) (pattern : list Z) (s : S) : option (list Z * S) :=
  grep_loop fuel pattern (replicate (Z.to_nat GBUF) 0) 0 s [].

(** ** Patterns, by definition *)

(** A character class, and the pieces of a pattern: one character, any number of them, and the
    end of the text. *)
Inductive atom := AnyChar | Char (c : Z).
Inductive piece := One (a : atom) | Many (a : atom) | End.
Definition atom_ok (a : atom) (c : Z) : Prop := match a with AnyChar => True | Char d => c = d end.
Definition atom_of (c : Z) : atom := if c =? 46 then AnyChar else Char c.

(** [den l w r]: the pieces [l] match [w] when it is followed by [r]. *)
Inductive den : list piece -> list Z -> list Z -> Prop :=
| den_nil r : den [] [] r
| den_one a l c w r : atom_ok a c -> den l w r -> den (One a :: l) (c :: w) r
| den_many a l v w r : Forall (atom_ok a) v -> den l w r -> den (Many a :: l) (v ++ w) r
| den_end : den [End] [] [].

(** How a pattern is read: [c*] is any number of [c], a final [$] is the end of the text, [.] is
    any character and every other character is itself. *)
Fixpoint pieces (re : list Z) : list piece :=
  match re with
  | [] => []
  | c :: re1 =>
      match re1 with
      | d :: re2 => if d =? 42 then Many (atom_of c) :: pieces re2 else One (atom_of c) :: pieces re1
      | [] => if c =? 36 then [End] else [One (atom_of c)]
      end
  end.

(** The text contains a match; after [^], it begins with one. *)
Definition contains (re text : list Z) : Prop :=
  match re with
  | 94 :: re' => exists w r, text = w ++ r /\ den (pieces re') w r
  | _ => exists u w r, text = u ++ w ++ r /\ den (pieces re) w r
  end.

(** ** The matcher *)

Lemma atom_of_eq c t : ((t =? c) || (c =? 46)) = true <-> atom_ok (atom_of c) t.
Proof.
  unfold atom_of. rewrite orb_true_iff, !Z.eqb_eq. destruct (Z.eqb_spec c 46) as [->|H]; cbn; [tauto|].
  split; [by intros [|]|by left].
Qed.

Lemma matchstar_spec here c text : 0 ∉ text ->
  matchstar here c text = true <->
  exists v w, text = v ++ w /\ Forall (atom_ok (atom_of c)) v /\ here w = true.
Proof.
  induction text as [|t text IH]; intros H0; cbn [matchstar].
  - destruct (here []) eqn:E.
    + split; [|done]. intros _. by exists [], [].
    + split; [done|]. intros (v & w & Hv & _ & Hw). symmetry in Hv. apply app_eq_nil in Hv as [-> ->]. congruence.
  - apply not_elem_of_cons in H0 as [H1 H2]. destruct (here (t :: text)) eqn:E.
    + split; [|done]. intros _. by exists [], (t :: text).
    + destruct (Z.eqb_spec t 0) as [->|_]; [done|]. cbn [negb andb].
      destruct ((t =? c) || (c =? 46)) eqn:Ec.
      * apply atom_of_eq in Ec. rewrite IH by done. split.
        -- intros (v & w & -> & Hv & Hw). exists (t :: v), w. by repeat split; [constructor|].
        -- intros (v & w & Hv & Ha & Hw). destruct v as [|y v]; cbn in Hv; [by subst; congruence|].
           injection Hv as <- ->. exists v, w. by apply Forall_cons in Ha as [_ ?].
      * split; [done|]. intros (v & w & Hv & Ha & Hw). destruct v as [|y v]; cbn in Hv; [by subst; congruence|].
        injection Hv as <- ->. apply Forall_cons in Ha as [Ha _]. apply atom_of_eq in Ha. congruence.
Qed.

Lemma den_one_inv a l w r : den (One a :: l) w r <-> exists c w', w = c :: w' /\ atom_ok a c /\ den l w' r.
Proof. split; [inversion 1; subst; eauto 10|]. intros (c & w' & -> & ? & ?). by constructor. Qed.
Lemma den_many_inv a l w r : den (Many a :: l) w r <-> exists v w', w = v ++ w' /\ Forall (atom_ok a) v /\ den l w' r.
Proof. split; [inversion 1; subst; eauto 10|]. intros (c & w' & -> & ? & ?). by constructor. Qed.

(** One character of pattern and of text. *)
Lemma match_one c text (k : list Z -> bool) (P : list Z -> list Z -> Prop) : 0 ∉ text ->
  (forall t, 0 ∉ t -> k t = true <-> exists w r, t = w ++ r /\ P w r) ->
  match text with
  | [] => false
  | t :: text' => if negb (t =? 0) && ((c =? 46) || (c =? t)) then k text' else false
  end = true <->
  exists w r, text = w ++ r /\ exists t w', w = t :: w' /\ atom_ok (atom_of c) t /\ P w' r.
Proof.
  intros H0 Hk. destruct text as [|t text].
  - split; [done|]. intros (w & r & Hw & t & w' & -> & _). done.
  - apply not_elem_of_cons in H0 as [H1 H2]. destruct (Z.eqb_spec t 0) as [->|_]; [done|]. cbn [negb andb].
    rewrite orb_comm, (Z.eqb_sym c t). destruct ((t =? c) || (c =? 46)) eqn:E.
    + apply atom_of_eq in E. rewrite Hk by done. split.
      * intros (w & r & -> & H). exists (t :: w), r. split; [done|]. by exists t, w.
      * intros (w & r & Hw & t' & w' & -> & Ha & H). injection Hw as -> ->. by exists w', r.
    + split; [done|]. intros (w & r & Hw & t' & w' & -> & Ha & H). injection Hw as -> ->.
      apply atom_of_eq in Ha. congruence.
Qed.

Lemma matchhere_spec re text : 0 ∉ re -> 0 ∉ text ->
  matchhere re text = true <-> exists w r, text = w ++ r /\ den (pieces re) w r.
Proof.
  assert (Hgen : forall n re text, (length re <= n)%nat -> 0 ∉ re -> 0 ∉ text ->
    matchhere re text = true <-> exists w r, text = w ++ r /\ den (pieces re) w r).
  2: { apply (Hgen (length re)). done. }
  clear re text. induction n as [|n IH]; intros re text Hn Hre H0.
  { destruct re; [|cbn in Hn; lia]. cbn. split; [|done]. intros _. exists [], text. split; [done|constructor]. }
  destruct re as [|c re1].
  { cbn. split; [|done]. intros _. exists [], text. split; [done|constructor]. }
  cbn [length] in Hn. apply not_elem_of_cons in Hre as [Hc Hre1]. cbn [matchhere].
  destruct (Z.eqb_spec c 0) as [->|_]; [done|].
  destruct re1 as [|d re2].
  - cbn [hd pieces]. destruct (Z.eqb_spec c 36) as [->|Hd]; cbn [andb Z.eqb].
    + destruct text as [|t text]; cbn [hd].
      * split; [|done]. intros _. exists [], []. split; [done|constructor].
      * apply not_elem_of_cons in H0 as [H1 H2]. destruct (Z.eqb_spec t 0) as [->|_]; [done|]. split; [done|].
        intros (w & r & Hw & H). by inversion H; subst.
    + rewrite (match_one c text _ (den [])); [|done|].
      * by setoid_rewrite den_one_inv.
      * intros t Ht. apply (IH []); [cbn; lia|apply not_elem_of_nil|done].
  - pose proof Hre1 as Hre1'. apply not_elem_of_cons in Hre1' as [Hd Hre2]. cbn [length] in Hn. cbn [pieces].
    destruct (Z.eqb_spec d 42) as [->|Hstar].
    + rewrite matchstar_spec by done. setoid_rewrite den_many_inv. split.
      * intros (v & w & -> & Hv & Hw). apply IH in Hw as (w' & r & -> & H); [|lia|done|].
        -- exists (v ++ w'), r. split; [by rewrite app_assoc|]. by exists v, w'.
        -- intros Hin. apply H0. apply elem_of_app. by right.
      * intros (w & r & -> & v & w' & -> & Hv & H). exists v, (w' ++ r). split; [by rewrite app_assoc|]. split; [done|].
        apply IH; [lia|done| |by exists w', r]. intros Hin. apply H0. rewrite <-app_assoc. apply elem_of_app. by right.
    + cbn [hd]. destruct (Z.eqb_spec d 0) as [->|_]; [done|]. rewrite andb_false_r.
      rewrite (match_one c text _ (den (pieces (d :: re2)))); [|done|].
      * by setoid_rewrite den_one_inv.
      * intros t Ht. apply IH; [cbn; lia|done..].
Qed.

Lemma match_any_spec re text : 0 ∉ re -> 0 ∉ text ->
  match_any re text = true <-> exists u w r, text = u ++ w ++ r /\ den (pieces re) w r.
Proof.
  intros Hre. induction text as [|t text IH]; intros H0; cbn [match_any].
  - destruct (matchhere re []) eqn:E.
    + apply matchhere_spec in E as (w & r & ? & ?); [|done..]. split; [|done]. intros _. by exists [], w, r.
    + split; [done|]. intros (u & w & r & Hu & H). assert (matchhere re [] = true); [|congruence].
      apply matchhere_spec; [done..|]. exists w, r. by destruct u.
  - destruct (matchhere re (t :: text)) eqn:E.
    + apply matchhere_spec in E as (w & r & ? & ?); [|done..]. split; [|done]. intros _. by exists [], w, r.
    + pose proof H0 as H0'. apply not_elem_of_cons in H0' as [H1 H2]. destruct (Z.eqb_spec t 0) as [->|_]; [done|].
      cbn [negb]. rewrite IH by done. split.
      * intros (u & w & r & -> & H). by exists (t :: u), w, r.
      * intros ([|y u] & w & r & Hu & H); cbn in Hu.
        -- assert (matchhere re (t :: text) = true); [|congruence]. apply matchhere_spec; [done..|]. by exists w, r.
        -- injection Hu as -> ->. by exists u, w, r.
Qed.

(** C26: the recursive matcher of grep decides the declarative meaning of its patterns: it answers
    true exactly when the text contains a match of the pattern's pieces (begins with one, for a
    pattern that starts with [^]), for all patterns and texts without NUL. *)
Theorem match_decides (re text : list Z) : 0 ∉ re -> 0 ∉ text -> match_ re text = true <-> contains re text.
Proof.
  intros Hre H0. unfold match_, contains. destruct re as [|c re]; [by apply match_any_spec|]. cbn [hd tl].
  destruct (Z.eqb_spec c 94) as [->|Hc].
  - apply not_elem_of_cons in Hre as [_ Hre]. by apply matchhere_spec.
  - rewrite match_any_spec by done. by destruct c as [|[]|]; repeat case_match; simplify_eq.
Qed.

Lemma match_decides_witness : match_ (str "^a.*b$") (str "aXXb") = true /\ contains (str "^a.*b$") (str "aXXb").
Proof.
  assert (E : match_ (str "^a.*b$") (str "aXXb") = true) by reflexivity. split; [exact E|].
  apply (match_decides (str "^a.*b$") (str "aXXb")); [| |exact E].
  - intros H. vm_compute in H. by repeat (apply elem_of_cons in H as [H|H]; [discriminate H|]); apply elem_of_nil in H.
  - intros H. vm_compute in H. by repeat (apply elem_of_cons in H as [H|H]; [discriminate H|]); apply elem_of_nil in H.
Defined.

(** ** The lines *)

(** A text ends at its first NUL. *)
Lemma matchstar_nul h h' c text r : (forall t, h (t ++ 0 :: r) = h' t) ->
  matchstar h c (text ++ 0 :: r) = matchstar h' c text.
Proof.
  intros Hh. induction text as [|t text IH]; cbn [matchstar app].
  - pose proof (Hh []) as E. cbn [app] in E. rewrite E. by destruct (h' []).
  - pose proof (Hh (t :: text)) as E. cbn [app] in E. rewrite E. by rewrite IH.
Qed.

Lemma matchhere_nul re text r : matchhere re (text ++ 0 :: r) = matchhere re text.
Proof.
  assert (Hgen : forall n re text, (length re <= n)%nat -> matchhere re (text ++ 0 :: r) = matchhere re text).
  2: { by apply (Hgen (length re)). }
  clear re text. induction n as [|n IH]; intros re text Hn.
  { by destruct re; [|cbn in Hn; lia]. }
  destruct re as [|c re1]; [done|]. cbn [length] in Hn. cbn [matchhere]. destruct (c =? 0); [done|].
  assert (Hrest : (if (c =? 36) && (hd 0 re1 =? 0) then hd 0 (text ++ 0 :: r) =? 0
     else match text ++ 0 :: r with [] => false
          | t :: text' => if negb (t =? 0) && ((c =? 46) || (c =? t)) then matchhere re1 text' else false end) =
    (if (c =? 36) && (hd 0 re1 =? 0) then hd 0 text =? 0
     else match text with [] => false
          | t :: text' => if negb (t =? 0) && ((c =? 46) || (c =? t)) then matchhere re1 text' else false end)).
  { destruct text as [|t text]; [done|]. cbn [app hd]. by rewrite IH by lia. }
  destruct re1 as [|d re2]; [exact Hrest|]. destruct (d =? 42); [|exact Hrest].
  apply matchstar_nul. intros t. apply IH. cbn in Hn. lia.
Qed.

Lemma match_nul re text r : match_ re (text ++ 0 :: r) = match_ re text.
Proof.
  unfold match_. destruct (hd 0 re =? 94); [apply matchhere_nul|].
  induction text as [|t text IH]; cbn [match_any app].
  - pose proof (matchhere_nul re [] r) as E. cbn [app] in E. rewrite E. by destruct (matchhere re []).
  - pose proof (matchhere_nul re (t :: text) r) as E. cbn [app] in E. rewrite E. by rewrite IH.
Qed.

(** What grep should print: the complete lines that match, in order. *)
Definition complete_lines (data : list Z) : list (list Z) := removelast (split_on 10 data).
Definition grep_spec (pattern data : list Z) : list Z :=
  concat (map (fun l => l ++ [10]) (List.filter (match_ pattern) (complete_lines data))).

Lemma split_on_none c l : c ∉ l -> split_on c l = [l].
Proof.
  induction l as [|x l IH]; intros H; [done|]. apply not_elem_of_cons in H as [H1 H2]. cbn [split_on].
  destruct (Z.eqb_spec x c); [congruence|]. by rewrite IH.
Qed.
Lemma split_on_app c l r : c ∉ l -> split_on c (l ++ c :: r) = l :: split_on c r.
Proof.
  induction l as [|x l IH]; intros H; cbn [app split_on]; [by rewrite Z.eqb_refl|].
  apply not_elem_of_cons in H as [H1 H2]. destruct (Z.eqb_spec x c); [congruence|]. by rewrite IH.
Qed.

Lemma grep_spec_tail pat l : 10 ∉ l -> grep_spec pat l = [].
Proof. intros H. unfold grep_spec, complete_lines. by rewrite split_on_none. Qed.
Lemma grep_spec_line pat l r : 10 ∉ l ->
  grep_spec pat (l ++ 10 :: r) = (if match_ pat l then l ++ [10] else []) ++ grep_spec pat r.
Proof.
  intros H. unfold grep_spec, complete_lines. rewrite split_on_app by done.
  destruct (split_on_cons 10 r) as (h & t & ->). cbn [removelast List.filter].
  by destruct (match_ pat l).
Qed.

(** A list up to its last newline. *)
Lemma line_split (l : list Z) : 10 ∉ l \/ exists a b, l = a ++ 10 :: b /\ 10 ∉ a.
Proof.
  induction l as [|x l IH]; [left; apply not_elem_of_nil|]. destruct (decide (x = 10)) as [->|Hx].
  - right. exists [], l. split; [done|apply not_elem_of_nil].
  - destruct IH as [H|(a & b & -> & Ha)]; [left; by apply not_elem_of_cons; split|].
    right. exists (x :: a), b. split; [done|]. by apply not_elem_of_cons.
Qed.

Lemma insert_mid {A} (a : list A) x y b : <[length a := y]> (a ++ x :: b) = a ++ y :: b.
Proof. by rewrite insert_app_r_alt, Nat.sub_diag by done. Qed.

Lemma grep_lines_spec pat fuel pre content junk out :
  (length content < fuel)%nat -> 0 ∉ content ->
  exists buf' d tail g, grep_lines fuel pat (pre ++ content ++ 0 :: junk) (length pre) out =
      (buf', (length pre + length d)%nat, out ++ g) /\
    content = d ++ tail /\ 10 ∉ tail /\ length buf' = length (pre ++ content ++ 0 :: junk) /\
    drop (length pre + length d) buf' = tail ++ 0 :: junk /\
    forall rest, grep_spec pat (content ++ rest) = g ++ grep_spec pat (tail ++ rest) /\
      split_on 10 (tail ++ rest) ⊆ split_on 10 (content ++ rest).
Proof.
  revert pre content out. induction fuel as [|fuel IH]; intros pre content out Hf H0; [lia|]. cbn [grep_lines].
  rewrite drop_app_length. destruct (line_split content) as [Hn|(a & b & -> & Ha)].
  - rewrite strchr_not_found by done. eexists _, [], content, []. cbn [length]. rewrite Nat.add_0_r, app_nil_r, drop_app_length.
    by repeat split.
  - assert (Ha0 : 0 ∉ a) by (intros Hin; apply H0; apply elem_of_app; by left).
    assert (Hb0 : 0 ∉ b).
    { intros Hin. apply H0. apply elem_of_app. right. apply elem_of_cons. by right. }
    rewrite <-app_assoc. cbn [app]. rewrite strchr_found by done.
    assert (Hins : forall x y, <[(length pre + length a)%nat := y]> (pre ++ a ++ x :: b ++ 0 :: junk) = (pre ++ a ++ [y]) ++ b ++ 0 :: junk).
    { intros x y. rewrite (app_assoc pre a), <-length_app, insert_mid. by rewrite <-!app_assoc. }
    assert (Hlen : forall y : Z, (length pre + length a + 1)%nat = length (pre ++ a ++ [y])) by (intros; rewrite !length_app; cbn; lia).
    assert (Htl : (length b < fuel)%nat) by (rewrite length_app in Hf; cbn in Hf; lia).
    rewrite Hins. rewrite <-app_assoc, drop_app_length.
    replace ((a ++ [0]) ++ b ++ 0 :: junk) with (a ++ 0 :: b ++ 0 :: junk) by (by rewrite <-app_assoc).
    rewrite match_nul.
    assert (Hfin : forall y out1, (y = 0 \/ y = 10) -> out1 = out ++ (if match_ pat a then a ++ [10] else []) ->
      exists buf' d tail g, grep_lines fuel pat ((pre ++ a ++ [y]) ++ b ++ 0 :: junk) (length pre + length a + 1) out1 =
      (buf', (length pre + length d)%nat, out ++ g) /\ a ++ 10 :: b = d ++ tail /\ 10 ∉ tail /\
      length buf' = length (pre ++ (a ++ 10 :: b ++ 0 :: junk)) /\ drop (length pre + length d) buf' = tail ++ 0 :: junk /\
      forall rest, grep_spec pat ((a ++ 10 :: b) ++ rest) = g ++ grep_spec pat (tail ++ rest) /\
        split_on 10 (tail ++ rest) ⊆ split_on 10 ((a ++ 10 :: b) ++ rest)).
    { intros y out1 _ ->. destruct (IH (pre ++ a ++ [y]) b (out ++ (if match_ pat a then a ++ [10] else [])) Htl Hb0)
        as (buf' & d & tail & g & E & Hd & Ht & Hl & Hdr & Hg).
      assert (Hsum : forall n, (length (pre ++ a ++ [y]) + n = length pre + (length (a ++ [10%Z]) + n))%nat)
        by (intros; rewrite !length_app; cbn; lia).
      exists buf', (a ++ [10] ++ d), tail, ((if match_ pat a then a ++ [10] else []) ++ g).
      rewrite (Hlen y), E, <-app_assoc. rewrite Hsum. subst b.
      replace (length (a ++ [10%Z] ++ d)) with (length (a ++ [10%Z]) + length d)%nat by (rewrite !length_app; cbn; lia).
      split; [done|]. split; [by rewrite <-app_assoc|]. split; [done|]. split; [rewrite Hl, !length_app; cbn; rewrite !length_app; cbn; lia|].
      split; [by rewrite <-Hsum|]. intros rest. destruct (Hg rest) as [Hg1 Hg2]. rewrite <-app_assoc. cbn [app].
      rewrite grep_spec_line, Hg1, app_assoc, split_on_app by done. split; [done|]. intros x Hx. apply elem_of_cons. right. by apply Hg2. }
    destruct (match_ pat a) eqn:Em.
    + replace (pre ++ a ++ 0 :: b ++ 0 :: junk) with (pre ++ a ++ 0 :: (b ++ 0 :: junk)) by done. rewrite Hins.
      rewrite <-app_assoc, drop_app_length.
      replace (length pre + length a + 1 - length pre)%nat with (length (a ++ [10%Z])) by (rewrite length_app; cbn; lia).
      rewrite take_app_length, app_assoc. apply Hfin; [by right|done].
    + replace (pre ++ a ++ 0 :: b ++ 0 :: junk) with ((pre ++ a ++ [0]) ++ b ++ 0 :: junk) by (by rewrite <-!app_assoc).
      apply Hfin; [by left|]. by rewrite app_nil_r.
Qed.

Section GrepLoop.
Context {S : Type} `{SourceLaws S}.
Implicit Types s : S.

Definition short_lines (data : list Z) : Prop := Forall (fun l => Z.of_nat (length l) <= GBUF - 2) (split_on 10 data).

Lemma short_lines_head l r : 10 ∉ l -> short_lines (l ++ r) -> Z.of_nat (length l) <= GBUF - 2.
Proof.
  intros Hl Hs. unfold short_lines in Hs. destruct (line_split r) as [Hr|(a & b & -> & Ha)].
  - rewrite split_on_none in Hs; [|rewrite elem_of_app; tauto]. apply Forall_cons in Hs as [Hs _]. rewrite length_app in Hs. lia.
  - rewrite app_assoc, split_on_app in Hs; [|rewrite elem_of_app; tauto]. apply Forall_cons in Hs as [Hs _]. rewrite length_app in Hs. lia.
Qed.

(** The buffer after a read of [l] behind the [m] bytes [part]. *)
Lemma refill (part l junk : list Z) : length (part ++ junk) = Z.to_nat GBUF ->
  Z.of_nat (length part) + Z.of_nat (length l) < GBUF ->
  exists junk', <[Z.to_nat (Z.of_nat (length part) + Z.of_nat (length l)) := 0]>
      (take (Z.to_nat (Z.of_nat (length part))) (part ++ junk) ++ l ++
       drop (Z.to_nat (Z.of_nat (length part) + Z.of_nat (length l))) (part ++ junk)) = (part ++ l) ++ 0 :: junk' /\
    length ((part ++ l) ++ 0 :: junk') = Z.to_nat GBUF.
Proof.
  intros Hlen Hlt. rewrite !Nat2Z.id, take_app_length. change (Z.to_nat GBUF) with 1024%nat in *. unfold GBUF in Hlt.
  replace (Z.to_nat (Z.of_nat (length part) + Z.of_nat (length l))) with (length (part ++ l)) by (rewrite length_app; lia).
  destruct (drop (length (part ++ l)) (part ++ junk)) as [|x junk'] eqn:E.
  { apply (f_equal length) in E. rewrite length_drop, Hlen, length_app in E. cbn in E. lia. }
  exists junk'. rewrite app_assoc, insert_mid. split; [done|].
  apply (f_equal length) in E. rewrite length_drop, Hlen, length_app in E. rewrite length_app. cbn [length] in *.
  rewrite length_app. lia.
Qed.

Lemma grep_loop_spec pat fuel part junk s out :
  length (part ++ junk) = Z.to_nat GBUF -> readable s -> 10 ∉ part -> 0 ∉ part ++ pending s ->
  short_lines (part ++ pending s) -> (length (pending s) < fuel)%nat ->
  exists s', grep_loop fuel pat (part ++ junk) (Z.of_nat (length part)) s out =
    Some (out ++ grep_spec pat (part ++ pending s), s') /\ pending s' = [].
Proof.
  revert part junk s out. induction fuel as [|fuel IH]; intros part junk s out Hlen Hr Hp Hz Hs Hf; [lia|].
  cbn [grep_loop]. pose proof (short_lines_head _ _ Hp Hs) as Hm.
  destruct (read_some (GBUF - Z.of_nat (length part) - 1) s Hr) as (l & s' & E & Hr' & Hpd & Hl & Hne). rewrite E.
  destruct l as [|x l].
  { exists s'. cbn [app] in Hpd. destruct (pending s) as [|y r] eqn:Ep; [|exfalso; apply Hne; [lia|done|done]].
    split; [|done]. by rewrite app_nil_r, grep_spec_tail, app_nil_r. }
  destruct (refill part (x :: l) junk Hlen) as (junk' & Eb & Hlen'); [lia|]. rewrite Eb.
  destruct (grep_lines_spec pat (length ((part ++ x :: l) ++ 0 :: junk')) [] (part ++ x :: l) junk' out)
    as (buf' & d & tail & g & El & Hd & Ht & Hbl & Hdr & Hg).
  { rewrite (length_app (part ++ x :: l)). cbn [length]. lia. }
  { intros Hin. apply Hz. rewrite Hpd, app_assoc. apply elem_of_app. by left. }
  cbn [app length] in El, Hdr, Hbl. cbn [Nat.add] in El, Hdr. rewrite El.
  destruct (Z.ltb_spec 0 (Z.of_nat (length part) + Z.of_nat (length (x :: l)))) as [_|]; [|cbn [length] in *; lia].
  assert (Hmt : Z.of_nat (length part) + Z.of_nat (length (x :: l)) - Z.of_nat (length d) = Z.of_nat (length tail)).
  { apply (f_equal length) in Hd. rewrite !length_app in Hd. cbn [length] in *. lia. }
  rewrite Hmt, Nat2Z.id. unfold move_down. rewrite Hdr, take_app_length.
  destruct (Hg (pending s')) as [Hg1 Hg2]. rewrite Hpd, app_assoc, Hg1, app_assoc.
  apply IH; [|done|done| | |].
  - rewrite length_app, length_drop, Hbl. cbn [app]. rewrite Hlen'.
    apply (f_equal length) in Hd. rewrite !length_app in Hd. rewrite <-Hlen', !length_app. cbn [length] in *. lia.
  - intros Hin. apply Hz. rewrite Hpd, app_assoc, Hd. apply elem_of_app in Hin. rewrite !elem_of_app. tauto.
  - unfold short_lines in *. rewrite Hpd, app_assoc in Hs. apply Forall_forall. intros y Hy. apply Hg2 in Hy.
    by eapply Forall_forall in Hs.
  - rewrite Hpd, length_app in Hf. cbn [length] in Hf. lia.
Qed.

(** Whatever the sizes in which the input arrives, grep prints exactly the lines that match,
    in order, and reads to the end: for an input without NUL whose lines are at most 1022
    characters long, so that each fits the buffer with its newline and the NUL. *)
Theorem grep_prints_lines (pattern : list Z) (s : S) :
  readable s -> 0 ∉ pending s -> short_lines (pending s) ->
  exists s', grep (length (pending s) + 1) pattern s = Some (grep_spec pattern (pending s), s') /\ pending s' = [].
Proof.
  intros Hr Hz Hs. unfold grep.
  apply (grep_loop_spec pattern _ [] (replicate (Z.to_nat GBUF) 0) s []);
    [apply (length_replicate (Z.to_nat GBUF) 0)|done|apply not_elem_of_nil|done|done|lia].
Qed.
End GrepLoop.

Definition demo_text : list Z := str "one" ++ [10] ++ str "two" ++ [10] ++ str "tone" ++ [10].
Lemma grep_prints_lines_witness : exists s' : arrivals,
  grep 14 (str "on") ([2%nat; 4%nat; 0%nat], demo_text) = Some (str "one" ++ [10] ++ str "tone" ++ [10], s') /\
  pending s' = [].
Proof.
  destruct (grep_prints_lines (str "on") ([2%nat; 4%nat; 0%nat], demo_text)) as (s' & E & Hp).
  - exact I.
  - intros H. vm_compute in H. by repeat (apply elem_of_cons in H as [H|H]; [discriminate H|]); apply elem_of_nil in H.
  - unfold short_lines. vm_compute. repeat constructor; discriminate.
  - exists s'. split; [exact E|exact Hp].
Defined.
