(* ===== verification/Sh.v ===== *)
(** * The shell's parser (user/sh.c)

    The command line is a byte list without NUL; the characters from its end on read as NUL.  A
    parsing routine advances a position in it ([*ps]); [panic] is the exit with a message.  A
    word is the pair of its pointers [(q, eq)] into the line.  The tree is a value: the exec
    cell that [parseexec] goes on filling while redirections already point to it is completed
    before anyone reads it, so it is modelled by the lists of arguments and redirections
    collected so far. *)

From S2P Require Import Prelude Kstring Sysfile Ulib.

Definition MAXARGS : nat := 10.
Notation word := (nat * nat)%type.

Inductive cmd :=
| EXEC (argv : list word)
| REDIR (c : cmd) (file : word) (mode fd : Z)
| PIPE (left right : cmd)
| LIST (left right : cmd)
| BACK (c : cmd).

Notation redir := (word * Z * Z)%type.
Definition redircmd (c : cmd) (r : redir) : cmd := let '(w, mode, fd) := r in REDIR c w mode fd.

Definition whitespace : list Z := [32; 9; 13; 10; 11].
Definition symbols : list Z := [60; 124; 62; 38; 59; 40; 41].
Definition is_some {A} (o : option A) : bool := match o with Some _ => true | None => false end.
Definition is_ws (c : Z) : bool := is_some (strchr whitespace c).
Definition is_word (c : Z) : bool := negb (is_ws c) && negb (is_some (strchr symbols c)).

(** How many characters a scanning loop passes. *)
Fixpoint span (f : Z -> bool) (l : list Z) : nat :=
  match l with
  | [] => 0%nat
  | c :: l' => if f c then S (span f l') else 0%nat
  end.

Section Parser.
Context (text : list Z).
Notation es := (length text).
Definition char_at (p : nat) : Z := nth p text 0.
Definition skip_ws (p : nat) : nat := (p + span is_ws (drop p text))%nat.

Definition P (A : Type) : Type := M nat A.

(** The token at [s], which is not white space: what [gettoken] returns, and where it ends. *)
Definition scan (s : nat) : Z * nat :=
  let c := char_at s in
  if c =? 0 then (0, s)
  else if (c =? 124) || (c =? 40) || (c =? 41) || (c =? 59) || (c =? 38) || (c =? 60) then (c, (s + 1)%nat)
  else if c =? 62 then if char_at (s + 1) =? 62 then (43, (s + 2)%nat) else (c, (s + 1)%nat)
  else (97, (s + span is_word (drop s text))%nat).
Definition gettoken : P (Z * word) := fun p =>
  let q := skip_ws p in
  let '(tok, eq) := scan q in
  Ok (tok, (q, eq)) (skip_ws eq).

Definition peek (toks : list Z) : P bool := fun p =>
  let s := skip_ws p in
  Ok (negb (char_at s =? 0) && is_some (strchr toks (char_at s))) s.

(** The redirections that [parseredirs] wraps around its command, the first one innermost. *)
Fixpoint parseredirs (fuel : nat) : P (list redir) :=
  match fuel with
  | O => fault "parseredirs"
  | S fuel' =>
      b ← peek [60; 62];
      if negb b then ret []
      else
        '(tok, _) ← gettoken;
        '(t, w) ← gettoken;
        panic_if (negb (t =? 97)) "missing file for redirection";;
        rs ← parseredirs fuel';
        if tok =? 60 then ret ((w, O_RDONLY, 0) :: rs)
        else if tok =? 62 then ret ((w, Z.lor (Z.lor O_WRONLY O_CREATE) O_TRUNC, 1) :: rs)
        else if tok =? 43 then ret ((w, Z.lor O_WRONLY O_CREATE, 1) :: rs)
        else ret rs
  end.

(** The argument loop of [parseexec], with [argc] arguments already there. *)
Fixpoint parseargs (fuel : nat) (argc : nat) : P (list word * list redir) :=
  match fuel with
  | O => fault "parseexec"
  | S fuel' =>
      b ← peek [124; 41; 38; 59];
      if b then ret ([], [])
      else
        '(tok, w) ← gettoken;
        if tok =? 0 then ret ([], [])
        else
          panic_if (negb (tok =? 97)) "syntax";;
          panic_if (MAXARGS <=? S argc)%nat "too many args";;
          rs ← parseredirs fuel';
          '(args, rs') ← parseargs fuel' (S argc);
          ret (w :: args, rs ++ rs')
  end.

(** The loop of [parseline] on [&]. *)
Fixpoint parseback (fuel : nat) (c : cmd) : P cmd :=
  match fuel with
  | O => fault "parseline"
  | S fuel' =>
      b ← peek [38];
      if negb b then ret c else gettoken;; parseback fuel' (BACK c)
  end.

Definition loop_fuel : nat := S (S es).

Fixpoint parseline (fuel : nat) : P cmd :=
  match fuel with
  | O => fault "parseline"
  | S fuel' =>
      c ← parsepipe fuel';
      c ← parseback loop_fuel c;
      b ← peek [59];
      if b then gettoken;; r ← parseline fuel'; ret (LIST c r) else ret c
  end
with parsepipe (fuel : nat) : P cmd :=
  match fuel with
  | O => fault "parsepipe"
  | S fuel' =>
      c ← parseexec fuel';
      b ← peek [124];
      if b then gettoken;; r ← parsepipe fuel'; ret (PIPE c r) else ret c
  end
with parseexec (fuel : nat) : P cmd :=
  match fuel with
  | O => fault "parseexec"
  | S fuel' =>
      b ← peek [40];
      if b then parseblock fuel'
      else
        rs ← parseredirs loop_fuel;
        '(args, rs') ← parseargs loop_fuel 0;
        ret (foldl redircmd (EXEC args) (rs ++ rs'))
  end
with parseblock (fuel : nat) : P cmd :=
  match fuel with
  | O => fault "parseblock"
  | S fuel' =>
      b ← peek [40];
      panic_if (negb b) "parseblock";;
      gettoken;;
      c ← parseline fuel';
      b ← peek [41];
      panic_if (negb b) "syntax - missing )";;
      gettoken;;
      rs ← parseredirs loop_fuel;
      ret (foldl redircmd c rs)
  end.

(** [parsecmd] up to the termination of the strings; each nested call consumes a character. *)
Definition parse_fuel : nat := (4 * es + 4)%nat.
Definition parse : P cmd :=
  c ← parseline parse_fuel;
  peek [];;
  s ← get;
  panic_if (negb (s =? es)%nat) "syntax";;
  ret c.
End Parser.

(** The characters that [nulterminate] overwrites, in order. *)
Fixpoint word_ends (c : cmd) : list nat :=
  match c with
  | EXEC argv => map snd argv
  | REDIR c w _ _ => word_ends c ++ [snd w]
  | PIPE l r | LIST l r => word_ends l ++ word_ends r
  | BACK c => word_ends c
  end.
Definition nulterminate (c : cmd) (buf : list Z) : list Z :=
  foldl (fun b e => <[e := 0]> b) buf (word_ends c).

(** The parser on a buffer that holds the line, its NUL and [junk]: the tree and the buffer. *)
Definition parsecmd (text junk : list Z) : M nat (cmd * list Z) :=
  c ← parse text;
  ret (c, nulterminate c (text ++ 0 :: junk)).
