(* ===== verification/Shparse.v ===== *)
(** * The shell's grammar (the theory of user/sh.c: parsecmd) *)

From S2P Require Import Prelude Kstring Sysfile Ulib Sh.

(** ** Tokens *)

Notation tok := (Z * word)%type.
(** The first character of a token that is not a word. *)
Definition tok_char (r : Z) : Z := if r =? 43 then 62 else r.
Definition hd_in (toks : list Z) (ts : list tok) : bool :=
  match ts with [] => false | (r, _) :: _ => bool_decide (tok_char r ∈ toks) end.

Lemma span_le f l : (span f l <= length l)%nat.
Proof. induction l as [|c l IH]; cbn; [done|]. destruct (f c); cbn; lia. Qed.
Lemma span_all f l : Forall (fun c => f c = true) (take (span f l) l).
Proof. induction l as [|c l IH]; cbn; [done|]. destruct (f c) eqn:E; cbn; by constructor. Qed.
Lemma span_stop f l : (span f l < length l)%nat -> f (nth (span f l) l 0) = false.
Proof. induction l as [|c l IH]; cbn; [lia|]. destruct (f c) eqn:E; cbn; [|done]. intros. apply IH. lia. Qed.
Lemma span_drop f l : span f (drop (span f l) l) = 0%nat.
Proof. induction l as [|c l IH]; cbn; [done|]. destruct (f c) eqn:E; cbn; [done|]. by rewrite E. Qed.

Section Lexer.
Context (text : list Z) (no_nul : 0 ∉ text).
Notation es := (length text).
Notation char_at := (char_at text).
Notation skip_ws := (skip_ws text).
Notation scan := (scan text).
Notation gettoken := (gettoken text).
Notation peek := (peek text).

Lemma char_at_nul p : char_at p = 0 <-> (es <= p)%nat.
Proof.
  unfold Sh.char_at. split.
  - intros H. destruct (decide (p < es)%nat) as [Hp|]; [|lia]. exfalso. apply no_nul. rewrite <-H.
    apply list_elem_of_In. by apply nth_In.
  - intros H. by apply nth_overflow.
Qed.

Lemma skip_ws_idem p : skip_ws (skip_ws p) = skip_ws p.
Proof. unfold Sh.skip_ws. rewrite <-drop_drop, span_drop. lia. Qed.
Lemma skip_ws_range p : (p <= es)%nat -> (p <= skip_ws p <= es)%nat.
Proof. intros Hp. unfold Sh.skip_ws. pose proof (span_le is_ws (drop p text)) as H. rewrite length_drop in H. lia. Qed.

Lemma nth_drop_at p k : nth k (drop p text) 0 = char_at (p + k).
Proof. unfold Sh.char_at. rewrite nth_lookup, lookup_drop. by rewrite <-nth_lookup. Qed.

Lemma skip_ws_stop p : is_ws (char_at (skip_ws p)) = false.
Proof.
  destruct (decide (span is_ws (drop p text) < length (drop p text))%nat) as [H|H].
  - pose proof (span_stop is_ws _ H) as E. rewrite nth_drop_at in E. exact E.
  - assert (char_at (skip_ws p) = 0) as ->; [|done]. apply char_at_nul.
    unfold Sh.skip_ws. rewrite length_drop in H. lia.
Qed.

(** The three kinds of token. *)
Lemma scan_cases s : is_ws (char_at s) = false -> let '(r, e) := scan s in
  (r = 0 /\ char_at s = 0 /\ e = s) \/
  (r <> 0 /\ r <> 97 /\ char_at s ∈ symbols /\ tok_char r = char_at s /\ (s < e <= es)%nat) \/
  (r = 97 /\ (s < e <= es)%nat /\ char_at s ∉ symbols /\
   (forall k, (s <= k < e)%nat -> is_word (char_at k) = true) /\ is_word (char_at e) && negb (char_at e =? 0) = false).
Proof.
  intros Hws. unfold Sh.scan. destruct (Z.eqb_spec (char_at s) 0) as [E0|E0]; [by left|].
  assert (Hs : (s < es)%nat) by (destruct (decide (s < es)%nat); [done|]; exfalso; apply E0, char_at_nul; lia).
  destruct ((char_at s =? 124) || (char_at s =? 40) || (char_at s =? 41) || (char_at s =? 59) || (char_at s =? 38) || (char_at s =? 60)) eqn:Esym.
  - right. left. rewrite !orb_true_iff, !Z.eqb_eq in Esym. split; [done|]. split; [lia|].
    split; [unfold symbols; rewrite !elem_of_cons; tauto|]. split; [|lia].
    unfold tok_char. destruct (Z.eqb_spec (char_at s) 43); lia.
  - rewrite !orb_false_iff, !Z.eqb_neq in Esym. destruct (Z.eqb_spec (char_at s) 62) as [Egt|Egt].
    + destruct (Z.eqb_spec (char_at (s + 1)) 62) as [E2|E2]; right; left.
      * split; [done|]. split; [done|]. split; [rewrite Egt; unfold symbols; rewrite !elem_of_cons; tauto|]. split; [by rewrite Egt|].
        split; [lia|]. destruct (decide (s + 1 < es)%nat); [lia|]. assert (char_at (s + 1) = 0); [|congruence]. apply char_at_nul. lia.
      * rewrite Egt. split; [done|]. split; [done|]. split; [unfold symbols; rewrite !elem_of_cons; tauto|]. split; [done|lia].
    + right. right. split; [done|].
      assert (Hns : char_at s ∉ symbols) by (unfold symbols; rewrite !elem_of_cons, elem_of_nil; lia).
      assert (Hw : is_word (char_at s) = true).
      { unfold is_word. rewrite Hws. cbn [negb andb]. destruct (strchr symbols (char_at s)) eqn:E; [|done]. exfalso. apply Hns.
        apply strchr_in; [|done|by rewrite E]. unfold symbols. rewrite !elem_of_cons, elem_of_nil. lia. }
      pose proof (span_le is_word (drop s text)) as Hle. rewrite length_drop in Hle.
      assert (H1 : (0 < span is_word (drop s text))%nat).
      { rewrite (drop_S text (char_at s) s); [cbn; rewrite Hw; lia|]. unfold Sh.char_at.
        by rewrite nth_lookup, list_lookup_lookup_total_lt by done. }
      split; [lia|]. split; [done|]. split.
      * intros k Hk. pose proof (span_all is_word (drop s text)) as Ha. eapply (Forall_lookup_1 _ _ (k - s)%nat) in Ha; [exact Ha|].
        rewrite lookup_take, lookup_drop. replace (s + (k - s))%nat with k by lia.
        unfold Sh.char_at. rewrite nth_lookup, list_lookup_lookup_total_lt by lia. by rewrite decide_True by lia.
      * destruct (decide (s + span is_word (drop s text) < es)%nat) as [Hlt|Hge].
        -- assert (Hst : (span is_word (drop s text) < length (drop s text))%nat) by (rewrite length_drop; lia).
           apply span_stop in Hst. rewrite nth_drop_at in Hst. by rewrite Hst.
        -- assert (char_at (s + span is_word (drop s text)) = 0) as ->; [apply char_at_nul; lia|]. by rewrite andb_false_r.
Qed.

(** The tokens from a position on. *)
Inductive lexes : nat -> list tok -> Prop :=
| lexes_end p w p' : (p <= es)%nat -> gettoken p = Ok (0, w) p' -> lexes p []
| lexes_tok p r w p' ts : (p <= es)%nat -> gettoken p = Ok (r, w) p' -> r <> 0 -> lexes p' ts -> lexes p ((r, w) :: ts).

Lemma gettoken_skip p : gettoken (skip_ws p) = gettoken p.
Proof. unfold Sh.gettoken. by rewrite skip_ws_idem. Qed.
Lemma lexes_skip p ts : lexes p ts -> lexes (skip_ws p) ts.
Proof. destruct 1; econstructor; rewrite ?gettoken_skip; try apply skip_ws_range; eauto. Qed.
Lemma lexes_le p ts : lexes p ts -> (p <= es)%nat.
Proof. by destruct 1. Qed.

Lemma lexes_total p : (p <= es)%nat -> exists ts, lexes p ts /\ (length ts <= es - p)%nat.
Proof.
  remember (es - p)%nat as n eqn:En. revert p En. induction n as [n IH] using lt_wf_ind. intros p En Hp.
  pose proof (skip_ws_range p Hp) as Hq. pose proof (scan_cases (skip_ws p) (skip_ws_stop p)) as Hs.
  destruct (scan (skip_ws p)) as [r e] eqn:Es.
  assert (Eg : gettoken p = Ok (r, (skip_ws p, e)) (skip_ws e)) by (unfold Sh.gettoken; by rewrite Es).
  assert (Hcase : r = 0 \/ (r <> 0 /\ (skip_ws p < e <= es)%nat)).
  { destruct Hs as [(-> & _ & _)|[(H & _ & _ & _ & He)|(-> & He & _)]]; [by left|by right..]. }
  destruct Hcase as [->|[Hr He]].
  - exists []. split; [by econstructor|]. cbn. lia.
  - pose proof (skip_ws_range e ltac:(lia)) as He'.
    destruct (IH (es - skip_ws e)%nat ltac:(lia) (skip_ws e) eq_refl ltac:(lia)) as (ts & Hts & Hlen).
    exists ((r, (skip_ws p, e)) :: ts). split; [by econstructor|]. cbn [length]. lia.
Qed.

(** What [gettoken] and [peek] do to the tokens. *)
Lemma gettoken_cons p r w ts : lexes p ((r, w) :: ts) -> exists p', gettoken p = Ok (r, w) p' /\ lexes p' ts.
Proof. inversion 1; subst. eauto. Qed.
Lemma gettoken_nil p : lexes p [] -> exists w p', gettoken p = Ok (0, w) p' /\ lexes p' [].
Proof.
  inversion 1 as [? w p' _ E|]; subst. exists w, p'. split; [done|]. unfold Sh.gettoken in E.
  pose proof (scan_cases (skip_ws p) (skip_ws_stop p)) as Hs. destruct (scan (skip_ws p)) as [r e] eqn:Es.
  injection E as -> <- <-. destruct Hs as [(_ & _ & ->)|[(? & _)|(? & _)]]; [|done..].
  rewrite skip_ws_idem. by apply lexes_skip.
Qed.

Lemma peek_spec toks p ts : toks ⊆ symbols -> lexes p ts ->
  peek toks p = Ok (hd_in toks ts) (skip_ws p) /\ lexes (skip_ws p) ts.
Proof.
  intros Htoks H. split; [|by apply lexes_skip]. unfold Sh.peek. f_equal.
  pose proof (scan_cases (skip_ws p) (skip_ws_stop p)) as Hs. destruct (scan (skip_ws p)) as [r e] eqn:Es.
  assert (Eg : gettoken p = Ok (r, (skip_ws p, e)) (skip_ws e)) by (unfold Sh.gettoken; by rewrite Es).
  assert (Hz : 0 ∉ toks) by (intros ?%Htoks; unfold symbols in *; rewrite !elem_of_cons, elem_of_nil in *; lia).
  assert (Hin : forall c, c <> 0 -> is_some (strchr toks c) = bool_decide (c ∈ toks)).
  { intros c Hc. apply eq_true_iff_eq. rewrite bool_decide_eq_true, <-strchr_in by done. by destruct (strchr toks c). }
  inversion H as [? w p' _ E Ep Ets|? r' w p' ts' _ E Hr Hl Ep Ets]; subst; rewrite E in Eg; injection Eg; intros; subst r; cbn [hd_in].
  - destruct Hs as [(_ & E0 & _)|[(Hr & _)|(Hr & _)]]; [by rewrite E0|by destruct Hr|discriminate Hr].
  - destruct Hs as [(? & _)|[(_ & _ & Hc & Ht & _)|(-> & _ & Hc & _)]]; [done|..].
    + assert (Hc0 : char_at (skip_ws p) <> 0) by (intros E0; rewrite E0 in Hc; unfold symbols in Hc; rewrite !elem_of_cons, elem_of_nil in Hc; lia).
      destruct (Z.eqb_spec (char_at (skip_ws p)) 0); [done|]. rewrite Hin by done. by rewrite Ht.
    + rewrite (bool_decide_false (tok_char 97 ∈ toks)).
      * destruct (Z.eqb_spec (char_at (skip_ws p)) 0); [done|]. rewrite Hin by done. apply bool_decide_false. by intros ?%Htoks.
      * intros ?%Htoks. unfold symbols in *. rewrite !elem_of_cons, elem_of_nil in *. cbn in *. lia.
Qed.
End Lexer.

(** ** The grammar, with the trees it stands for

    line     = pipe "&"* [";" line]
    pipe     = simple ["|" pipe]
    simple   = redirs (word redirs)*  with at most nine words  |  "(" line ")" redirs
    redirs   = (("<" | ">" | ">>") word)*  *)
Definition redir_kind (r : Z) : option (Z * Z) :=
  if r =? 60 then Some (O_RDONLY, 0)
  else if r =? 62 then Some (Z.lor (Z.lor O_WRONLY O_CREATE) O_TRUNC, 1)
  else if r =? 43 then Some (Z.lor O_WRONLY O_CREATE, 1)
  else None.

Inductive d_redirs : list tok -> list redir -> Prop :=
| d_redirs_nil : d_redirs [] []
| d_redirs_cons r v w mode fd ts rs : redir_kind r = Some (mode, fd) -> d_redirs ts rs ->
    d_redirs ((r, v) :: (97, w) :: ts) ((w, mode, fd) :: rs).

Inductive d_args : list tok -> list word -> list redir -> Prop :=
| d_args_nil : d_args [] [] []
| d_args_cons w ts rs ts' ws rs' : d_redirs ts rs -> d_args ts' ws rs' ->
    d_args ((97, w) :: ts ++ ts') (w :: ws) (rs ++ rs').

Inductive d_line : list tok -> cmd -> Prop :=
| d_line_one ts c : d_back ts c -> d_line ts c
| d_line_seq ts c w ts' c' : d_back ts c -> d_line ts' c' -> d_line (ts ++ (59, w) :: ts') (LIST c c')
with d_back : list tok -> cmd -> Prop :=
| d_back_pipe ts c : d_pipe ts c -> d_back ts c
| d_back_amp ts c w : d_back ts c -> d_back (ts ++ [(38, w)]) (BACK c)
with d_pipe : list tok -> cmd -> Prop :=
| d_pipe_one ts c : d_simple ts c -> d_pipe ts c
| d_pipe_bar ts c w ts' c' : d_simple ts c -> d_pipe ts' c' -> d_pipe (ts ++ (124, w) :: ts') (PIPE c c')
with d_simple : list tok -> cmd -> Prop :=
| d_exec ts rs ts' ws rs' : d_redirs ts rs -> d_args ts' ws rs' -> (length ws < MAXARGS)%nat ->
    d_simple (ts ++ ts') (foldl redircmd (EXEC ws) (rs ++ rs'))
| d_block v w ts c ts' rs : d_line ts c -> d_redirs ts' rs ->
    d_simple ((40, v) :: ts ++ (41, w) :: ts') (foldl redircmd c rs).

Scheme d_line_mind := Induction for d_line Sort Prop
with d_back_mind := Induction for d_back Sort Prop
with d_pipe_mind := Induction for d_pipe Sort Prop
with d_simple_mind := Induction for d_simple Sort Prop.
Combined Scheme d_mind from d_line_mind, d_back_mind, d_pipe_mind, d_simple_mind.

(** A routine that returns or exits with a message, and what it returns. *)
Definition safe {A} (r : res nat A) (Q : A -> nat -> Prop) : Prop :=
  match r with Ok a p => Q a p | Panic _ => True | _ => False end.
Lemma safe_bind {A B} (m : M nat A) (k : A -> M nat B) p Q :
  safe (m p) (fun a p' => safe (k a p') Q) -> safe (bind m k p) Q.
Proof. unfold bind. by destruct (m p). Qed.
Lemma safe_mono {A} (r : res nat A) (Q Q' : A -> nat -> Prop) :
  safe r Q -> (forall a p, Q a p -> Q' a p) -> safe r Q'.
Proof. destruct r; cbn; eauto. Qed.
Lemma safe_panic {B} b e (k : unit -> M nat B) p Q :
  (b = false -> safe (k tt p) Q) -> safe (bind (panic_if b e) k p) Q.
Proof. intros H. unfold bind, panic_if. destruct b; [done|]. by apply H. Qed.

Section Parsing.
Context (text : list Z) (no_nul : 0 ∉ text).
Notation es := (length text).
Notation lexes := (lexes text).

(** The tokens read, and the rest. *)
Definition reads {A} (D : list tok -> A -> Prop) (ts : list tok) (a : A) (p' : nat) : Prop :=
  exists ts1 ts2, ts = ts1 ++ ts2 /\ D ts1 a /\ lexes p' ts2.

Lemma peek_then {B} toks (k : bool -> M nat B) p ts Q : bool_decide (toks ⊆ symbols) = true -> lexes p ts ->
  (forall p', lexes p' ts -> safe (k (hd_in toks ts) p') Q) -> safe (bind (peek text toks) k p) Q.
Proof.
  intros Ht%bool_decide_eq_true H Hk. destruct (peek_spec text no_nul toks p ts Ht H) as [E H'].
  rewrite (bind_ok _ _ _ _ _ E). by apply Hk.
Qed.
Lemma token_then {B} (k : tok -> M nat B) p r w ts Q : lexes p ((r, w) :: ts) ->
  (forall p', lexes p' ts -> safe (k (r, w) p') Q) -> safe (bind (gettoken text) k p) Q.
Proof.
  intros H Hk. destruct (gettoken_cons text _ _ _ _ H) as (p' & E & H'). rewrite (bind_ok _ _ _ _ _ E). by apply Hk.
Qed.
Lemma end_then {B} (k : tok -> M nat B) p Q : lexes p [] ->
  (forall w p', lexes p' [] -> safe (k (0, w) p') Q) -> safe (bind (gettoken text) k p) Q.
Proof.
  intros H Hk. destruct (gettoken_nil text no_nul _ H) as (w & p' & E & H'). rewrite (bind_ok _ _ _ _ _ E). by apply Hk.
Qed.

Lemma hd_in_cons toks r w ts : hd_in toks ((r, w) :: ts) = true <-> tok_char r ∈ toks.
Proof. apply bool_decide_eq_true. Qed.
Lemma hd_in_inv toks ts : hd_in toks ts = true -> exists r w ts', ts = (r, w) :: ts' /\ tok_char r ∈ toks.
Proof. destruct ts as [|[r w] ts]; [done|]. intros H%hd_in_cons. eauto. Qed.

Lemma redir_kind_hd r : tok_char r ∈ [60; 62] <-> exists m, redir_kind r = Some m.
Proof.
  unfold tok_char, redir_kind. rewrite !elem_of_cons, elem_of_nil.
  destruct (Z.eqb_spec r 43) as [->|]; [cbn; split; [eauto|lia]|].
  destruct (Z.eqb_spec r 60) as [->|]; [split; [eauto|lia]|]. destruct (Z.eqb_spec r 62) as [->|]; [split; [eauto|lia]|].
  split; [lia|]. by intros [m ?].
Qed.

Lemma parseredirs_safe fuel p ts : lexes p ts -> (length ts < fuel)%nat ->
  safe (parseredirs text fuel p) (reads d_redirs ts).
Proof.
  revert p ts. induction fuel as [|fuel IH]; intros p ts H Hf; [lia|]. cbn [parseredirs].
  apply (peek_then _ _ _ ts); [done|done|]. intros p1 H1.
  destruct (hd_in [60; 62] ts) eqn:Eh; cbn [negb].
  2: { exists [], ts. split; [done|]. split; [constructor|done]. }
  apply hd_in_inv in Eh as (r & w & ts' & -> & Hr). apply redir_kind_hd in Hr as [[m fd] Hr].
  eapply token_then; [done|]. intros p2 H2. cbn beta iota. destruct ts' as [|[t w'] ts'].
  - apply end_then; [done|]. intros ? ? _. cbn. exact I.
  - eapply token_then; [done|]. intros p3 H3. cbn beta iota. apply safe_panic. intros Ht%negb_false_iff%Z.eqb_eq. subst t.
    apply safe_bind. eapply safe_mono; [apply (IH _ ts' H3); cbn in Hf; lia|].
    intros rs p4 (ts1 & ts2 & -> & Hd & Hl).
    assert (Hfin : reads d_redirs ((r, w) :: (97, w') :: ts1 ++ ts2) ((w', m, fd) :: rs) p4).
    { exists ((r, w) :: (97, w') :: ts1), ts2. split; [done|]. split; [by econstructor|done]. }
    unfold redir_kind in Hr. destruct (r =? 60); [injection Hr as <- <-; exact Hfin|].
    destruct (r =? 62); [injection Hr as <- <-; exact Hfin|]. destruct (r =? 43); [injection Hr as <- <-; exact Hfin|done].
Qed.

Lemma parseargs_safe fuel argc p ts : lexes p ts -> (length ts < fuel)%nat ->
  safe (parseargs text fuel argc p)
    (reads (fun ts1 '(ws, rs) => d_args ts1 ws rs /\ (ws = [] \/ argc + length ws < MAXARGS)%nat) ts).
Proof.
  revert argc p ts. induction fuel as [|fuel IH]; intros argc p ts H Hf; [lia|]. cbn [parseargs].
  apply (peek_then _ _ _ ts); [done|done|]. intros p1 H1.
  assert (Hnil : forall p' ts', lexes p' ts' -> reads (fun ts1 '(ws, rs) => d_args ts1 ws rs /\ (ws = [] \/ argc + length ws < MAXARGS)%nat)
    ts' ([], []) p').
  { intros p' ts' Hl. exists [], ts'. split; [done|]. split; [split; [constructor|by left]|done]. }
  destruct (hd_in [124; 41; 38; 59] ts); [by apply Hnil|]. destruct ts as [|[r w] ts].
  { apply end_then; [done|]. intros w p2 H2. by apply Hnil. }
  pose proof H1 as H1'. inversion H1' as [|? ? ? ? ? _ _ Hr0 _]; subst.
  eapply token_then; [done|]. intros p2 H2. cbn beta iota. destruct (Z.eqb_spec r 0); [done|].
  apply safe_panic. intros Ht%negb_false_iff%Z.eqb_eq. subst r. apply safe_panic. intros Hmax%Nat.leb_gt.
  cbn [length] in Hf. apply safe_bind. eapply safe_mono; [apply (parseredirs_safe _ _ ts H2); lia|].
  intros rs p3 (ts1 & ts2 & -> & Hd & Hl). rewrite length_app in Hf.
  apply safe_bind. eapply safe_mono; [apply (IH (S argc) _ ts2 Hl); lia|].
  intros [ws rs'] p4 (ts3 & ts4 & -> & [Ha Hn] & Hl'). exists ((97, w) :: ts1 ++ ts3), ts4.
  split; [cbn; by rewrite <-app_assoc|]. split; [|done]. split; [by constructor|]. right. cbn [length].
  destruct Hn as [->|Hn]; cbn [length]; lia.
Qed.

Lemma parseback_safe fuel c p ts ts0 : lexes p ts -> (length ts < fuel)%nat -> d_back ts0 c ->
  safe (parseback text fuel c p) (reads (fun ts1 c' => d_back (ts0 ++ ts1) c') ts).
Proof.
  revert c p ts ts0. induction fuel as [|fuel IH]; intros c p ts ts0 H Hf Hc; [lia|]. cbn [parseback].
  apply (peek_then _ _ _ ts); [done|done|]. intros p1 H1. destruct (hd_in [38] ts) eqn:Eh; cbn [negb].
  2: { exists [], ts. split; [done|]. by rewrite app_nil_r. }
  apply hd_in_inv in Eh as (r & w & ts' & -> & Hr). eapply token_then; [done|]. intros p2 H2. cbn [length] in Hf.
  assert (r = 38) as ->.
  { apply list_elem_of_singleton in Hr. unfold tok_char in Hr. destruct (r =? 43); [discriminate Hr|done]. }
  eapply safe_mono; [apply (IH (BACK c) _ ts' (ts0 ++ [(38, w)]) H2); [lia|by constructor]|].
  intros c' p3 (ts1 & ts2 & -> & Hd & Hl). exists ((38, w) :: ts1), ts2. split; [done|]. split; [|done]. by rewrite <-app_assoc in Hd.
Qed.

Lemma single_tok r x w ts : hd_in [x] ((r, w) :: ts) = true -> x <> 62 -> r = x.
Proof.
  intros Hr%hd_in_cons Hx. apply list_elem_of_singleton in Hr. unfold tok_char in Hr. destruct (r =? 43); congruence.
Qed.

Lemma parse_safe fuel : forall p ts, lexes p ts -> (length ts <= es)%nat ->
  ((4 * length ts + 4 <= fuel)%nat -> safe (parseline text fuel p) (reads d_line ts)) /\
  ((4 * length ts + 3 <= fuel)%nat -> safe (parsepipe text fuel p) (reads d_pipe ts)) /\
  ((4 * length ts + 2 <= fuel)%nat -> safe (parseexec text fuel p) (reads d_simple ts)) /\
  ((4 * length ts + 1 <= fuel)%nat -> safe (parseblock text fuel p) (reads d_simple ts)).
Proof.
  induction fuel as [|fuel IH]; intros p ts H Hes; [repeat split; lia|]. split; [|split; [|split]]; intros Hf.
  - cbn [parseline]. apply safe_bind. eapply safe_mono; [apply (IH p ts H Hes); lia|].
    intros c p1 (ts1 & ts2 & -> & Hc & Hl). rewrite length_app in *. apply safe_bind.
    eapply safe_mono; [apply (parseback_safe _ _ _ ts2 ts1 Hl); [unfold loop_fuel; lia|by constructor]|].
    intros c' p2 (ts3 & ts4 & -> & Hc' & Hl'). rewrite length_app in *.
    apply (peek_then _ _ _ ts4); [done|done|]. intros p3 H3. destruct (hd_in [59] ts4) eqn:Eh.
    + destruct ts4 as [|[r w] ts4]; [done|]. apply single_tok in Eh as ->; [|done]. cbn [length] in *.
      eapply token_then; [done|]. intros p4 H4. apply safe_bind. eapply safe_mono; [apply (IH p4 ts4 H4); lia|].
      intros c'' p5 (ts5 & ts6 & -> & Hc'' & Hl''). exists ((ts1 ++ ts3) ++ (59, w) :: ts5), ts6.
      split; [by rewrite <-!app_assoc|]. split; [by constructor|done].
    + exists (ts1 ++ ts3), ts4. split; [by rewrite app_assoc|]. split; [by constructor|done].
  - cbn [parsepipe]. apply safe_bind. eapply safe_mono; [apply (IH p ts H Hes); lia|].
    intros c p1 (ts1 & ts2 & -> & Hc & Hl). rewrite length_app in *.
    apply (peek_then _ _ _ ts2); [done|done|]. intros p3 H3. destruct (hd_in [124] ts2) eqn:Eh.
    + destruct ts2 as [|[r w] ts2]; [done|]. apply single_tok in Eh as ->; [|done]. cbn [length] in *.
      eapply token_then; [done|]. intros p4 H4. apply safe_bind. eapply safe_mono; [apply (IH p4 ts2 H4); lia|].
      intros c'' p5 (ts5 & ts6 & -> & Hc'' & Hl''). exists (ts1 ++ (124, w) :: ts5), ts6.
      split; [by rewrite <-!app_assoc|]. split; [by constructor|done].
    + exists ts1, ts2. split; [done|]. split; [by constructor|done].
  - cbn [parseexec]. apply (peek_then _ _ _ ts); [done|done|]. intros p1 H1. destruct (hd_in [40] ts).
    { apply (IH p1 ts H1 Hes). lia. }
    apply safe_bind. eapply safe_mono; [apply (parseredirs_safe _ _ ts H1); unfold loop_fuel; lia|].
    intros rs p3 (ts1 & ts2 & -> & Hd & Hl). rewrite length_app in *.
    apply safe_bind. eapply safe_mono; [apply (parseargs_safe _ 0 _ ts2 Hl); unfold loop_fuel; lia|].
    intros [ws rs'] p4 (ts3 & ts4 & -> & [Ha Hn] & Hl'). exists (ts1 ++ ts3), ts4.
    split; [by rewrite app_assoc|]. split; [|done]. constructor; [done|done|]. destruct Hn as [->|Hn]; [cbn; unfold MAXARGS; lia|done].
  - cbn [parseblock]. apply (peek_then _ _ _ ts); [done|done|]. intros p1 H1. apply safe_panic. intros Eh%negb_false_iff.
    destruct ts as [|[r w] ts]; [done|]. apply single_tok in Eh as ->; [|done]. cbn [length] in *.
    eapply token_then; [done|]. intros p2 H2. apply safe_bind. eapply safe_mono; [apply (IH p2 ts H2); lia|].
    intros c p3 (ts1 & ts2 & -> & Hc & Hl). rewrite length_app in *.
    apply (peek_then _ _ _ ts2); [done|done|]. intros p4 H4. apply safe_panic. intros Eh%negb_false_iff.
    destruct ts2 as [|[r v] ts2]; [done|]. apply single_tok in Eh as ->; [|done]. cbn [length] in *.
    eapply token_then; [done|]. intros p5 H5. apply safe_bind.
    eapply safe_mono; [apply (parseredirs_safe _ _ ts2 H5); unfold loop_fuel; lia|].
    intros rs p6 (ts3 & ts4 & -> & Hd & Hl'). exists ((40, w) :: ts1 ++ (41, v) :: ts3), ts4.
    split; [cbn; by rewrite <-app_assoc|]. split; [by constructor|done].
Qed.

(** *** Every derivation is found *)

(** Evaluates the test of the next token. *)
Ltac hd_is b tac :=
  match goal with |- context [hd_in ?toks ?ts] =>
    let E := fresh in assert (E : hd_in toks ts = b) by tac; rewrite E; clear E end.


Definition runs {A} (r : res nat A) (a : A) (ts : list tok) : Prop := exists p, r = Ok a p /\ lexes p ts.
Lemma parses_bind {A B} (m : M nat A) (k : A -> M nat B) p a b ts ts' :
  runs (m p) a ts -> (forall p', lexes p' ts -> runs (k a p') b ts') -> runs (bind m k p) b ts'.
Proof. intros (p' & E & H) Hk. rewrite (bind_ok _ _ _ _ _ E). by apply Hk. Qed.
Lemma runs_peek {B} toks (k : bool -> M nat B) p ts b ts' : bool_decide (toks ⊆ symbols) = true -> lexes p ts ->
  (forall p', lexes p' ts -> runs (k (hd_in toks ts) p') b ts') -> runs (bind (peek text toks) k p) b ts'.
Proof.
  intros Ht%bool_decide_eq_true H. destruct (peek_spec text no_nul toks p ts Ht H) as [E H']. apply parses_bind. by exists (skip_ws text p).
Qed.
Lemma runs_token {B} (k : tok -> M nat B) p r w ts b ts' : lexes p ((r, w) :: ts) ->
  (forall p', lexes p' ts -> runs (k (r, w) p') b ts') -> runs (bind (gettoken text) k p) b ts'.
Proof. intros H. destruct (gettoken_cons text _ _ _ _ H) as (p' & E & H'). apply parses_bind. by exists p'. Qed.
Lemma runs_ret {A} (a : A) p ts : lexes p ts -> runs (ret a p) a ts.
Proof. intros H. by exists p. Qed.

(** What may follow a phrase. *)
Definition ends (follow : list Z) (ts : list tok) : Prop := ts = [] \/ hd_in follow ts = true.
Lemma ends_not follow toks ts : ends follow ts -> bool_decide (Forall (fun x => x ∉ toks) follow) = true -> hd_in toks ts = false.
Proof.
  intros [->|H] Hd%bool_decide_eq_true; [done|]. apply hd_in_inv in H as (r & w & ts' & -> & Hr). apply bool_decide_false.
  intros Hin. eapply Forall_forall in Hd; [|exact Hr]. done.
Qed.
Lemma ends_mono follow follow' ts : ends follow ts -> bool_decide (follow ⊆ follow') = true -> ends follow' ts.
Proof.
  intros [->|H] Hs%bool_decide_eq_true; [by left|]. right. apply hd_in_inv in H as (r & w & ts' & -> & Hr).
  apply hd_in_cons. by apply Hs.
Qed.
Lemma ends_cons follow r w ts : bool_decide (tok_char r ∈ follow) = true -> ends follow ((r, w) :: ts).
Proof. by right. Qed.

Lemma parseredirs_runs fuel p ts1 rs ts2 : d_redirs ts1 rs -> lexes p (ts1 ++ ts2) -> hd_in [60; 62] ts2 = false ->
  (length ts1 < fuel)%nat -> runs (parseredirs text fuel p) rs ts2.
Proof.
  intros Hd. revert fuel p. induction Hd as [|r v w mode fd ts rs Hk Hd IH]; intros fuel p H Hh Hf; (destruct fuel as [|fuel]; [lia|]);
    cbn [parseredirs].
  - apply (runs_peek _ _ _ ts2); [done|done|]. intros p1 H1. rewrite Hh. by apply runs_ret.
  - cbn [app] in H. eapply runs_peek; [done|exact H|]. intros p1 H1.
    hd_is true ltac:(apply hd_in_cons, redir_kind_hd; eauto). cbn [negb].
    eapply runs_token; [done|]. intros p2 H2. cbn beta iota. eapply runs_token; [done|]. intros p3 H3. cbn beta iota.
    cbn [Z.eqb Pos.eqb negb]. unfold panic_if. eapply parses_bind; [by apply runs_ret|]. intros p4 H4.
    eapply parses_bind; [apply IH; [done|done|cbn in Hf; lia]|]. intros p5 H5. unfold redir_kind in Hk.
    destruct (r =? 60); [injection Hk as <- <-; by apply runs_ret|].
    destruct (r =? 62); [injection Hk as <- <-; by apply runs_ret|]. destruct (r =? 43); [injection Hk as <- <-; by apply runs_ret|done].
Qed.

Lemma parseargs_runs fuel argc p ts1 ws rs ts2 : d_args ts1 ws rs -> lexes p (ts1 ++ ts2) -> ends [124; 41; 38; 59] ts2 ->
  (length ts1 < fuel)%nat -> (argc + length ws < MAXARGS)%nat -> runs (parseargs text fuel argc p) (ws, rs) ts2.
Proof.
  intros Hd. revert fuel p argc. induction Hd as [|w ts rs ts' ws rs' Hr Hd IH]; intros fuel p argc H He Hf Hn; (destruct fuel as [|fuel]; [lia|]);
    cbn [parseargs].
  - apply (runs_peek _ _ _ ts2); [done|done|]. intros p1 H1. destruct He as [->|He].
    + destruct (gettoken_nil text no_nul _ H1) as (w & p' & E & H'). cbn [hd_in]. apply (parses_bind _ _ _ (0, w) _ []); [by exists p'|].
      intros p2 H2. by apply runs_ret.
    + rewrite He. by apply runs_ret.
  - cbn [app] in H. rewrite <-app_assoc in H. eapply runs_peek; [done|exact H|]. intros p1 H1.
    hd_is false ltac:(done).
    eapply runs_token; [done|]. intros p2 H2. cbn beta iota. cbn [Z.eqb Pos.eqb negb]. unfold panic_if at 1.
    eapply parses_bind; [by apply runs_ret|]. intros p3 H3. cbn [length] in *. rewrite length_app in Hf.
    assert ((MAXARGS <=? S argc)%nat = false) as -> by (apply Nat.leb_gt; lia). unfold panic_if.
    eapply parses_bind; [by apply runs_ret|]. intros p4 H4.
    assert (Hh : hd_in [60; 62] (ts' ++ ts2) = false) by (destruct Hd; cbn [app]; [by apply (ends_not [124; 41; 38; 59])|done]).
    eapply parses_bind; [eapply parseredirs_runs; [done|done|done|lia]|]. intros p5 H5.
    eapply parses_bind; [apply IH; [done|done|lia|lia]|]. intros p6 H6. by apply runs_ret.
Qed.

Lemma parseback_runs fuel c p ws ts2 : lexes p (map (pair 38) ws ++ ts2) -> hd_in [38] ts2 = false -> (length ws < fuel)%nat ->
  runs (parseback text fuel c p) (Nat.iter (length ws) BACK c) ts2.
Proof.
  revert fuel c p. induction ws as [|w ws IH]; intros fuel c p H Hh Hf; (destruct fuel as [|fuel]; [cbn in *; lia|]); cbn [parseback].
  - apply (runs_peek _ _ _ ts2); [done|done|]. intros p1 H1. rewrite Hh. by apply runs_ret.
  - cbn [map app] in H. eapply runs_peek; [done|exact H|]. intros p1 H1.
    hd_is true ltac:(done). cbn [negb].
    eapply runs_token; [done|]. intros p2 H2. cbn [length]. rewrite Nat.iter_succ_r. apply IH; [done|done|cbn in Hf; lia].
Qed.

(** The routine finds the phrase [ts] with the tree [c], whatever may follow it. *)
Definition finds (routine : nat -> P cmd) (extra : nat) (follow : list Z) (ts : list tok) (c : cmd) : Prop :=
  forall fuel p ts2, lexes p (ts ++ ts2) -> ends follow ts2 -> (length ts <= es)%nat ->
    (4 * length ts + extra <= fuel)%nat -> runs (routine fuel p) c ts2.
Notation finds_line := (finds (parseline text) 4 [41]).
Notation finds_pipe := (finds (parsepipe text) 3 [41; 38; 59]).
Notation finds_simple := (finds (parseexec text) 2 [124; 41; 38; 59]).
Definition finds_back (ts : list tok) (c : cmd) : Prop :=
  exists ts0 c0 ws, ts = ts0 ++ map (pair 38) ws /\ c = Nat.iter (length ws) BACK c0 /\ finds_pipe ts0 c0.

Lemma finds_back_line ts c fuel p ts2 : finds_back ts c -> lexes p (ts ++ ts2) -> ends [41; 59] ts2 -> (length ts <= es)%nat ->
  (4 * length ts + 3 <= fuel)%nat -> forall k (d : cmd) ts3,
  (forall p', lexes p' ts2 -> runs (k c p') d ts3) ->
  runs (bind (parsepipe text fuel) (fun c => bind (parseback text (loop_fuel text) c) k) p) d ts3.
Proof.
  intros (ts0 & c0 & ws & -> & -> & Hp) H He Hes Hf k d ts3 Hk. rewrite length_app, length_map in *. rewrite <-app_assoc in H.
  eapply parses_bind; [apply (Hp fuel p _ H); [|lia|lia]|].
  - destruct ws as [|w ws]; [|by apply ends_cons]. by apply (ends_mono [41; 59]).
  - intros p1 H1. eapply parses_bind; [apply parseback_runs; [done| |unfold loop_fuel; lia]|done]. by apply (ends_not [41; 59]).
Qed.

Lemma parse_complete :
  (forall ts c, d_line ts c -> finds_line ts c) /\ (forall ts c, d_back ts c -> finds_back ts c) /\
  (forall ts c, d_pipe ts c -> finds_pipe ts c) /\ (forall ts c, d_simple ts c -> finds_simple ts c).
Proof.
  apply d_mind.
  - intros ts c _ Hb fuel p ts2 H He Hes Hf. destruct fuel as [|fuel]; [lia|]. cbn [parseline].
    eapply (finds_back_line _ _ _ _ _ Hb H); [by apply (ends_mono [41])|done|lia|].
    intros p1 H1. eapply runs_peek; [done|done|]. intros p2 H2. hd_is false ltac:(by apply (ends_not [41])). by apply runs_ret.
  - intros ts c w ts' c' _ Hb _ Hl fuel p ts2 H He Hes Hf. destruct fuel as [|fuel]; [lia|]. cbn [parseline].
    rewrite <-app_assoc in H. rewrite length_app in *. cbn [length] in *.
    eapply (finds_back_line _ _ _ _ _ Hb H); [by apply ends_cons|lia|lia|].
    intros p1 H1. cbn [app] in H1. eapply runs_peek; [done|done|]. intros p2 H2. hd_is true ltac:(done).
    eapply runs_token; [done|]. intros p3 H3. eapply parses_bind; [apply (Hl _ _ ts2 H3 He); lia|]. intros p4 H4. by apply runs_ret.
  - intros ts c _ Hp. exists ts, c, []. split; [by rewrite app_nil_r|]. by split.
  - intros ts c w _ (ts0 & c0 & ws & -> & -> & Hp). exists ts0, c0, (ws ++ [w]). rewrite map_app, app_assoc. split; [done|].
    split; [|done]. rewrite length_app, Nat.add_comm. done.
  - intros ts c _ Hs fuel p ts2 H He Hes Hf. destruct fuel as [|fuel]; [lia|]. cbn [parsepipe].
    eapply parses_bind; [apply (Hs _ _ _ H); [by apply (ends_mono [41; 38; 59])|done|lia]|].
    intros p1 H1. eapply runs_peek; [done|done|]. intros p2 H2. hd_is false ltac:(by apply (ends_not [41; 38; 59])). by apply runs_ret.
  - intros ts c w ts' c' _ Hs _ Hp fuel p ts2 H He Hes Hf. destruct fuel as [|fuel]; [lia|]. cbn [parsepipe].
    rewrite <-app_assoc in H. rewrite length_app in *. cbn [length] in *.
    eapply parses_bind; [apply (Hs _ _ _ H); [by apply ends_cons|lia|lia]|].
    intros p1 H1. cbn [app] in H1. eapply runs_peek; [done|done|]. intros p2 H2. hd_is true ltac:(done).
    eapply runs_token; [done|]. intros p3 H3. eapply parses_bind; [apply (Hp _ _ ts2 H3 He); lia|]. intros p4 H4. by apply runs_ret.
  - intros ts rs ts' ws rs' Hr Ha Hn fuel p ts2 H He Hes Hf. destruct fuel as [|fuel]; [lia|]. cbn [parseexec].
    rewrite <-app_assoc in H. rewrite length_app in *. eapply runs_peek; [done|exact H|]. intros p1 H1.
    assert (He' : hd_in [60; 62] (ts' ++ ts2) = false) by (destruct Ha; cbn [app]; [by apply (ends_not [124; 41; 38; 59])|done]).
    assert (Hb : hd_in [40] (ts ++ ts' ++ ts2) = false).
    { destruct Hr as [|r v w mode fd ts rs Hk Hr]; cbn [app].
      - destruct Ha; cbn [app]; [by apply (ends_not [124; 41; 38; 59])|done].
      - apply bool_decide_false. rewrite list_elem_of_singleton. intros E. assert (Hin : tok_char r ∈ [60; 62]) by (apply redir_kind_hd; eauto).
        rewrite E, !elem_of_cons, elem_of_nil in Hin. lia. }
    hd_is false ltac:(exact Hb).
    eapply parses_bind; [eapply parseredirs_runs; [done|done|done|unfold loop_fuel; lia]|]. intros p2 H2.
    eapply parses_bind; [eapply parseargs_runs; [done|done|done|unfold loop_fuel; lia|lia]|]. intros p3 H3. by apply runs_ret.
  - intros v w ts c ts' rs _ Hl Hr fuel p ts2 H He Hes Hf. cbn [app length] in *. rewrite <-app_assoc in H. cbn [app] in H.
    rewrite length_app in *. cbn [length] in *.
    destruct fuel as [|[|fuel]]; [lia|lia|]. cbn [parseexec]. eapply runs_peek; [done|exact H|]. intros p1 H1. hd_is true ltac:(done).
    cbn [parseblock]. eapply runs_peek; [done|exact H1|]. intros p2 H2. hd_is true ltac:(done). cbn [negb]. unfold panic_if at 1.
    eapply parses_bind; [by apply runs_ret|]. intros p3 H3. eapply runs_token; [done|]. intros p4 H4.
    eapply parses_bind; [apply (Hl _ _ _ H4); [by apply ends_cons|lia|lia]|]. intros p5 H5.
    eapply runs_peek; [done|exact H5|]. intros p6 H6. hd_is true ltac:(done). cbn [negb]. unfold panic_if at 1.
    eapply parses_bind; [by apply runs_ret|]. intros p7 H7. eapply runs_token; [done|]. intros p8 H8.
    eapply parses_bind; [eapply parseredirs_runs; [done|done|by apply (ends_not [124; 41; 38; 59])|unfold loop_fuel; lia]|].
    intros p9 H9. by apply runs_ret.
Qed.
End Parsing.

(** Whatever is parsed is derived. *)
Lemma parse_derives (text : list Z) : 0 ∉ text -> exists ts, lexes text 0 ts /\ (length ts <= length text)%nat /\
  safe (parse text 0%nat) (fun c _ => d_line ts c).
Proof.
  intros Hz. destruct (lexes_total text Hz 0) as (ts & H & Hlen); [lia|]. exists ts. rewrite Nat.sub_0_r in Hlen. split; [done|]. split; [done|].
  apply safe_bind. destruct (parse_safe text Hz (parse_fuel text) 0 ts H Hlen) as [Hl _].
  eapply safe_mono; [apply Hl; unfold parse_fuel; lia|]. intros c p (ts1 & ts2 & -> & Hd & Hl2).
  apply (peek_then text Hz _ _ _ ts2); [done|done|]. intros p' Hp'. unfold safe, bind, get, panic_if, ret.
  destruct (Nat.eqb_spec p' (length text)) as [->|]; cbn [negb]; [|done].
  destruct ts2 as [|[r w] ts2]; [by rewrite app_nil_r|]. exfalso.
  inversion Hp' as [|? ? ? ? ? Hle E Hr Hl']; subst. unfold gettoken in E.
  pose proof (scan_cases text Hz _ (skip_ws_stop text Hz (length text))) as Hs.
  destruct (scan text (skip_ws text (length text))) as [r' e'] eqn:Es. injection E as -> <- <-.
  pose proof (skip_ws_range text (length text) (le_n _)) as Hsk.
  destruct Hs as [(-> & _)|[(_ & _ & _ & _ & He)|(_ & He & _)]]; [done|lia..].
Qed.

(** C23: the shell's recursive-descent parser accepts exactly its grammar. On every line it
    stops, with a tree or with a message; it returns a tree exactly when the tokens of the whole
    line derive a line of the grammar, and the tree is the one of the derivation. *)
Theorem parse_grammar (text : list Z) : 0 ∉ text -> exists ts, lexes text 0 ts /\
  (forall c, (exists p, parse text 0%nat = Ok c p) <-> d_line ts c) /\
  ((exists c p, parse text 0%nat = Ok c p) \/ exists msg, parse text 0%nat = Panic msg).
Proof.
  intros Hz. destruct (parse_derives text Hz) as (ts & H & Hlen & Hsafe). exists ts. split; [done|].
  split.
  - intros c. split; [intros [p E]; by rewrite E in Hsafe|]. intros Hd.
    destruct (parse_complete text Hz) as [Hl _].
    destruct (Hl ts c Hd (parse_fuel text) 0%nat []) as (p & E & Hp); [by rewrite app_nil_r|by left|done|unfold parse_fuel; lia|].
    unfold parse. rewrite (bind_ok _ _ _ _ _ E).
    destruct (peek_spec text Hz [] p [] ltac:(intros x Hx; by apply elem_of_nil in Hx) Hp) as [E' Hp']. rewrite (bind_ok _ _ _ _ _ E').
    assert (Hes : skip_ws text p = length text).
    { pose proof (lexes_le _ _ _ Hp'). inversion Hp' as [? w p' _ Eg|]; subst. unfold gettoken in Eg. rewrite skip_ws_idem in Eg.
      pose proof (scan_cases text Hz _ (skip_ws_stop text Hz p)) as Hs. destruct (scan text (skip_ws text p)) as [r e].
      injection Eg as -> _ _. destruct Hs as [(_ & E0 & _)|[(? & _)|(? & _)]]; [|done..]. apply char_at_nul in E0; [lia|done]. }
    exists (length text). unfold bind, get, panic_if, ret. by rewrite Hes, Nat.eqb_refl.
  - destruct (parse text 0%nat) as [c p|msg|?|?]; [left; eauto|right; eauto|done..].
Qed.

(** ** The strings of the tree *)

Fixpoint words (c : cmd) : list word :=
  match c with
  | EXEC argv => argv
  | REDIR c w _ _ => words c ++ [w]
  | PIPE l r | LIST l r => words l ++ words r
  | BACK c => words c
  end.
Lemma word_ends_words c : word_ends c = map snd (words c).
Proof. induction c as [a|c IH w m fd|l IHl r IHr|l IHl r IHr|c IH]; cbn; rewrite ?map_app, ?IH, ?IHl, ?IHr; reflexivity. Qed.
Lemma words_redirs c rs : words (foldl redircmd c rs) = words c ++ map (fun r => r.1.1) rs.
Proof.
  revert c. induction rs as [|[[w m] fd] rs IH]; intros c; cbn [foldl map]; [by rewrite app_nil_r|].
  rewrite IH. cbn [redircmd words fst]. by rewrite <-app_assoc.
Qed.

Section Words.
Definition word_tok (ts : list tok) (w : word) : Prop := (97, w) ∈ ts.
Lemma word_tok_app ts ts' w : word_tok (ts ++ ts') w <-> word_tok ts w \/ word_tok ts' w.
Proof. apply elem_of_app. Qed.
Lemma word_tok_cons r v ts w : word_tok ts w -> word_tok ((r, v) :: ts) w.
Proof. intros H. by apply elem_of_cons; right. Qed.
Lemma d_redirs_words ts rs : d_redirs ts rs -> Forall (word_tok ts) (map (fun r => r.1.1) rs).
Proof.
  induction 1 as [|r v w m fd ts rs Hk Hd IH]; cbn [map fst]; constructor.
  - apply elem_of_cons. right. apply elem_of_cons. by left.
  - eapply Forall_impl; [exact IH|]. intros x Hx. by do 2 apply word_tok_cons.
Qed.
Lemma Forall_tok_app ts ts' ws ws' : Forall (word_tok ts) ws -> Forall (word_tok ts') ws' ->
  Forall (word_tok (ts ++ ts')) (ws ++ ws').
Proof.
  intros H H'. apply Forall_app. split; (eapply Forall_impl; [done|]); intros x Hx; apply word_tok_app; tauto.
Qed.
Lemma Forall_tok_cons r v ts ws : Forall (word_tok ts) ws -> Forall (word_tok ((r, v) :: ts)) ws.
Proof. intros H. eapply Forall_impl; [exact H|]. intros x. apply word_tok_cons. Qed.

Lemma d_args_words ts ws rs : d_args ts ws rs -> Forall (word_tok ts) ws /\ Forall (word_tok ts) (map (fun r => r.1.1) rs).
Proof.
  induction 1 as [|w ts rs ts' ws rs' Hr Ha [IH1 IH2]]; [by repeat constructor|]. apply d_redirs_words in Hr. split.
  - constructor; [by left|]. apply Forall_tok_cons. apply (Forall_tok_app ts ts' []); [by constructor|done].
  - apply Forall_tok_cons. rewrite map_app. by apply Forall_tok_app.
Qed.

Lemma d_words : (forall ts c, d_line ts c -> Forall (word_tok ts) (words c)) /\
  (forall ts c, d_back ts c -> Forall (word_tok ts) (words c)) /\
  (forall ts c, d_pipe ts c -> Forall (word_tok ts) (words c)) /\
  (forall ts c, d_simple ts c -> Forall (word_tok ts) (words c)).
Proof.
  apply d_mind; try done.
  - intros ts c w ts' c' _ H _ H'. cbn [words]. apply Forall_tok_app; [done|]. by apply Forall_tok_cons.
  - intros ts c w _ H. rewrite <-(app_nil_r (words (BACK c))). by apply Forall_tok_app.
  - intros ts c w ts' c' _ H _ H'. cbn [words]. apply Forall_tok_app; [done|]. by apply Forall_tok_cons.
  - intros ts rs ts' ws rs' Hr [Ha1 Ha2]%d_args_words _. apply d_redirs_words in Hr. rewrite words_redirs, map_app. cbn [words].
    rewrite !Forall_app. repeat split; (eapply Forall_impl; [done|]); intros x Hx; apply word_tok_app; tauto.
  - intros v w ts c ts' rs _ H Hr%d_redirs_words. rewrite words_redirs. apply Forall_tok_cons, Forall_tok_app; [done|].
    by apply Forall_tok_cons.
Qed.
End Words.

Section Strings.
Context (text : list Z) (no_nul : 0 ∉ text).

(** What a word token is. *)
Definition word_at (w : word) : Prop :=
  (w.1 < w.2 <= length text)%nat /\ (forall k, (w.1 <= k < w.2)%nat -> is_word (char_at text k) = true) /\
  is_word (char_at text w.2) && negb (char_at text w.2 =? 0) = false.

Lemma lexes_words p ts w : lexes text p ts -> word_tok ts w -> word_at w.
Proof.
  induction 1 as [p v p' _ _|p r v p' ts _ E Hr Hl IH]; [by intros ?%elem_of_nil|].
  intros [[= <- <-]|Hin]%elem_of_cons; [|by apply IH]. unfold gettoken in E.
  pose proof (scan_cases text no_nul _ (skip_ws_stop text no_nul p)) as Hs.
  destruct (scan text (skip_ws text p)) as [r e]. injection E as -> <- _.
  destruct Hs as [(? & _)|[(_ & ? & _)|(_ & He & _ & Hw & Hend)]]; [done..|]. split; [exact He|]; split; [exact Hw|exact Hend].
Qed.

Lemma ends_outside w e : word_at w -> (exists v, word_at v /\ v.2 = e) -> ~ (w.1 <= e < w.2)%nat.
Proof.
  intros (Hw & Hin & _) (v & (Hv & _ & Hend) & <-) He. rewrite (Hin _ He) in Hend. cbn [andb] in Hend.
  apply negb_false_iff, Z.eqb_eq, char_at_nul in Hend; [lia|done].
Qed.

Lemma foldl_insert_lookup (es : list nat) (buf : list Z) k :
  length (foldl (fun b e => <[e := 0]> b) buf es) = length buf /\
  nth k (foldl (fun b e => <[e := 0]> b) buf es) 0 = if bool_decide (k ∈ es) then 0 else nth k buf 0.
Proof.
  revert buf. induction es as [|e es IH]; intros buf; cbn [foldl]; [by rewrite bool_decide_false by (apply not_elem_of_nil)|].
  destruct (IH (<[e := 0]> buf)) as [L E]. rewrite L, length_insert. split; [done|]. rewrite E.
  destruct (decide (k = e)) as [->|Hne].
  - rewrite (bool_decide_true (e ∈ e :: es)) by constructor. case_bool_decide; [done|].
    rewrite nth_lookup. destruct (decide (e < length buf)%nat).
    + by rewrite list_lookup_insert_eq.
    + by rewrite lookup_ge_None_2 by (rewrite length_insert; lia).
  - rewrite (bool_decide_ext (k ∈ e :: es) (k ∈ es)) by (rewrite elem_of_cons; tauto).
    case_bool_decide; [done|]. by rewrite !nth_lookup, list_lookup_insert_ne.
Qed.

(** A string in a buffer, given character by character. *)
Lemma cstr_at n (buf l : list Z) q : (length l < n)%nat -> 0 ∉ l ->
  (forall k, (k < length l)%nat -> nth (q + k) buf 0 = nth k l 0) -> nth (q + length l) buf 0 = 0 ->
  cstr n (drop q buf) = l.
Proof.
  revert n q. induction l as [|x l IH]; intros n q Hn Hz Hk Hend; (destruct n as [|n]; [cbn in Hn; lia|]).
  - cbn [length] in Hend. rewrite Nat.add_0_r in Hend. destruct (drop q buf) as [|y r] eqn:E; [done|]. cbn [cstr].
    assert (y = 0) as ->; [|done]. rewrite <-Hend, nth_lookup, <-(Nat.add_0_r q), <-lookup_drop, E. done.
  - apply not_elem_of_cons in Hz as [Hx Hz]. cbn [length] in *. pose proof (Hk 0%nat ltac:(lia)) as H0. rewrite Nat.add_0_r in H0. cbn in H0.
    destruct (drop q buf) as [|y r] eqn:E.
    + exfalso. apply Hx. rewrite <-H0, nth_lookup, <-(Nat.add_0_r q), <-lookup_drop, E. done.
    + assert (y = x) as ->. { rewrite <-H0, nth_lookup, <-(Nat.add_0_r q), <-lookup_drop, E. done. }
      cbn [cstr]. destruct (Z.eqb_spec x 0); [congruence|]. f_equal.
      assert (Er : r = drop (S q) buf). { change r with (drop 1 (x :: r)). rewrite <-E, drop_drop. f_equal. lia. }
      rewrite Er. apply IH; [lia|done| |].
      * intros k Hlt. pose proof (Hk (S k) ltac:(lia)) as Hs. cbn [nth] in Hs. rewrite <-Hs. by replace (S q + k)%nat with (q + S k)%nat by lia.
      * replace (S q + length l)%nat with (q + S (length l))%nat by lia. exact Hend.
Qed.

Lemma nulterminate_word c w junk ts : lexes text 0 ts -> d_line ts c -> w ∈ words c ->
  cstr (S (length text)) (drop w.1 (nulterminate c (text ++ 0 :: junk))) = take (w.2 - w.1) (drop w.1 text) /\ word_at w.
Proof.
  intros Hl Hd Hw. assert (Hall : forall v, v ∈ words c -> word_at v).
  { intros v Hv. eapply lexes_words; [done|]. pose proof (proj1 d_words ts c Hd) as Hf. by eapply Forall_forall in Hf. }
  split; [|by apply Hall]. pose proof (Hall w Hw) as Hwa. destruct Hwa as (Hr & Hin & Hend).
  assert (Hlen : length (take (w.2 - w.1) (drop w.1 text)) = (w.2 - w.1)%nat) by (rewrite length_take, length_drop; lia).
  apply cstr_at.
  - rewrite Hlen. lia.
  - intros Hz. apply no_nul. rewrite <-(take_drop w.1 text), <-(take_drop (w.2 - w.1) (drop w.1 text)), !elem_of_app. tauto.
  - intros k Hk. rewrite Hlen in Hk. unfold nulterminate. rewrite (proj2 (foldl_insert_lookup _ _ _)), bool_decide_false.
    + rewrite !nth_lookup. rewrite lookup_take, decide_True, lookup_drop, lookup_app_l by lia. done.
    + rewrite word_ends_words. intros (v & Hv & Hin')%list_elem_of_fmap. apply (ends_outside w (w.1 + k)); [by apply Hall| |lia].
      exists v. split; [by apply Hall|done].
  - rewrite Hlen. replace (w.1 + (w.2 - w.1))%nat with w.2 by lia. unfold nulterminate.
    rewrite (proj2 (foldl_insert_lookup _ _ _)), bool_decide_true; [done|]. rewrite word_ends_words. apply list_elem_of_fmap. by exists w.
Qed.
End Strings.

(** C24: after [parsecmd], every argument and file name of the tree is, read as a C string in the
    line's own buffer, exactly the characters of its token: the NULs that [nulterminate] writes
    over the line end each word and cut none; the words are not empty and contain no blank and
    no operator. *)
Theorem parsecmd_words (text junk : list Z) (c : cmd) (buf : list Z) (p : nat) (w : word) :
  0 ∉ text -> parsecmd text junk 0%nat = Ok (c, buf) p -> w ∈ words c ->
  cstr (S (length text)) (drop w.1 buf) = take (w.2 - w.1) (drop w.1 text) /\
  (w.1 < w.2 <= length text)%nat /\ forall k, (w.1 <= k < w.2)%nat -> is_word (char_at text k) = true.
Proof.
  intros Hz E Hw. apply bind_inv in E as (c' & p' & E & [= -> <- <-]).
  destruct (parse_derives text Hz) as (ts & Hl & _ & Hd). rewrite E in Hd.
  destruct (nulterminate_word text Hz c w junk ts Hl Hd Hw) as [? (? & ? & _)]. done.
Qed.

Definition demo_line : list Z := str "(ls -l | grep x) >out; wc<in &".
Lemma demo_line_ok : 0 ∉ demo_line.
Proof. intros H. vm_compute in H. by repeat (apply elem_of_cons in H as [H|H]; [discriminate H|]); apply elem_of_nil in H. Qed.

Lemma parse_grammar_witness : exists ts c, lexes demo_line 0 ts /\ d_line ts c /\ c = LIST
    (REDIR (PIPE (EXEC [(1, 3); (4, 6)]%nat) (EXEC [(9, 13); (14, 15)]%nat)) (18, 21)%nat 1537 1)
    (BACK (REDIR (EXEC [(23, 25)%nat]) (26, 28)%nat 0 0)).
Proof.
  destruct (parse_grammar demo_line demo_line_ok) as (ts & Hl & Hiff & _). exists ts. eexists. split; [exact Hl|].
  split; [|reflexivity]. apply Hiff. eexists. vm_compute. reflexivity.
Defined.

Lemma parsecmd_words_witness : exists c buf p, parsecmd demo_line [0; 0] 0%nat = Ok (c, buf) p /\
  cstr 31 (drop 9 buf) = str "grep" /\ cstr 31 (drop 26 buf) = str "in".
Proof.
  destruct (parsecmd demo_line [0; 0] 0%nat) as [[c buf] p|?|?|?] eqn:E; [|vm_compute in E; discriminate E..].
  exists c, buf, p. split; [reflexivity|].
  assert (Hw : (9, 13)%nat ∈ words c /\ (26, 28)%nat ∈ words c).
  { vm_compute in E. injection E as <- <- <-. cbn [words app]. rewrite !elem_of_cons. tauto. }
  destruct (parsecmd_words demo_line [0; 0] c buf p (9, 13)%nat demo_line_ok E (proj1 Hw)) as [H1 _].
  destruct (parsecmd_words demo_line [0; 0] c buf p (26, 28)%nat demo_line_ok E (proj2 Hw)) as [H2 _].
  split; [exact H1|exact H2].
Defined.
