(* ===== verification/Shrun.v ===== *)
(** * Running commands (user/sh.c: runcmd and main)

    A process of the shell is the tree of the system calls that it makes, each with what follows
    for every result.  Its descriptors are given by the rule of the kernel: a new one is the
    smallest that is free. *)

From S2P Require Import Prelude Kstring State Sysfile Ulib Sh Shparse.

Inductive prog :=
| Exit (status : Z)
| Print (msg : list Z) (k : prog)
| Close (fd : Z) (k : prog)
| Open (path : list Z) (mode : Z) (k : Z -> prog)
| Dup (fd : Z) (k : Z -> prog)
| Pipe (k : option (Z * Z) -> prog)
| Fork (k : Z -> prog)
| Wait (k : prog)
| Chdir (path : list Z) (k : Z -> prog)
| Exec (path : list Z) (argv : list (list Z)) (k : prog).

(** The message of the shell's panic goes to descriptor 2, like all its messages. *)
Definition panic_ (msg : list Z) : prog := Print (msg ++ [10]) (Exit 1).
Definition fork1 (k : Z -> prog) : prog := Fork (fun pid => if pid =? -1 then panic_ (str "fork") else k pid).

(** The C string that a word of the tree points to in the line's buffer. *)
Definition string_at (buf : list Z) (w : word) : list Z := cstr (length buf) (drop w.1 buf).

Fixpoint runcmd (buf : list Z) (c : cmd) : prog :=
  match c with
  | EXEC [] => Exit 1
  | EXEC (w :: ws) =>
      let name := string_at buf w in
      Exec name (map (string_at buf) (w :: ws)) (Print (str "exec " ++ name ++ str " failed" ++ [10]) (Exit 0))
  | REDIR c w mode fd =>
      let file := string_at buf w in
      Close fd (Open file mode (fun r =>
        if r <? 0 then Print (str "open " ++ file ++ str " failed" ++ [10]) (Exit 1) else runcmd buf c))
  | LIST l r => fork1 (fun pid => if pid =? 0 then runcmd buf l else Wait (runcmd buf r))
  | PIPE l r =>
      Pipe (fun o =>
        match o with
        | None => panic_ (str "pipe")
        | Some (p0, p1) =>
            fork1 (fun pid =>
              if pid =? 0 then Close 1 (Dup p1 (fun _ => Close p0 (Close p1 (runcmd buf l))))
              else
                fork1 (fun pid =>
                  if pid =? 0 then Close 0 (Dup p0 (fun _ => Close p0 (Close p1 (runcmd buf r))))
                  else Close p0 (Close p1 (Wait (Wait (Exit 0))))))
        end)
  | BACK c => fork1 (fun pid => if pid =? 0 then runcmd buf c else Exit 0)
  end.

(** The child that runs the line [text]; [junk] is what the buffer holds after its NUL. *)
Definition run_line (text junk : list Z) : prog :=
  match parsecmd text junk 0%nat with
  | Ok (c, buf) _ => runcmd buf c
  | Panic e => panic_ (str e)
  | _ => Exit 1
  end.

(** The opening of the first three descriptors: the fourth [open] answers at least 3. *)
Fixpoint open_console (fuel : nat) (k : prog) : prog :=
  match fuel with
  | O => k
  | S fuel' => Open (str "console") 2 (fun fd => if 0 <=? fd then if 3 <=? fd then Close fd k else open_console fuel' k else k)
  end.

Fixpoint skip_blanks (l : list Z) : list Z :=
  match l with
  | c :: l' => if (c =? 32) || (c =? 9) then skip_blanks l' else l
  | [] => []
  end.
(** The loop of [main] over the lines that [gets] returns; an empty one is the end of the input. *)
Fixpoint commands (lines : list (list Z)) : prog :=
  Print (str "$ ")
    match lines with
    | [] => Exit 0
    | line :: lines' =>
        let text := cstr 100 line in
        if bool_decide (text = []) then Exit 0
        else
          let cmd := skip_blanks text in
          if nth 0 cmd 0 =? 10 then commands lines'
          else if (nth 0 cmd 0 =? 99) && (nth 1 cmd 0 =? 100) && (nth 2 cmd 0 =? 32) then
            let dir := drop 3 (removelast cmd) in
            Chdir dir (fun r =>
              if r <? 0 then Print (str "cannot cd " ++ dir ++ [10]) (commands lines') else commands lines')
          else
            fork1 (fun pid => if pid =? 0 then run_line cmd (replicate (99 - length text) 0) else Wait (commands lines'))
    end.
Definition sh_main (lines : list (list Z)) : prog := open_console 4 (commands lines).

(** ** What is executed

    A process is named by the forks that led to it (a fork, an [open] and a [pipe] extend the
    name), so that the files and pipes that it opens have names too. *)
Notation pname := (list bool).
Inductive obj :=
| Given (n : nat) | Opened (path : list Z) (mode : Z) (by_ : pname) | PipeR (by_ : pname) | PipeW (by_ : pname).
Notation table := (list (option obj)).

Fixpoint lowest (t : table) : option nat :=
  match t with
  | [] => None
  | None :: _ => Some 0%nat
  | Some _ :: t' => S <$> lowest t'
  end.
Definition fd_put (o : obj) (t : table) : option (Z * table) :=
  match lowest t with Some n => Some (Z.of_nat n, <[n := Some o]> t) | None => None end.
Definition fd_close (fd : Z) (t : table) : table := <[Z.to_nat fd := None]> t.
Definition fd_dup (fd : Z) (t : table) : Z * table :=
  match t !! Z.to_nat fd with
  | Some (Some o) => match fd_put o t with Some (n, t') => (n, t') | None => (-1, t) end
  | _ => (-1, t)
  end.

(** Some run of the process, or of one of its descendants, executes a program with arguments
    [argv] and descriptors [t']. *)
Inductive executes : pname -> prog -> table -> list (list Z) -> table -> Prop :=
| ex_exec π f argv k t : executes π (Exec f argv k) t argv t
| ex_failed π f argv k t a t' : executes π k t a t' -> executes π (Exec f argv k) t a t'
| ex_print π m k t a t' : executes π k t a t' -> executes π (Print m k) t a t'
| ex_close π fd k t a t' : executes π k (fd_close fd t) a t' -> executes π (Close fd k) t a t'
| ex_open π p m k t fd t1 a t' : fd_put (Opened p m π) t = Some (fd, t1) ->
    executes (π ++ [false]) (k fd) t1 a t' -> executes π (Open p m k) t a t'
| ex_open_fails π p m k t a t' : executes π (k (-1)) t a t' -> executes π (Open p m k) t a t'
| ex_dup π fd k t a t' : executes π (k (fd_dup fd t).1) (fd_dup fd t).2 a t' -> executes π (Dup fd k) t a t'
| ex_pipe π k t p0 t0 p1 t1 a t' : fd_put (PipeR π) t = Some (p0, t0) -> fd_put (PipeW π) t0 = Some (p1, t1) ->
    executes (π ++ [false]) (k (Some (p0, p1))) t1 a t' -> executes π (Pipe k) t a t'
| ex_pipe_fails π k t a t' : executes π (k None) t a t' -> executes π (Pipe k) t a t'
| ex_child π k t a t' : executes (π ++ [true]) (k 0) t a t' -> executes π (Fork k) t a t'
| ex_parent π k t pid a t' : 0 < pid -> executes (π ++ [false]) (k pid) t a t' -> executes π (Fork k) t a t'
| ex_fork_fails π k t a t' : executes π (k (-1)) t a t' -> executes π (Fork k) t a t'
| ex_wait π k t a t' : executes π k t a t' -> executes π (Wait k) t a t'
| ex_chdir π p k t r a t' : executes π (k r) t a t' -> executes π (Chdir p k) t a t'.

Section Steps.
Context (π : pname) (t : table) (a : list (list Z)) (t' : table).
Lemma no_exit st : ~ executes π (Exit st) t a t'.
Proof. by inversion 1. Qed.
Lemma on_print m k : executes π (Print m k) t a t' <-> executes π k t a t'.
Proof. split; [by inversion 1|by constructor]. Qed.
Lemma on_panic m : ~ executes π (panic_ m) t a t'.
Proof. unfold panic_. rewrite on_print. apply no_exit. Qed.
Lemma on_close fd k : executes π (Close fd k) t a t' <-> executes π k (fd_close fd t) a t'.
Proof. split; [by inversion 1|by constructor]. Qed.
Lemma on_wait k : executes π (Wait k) t a t' <-> executes π k t a t'.
Proof. split; [by inversion 1|by constructor]. Qed.
Lemma on_dup fd k : executes π (Dup fd k) t a t' <-> executes π (k (fd_dup fd t).1) (fd_dup fd t).2 a t'.
Proof. split; [by inversion 1|by constructor]. Qed.
End Steps.

Lemma on_exec π f argv k t a t' : executes π (Exec f argv k) t a t' <-> (a = argv /\ t' = t) \/ executes π k t a t'.
Proof. split; [inversion 1; auto|]. intros [[-> ->]|H]; by constructor. Qed.
Lemma on_open π p m k t fd t1 a t' : fd_put (Opened p m π) t = Some (fd, t1) -> (forall π t, ~ executes π (k (-1)) t a t') ->
  executes π (Open p m k) t a t' <-> executes (π ++ [false]) (k fd) t1 a t'.
Proof.
  intros Hp Hf. split; [|by econstructor]. inversion 1 as [| | | |? ? ? ? ? fd' t1' ? ? Hp' H'|? ? ? ? ? ? ? H'| | | | | | | |]; subst.
  - rewrite Hp in Hp'. by injection Hp' as <- <-.
  - by destruct (Hf π t).
Qed.
Lemma on_pipe π k t p0 t0 p1 t1 a t' : fd_put (PipeR π) t = Some (p0, t0) -> fd_put (PipeW π) t0 = Some (p1, t1) ->
  (forall π t, ~ executes π (k None) t a t') ->
  executes π (Pipe k) t a t' <-> executes (π ++ [false]) (k (Some (p0, p1))) t1 a t'.
Proof.
  intros H0 H1 Hf. split; [|by econstructor]. inversion 1 as [| | | | | | |? ? ? q0 s0 q1 s1 ? ? E0 E1 H'|? ? ? ? ? H'| | | | |]; subst.
  - rewrite H0 in E0. injection E0 as <- <-. rewrite H1 in E1. by injection E1 as <- <-.
  - by destruct (Hf π t).
Qed.
(** A fork of the shell: the child, or the parent whatever the pid. *)
Lemma on_fork π kc kp t a t' :
  executes π (fork1 (fun pid => if pid =? 0 then kc else kp)) t a t' <->
  executes (π ++ [true]) kc t a t' \/ executes (π ++ [false]) kp t a t'.
Proof.
  unfold fork1. split.
  - inversion 1 as [| | | | | | | | |? ? ? ? ? H'|? ? ? pid ? ? Hp H'|? ? ? ? ? H'| |]; subst.
    + by left.
    + right. destruct (Z.eqb_spec pid (-1)); [lia|]. destruct (Z.eqb_spec pid 0); [lia|done].
    + by apply on_panic in H'.
  - intros [H|H]; [by apply ex_child|by apply (ex_parent _ _ _ 1)].
Qed.

(** ** The plumbing

    Three descriptors are open, and no other. *)
Definition std (a b e : obj) : table := [Some a; Some b; Some e] ++ replicate 13 None.

Definition token_text (text : list Z) (w : word) : list Z := take (w.2 - w.1) (drop w.1 text).

(** What the tree of a command says: the program of a simple command gets the current input and
    output; [<] and [>] replace one of them; the two sides of a bar share a pipe. *)
Fixpoint wired (text : list Z) (π : pname) (c : cmd) (a b e : obj) (argv : list (list Z)) (t' : table) : Prop :=
  match c with
  | EXEC ws => ws <> [] /\ argv = map (token_text text) ws /\ t' = std a b e
  | REDIR c w mode fd =>
      let o := Opened (token_text text w) mode π in
      if fd =? 0 then wired text (π ++ [false]) c o b e argv t' else wired text (π ++ [false]) c a o e argv t'
  | LIST l r => wired text (π ++ [true]) l a b e argv t' \/ wired text (π ++ [false]) r a b e argv t'
  | PIPE l r =>
      wired text ((π ++ [false]) ++ [true]) l a (PipeW π) e argv t' \/
      wired text (((π ++ [false]) ++ [false]) ++ [true]) r (PipeR π) b e argv t'
  | BACK c => wired text (π ++ [true]) c a b e argv t'
  end.

(** Redirections are of descriptors 0 and 1. *)
Fixpoint fds_ok (c : cmd) : Prop :=
  match c with
  | EXEC _ => True
  | REDIR c _ _ fd => (fd = 0 \/ fd = 1) /\ fds_ok c
  | PIPE l r | LIST l r => fds_ok l /\ fds_ok r
  | BACK c => fds_ok c
  end.

Lemma runcmd_wired text buf c : forall π a b e argv t', fds_ok c -> (forall w, w ∈ words c -> string_at buf w = token_text text w) ->
  executes π (runcmd buf c) (std a b e) argv t' <-> wired text π c a b e argv t'.
Proof.
  induction c as [ws|c IH w mode fd|l IHl r IHr|l IHl r IHr|c IH]; intros π a b e argv t' Hfd Hw; cbn [runcmd wired fds_ok words] in *.
  - destruct ws as [|w ws]; [split; [by intros ?%no_exit|by intros []]|]. rewrite on_exec, on_print.
    assert (map (string_at buf) (w :: ws) = map (token_text text) (w :: ws)) as ->.
    { apply map_ext_in. intros v Hv. apply Hw. by apply list_elem_of_In. }
    split; [intros [[-> ->]|?%no_exit]; done|]. intros (_ & -> & ->). by left.
  - destruct Hfd as [Hfd Hc]. rewrite (Hw w) by (apply elem_of_app; right; by left).
    assert (Hw' : forall w, w ∈ words c -> string_at buf w = token_text text w) by (intros v Hv; apply Hw, elem_of_app; by left).
    rewrite on_close. destruct Hfd as [-> | ->].
    + rewrite (on_open _ _ _ _ _ 0 (std (Opened (token_text text w) mode π) b e)); [by apply IH|done|].
      intros π' t0. cbn [Z.ltb Z.compare]. rewrite on_print. apply no_exit.
    + rewrite (on_open _ _ _ _ _ 1 (std a (Opened (token_text text w) mode π) e)); [by apply IH|done|].
      intros π' t0. cbn [Z.ltb Z.compare]. rewrite on_print. apply no_exit.
  - destruct Hfd as [Hl Hr]. rewrite (on_pipe _ _ _ 3 ([Some a; Some b; Some e; Some (PipeR π)] ++ replicate 12 None) 4
      ([Some a; Some b; Some e; Some (PipeR π); Some (PipeW π)] ++ replicate 11 None)); [|done|done|intros; apply on_panic].
    rewrite !on_fork. rewrite !on_close, !on_dup, !on_close, !on_wait.
    rewrite <-IHl, <-IHr; [|done|intros v Hv; apply Hw, elem_of_app; by right|done|intros v Hv; apply Hw, elem_of_app; by left].
    change (fd_close 4 (fd_close 3 (fd_dup 4 (fd_close 1 (([Some a; Some b; Some e; Some (PipeR π); Some (PipeW π)] : table) ++ replicate 11 None))).2))
      with (std a (PipeW π) e).
    change (fd_close 4 (fd_close 3 (fd_dup 3 (fd_close 0 (([Some a; Some b; Some e; Some (PipeR π); Some (PipeW π)] : table) ++ replicate 11 None))).2))
      with (std (PipeR π) b e).
    pose proof (no_exit (((π ++ [false]) ++ [false]) ++ [false])
      (fd_close 4 (fd_close 3 (([Some a; Some b; Some e; Some (PipeR π); Some (PipeW π)] : table) ++ replicate 11 None))) argv t' 0). tauto.
  - destruct Hfd as [Hl Hr]. rewrite on_fork, on_wait.
    rewrite <-IHl, <-IHr; [done|done|intros v Hv; apply Hw, elem_of_app; by right|done|intros v Hv; apply Hw, elem_of_app; by left].
  - rewrite on_fork, IH by done. split; [intros [?|?%no_exit]; done|by left].
Qed.

Lemma d_redirs_fds ts rs c : d_redirs ts rs -> fds_ok c -> fds_ok (foldl redircmd c rs).
Proof.
  intros H. revert c. induction H as [|r v w mode fd ts rs Hk _ IH]; intros c Hc; [done|]. cbn [foldl]. apply IH. cbn. split; [|done].
  unfold redir_kind in Hk. repeat case_match; simplify_eq; auto.
Qed.
Lemma d_args_fds ts ws rs c : d_args ts ws rs -> fds_ok c -> fds_ok (foldl redircmd c rs).
Proof.
  intros H. revert c. induction H as [|w ts rs ts' ws rs' Hr _ IH]; intros c Hc; [done|]. rewrite foldl_app. apply IH. by eapply d_redirs_fds.
Qed.
Lemma d_fds : (forall ts c, d_line ts c -> fds_ok c) /\ (forall ts c, d_back ts c -> fds_ok c) /\
  (forall ts c, d_pipe ts c -> fds_ok c) /\ (forall ts c, d_simple ts c -> fds_ok c).
Proof.
  apply d_mind; intros; cbn [fds_ok]; try done.
  - rewrite foldl_app. eapply d_args_fds; [done|]. by eapply d_redirs_fds.
  - by eapply d_redirs_fds.
Qed.

Lemma cstr_more n s : (length (cstr n s) < n)%nat -> forall n', (n <= n')%nat -> cstr n' s = cstr n s.
Proof.
  revert s. induction n as [|n IH]; intros s Hl n' Hn; [cbn in Hl; lia|]. destruct n' as [|n']; [lia|]. destruct s as [|c s]; [done|].
  cbn [cstr] in *. destruct (c =? 0); [done|]. cbn [length] in Hl. f_equal. apply IH; lia.
Qed.

(** The words in the buffer are those of the line. *)
Lemma parsed_strings text junk c buf p : 0 ∉ text -> parsecmd text junk 0%nat = Ok (c, buf) p ->
  fds_ok c /\ forall w, w ∈ words c -> string_at buf w = token_text text w.
Proof.
  intros Hz E. apply bind_inv in E as (c' & p' & E & [= -> <- <-]). destruct (parse_derives text Hz) as (ts & Hl & _ & Hd). rewrite E in Hd.
  split; [by eapply (proj1 d_fds)|]. intros w Hw. destruct (nulterminate_word text Hz c w junk ts Hl Hd Hw) as [Hs (Hr & _)].
  unfold string_at, token_text. rewrite <-Hs. apply cstr_more; [rewrite Hs, length_take, length_drop; lia|].
  unfold nulterminate. assert (Hlen : forall es (b : list Z), length (foldl (fun b e => <[e := 0]> b) b es) = length b).
  { induction es as [|x es IH]; intros b; [done|]. cbn [foldl]. by rewrite IH, length_insert. }
  rewrite Hlen, length_app. cbn [length]. lia.
Qed.

Lemma wired_std text c : forall π a b e argv t', wired text π c a b e argv t' -> exists a' b', t' = std a' b' e.
Proof.
  induction c as [ws|c IH w mode fd|l IHl r IHr|l IHl r IHr|c IH]; intros π a b e argv t'; cbn [wired].
  - intros (_ & _ & ->). eauto.
  - case_match; apply IH.
  - intros [H|H]; [by eapply IHl|by eapply IHr].
  - intros [H|H]; [by eapply IHl|by eapply IHr].
  - apply IH.
Qed.


