(* ===== verification/Umalloc.v ===== *)
(** * The user-level allocator (user/umalloc.c)

    Memory is counted in units of one [Header]; a pointer is the number of its unit, 0 is null,
    and [p + 1] is the payload of the block whose header is at [p].  [base] is the address of the
    static header.  The break moves with [sbrk]; whether the kernel grants a request is a script. *)

From Stdlib Require Import Sorting.Sorted.
From S2P Require Import Prelude.

Record header := mkheader { ptr : Z; size : Z }.
Record heap := mkheap { hdr : Z -> header; freep : Z; brk : Z; grants : list bool }.

Definition set_hdr (p : Z) (f : header -> header) (h : heap) : heap :=
  {| h with hdr := fun x => if x =? p then f (hdr h p) else hdr h x |}.
Definition set_freep (p : Z) (h : heap) : heap := {| h with freep := p |}.

Section Umalloc.
Context (base : Z).

(** The search of [free]: the node after which [bp] belongs. *)
Fixpoint free_search (fuel : nat) (bp p : Z) : M heap Z :=
  match fuel with
  | O => fault "free"
  | S fuel' =>
      n ← gets (fun h => ptr (hdr h p));
      if (p <? bp) && (bp <? n) then ret p
      else if (n <=? p) && ((p <? bp) || (bp <? n)) then ret p
      else free_search fuel' bp n
  end.

Definition free (fuel : nat) (ap : Z) : M heap unit :=
  let bp := ap - 1 in
  f ← gets freep;
  p ← free_search fuel bp f;
  h ← get;
  let q := ptr (hdr h p) in
  (if bp + size (hdr h bp) =? q then
     modify (set_hdr bp (fun b => {| ptr := ptr (hdr h q); size := u32 (size b + size (hdr h q)) |}))
   else modify (set_hdr bp (fun b => {| b with ptr := q |})));;
  h ← get;
  (if p + size (hdr h p) =? bp then
     modify (set_hdr p (fun b => {| ptr := ptr (hdr h bp); size := u32 (size b + size (hdr h bp)) |}))
   else modify (set_hdr p (fun b => {| b with ptr := bp |})));;
  modify (set_freep p).

(** [sbrk(n)] with [n] in bytes: the old break, or [None] for the error. *)
Definition sbrk (n : Z) : M heap (option Z) :=
  h ← get;
  match grants h with
  | true :: g => modify (fun h => {| h with brk := brk h + n / 16; grants := g |});; ret (Some (brk h))
  | _ :: g => modify (fun h => {| h with grants := g |});; ret None
  | [] => ret None
  end.

Definition morecore (fuel : nat) (nu : Z) : M heap Z :=
  let nu := if nu <? 4096 then 4096 else nu in
  o ← sbrk (s32 (nu * 16));
  match o with
  | None => ret 0
  | Some hp =>
      modify (set_hdr hp (fun b => {| b with size := nu |}));;
      free fuel (hp + 1);;
      gets freep
  end.

(** The loop of [malloc] at [prevp] and [p]. *)
Fixpoint malloc_loop (fuel : nat) (nunits prevp p : Z) : M heap Z :=
  match fuel with
  | O => fault "malloc"
  | S fuel' =>
      h ← get;
      if nunits <=? size (hdr h p) then
        r ← (if size (hdr h p) =? nunits then
               modify (set_hdr prevp (fun b => {| b with ptr := ptr (hdr h p) |}));; ret p
             else
               let rest := size (hdr h p) - nunits in
               modify (set_hdr p (fun b => {| b with size := rest |}));;
               modify (set_hdr (p + rest) (fun b => {| b with size := nunits |}));; ret (p + rest));
        modify (set_freep prevp);;
        ret (r + 1)
      else if p =? freep h then
        p ← morecore fuel' nunits;
        if p =? 0 then ret 0
        else n ← gets (fun h => ptr (hdr h p)); malloc_loop fuel' nunits p n
      else malloc_loop fuel' nunits p (ptr (hdr h p))
  end.

Definition units (nbytes : Z) : Z := u32 ((nbytes + 16 - 1) / 16 + 1).
Definition malloc (fuel : nat) (nbytes : Z) : M heap Z :=
  let nunits := units nbytes in
  f ← gets freep;
  prevp ← (if f =? 0 then
             modify (set_freep base);;
             modify (set_hdr base (fun _ => {| ptr := base; size := 0 |}));; ret base
           else ret f);
  p ← gets (fun h => ptr (hdr h prevp));
  malloc_loop fuel nunits prevp p.

(** ** The free list *)

Notation block := (Z * Z)%type.

(** The nodes of the circular list in order, [(base, 0)] first; [q] follows the last. *)
Definition hd_addr (l : list block) (q : Z) : Z := match l with [] => q | (a, _) :: _ => a end.
Fixpoint linked (f : Z -> header) (l : list block) (q : Z) : Prop :=
  match l with
  | [] => True
  | (a, s) :: l' => f a = {| ptr := hd_addr l' q; size := s |} /\ linked f l' q
  end.

(** Each block ends before the next one begins: the list is sorted and no two free blocks touch. *)
Definition before (x y : block) : Prop := x.1 + x.2 < y.1.
Definition apart (x y : block) : Prop := x.1 + x.2 <= y.1 \/ y.1 + y.2 <= x.1.

(** The heap with the free blocks [L] and the blocks [A] in use. *)
Record inv (h : heap) (L A : list block) : Prop := {
  inv_linked : linked (hdr h) ((base, 0) :: L) base;
  inv_sorted : StronglySorted before ((base, 0) :: L);
  inv_freep : freep h ∈ map fst ((base, 0) :: L);
  inv_used : forall x, x ∈ A -> size (hdr h x.1) = x.2;
  inv_range : forall x, x ∈ L ++ A -> base < x.1 /\ 0 < x.2 /\ x.1 + x.2 <= brk h;
  inv_apart : forall x y, x ∈ L -> y ∈ A -> apart x y;
  inv_used_apart : StronglySorted apart A;
  inv_base : 0 < base < brk h /\ brk h < 2 ^ 31
}.

(** A unit that belongs to a block. *)
Definition in_block (u : Z) (x : block) : Prop := x.1 <= u < x.1 + x.2.
Definition covered (u : Z) (L : list block) : Prop := exists x, x ∈ L /\ in_block u x.

(** *** Lists of nodes *)

Lemma linked_app f l1 l2 q : linked f (l1 ++ l2) q <-> linked f l1 (hd_addr l2 q) /\ linked f l2 q.
Proof.
  induction l1 as [|[a s] l1 IH]; cbn [linked app]; [tauto|]. rewrite IH.
  assert (hd_addr (l1 ++ l2) q = hd_addr l1 (hd_addr l2 q)) as ->; [|tauto]. by destruct l1 as [|[]].
Qed.
Lemma linked_ext f f' l q : (forall x, x ∈ l -> f' x.1 = f x.1) -> linked f l q -> linked f' l q.
Proof.
  induction l as [|[a s] l IH]; intros He; [done|]. cbn [linked]. intros [Ha Hl].
  split; [rewrite <-Ha; apply (He (a, s)); by left|]. apply IH; [|done]. intros x Hx. apply He. by right.
Qed.
Lemma sorted_app (R : block -> block -> Prop) l1 l2 : StronglySorted R (l1 ++ l2) <->
  StronglySorted R l1 /\ StronglySorted R l2 /\ forall x y, x ∈ l1 -> y ∈ l2 -> R x y.
Proof.
  induction l1 as [|a l1 IH]; cbn [app].
  - split; [|tauto]. intros H. split; [constructor|]. split; [done|]. by intros x y ?%elem_of_nil.
  - split.
    + intros H. apply StronglySorted_inv in H as [H Ha]. apply IH in H as (H1 & H2 & H12).
      rewrite List.Forall_app in Ha. destruct Ha as [Ha1 Ha2]. split; [by constructor|]. split; [done|].
      intros x y [->|Hx]%elem_of_cons Hy; [|by apply H12]. rewrite List.Forall_forall in Ha2. apply Ha2. by apply list_elem_of_In.
    + intros (H1 & H2 & H12). apply StronglySorted_inv in H1 as [H1 Ha]. constructor.
      * apply IH. split; [done|]. split; [done|]. intros x y Hx. apply H12. by right.
      * apply List.Forall_app. split; [done|]. apply List.Forall_forall. intros y Hy%list_elem_of_In. apply H12; [by left|done].
Qed.
Lemma sorted_cons (R : block -> block -> Prop) x l : StronglySorted R (x :: l) <-> StronglySorted R l /\ forall y, y ∈ l -> R x y.
Proof.
  rewrite (sorted_app R [x] l). split.
  - intros (_ & H & Hx). split; [done|]. intros y Hy. apply Hx; [by left|done].
  - intros [H Hx]. split; [repeat constructor|]. split; [done|]. intros y z ->%list_elem_of_singleton. apply Hx.
Qed.

(** Where a block belongs in the list. *)
Lemma split_at_block N (x : block) : StronglySorted before N -> (forall y, y ∈ N -> apart y x) -> 0 < x.2 ->
  (forall y, y ∈ N -> 0 <= y.2) ->
  exists N1 N2, N = N1 ++ N2 /\ (forall y, y ∈ N1 -> y.1 + y.2 <= x.1) /\ (forall y, y ∈ N2 -> x.1 + x.2 <= y.1).
Proof.
  intros Hs Ha Hx Hpos. induction N as [|y N IH].
  { exists [], []. split; [done|]. split; intros y ?%elem_of_nil; done. }
  apply sorted_cons in Hs as [Hs Hy]. destruct (Ha y ltac:(by left)) as [Hb|Hb].
  - destruct IH as (N1 & N2 & -> & H1 & H2); [done|intros z Hz; apply Ha; by right|intros z Hz; apply Hpos; by right|].
    exists (y :: N1), N2. split; [done|]. split; [|done]. intros z [->|Hz]%elem_of_cons; [done|by apply H1].
  - exists [], (y :: N). split; [done|]. split; [by intros z ?%elem_of_nil|].
    intros z [->|Hz]%elem_of_cons; [done|]. specialize (Hy z Hz). specialize (Hpos y ltac:(by left)). unfold before in Hy. lia.
Qed.

(** *** The search of [free] *)

Definition stops (h : heap) (bp a : Z) : bool :=
  let n := ptr (hdr h a) in ((a <? bp) && (bp <? n)) || ((n <=? a) && ((a <? bp) || (bp <? n))).
Lemma free_search_stop fuel bp a h : stops h bp a = true -> (0 < fuel)%nat -> free_search fuel bp a h = Ok a h.
Proof.
  intros Hs Hf. destruct fuel as [|fuel]; [lia|]. cbn [free_search]. unfold bind, gets. unfold stops in Hs.
  destruct ((a <? bp) && (bp <? ptr (hdr h a))); [done|]. cbn [orb] in Hs. by rewrite Hs.
Qed.
Lemma free_search_run h bp l q k : linked (hdr h) l q -> (forall x, x ∈ l -> stops h bp x.1 = false) ->
  free_search (length l + k) bp (hd_addr l q) h = free_search k bp q h.
Proof.
  induction l as [|[a s] l IH]; intros Hl Hs; [done|]. cbn [linked] in Hl. destruct Hl as [Ha Hl].
  cbn [length Nat.add free_search hd_addr]. unfold bind, gets. pose proof (Hs (a, s) ltac:(by left)) as Hn. unfold stops in Hn. cbn [fst] in Hn.
  apply orb_false_iff in Hn as [-> ->]. rewrite Ha. cbn [ptr]. apply IH; [done|]. intros x Hx. apply Hs. by right.
Qed.

(** Nodes below the place of the block do not stop the search, nor do nodes above it. *)
Lemma not_stop_low h bp N1 p s : linked (hdr h) N1 p -> StronglySorted before (N1 ++ [(p, s)]) -> (forall y, y ∈ N1 -> 0 <= y.2) ->
  p < bp -> forall x, x ∈ N1 -> stops h bp x.1 = false.
Proof.
  intros Hl Hs Hpos Hp [a sa] (M3 & M4 & ->)%list_elem_of_split. apply linked_app in Hl as [_ [Ea _]].
  unfold stops. cbn [fst]. rewrite Ea. cbn [ptr]. rewrite <-app_assoc in Hs. apply sorted_app in Hs as (_ & Ha & _). cbn [app] in Ha.
  apply sorted_cons in Ha as [Hs Ha].
  assert (Hsa : 0 <= sa) by (apply (Hpos (a, sa)); rewrite !elem_of_app; right; by left).
  destruct M4 as [|[b sb] M4]; cbn [hd_addr app] in *.
  - assert (Hlt : before (a, sa) (p, s)) by (apply Ha; by left). unfold before in Hlt. cbn in Hlt.
    destruct (Z.ltb_spec bp p), (Z.leb_spec p a); rewrite ?andb_false_r; done || lia.
  - assert (Hlt : before (a, sa) (b, sb)) by (apply Ha; by left). apply sorted_cons in Hs as [_ Hb].
    assert (Hlt' : before (b, sb) (p, s)) by (apply Hb, elem_of_app; right; by left).
    assert (Hsb : 0 <= sb) by (apply (Hpos (b, sb)); rewrite !elem_of_app; right; right; by left).
    unfold before in Hlt, Hlt'. cbn in Hlt, Hlt'. destruct (Z.ltb_spec bp b), (Z.leb_spec b a); rewrite ?andb_false_r; done || lia.
Qed.
Lemma not_stop_high h bp N2 : linked (hdr h) N2 base -> StronglySorted before N2 -> (forall y, y ∈ N2 -> 0 <= y.2 /\ bp < y.1) ->
  base < bp -> forall x, x ∈ N2 -> stops h bp x.1 = false.
Proof.
  intros Hl Hs Hpos Hb [a sa] Hx. destruct (Hpos (a, sa) Hx) as [Hsa Hbpa]. cbn in Hsa, Hbpa. apply list_elem_of_split in Hx as (M3 & M4 & ->).
  apply linked_app in Hl as [_ [Ea _]]. unfold stops. cbn [fst]. rewrite Ea. cbn [ptr].
  apply sorted_app in Hs as (_ & Ha & _). apply sorted_cons in Ha as [_ Ha].
  destruct (Z.ltb_spec a bp); [lia|]. cbn [andb orb]. destruct M4 as [|[b sb] M4]; cbn [hd_addr].
  - destruct (Z.ltb_spec bp base); [lia|]. by rewrite andb_false_r.
  - assert (Hlt : before (a, sa) (b, sb)) by (apply Ha; by left). unfold before in Hlt. cbn in Hlt.
    destruct (Z.leb_spec b a); [lia|done].
Qed.

Lemma free_search_spec h bp f N1 p s N2 fuel : linked (hdr h) (N1 ++ (p, s) :: N2) base ->
  StronglySorted before (N1 ++ (p, s) :: N2) -> (forall y, y ∈ N1 ++ (p, s) :: N2 -> base <= y.1 /\ 0 <= y.2) ->
  hd_addr (N1 ++ (p, s) :: N2) 0 = base -> base < bp -> f ∈ map fst (N1 ++ (p, s) :: N2) ->
  p < bp -> (forall y, y ∈ N2 -> bp < y.1) -> (length N1 + length N2 < fuel)%nat ->
  free_search fuel bp f h = Ok p h.
Proof.
  intros Hl Hs Hpos Hb Hbp Hf Hp H2 Hfu. apply linked_app in Hl as [Hl1 Hl2]. cbn [hd_addr linked] in Hl1, Hl2.
  destruct Hl2 as [Hpp Hl2]. rewrite (app_assoc N1 [(p, s)] N2 : N1 ++ (p, s) :: N2 = _) in Hs. apply sorted_app in Hs as (Hs1 & Hs2 & _).
  assert (Hstop : stops h bp p = true).
  { unfold stops. rewrite Hpp. cbn [ptr]. destruct N2 as [|[b sb] N2]; cbn [hd_addr].
    - destruct (Hpos (p, s) ltac:(apply elem_of_app; right; by left)) as [Hbh _]. cbn in Hbh.
      destruct (Z.leb_spec base p), (Z.ltb_spec p bp), (Z.ltb_spec bp base); done || lia.
    - specialize (H2 (b, sb) ltac:(by left)). cbn in H2. destruct (Z.ltb_spec p bp), (Z.ltb_spec bp b); done || lia. }
  assert (Hn1 : forall x, x ∈ N1 -> stops h bp x.1 = false).
  { apply (not_stop_low h bp N1 p s); [done|done| |done]. intros y Hy. by apply Hpos, elem_of_app; left. }
  assert (Hn2 : forall x, x ∈ N2 -> stops h bp x.1 = false).
  { apply not_stop_high; [done|done| |done]. intros y Hy. split; [by apply Hpos, elem_of_app; right; right|by apply H2]. }
  assert (Hrun1 : forall M1 M2 k, N1 = M1 ++ M2 -> (0 < k)%nat -> free_search (length M2 + k) bp (hd_addr M2 p) h = Ok p h).
  { intros M1 M2 k -> Hk. rewrite free_search_run; [by apply free_search_stop|by apply linked_app in Hl1 as [_ ?]|].
    intros x Hx. apply Hn1, elem_of_app. by right. }
  apply list_elem_of_fmap in Hf as ([a sa] & -> & Hf). cbn [fst]. apply elem_of_app in Hf as [Hf|[[= -> ->]|Hf]%elem_of_cons].
  - apply list_elem_of_split in Hf as (M1 & M2 & ->). pose proof (Hrun1 M1 ((a, sa) :: M2) (fuel - length ((a, sa) :: M2))%nat eq_refl) as E.
    rewrite length_app in Hfu. rewrite Nat.add_comm, Nat.sub_add in E by lia. apply E. lia.
  - apply free_search_stop; [done|lia].
  - apply list_elem_of_split in Hf as (M1 & M2 & ->). rewrite length_app in Hfu.
    pose proof (free_search_run h bp ((a, sa) :: M2) base (fuel - length ((a, sa) :: M2))) as E.
    rewrite Nat.add_comm, Nat.sub_add in E by lia. cbn [hd_addr] in E.
    rewrite E; [|by apply linked_app in Hl2 as [_ ?]|intros x Hx; apply Hn2, elem_of_app; by right].
    pose proof (Hrun1 [] N1 (fuel - length ((a, sa) :: M2) - length N1)%nat eq_refl) as E1.
    rewrite Nat.add_comm, Nat.sub_add in E1 by lia. rewrite <-E1 by lia. f_equal.
    by destruct N1 as [|[]]; cbn [app hd_addr] in Hb |- *.
Qed.

(** *** [free] *)

(** The two steps of [free]: joining the block with the next one, then with the previous one. *)
Definition join_up (h : heap) (bp q : Z) : heap :=
  if bp + size (hdr h bp) =? q
  then set_hdr bp (fun b => {| ptr := ptr (hdr h q); size := u32 (size b + size (hdr h q)) |}) h
  else set_hdr bp (fun b => {| b with ptr := q |}) h.
Definition join_down (h : heap) (p bp : Z) : heap :=
  if p + size (hdr h p) =? bp
  then set_hdr p (fun b => {| ptr := ptr (hdr h bp); size := u32 (size b + size (hdr h bp)) |}) h
  else set_hdr p (fun b => {| b with ptr := bp |}) h.

Lemma free_eval fuel bp h p : free_search fuel bp (freep h) h = Ok p h ->
  free fuel (bp + 1) h = Ok tt (set_freep p (join_down (join_up h bp (ptr (hdr h p))) p bp)).
Proof.
  intros E. unfold free. replace (bp + 1 - 1) with bp by lia. unfold bind at 1, gets. rewrite (bind_ok _ _ _ _ _ E).
  unfold bind, get, modify, join_up. destruct (bp + size (hdr h bp) =? ptr (hdr h p)); unfold join_down;
    (match goal with |- context [if ?b then _ else _] => destruct b end; reflexivity).
Qed.

Lemma hdr_set_eq p f h : hdr (set_hdr p f h) p = f (hdr h p).
Proof. cbn. by rewrite Z.eqb_refl. Qed.
Lemma hdr_set_ne p f h x : x <> p -> hdr (set_hdr p f h) x = hdr h x.
Proof. intros H. cbn. by destruct (Z.eqb_spec x p). Qed.

(** The first step: the block [x], linked to what follows it, has swallowed a block that it touches. *)
Lemma join_up_spec h (x : block) N2 : linked (hdr h) N2 base -> size (hdr h x.1) = x.2 -> base < x.1 -> 0 < x.2 ->
  (forall y, y ∈ N2 -> x.1 + x.2 <= y.1 /\ 0 < y.2 /\ y.1 + y.2 < 2 ^ 31) -> x.1 + x.2 < 2 ^ 31 -> 0 < base ->
  StronglySorted before N2 ->
  exists n R, let h' := join_up h x.1 (hd_addr N2 base) in
    hdr h' x.1 = {| ptr := hd_addr R base; size := n |} /\ (forall a, a <> x.1 -> hdr h' a = hdr h a) /\
    linked (hdr h') R base /\ StronglySorted before ((x.1, n) :: R) /\ R ⊆ N2 /\ (length R <= length N2)%nat /\
    x.2 <= n /\ (x.1 + n = x.1 + x.2 \/ exists y, y ∈ N2 /\ x.1 + n = y.1 + y.2) /\
    forall u, covered u ((x.1, n) :: R) <-> covered u N2 \/ in_block u x.
Proof.
  destruct x as [bp n]. cbn [fst snd]. intros Hl Hsz Hb Hn H2 Hmax Hb0 Hs. unfold join_up. rewrite Hsz.
  assert (Hext : forall f l, (forall y, y ∈ l -> bp < y.1) -> linked (hdr h) l base -> linked (hdr (set_hdr bp f h)) l base).
  { intros f l Hlt. apply linked_ext. intros y Hy. apply hdr_set_ne. specialize (Hlt y Hy). lia. }
  destruct N2 as [|[q sq] N2]; cbn [hd_addr].
  - destruct (Z.eqb_spec (bp + n) base) as [|_]; [lia|]. exists n, []. rewrite hdr_set_eq. cbn zeta.
    split; [by destruct (hdr h bp) as [pp ss]; cbn in *; subst|]. split; [intros a Ha; by apply hdr_set_ne|]. split; [done|].
    split; [repeat constructor|]. split; [done|]. split; [done|]. split; [lia|]. split; [by left|].
    intros u. split; [intros (y & ->%list_elem_of_singleton & ?); by right|].
    intros [(y & ?%elem_of_nil & _)|Hu]; [done|]. exists (bp, n). by split; [left|].
  - cbn [linked] in Hl. destruct Hl as [Hq Hl]. pose proof (H2 (q, sq) ltac:(by left)) as (Hlt & Hsq & Hqm). cbn in Hlt, Hsq, Hqm.
    apply sorted_cons in Hs as [Hs Hq2].
    destruct (Z.eqb_spec (bp + n) q) as [<-|Hne].
    + exists (n + sq), N2. rewrite hdr_set_eq, Hq. cbn zeta. cbn [ptr size]. rewrite Hsz.
      rewrite u32_small by lia. split; [done|]. split; [intros a Ha; by apply hdr_set_ne|].
      split; [apply Hext; [|done]; intros y Hy; specialize (H2 y ltac:(by right)); lia|].
      split. { apply sorted_cons. split; [done|]. intros y Hy. apply Hq2 in Hy. unfold before in *. cbn in *. lia. }
      split; [intros y Hy; by right|]. split; [cbn; lia|]. split; [lia|].
      split; [right; exists (bp + n, sq); split; [by left|cbn; lia]|]. intros u. split.
      * intros (y & [->|Hy]%elem_of_cons & Hu); [|left; exists y; split; [by right|done]].
        unfold in_block in *. cbn in *. destruct (decide (u < bp + n)); [right; lia|].
        left. exists (bp + n, sq). split; [by left|]. unfold in_block. cbn. lia.
      * intros [(y & [->|Hy]%elem_of_cons & Hu)|Hu].
        -- exists (bp, n + sq). split; [by left|]. unfold in_block in *. cbn in *. lia.
        -- exists y. by split; [right|].
        -- exists (bp, n + sq). split; [by left|]. unfold in_block in *. cbn in *. lia.
    + exists n, ((q, sq) :: N2). rewrite hdr_set_eq. cbn zeta.
      split; [by destruct (hdr h bp) as [pp ss]; cbn in *; subst|]. split; [intros a Ha; by apply hdr_set_ne|].
      split; [apply Hext; [|by split]; intros y Hy; specialize (H2 y Hy); lia|].
      split. { apply sorted_cons. split; [by apply sorted_cons|]. intros y [->|Hy]%elem_of_cons; unfold before; cbn; [lia|].
        apply Hq2 in Hy. unfold before in Hy. cbn in Hy. lia. }
      split; [done|]. split; [done|]. split; [lia|]. split; [by left|]. intros u. split.
      * intros (y & [->|Hy]%elem_of_cons & Hu); [by right|]. left. by exists y.
      * intros [(y & Hy & Hu)|Hu]; [exists y; by split; [right|]|]. exists (bp, n). by split; [left|].
Qed.

Lemma apart_iff x y : 0 < x.2 -> 0 < y.2 -> apart x y <-> ~ exists u, in_block u x /\ in_block u y.
Proof.
  intros Hx Hy. unfold apart, in_block. split.
  - intros H [u Hu]. lia.
  - intros H. destruct (decide (x.1 + x.2 <= y.1)); [by left|]. destruct (decide (y.1 + y.2 <= x.1)); [by right|].
    exfalso. apply H. exists (Z.max x.1 y.1). lia.
Qed.
Lemma apart_sym x y : apart x y -> apart y x.
Proof. unfold apart. tauto. Qed.
Lemma covered_app u l1 l2 : covered u (l1 ++ l2) <-> covered u l1 \/ covered u l2.
Proof.
  unfold covered. split.
  - intros (x & [H|H]%elem_of_app & Hu); [left|right]; eauto.
  - intros [(x & H & Hu)|(x & H & Hu)]; exists x; (split; [apply elem_of_app; tauto|done]).
Qed.
Lemma covered_cons u x l : covered u (x :: l) <-> in_block u x \/ covered u l.
Proof.
  rewrite (covered_app u [x] l). unfold covered at 1. split; intros [H|H]; [|by right| |by right]; left.
  - destruct H as (y & ->%list_elem_of_singleton & ?). done.
  - exists x. by split; [left|].
Qed.
Lemma covered_nil u : covered u [] <-> False.
Proof. split; [intros (x & ?%elem_of_nil & _); done|done]. Qed.

(** The second step. [(p, s)] is the node before the block [(bp, n)], [R] the nodes after it. *)
Lemma join_down_spec h N1 p s bp n R : linked (hdr h) N1 p -> size (hdr h p) = s ->
  hdr h bp = {| ptr := hd_addr R base; size := n |} -> linked (hdr h) R base ->
  StronglySorted before (N1 ++ [(p, s)]) -> StronglySorted before ((bp, n) :: R) -> p + s <= bp -> p < bp -> 0 < n -> 0 <= s ->
  bp + n < 2 ^ 31 -> 0 < p -> (forall y, y ∈ N1 -> 0 <= y.2) ->
  exists X, let h' := join_down h p bp in
    linked (hdr h') (N1 ++ X ++ R) base /\ StronglySorted before (N1 ++ X ++ R) /\
    (forall a, a <> p -> hdr h' a = hdr h a) /\
    ((X = [(p, s); (bp, n)] /\ p + s < bp) \/ (X = [(p, s + n)] /\ p + s = bp)).
Proof.
  intros Hl1 Hsz Hbp HlR Hs1 HsR Hle Hlt Hn Hs0 Hmax Hp0 Hpos. unfold join_down. rewrite Hsz.
  apply sorted_app in Hs1 as (Hs1 & _ & Hs1p). pose proof HsR as HsR0. apply sorted_cons in HsR as [HsR HRb].
  assert (Hext : forall f l q, (forall y, y ∈ l -> y.1 <> p) -> linked (hdr h) l q -> linked (hdr (set_hdr p f h)) l q).
  { intros f l q Hy. apply linked_ext. intros y Hin. apply hdr_set_ne. by apply Hy. }
  assert (HN1 : forall y, y ∈ N1 -> y.1 + y.2 < p) by (intros y Hy; apply (Hs1p y (p, s) Hy); by left).
  assert (HR : forall y, y ∈ R -> bp + n < y.1) by (intros y Hy; apply (HRb y Hy)).
  assert (HN1' : forall y, y ∈ N1 -> y.1 <> p) by (intros y Hy; specialize (HN1 y Hy); specialize (Hpos y Hy); lia).
  assert (HR' : forall y, y ∈ R -> y.1 <> p) by (intros y Hy; specialize (HR y Hy); lia).
  destruct (Z.eqb_spec (p + s) bp) as [Hm|Hne].
  - exists [(p, s + n)]. cbn zeta. split; [|split; [|split; [intros a Ha; by apply hdr_set_ne|by right]]].
    + rewrite !linked_app. cbn [hd_addr app linked]. split; [by apply Hext|]. split; [|by apply Hext]. split; [|done].
      rewrite hdr_set_eq, Hbp. cbn [ptr size]. rewrite Hsz, u32_small by lia. done.
    + rewrite !sorted_app. split; [done|]. split.
      * split; [repeat constructor|]. split; [done|]. intros x y ->%list_elem_of_singleton Hy. specialize (HR y Hy). unfold before. cbn. lia.
      * intros x y Hx. specialize (HN1 x Hx). intros [->%list_elem_of_singleton|Hy]%elem_of_app; unfold before; cbn; [done|].
        specialize (HR y Hy). lia.
  - exists [(p, s); (bp, n)]. cbn zeta. split; [|split; [|split; [intros a Ha; by apply hdr_set_ne|left; split; [done|lia]]]].
    + rewrite !linked_app. cbn [hd_addr app linked]. split; [by apply Hext|]. split; [|by apply Hext]. split.
      * rewrite hdr_set_eq. destruct (hdr h p) as [pp ss]. cbn in *. by subst.
      * split; [|done]. rewrite hdr_set_ne by lia. by rewrite Hbp.
    + rewrite sorted_app. split; [done|]. cbn [app]. split.
      * apply sorted_cons. split; [done|]. intros y [->|Hy]%elem_of_cons; unfold before; cbn; [lia|]. specialize (HR y Hy). lia.
      * intros x y Hx. specialize (HN1 x Hx). intros [->|[->|Hy]%elem_of_cons]%elem_of_cons; unfold before; cbn; [done|lia|].
        specialize (HR y Hy). lia.
Qed.

(** The node before a block in use. *)
Lemma split_before h L A x : inv h L A -> x ∈ A -> exists N1 p s N2, (base, 0) :: L = N1 ++ (p, s) :: N2 /\
  (forall y, y ∈ N1 ++ [(p, s)] -> y.1 + y.2 <= x.1) /\ (forall y, y ∈ N2 -> x.1 + x.2 <= y.1).
Proof.
  intros Hi Hx. destruct (inv_range _ _ _ Hi x ltac:(apply elem_of_app; by right)) as (Hb & Hs & _).
  assert (HL : forall y, y ∈ L -> base < y.1 /\ 0 < y.2 /\ y.1 + y.2 <= brk h) by (intros y Hy; apply (inv_range _ _ _ Hi); apply elem_of_app; by left).
  destruct (split_at_block ((base, 0) :: L) x) as (N1 & N2 & E & H1 & H2).
  - apply (inv_sorted _ _ _ Hi).
  - intros y [->|Hy]%elem_of_cons; [left; cbn; lia|]. by apply (inv_apart _ _ _ Hi).
  - done.
  - intros y [->|Hy]%elem_of_cons; [done|]. specialize (HL y Hy). lia.
  - destruct N1 as [|y N1 _] using rev_ind.
    + cbn [app] in E. subst N2. specialize (H2 (base, 0) ltac:(by left)). cbn in H2. lia.
    + destruct y as [p s]. exists N1, p, s, N2. rewrite <-app_assoc in E. by repeat split.
Qed.

(** The list after [free] is again a list of nodes that starts at [base]. *)
Lemma nodes_base N1 p s N2 X R L n bp : (base, 0) :: L = N1 ++ (p, s) :: N2 -> base < bp ->
  ((X = [(p, s); (bp, n)] /\ p + s < bp) \/ (X = [(p, s + n)] /\ p + s = bp)) ->
  exists L', (base, 0) :: L' = N1 ++ X ++ R.
Proof.
  intros E Hb HX. destruct N1 as [|y N1]; cbn [app] in E.
  - injection E as <- <- _. destruct HX as [[-> _]|[_ ?]]; [|lia]. cbn [app]. eauto.
  - injection E as <- _. cbn [app]. eauto.
Qed.

(** What [inv] says of the nodes around a split. *)
Lemma nodes_range h L A N : inv h L A -> (base, 0) :: L = N -> forall y, y ∈ N ->
  (y = (base, 0) \/ y ∈ L) /\ base <= y.1 /\ 0 <= y.2 /\ y.1 + y.2 <= brk h /\ (base < y.1 -> 0 < y.2).
Proof.
  intros Hi <- y Hy. pose proof (inv_base _ _ _ Hi). apply elem_of_cons in Hy as Hy'. split; [done|]. destruct Hy' as [->|Hy']; [cbn; lia|].
  pose proof (inv_range _ _ _ Hi y ltac:(apply elem_of_app; by left)). lia.
Qed.

Lemma brk_join_up h bp q : brk (join_up h bp q) = brk h /\ grants (join_up h bp q) = grants h.
Proof. unfold join_up. by case_match. Qed.
Lemma brk_join_down h p bp : brk (join_down h p bp) = brk h /\ grants (join_down h p bp) = grants h.
Proof. unfold join_down. by case_match. Qed.

Lemma free_found fuel h L A x N1 p s N2 : inv h L A -> x ∈ A -> (base, 0) :: L = N1 ++ (p, s) :: N2 ->
  (forall y, y ∈ N1 ++ [(p, s)] -> y.1 + y.2 <= x.1) -> (forall y, y ∈ N2 -> x.1 + x.2 <= y.1) -> (length L < fuel)%nat ->
  p < x.1 /\ free_search fuel x.1 (freep h) h = Ok p h.
Proof.
  intros Hi Hx E H1 H2 Hf. pose proof (nodes_range _ _ _ _ Hi E) as HN.
  destruct (inv_range _ _ _ Hi x ltac:(apply elem_of_app; by right)) as (Hxb & Hx0 & Hxe).
  pose proof (H1 (p, s) ltac:(apply elem_of_app; right; by left)) as Hps. cbn in Hps.
  assert (Hpx : p < x.1).
  { destruct (HN (p, s) ltac:(apply elem_of_app; right; by left)) as (_ & Hb & _ & _ & Hpos). cbn in *.
    destruct (decide (p = base)); [lia|]. specialize (Hpos ltac:(lia)). lia. }
  split; [done|]. apply (free_search_spec h x.1 (freep h) N1 p s N2).
  - rewrite <-E. apply (inv_linked _ _ _ Hi).
  - rewrite <-E. apply (inv_sorted _ _ _ Hi).
  - intros y Hy. destruct (HN y Hy) as (_ & ? & ? & _). lia.
  - by rewrite <-E.
  - done.
  - rewrite <-E. apply (inv_freep _ _ _ Hi).
  - done.
  - intros y Hy. specialize (H2 y Hy). lia.
  - apply (f_equal length) in E. rewrite length_app in E. cbn in E. lia.
Qed.

(** The nodes after [free]. *)
Record freed (h h' : heap) (L L' : list block) (x : block) : Prop := {
  freed_linked : linked (hdr h') ((base, 0) :: L') base;
  freed_sorted : StronglySorted before ((base, 0) :: L');
  freed_freep : freep h' ∈ map fst ((base, 0) :: L');
  freed_node : freep h' = base \/ exists y, y ∈ L /\ freep h' = y.1;
  freed_frame : forall a, a <> freep h' -> a <> x.1 -> hdr h' a = hdr h a;
  freed_brk : brk h' = brk h /\ grants h' = grants h;
  freed_range : forall y, y ∈ L' -> 0 < y.2 /\ y.1 + y.2 <= brk h;
  freed_length : (length L' <= S (length L))%nat;
  freed_big : exists y, y ∈ L' /\ x.2 <= y.2;
  freed_covered : forall u, covered u L' <-> covered u L \/ in_block u x
}.

Lemma free_nodes fuel h L A x : inv h L A -> x ∈ A -> (length L < fuel)%nat ->
  exists h' L', free fuel (x.1 + 1) h = Ok tt h' /\ freed h h' L L' x.
Proof.
  intros Hi Hx Hf. destruct (split_before _ _ _ _ Hi Hx) as (N1 & p & s & N2 & E & H1 & H2).
  destruct (free_found fuel _ _ _ _ _ _ _ _ Hi Hx E H1 H2 Hf) as [Hpx Hsearch]. pose proof (nodes_range _ _ _ _ Hi E) as HN.
  destruct (inv_range _ _ _ Hi x ltac:(apply elem_of_app; by right)) as (Hxb & Hx0 & Hxe). pose proof (inv_base _ _ _ Hi) as [Hb0 Hbrk].
  pose proof (inv_linked _ _ _ Hi) as Hl. pose proof (inv_sorted _ _ _ Hi) as Hs. rewrite E in Hl, Hs.
  rewrite (free_eval _ _ _ _ Hsearch). apply linked_app in Hl as [Hl1 [Hlp Hl2]]. cbn [hd_addr] in Hl1. rewrite Hlp. cbn [ptr].
  rewrite (app_assoc N1 [(p, s)] N2 : N1 ++ (p, s) :: N2 = _) in Hs. apply sorted_app in Hs as (Hs1 & Hs2 & _).
  destruct (join_up_spec h x N2 Hl2) as (n & R & Hbp & Hframe & HlR & HsR & HRsub & HRlen & Hn & Hend & Hcov);
    [by apply (inv_used _ _ _ Hi)|done|done| |lia|lia|done|].
  { intros y Hy. specialize (H2 y Hy). destruct (HN y ltac:(apply elem_of_app; right; by right)) as (_ & _ & _ & ? & ?). lia. }
  pose proof (HN (p, s) ltac:(apply elem_of_app; right; by left)) as (HpL & Hpb & Hp0 & _ & Hpos). cbn in Hpb, Hp0, Hpos.
  pose proof (H1 (p, s) ltac:(apply elem_of_app; right; by left)) as Hps. cbn in Hps.
  assert (Hxn : x.1 + n <= brk h).
  { destruct Hend as [->|(y & Hy & ->)]; [lia|]. destruct (HN y ltac:(apply elem_of_app; right; by right)) as (_ & _ & _ & ? & _). lia. }
  destruct (join_down_spec (join_up h x.1 (hd_addr N2 base)) N1 p s x.1 n R) as (X & HlX & HsX & HfX & HX); try done; try lia.
  { apply (linked_ext (hdr h)); [|done]. intros y Hy. apply Hframe. apply sorted_app in Hs1 as (_ & _ & Hs1).
    pose proof (Hs1 y (p, s) Hy ltac:(by left)) as Hlt. unfold before in Hlt. cbn in Hlt.
    pose proof (HN y ltac:(apply elem_of_app; by left)). lia. }
  { rewrite Hframe by lia. by rewrite Hlp. }
  { intros y Hy. destruct (HN y ltac:(apply elem_of_app; by left)) as (_ & _ & ? & _). lia. }
  destruct (nodes_base _ _ _ _ _ R _ _ _ E Hxb HX) as [L' EL].
  eexists _, L'. split; [reflexivity|]. rewrite <-EL in HlX, HsX.
  assert (HXp : exists sp, (p, sp) ∈ X) by (destruct HX as [[-> _]|[-> _]]; eexists; by left).
  assert (HXb : exists y, y ∈ X /\ n <= y.2) by (destruct HX as [[-> _]|[-> _]]; [exists (x.1, n); split; [right; by left|done]|exists (p, s + n); split; [by left|cbn; lia]]).
  split; [exact HlX|exact HsX|..].
  - cbn [freep set_freep]. destruct HXp as [sp Hsp]. rewrite EL, list_elem_of_fmap. exists (p, sp). split; [done|].
    rewrite !elem_of_app. tauto.
  - cbn [freep set_freep]. destruct HpL as [[= -> _]|HpL]; [by left|]. right. by exists (p, s).
  - intros a Ha Hax. cbn [freep set_freep hdr] in *. by rewrite HfX, Hframe.
  - split; cbn [set_freep brk grants]; [by rewrite (proj1 (brk_join_down _ _ _)), (proj1 (brk_join_up _ _ _))|].
    by rewrite (proj2 (brk_join_down _ _ _)), (proj2 (brk_join_up _ _ _)).
  - intros y Hy. apply sorted_cons in HsX as [_ HsX]. specialize (HsX y Hy). unfold before in HsX. cbn in HsX.
    assert (HyN : y ∈ N1 ++ X ++ R) by (rewrite <-EL; by right). rewrite !elem_of_app in HyN.
    assert (Hold : y ∈ N1 ++ (p, s) :: N2 -> 0 < y.2 /\ y.1 + y.2 <= brk h) by (intros H; destruct (HN y H) as (_ & _ & _ & ? & Hps'); split; [apply Hps'; lia|done]).
    destruct HyN as [HyN|[HyN|HyN]].
    + apply Hold, elem_of_app. by left.
    + destruct HX as [[-> _]|[-> Hm]]; rewrite !elem_of_cons, elem_of_nil in HyN.
      * destruct HyN as [->|[->|[]]]; [apply Hold, elem_of_app; right; by left|cbn; lia].
      * destruct HyN as [->|[]]. cbn. lia.
    + apply Hold, elem_of_app. right. right. by apply HRsub.
  - apply (f_equal length) in E, EL. rewrite !length_app in E, EL. destruct HX as [[-> _]|[-> _]]; cbn in *; lia.
  - destruct HXb as (y & Hy & Hyn). exists y. split; [|lia].
    assert (HyN : y ∈ (base, 0) :: L') by (rewrite EL, !elem_of_app; tauto). apply elem_of_cons in HyN as [->|?]; [cbn in Hyn; lia|done].
  - intros u. assert (Hskip : forall M, covered u ((base, 0) :: M) <-> covered u M).
    { intros M. rewrite covered_cons. unfold in_block. cbn. split; [intros [?|?]; [lia|done]|by right]. }
    rewrite <-(Hskip L'), <-(Hskip L), EL, E, !covered_app, covered_cons. specialize (Hcov u). rewrite covered_cons in Hcov.
    assert (HXc : covered u X <-> in_block u (p, s) \/ in_block u (x.1, n)); [|tauto].
    destruct HX as [[-> _]|[-> Hm]]; rewrite !covered_cons, covered_nil; [tauto|]. unfold in_block. cbn. lia.
Qed.

(** [free] gives the block back: it is not in use any more, its units are free, the rest is as before. *)
Lemma free_spec fuel h L A1 x A2 : inv h L (A1 ++ x :: A2) -> (length L < fuel)%nat ->
  exists h' L', free fuel (x.1 + 1) h = Ok tt h' /\ inv h' L' (A1 ++ A2) /\ freed h h' L L' x.
Proof.
  intros Hi Hf. assert (Hx : x ∈ A1 ++ x :: A2) by (apply elem_of_app; right; by left).
  destruct (free_nodes fuel h L _ x Hi Hx Hf) as (h' & L' & E & Hfr). exists h', L'. split; [done|]. split; [|done].
  assert (HA : forall y, y ∈ A1 ++ A2 -> y ∈ A1 ++ x :: A2) by (intros y; rewrite !elem_of_app, elem_of_cons; tauto).
  pose proof (inv_used_apart _ _ _ Hi) as Hap. apply sorted_app in Hap as (Ha1 & Ha2 & Ha12). apply sorted_cons in Ha2 as [Ha2 Hax].
  assert (HxA : forall y, y ∈ A1 ++ A2 -> apart x y).
  { intros y [Hy|Hy]%elem_of_app; [apply apart_sym, Ha12; [done|by left]|by apply Hax]. }
  assert (HAr : forall y, y ∈ A1 ++ A2 -> base < y.1 /\ 0 < y.2 /\ y.1 + y.2 <= brk h).
  { intros y Hy%HA. apply (inv_range _ _ _ Hi), elem_of_app. by right. }
  destruct (inv_range _ _ _ Hi x ltac:(apply elem_of_app; by right)) as (Hxb & Hx0 & Hxe).
  pose proof (freed_brk _ _ _ _ _ Hfr) as [Hbrk _]. split.
  - apply (freed_linked _ _ _ _ _ Hfr).
  - apply (freed_sorted _ _ _ _ _ Hfr).
  - apply (freed_freep _ _ _ _ _ Hfr).
  - intros y Hy. specialize (HxA y Hy) as Hxy. pose proof (HAr y Hy) as Hr. rewrite (freed_frame _ _ _ _ _ Hfr).
    + by apply (inv_used _ _ _ Hi), HA.
    + destruct (freed_node _ _ _ _ _ Hfr) as [->|(z & Hz & ->)]; [lia|]. pose proof (inv_apart _ _ _ Hi z y Hz (HA y Hy)) as Hzy.
      pose proof (inv_range _ _ _ Hi z ltac:(apply elem_of_app; by left)). unfold apart in Hzy. lia.
    + unfold apart in Hxy. lia.
  - rewrite Hbrk. intros y [Hy|Hy]%elem_of_app; [|by apply HAr]. pose proof (freed_range _ _ _ _ _ Hfr y Hy).
    pose proof (freed_sorted _ _ _ _ _ Hfr) as Hs. apply sorted_cons in Hs as [_ Hs]. specialize (Hs y Hy). unfold before in Hs. cbn in Hs. lia.
  - intros y z Hy Hz. pose proof (freed_range _ _ _ _ _ Hfr y Hy) as [Hy0 _]. pose proof (HAr z Hz) as (_ & Hz0 & _).
    apply apart_iff; [done|done|]. intros (u & Huy & Huz).
    destruct (proj1 (freed_covered _ _ _ _ _ Hfr u)) as [(w & Hw & Huw)|Hux]; [by exists y| |].
    + pose proof (inv_apart _ _ _ Hi w z Hw (HA z Hz)) as Hwz. unfold apart, in_block in *. lia.
    + specialize (HxA z Hz). unfold apart, in_block in *. lia.
  - apply sorted_app. split; [done|]. split; [done|]. intros y z Hy Hz. apply Ha12; [done|by right].
  - rewrite Hbrk. apply (inv_base _ _ _ Hi).
Qed.

(** *** [malloc] *)

(** Taking [n] units from the free block at [p]. *)
Definition carve (h : heap) (prevp p n : Z) : Z * heap :=
  if size (hdr h p) =? n
  then (p, set_freep prevp (set_hdr prevp (fun b => {| b with ptr := ptr (hdr h p) |}) h))
  else let rest := size (hdr h p) - n in
       (p + rest, set_freep prevp (set_hdr (p + rest) (fun b => {| b with size := n |})
                                   (set_hdr p (fun b => {| b with size := rest |}) h))).

(** What the list looks like around the block. *)
Lemma around h L A M1 prevp sp p s M2 : inv h L A -> (base, 0) :: L = M1 ++ (prevp, sp) :: (p, s) :: M2 ->
  (p, s) ∈ L /\ base < p /\ 0 < s /\ 0 <= sp /\ prevp + sp < p /\ base <= prevp /\
  hdr h prevp = {| ptr := p; size := sp |} /\ hdr h p = {| ptr := hd_addr M2 base; size := s |} /\
  linked (hdr h) M1 prevp /\ linked (hdr h) M2 base /\
  StronglySorted before (M1 ++ [(prevp, sp)]) /\ StronglySorted before M2 /\
  (forall y, y ∈ M1 -> y.1 < prevp /\ y.1 + y.2 < prevp) /\ (forall y, y ∈ M2 -> p + s < y.1) /\
  (forall a, a ∈ A -> apart (p, s) a /\ 0 < a.2 /\ a.1 <> prevp).
Proof.
  intros Hi E. pose proof (nodes_range _ _ _ _ Hi E) as HN. pose proof (inv_linked _ _ _ Hi) as Hl. pose proof (inv_sorted _ _ _ Hi) as Hs.
  rewrite E in Hl, Hs. apply linked_app in Hl as [Hl1 (Hp1 & Hp2 & Hl2)]. cbn [hd_addr] in Hl1, Hp1.
  rewrite (app_assoc M1 [(prevp, sp)] _ : M1 ++ (prevp, sp) :: (p, s) :: M2 = _) in Hs.
  apply sorted_app in Hs as (Hs1 & Hs2 & Hs12). apply sorted_cons in Hs2 as [Hs2 Hps].
  pose proof (Hs12 (prevp, sp) (p, s) ltac:(apply elem_of_app; right; by left) ltac:(by left)) as Hpp. unfold before in Hpp. cbn in Hpp.
  pose proof (HN (prevp, sp) ltac:(apply elem_of_app; right; by left)) as (Hprev & Hb1 & Hsp & _). cbn in Hb1, Hsp.
  pose proof (HN (p, s) ltac:(apply elem_of_app; right; right; by left)) as (HpL & _ & _ & _ & Hpos). cbn in Hpos.
  destruct HpL as [[= -> ->]|HpL]; [lia|]. assert (base < p) by lia. specialize (Hpos ltac:(done)).
  repeat (split; [done|]). split.
  - intros y Hy. pose proof Hs1 as Hs1'. apply sorted_app in Hs1' as (_ & _ & H1). pose proof (H1 y (prevp, sp) Hy ltac:(by left)) as Hb.
    unfold before in Hb. cbn in Hb. destruct (HN y ltac:(apply elem_of_app; by left)) as (_ & _ & ? & _). lia.
  - split; [intros y Hy; apply (Hps y Hy)|]. intros a Ha. pose proof (inv_range _ _ _ Hi a ltac:(apply elem_of_app; by right)) as (Hba & Ha0 & _).
    split; [by apply (inv_apart _ _ _ Hi)|]. split; [done|]. destruct Hprev as [[= -> ->]|Hprev]; [lia|].
    pose proof (inv_apart _ _ _ Hi _ _ Hprev Ha) as Hap. pose proof (inv_range _ _ _ Hi _ ltac:(apply elem_of_app; left; exact Hprev)).
    unfold apart in Hap. cbn in *. lia.
Qed.

(** The nodes that remain, given what became of the block. *)
Record carved (h h' : heap) (L L' : list block) (A : list block) (p s r n : Z) : Prop := {
  carved_linked : linked (hdr h') ((base, 0) :: L') base;
  carved_sorted : StronglySorted before ((base, 0) :: L');
  carved_freep : freep h' ∈ map fst ((base, 0) :: L');
  carved_size : size (hdr h' r) = n;
  carved_block : p <= r /\ r + n = p + s;
  carved_frame : forall a, a ∈ A -> size (hdr h' a.1) = size (hdr h a.1);
  carved_brk : brk h' = brk h /\ grants h' = grants h;
  carved_nodes : forall y, y ∈ L' -> (y ∈ L /\ (y.1 + y.2 <= p \/ p + s <= y.1)) \/ (y = (p, r - p) /\ p < r);
  carved_length : (length L' <= length L)%nat;
  carved_covered : forall u, covered u L <-> covered u L' \/ in_block u (r, n)
}.

Lemma nodes_head L M1 a s M2 X : (base, 0) :: L = M1 ++ (a, s) :: M2 -> exists L', (base, 0) :: L' = M1 ++ (a, s) :: X.
Proof. intros E. destruct M1 as [|y M1]; cbn [app] in E; [injection E as <- <- _|injection E as <- _]; cbn [app]; eauto. Qed.
Lemma covered_base u M : covered u ((base, 0) :: M) <-> covered u M.
Proof. rewrite covered_cons. unfold in_block. cbn. split; [intros [?|?]; [lia|done]|by right]. Qed.
Lemma nodes_in h L A N y : inv h L A -> (base, 0) :: L = N -> y ∈ N -> base < y.1 -> y ∈ L.
Proof. intros Hi <- [->|?]%elem_of_cons; [cbn; lia|done]. Qed.

(** The block is taken whole. *)
Lemma carve_whole h L A M1 prevp sp p M2 n : inv h L A -> (base, 0) :: L = M1 ++ (prevp, sp) :: (p, n) :: M2 ->
  exists L', carved h (set_freep prevp (set_hdr prevp (fun b => {| b with ptr := hd_addr M2 base |}) h)) L L' A p n p n.
Proof.
  intros Hi E. destruct (around _ _ _ _ _ _ _ _ _ Hi E) as (HpL & Hbp & Hs0 & Hsp & Hpp & Hbprev & Hprev & Hp & Hl1 & Hl2 & Hs1 & Hs2 & H1 & H2 & HA).
  destruct (nodes_head _ _ _ _ _ M2 E) as [L' EL]. exists L'.
  assert (HsL : StronglySorted before ((base, 0) :: L')).
  { rewrite EL, (app_assoc M1 [(prevp, sp)] M2 : M1 ++ (prevp, sp) :: M2 = _). apply sorted_app. split; [done|]. split; [done|].
    intros x y [Hx| ->%list_elem_of_singleton]%elem_of_app Hy; specialize (H2 y Hy); unfold before; cbn; [specialize (H1 x Hx)|]; lia. }
  split; [| |..]; cbn [set_freep freep brk grants].
  - rewrite EL. apply linked_app. cbn [hd_addr linked]. split; [|split].
    + apply (linked_ext (hdr h)); [|done]. intros y Hy. apply (hdr_set_ne prevp). specialize (H1 y Hy). lia.
    + change (hdr (set_hdr prevp (fun b => {| b with ptr := hd_addr M2 base |}) h) prevp = {| ptr := hd_addr M2 base; size := sp |}).
      by rewrite hdr_set_eq, Hprev.
    + apply (linked_ext (hdr h)); [|done]. intros y Hy. apply (hdr_set_ne prevp). specialize (H2 y Hy). lia.
  - done.
  - rewrite EL, map_app. apply elem_of_app. right. by left.
  - change (size (hdr (set_hdr prevp (fun b => {| b with ptr := hd_addr M2 base |}) h) p) = n). rewrite hdr_set_ne by lia. by rewrite Hp.
  - lia.
  - intros a Ha. apply (f_equal size), (hdr_set_ne prevp). by destruct (HA a Ha) as (_ & _ & ?).
  - done.
  - intros y Hy. left. apply sorted_cons in HsL as [_ HsL]. specialize (HsL y Hy). unfold before in HsL. cbn in HsL.
    assert (HyN : y ∈ M1 ++ (prevp, sp) :: M2) by (rewrite <-EL; by right). split.
    + apply (nodes_in _ _ _ _ _ Hi E); [|lia]. rewrite !elem_of_app, !elem_of_cons in *. tauto.
    + apply elem_of_app in HyN as [Hy1|[->|Hy2]%elem_of_cons]; [specialize (H1 y Hy1); lia|cbn; lia|specialize (H2 y Hy2); lia].
  - apply (f_equal length) in E, EL. rewrite !length_app in *. cbn in *. lia.
  - intros u. rewrite <-(covered_base u L), <-(covered_base u L'), EL, E, !covered_app, !covered_cons. tauto.
Qed.

(** Its tail is taken, the rest stays where it is. *)
Lemma carve_tail h L A M1 prevp sp p s M2 n : inv h L A -> (base, 0) :: L = M1 ++ (prevp, sp) :: (p, s) :: M2 -> 0 < n < s ->
  exists L', carved h (set_freep prevp (set_hdr (p + (s - n)) (fun b => {| b with size := n |})
    (set_hdr p (fun b => {| b with size := s - n |}) h))) L L' A p s (p + (s - n)) n.
Proof.
  intros Hi E Hn. destruct (around _ _ _ _ _ _ _ _ _ Hi E) as (HpL & Hbp & Hs0 & Hsp & Hpp & Hbprev & Hprev & Hp & Hl1 & Hl2 & Hs1 & Hs2 & H1 & H2 & HA).
  destruct (nodes_head _ _ _ _ _ ((p, s - n) :: M2) E) as [L' EL]. exists L'. set (r := p + (s - n)).
  assert (Hh : forall a, a <> p -> a <> r -> hdr (set_freep prevp (set_hdr r (fun b => {| b with size := n |}) (set_hdr p (fun b => {| b with size := s - n |}) h))) a = hdr h a).
  { intros a Hap Har. cbn [set_freep hdr]. rewrite (hdr_set_ne r) by done. by apply hdr_set_ne. }
  assert (HsL : StronglySorted before ((base, 0) :: L')).
  { rewrite EL, (app_assoc M1 [(prevp, sp)] _ : M1 ++ (prevp, sp) :: (p, s - n) :: M2 = _). apply sorted_app. split; [done|]. split.
    - apply sorted_cons. split; [done|]. intros y Hy. specialize (H2 y Hy). unfold before. cbn. lia.
    - intros x y Hx Hy. assert (x.1 + x.2 < p) by (apply elem_of_app in Hx as [Hx| ->%list_elem_of_singleton]; [specialize (H1 x Hx)|cbn]; lia).
      apply elem_of_cons in Hy as [->|Hy]; unfold before; cbn; [lia|]. specialize (H2 y Hy). lia. }
  split; [| |..].
  - rewrite EL. apply linked_app. cbn [hd_addr linked]. split; [|split; [|split]].
    + apply (linked_ext (hdr h)); [|done]. intros y Hy. specialize (H1 y Hy). apply Hh; unfold r; lia.
    + rewrite Hh by (unfold r; lia). done.
    + cbn [set_freep hdr]. rewrite (hdr_set_ne r) by (unfold r; lia). rewrite hdr_set_eq, Hp. done.
    + apply (linked_ext (hdr h)); [|done]. intros y Hy. specialize (H2 y Hy). apply Hh; unfold r; lia.
  - done.
  - rewrite EL, map_app. apply elem_of_app. right. by left.
  - cbn [set_freep hdr]. by rewrite hdr_set_eq.
  - unfold r. lia.
  - intros a Ha. destruct (HA a Ha) as (Hap & Ha0 & _). unfold apart in Hap. cbn in Hap. rewrite Hh; [done|lia|unfold r; lia].
  - done.
  - intros y Hy. apply sorted_cons in HsL as [_ HsL]. specialize (HsL y Hy). unfold before in HsL. cbn in HsL.
    assert (HyN : y ∈ M1 ++ (prevp, sp) :: (p, s - n) :: M2) by (rewrite <-EL; by right).
    apply elem_of_app in HyN as [Hy1|[->|[->|Hy2]%elem_of_cons]%elem_of_cons].
    + left. split; [apply (nodes_in _ _ _ _ _ Hi E); [apply elem_of_app; by left|lia]|specialize (H1 y Hy1); lia].
    + left. split; [apply (nodes_in _ _ _ _ _ Hi E); [apply elem_of_app; right; by left|cbn in *; lia]|cbn; lia].
    + right. unfold r. split; [f_equal; lia|lia].
    + left. split; [apply (nodes_in _ _ _ _ _ Hi E); [apply elem_of_app; right; right; by right|specialize (H2 y Hy2); lia]|specialize (H2 y Hy2); lia].
  - apply (f_equal length) in E, EL. rewrite !length_app in *. cbn in *. lia.
  - intros u. rewrite <-(covered_base u L), <-(covered_base u L'), EL, E, !covered_app, !covered_cons. unfold in_block, r. cbn.
    assert ((p <= u < p + s) <-> (p <= u < p + (s - n)) \/ (p + (s - n) <= u < p + (s - n) + n)) by lia. tauto.
Qed.

Lemma carve_nodes h L A M1 prevp sp p s M2 n : inv h L A -> (base, 0) :: L = M1 ++ (prevp, sp) :: (p, s) :: M2 -> 0 < n <= s ->
  exists L', let '(r, h') := carve h prevp p n in carved h h' L L' A p s r n.
Proof.
  intros Hi E Hn. destruct (around _ _ _ _ _ _ _ _ _ Hi E) as (_ & _ & _ & _ & _ & _ & _ & Hp & _).
  unfold carve. rewrite Hp. cbn [size ptr]. destruct (Z.eqb_spec s n) as [->|Hne].
  - by eapply carve_whole.
  - eapply carve_tail; [done|done|lia].
Qed.

Lemma carve_spec h L A M1 prevp sp p s M2 n : inv h L A -> (base, 0) :: L = M1 ++ (prevp, sp) :: (p, s) :: M2 -> 0 < n <= s ->
  exists L', let '(r, h') := carve h prevp p n in inv h' L' ((r, n) :: A) /\ carved h h' L L' A p s r n.
Proof.
  intros Hi E Hn. destruct (around _ _ _ _ _ _ _ _ _ Hi E) as (HpL & Hbp & Hs0 & _ & _ & _ & _ & _ & _ & _ & _ & _ & _ & _ & HA).
  destruct (carve_nodes _ _ _ _ _ _ _ _ _ n Hi E Hn) as [L' Hc]. exists L'. destruct (carve h prevp p n) as [r h']. split; [|done].
  pose proof (carved_block _ _ _ _ _ _ _ _ _ Hc) as [Hpr Hrn]. pose proof (carved_brk _ _ _ _ _ _ _ _ _ Hc) as [Hbrk _].
  pose proof (inv_range _ _ _ Hi (p, s) ltac:(apply elem_of_app; by left)) as (_ & _ & Hpe). cbn in Hpe.
  assert (HL' : forall y, y ∈ L' -> (0 < y.2 /\ y.1 + y.2 <= brk h) /\ apart y (r, n) /\ forall a, a ∈ A -> apart y a).
  { intros y Hy. destruct (carved_nodes _ _ _ _ _ _ _ _ _ Hc y Hy) as [[HyL Hout]|[-> Hlt]].
    - pose proof (inv_range _ _ _ Hi y ltac:(apply elem_of_app; by left)) as (? & ? & ?). split; [lia|]. split; [unfold apart; cbn; lia|].
      intros a Ha. by apply (inv_apart _ _ _ Hi).
    - cbn. split; [lia|]. split; [unfold apart; cbn; lia|]. intros a Ha. destruct (HA a Ha) as (Hap & ? & _). unfold apart in *. cbn in *. lia. }
  split.
  - apply (carved_linked _ _ _ _ _ _ _ _ _ Hc).
  - apply (carved_sorted _ _ _ _ _ _ _ _ _ Hc).
  - apply (carved_freep _ _ _ _ _ _ _ _ _ Hc).
  - intros y [->|Hy]%elem_of_cons; [apply (carved_size _ _ _ _ _ _ _ _ _ Hc)|].
    rewrite (carved_frame _ _ _ _ _ _ _ _ _ Hc) by done. by apply (inv_used _ _ _ Hi).
  - rewrite Hbrk. intros y [Hy|[->|Hy]%elem_of_cons]%elem_of_app.
    + pose proof (carved_sorted _ _ _ _ _ _ _ _ _ Hc) as Hs. apply sorted_cons in Hs as [_ Hs]. specialize (Hs y Hy). unfold before in Hs. cbn in Hs.
      destruct (HL' y Hy) as ((? & ?) & _). lia.
    + cbn. lia.
    + apply (inv_range _ _ _ Hi), elem_of_app. by right.
  - intros y a Hy Ha. destruct (HL' y Hy) as (_ & Hr & Hy'). apply elem_of_cons in Ha as [->|Ha]; [done|by apply Hy'].
  - apply sorted_cons. split; [apply (inv_used_apart _ _ _ Hi)|]. intros a Ha. destruct (HA a Ha) as (Hap & ? & _). unfold apart in *. cbn in *. lia.
  - rewrite Hbrk. apply (inv_base _ _ _ Hi).
Qed.

(** The step of the loop that finds a block. *)
Lemma malloc_loop_fit fuel n prevp p h : n <= size (hdr h p) -> malloc_loop (S fuel) n prevp p h =
  Ok ((carve h prevp p n).1 + 1) (carve h prevp p n).2.
Proof.
  intros Hn. cbn [malloc_loop]. unfold bind at 1, get. destruct (Z.leb_spec n (size (hdr h p))); [|lia].
  unfold carve, bind, modify, ret. by destruct (size (hdr h p) =? n).
Qed.

Lemma last_cons_any (a : Z) l d : List.last (a :: l) d = List.last l a.
Proof. revert a d. induction l as [|b l IH]; intros a d; [done|]. change (List.last (b :: l) d = List.last (b :: l) a). by rewrite !IH. Qed.

(** A walk along nodes that are too small and are not [freep]. *)
Lemma malloc_loop_run h n l : forall prevp q k, linked (hdr h) l q -> (forall x, x ∈ l -> x.2 < n /\ x.1 <> freep h) ->
  malloc_loop (length l + k) n prevp (hd_addr l q) h = malloc_loop k n (List.last (map fst l) prevp) q h.
Proof.
  induction l as [|[a s] l IH]; intros prevp q k Hl Hs; [done|]. cbn [linked] in Hl. destruct Hl as [Ha Hl].
  cbn [length Nat.add malloc_loop hd_addr]. unfold bind at 1, get. destruct (Hs (a, s) ltac:(by left)) as [Hsz Hne]. cbn in Hsz, Hne.
  rewrite Ha. cbn [size ptr]. destruct (Z.leb_spec n s); [lia|]. destruct (Z.eqb_spec a (freep h)); [done|].
  rewrite IH; [|done|intros x Hx; apply Hs; by right]. f_equal. symmetry. apply last_cons_any.
Qed.

(** The order in which [malloc] visits the nodes: from the one after [freep] around to it. *)
Lemma ring_order h L A : inv h L A -> exists O sf q, linked (hdr h) (O ++ [(freep h, sf)]) q /\ q = hd_addr (O ++ [(freep h, sf)]) q /\
  q = ptr (hdr h (freep h)) /\ (forall x, x ∈ O -> x.1 <> freep h) /\ (O ++ [(freep h, sf)]) ≡ₚ (base, 0) :: L.
Proof.
  intros Hi. pose proof (inv_freep _ _ _ Hi) as Hf. apply list_elem_of_fmap in Hf as ([f sf] & -> & Hf).
  apply list_elem_of_split in Hf as (M1 & M2 & E). pose proof (inv_linked _ _ _ Hi) as Hl. pose proof (inv_sorted _ _ _ Hi) as Hs.
  pose proof (nodes_range _ _ _ _ Hi E) as HN. rewrite E in Hl, Hs. apply linked_app in Hl as [Hl1 [Hf Hl2]]. cbn [hd_addr] in Hl1.
  apply sorted_app in Hs as (_ & Hs2 & Hs12). apply sorted_cons in Hs2 as [_ Hs2].
  pose proof (HN (f, sf) ltac:(apply elem_of_app; right; by left)) as (_ & _ & Hsf & _). cbn in Hsf.
  exists (M2 ++ M1), sf, (hd_addr M2 base). cbn [fst]. rewrite <-app_assoc. split; [|split; [|split; [by rewrite Hf|split]]].
  - rewrite !linked_app. cbn [hd_addr linked]. split; [|split; [done|split; [|done]]].
    + assert (hd_addr (M1 ++ [(f, sf)]) (hd_addr M2 base) = base) as ->; [|done].
      destruct M1 as [|[b s] M1]; cbn [app] in E; [by injection E as <- _ _|by injection E as <- _ _].
    + by rewrite Hf.
  - destruct M2 as [|[b s] M2]; [|done]. cbn [app hd_addr].
    destruct M1 as [|[b s] M1]; cbn [app] in E; [by injection E as <- _ _|by injection E as <- _ _].
  - intros x [Hx|Hx]%elem_of_app.
    + pose proof (Hs2 x Hx) as Hb. unfold before in Hb. cbn in Hb. lia.
    + pose proof (Hs12 x (f, sf) Hx ltac:(by left)) as Hb. unfold before in Hb. cbn in Hb.
      destruct (HN x ltac:(apply elem_of_app; by left)) as (_ & _ & ? & _). lia.
  - rewrite E. by rewrite Permutation_app_comm, <-app_assoc.
Qed.

Lemma first_fit (l : list block) n : (forall x, x ∈ l -> x.2 < n) \/
  exists l1 x l2, l = l1 ++ x :: l2 /\ n <= x.2 /\ forall y, y ∈ l1 -> y.2 < n.
Proof.
  induction l as [|x l IH]; [left; by intros x ?%elem_of_nil|]. destruct (decide (n <= x.2)).
  { right. exists [], x, l. split; [done|]. split; [done|]. by intros y ?%elem_of_nil. }
  destruct IH as [IH|(l1 & y & l2 & -> & Hy & H)].
  - left. intros y [->|Hy]%elem_of_cons; [lia|by apply IH].
  - right. exists (x :: l1), y, l2. split; [done|]. split; [done|]. intros z [->|Hz]%elem_of_cons; [lia|by apply H].
Qed.

(** The node before [p] in the list is the one that points to it. *)
Lemma pred_split h L A prevp p : inv h L A -> prevp ∈ map fst ((base, 0) :: L) -> ptr (hdr h prevp) = p -> p <> base ->
  exists M1 sp s M2, (base, 0) :: L = M1 ++ (prevp, sp) :: (p, s) :: M2.
Proof.
  intros Hi Hp Hptr Hne. apply list_elem_of_fmap in Hp as ([a sp] & -> & Hp). cbn [fst] in *.
  apply list_elem_of_split in Hp as (M1 & N2 & E). pose proof (inv_linked _ _ _ Hi) as Hl. rewrite E in Hl.
  apply linked_app in Hl as [_ [Ha _]]. rewrite Ha in Hptr. cbn [ptr] in Hptr. destruct N2 as [|[b s] N2]; cbn [hd_addr] in Hptr; [done|].
  subst b. eauto.
Qed.
Lemma node_unique h L A a s s' : inv h L A -> (a, s) ∈ (base, 0) :: L -> (a, s') ∈ (base, 0) :: L -> s = s'.
Proof.
  intros Hi H H'. assert (Hg : forall s, (a, s) ∈ (base, 0) :: L -> size (hdr h a) = s); [|by rewrite <-(Hg s H), <-(Hg s' H')].
  clear H H'. intros t (N1 & N2 & E)%list_elem_of_split. pose proof (inv_linked _ _ _ Hi) as Hl. rewrite E in Hl.
  apply linked_app in Hl as [_ [-> _]]. done.
Qed.

(** If a free block is large enough, the loop finds one. *)
Lemma malloc_found fuel h L A n : inv h L A -> 0 < n -> (exists y, y ∈ L /\ n <= y.2) -> (S (length L) < fuel)%nat ->
  exists r h' L' p s, malloc_loop fuel n (freep h) (ptr (hdr h (freep h))) h = Ok (r + 1) h' /\
    inv h' L' ((r, n) :: A) /\ carved h h' L L' A p s r n.
Proof.
  intros Hi Hn (y & Hy & Hny) Hf. destruct (ring_order _ _ _ Hi) as (O & sf & q & Hl & Hq & Hqp & Hne & Hperm). rewrite <-Hqp.
  destruct (first_fit (O ++ [(freep h, sf)]) n) as [Hno|(l1 & [p s] & l2 & E & Hs & Hl1)].
  { exfalso. specialize (Hno y). rewrite Hperm in Hno. specialize (Hno ltac:(by right)). lia. }
  cbn in Hs. assert (HpN : (p, s) ∈ (base, 0) :: L) by (rewrite <-Hperm, E; apply elem_of_app; right; by left).
  assert (Hpb : p <> base) by (intros ->; pose proof (node_unique _ _ _ _ _ 0 Hi HpN ltac:(by left)); lia).
  assert (Hl1f : forall x, x ∈ l1 -> x.2 < n /\ x.1 <> freep h).
  { intros x Hx. split; [by apply Hl1|]. apply Hne. destruct l2 as [|z l2 _] using rev_ind.
    - apply app_inj_tail in E as [-> _]. done.
    - rewrite app_comm_cons, app_assoc in E. apply app_inj_tail in E as [-> _]. apply elem_of_app. by left. }
  rewrite E in Hl, Hq. apply linked_app in Hl as [Hll1 [Hp _]]. cbn [hd_addr] in Hll1.
  assert (Hlen : (length l1 <= length L)%nat).
  { apply Permutation_length in Hperm. rewrite E, length_app in Hperm. cbn in Hperm. lia. }
  set (prevp := List.last (map fst l1) (freep h)).
  assert (Hprev : prevp ∈ map fst ((base, 0) :: L) /\ ptr (hdr h prevp) = p).
  { unfold prevp. destruct l1 as [|[a sa] l1 _] using rev_ind.
    - cbn [map List.last]. split; [apply (inv_freep _ _ _ Hi)|]. rewrite <-Hqp, Hq. done.
    - rewrite map_app. cbn [map fst]. rewrite last_last. apply linked_app in Hll1 as [_ [-> _]]. split; [|done].
      change (a ∈ map fst ((base, 0) :: L)). apply list_elem_of_fmap. exists (a, sa). split; [done|]. rewrite <-Hperm, E.
      rewrite !elem_of_app. left. right. by left. }
  destruct Hprev as [HpN' Hptr]. destruct (pred_split _ _ _ _ _ Hi HpN' Hptr Hpb) as (M1 & sp & s' & M2 & EL).
  assert (s' = s) as ->. { apply (node_unique _ _ _ p _ _ Hi); [|done]. rewrite EL. apply elem_of_app. right. right. by left. }
  destruct (carve_spec _ _ _ _ _ _ _ _ _ n Hi EL ltac:(lia)) as [L' Hc].
  assert (Erun : malloc_loop fuel n (freep h) q h = malloc_loop (fuel - length l1) n prevp p h).
  { rewrite Hq. replace (hd_addr (l1 ++ (p, s) :: l2) q) with (hd_addr l1 p) by (by destruct l1 as [|[]]).
    pose proof (malloc_loop_run h n l1 (freep h) p (fuel - length l1) Hll1 Hl1f) as Er.
    replace (length l1 + (fuel - length l1))%nat with fuel in Er by lia. exact Er. }
  rewrite Erun. destruct (fuel - length l1)%nat as [|k] eqn:Ek; [lia|]. rewrite malloc_loop_fit by (rewrite Hp; done).
  destruct (carve h prevp p n) as [r h']. destruct Hc as [Hinv Hc]. exists r, h', L', p, s. done.
Qed.

(** If none is, it goes around once and asks for more memory. *)
Lemma malloc_none fuel h L A n : inv h L A -> 0 < n -> (forall y, y ∈ L -> y.2 < n) -> (S (length L) < fuel)%nat ->
  exists k, (fuel <= S (length L) + k)%nat /\ malloc_loop fuel n (freep h) (ptr (hdr h (freep h))) h =
    bind (morecore k n) (fun p => if p =? 0 then ret 0
      else bind (gets (fun h => ptr (hdr h p))) (fun q => malloc_loop k n p q)) h.
Proof.
  intros Hi Hn Hno Hf. destruct (ring_order _ _ _ Hi) as (O & sf & q & Hl & Hq & Hqp & Hne & Hperm). rewrite <-Hqp.
  assert (Hsz : forall x, x ∈ O ++ [(freep h, sf)] -> x.2 < n).
  { intros x Hx. rewrite Hperm in Hx. apply elem_of_cons in Hx as [->|Hx]; [done|by apply Hno]. }
  assert (Hlen : length O = length L) by (apply Permutation_length in Hperm; rewrite length_app in Hperm; cbn in Hperm; lia).
  apply linked_app in Hl as [HlO [Hfp _]]. cbn [hd_addr] in HlO.
  exists (fuel - length O - 1)%nat. split; [lia|]. rewrite Hq.
  replace (hd_addr (O ++ [(freep h, sf)]) q) with (hd_addr O (freep h)) by (by destruct O as [|[]]).
  replace fuel with (length O + S (fuel - length O - 1))%nat at 1 by lia.
  rewrite malloc_loop_run; [|done|intros x Hx; split; [apply Hsz, elem_of_app; by left|by apply Hne]].
  cbn [malloc_loop]. unfold bind at 1, get. rewrite Hfp. cbn [size]. pose proof (Hsz (freep h, sf) ltac:(apply elem_of_app; right; by left)) as Hs.
  cbn in Hs. destruct (Z.leb_spec n sf); [lia|]. by rewrite Z.eqb_refl.
Qed.

(** *** [morecore] *)

Lemma inv_ext h h' L A : inv h L A -> hdr h' = hdr h -> freep h' = freep h -> brk h' = brk h -> inv h' L A.
Proof. intros [] E1 E2 E3. split; rewrite ?E1, ?E2, ?E3; done. Qed.

(** The new memory is a block in use of its own. *)
Lemma inv_grow h g L A nu : inv h L A -> 0 < nu -> brk h + nu < 2 ^ 31 ->
  inv (set_hdr (brk h) (fun b => {| b with size := nu |}) {| h with brk := brk h + nu; grants := g |}) L ((brk h, nu) :: A).
Proof.
  intros Hi Hnu Hmax. pose proof (inv_base _ _ _ Hi) as [Hb Hb31].
  assert (HN : forall y, y ∈ L ++ A -> base < y.1 /\ 0 < y.2 /\ y.1 + y.2 <= brk h) by apply (inv_range _ _ _ Hi).
  split; cbn [set_hdr brk freep].
  - apply (linked_ext (hdr h)); [|apply (inv_linked _ _ _ Hi)]. intros y Hy. cbn. rewrite (proj2 (Z.eqb_neq _ _)); [done|].
    apply elem_of_cons in Hy as [->|Hy]; [cbn; lia|]. specialize (HN y ltac:(apply elem_of_app; by left)). lia.
  - apply (inv_sorted _ _ _ Hi).
  - apply (inv_freep _ _ _ Hi).
  - intros y [->|Hy]%elem_of_cons; cbn [fst snd].
    + cbn. by rewrite Z.eqb_refl.
    + specialize (HN y ltac:(apply elem_of_app; by right)). rewrite <-(inv_used _ _ _ Hi y Hy). cbn. rewrite (proj2 (Z.eqb_neq _ _)); [done|lia].
  - intros y Hy. rewrite elem_of_app, elem_of_cons in Hy. destruct Hy as [Hy|[->|Hy]].
    + specialize (HN y ltac:(apply elem_of_app; by left)). lia.
    + cbn. lia.
    + specialize (HN y ltac:(apply elem_of_app; by right)). lia.
  - intros y z Hy Hz. specialize (HN y ltac:(apply elem_of_app; by left)). apply elem_of_cons in Hz as [->|Hz].
    + left. cbn. lia.
    + by apply (inv_apart _ _ _ Hi).
  - apply sorted_cons. split; [apply (inv_used_apart _ _ _ Hi)|]. intros y Hy. specialize (HN y ltac:(apply elem_of_app; by right)). right. cbn. lia.
  - lia.
Qed.

Definition grown (n : Z) : Z := if n <? 4096 then 4096 else n.
Lemma grown_ge n : n <= grown n /\ 4096 <= grown n.
Proof. unfold grown. destruct (Z.ltb_spec n 4096); lia. Qed.

Lemma morecore_granted k h g L A n : inv h L A -> grants h = true :: g -> grown n * 16 < 2 ^ 31 ->
  brk h + grown n < 2 ^ 31 -> (length L < k)%nat ->
  exists h' L', morecore k n h = Ok (freep h') h' /\ freep h' <> 0 /\ inv h' L' A /\ (exists y, y ∈ L' /\ n <= y.2) /\
    brk h' = brk h + grown n /\ (length L' <= S (length L))%nat /\
    forall u, covered u L' <-> covered u L \/ brk h <= u < brk h + grown n.
Proof.
  intros Hi Hg H16 Hmax Hk. pose proof (grown_ge n) as [Hge1 Hge2].
  pose proof (inv_grow h g L A (grown n) Hi ltac:(lia) Hmax) as Hi1.
  destruct (free_spec k _ L [] (brk h, grown n) A Hi1 Hk) as (h' & L' & E & Hi' & Hfr). cbn [fst app] in *.
  exists h', L'. split.
  - unfold morecore. change (if n <? 4096 then 4096 else n) with (grown n). unfold bind at 1, sbrk. unfold bind at 1, get at 1. rewrite Hg.
    unfold bind at 1, modify at 1. rewrite s32_small by lia. rewrite Z.div_mul by lia. unfold ret at 1. cbn beta iota.
    unfold bind at 1, modify at 1. rewrite (bind_ok _ _ _ _ _ E). reflexivity.
  - split.
    + pose proof (inv_freep _ _ _ Hi') as Hf. apply list_elem_of_fmap in Hf as (y & -> & Hy). pose proof (inv_base _ _ _ Hi').
      apply (nodes_range _ _ _ _ Hi' eq_refl) in Hy. lia.
    + split; [done|]. split.
      { destruct (freed_big _ _ _ _ _ Hfr) as (y & Hy & Hyn). exists y. split; [done|]. cbn in Hyn. lia. }
      split; [apply (freed_brk _ _ _ _ _ Hfr)|]. split; [apply (freed_length _ _ _ _ _ Hfr)|]. apply (freed_covered _ _ _ _ _ Hfr).
Qed.

Lemma morecore_refused k h L A n : inv h L A -> head (grants h) <> Some true ->
  exists h', morecore k n h = Ok 0 h' /\ inv h' L A /\ brk h' = brk h.
Proof.
  intros Hi Hg. unfold morecore. cbv zeta. unfold bind at 1, sbrk. unfold bind at 1, get at 1. destruct (grants h) as [|[] g] eqn:E; [|done|].
  - exists h. done.
  - eexists. split; [reflexivity|]. split; [|done]. by apply (inv_ext h).
Qed.

(** *** One request *)

(** The request [n] was served with the block at [r], or refused. *)
Definition served (h h' : heap) (L A : list block) (n r : Z) : Prop :=
  (r = 0 /\ inv h' L A /\ brk h' = brk h /\ (forall y, y ∈ L -> y.2 < n) /\ head (grants h) <> Some true) \/
  (exists L', inv h' L' ((r - 1, n) :: A) /\ (length L' <= S (length L))%nat /\ (brk h' = brk h \/ brk h' = brk h + grown n) /\
   forall u, covered u L' \/ in_block u (r - 1, n) <-> covered u L \/ brk h <= u < brk h').

Lemma malloc_loop_spec fuel h L A n : inv h L A -> 0 < n -> grown n * 16 < 2 ^ 31 -> brk h + grown n < 2 ^ 31 ->
  (2 * length L + 5 <= fuel)%nat ->
  exists r h', malloc_loop fuel n (freep h) (ptr (hdr h (freep h))) h = Ok r h' /\ served h h' L A n r.
Proof.
  intros Hi Hn H16 Hmax Hf. destruct (first_fit L n) as [Hno|(l1 & y & l2 & E & Hy & _)].
  - destruct (malloc_none fuel h L A n Hi Hn Hno ltac:(lia)) as (k & Hk & ->).
    destruct (decide (head (grants h) = Some true)) as [Hg|Hg].
    + destruct (grants h) as [|[] g] eqn:Eg; [done| |done].
      destruct (morecore_granted k h g L A n Hi Eg H16 Hmax ltac:(lia)) as (h1 & L1 & E1 & Hf0 & Hi1 & Hbig & Hb1 & Hl1 & Hc1).
      rewrite (bind_ok _ _ _ _ _ E1). destruct (Z.eqb_spec (freep h1) 0); [done|]. unfold bind at 1, gets.
      destruct (malloc_found k h1 L1 A n Hi1 Hn Hbig ltac:(lia)) as (r & h' & L' & p & s & E' & Hi' & Hc').
      exists (r + 1), h'. split; [done|]. right. exists L'. replace (r + 1 - 1) with r by lia. split; [done|].
      pose proof (carved_length _ _ _ _ _ _ _ _ _ Hc'). pose proof (carved_brk _ _ _ _ _ _ _ _ _ Hc') as [Hb' _].
      split; [lia|]. split; [right; congruence|]. intros u. rewrite <-(carved_covered _ _ _ _ _ _ _ _ _ Hc' u), Hc1, Hb', Hb1. tauto.
    + destruct (morecore_refused k h L A n Hi Hg) as (h' & E' & Hi' & Hb'). rewrite (bind_ok _ _ _ _ _ E').
      exists 0, h'. split; [done|]. left. done.
  - destruct (malloc_found fuel h L A n Hi Hn) as (r & h' & L' & p & s & E' & Hi' & Hc').
    { exists y. split; [rewrite E; apply elem_of_app; right; by left|done]. }
    { lia. }
    exists (r + 1), h'. split; [done|]. right. exists L'. replace (r + 1 - 1) with r by lia. split; [done|].
    pose proof (carved_length _ _ _ _ _ _ _ _ _ Hc'). pose proof (carved_brk _ _ _ _ _ _ _ _ _ Hc') as [Hb' _].
    split; [lia|]. split; [by left|]. intros u. rewrite <-(carved_covered _ _ _ _ _ _ _ _ _ Hc' u), Hb'. split; [tauto|]. intros [?|?]; [done|lia].
Qed.

(** Before the first request there is no list. *)
Definition untouched (h : heap) : Prop := freep h = 0 /\ 0 < base < brk h /\ brk h < 2 ^ 31.
Definition ready (h : heap) (L A : list block) : Prop := inv h L A \/ (untouched h /\ L = [] /\ A = []).

Lemma inv_first h : untouched h -> inv (set_hdr base (fun _ => {| ptr := base; size := 0 |}) (set_freep base h)) [] [].
Proof.
  intros (Hf & Hb & Hm). split; cbn [set_hdr set_freep freep brk]; try (by intros x ?%elem_of_nil); try (by intros x y ?%elem_of_nil); try lia.
  - cbn. by rewrite Z.eqb_refl.
  - repeat constructor.
  - by left.
  - constructor.
Qed.

Lemma units_range nbytes : 0 <= nbytes < 2 ^ 32 -> 0 < units nbytes /\ nbytes <= (units nbytes - 1) * 16.
Proof.
  intros Hn. unfold units. pose proof (Z.div_mod (nbytes + 16 - 1) 16 ltac:(lia)). pose proof (Z.mod_pos_bound (nbytes + 16 - 1) 16 ltac:(lia)).
  rewrite u32_small by lia. lia.
Qed.

Lemma malloc_spec fuel h L A nbytes : ready h L A -> 0 <= nbytes < 2 ^ 32 -> grown (units nbytes) * 16 < 2 ^ 31 ->
  brk h + grown (units nbytes) < 2 ^ 31 -> (2 * length L + 5 <= fuel)%nat ->
  exists r h', malloc fuel nbytes h = Ok r h' /\ served h h' L A (units nbytes) r.
Proof.
  intros Hr Hn H16 Hmax Hf. destruct (units_range nbytes Hn) as [Hu _]. unfold malloc. unfold bind at 1, gets at 1.
  destruct Hr as [Hi|(Hun & -> & ->)].
  - assert (Hf0 : freep h <> 0).
    { pose proof (inv_freep _ _ _ Hi) as Hfp. apply list_elem_of_fmap in Hfp as (y & -> & Hy). pose proof (inv_base _ _ _ Hi).
      apply (nodes_range _ _ _ _ Hi eq_refl) in Hy. lia. }
    destruct (Z.eqb_spec (freep h) 0); [done|]. by apply malloc_loop_spec.
  - pose proof (inv_first h Hun) as Hi. destruct Hun as (Hf0 & Hb & Hm). rewrite Hf0. cbn [Z.eqb].
    destruct (malloc_loop_spec fuel _ [] [] (units nbytes) Hi Hu H16 Hmax Hf) as (r & h' & E & Hs).
    exists r, h'. split; [exact E|]. exact Hs.
Qed.

(** *** Any sequence of requests *)

Inductive request := Malloc (nbytes : Z) | Free (k : nat).
(** The program: it keeps the list of its blocks and frees one of them by its number. *)
Fixpoint run (fuel : nat) (ops : list request) (A : list block) : M heap (list block) :=
  match ops with
  | [] => ret A
  | Malloc nbytes :: ops' =>
      r ← malloc fuel nbytes;
      run fuel ops' (if r =? 0 then A else (r - 1, units nbytes) :: A)
  | Free k :: ops' =>
      match A !! k with
      | Some x => free fuel (x.1 + 1);; run fuel ops' (delete k A)
      | None => run fuel ops' A
      end
  end.

(** The memory that the requests may need at most. *)
Fixpoint demand (ops : list request) : Z :=
  match ops with
  | [] => 0
  | Malloc nbytes :: ops' => grown (units nbytes) + demand ops'
  | Free _ :: ops' => demand ops'
  end.
Definition valid_request (r : request) : Prop :=
  match r with Malloc nbytes => 0 <= nbytes < 2 ^ 32 /\ grown (units nbytes) * 16 < 2 ^ 31 | Free _ => True end.

Lemma demand_pos ops : 0 <= demand ops.
Proof. induction ops as [|[n|k] ops IH]; cbn [demand]; [done| |done]. pose proof (grown_ge (units n)). lia. Qed.

Lemma run_spec lo fuel ops : forall h L A, ready h L A -> Forall valid_request ops -> brk h + demand ops < 2 ^ 31 ->
  (2 * (length L + length ops) + 5 <= fuel)%nat -> lo <= brk h ->
  (forall u, covered u L \/ covered u A <-> lo <= u < brk h) ->
  exists A' h' L', run fuel ops A h = Ok A' h' /\ ready h' L' A' /\ lo <= brk h' /\
    forall u, covered u L' \/ covered u A' <-> lo <= u < brk h'.
Proof.
  induction ops as [|o ops IH]; intros h L A Hr Hv Hd Hf Hlo Hc; [exists A, h, L; done|].
  apply Forall_cons in Hv as [Ho Hv]. cbn [length] in Hf. pose proof (demand_pos ops) as Hpos. destruct o as [nbytes|k]; cbn [run demand] in *.
  - destruct Ho as [Hn H16]. pose proof (grown_ge (units nbytes)) as Hg.
    destruct (malloc_spec fuel h L A nbytes Hr Hn H16) as (r & h1 & E & Hs); [lia|lia|]. rewrite (bind_ok _ _ _ _ _ E).
    destruct Hs as [(-> & Hi & Hb & _)|(L' & Hi & Hlen & Hb & Hc')].
    + cbn [Z.eqb]. apply (IH h1 L A); [by left|done|lia|lia|lia|]. by rewrite Hb.
    + assert (Hr0 : r <> 0).
      { pose proof (inv_range _ _ _ Hi (r - 1, units nbytes) ltac:(apply elem_of_app; right; by left)) as (Hbr & _). cbn in Hbr.
        pose proof (inv_base _ _ _ Hi). lia. }
      destruct (Z.eqb_spec r 0); [done|]. apply (IH h1 L'); [by left|done|lia|lia|lia|].
      intros u. rewrite covered_cons. specialize (Hc' u). specialize (Hc u).
      assert (lo <= u < brk h1 <-> (lo <= u < brk h) \/ (brk h <= u < brk h1)) by lia. tauto.
  - destruct (A !! k) as [x|] eqn:Ek; [|apply (IH h L A); [done|done|lia|lia|lia|done]].
    destruct Hr as [Hi|(_ & _ & ->)]; [|done]. pose proof (take_drop_middle _ _ _ Ek) as EA. rewrite <-EA in Hi.
    destruct (free_spec fuel h L _ x _ Hi ltac:(lia)) as (h1 & L' & E & Hi1 & Hfr). rewrite (bind_ok _ _ _ _ _ E).
    rewrite delete_take_drop. pose proof (freed_brk _ _ _ _ _ Hfr) as [Hb _]. pose proof (freed_length _ _ _ _ _ Hfr).
    apply (IH h1 L'); [by left|done|lia|lia|lia|]. intros u.
    assert (HA : covered u A <-> covered u (take k A) \/ in_block u x \/ covered u (drop (S k) A)) by (rewrite <-EA at 1; by rewrite covered_app, covered_cons).
    rewrite Hb, <-Hc, HA, covered_app, (freed_covered _ _ _ _ _ Hfr u). tauto.
Qed.

End Umalloc.

Definition demo_heap : heap := {| hdr := fun _ => {| ptr := 7; size := 7 |}; freep := 0; brk := 1000; grants := [true; false; true] |}.
