(* ===== verification/Mkfs.v ===== *)
(** * The file system builder (mkfs/mkfs.c)

    The image is a map from sectors to their bytes; a sector that was never written cannot be
    read.  [die] and a failed [assert] end the program: [Panic].  Structures in memory hold the
    values that their bytes on the disk denote, so that [xint] and [xshort], which lay a number
    out in the byte order of the target, keep its low bits.  An argument is the name of a file
    and, if it can be opened, what can be read from it. *)

From S2P Require Import Ulib Prelude Kstring State Bio Fs.

Definition NINODES : Z := 200.
Definition nbitmap : Z := FSSIZE / BPB + 1.
Definition ninodeblocks : Z := NINODES / IPB + 1.
Definition nlog : Z := LOGBLOCKS + 1.
Definition nmeta : Z := 2 + nlog + ninodeblocks + nbitmap.
Definition nblocks : Z := FSSIZE - nmeta.

Record image := mkimage { sectors : Z -> option (list Z); freeinode : Z; freeblock : Z }.

Definition xshort (x : Z) : Z := le_val (le_bytes 2 x).
Definition xint (x : Z) : Z := le_val (le_bytes 4 x).

Definition sb : superblock :=
  {| sb_magic := FSMAGIC; sb_size := xint FSSIZE; sb_nblocks := xint nblocks; sb_ninodes := xint NINODES;
     sb_nlog := xint nlog; sb_logstart := xint 2; sb_inodestart := xint (2 + nlog);
     sb_bmapstart := xint (2 + nlog + ninodeblocks) |}.
Definition sb_bytes (s : superblock) : list Z :=
  concat (map (le_bytes 4) [sb_magic s; sb_size s; sb_nblocks s; sb_ninodes s; sb_nlog s; sb_logstart s;
                            sb_inodestart s; sb_bmapstart s]).

Definition I (A : Type) : Type := M image A.

Definition wsect (sec : Z) (buf : list Z) : I unit :=
  modify (fun s => {| s with sectors := fun x => if x =? sec then Some buf else sectors s x |}).
Definition rsect (sec : Z) : I (list Z) :=
  o ← gets (fun s => sectors s sec);
  match o with Some buf => ret buf | None => panic "read" end.

Definition winode (inum : Z) (ip : dinode) : I unit :=
  let bn := IBLOCK inum sb in
  buf ← rsect bn;
  wsect bn (put_dinode (di_off inum) ip buf).
Definition rinode (inum : Z) : I dinode :=
  buf ← rsect (IBLOCK inum sb);
  ret (get_dinode (di_off inum) buf).

Definition ialloc (type : Z) : I Z :=
  inum ← gets freeinode;
  modify (fun s => {| s with freeinode := u32 (freeinode s + 1) |});;
  winode inum {| di_type := s16 (xshort type); di_major := 0; di_minor := 0; di_nlink := xshort 1;
                 di_size := xint 0; di_addrs := replicate 13 0 |};;
  ret inum.

Definition balloc (used : Z) : I unit :=
  panic_if (BPB <=? used) "used < BPB";;
  wsect (sb_bmapstart sb)
    (foldl (fun buf k => set_bit buf (Z.of_nat k)) (replicate (Z.to_nat BSIZE) 0) (seq 0 (Z.to_nat used))).

(** [freeblock++] *)
Definition next_block : I Z :=
  b ← gets freeblock;
  modify (fun s => {| s with freeblock := u32 (freeblock s + 1) |});;
  ret b.

(** The sector of block [fbn] of the file, allocated if it is not there: the inode as changed, and
    the sector. *)
Definition iappend_block (din : dinode) (fbn : Z) : I (dinode * Z) :=
  let addr d k := xint (nth k (di_addrs d) 0) in
  let set d k v := {| d with di_addrs := <[k := xint v]> (di_addrs d) |} in
  if fbn <? NDIRECT then
    din ← (if addr din (Z.to_nat fbn) =? 0 then b ← next_block; ret (set din (Z.to_nat fbn) b) else ret din);
    ret (din, addr din (Z.to_nat fbn))
  else
    din ← (if addr din 12%nat =? 0 then b ← next_block; ret (set din 12%nat b) else ret din);
    indirect ← rsect (addr din 12%nat);
    let k := Z.to_nat (fbn - NDIRECT) in
    indirect ← (if get_le (4 * k) 4 indirect =? 0 then
                  b ← next_block;
                  let indirect := put_le (4 * k) 4 (xint b) indirect in
                  wsect (addr din 12%nat) indirect;;
                  ret indirect
                else ret indirect);
    ret (din, xint (get_le (4 * k) 4 indirect)).

(** The loop of [iappend]: the inode and the offset at the end. *)
Fixpoint iappend_loop (fuel : nat) (din : dinode) (off : Z) (p : list Z) : I (dinode * Z) :=
  match p with
  | [] => ret (din, off)
  | _ =>
      match fuel with
      | O => fault "iappend"
      | S fuel' =>
          let fbn := off / BSIZE in
          panic_if (MAXFILE <=? fbn) "fbn < MAXFILE";;
          '(din, x) ← iappend_block din fbn;
          let n1 := Z.min (Z.of_nat (length p)) ((fbn + 1) * BSIZE - off) in
          buf ← rsect x;
          wsect x (splice (Z.to_nat (off - fbn * BSIZE)) (take (Z.to_nat n1) p) buf);;
          iappend_loop fuel' din (u32 (off + n1)) (drop (Z.to_nat n1) p)
      end
  end.
Definition iappend (inum : Z) (p : list Z) : I unit :=
  din ← rinode inum;
  let off := xint (di_size din) in
  '(din, off) ← iappend_loop (length p) din off p;
  winode inum {| din with di_size := xint off |}.

(** A directory entry. *)
Definition dirent (inum : Z) (name : list Z) : list Z := le_bytes 2 (xshort inum) ++ strncpy (replicate 14 0) name 14.

Section Files.
Context {Src : Type} `{Source Src}.

(** [while ((cc = read(fd, buf, sizeof(buf))) > 0) iappend(inum, buf, cc);] *)
Fixpoint copy_in (fuel : nat) (inum : Z) (s : Src) : I unit :=
  match fuel with
  | O => fault "mkfs"
  | S fuel' =>
      match read BSIZE s with
      | (Some (c :: l), s') => iappend inum (c :: l);; copy_in fuel' inum s'
      | _ => ret tt
      end
  end.

(** The name in the image: without [user/] in front, and without the [_] of the binaries. *)
Definition strip_dir (arg : list Z) : list Z := if strncmp arg (str "user/") 5 =? 0 then drop 5 arg else arg.
Definition strip_underscore (name : list Z) : list Z := match name with 95 :: l => l | _ => name end.

Definition add_file (fuel : nat) (rootino : Z) (arg : list Z * option Src) : I unit :=
  let shortname := strip_dir arg.1 in
  panic_if (bool_decide (47 ∈ shortname)) "index(shortname, '/') == 0";;
  match arg.2 with
  | None => panic "die"
  | Some s =>
      let shortname := strip_underscore shortname in
      panic_if (DIRSIZ <? Z.of_nat (length shortname)) "strlen(shortname) <= DIRSIZ";;
      inum ← ialloc T_FILE;
      iappend rootino (dirent inum shortname);;
      copy_in fuel inum s
  end.

(** [main] after the image is opened. *)
Definition mkfs (fuel : nat) (args : list (list Z * option Src)) : I unit :=
  mfor (seq 0 (Z.to_nat FSSIZE)) (fun i => wsect (Z.of_nat i) (replicate (Z.to_nat BSIZE) 0));;
  wsect 1 (splice 0 (sb_bytes sb) (replicate (Z.to_nat BSIZE) 0));;
  rootino ← ialloc T_DIR;
  panic_if (negb (rootino =? ROOTINO)) "rootino == ROOTINO";;
  iappend rootino (dirent rootino (str "."));;
  iappend rootino (dirent rootino (str ".."));;
  mfor args (add_file fuel rootino);;
  din ← rinode rootino;
  let off := xint (di_size din) in
  let off := u32 ((off / BSIZE + 1) * BSIZE) in
  winode rootino {| din with di_size := xint off |};;
  used ← gets freeblock;
  balloc used.

Definition blank : image := {| sectors := fun _ => None; freeinode := 1; freeblock := nmeta |}.
End Files.
