(* ===== verification/Mkfsok.v ===== *)
(** * The image that mkfs writes (the theory of mkfs/mkfs.c)

    The image is described with the kernel's own definitions: [sb_of_data], [get_dinode], the
    block maps [blkmap] and the bytes [fbyte] of a file. *)

From S2P Require Import Ulib Prelude Kstring State Bio Log Fs Fsblk Fsinode Fsfile Fsrw Mkfs.

(** ** One file *)

Definition ino (d : dinode) : inode := load_dinode d inhabitant.
(** The first [n] blocks of the file are there, and no other; all lie below [fb]. *)
Record mapped (v : Z -> list Z) (fb : Z) (x : inode) (n : Z) : Prop := {
  mp_len : length (i_addrs x) = 13%nat;
  mp_range : Forall (fun a => 0 <= a < 2 ^ 32) (i_addrs x);
  mp_owned : forall b, owns v x b -> nmeta <= b < fb;
  mp_inj : forall bn bn', in_file bn -> in_file bn' -> blkmap v x bn <> 0 -> blkmap v x bn = blkmap v x bn' -> bn = bn';
  mp_ind : forall bn, in_file bn -> blkmap v x bn <> 0 -> blkmap v x bn <> ind_blk x;
  mp_iff : forall bn, in_file bn -> blkmap v x bn <> 0 <-> bn < n;
  mp_ind_iff : ind_blk x <> 0 <-> 12 < n;
  mp_n : 0 <= n <= 268
}.
(** How many sectors that is. *)
Definition sectors_of (n : Z) : Z := n + (if 12 <? n then 1 else 0).

Lemma xint_id z : 0 <= z < 2 ^ 32 -> xint z = z.
Proof. intros. unfold xint. rewrite le_val_bytes. by apply Z.mod_small. Qed.
(** What another file's write leaves alone. *)
Lemma blkmap_frame v v' x : (ind_blk x <> 0 -> v' (ind_blk x) = v (ind_blk x)) -> forall bn, blkmap v' x bn = blkmap v x bn.
Proof.
  intros H bn. unfold blkmap. destruct (bn <? 12); [done|]. destruct (Z.eqb_spec (ind_blk x) 0); [done|]. by rewrite H.
Qed.
Lemma owns_frame v v' x : (forall b, owns v x b -> v' b = v b) -> forall b, owns v' x b <-> owns v x b.
Proof.
  intros H b. assert (E : forall bn, blkmap v' x bn = blkmap v x bn) by (apply blkmap_frame; intros; by apply H, owns_ind).
  unfold owns. by setoid_rewrite E.
Qed.
Lemma mapped_frame v v' fb fb' x n : (forall b, owns v x b -> v' b = v b) -> fb <= fb' -> mapped v fb x n -> mapped v' fb' x n.
Proof.
  intros H Hfb [Hl Hr Ho Hi Hd Hf Hif Hn]. assert (E : forall bn, blkmap v' x bn = blkmap v x bn) by (apply blkmap_frame; intros; by apply H, owns_ind).
  split; [done|done| | | | |done|done].
  - intros b Hb%(owns_frame v v' x H). specialize (Ho b Hb). lia.
  - intros bn bn'. rewrite !E. apply Hi.
  - intros bn. rewrite E. apply Hd.
  - intros bn. rewrite E. apply Hf.
Qed.
Lemma fbyte_frame v v' x k : (forall b, owns v x b -> v' b = v b) -> in_file (k / BSIZE) -> fbyte v' x k = fbyte v x k.
Proof.
  intros H Hk. assert (E : forall bn, blkmap v' x bn = blkmap v x bn) by (apply blkmap_frame; intros; by apply H, owns_ind).
  unfold fbyte. rewrite E. destruct (Z.eqb_spec (blkmap v x (k / BSIZE)) 0); [done|]. by rewrite H by (by apply owns_blkmap).
Qed.

(** One more block. *)
Lemma mapped_add v v' fb fb' x x' n r : mapped v fb x n -> in_file n -> nmeta <= fb -> fb <= r < fb' ->
  length (i_addrs x') = 13%nat -> Forall (fun a => 0 <= a < 2 ^ 32) (i_addrs x') ->
  (forall c, in_file c -> blkmap v' x' c = if decide (c = n) then r else blkmap v x c) ->
  (ind_blk x' = ind_blk x \/ (ind_blk x = 0 /\ fb <= ind_blk x' < r)) -> (ind_blk x' <> 0 <-> 12 < n + 1) ->
  mapped v' fb' x' (n + 1) /\ (forall b, owns v' x' b -> owns v x b \/ fb <= b < fb') /\ (forall b, owns v x b -> owns v' x' b).
Proof.
  intros M Hn Hfb Hr Hl Hrg Hmap Hind Hiff.
  assert (Hnm : 0 < nmeta) by done.
  assert (Hold : forall c, in_file c -> blkmap v x c <> 0 -> nmeta <= blkmap v x c < fb) by (intros c Hc Hb; by apply (mp_owned _ _ _ _ M), owns_blkmap).
  assert (Hoi : ind_blk x <> 0 -> nmeta <= ind_blk x < fb) by (intros Hb; by apply (mp_owned _ _ _ _ M), owns_ind).
  assert (Hown : forall b, owns v' x' b -> owns v x b \/ fb <= b < fb').
  { intros b [Hb0 [->|(c & Hc & <-)]].
    - destruct Hind as [E|[_ ?]]; [|right; lia]. left. rewrite E in *. by apply owns_ind.
    - rewrite Hmap in * by done. case_decide; [right; lia|]. left. by apply owns_blkmap. }
  split; [|split; [done|]].
  2: { intros b [Hb0 [->|(c & Hc & <-)]].
    - split; [done|]. left. destruct Hind as [->|[? _]]; done.
    - split; [done|]. right. exists c. split; [done|]. rewrite Hmap by done. rewrite decide_False; [done|].
      intros ->. apply (mp_iff _ _ _ _ M) in Hb0; [lia|done]. }
  split; [done|done| | | | |done|].
  - intros b [Hb|Hb]%Hown; [apply (mp_owned _ _ _ _ M) in Hb|]; lia.
  - intros c c' Hc Hc'. rewrite !Hmap by done. repeat case_decide; subst; try done.
    + intros _ E. specialize (Hold c' Hc'). lia.
    + intros Hb E. specialize (Hold c Hc Hb). lia.
    + by apply (mp_inj _ _ _ _ M).
  - intros c Hc. rewrite Hmap by done. case_decide; subst.
    + intros _ E. destruct Hind as [E'|[_ ?]]; [|lia]. rewrite E' in E. specialize (Hoi ltac:(lia)). lia.
    + intros Hb E. destruct Hind as [E'|[_ ?]]; [rewrite E' in E; by apply (mp_ind _ _ _ _ M) in E|]. specialize (Hold c Hc Hb). lia.
  - intros c Hc. rewrite Hmap by done. case_decide; subst; [lia|]. rewrite (mp_iff _ _ _ _ M) by done. lia.
  - unfold in_file in Hn. lia.
Qed.

(** ** The sectors *)

Definition vw (s : image) (b : Z) : list Z := default [] (sectors s b).
Definition disk_ok (s : image) : Prop :=
  (forall b, 0 <= b < FSSIZE -> exists d, sectors s b = Some d /\ length d = Z.to_nat BSIZE) /\
  nmeta <= freeblock s <= FSSIZE /\ forall b, freeblock s <= b < FSSIZE -> vw s b = zeros.

Definition put (b : Z) (d : list Z) (s : image) : image :=
  {| s with sectors := fun x => if x =? b then Some d else sectors s x |}.
Definition bump (s : image) : image := {| s with freeblock := freeblock s + 1 |}.
Lemma vw_put b d s x : vw (put b d s) x = if x =? b then d else vw s x.
Proof. unfold vw. cbn. by destruct (x =? b). Qed.

Lemma rsect_ok s b : disk_ok s -> 0 <= b < FSSIZE -> rsect b s = Ok (vw s b) s /\ length (vw s b) = Z.to_nat BSIZE.
Proof. intros [H _] Hb. destruct (H b Hb) as (d & E & Hd). unfold rsect, vw, bind, gets. by rewrite E. Qed.
Lemma next_block_ok s : disk_ok s -> next_block s = Ok (freeblock s) (bump s).
Proof. intros (_ & Hf & _). unfold next_block, bind, gets, modify, ret, bump. rewrite u32_small; [done|]. unfold FSSIZE in Hf. change nmeta with 47 in Hf. lia. Qed.

Lemma disk_ok_put s b d : disk_ok s -> 0 <= b < freeblock s -> length d = Z.to_nat BSIZE -> disk_ok (put b d s).
Proof.
  intros (H & Hf & Hz) Hb Hd. split; [|split; [done|]].
  - intros x Hx. cbn. destruct (x =? b); [eauto|by apply H].
  - intros x Hx. rewrite vw_put. destruct (Z.eqb_spec x b); [cbn in Hx; lia|]. by apply Hz.
Qed.
Lemma disk_ok_bump s : disk_ok s -> freeblock s < FSSIZE -> disk_ok (bump s).
Proof.
  intros (H & Hf & Hz) Hb. split; [done|]. split; [cbn; lia|]. intros x Hx. apply (Hz x). cbn in Hx. lia.
Qed.

(** ** The block that [iappend] writes to *)

(** The file of [d] with [n] blocks has become that of [d'] with [n'] blocks: the same bytes, and
    the disk is as before outside of the indirect block. *)
Record extended (s : image) (d : dinode) (n : Z) (s' : image) (d' : dinode) (n' : Z) : Prop := {
  ex_disk : disk_ok s';
  ex_mapped : mapped (vw s') (freeblock s') (ino d') n';
  ex_free : freeblock s' = freeblock s + sectors_of n' - sectors_of n;
  ex_inodes : freeinode s' = freeinode s;
  ex_fields : d' = {| d with di_addrs := di_addrs d' |};
  ex_owns : forall b, owns (vw s') (ino d') b -> owns (vw s) (ino d) b \/ freeblock s <= b < freeblock s';
  ex_keeps : forall b, owns (vw s) (ino d) b -> owns (vw s') (ino d') b;
  ex_view : forall b, ~ owns (vw s') (ino d') b -> vw s' b = vw s b;
  ex_bytes : forall k, 0 <= k < 268 * BSIZE -> fbyte (vw s') (ino d') k = fbyte (vw s) (ino d) k
}.

Lemma extended_refl s d n : disk_ok s -> mapped (vw s) (freeblock s) (ino d) n -> extended s d n s d n.
Proof. intros Hd M. split; try done; [lia|by destruct d|by left]. Qed.

Definition with_addr (d : dinode) (k : nat) (b : Z) : dinode := {| d with di_addrs := <[k := b]> (di_addrs d) |}.
Lemma addr_with d k b j : (k < length (di_addrs d))%nat -> addr_at (ino (with_addr d k b)) j = if decide (j = k) then b else addr_at (ino d) j.
Proof.
  intros Hk. unfold addr_at, ino, with_addr. cbn [load_dinode i_addrs di_addrs]. rewrite !nth_lookup. case_decide as E.
  - subst. by rewrite list_lookup_insert_eq.
  - by rewrite list_lookup_insert_ne by done.
Qed.
Lemma mapped_addr v fb x n k : mapped v fb x n -> 0 <= addr_at x k < 2 ^ 32.
Proof.
  intros M. unfold addr_at. destruct (nth_in_or_default k (i_addrs x) 0) as [Hin|E]; [|by rewrite E].
  pose proof (mp_range _ _ _ _ M) as Hr. rewrite Forall_forall in Hr. apply Hr. by apply list_elem_of_In.
Qed.

(** A direct block. *)
Lemma iappend_direct s d n : disk_ok s -> mapped (vw s) (freeblock s) (ino d) n -> n < 12 -> freeblock s < FSSIZE ->
  extended s d n (bump s) (with_addr d (Z.to_nat n) (freeblock s)) (n + 1).
Proof.
  intros Hd M Hn Hf. pose proof Hd as (_ & Hfb & _). pose proof (mp_n _ _ _ _ M) as Hn0. pose proof (mp_len _ _ _ _ M) as Hlen.
  assert (Hlen' : length (di_addrs d) = 13%nat) by exact Hlen.
  assert (Hi : ind_blk (ino (with_addr d (Z.to_nat n) (freeblock s))) = ind_blk (ino d)).
  { unfold ind_blk. rewrite addr_with by lia. by rewrite decide_False by lia. }
  assert (Hind0 : ind_blk (ino d) = 0) by (destruct (decide (ind_blk (ino d) = 0)) as [|Hne]; [done|]; apply (mp_ind_iff _ _ _ _ M) in Hne; lia).
  assert (Hmap : forall c, in_file c -> blkmap (vw (bump s)) (ino (with_addr d (Z.to_nat n) (freeblock s))) c =
    if decide (c = n) then freeblock s else blkmap (vw s) (ino d) c).
  { intros c Hc. unfold in_file in Hc. unfold blkmap. rewrite Hi, Hind0. destruct (Z.ltb_spec c 12); [|by rewrite decide_False by lia].
    rewrite addr_with by lia. repeat case_decide; try lia; done. }
  destruct (mapped_add (vw s) (vw (bump s)) (freeblock s) (freeblock s + 1) (ino d) (ino (with_addr d (Z.to_nat n) (freeblock s))) n (freeblock s) M)
    as (M' & Ho & Hk'); [unfold in_file; lia|lia|lia| | |done|by left|rewrite Hi, Hind0; lia|].
  { cbn. by rewrite length_insert. }
  { cbn. apply Forall_insert; [apply (mp_range _ _ _ _ M)|]. unfold FSSIZE in *. change nmeta with 47 in *. lia. }
  split; [by apply disk_ok_bump|exact M'| |done|by destruct d|exact Ho|exact Hk'|done|].
  - cbn. unfold sectors_of. destruct (Z.ltb_spec 12 n), (Z.ltb_spec 12 (n + 1)); lia.
  - intros k Hk. unfold fbyte. rewrite Hmap by (unfold in_file; change BSIZE with 1024 in *; dlia). case_decide as E; [|done].
    assert (E0 : blkmap (vw s) (ino d) (k / BSIZE) = 0).
    { rewrite E. destruct (decide (blkmap (vw s) (ino d) n = 0)) as [|Hne]; [done|]. apply (mp_iff _ _ _ _ M) in Hne; [lia|unfold in_file; lia]. }
    rewrite E0. cbn [Z.eqb]. change nmeta with 47 in *. destruct (Z.eqb_spec (freeblock s) 0); [lia|].
    change (vw (bump s) (freeblock s)) with (vw s (freeblock s)). destruct Hd as (_ & _ & Hz). rewrite Hz by lia. apply nth_zeros.
Qed.

(** An entry of the indirect block, which is there. *)
Lemma iappend_indirect s d n a : disk_ok s -> mapped (vw s) (freeblock s) (ino d) n -> 12 < n < 268 -> freeblock s < FSSIZE -> a = ind_blk (ino d) ->
  extended s d n (put a (put_le (4 * Z.to_nat (n - 12)) 4 (freeblock s) (vw s a)) (bump s)) d (n + 1).
Proof.
  intros Hd M Hn Hf ->. set (a := ind_blk (ino d)). set (k := Z.to_nat (n - 12)). pose proof Hd as (_ & Hfb & Hz). change nmeta with 47 in *.
  assert (Ha0 : a <> 0) by (apply (mp_ind_iff _ _ _ _ M); lia).
  assert (Ha : 47 <= a < freeblock s) by (apply (mp_owned _ _ _ _ M); by apply owns_ind).
  destruct (rsect_ok s a Hd ltac:(unfold FSSIZE in *; lia)) as [_ Hlen]. change (Z.to_nat BSIZE) with 1024%nat in Hlen.
  set (s' := put a (put_le (4 * k) 4 (freeblock s) (vw s a)) (bump s)).
  assert (Hva : vw s' a = put_le (4 * k) 4 (freeblock s) (vw s a)) by (unfold s'; rewrite vw_put, Z.eqb_refl; done).
  assert (Hvo : forall b, b <> a -> vw s' b = vw s b) by (intros b Hb; unfold s'; rewrite vw_put; destruct (Z.eqb_spec b a); done).
  assert (Hmap : forall c, in_file c -> blkmap (vw s') (ino d) c = if decide (c = n) then freeblock s else blkmap (vw s) (ino d) c).
  { intros c Hc. unfold in_file in Hc. unfold blkmap. destruct (Z.ltb_spec c 12); [by rewrite decide_False by lia|]. fold a.
    destruct (Z.eqb_spec a 0); [done|]. unfold ind_at. rewrite Hva. case_decide as E.
    - subst c. fold k. rewrite get_put_le by lia. apply Z.mod_small. unfold FSSIZE in *. lia.
    - apply get_put_le_ne; lia. }
  destruct (mapped_add (vw s) (vw s') (freeblock s) (freeblock s + 1) (ino d) (ino d) n (freeblock s) M) as (M' & Ho & Hk');
    [unfold in_file; lia|change nmeta with 47; lia|lia|apply (mp_len _ _ _ _ M)|apply (mp_range _ _ _ _ M)|done|by left|fold a; lia|].
  split; [|exact M'| |done|by destruct d|exact Ho|exact Hk'|intros b Hb; apply Hvo; intros ->; by apply Hb, owns_ind|].
  - apply disk_ok_put; [by apply disk_ok_bump|change (freeblock (bump s)) with (freeblock s + 1); lia|]. rewrite length_put_le; [done|lia].
  - cbn. unfold sectors_of. destruct (Z.ltb_spec 12 n), (Z.ltb_spec 12 (n + 1)); lia.
  - intros j Hj. unfold fbyte. rewrite Hmap by (unfold in_file; change BSIZE with 1024 in *; dlia). case_decide as E.
    + assert (E0 : blkmap (vw s) (ino d) (j / BSIZE) = 0).
      { rewrite E. destruct (decide (blkmap (vw s) (ino d) n = 0)) as [|Hne]; [done|]. apply (mp_iff _ _ _ _ M) in Hne; [lia|unfold in_file; lia]. }
      rewrite E0. cbn [Z.eqb]. destruct (Z.eqb_spec (freeblock s) 0); [lia|]. rewrite Hvo by lia. rewrite Hz by lia. apply nth_zeros.
    + destruct (Z.eqb_spec (blkmap (vw s) (ino d) (j / BSIZE)) 0) as [|Hb]; [done|]. rewrite Hvo; [done|].
      apply (mp_ind _ _ _ _ M); [unfold in_file; change BSIZE with 1024 in *; dlia|done].
Qed.

(** The indirect block and its first entry. *)
Lemma iappend_first_indirect s d : disk_ok s -> mapped (vw s) (freeblock s) (ino d) 12 -> freeblock s + 1 < FSSIZE ->
  extended s d 12 (put (freeblock s) (put_le 0 4 (freeblock s + 1) zeros) (bump (bump s))) (with_addr d 12 (freeblock s)) 13.
Proof.
  intros Hd M Hf. pose proof Hd as (_ & Hfb & Hz). change nmeta with 47 in *. set (a := freeblock s) in *.
  assert (Hlen : length (di_addrs d) = 13%nat) by exact (mp_len _ _ _ _ M).
  assert (Hind0 : ind_blk (ino d) = 0) by (destruct (decide (ind_blk (ino d) = 0)) as [|Hne]; [done|]; apply (mp_ind_iff _ _ _ _ M) in Hne; lia).
  set (d' := with_addr d 12 a). set (s' := put a (put_le 0 4 (a + 1) zeros) (bump (bump s))).
  assert (Hi : ind_blk (ino d') = a) by (unfold ind_blk, d'; rewrite addr_with by lia; by rewrite decide_True).
  assert (Hva : vw s' a = put_le 0 4 (a + 1) zeros) by (unfold s'; rewrite vw_put, Z.eqb_refl; done).
  assert (Hvo : forall b, b <> a -> vw s' b = vw s b) by (intros b Hb; unfold s'; rewrite vw_put; destruct (Z.eqb_spec b a); done).
  assert (Hz1024 : length zeros = 1024%nat) by reflexivity.
  assert (Hmap : forall c, in_file c -> blkmap (vw s') (ino d') c = if decide (c = 12) then a + 1 else blkmap (vw s) (ino d) c).
  { intros c Hc. unfold in_file in Hc. unfold blkmap. rewrite Hi, Hind0. cbn [Z.eqb]. destruct (Z.ltb_spec c 12).
    - rewrite decide_False by lia. unfold d'. rewrite addr_with by lia. by rewrite decide_False by lia.
    - destruct (Z.eqb_spec a 0); [lia|]. unfold ind_at. rewrite Hva. case_decide as E.
      + subst c. cbn [Z.sub Z.to_nat Nat.mul]. rewrite get_put_le by (rewrite Hz1024; lia). apply Z.mod_small. unfold FSSIZE in *. lia.
      + rewrite get_put_le_ne by (rewrite ?Hz1024; lia). apply (ind_at_zeros (Z.to_nat (c - 12))). }
  destruct (mapped_add (vw s) (vw s') a (a + 2) (ino d) (ino d') 12 (a + 1) M) as (M' & Ho & Hk');
    [unfold in_file; lia|change nmeta with 47; lia|lia| | |done|right; lia|lia|].
  { cbn. by rewrite length_insert. }
  { cbn. apply Forall_insert; [apply (mp_range _ _ _ _ M)|]. unfold FSSIZE in *. lia. }
  assert (Hfs' : freeblock s' = a + 2) by (change (freeblock s + 1 + 1 = a + 2); unfold a; lia).
  split; rewrite ?Hfs'.
  - apply disk_ok_put; [apply disk_ok_bump; [apply disk_ok_bump; [done|unfold a in *; lia]|change (freeblock s + 1 < FSSIZE); unfold a in *; lia]| |].
    + change (0 <= a < freeblock s + 1 + 1). unfold a in *. lia.
    + rewrite length_put_le; [done|rewrite Hz1024; lia].
  - exact M'.
  - unfold sectors_of. cbn. unfold a. lia.
  - done.
  - by destruct d.
  - exact Ho.
  - exact Hk'.
  - intros b Hb. apply Hvo. intros ->. apply Hb. rewrite <-Hi. apply owns_ind. rewrite Hi. lia.
  - intros j Hj. unfold fbyte. rewrite Hmap by (unfold in_file; change BSIZE with 1024 in *; dlia). case_decide as E.
    + assert (E0 : blkmap (vw s) (ino d) (j / BSIZE) = 0).
      { rewrite E. destruct (decide (blkmap (vw s) (ino d) 12 = 0)) as [|Hne]; [done|]. apply (mp_iff _ _ _ _ M) in Hne; [lia|unfold in_file; lia]. }
      rewrite E0. cbn [Z.eqb]. destruct (Z.eqb_spec (a + 1) 0); [lia|]. rewrite Hvo by lia. rewrite Hz by lia. apply nth_zeros.
    + destruct (Z.eqb_spec (blkmap (vw s) (ino d) (j / BSIZE)) 0) as [|Hb]; [done|]. rewrite Hvo; [done|].
      assert (Hin : in_file (j / BSIZE)) by (unfold in_file; change BSIZE with 1024 in *; dlia).
      pose proof (mp_owned _ _ _ _ M _ (owns_blkmap _ _ _ Hin Hb)). unfold a in *. lia.
Qed.

Lemma addr_xint s d n k : mapped (vw s) (freeblock s) (ino d) n -> xint (nth k (di_addrs d) 0) = addr_at (ino d) k.
Proof. intros M. apply xint_id. apply (mapped_addr _ _ (ino d) _ k M). Qed.

(** The block is there. *)
Lemma iappend_block_old s d n fbn : disk_ok s -> mapped (vw s) (freeblock s) (ino d) n -> in_file fbn -> fbn < n ->
  iappend_block d fbn s = Ok (d, blkmap (vw s) (ino d) fbn) s.
Proof.
  intros Hd M Hf Hlt. pose proof Hd as (_ & Hfb & Hz). change nmeta with 47 in Hfb. pose proof (fun k => addr_xint s d n k M) as Hx.
  assert (Hb : blkmap (vw s) (ino d) fbn <> 0) by (by apply (mp_iff _ _ _ _ M)).
  pose proof (mp_owned _ _ _ _ M _ (owns_blkmap _ _ _ Hf Hb)) as Hown. change nmeta with 47 in Hown. unfold in_file in Hf.
  unfold iappend_block. cbv zeta. change NDIRECT with 12. unfold blkmap in *. destruct (Z.ltb_spec fbn 12).
  - rewrite Hx. destruct (Z.eqb_spec (addr_at (ino d) (Z.to_nat fbn)) 0); [done|]. unfold bind, ret. by rewrite Hx.
  - rewrite Hx. fold (ind_blk (ino d)). assert (Hi : ind_blk (ino d) <> 0) by (apply (mp_ind_iff _ _ _ _ M); lia).
    destruct (Z.eqb_spec (ind_blk (ino d)) 0); [done|]. pose proof (mp_owned _ _ _ _ M _ (owns_ind _ _ Hi)) as Hio. change nmeta with 47 in Hio.
    unfold bind at 1, ret at 1. rewrite Hx. fold (ind_blk (ino d)). destruct (rsect_ok s (ind_blk (ino d)) Hd ltac:(unfold FSSIZE in *; lia)) as [E _].
    rewrite (bind_ok _ _ _ _ _ E). fold (ind_at (vw s (ind_blk (ino d))) (Z.to_nat (fbn - 12))).
    destruct (Z.eqb_spec (ind_at (vw s (ind_blk (ino d))) (Z.to_nat (fbn - 12))) 0); [done|]. unfold bind, ret. do 2 f_equal.
    apply xint_id. unfold FSSIZE in *. unfold ind_at in *. lia.
Qed.

Lemma blkmap_ind v x bn : 12 <= bn -> ind_blk x <> 0 -> blkmap v x bn = ind_at (v (ind_blk x)) (Z.to_nat (bn - 12)).
Proof. intros Hb Hi. unfold blkmap. destruct (Z.ltb_spec bn 12); [lia|]. by destruct (Z.eqb_spec (ind_blk x) 0). Qed.

(** The entry [k] of the indirect block [a] is not there. *)
Lemma indirect_entry s a k (d : dinode) : disk_ok s -> 0 <= a < freeblock s -> (k < 256)%nat -> get_le (4 * k) 4 (vw s a) = 0 -> freeblock s < FSSIZE ->
  bind (rsect a) (fun indirect =>
    bind (if get_le (4 * k) 4 indirect =? 0 then
            bind next_block (fun b => bind (wsect a (put_le (4 * k) 4 (xint b) indirect))
              (fun _ => ret (put_le (4 * k) 4 (xint b) indirect)))
          else ret indirect) (fun indirect => ret (d, xint (get_le (4 * k) 4 indirect)))) s =
  Ok (d, freeblock s) (put a (put_le (4 * k) 4 (freeblock s) (vw s a)) (bump s)).
Proof.
  intros Hd Ha Hk H0 Hf. pose proof Hd as (_ & Hfb & _). change nmeta with 47 in Hfb. destruct (rsect_ok s a Hd ltac:(lia)) as [E Hl].
  rewrite (bind_ok _ _ _ _ _ E), H0. cbn [Z.eqb]. change (Z.to_nat BSIZE) with 1024%nat in Hl.
  unfold bind at 1. rewrite (bind_ok _ _ _ _ _ (next_block_ok s Hd)). rewrite (xint_id (freeblock s)) by (unfold FSSIZE in *; lia).
  unfold bind at 1, wsect, modify at 1, ret at 1. unfold ret. do 2 f_equal. rewrite get_put_le by lia.
  rewrite Z.mod_small by (unfold FSSIZE in *; lia). apply xint_id. unfold FSSIZE in *. lia.
Qed.

(** A block is added. *)
Lemma iappend_block_new s d n : disk_ok s -> mapped (vw s) (freeblock s) (ino d) n -> in_file n ->
  freeblock s + sectors_of (n + 1) - sectors_of n <= FSSIZE ->
  exists d' s', iappend_block d n s = Ok (d', blkmap (vw s') (ino d') n) s' /\ extended s d n s' d' (n + 1).
Proof.
  intros Hd M Hf Hroom. pose proof Hd as (_ & Hfb & Hz). change nmeta with 47 in Hfb. pose proof (fun k => addr_xint s d n k M) as Hx.
  assert (Hb0 : blkmap (vw s) (ino d) n = 0).
  { destruct (decide (blkmap (vw s) (ino d) n = 0)) as [|Hne]; [done|]. apply (mp_iff _ _ _ _ M) in Hne; [lia|done]. }
  assert (Hxf : xint (freeblock s) = freeblock s) by (apply xint_id; unfold FSSIZE in *; lia). pose proof (mp_len _ _ _ _ M) as Hl13.
  unfold in_file in Hf. unfold iappend_block. cbv zeta. change NDIRECT with 12. unfold sectors_of in Hroom.
  destruct (Z.ltb_spec n 12).
  - assert (Hroom' : freeblock s < FSSIZE) by (destruct (Z.ltb_spec 12 n), (Z.ltb_spec 12 (n + 1)); lia).
    eexists _, _. split; [|by apply iappend_direct]. unfold blkmap in *. destruct (Z.ltb_spec n 12); [|lia].
    rewrite Hx, Hb0. cbn [Z.eqb]. unfold bind at 1. rewrite (bind_ok _ _ _ _ _ (next_block_ok s Hd)), Hxf. unfold ret. cbn beta iota.
    fold (with_addr d (Z.to_nat n) (freeblock s)). rewrite addr_with, decide_True by (done || (change (di_addrs d) with (i_addrs (ino d)); lia)).
    do 2 f_equal. cbn [with_addr di_addrs]. rewrite nth_lookup, list_lookup_insert_eq by (change (di_addrs d) with (i_addrs (ino d)); lia). exact Hxf.
  - destruct (decide (n = 12)) as [->|Hne].
    + change (12 <? 12 + 1) with true in Hroom. change (12 <? 12) with false in Hroom. cbv iota in Hroom.
      assert (Hroom' : freeblock s + 1 < FSSIZE) by lia.
      eexists _, _. split; [|by apply iappend_first_indirect].
      assert (Hi0 : addr_at (ino d) 12 = 0).
      { fold (ind_blk (ino d)). destruct (decide (ind_blk (ino d) = 0)) as [|Hi]; [done|]. apply (mp_ind_iff _ _ _ _ M) in Hi. lia. }
      rewrite Hx, Hi0. cbn [Z.eqb]. unfold bind at 1. rewrite (bind_ok _ _ _ _ _ (next_block_ok s Hd)), Hxf. unfold ret at 1. cbn beta iota.
      fold (with_addr d 12 (freeblock s)). set (d' := with_addr d 12 (freeblock s)).
      assert (Ha : addr_at (ino d') 12 = freeblock s) by (unfold d'; rewrite addr_with by (change (di_addrs d) with (i_addrs (ino d)); lia); by rewrite decide_True).
      assert (Hxa : xint (nth 12 (di_addrs d') 0) = freeblock s) by (change (nth 12 (di_addrs d') 0) with (addr_at (ino d') 12); by rewrite Ha).
      rewrite Hxa. assert (Hzs : vw (bump s) (freeblock s) = zeros) by (apply Hz; lia).
      pose proof (indirect_entry (bump s) (freeblock s) 0 d') as E. rewrite Hzs in E. change (Z.to_nat (12 - 12)) with 0%nat. change (4 * 0)%nat with 0%nat in *.
      change (freeblock (bump s)) with (freeblock s + 1) in E.
      rewrite E; [|apply disk_ok_bump; [done|lia]|lia|lia|apply (ind_at_zeros 0)|lia]. do 2 f_equal.
      rewrite blkmap_ind by (fold (ind_blk (ino d')) in Ha; lia). fold (ind_blk (ino d')) in Ha. rewrite Ha, vw_put, Z.eqb_refl. unfold ind_at.
      change (4 * Z.to_nat (12 - 12))%nat with 0%nat. rewrite get_put_le; [symmetry; apply Z.mod_small; unfold FSSIZE in *; lia|]. change (length zeros) with 1024%nat. lia.
    + assert (Hroom' : freeblock s < FSSIZE) by (destruct (Z.ltb_spec 12 n), (Z.ltb_spec 12 (n + 1)); lia).
      eexists _, _. split; [|apply (iappend_indirect s d n (ind_blk (ino d)) Hd M); [lia|done|reflexivity]].
      assert (Hi : ind_blk (ino d) <> 0) by (apply (mp_ind_iff _ _ _ _ M); lia).
      pose proof (mp_owned _ _ _ _ M _ (owns_ind _ _ Hi)) as Hio. change nmeta with 47 in Hio.
      rewrite Hx. fold (ind_blk (ino d)). destruct (Z.eqb_spec (ind_blk (ino d)) 0); [done|]. unfold bind at 1, ret at 1. rewrite Hx. fold (ind_blk (ino d)).
      rewrite blkmap_ind in Hb0 by done. unfold ind_at in Hb0.
      rewrite (indirect_entry s (ind_blk (ino d)) (Z.to_nat (n - 12)) d Hd ltac:(lia) ltac:(lia) Hb0 Hroom'). do 2 f_equal.
      rewrite blkmap_ind by done. rewrite vw_put, Z.eqb_refl. unfold ind_at. destruct (rsect_ok s (ind_blk (ino d)) Hd ltac:(unfold FSSIZE in *; lia)) as [_ Hl].
      change (Z.to_nat BSIZE) with 1024%nat in Hl. rewrite get_put_le by lia. symmetry. apply Z.mod_small. unfold FSSIZE in *. lia.
Qed.

Lemma iappend_block_spec s d n fbn : disk_ok s -> mapped (vw s) (freeblock s) (ino d) n -> in_file fbn -> fbn <= n ->
  freeblock s + sectors_of (Z.max n (fbn + 1)) - sectors_of n <= FSSIZE ->
  exists d' s', iappend_block d fbn s = Ok (d', blkmap (vw s') (ino d') fbn) s' /\ extended s d n s' d' (Z.max n (fbn + 1)).
Proof.
  intros Hd M Hf Hle Hroom. destruct (decide (fbn < n)) as [Hlt|Hge].
  - rewrite Z.max_l by lia. exists d, s. split; [by apply (iappend_block_old s d n)|by apply extended_refl].
  - assert (fbn = n) as -> by lia. rewrite Z.max_r in * by lia. by apply iappend_block_new.
Qed.

(** ** Appending *)

Definition nblk (len : Z) : Z := (len + 1023) / 1024.
Definition secs (len : Z) : Z := sectors_of (nblk len).
Notation zlen l := (Z.of_nat (length l)).
Definition max_len : Z := 268 * BSIZE.

(** The file holds the bytes [c], and zeros after them. *)
Record holds (v : Z -> list Z) (fb : Z) (x : inode) (c : list Z) : Prop := {
  hl_mapped : mapped v fb x (nblk (zlen c));
  hl_len : zlen c <= max_len;
  hl_bytes : forall k, 0 <= k < max_len -> fbyte v x k = nth (Z.to_nat k) c 0
}.

Record appended (s : image) (d : dinode) (c : list Z) (s' : image) (d' : dinode) (c' : list Z) : Prop := {
  ap_disk : disk_ok s';
  ap_holds : holds (vw s') (freeblock s') (ino d') c';
  ap_free : freeblock s' = freeblock s + secs (zlen c') - secs (zlen c);
  ap_inodes : freeinode s' = freeinode s;
  ap_fields : d' = {| d with di_addrs := di_addrs d' |};
  ap_owns : forall b, owns (vw s') (ino d') b -> owns (vw s) (ino d) b \/ freeblock s <= b < freeblock s';
  ap_keeps : forall b, owns (vw s) (ino d) b -> owns (vw s') (ino d') b;
  ap_view : forall b, ~ owns (vw s') (ino d') b -> vw s' b = vw s b
}.

Lemma owns_same_ind v v' x : (ind_blk x <> 0 -> v' (ind_blk x) = v (ind_blk x)) -> forall b, owns v' x b <-> owns v x b.
Proof. intros H b. pose proof (blkmap_frame v v' x H) as E. unfold owns. by setoid_rewrite E. Qed.
Lemma mapped_ext v v' fb x n : (ind_blk x <> 0 -> v' (ind_blk x) = v (ind_blk x)) -> mapped v fb x n -> mapped v' fb x n.
Proof.
  intros H [Hl Hr Ho Hi Hd Hf Hif Hn]. pose proof (blkmap_frame v v' x H) as E. split; [done|done| | | | |done|done].
  - intros b Hb%(owns_same_ind v v' x H). by apply Ho.
  - intros bn bn'. rewrite !E. apply Hi.
  - intros bn. rewrite E. apply Hd.
  - intros bn. rewrite E. apply Hf.
Qed.

Lemma sectors_of_mono n m : n <= m -> sectors_of n <= sectors_of m.
Proof. intros H. unfold sectors_of. destruct (Z.ltb_spec 12 n), (Z.ltb_spec 12 m); lia. Qed.
Lemma secs_mono a b : a <= b -> secs a <= secs b.
Proof. intros H. apply sectors_of_mono. unfold nblk. apply Z.div_le_mono; lia. Qed.

(** Writing the bytes [bs] at the end of the file, within its last block. *)
Lemma write_end s d c bs : disk_ok s -> let fbn := zlen c / BSIZE in
  mapped (vw s) (freeblock s) (ino d) (fbn + 1) -> (forall k, 0 <= k < max_len -> fbyte (vw s) (ino d) k = nth (Z.to_nat k) c 0) ->
  bs <> [] -> zlen c mod BSIZE + zlen bs <= BSIZE ->
  let x := blkmap (vw s) (ino d) fbn in
  let s' := put x (splice (Z.to_nat (zlen c - fbn * BSIZE)) bs (vw s x)) s in
  rsect x s = Ok (vw s x) s /\ owns (vw s) (ino d) x /\ disk_ok s' /\ holds (vw s') (freeblock s') (ino d) (c ++ bs).
Proof.
  intros Hd fbn M Hb Hbs Hle x s'. pose proof Hd as (_ & Hfb & _). pose proof (mp_n _ _ _ _ M) as Hn. change BSIZE with 1024 in *. change nmeta with 47 in *.
  assert (Hf : in_file fbn) by (unfold in_file; unfold fbn in *; dlia).
  assert (Hx0 : x <> 0) by (apply (mp_iff _ _ _ _ M); [done|lia]). pose proof (owns_blkmap _ _ _ Hf Hx0) as Hown. fold x in Hown.
  pose proof (mp_owned _ _ _ _ M _ Hown) as Hxr. change nmeta with 47 in Hxr. destruct (rsect_ok s x Hd ltac:(unfold FSSIZE in *; lia)) as [Er Hlx].
  change (Z.to_nat BSIZE) with 1024%nat in Hlx. assert (Hl0 : (0 < length bs)%nat) by (destruct bs; [done|cbn; lia]).
  assert (Hoff : zlen c - fbn * 1024 = zlen c mod 1024) by (unfold fbn; dlia).
  assert (Hls : length (splice (Z.to_nat (zlen c - fbn * 1024)) bs (vw s x)) = 1024%nat).
  { pose proof (Z.mod_pos_bound (zlen c) 1024 ltac:(lia)). rewrite Hoff. rewrite length_splice; rewrite Hlx; [done|]. lia. }
  split; [done|]. split; [done|]. split; [apply disk_ok_put; [done|lia|done]|].
  assert (Hind : ind_blk (ino d) <> x) by (intros E; by apply (mp_ind _ _ _ _ M fbn Hf Hx0)).
  assert (Hv : forall b, vw s' b = upd x (splice (Z.to_nat (zlen c - fbn * 1024)) bs (vw s x)) (vw s) b).
  { intros b. unfold s', upd. rewrite vw_put. destruct (Z.eqb_spec b x); by case_decide. }
  assert (Hbm : forall bn, blkmap (vw s') (ino d) bn = blkmap (vw s) (ino d) bn).
  { apply blkmap_frame. intros _. rewrite Hv. unfold upd. by rewrite decide_False. }
  split.
  - rewrite length_app, Nat2Z.inj_add. replace (nblk (zlen c + zlen bs)) with (fbn + 1) by (unfold nblk, fbn; dlia).
    apply (mapped_ext (vw s)); [|exact M]. intros _. rewrite Hv. unfold upd. by rewrite decide_False.
  - rewrite length_app, Nat2Z.inj_add. unfold max_len. change BSIZE with 1024. unfold fbn in *. dlia.
  - intros k Hk. unfold max_len in Hk. change BSIZE with 1024 in Hk.
    assert (Hfb2 : fbyte (vw s') (ino d) k = if decide (k / 1024 = fbn) then nth (Z.to_nat (k mod 1024)) (splice (Z.to_nat (zlen c - fbn * 1024)) bs (vw s x)) 0
      else fbyte (vw s) (ino d) k).
    { unfold fbyte. change BSIZE with 1024. rewrite Hbm. case_decide as E.
      - rewrite E. fold x. destruct (Z.eqb_spec x 0); [done|]. rewrite Hv. unfold upd. by rewrite decide_True.
      - destruct (Z.eqb_spec (blkmap (vw s) (ino d) (k / 1024)) 0) as [|Hb0]; [done|]. rewrite Hv. unfold upd. rewrite decide_False; [done|].
        intros E'. apply E. apply (mp_inj _ _ _ _ M); [unfold in_file; dlia|done|done|done]. }
    rewrite Hfb2. rewrite Hoff. case_decide as E.
    + rewrite nth_splice by (pose proof (Z.mod_pos_bound (zlen c) 1024 ltac:(lia)); rewrite Hlx; lia). pose proof (Hb k ltac:(unfold max_len; change BSIZE with 1024; lia)) as Hbk.
      unfold fbyte in Hbk. change BSIZE with 1024 in Hbk. rewrite E in Hbk. fold x in Hbk. destruct (Z.eqb_spec x 0); [done|].
      case_decide as E2.
      * rewrite app_nth2 by (unfold fbn in *; dlia). f_equal. unfold fbn in *. dlia.
      * rewrite Hbk. destruct (decide (Z.to_nat k < length c)%nat); [by rewrite app_nth1|].
        rewrite (nth_overflow c) by lia. symmetry. apply nth_overflow. rewrite length_app. unfold fbn in *. dlia.
    + rewrite Hb by (unfold max_len; change BSIZE with 1024; lia).
      destruct (decide (Z.to_nat k < length c)%nat); [by rewrite app_nth1|]. rewrite (nth_overflow c) by lia. symmetry.
      apply nth_overflow. rewrite length_app. unfold fbn in *. dlia.
Qed.

Lemma nblk_floor c : 0 <= c -> Z.max (nblk c) (c / 1024 + 1) = c / 1024 + 1 /\ c / 1024 <= nblk c.
Proof. intros H. unfold nblk. split; dlia. Qed.

(** One turn of the loop. *)
Lemma iappend_turn s d c bs : disk_ok s -> holds (vw s) (freeblock s) (ino d) c -> bs <> [] ->
  zlen c mod BSIZE + zlen bs <= BSIZE -> zlen (c ++ bs) <= max_len -> freeblock s + secs (zlen (c ++ bs)) - secs (zlen c) <= FSSIZE ->
  exists d' x s1, iappend_block d (zlen c / BSIZE) s = Ok (d', x) s1 /\
    rsect x s1 = Ok (vw s1 x) s1 /\
    appended s d c (put x (splice (Z.to_nat (zlen c - zlen c / BSIZE * BSIZE)) bs (vw s1 x)) s1) d' (c ++ bs).
Proof.
  intros Hd [M Hl Hb] Hbs Hle Hmax Hroom. assert (Hl0 : (0 < length bs)%nat) by (destruct bs; [done|cbn; lia]).
  destruct (nblk_floor (zlen c) ltac:(lia)) as [Hn1 Hn2]. change BSIZE with 1024 in Hle. unfold max_len in Hmax. change BSIZE with 1024 in Hmax.
  assert (Hsec : secs (zlen (c ++ bs)) = sectors_of (zlen c / 1024 + 1)).
  { unfold secs. f_equal. rewrite length_app. unfold nblk. dlia. }
  destruct (iappend_block_spec s d (nblk (zlen c)) (zlen c / 1024) Hd M) as (d' & s1 & E & X); [unfold in_file; rewrite length_app in Hmax; dlia|done| |].
  { rewrite Hn1, <-Hsec. exact Hroom. }
  rewrite Hn1 in X. destruct (write_end s1 d' c bs (ex_disk _ _ _ _ _ _ X)) as (Er & Hown & Hd' & Hh).
  - change BSIZE with 1024. apply (ex_mapped _ _ _ _ _ _ X).
  - intros k Hk. rewrite (ex_bytes _ _ _ _ _ _ X) by exact Hk. by apply Hb.
  - done.
  - exact Hle.
  - change BSIZE with 1024 in *. eexists d', _, s1. split; [exact E|]. split; [exact Er|].
    set (x := blkmap (vw s1) (ino d') (zlen c / 1024)) in *. set (s' := put x _ s1) in *.
    pose proof (ex_mapped _ _ _ _ _ _ X) as M1.
    assert (Hinx : in_file (zlen c / 1024)) by (unfold in_file; rewrite length_app in Hmax; dlia).
    assert (Hoe : forall b, owns (vw s') (ino d') b <-> owns (vw s1) (ino d') b).
    { apply owns_same_ind. intros Hi. unfold s'. rewrite vw_put. destruct (Z.eqb_spec (ind_blk (ino d')) x) as [Ex|]; [|done].
      exfalso. apply (mp_ind _ _ _ _ M1 (zlen c / 1024) Hinx); [apply (mp_iff _ _ _ _ M1); [done|lia]|done]. }
    split; [done|exact Hh| |apply (ex_inodes _ _ _ _ _ _ X)|apply (ex_fields _ _ _ _ _ _ X)| | |].
    + change (freeblock s') with (freeblock s1). rewrite Hsec. apply (ex_free _ _ _ _ _ _ X).
    + intros b Hob%Hoe. by apply (ex_owns _ _ _ _ _ _ X).
    + intros b Hob. apply Hoe. by apply (ex_keeps _ _ _ _ _ _ X).
    + intros b Hob. rewrite Hoe in Hob. unfold s'. rewrite vw_put. destruct (Z.eqb_spec b x); [subst; done|].
      by apply (ex_view _ _ _ _ _ _ X).
Qed.

Lemma appended_trans s d c s1 d1 c1 s2 d2 c2 : nmeta <= freeblock s -> appended s d c s1 d1 c1 -> appended s1 d1 c1 s2 d2 c2 ->
  freeblock s <= freeblock s1 -> appended s d c s2 d2 c2.
Proof.
  intros Hnm A B Hfb. split.
  - apply (ap_disk _ _ _ _ _ _ B).
  - apply (ap_holds _ _ _ _ _ _ B).
  - rewrite (ap_free _ _ _ _ _ _ B), (ap_free _ _ _ _ _ _ A). lia.
  - rewrite (ap_inodes _ _ _ _ _ _ B). apply (ap_inodes _ _ _ _ _ _ A).
  - rewrite (ap_fields _ _ _ _ _ _ B), (ap_fields _ _ _ _ _ _ A). done.
  - intros b Hb. destruct (ap_owns _ _ _ _ _ _ B b Hb) as [Hb1|Hb1].
    + destruct (ap_owns _ _ _ _ _ _ A b Hb1) as [|?]; [by left|]. right.
      pose proof (mp_owned _ _ _ _ (hl_mapped _ _ _ _ (ap_holds _ _ _ _ _ _ B)) b Hb). lia.
    + right. lia.
  - intros b Hb. by apply (ap_keeps _ _ _ _ _ _ B), (ap_keeps _ _ _ _ _ _ A).
  - intros b Hb. rewrite (ap_view _ _ _ _ _ _ B b Hb). apply (ap_view _ _ _ _ _ _ A). intros Hb1. by apply Hb, (ap_keeps _ _ _ _ _ _ B).
Qed.

Lemma iappend_loop_spec fuel : forall s d c p, disk_ok s -> holds (vw s) (freeblock s) (ino d) c -> (length p <= fuel)%nat ->
  zlen (c ++ p) <= max_len -> freeblock s + secs (zlen (c ++ p)) - secs (zlen c) <= FSSIZE ->
  exists d' s', iappend_loop fuel d (zlen c) p s = Ok (d', zlen (c ++ p)) s' /\ appended s d c s' d' (c ++ p).
Proof.
  induction fuel as [|fuel IH]; intros s d c p Hd Hh Hf Hmax Hroom.
  all: destruct p as [|x p]; [exists d, s; rewrite app_nil_r; split; [done|]; split; try done; [lia|by destruct d|by left]|].
  { cbn in Hf. lia. }
  cbn [iappend_loop]. set (q := x :: p) in *. assert (Hq : (0 < length q)%nat) by (cbn; lia). unfold max_len in Hmax. change BSIZE with 1024 in *.
  rewrite length_app, Nat2Z.inj_add in Hmax. change MAXFILE with 268. unfold panic_if. destruct (Z.leb_spec 268 (zlen c / 1024)) as [|Hfb]; [dlia|].
  unfold bind at 1, ret at 1. set (n1 := Z.min (zlen q) ((zlen c / 1024 + 1) * 1024 - zlen c)).
  assert (Hn1 : 0 < n1 <= zlen q /\ zlen c mod 1024 + n1 <= 1024) by (unfold n1; dlia).
  assert (Hlt : zlen (take (Z.to_nat n1) q) = n1) by (rewrite length_take; lia).
  assert (Hsplit : c ++ q = (c ++ take (Z.to_nat n1) q) ++ drop (Z.to_nat n1) q) by (by rewrite <-app_assoc, take_drop).
  assert (Hmono : secs (zlen (c ++ take (Z.to_nat n1) q)) <= secs (zlen (c ++ q))) by (apply secs_mono; rewrite !length_app; lia).
  destruct (iappend_turn s d c (take (Z.to_nat n1) q) Hd Hh) as (d1 & y & s1 & E1 & Er & A).
  { intros E0. rewrite E0 in Hlt. cbn in Hlt. lia. }
  { change BSIZE with 1024. lia. }
  { unfold max_len. change BSIZE with 1024. rewrite length_app. lia. }
  { lia. }
  change BSIZE with 1024 in E1. rewrite (bind_ok _ _ _ _ _ E1). cbn beta iota. rewrite (bind_ok _ _ _ _ _ Er).
  unfold bind at 1, wsect, modify. change BSIZE with 1024 in A. rewrite u32_small by lia.
  set (s2 := put y _ s1) in A. change (mkimage _ _ _) with s2.
  pose proof (ap_free _ _ _ _ _ _ A) as Hfree. pose proof (secs_mono (zlen c) (zlen (c ++ take (Z.to_nat n1) q)) ltac:(rewrite length_app; lia)) as Hm2.
  destruct (IH s2 d1 (c ++ take (Z.to_nat n1) q) (drop (Z.to_nat n1) q)) as (d' & s' & E' & B).
  - apply (ap_disk _ _ _ _ _ _ A).
  - apply (ap_holds _ _ _ _ _ _ A).
  - rewrite length_drop. lia.
  - rewrite <-Hsplit, length_app. unfold max_len. change BSIZE with 1024. lia.
  - rewrite <-Hsplit. lia.
  - rewrite <-Hsplit in E', B. rewrite length_app, Nat2Z.inj_add, Hlt in E'. exists d', s'. split; [exact E'|].
    destruct Hd as (_ & Hfbs & _). eapply appended_trans; [apply Hfbs|exact A|exact B|lia].
Qed.
