(* ===== verification/Mkfsimg.v ===== *)
(** * The image that mkfs writes: inodes, directories, bitmap

    [building s fs]: the image under construction holds the inodes and contents listed in [fs],
    in disjoint blocks below [freeblock].  Every step of main of mkfs/mkfs.c extends the list. *)

From S2P Require Import Ulib Prelude Kstring State Bio Log Fs Fsblk Fsinode Fsfile Fsrw Mkfs Mkfsok.

(** ** Inodes *)

Notation dn s i := (inode_on sb (vw s) i).
Definition inum_in (i : Z) : Prop := 0 <= i < 208.

Lemma sb_fields : sb_size sb = 2000 /\ sb_inodestart sb = 33 /\ sb_bmapstart sb = 46.
Proof. vm_compute. done. Qed.
Lemma iblock_eq i : inum_in i -> IBLOCK i sb = i / 16 + 33 /\ 33 <= IBLOCK i sb < 46 /\ inum_ok sb i.
Proof.
  intros Hi. unfold inum_in in Hi. destruct sb_fields as (_ & E & _).
  assert (Hok : inum_ok sb i) by (unfold inum_ok; rewrite E; lia). rewrite IBLOCK_eq, E by done. split; [done|]. split; [dlia|done].
Qed.

Lemma rinode_ok s i : disk_ok s -> inum_in i -> rinode i s = Ok (dn s i) s.
Proof.
  intros Hd Hi. destruct (iblock_eq i Hi) as (_ & Hb & _). destruct (rsect_ok s (IBLOCK i sb) Hd) as [E _]; [unfold FSSIZE; lia|].
  unfold rinode. by rewrite (bind_ok _ _ _ _ _ E).
Qed.

Lemma winode_ok s i d : disk_ok s -> inum_in i -> dinode_ok d -> exists s', winode i d s = Ok tt s' /\ disk_ok s' /\
  freeinode s' = freeinode s /\ freeblock s' = freeblock s /\
  (forall j, inum_in j -> dn s' j = if decide (j = i) then d else dn s j) /\
  (forall b, ~ 33 <= b < 46 -> vw s' b = vw s b).
Proof.
  intros Hd Hi Hok. destruct (iblock_eq i Hi) as (_ & Hb & Hin). destruct (rsect_ok s (IBLOCK i sb) Hd) as [E Hl]; [unfold FSSIZE; lia|].
  set (nb := put_dinode (di_off i) d (vw s (IBLOCK i sb))). exists (put (IBLOCK i sb) nb s).
  assert (Hlen : length nb = Z.to_nat BSIZE).
  { change (Z.to_nat BSIZE) with 1024%nat in *. unfold nb, put_dinode. destruct (di_off_eq i ltac:(apply Hi)) as [_ Ho].
    rewrite length_splice; rewrite ?length_dinode_bytes by apply Hok; [done|lia]. }
  assert (Hv : forall b, vw (put (IBLOCK i sb) nb s) b = upd (IBLOCK i sb) nb (vw s) b).
  { intros b. rewrite vw_put. unfold upd. destruct (Z.eqb_spec b (IBLOCK i sb)); by case_decide. }
  split; [unfold winode; by rewrite (bind_ok _ _ _ _ _ E)|]. split.
  { apply disk_ok_put; [done| |done]. destruct Hd as (_ & Hf & _). change nmeta with 47 in Hf. lia. }
  split; [done|]. split; [done|]. split.
  - intros j Hj. destruct (iblock_eq j Hj) as (_ & _ & Hinj).
    transitivity (inode_on sb (upd (IBLOCK i sb) nb (vw s)) j); [unfold inode_on; by rewrite Hv|]. by apply inode_on_upd.
  - intros b Hnb. rewrite Hv. unfold upd. rewrite decide_False by lia. done.
Qed.

(** ** The image under construction

    [cs] lists the types and contents of the files, inode 1 first. *)
Fixpoint total (cs : list (Z * list Z)) : Z :=
  match cs with [] => 0 | x :: cs' => secs (zlen x.2) + total cs' end.
Definition zero_dinode : dinode := {| di_type := 0; di_major := 0; di_minor := 0; di_nlink := 0; di_size := 0; di_addrs := replicate 13 0 |}.
Definition boot_blocks (b : Z) : list Z := if b =? 1 then splice 0 (sb_bytes sb) zeros else zeros.

Record inode_of (s : image) (i : Z) (ty : Z) (c : list Z) : Prop := {
  io_type : di_type (dn s i) = ty;
  io_dev : di_major (dn s i) = 0 /\ di_minor (dn s i) = 0;
  io_nlink : di_nlink (dn s i) = 1;
  io_size : di_size (dn s i) = zlen c;
  io_holds : holds (vw s) (freeblock s) (ino (dn s i)) c
}.

Record building (s : image) (cs : list (Z * list Z)) : Prop := {
  bu_disk : disk_ok s;
  bu_ninodes : freeinode s = 1 + zlen cs /\ zlen cs < NINODES;
  bu_free : freeblock s = nmeta + total cs;
  bu_inodes : forall i ty c, cs !! i = Some (ty, c) -> short_ok ty /\ inode_of s (Z.of_nat i + 1) ty c;
  bu_disjoint : forall i j b, (i < length cs)%nat -> (j < length cs)%nat -> i <> j ->
    owns (vw s) (ino (dn s (Z.of_nat i + 1))) b -> owns (vw s) (ino (dn s (Z.of_nat j + 1))) b -> False;
  bu_boot : forall b, 0 <= b < 33 \/ b = 46 -> vw s b = boot_blocks b;
  bu_spare : forall i, inum_in i -> i = 0 \/ zlen cs < i -> dn s i = zero_dinode
}.

Lemma holds_frame v v' fb fb' x c : (forall b, owns v x b -> v' b = v b) -> fb <= fb' -> holds v fb x c -> holds v' fb' x c.
Proof.
  intros H Hf [M Hl Hb]. split; [by apply (mapped_frame v v' fb)|done|]. intros k Hk. rewrite <-Hb by done. apply fbyte_frame; [done|].
  unfold in_file, max_len in *. change BSIZE with 1024 in *. dlia.
Qed.
Lemma secs_nonneg n : 0 <= n -> 0 <= secs n.
Proof. intros H. unfold secs, sectors_of, nblk. destruct (Z.ltb_spec 12 ((n + 1023) / 1024)); dlia. Qed.
Lemma total_insert cs i ty c c' : cs !! i = Some (ty, c) -> total (<[i := (ty, c')]> cs) = total cs + secs (zlen c') - secs (zlen c).
Proof.
  revert i. induction cs as [|x cs IH]; intros [|i] H; [done|done| |]; cbn [lookup list_lookup] in H.
  - injection H as ->. change (secs (zlen c') + total cs = secs (zlen c) + total cs + secs (zlen c') - secs (zlen c)). lia.
  - change (secs (zlen x.2) + total (<[i := (ty, c')]> cs) = secs (zlen x.2) + total cs + secs (zlen c') - secs (zlen c)). rewrite (IH i H). lia.
Qed.
Lemma total_app cs x : total (cs ++ [x]) = total cs + secs (zlen x.2).
Proof. induction cs as [|y cs IH]; cbn [app total] in *; lia. Qed.

(** A change of other blocks and inodes. *)
Lemma inode_of_frame s s' i ty c : dn s' i = dn s i -> freeblock s <= freeblock s' ->
  (forall b, owns (vw s) (ino (dn s i)) b -> vw s' b = vw s b) -> inode_of s i ty c -> inode_of s' i ty c.
Proof. intros E Hf Hv [H1 H2 H3 H4 H5]. split; rewrite ?E; [done..|]. by apply (holds_frame (vw s) (vw s') (freeblock s)). Qed.

Lemma inum_of s cs i : building s cs -> (i < length cs)%nat -> inum_in (Z.of_nat i + 1).
Proof. intros Hb Hi. destruct (bu_ninodes _ _ Hb) as [_ Hn]. unfold inum_in, NINODES in *. lia. Qed.

(** The inode that [iappend] writes back. *)
Lemma appended_dinode s d ty c s' d' c' : di_type d = ty -> short_ok ty -> di_major d = 0 /\ di_minor d = 0 -> di_nlink d = 1 ->
  appended s d c s' d' c' -> let d2 := {| d' with di_size := xint (zlen c') |} in
  dinode_ok d2 /\ di_type d2 = ty /\ (di_major d2 = 0 /\ di_minor d2 = 0) /\ di_nlink d2 = 1 /\ di_size d2 = zlen c' /\ ino d2 = {| (ino d') with i_size := zlen c' |}.
Proof.
  intros Ht Hty [Hma Hmi] Hn A d2. pose proof (ap_fields _ _ _ _ _ _ A) as Ef. pose proof (ap_holds _ _ _ _ _ _ A) as [M Hl _].
  assert (Hx : xint (zlen c') = zlen c') by (apply xint_id; unfold max_len in Hl; change BSIZE with 1024 in Hl; lia).
  assert (E : di_type d' = di_type d /\ di_major d' = di_major d /\ di_minor d' = di_minor d /\ di_nlink d' = di_nlink d) by (rewrite Ef; by repeat split).
  destruct E as (E1 & E2 & E3 & E4). assert (Eino : ino d2 = {| (ino d') with i_size := zlen c' |}) by (unfold d2; by rewrite Hx).
  revert Eino. unfold d2. cbn [di_type di_major di_minor di_nlink di_size].
  rewrite Hx, E1, E2, E3, E4, Ht, Hma, Hmi, Hn. intros Eino. split; [|by repeat split].
  split; cbn [di_type di_major di_minor di_nlink di_size di_addrs]; [done| | | |unfold max_len in Hl; change BSIZE with 1024 in Hl; lia|exact (mp_len _ _ _ _ M)|exact (mp_range _ _ _ _ M)]; unfold short_ok; lia.
Qed.

Lemma holds_size v fb x c n : holds v fb x c -> holds v fb {| x with i_size := n |} c.
Proof. intros [[] ? ?]. split; [split; done|done|done]. Qed.
Lemma owns_size v x n b : owns v {| x with i_size := n |} b <-> owns v x b.
Proof. done. Qed.

(** The file of inode [i] has changed from [c] to [c']. *)
Record rewrote (s s' : image) (i ty : Z) (c c' : list Z) : Prop := {
  rw_disk : disk_ok s';
  rw_ni : freeinode s' = freeinode s;
  rw_free : freeblock s' = freeblock s + secs (zlen c') - secs (zlen c);
  rw_mine : inode_of s' i ty c';
  rw_other : forall j, inum_in j -> j <> i -> dn s' j = dn s j;
  rw_owns : forall b, owns (vw s') (ino (dn s' i)) b -> owns (vw s) (ino (dn s i)) b \/ freeblock s <= b;
  rw_view : forall b, ~ 33 <= b < 46 -> ~ owns (vw s') (ino (dn s' i)) b -> vw s' b = vw s b
}.

Lemma iappend_rewrote s i ty c p : disk_ok s -> inum_in i -> short_ok ty -> inode_of s i ty c -> zlen (c ++ p) <= max_len ->
  freeblock s + secs (zlen (c ++ p)) - secs (zlen c) <= FSSIZE ->
  exists s', iappend i p s = Ok tt s' /\ rewrote s s' i ty c (c ++ p).
Proof.
  intros Hd Hin Hty [I1 I2 I3 I4 I5] Hmax Hroom. unfold iappend. rewrite (bind_ok _ _ _ _ _ (rinode_ok s _ Hd Hin)).
  assert (Hx : xint (di_size (dn s i)) = zlen c).
  { rewrite I4. apply xint_id. pose proof (hl_len _ _ _ _ I5) as Hl. unfold max_len in Hl. change BSIZE with 1024 in Hl. lia. }
  rewrite Hx. destruct (iappend_loop_spec (length p) s _ c p Hd I5 (le_n _) Hmax Hroom) as (d1 & s1 & E & A).
  rewrite (bind_ok _ _ _ _ _ E). cbn beta iota. destruct (appended_dinode _ _ _ _ _ _ _ I1 Hty I2 I3 A) as (Dok & D1 & D2 & D3 & D4 & D5).
  set (d2 := {| d1 with di_size := xint (zlen (c ++ p)) |}) in *.
  destruct (winode_ok s1 _ d2 (ap_disk _ _ _ _ _ _ A) Hin Dok) as (s2 & Ew & Hd2 & Hfi & Hfb & Hdn & Hv). exists s2. split; [exact Ew|].
  pose proof (ap_holds _ _ _ _ _ _ A) as Hh1. pose proof (mp_owned _ _ _ _ (hl_mapped _ _ _ _ Hh1)) as Ho1. change nmeta with 47 in Ho1.
  assert (Hmine : dn s2 i = d2) by (rewrite Hdn by done; by rewrite decide_True).
  assert (Hfr : forall b, owns (vw s1) (ino d1) b -> vw s2 b = vw s1 b) by (intros x Hx1%Ho1; apply Hv; lia).
  assert (Hown2 : forall b, owns (vw s2) (ino (dn s2 i)) b <-> owns (vw s1) (ino d1) b).
  { intros b. rewrite Hmine, D5, owns_size. by apply owns_frame. }
  split; [done|rewrite Hfi; apply (ap_inodes _ _ _ _ _ _ A)|rewrite Hfb; apply (ap_free _ _ _ _ _ _ A)| | | |].
  - split; rewrite Hmine; [done..|]. rewrite D5, Hfb. apply holds_size. by apply (holds_frame (vw s1) (vw s2) (freeblock s1)).
  - intros j Hj Hne. rewrite Hdn, decide_False by done. destruct (iblock_eq j Hj) as (_ & Hbj & _). unfold inode_on.
    rewrite (ap_view _ _ _ _ _ _ A); [done|]. intros Hob%Ho1. lia.
  - intros b Hob%Hown2. destruct (ap_owns _ _ _ _ _ _ A b Hob) as [|?]; [by left|right; lia].
  - intros b Hnb Hnob. rewrite Hown2 in Hnob. rewrite Hv by done. by apply (ap_view _ _ _ _ _ _ A).
Qed.

Lemma building_rewrote s s' cs i ty c c' : building s cs -> cs !! i = Some (ty, c) -> zlen c <= zlen c' ->
  rewrote s s' (Z.of_nat i + 1) ty c c' -> building s' (<[i := (ty, c')]> cs).
Proof.
  intros Hb Hi Hcc R. pose proof (lookup_lt_Some _ _ _ Hi) as Hlt. pose proof (secs_mono _ _ Hcc) as Hsm. pose proof (rw_free _ _ _ _ _ _ R) as Hfree.
  destruct (bu_inodes _ _ Hb i ty c Hi) as [Hty [_ _ _ _ I5]]. pose proof (rw_mine _ _ _ _ _ _ R) as Mine. destruct (bu_ninodes _ _ Hb) as [N1 N2].
  pose proof (mp_owned _ _ _ _ (hl_mapped _ _ _ _ (io_holds _ _ _ _ Mine))) as Ho2. change nmeta with 47 in Ho2.
  assert (Hother : forall j, (j < length cs)%nat -> j <> i -> dn s' (Z.of_nat j + 1) = dn s (Z.of_nat j + 1)).
  { intros j Hj Hne. apply (rw_other _ _ _ _ _ _ R); [by apply (inum_of _ _ _ Hb)|lia]. }
  assert (Hown : forall j b, (j < length cs)%nat -> owns (vw s) (ino (dn s (Z.of_nat j + 1))) b -> 47 <= b < freeblock s).
  { intros j b Hj. destruct (lookup_lt_is_Some_2 cs j Hj) as [[tj cj] Hcj]. destruct (bu_inodes _ _ Hb j tj cj Hcj) as [_ [_ _ _ _ J5]].
    apply (mp_owned _ _ _ _ (hl_mapped _ _ _ _ J5)). }
  assert (Hsep : forall j b, (j < length cs)%nat -> j <> i -> owns (vw s) (ino (dn s (Z.of_nat j + 1))) b -> ~ owns (vw s') (ino (dn s' (Z.of_nat i + 1))) b).
  { intros j b Hj Hne Hob Hob2. destruct (rw_owns _ _ _ _ _ _ R b Hob2) as [Hob3|?]; [|specialize (Hown j b Hj Hob); lia].
    exact (bu_disjoint _ _ Hb i j b Hlt Hj ltac:(done) Hob3 Hob). }
  assert (Hframe : forall j b, (j < length cs)%nat -> j <> i -> owns (vw s) (ino (dn s (Z.of_nat j + 1))) b -> vw s' b = vw s b).
  { intros j b Hj Hne Hob. specialize (Hown j b Hj Hob) as Hr. apply (rw_view _ _ _ _ _ _ R); [lia|]. by apply (Hsep j). }
  assert (Hoj : forall j b, (j < length cs)%nat -> j <> i -> owns (vw s') (ino (dn s' (Z.of_nat j + 1))) b -> owns (vw s) (ino (dn s (Z.of_nat j + 1))) b).
  { intros j b Hj Hne. rewrite Hother by done. rewrite (owns_frame (vw s) (vw s')); [done|]. intros x Hx. by apply (Hframe j). }
  split; rewrite ?length_insert.
  - apply (rw_disk _ _ _ _ _ _ R).
  - rewrite (rw_ni _ _ _ _ _ _ R). done.
  - rewrite Hfree, (total_insert _ _ _ _ _ Hi), (bu_free _ _ Hb). lia.
  - intros j tj cj. destruct (decide (j = i)) as [->|Hne].
    + rewrite list_lookup_insert_eq by done. by intros [= <- <-].
    + rewrite list_lookup_insert_ne by done. intros Hcj. pose proof (lookup_lt_Some _ _ _ Hcj) as Hj. destruct (bu_inodes _ _ Hb j tj cj Hcj) as [Htj Hio].
      split; [done|]. apply (inode_of_frame s); [by apply Hother|lia| |done]. intros b Hob. by apply (Hframe j).
  - intros j k b Hj Hk Hjk Hoj1 Hok1. destruct (decide (j = i)) as [->|Hji].
    + apply Hoj in Hok1; [|done|done]. by apply (Hsep k b Hk ltac:(done) Hok1).
    + apply Hoj in Hoj1; [|done|done]. destruct (decide (k = i)) as [->|Hki]; [by apply (Hsep j b Hj Hji Hoj1)|].
      apply Hoj in Hok1; [|done|done]. exact (bu_disjoint _ _ Hb j k b Hj Hk Hjk Hoj1 Hok1).
  - intros b Hbb. rewrite <-(bu_boot _ _ Hb b Hbb). apply (rw_view _ _ _ _ _ _ R); [lia|]. intros Hob%Ho2. lia.
  - intros j Hj Hjj. rewrite (rw_other _ _ _ _ _ _ R) by (done || lia). by apply (bu_spare _ _ Hb).
Qed.

Lemma iappend_spec s cs i ty c p : building s cs -> cs !! i = Some (ty, c) -> zlen (c ++ p) <= max_len ->
  nmeta + total (<[i := (ty, c ++ p)]> cs) <= FSSIZE ->
  exists s', iappend (Z.of_nat i + 1) p s = Ok tt s' /\ building s' (<[i := (ty, c ++ p)]> cs).
Proof.
  intros Hb Hi Hmax Hroom. destruct (bu_inodes _ _ Hb i ty c Hi) as [Hty Hio]. rewrite (total_insert _ _ _ _ _ Hi) in Hroom.
  destruct (iappend_rewrote s (Z.of_nat i + 1) ty c p (bu_disk _ _ Hb)) as (s' & E & R); [|done|done|done|rewrite (bu_free _ _ Hb); lia|].
  { apply (inum_of _ _ _ Hb). by eapply lookup_lt_Some. }
  exists s'. split; [done|]. apply (building_rewrote s _ _ _ _ c); [done|done|rewrite length_app; lia|done].
Qed.

(** ** A new inode *)
Lemma holds_nil v fb d : di_addrs d = replicate 13 0 -> holds v fb (ino d) [].
Proof.
  intros E. assert (Ha : forall k, addr_at (ino d) k = 0).
  { intros k. unfold addr_at, ino. cbn [load_dinode i_addrs]. rewrite E. destruct (nth_in_or_default k (replicate 13 0) 0) as [Hin| ->]; [|done].
    apply list_elem_of_In, elem_of_replicate in Hin. by destruct Hin. }
  assert (Hb : forall bn, blkmap v (ino d) bn = 0).
  { intros bn. unfold blkmap, ind_blk. rewrite !Ha. by destruct (bn <? 12). }
  assert (Ho : forall b, ~ owns v (ino d) b).
  { intros b [H0 [->|(bn & _ & <-)]]; [unfold ind_blk in H0; by rewrite Ha in H0|by rewrite Hb in H0]. }
  split; [change (nblk (zlen (@nil Z))) with 0; split| |].
  - unfold ino. cbn [load_dinode i_addrs]. by rewrite E.
  - unfold ino. cbn [load_dinode i_addrs]. rewrite E. apply Forall_replicate. lia.
  - intros b Hob. by apply Ho in Hob.
  - intros bn bn' _ _ H. by rewrite Hb in H.
  - intros bn _ H. by rewrite Hb in H.
  - intros bn Hbn. rewrite Hb. unfold in_file in *. lia.
  - unfold ind_blk. rewrite Ha. lia.
  - lia.
  - cbn. unfold max_len. change BSIZE with 1024. lia.
  - intros k Hk. unfold fbyte. rewrite Hb. cbn. by destruct (Z.to_nat k).
Qed.
Lemma not_owns_nil v d b : di_addrs d = replicate 13 0 -> ~ owns v (ino d) b.
Proof. intros E Hob. pose proof (mp_owned _ _ _ _ (hl_mapped _ _ _ _ (holds_nil v 0 d E)) b Hob) as H. change nmeta with 47 in H. lia. Qed.

Definition new_dinode (ty : Z) : dinode :=
  {| di_type := ty; di_major := 0; di_minor := 0; di_nlink := 1; di_size := 0; di_addrs := replicate 13 0 |}.

Lemma ialloc_spec s cs ty : building s cs -> zlen cs + 1 < NINODES -> s16 (xshort ty) = ty -> short_ok ty ->
  exists s', ialloc ty s = Ok (Z.of_nat (length cs) + 1) s' /\ building s' (cs ++ [(ty, [])]).
Proof.
  intros Hb Hn Hx Hty. destruct (bu_ninodes _ _ Hb) as [N1 _]. unfold NINODES in Hn. pose proof (bu_disk _ _ Hb) as Hd.
  set (s1 := {| s with freeinode := u32 (freeinode s + 1) |}). assert (Hd1 : disk_ok s1) by exact Hd.
  assert (Hin : inum_in (zlen cs + 1)) by (unfold inum_in; lia).
  destruct (winode_ok s1 (zlen cs + 1) (new_dinode ty) Hd1 Hin) as (s2 & Ew & Hd2 & Hfi & Hfb & Hdn & Hv).
  { split; cbn; [done|unfold short_ok; lia..|lia|done|]. repeat constructor; lia. }
  assert (Hfi' : freeinode s2 = 2 + zlen cs) by (rewrite Hfi; cbn; rewrite u32_small; lia).
  exists s2. split.
  { assert (Ei : freeinode s = zlen cs + 1) by lia. rewrite <-Ei in Ew |- *. unfold ialloc. unfold bind at 1, gets. unfold bind at 1, modify. rewrite Hx.
    change (xshort 1) with 1. change (xint 0) with 0. fold (new_dinode ty). fold s1. rewrite (bind_ok _ _ _ _ _ Ew). done. }
  assert (Hold : forall i, (i < length cs)%nat -> dn s2 (Z.of_nat i + 1) = dn s (Z.of_nat i + 1)).
  { intros i Hi. rewrite Hdn by (by apply (inum_of _ _ _ Hb)). rewrite decide_False by lia. done. }
  assert (Hnew : dn s2 (zlen cs + 1) = new_dinode ty) by (rewrite Hdn by done; by rewrite decide_True).
  assert (Hown : forall j b, (j < length cs)%nat -> owns (vw s) (ino (dn s (Z.of_nat j + 1))) b -> vw s2 b = vw s b).
  { intros j b Hj Hob. destruct (lookup_lt_is_Some_2 cs j Hj) as [[tj cj] Hcj]. destruct (bu_inodes _ _ Hb j tj cj Hcj) as [_ [_ _ _ _ J5]].
    pose proof (mp_owned _ _ _ _ (hl_mapped _ _ _ _ J5) b Hob) as Hbr. change nmeta with 47 in Hbr. apply Hv. lia. }
  assert (Hoj : forall j b, (j < length cs)%nat -> owns (vw s2) (ino (dn s2 (Z.of_nat j + 1))) b -> owns (vw s) (ino (dn s (Z.of_nat j + 1))) b).
  { intros j b Hj. rewrite Hold by done. rewrite (owns_frame (vw s) (vw s2)); [done|]. intros x Hx1. by apply (Hown j). }
  split; rewrite ?length_app; cbn [length].
  - done.
  - unfold NINODES. lia.
  - rewrite Hfb, total_app. cbn [snd length]. change (secs (Z.of_nat 0)) with 0. change (freeblock s1) with (freeblock s). rewrite (bu_free _ _ Hb). lia.
  - intros i ti ci. destruct (decide (i < length cs)%nat) as [Hi|Hi].
    + rewrite lookup_app_l by done. intros Hci. destruct (bu_inodes _ _ Hb i ti ci Hci) as [Hti Hio]. split; [done|].
      apply (inode_of_frame s); [by apply Hold|rewrite Hfb; done|intros b Hob; by apply (Hown i)|done].
    + intros Hci. pose proof (lookup_lt_Some _ _ _ Hci) as Hl. rewrite length_app in Hl. cbn in Hl. assert (i = length cs) as -> by lia.
      rewrite list_lookup_middle in Hci by done. injection Hci as <- <-. split; [done|]. split; rewrite Hnew; try done. by apply holds_nil.
  - intros i j b Hi Hj Hij Hbi Hbj. destruct (decide (i < length cs)%nat) as [Hi'|Hi'], (decide (j < length cs)%nat) as [Hj'|Hj'].
    + exact (bu_disjoint _ _ Hb i j b Hi' Hj' Hij (Hoj _ _ Hi' Hbi) (Hoj _ _ Hj' Hbj)).
    + assert (j = length cs) as -> by lia. rewrite Hnew in Hbj. by apply not_owns_nil in Hbj.
    + assert (i = length cs) as -> by lia. rewrite Hnew in Hbi. by apply not_owns_nil in Hbi.
    + lia.
  - intros b Hbb. rewrite <-(bu_boot _ _ Hb b Hbb). apply Hv. lia.
  - intros i Hi Hii. rewrite Hdn by done. rewrite decide_False by lia. apply (bu_spare _ _ Hb); [done|lia].
Qed.

(** ** The empty image *)
Lemma zero_sectors n : forall a s, exists s', mfor (seq a n) (fun i => wsect (Z.of_nat i) (replicate (Z.to_nat BSIZE) 0)) s = Ok tt s' /\
  freeinode s' = freeinode s /\ freeblock s' = freeblock s /\
  forall x, sectors s' x = if decide (Z.of_nat a <= x < Z.of_nat (a + n)) then Some zeros else sectors s x.
Proof.
  induction n as [|n IH]; intros a s; cbn [seq mfor].
  - exists s. split; [done|]. split; [done|]. split; [done|]. intros x. by rewrite decide_False by lia.
  - unfold bind, wsect, modify. edestruct (IH (S a)) as (s' & E & H1 & H2 & H3). rewrite E. exists s'. split; [done|]. split; [exact H1|]. split; [exact H2|].
    intros x. rewrite H3. cbn [sectors]. repeat case_decide; try lia; try done.
    + destruct (Z.eqb_spec x (Z.of_nat a)); [done|lia].
    + destruct (Z.eqb_spec x (Z.of_nat a)); [lia|done].
Qed.

Lemma get_dinode_zeros o : get_dinode o zeros = zero_dinode.
Proof.
  assert (H : forall o n, get_le o n zeros = 0).
  { intros o' n. unfold get_le, zeros. rewrite drop_replicate, take_replicate. generalize (n `min` (Z.to_nat BSIZE - o'))%nat. intros m.
    induction m as [|m IH]; [done|]. cbn [replicate le_val]. rewrite IH. done. }
  unfold get_dinode. rewrite !H. unfold zero_dinode. f_equal. rewrite (map_ext _ (fun _ => 0)); [done|]. intros k. apply H.
Qed.

Lemma empty_image : exists s0 s,
  mfor (seq 0 (Z.to_nat FSSIZE)) (fun i => wsect (Z.of_nat i) (replicate (Z.to_nat BSIZE) 0)) blank = Ok tt s0 /\
  wsect 1 (splice 0 (sb_bytes sb) (replicate (Z.to_nat BSIZE) 0)) s0 = Ok tt s /\ building s [].
Proof.
  destruct (zero_sectors (Z.to_nat FSSIZE) 0 blank) as (s & E & H1 & H2 & H3).
  exists s, (put 1 (splice 0 (sb_bytes sb) zeros) s). split; [done|]. split; [done|].
  assert (Hv : forall b, 0 <= b < FSSIZE -> vw (put 1 (splice 0 (sb_bytes sb) zeros) s) b = boot_blocks b).
  { intros b Hb. rewrite vw_put. unfold boot_blocks. destruct (b =? 1); [done|]. unfold vw. rewrite H3, decide_True; [done|]. unfold FSSIZE in *. lia. }
  split; cbn [length].
  - split; [|split].
    + intros b Hb. cbn [put sectors]. destruct (b =? 1).
      * eexists. split; [done|]. vm_compute. done.
      * rewrite H3, decide_True by (unfold FSSIZE in *; lia). eexists. split; [done|]. done.
    + change (nmeta <= freeblock s <= FSSIZE). rewrite H2. vm_compute. split; congruence.
    + intros b Hb. change (freeblock s <= b < FSSIZE) in Hb. rewrite H2 in Hb. change (freeblock blank) with 47 in Hb. rewrite Hv by lia. unfold boot_blocks.
      destruct (Z.eqb_spec b 1); [lia|done].
  - change (freeinode s = 1 + Z.of_nat 0 /\ Z.of_nat 0 < NINODES). rewrite H1. done.
  - change (freeblock s = nmeta + 0). rewrite H2. done.
  - done.
  - lia.
  - intros b Hb. apply Hv. unfold FSSIZE. lia.
  - intros i Hi _. destruct (iblock_eq i Hi) as (_ & Hb & _). unfold inode_on. rewrite Hv by (unfold FSSIZE; lia). unfold boot_blocks.
    destruct (Z.eqb_spec (IBLOCK i sb) 1); [lia|]. apply get_dinode_zeros.
Qed.

(** ** The files *)
Section Build.
Context {Src : Type} `{SourceLaws Src}.

Lemma copy_in_spec fuel : forall s cs i ty c (src : Src), building s cs -> cs !! i = Some (ty, c) -> Ulib.readable src ->
  (length (pending src) < fuel)%nat -> zlen (c ++ pending src) <= max_len -> nmeta + total (<[i := (ty, c ++ pending src)]> cs) <= FSSIZE ->
  exists s', copy_in fuel (Z.of_nat i + 1) src s = Ok tt s' /\ building s' (<[i := (ty, c ++ pending src)]> cs).
Proof.
  induction fuel as [|fuel IH]; intros s cs i ty c src Hb Hi Hr Hf Hmax Hroom; [lia|]. cbn [copy_in].
  destruct (read_some BSIZE src Hr) as (l & src' & E & Hr' & Hp & Hl & Hne). rewrite E. destruct l as [|x l].
  - exists s. assert (Hp0 : pending src = []) by (destruct (pending src) eqn:E0; [done|]; exfalso; apply Hne; [done|done|done]).
    rewrite Hp0, app_nil_r. split; [done|]. by rewrite list_insert_id.
  - rewrite Hp in *. rewrite app_assoc in *. pose proof (lookup_lt_Some _ _ _ Hi) as Hlt.
    pose proof (secs_mono (zlen (c ++ x :: l)) (zlen ((c ++ x :: l) ++ pending src')) ltac:(rewrite (length_app (c ++ x :: l)); lia)) as Hm.
    rewrite (total_insert _ _ _ _ _ Hi) in Hroom.
    destruct (iappend_spec s cs i ty c (x :: l) Hb Hi) as (s1 & E1 & Hb1).
    { etransitivity; [|exact Hmax]. rewrite (length_app (c ++ x :: l)). lia. }
    { rewrite (total_insert _ _ _ _ _ Hi). lia. }
    rewrite (bind_ok _ _ _ _ _ E1). assert (Hi1 : <[i := (ty, c ++ x :: l)]> cs !! i = Some (ty, c ++ x :: l)) by (by apply list_lookup_insert_eq).
    destruct (IH s1 _ i ty (c ++ x :: l) src' Hb1 Hi1 Hr') as (s' & E' & Hb').
    + rewrite length_app in Hf. cbn in Hf. lia.
    + done.
    + rewrite (total_insert _ _ _ _ _ Hi1), (total_insert _ _ _ _ _ Hi). lia.
    + exists s'. split; [done|]. by rewrite list_insert_insert_eq in Hb'.
Qed.

(** An argument that mkfs accepts. *)
Definition file_name (arg : list Z) : list Z := strip_underscore (strip_dir arg).
Definition valid_file (f : list Z * Src) : Prop :=
  47 ∉ strip_dir f.1 /\ zlen (file_name f.1) <= DIRSIZ /\ Ulib.readable f.2 /\ zlen (pending f.2) <= max_len.
Definition arg_of (f : list Z * Src) : list Z * option Src := (f.1, Some f.2).

(** The root directory and the files that the image should hold. *)
Definition root_dir (files : list (list Z * Src)) : list Z :=
  dirent 1 (str ".") ++ dirent 1 (str "..") ++ concat (imap (fun k f => dirent (Z.of_nat k + 2) (file_name f.1)) files).
Definition layout (files : list (list Z * Src)) : list (Z * list Z) :=
  (T_DIR, root_dir files) :: map (fun f => (T_FILE, pending f.2)) files.

Lemma length_dirent i n : length (dirent i n) = 16%nat.
Proof.
  unfold dirent. rewrite length_app, length_le_bytes. change (replicate 14 0) with (replicate (13 + 1) 0).
  assert (H14 : forall k l (t : list Z), length (strncpy l t k) = length l).
  { induction k as [|k IH]; intros l t; destruct l as [|y l]; cbn [strncpy length]; try done. f_equal. destruct (negb _); [apply IH|].
    clear. revert l. induction k as [|k IH]; intros l; destruct l as [|z l]; cbn; try done. by rewrite IH. }
  by rewrite H14.
Qed.
Lemma root_dir_snoc files f : root_dir (files ++ [f]) = root_dir files ++ dirent (zlen files + 2) (file_name f.1).
Proof.
  unfold root_dir. rewrite imap_app, concat_app, !app_assoc. f_equal. cbn [imap concat]. rewrite app_nil_r. by rewrite Nat.add_0_r.
Qed.
Lemma length_root_dir files : length (root_dir files) = (16 * (2 + length files))%nat.
Proof.
  induction files as [|f files IH] using rev_ind; [done|]. rewrite root_dir_snoc, length_app, IH, length_dirent, length_app. cbn. lia.
Qed.
Lemma layout_snoc files f : layout (files ++ [f]) = <[0%nat := (T_DIR, root_dir files ++ dirent (zlen files + 2) (file_name f.1))]> (layout files) ++ [(T_FILE, pending f.2)].
Proof. unfold layout. rewrite root_dir_snoc, map_app. done. Qed.

Lemma total_layout files f : total (layout files) <= total (layout (files ++ [f])).
Proof.
  rewrite layout_snoc, total_app, (total_insert _ _ T_DIR (root_dir files)) by done. cbn [snd].
  pose proof (secs_mono (zlen (root_dir files)) (zlen (root_dir files ++ dirent (zlen files + 2) (file_name f.1))) ltac:(rewrite length_app; lia)).
  pose proof (secs_nonneg (zlen (pending f.2)) ltac:(lia)). lia.
Qed.
Lemma total_layout_app files gs : total (layout files) <= total (layout (files ++ gs)).
Proof.
  induction gs as [|g gs IH] using rev_ind; [by rewrite app_nil_r|]. rewrite app_assoc. etransitivity; [exact IH|]. apply total_layout.
Qed.

Lemma add_file_spec fuel s files f : building s (layout files) -> valid_file f -> (length (pending f.2) < fuel)%nat ->
  zlen files + 2 < NINODES -> nmeta + total (layout (files ++ [f])) <= FSSIZE ->
  exists s', add_file fuel ROOTINO (arg_of f) s = Ok tt s' /\ building s' (layout (files ++ [f])).
Proof.
  intros Hb (Hsl & Hnm & Hr & Hmax) Hf Hn Hroom. assert (Hs0 : 0 <= secs (zlen (pending f.2))) by (apply secs_nonneg; lia). unfold add_file, arg_of. cbn [fst snd].
  rewrite bool_decide_false by done. unfold panic_if at 1. unfold bind at 1, ret at 1. fold (file_name f.1).
  destruct (Z.ltb_spec DIRSIZ (zlen (file_name f.1))); [lia|]. unfold panic_if. unfold bind at 1, ret at 1.
  assert (Hlen : length (layout files) = S (length files)) by (unfold layout; cbn; by rewrite length_map).
  destruct (ialloc_spec s (layout files) T_FILE Hb) as (s1 & E1 & Hb1); [rewrite Hlen; unfold NINODES in *; lia|done|unfold short_ok, T_FILE; lia|].
  rewrite (bind_ok _ _ _ _ _ E1). rewrite layout_snoc in Hroom |- *.
  set (de := dirent (Z.of_nat (length (layout files)) + 1) (file_name f.1)).
  assert (Ede : de = dirent (zlen files + 2) (file_name f.1)) by (unfold de; rewrite Hlen; f_equal; lia). rewrite <-Ede in Hroom |- *.
  set (cs1 := layout files ++ [(T_FILE, [])]) in *. set (cs2 := <[0%nat := (T_DIR, root_dir files ++ de)]> (layout files)).
  assert (E12 : <[0%nat := (T_DIR, root_dir files ++ de)]> cs1 = cs2 ++ [(T_FILE, [])]) by done.
  assert (Hl2 : length cs2 = length (layout files)) by (unfold cs2; apply length_insert). fold cs2 in Hroom |- *. rewrite total_app in Hroom. cbn [snd] in Hroom.
  destruct (iappend_spec s1 cs1 0 T_DIR (root_dir files) de Hb1) as (s2 & E2 & Hb2).
  { done. }
  { rewrite length_app, length_root_dir. unfold de. rewrite length_dirent. unfold max_len, NINODES in *. change BSIZE with 1024. lia. }
  { rewrite E12, total_app. cbn [snd length]. change (secs (Z.of_nat 0)) with 0. lia. }
  change (Z.of_nat 0 + 1) with ROOTINO in E2. rewrite (bind_ok _ _ _ _ _ E2). rewrite E12 in Hb2.
  destruct (copy_in_spec fuel s2 (cs2 ++ [(T_FILE, [])]) (length cs2) T_FILE [] f.2 Hb2) as (s3 & E3 & Hb3); [by apply list_lookup_middle|done|done|done| |].
  - rewrite insert_app_r_alt, Nat.sub_diag by lia. cbn [insert list_insert app]. rewrite total_app. cbn [snd]. lia.
  - rewrite Hl2 in E3. exists s3. split; [exact E3|]. rewrite insert_app_r_alt, Nat.sub_diag in Hb3 by lia. exact Hb3.
Qed.

Lemma add_files_spec fuel gs : forall s files, building s (layout files) -> Forall valid_file gs ->
  Forall (fun f => length (pending f.2) < fuel)%nat gs -> zlen (files ++ gs) + 1 < NINODES -> nmeta + total (layout (files ++ gs)) <= FSSIZE ->
  exists s', mfor (map arg_of gs) (add_file fuel ROOTINO) s = Ok tt s' /\ building s' (layout (files ++ gs)).
Proof.
  induction gs as [|g gs IH]; intros s files Hb Hv Hf Hn Hroom; cbn [map mfor].
  { exists s. by rewrite app_nil_r. }
  apply Forall_cons in Hv as [Hg Hv]. apply Forall_cons in Hf as [Hfg Hf].
  assert (Ea : files ++ g :: gs = (files ++ [g]) ++ gs) by (by rewrite <-app_assoc). rewrite Ea in *.
  destruct (add_file_spec fuel s files g Hb Hg Hfg) as (s1 & E1 & Hb1).
  { rewrite !length_app in Hn. cbn in Hn. lia. }
  { etransitivity; [|exact Hroom]. pose proof (total_layout_app (files ++ [g]) gs). lia. }
  rewrite (bind_ok _ _ _ _ _ E1). by apply IH.
Qed.
End Build.

(** ** The bitmap *)
Definition set_bits (n : nat) (d : list Z) : list Z := foldl (fun buf k => set_bit buf (Z.of_nat k)) d (seq 0 n).
Lemma set_bits_free n d : (n <= 8 * length d)%nat -> length (set_bits n d) = length d /\
  forall j, bit_ok d j -> bit_free (set_bits n d) j = if decide (j < Z.of_nat n) then false else bit_free d j.
Proof.
  unfold set_bits. induction n as [|n IH]; intros Hn.
  { split; [done|]. intros j Hj. unfold bit_ok in Hj. by rewrite decide_False by lia. }
  rewrite seq_S, foldl_app. cbn [foldl]. destruct (IH ltac:(lia)) as [Hl Hf]. clear IH. set (e := foldl _ _ (seq 0 n)) in *. split.
  { unfold set_bit. by rewrite length_insert. }
  intros j Hj. rewrite set_bit_free by (unfold bit_ok in *; rewrite Hl; lia). rewrite Hf by done. repeat case_decide; try done; lia.
Qed.

Lemma balloc_bits v fb : length (v 46) = Z.to_nat BSIZE -> v 46 = set_bits (Z.to_nat fb) zeros -> 47 <= fb <= FSSIZE ->
  bitmap_ok sb v /\ forall b, 0 <= b < FSSIZE -> blk_free sb v b = (fb <=? b).
Proof.
  intros Hl Hv Hfb. destruct sb_fields as (E1 & _ & E3). unfold FSSIZE in *.
  assert (Hbit : forall b, 0 <= b < 2000 -> blk_free sb v b = (fb <=? b)).
  { intros b Hb. unfold blk_free. rewrite BBLOCK_eq, E3 by (rewrite ?E3; lia). change BPB with 8192. rewrite Z.div_small, Z.mod_small by lia.
    change (46 + 0) with 46. rewrite Hv. assert (Hz : bit_ok zeros b) by (unfold bit_ok; change (length zeros) with 1024%nat; lia).
    destruct (set_bits_free (Z.to_nat fb) zeros) as [_ Hf]; [change (length zeros) with 1024%nat; lia|]. rewrite Hf by done. case_decide.
    - symmetry. apply Z.leb_gt. lia.
    - unfold bit_free, bit_byte. rewrite nth_zeros, Z.land_0_l. symmetry. apply Z.leb_le. lia. }
  assert (Hbm : forall x, is_bitmap sb x -> x = 46) by (intros x; unfold is_bitmap; rewrite E1, E3; change BPB with 8192; change ((2000 - 1) / 8192) with 0; lia).
  split; [|done]. split; rewrite ?E1, ?E3; [lia|lia| |].
  - by intros x ->%Hbm.
  - intros b Hb Hfree ->%Hbm. rewrite Hbit in Hfree by lia. apply Z.leb_le in Hfree. lia.
Qed.

(** ** The finished image *)
Section Image.
Context {Src : Type} `{SourceLaws Src}.

(** What the kernel finds in it. *)
Record formatted (s : image) (files : list (list Z * Src)) : Prop := {
  fm_sector : forall b, 0 <= b < FSSIZE -> exists d, sectors s b = Some d /\ length d = Z.to_nat BSIZE;
  fm_super : sb_of_data (vw s 1) = sb;
  fm_log : forall b, sb_logstart sb <= b < sb_logstart sb + sb_nlog sb -> vw s b = zeros;
  fm_bitmap : bitmap_ok sb (vw s);
  fm_free : forall b, 0 <= b < FSSIZE -> blk_free sb (vw s) b = (nmeta + total (layout files) <=? b);
  fm_root : let d := dn s ROOTINO in di_type d = T_DIR /\ di_nlink d = 1 /\
    di_size d = (zlen (root_dir files) / BSIZE + 1) * BSIZE /\
    forall k, 0 <= k < di_size d -> fbyte (vw s) (ino d) k = nth (Z.to_nat k) (root_dir files) 0;
  fm_file : forall k f, files !! k = Some f -> let d := dn s (Z.of_nat k + 2) in
    di_type d = T_FILE /\ di_nlink d = 1 /\ di_size d = zlen (pending f.2) /\
    forall j, 0 <= j < di_size d -> fbyte (vw s) (ino d) j = nth (Z.to_nat j) (pending f.2) 0;
  fm_ok : forall i, 1 <= i <= zlen files + 1 ->
    meta_ok sb (vw s) (IBLOCK i sb) /\ file_ok sb (vw s) (IBLOCK i sb) (ino (dn s i));
  fm_disjoint : forall i j b, 1 <= i <= zlen files + 1 -> 1 <= j <= zlen files + 1 -> i <> j ->
    owns (vw s) (ino (dn s i)) b -> owns (vw s) (ino (dn s j)) b -> False;
  fm_spare : forall i, 0 <= i < NINODES -> i = 0 \/ zlen files + 1 < i -> di_type (dn s i) = 0
}.

Definition finish : I unit :=
  din ← rinode ROOTINO;
  let off := u32 ((xint (di_size din) / BSIZE + 1) * BSIZE) in
  winode ROOTINO {| din with di_size := xint off |};;
  used ← gets freeblock;
  balloc used.

Definition rounded (n : Z) : Z := (n / BSIZE + 1) * BSIZE.

(** The two writes of [finish]: the size of the root directory, and the bitmap. *)
Lemma finish_writes s files : building s (layout files) -> nmeta + total (layout files) <= FSSIZE ->
  exists s', finish s = Ok tt s' /\ disk_ok s' /\ freeblock s' = freeblock s /\
    vw s' 46 = set_bits (Z.to_nat (freeblock s)) zeros /\
    (forall b, ~ 33 <= b <= 46 -> vw s' b = vw s b) /\
    (forall j, inum_in j -> dn s' j = if decide (j = ROOTINO) then {| (dn s ROOTINO) with di_size := rounded (zlen (root_dir files)) |} else dn s j).
Proof.
  intros Hb Hroom. destruct (bu_inodes _ _ Hb 0 T_DIR (root_dir files) eq_refl) as [_ [I1 [I2 I2'] I3 I4 I5]]. change (Z.of_nat 0 + 1) with ROOTINO in *.
  pose proof (bu_disk _ _ Hb) as Hd. pose proof Hd as (_ & Hfb & _). destruct (bu_ninodes _ _ Hb) as [_ Hn]. unfold layout in Hn. cbn [length] in Hn. rewrite length_map in Hn.
  assert (Hin : inum_in ROOTINO) by (unfold inum_in, ROOTINO; lia). unfold finish. rewrite (bind_ok _ _ _ _ _ (rinode_ok s _ Hd Hin)), I4.
  pose proof (length_root_dir files) as Hlr. unfold NINODES, FSSIZE in *. change BSIZE with 1024 in *.
  assert (Hr : u32 ((xint (zlen (root_dir files)) / 1024 + 1) * 1024) = rounded (zlen (root_dir files)) /\ xint (rounded (zlen (root_dir files))) = rounded (zlen (root_dir files))).
  { unfold rounded. change BSIZE with 1024. rewrite (xint_id (zlen _)), u32_small by dlia. split; [done|]. apply xint_id. dlia. }
  destruct Hr as [-> ->]. set (d := {| (dn s ROOTINO) with di_size := rounded (zlen (root_dir files)) |}).
  assert (Dok : dinode_ok d).
  { pose proof (hl_mapped _ _ _ _ I5) as M. split; cbn [d di_type di_major di_minor di_nlink di_size di_addrs]; rewrite ?I1, ?I2, ?I2', ?I3;
      [unfold short_ok, T_DIR; lia|unfold short_ok; lia..|unfold rounded; change BSIZE with 1024; dlia|exact (mp_len _ _ _ _ M)|exact (mp_range _ _ _ _ M)]. }
  destruct (winode_ok s ROOTINO d Hd Hin Dok) as (s1 & Ew & Hd1 & Hfi & Hfb1 & Hdn & Hv). rewrite (bind_ok _ _ _ _ _ Ew). unfold bind at 1, gets. rewrite Hfb1.
  exists (put 46 (set_bits (Z.to_nat (freeblock s)) zeros) s1). change nmeta with 47 in *. split.
  { unfold balloc. change BPB with 8192. destruct (Z.leb_spec 8192 (freeblock s)); [lia|]. done. }
  assert (Hvp : forall b, vw (put 46 (set_bits (Z.to_nat (freeblock s)) zeros) s1) b = if b =? 46 then set_bits (Z.to_nat (freeblock s)) zeros else vw s1 b) by (intros; apply vw_put).
  split; [apply disk_ok_put; [done|lia|]|split; [done|split; [by rewrite Hvp|split]]].
  - destruct (set_bits_free (Z.to_nat (freeblock s)) zeros) as [-> _]; [change (length zeros) with 1024%nat; lia|done].
  - intros b Hnb. rewrite Hvp. destruct (Z.eqb_spec b 46); [lia|]. apply Hv. lia.
  - intros j Hj. rewrite <-Hdn by done. destruct (iblock_eq j Hj) as (_ & Hbj & _). unfold inode_on. rewrite Hvp. destruct (Z.eqb_spec (IBLOCK j sb) 46); [lia|done].
Qed.

Lemma built_file_ok s i c : disk_ok s -> bitmap_ok sb (vw s) -> (forall b, 0 <= b < FSSIZE -> blk_free sb (vw s) b = (freeblock s <=? b)) ->
  inum_in i -> holds (vw s) (freeblock s) (ino (dn s i)) c -> meta_ok sb (vw s) (IBLOCK i sb) /\ file_ok sb (vw s) (IBLOCK i sb) (ino (dn s i)).
Proof.
  intros Hd Hbm Hfree Hi [M _ _]. destruct (iblock_eq i Hi) as (_ & Hbi & _). destruct sb_fields as (E1 & _ & E3).
  pose proof Hd as (Hsec & Hfb & _). change nmeta with 47 in *. unfold FSSIZE in *.
  assert (Hnb : forall x, x <> 46 -> ~ is_bitmap sb x) by (intros x Hx; unfold is_bitmap; rewrite E1, E3; change BPB with 8192; change ((2000 - 1) / 8192) with 0; lia).
  assert (Hused : forall b, 0 <= b < freeblock s -> blk_free sb (vw s) b = false) by (intros b Hb; rewrite Hfree by lia; apply Z.leb_gt; lia).
  split.
  - split; [done|apply Hused; lia|]. rewrite E1. split; [lia|]. split; [apply Hused; lia|apply Hnb; lia].
  - split; [apply M|apply M| |apply M|apply M]. intros b Hb%(mp_owned _ _ _ _ M). change nmeta with 47 in Hb.
    split; [rewrite E1; lia|]. split; [apply Hused; lia|]. split; [apply Hnb; lia|]. split; [lia|].
    apply (rsect_ok s b Hd). unfold FSSIZE. lia.
Qed.

(** The inodes of the files, after [finish]: as they were, the root with its size rounded. *)
Section Finished.
Context (s s' : image) (files : list (list Z * Src)).
Hypothesis (Hb : building s (layout files)) (Hfb : freeblock s' = freeblock s).
Hypothesis (Hv : forall b, ~ 33 <= b <= 46 -> vw s' b = vw s b).
Hypothesis (Hdn : forall j, inum_in j -> dn s' j =
  if decide (j = ROOTINO) then {| (dn s ROOTINO) with di_size := rounded (zlen (root_dir files)) |} else dn s j).
Notation in_use i := (1 <= i <= zlen files + 1).

Lemma length_layout : length (layout files) = S (length files).
Proof. unfold layout. cbn. by rewrite length_map. Qed.
Lemma in_use_inum i : in_use i -> inum_in i.
Proof. destruct (bu_ninodes _ _ Hb) as [_ Hn]. rewrite length_layout in Hn. unfold inum_in, NINODES in *. lia. Qed.
Lemma layout_inode i : in_use i -> exists ty c, layout files !! Z.to_nat (i - 1) = Some (ty, c) /\ inode_of s i ty c.
Proof.
  intros Hi. destruct (lookup_lt_is_Some_2 (layout files) (Z.to_nat (i - 1))) as [[ty c] Hc]; [rewrite length_layout; lia|]. exists ty, c. split; [done|].
  destruct (bu_inodes _ _ Hb _ _ _ Hc) as [_ Ho]. by replace (Z.of_nat (Z.to_nat (i - 1)) + 1) with i in Ho by lia.
Qed.
Lemma finish_owned i b : in_use i -> owns (vw s) (ino (dn s i)) b -> vw s' b = vw s b.
Proof.
  intros Hi Hob. destruct (layout_inode i Hi) as (ty & c & _ & Io). pose proof (mp_owned _ _ _ _ (hl_mapped _ _ _ _ (io_holds _ _ _ _ Io)) b Hob) as Hr.
  change nmeta with 47 in Hr. apply Hv. lia.
Qed.
Lemma finish_owns i b : in_use i -> owns (vw s') (ino (dn s' i)) b <-> owns (vw s) (ino (dn s i)) b.
Proof.
  intros Hi. rewrite <-(owns_frame (vw s) (vw s') (ino (dn s i))) by (intros; by apply (finish_owned i)). rewrite Hdn by (by apply in_use_inum).
  case_decide as Ei; [|done]. by rewrite Ei.
Qed.
Lemma finish_inode i ty c : in_use i -> inode_of s i ty c -> di_type (dn s' i) = ty /\ di_nlink (dn s' i) = 1 /\
  di_size (dn s' i) = (if decide (i = ROOTINO) then rounded (zlen (root_dir files)) else zlen c) /\ holds (vw s') (freeblock s') (ino (dn s' i)) c.
Proof.
  intros Hi [J1 J2 J3 J4 J5]. rewrite Hdn by (by apply in_use_inum).
  assert (Hh : holds (vw s') (freeblock s') (ino (dn s i)) c) by (apply (holds_frame (vw s) _ (freeblock s)); [intros; by apply (finish_owned i)|lia|done]).
  case_decide as Ei; [subst i; split_and!; [done..|]; exact (holds_size _ _ _ _ (rounded (zlen (root_dir files))) Hh)|by split_and!].
Qed.
End Finished.

Lemma finish_formatted s files : building s (layout files) -> nmeta + total (layout files) <= FSSIZE ->
  exists s', finish s = Ok tt s' /\ formatted s' files.
Proof.
  intros Hb Hroom. destruct (finish_writes s files Hb Hroom) as (s' & E & Hd & Hfb & Hbits & Hv & Hdn). exists s'. split; [done|].
  pose proof (bu_free _ _ Hb) as Hfree. pose proof Hd as (Hsec & Hfb' & _). change nmeta with 47 in Hfb'. rewrite <-Hfb in Hbits.
  destruct (balloc_bits (vw s') (freeblock s') ltac:(by apply (rsect_ok s' 46 Hd)) Hbits Hfb') as [Hbm Hbf].
  pose proof (finish_inode s s' files Hb Hfb Hv Hdn) as Hino. pose proof (finish_owns s s' files Hb Hv Hdn) as Hown. pose proof (in_use_inum s files Hb) as Hin.
  split.
  - apply Hsec.
  - rewrite Hv by lia. rewrite (bu_boot _ _ Hb) by lia. vm_compute. reflexivity.
  - change (sb_logstart sb) with 2. change (sb_nlog sb) with 31. intros b Hbb. rewrite Hv, (bu_boot _ _ Hb) by lia. unfold boot_blocks. destruct (Z.eqb_spec b 1); [lia|done].
  - done.
  - intros b Hbb. by rewrite Hbf, Hfb, Hfree by done.
  - cbn zeta. destruct (bu_inodes _ _ Hb 0 T_DIR (root_dir files) eq_refl) as [_ Io]. change (Z.of_nat 0 + 1) with ROOTINO in Io.
    destruct (Hino ROOTINO T_DIR (root_dir files)) as (H1 & H2 & H3 & H4); [unfold ROOTINO; lia|done|]. rewrite decide_True in H3 by done.
    split_and!; [done..|]. intros k Hk. apply (hl_bytes _ _ _ _ H4). rewrite H3 in Hk. unfold rounded in Hk. rewrite length_root_dir in Hk.
    destruct (bu_ninodes _ _ Hb) as [_ Hn]. rewrite length_layout in Hn. unfold NINODES, max_len in *. change BSIZE with 1024 in *. dlia.
  - intros k f Hk. cbn zeta. assert (Hk' : layout files !! S k = Some (T_FILE, pending f.2)) by (etransitivity; [exact (list_lookup_fmap (fun f : list Z * Src => (T_FILE, pending f.2)) files k)|by rewrite Hk]).
    pose proof (lookup_lt_Some _ _ _ Hk) as Hkl. destruct (bu_inodes _ _ Hb _ _ _ Hk') as [_ Io]. replace (Z.of_nat (S k) + 1) with (Z.of_nat k + 2) in Io by lia.
    destruct (Hino (Z.of_nat k + 2) _ _ ltac:(lia) Io) as (H1 & H2 & H3 & H4). rewrite decide_False in H3 by (unfold ROOTINO; lia).
    split_and!; [done..|]. intros j Hj. apply (hl_bytes _ _ _ _ H4). pose proof (hl_len _ _ _ _ H4). lia.
  - intros i Hi. destruct (layout_inode s files Hb i Hi) as (ty & c & _ & Io). destruct (Hino i ty c Hi Io) as (_ & _ & _ & H4).
    exact (built_file_ok s' i c Hd Hbm Hbf (Hin i Hi) H4).
  - intros i j b Hi Hj Hij Hbi%Hown Hbj%Hown; [|done|done]. apply (bu_disjoint _ _ Hb (Z.to_nat (i - 1)) (Z.to_nat (j - 1)) b); rewrite ?length_layout; [lia..| |].
    + by replace (Z.of_nat (Z.to_nat (i - 1)) + 1) with i by lia.
    + by replace (Z.of_nat (Z.to_nat (j - 1)) + 1) with j by lia.
  - intros i Hi Hii. unfold NINODES in Hi. assert (Hi' : inum_in i) by (unfold inum_in; lia). rewrite Hdn, decide_False by (done || unfold ROOTINO; lia).
    rewrite (bu_spare _ _ Hb); [done|done|]. rewrite length_layout. lia.
Qed.

(** C21: the builder succeeds, with enough inodes and blocks, on any files whose names fit, and the
    image is one that the kernel can use: the superblock describes it, the log is empty, the
    bitmap marks exactly the blocks in use, the root directory lists the files, every file has its
    contents, no two inodes share a block, and the spare inodes are free. *)
Theorem mkfs_image fuel files : Forall valid_file files -> Forall (fun f => length (pending f.2) < fuel)%nat files ->
  zlen files + 1 < NINODES -> nmeta + total (layout files) <= FSSIZE ->
  exists s, mkfs fuel (map arg_of files) blank = Ok tt s /\ formatted s files.
Proof.
  intros Hval Hfuel Hn Hroom. destruct empty_image as (sz & s0 & Ez & E0 & B0).
  destruct (ialloc_spec s0 [] T_DIR B0) as (s1 & E1 & B1); [done|done|unfold short_ok, T_DIR; lia|].
  destruct (iappend_spec s1 [(T_DIR, [])] 0 T_DIR [] (dirent 1 (str ".")) B1) as (s2 & E2 & B2); [done|vm_compute; congruence..|].
  cbn [insert list_insert app] in B2.
  destruct (iappend_spec s2 _ 0 T_DIR (dirent 1 (str ".")) (dirent 1 (str "..")) B2) as (s3 & E3 & B3); [done|vm_compute; congruence..|].
  destruct (add_files_spec fuel files s3 [] B3 Hval Hfuel Hn Hroom) as (s4 & E4 & B4).
  destruct (finish_formatted s4 files B4 Hroom) as (s5 & E5 & F5). exists s5. split; [|done].
  unfold mkfs. rewrite (bind_ok _ _ _ _ _ Ez), (bind_ok _ _ _ _ _ E0), (bind_ok _ _ _ _ _ E1). cbn [negb Z.eqb]. change (Z.of_nat (length (@nil (Z * list Z))) + 1) with ROOTINO.
  change (Z.of_nat 0 + 1) with ROOTINO in E2, E3. unfold bind at 1, panic_if, ret at 1. cbn [Z.eqb negb].
  change (negb (ROOTINO =? ROOTINO)) with false. cbn iota beta.
  rewrite (bind_ok _ _ _ _ _ E2), (bind_ok _ _ _ _ _ E3), (bind_ok _ _ _ _ _ E4). exact E5.
Qed.
End Image.

(** Two files: one of three bytes, and one of two blocks that comes from [user/_b]. *)
Definition demo_files : list (list Z * list Z) := [(str "README", [104; 105; 10]); (str "user/_b", replicate 1100 7)].
Lemma mkfs_image_witness : exists s, mkfs 1200 (map arg_of demo_files) blank = Ok tt s /\ formatted s demo_files.
Proof.
  apply (mkfs_image 1200 demo_files).
  - repeat apply Forall_cons_2; [..|done]; (split; [by apply (bool_decide_unpack _)|split; [vm_compute; congruence|split; [done|vm_compute; congruence]]]).
  - repeat constructor; vm_compute; lia.
  - vm_compute. reflexivity.
  - vm_compute. congruence.
Defined.
