(* ===== verification/Uprog.v ===== *)
(** * User programs (user/cat.c, wc.c, ls.c, echo.c, mkdir.c, rm.c, ln.c, kill.c, sync.c, zombie.c,
    init.c and the main of grep.c)

    A program is an interaction tree of system calls.  [exit] is an event without an answer, and
    so is [Undefined], what C leaves undefined.  What the calls answer is the business of the
    interface [Kernel]; its laws say what the programs of this file rely on. *)

From ITree Require Import ITree ITreeFacts Events.State Events.StateFacts.
From S2P Require Import Prelude Kstring State Console Fs Sysfile Ulib Uprintf Grep.

Declare Scope tree_scope.
Notation "x ← y ; z" := (ITree.bind y (fun x => z))
  (at level 20, y at level 100, z at level 200, only parsing) : tree_scope.
Notation "x ;; z" := (ITree.bind x (fun _ => z))
  (at level 100, z at level 200, only parsing, right associativity) : tree_scope.
Open Scope tree_scope.

(** ** System calls, as a program sees them *)
Variant callE : Type -> Type :=
| Open (path : list Z) (mode : Z) : callE Z
| Close (fd : Z) : callE Z
| Read (fd n : Z) : callE (option (list Z))
| Write (fd : Z) (l : list Z) : callE Z
| Fstat (fd : Z) : callE (option stat)
| Mkdir (path : list Z) : callE Z
| Mknod (path : list Z) (major minor : Z) : callE Z
| Unlink (path : list Z) : callE Z
| Link (old new : list Z) : callE Z
| Dup (fd : Z) : callE Z
| Kill (pid : Z) : callE Z
| Sync : callE Z
| Pause (n : Z) : callE Z
| Fork : callE Z
| Wait : callE Z
| Exec (path : list Z) (argv : list (list Z)) : callE Z.

Variant stopE : Type -> Type :=
| Exit (status : Z) : stopE void
| Undefined : stopE void.

Notation uprog := (itree (callE +' stopE)).
Definition call {X} (e : callE X) : uprog X := ITree.trigger (inl1 e).
Definition stop {A} (e : stopE void) : uprog A :=
  v ← ITree.trigger (inr1 e); match v : void return uprog A with end.
Definition exit {A} (status : Z) : uprog A := stop (Exit status).
Definition undefined {A} : uprog A := stop Undefined.

(** [for (i = 1; i < argc; i++)] over the arguments left. *)
Fixpoint each {X} (l : list X) (body : X -> uprog unit) : uprog unit :=
  match l with
  | [] => Ret tt
  | x :: l' => body x;; each l' body
  end.

(** ** The library *)

(** [putc] for each byte; its result is ignored. *)
Definition putc (fd c : Z) : uprog unit := call (Write fd [c]);; Ret tt.
Fixpoint puts (fd : Z) (l : list Z) : uprog unit :=
  match l with
  | [] => Ret tt
  | c :: l' => putc fd c;; puts fd l'
  end.
Definition fprintf (fd : Z) (fmt : list Z) (ap : list varg) : uprog unit :=
  match vprintf fmt ap with Some l => puts fd l | None => undefined end.
Definition printf (fmt : list Z) (ap : list varg) : uprog unit := fprintf 1 fmt ap.
(** A format that ends its line. *)
Definition line (s : string) : list Z := str s ++ [10].

Definition stat_ (n : list Z) : uprog (option stat) :=
  fd ← call (Open n O_RDONLY);
  if fd <? 0 then Ret None
  else r ← call (Fstat fd); call (Close fd);; Ret r.

(** ** cat *)
Definition cat (fd : Z) : uprog unit :=
  n ← ITree.iter (fun _ : unit =>
        r ← call (Read fd 512);
        match r with
        | None => Ret (inr (-1))
        | Some [] => Ret (inr 0)
        | Some l =>
            w ← call (Write 1 l);
            if negb (w =? Z.of_nat (length l)) then fprintf 2 (line "cat: write error") [];; exit 1
            else Ret (inl tt)
        end) tt;
  if n <? 0 then fprintf 2 (line "cat: read error") [];; exit 1 else Ret tt.

Definition cat_main (argv : list (list Z)) : uprog unit :=
  if bool_decide (tl argv = []) then cat 0;; exit 0
  else
    each (tl argv) (fun f =>
      fd ← call (Open f O_RDONLY);
      if fd <? 0 then fprintf 2 (line "cat: cannot open %s") [AStr (Some f)];; exit 1
      else cat fd;; call (Close fd);; Ret tt);;
    exit 0.

(** ** wc *)
Record counts := Counts { c_l : Z; c_w : Z; c_c : Z; c_inword : bool }.
(** The characters that end a word; [strchr] does not find the NUL of its string. *)
Definition blanks : list Z := [32; 13; 9; 10; 11].
Definition count_char (s : counts) (x : Z) : counts :=
  let c := s32 (c_c s + 1) in
  let l := if x =? 10 then s32 (c_l s + 1) else c_l s in
  match strchr blanks x with
  | Some _ => Counts l (c_w s) c false
  | None => if negb (c_inword s) then Counts l (s32 (c_w s + 1)) c true else Counts l (c_w s) c (c_inword s)
  end.
Definition wc (fd : Z) (name : list Z) : uprog unit :=
  r ← ITree.iter (fun s : counts =>
        r ← call (Read fd 512);
        match r with
        | None => Ret (inr None)
        | Some [] => Ret (inr (Some s))
        | Some l => Ret (inl (fold_left count_char l s))
        end) (Counts 0 0 0 false);
  match r with
  | None => printf (line "wc: read error") [];; exit 1
  | Some s => printf (line "%d %d %d %s") [AInt (c_l s); AInt (c_w s); AInt (c_c s); AStr (Some name)]
  end.

Definition wc_main (argv : list (list Z)) : uprog unit :=
  if bool_decide (tl argv = []) then wc 0 [];; exit 0
  else
    each (tl argv) (fun f =>
      fd ← call (Open f O_RDONLY);
      if fd <? 0 then printf (line "wc: cannot open %s") [AStr (Some f)];; exit 1
      else wc fd f;; call (Close fd);; Ret tt);;
    exit 0.

(** ** ls *)

(** The first loop of [fmtname]: from index [i] down to the slash, and one further. *)
Fixpoint after_slash (i : nat) (path : list Z) : nat :=
  if nth i path 0 =? 47 then S i
  else match i with O => O | S j => after_slash j path end.
Definition fmtname (path : list Z) : list Z :=
  let p := drop (after_slash (Z.to_nat (strlen path)) path) path in
  if 14 <=? strlen p then chars p
  else
    let n := Z.to_nat (strlen p) in
    chars (take n p ++ replicate (14 - n) 32 ++ [0]).

Definition ls_line (name : list Z) (st : stat) : uprog unit :=
  printf (line "%s %d %d %d") [AStr (Some name); AInt (st_type st); AInt (st_ino st); AInt (st_size st)].

(** One turn of the loop over a directory: [buf] holds the path and a slash before index [p]. *)
Definition ls_entry (fd : Z) (p : nat) (buf : list Z) : uprog (list Z + unit) :=
  r ← call (Read fd 16);
  match r with
  | None => Ret (inr tt)
  | Some de =>
      if negb (bool_decide (length de = 16%nat)) then Ret (inr tt)
      else if de_inum de =? 0 then Ret (inl buf)
      else
        let buf := <[(p + 14)%nat := 0]> (splice p (take 14 (de_name de)) buf) in
        o ← stat_ (chars buf);
        match o with
        | None => printf (line "ls: cannot stat %s") [AStr (Some buf)];; Ret (inl buf)
        | Some st => ls_line (fmtname (chars buf)) st;; Ret (inl buf)
        end
  end.

(** [junk] is what the array [buf] of [ls] holds before it is written. *)
Definition ls (junk path : list Z) : uprog unit :=
  fd ← call (Open path O_RDONLY);
  if fd <? 0 then fprintf 2 (line "ls: cannot open %s") [AStr (Some path)]
  else
    o ← call (Fstat fd);
    match o with
    | None => fprintf 2 (line "ls: cannot stat %s") [AStr (Some path)];; call (Close fd);; Ret tt
    | Some st =>
        (if (st_type st =? T_DEVICE) || (st_type st =? T_FILE) then ls_line (fmtname path) st
         else if st_type st =? T_DIR then
           if 512 <? u32 (strlen path + 1 + 14 + 1) then printf (line "ls: path too long") []
           else
             match strcpy junk path with
             | None => undefined
             | Some buf =>
                 let p := Z.to_nat (strlen buf) in
                 ITree.iter (ls_entry fd (p + 1)) (<[p := 47]> buf)
             end
         else Ret tt);;
        call (Close fd);; Ret tt
    end.

Definition ls_main (junk : list Z) (argv : list (list Z)) : uprog unit :=
  if bool_decide (tl argv = []) then ls junk (str ".");; exit 0
  else each (tl argv) (ls junk);; exit 0.

(** ** echo, mkdir, rm, ln, kill, sync, zombie *)
Fixpoint echo_args (l : list (list Z)) : uprog unit :=
  match l with
  | [] => Ret tt
  | a :: l' =>
      call (Write 1 (take (Z.to_nat (strlen a)) a));;
      call (Write 1 (if bool_decide (l' = []) then [10] else [32]));;
      echo_args l'
  end.
Definition echo_main (argv : list (list Z)) : uprog unit := echo_args (tl argv);; exit 0.

(** The loop of mkdir and of rm: it stops at the first failure. *)
Fixpoint until_failure (f : list Z -> callE Z) (msg : list Z) (l : list (list Z)) : uprog unit :=
  match l with
  | [] => Ret tt
  | a :: l' => r ← call (f a); if r <? 0 then fprintf 2 msg [AStr (Some a)] else until_failure f msg l'
  end.
Definition mkdir_main (argv : list (list Z)) : uprog unit :=
  if bool_decide (tl argv = []) then fprintf 2 (line "Usage: mkdir files...") [];; exit 1
  else until_failure Mkdir (line "mkdir: %s failed to create") (tl argv);; exit 0.
Definition rm_main (argv : list (list Z)) : uprog unit :=
  if bool_decide (tl argv = []) then fprintf 2 (line "Usage: rm files...") [];; exit 1
  else until_failure Unlink (line "rm: %s failed to delete") (tl argv);; exit 0.
Definition ln_main (argv : list (list Z)) : uprog unit :=
  match argv with
  | [_; old; new] =>
      r ← call (Link old new);
      (if r <? 0 then fprintf 2 (line "link %s %s: failed") [AStr (Some old); AStr (Some new)] else Ret tt);;
      exit 0
  | _ => fprintf 2 (line "Usage: ln old new") [];; exit 1
  end.
Definition kill_main (argv : list (list Z)) : uprog unit :=
  if bool_decide (tl argv = []) then fprintf 2 (line "usage: kill pid...") [];; exit 1
  else each (tl argv) (fun a => call (Kill (atoi a));; Ret tt);; exit 0.
Definition sync_main : uprog unit := call Sync;; exit 0.
Definition zombie_main : uprog unit :=
  pid ← call Fork;
  (if 0 <? pid then call (Pause 5);; Ret tt else Ret tt);;
  exit 0.

(** ** init *)
(** The inner loop: until [wait] returns the shell. *)
Definition wait_for (pid : Z) : uprog unit :=
  ITree.iter (fun _ : unit =>
    wpid ← call Wait;
    if wpid =? pid then Ret (inr tt)
    else if wpid <? 0 then printf (line "init: wait returned an error") [];; exit 1
    else Ret (inl tt)) tt.
Definition run_sh : uprog (unit + void) :=
  printf (line "init: starting sh") [];;
  pid ← call Fork;
  if pid <? 0 then printf (line "init: fork failed") [];; exit 1
  else if pid =? 0 then call (Exec (str "sh") [str "sh"]);; printf (line "init: exec sh failed") [];; exit 1
  else wait_for pid;; Ret (inl tt).
Definition init_main : uprog void :=
  fd ← call (Open (str "console") O_RDWR);
  (if fd <? 0 then call (Mknod (str "console") CONSOLE 0);; call (Open (str "console") O_RDWR);; Ret tt else Ret tt);;
  call (Dup 0);;
  call (Dup 0);;
  ITree.iter (fun _ : unit => run_sh) tt.

(** ** grep: the loops of [Grep] with their system calls, and main *)
Fixpoint grep_lines_io (fuel : nat) (pattern buf : list Z) (p : nat) : uprog (list Z * nat) :=
  match fuel with
  | O => Ret (buf, p)
  | S fuel' =>
      match strchr (drop p buf) 10 with
      | None => Ret (buf, p)
      | Some k =>
          let q := (p + k)%nat in
          let buf := <[q := 0]> buf in
          if match_ pattern (drop p buf) then
            let buf := <[q := 10]> buf in
            call (Write 1 (take (q + 1 - p) (drop p buf)));;
            grep_lines_io fuel' pattern buf (q + 1)
          else grep_lines_io fuel' pattern buf (q + 1)
      end
  end.

(** The buffer is a global array: the next file finds it as the last one left it. *)
Definition grep_io (pattern : list Z) (fd : Z) (buf : list Z) : uprog (list Z) :=
  ITree.iter (fun '(buf, m) =>
    r ← call (Read fd (GBUF - m - 1));
    match r with
    | Some (x :: l) =>
        let n := Z.of_nat (length (x :: l)) in
        let buf := take (Z.to_nat m) buf ++ (x :: l) ++ drop (Z.to_nat (m + n)) buf in
        let m := m + n in
        let buf := <[Z.to_nat m := 0]> buf in
        bp ← grep_lines_io (length buf) pattern buf 0;
        let '(buf, p) := bp : list Z * nat in
        if 0 <? m then
          let m := m - Z.of_nat p in
          Ret (inl (move_down buf p (Z.to_nat m), m))
        else Ret (inl (buf, m))
    | _ => Ret (inr buf)
    end) (buf, 0).

Fixpoint grep_files (pattern : list Z) (files : list (list Z)) (buf : list Z) : uprog unit :=
  match files with
  | [] => Ret tt
  | f :: files' =>
      fd ← call (Open f O_RDONLY);
      if fd <? 0 then printf (line "grep: cannot open %s") [AStr (Some f)];; exit 1
      else
        buf ← grep_io pattern fd buf;
        call (Close fd);;
        grep_files pattern files' buf
  end.
Definition grep_main (argv : list (list Z)) : uprog unit :=
  let buf := replicate (Z.to_nat GBUF) 0 in
  match tl argv with
  | [] => fprintf 2 (line "usage: grep pattern [file ...]") [];; exit 1
  | [pattern] => grep_io pattern 0 buf;; exit 0
  | pattern :: files => grep_files pattern files buf;; exit 0
  end.
