(* ===== verification/Urun.v ===== *)
(** * Running user programs against the file interface of the kernel

    [Kernel] answers the system calls; [KernelLaws] is what it promises about the files that the
    program reads and the descriptors that it writes to, while no other process changes them.
    [ends] is total correctness of a program: it stops, returning or calling exit, and the
    outcome is as told. *)

From ITree Require Import ITree ITreeFacts Events.State Events.StateFacts.
From S2P Require Import Prelude Kstring State Console Fs Sysfile Ulib Uprintf Grep Uprog.

Class Kernel (W : Type) := answer : forall X, callE X -> W -> W * X.
Arguments answer {W _ X} _ _.

(** ** Execution *)

(** A program that has stopped: the status and the world it leaves, or a crash. *)
Variant outE (W : Type) : Type -> Type :=
| Done (status : Z) (w : W) : outE W void
| Crash : outE W void.
Arguments Done {W} _ _.
Arguments Crash {W}.

Section Run.
Context {W : Type} `{Kernel W}.

Definition never {A} (v : void) : A := match v with end.
Definition handle_stop {X} (e : stopE X) (w : W) : itree (outE W) (W * X) :=
  match e with
  | Exit st => ITree.bind (ITree.trigger (Done st w)) never
  | Undefined => ITree.bind (ITree.trigger Crash) never
  end.
Definition handle : forall X, (callE +' stopE) X -> Monads.stateT W (itree (outE W)) X :=
  fun X e w =>
    match e with
    | inl1 c => Ret (answer c w)
    | inr1 s => handle_stop s w
    end.

Inductive outcome (A : Type) := Val (a : A) | Exited (status : Z).
Arguments Val {A} _.
Arguments Exited {A} _.

(** The execution of [t] from [w] stops with outcome [o] in [w']. *)
Definition runs {A} (t : uprog A) (w : W) (o : outcome A) (w' : W) : Prop :=
  interp_state handle t w ≈
  match o with
  | Val a => Ret (w', a)
  | Exited st => ITree.bind (ITree.trigger (Done st w')) never
  end.
Definition ends {A} (t : uprog A) (w : W) (Q : outcome A -> W -> Prop) : Prop :=
  exists o w', runs t w o w' /\ Q o w'.

Lemma ends_ret {A} (a : A) w (Q : outcome A -> W -> Prop) : Q (Val a) w -> ends (Ret a) w Q.
Proof. intros HQ. exists (Val a), w. split; [|done]. unfold runs. by rewrite interp_state_ret. Qed.

Lemma ends_call {X} (e : callE X) w (Q : outcome X -> W -> Prop) :
  Q (Val (answer e w).2) (answer e w).1 -> ends (call e) w Q.
Proof.
  intros HQ. exists (Val (answer e w).2), (answer e w).1. split; [|done]. unfold runs, call.
  rewrite interp_state_trigger. cbn. by destruct (answer e w).
Qed.

Lemma never_bind {E : Type -> Type} {A B} (e : E void) (k : A -> itree E B) :
  ITree.bind (ITree.bind (ITree.trigger e) (fun v => never v : itree E A)) k ≈ ITree.bind (ITree.trigger e) never.
Proof. rewrite bind_bind. apply eutt_eq_bind. by intros []. Qed.

Lemma ends_exit {A} st w (Q : outcome A -> W -> Prop) : Q (Exited st) w -> ends (exit st) w Q.
Proof.
  intros HQ. exists (Exited st), w. split; [|done]. unfold runs, exit, stop.
  rewrite interp_state_bind, interp_state_trigger. cbn [handle handle_stop]. apply never_bind.
Qed.

Lemma ends_bind {A B} (t : uprog A) (k : A -> uprog B) w (Q : outcome B -> W -> Prop) :
  ends t w (fun o w1 => match o with Val a => ends (k a) w1 Q | Exited st => Q (Exited st) w1 end) ->
  ends (ITree.bind t k) w Q.
Proof.
  intros (o & w1 & Hr & Hk). destruct o as [a|st].
  - destruct Hk as (o & w' & Hr' & HQ). exists o, w'. split; [|done]. unfold runs in *.
    rewrite interp_state_bind, Hr, bind_ret_l. exact Hr'.
  - exists (Exited st), w1. split; [|done]. unfold runs in *. rewrite interp_state_bind, Hr. apply never_bind.
Qed.

Lemma ends_weaken {A} (t : uprog A) w (Q Q' : outcome A -> W -> Prop) :
  ends t w Q -> (forall o w', Q o w' -> Q' o w') -> ends t w Q'.
Proof. intros (o & w' & Hr & HQ) HQ'. exists o, w'. auto. Qed.

Lemma ends_iter {I R} (body : I -> uprog (I + R)) i w (Q : outcome R -> W -> Prop) :
  ends (body i) w (fun o w1 =>
    match o with
    | Val (inl j) => ends (ITree.iter body j) w1 Q
    | Val (inr r) => Q (Val r) w1
    | Exited st => Q (Exited st) w1
    end) ->
  ends (ITree.iter body i) w Q.
Proof.
  intros Hb.
  assert (Hu : ends (ITree.bind (body i) (fun lr => match lr with inl l => Tau (ITree.iter body l) | inr r => Ret r end)) w Q).
  { apply ends_bind. eapply ends_weaken; [exact Hb|]. intros [[j|r]|st] w1; [|apply ends_ret|done].
    intros (o & w' & Hr & HQ). exists o, w'. split; [|done]. unfold runs in *. by rewrite interp_state_tau, tau_eutt. }
  destruct Hu as (o & w' & Hr & HQ). exists o, w'. split; [|done]. unfold runs in *.
  rewrite unfold_iter. exact Hr.
Qed.
End Run.
Arguments Val {A} _.
Arguments Exited {A} _.

Ltac tstep :=
  match goal with
  | |- ends (ITree.bind _ _) _ _ => apply ends_bind; cbv beta
  | |- ends (Ret _) _ _ => apply ends_ret; cbv beta iota
  | |- ends (exit _) _ _ => apply ends_exit; cbv beta iota
  | |- ends (call _) _ _ => apply ends_call; cbv beta iota
  end.

(** ** What the kernel promises

    A descriptor open for reading has the bytes that it has still to deliver; [of_disk] tells a
    file of the disk, which delivers all that is asked for, from a pipe or a terminal, which
    delivers what has arrived.  A descriptor open for writing has what was written to it, and
    how many bytes more it accepts. *)
Record ofile := OFile { of_stat : option stat; of_disk : bool; of_rest : list Z }.
Record sink := Sink { sk_out : list Z; sk_room : nat }.
Record uview := View {
  v_names : gmap (list Z) (stat * list Z);
  v_fds : gmap Z ofile;
  v_sinks : gmap Z sink
}.
Definition set_fds (f : gmap Z ofile) (v : uview) : uview := View (v_names v) f (v_sinks v).
Definition set_sinks (f : gmap Z sink) (v : uview) : uview := View (v_names v) (v_fds v) f.
Definition with_rest (f : ofile) (l : list Z) : ofile := OFile (of_stat f) (of_disk f) l.

Class KernelLaws (W : Type) `{Kernel W} := {
  view : W -> uview;
  (** An existing file is opened at a free descriptor, while the process has one. *)
  open_found w p n : v_names (view w) !! p = Some n ->
    (size (dom (v_fds (view w)) ∪ dom (v_sinks (view w))) < NOFILE)%nat ->
    exists fd w', answer (Open p O_RDONLY) w = (w', fd) /\ 0 <= fd /\
      v_fds (view w) !! fd = None /\ v_sinks (view w) !! fd = None /\
      view w' = set_fds (<[fd := OFile (Some n.1) true n.2]> (v_fds (view w))) (view w);
  open_missing w p : v_names (view w) !! p = None ->
    exists r w', answer (Open p O_RDONLY) w = (w', r) /\ r < 0 /\ view w' = view w;
  close_open w fd f : v_fds (view w) !! fd = Some f -> v_sinks (view w) !! fd = None ->
    exists r w', answer (Close fd) w = (w', r) /\ view w' = set_fds (delete fd (v_fds (view w))) (view w);
  read_open w fd n f : v_fds (view w) !! fd = Some f ->
    exists l rest w', answer (Read fd n) w = (w', Some l) /\ of_rest f = l ++ rest /\
      Z.of_nat (length l) <= Z.max 0 n /\ (0 < n -> of_rest f <> [] -> l <> []) /\
      (of_disk f = true -> l = take (Z.to_nat n) (of_rest f)) /\
      view w' = set_fds (<[fd := with_rest f rest]> (v_fds (view w))) (view w);
  fstat_open w fd f st : v_fds (view w) !! fd = Some f -> of_stat f = Some st ->
    exists w', answer (Fstat fd) w = (w', Some st) /\ view w' = view w;
  write_fits w fd l k : v_sinks (view w) !! fd = Some k -> (length l <= sk_room k)%nat ->
    exists w', answer (Write fd l) w = (w', Z.of_nat (length l)) /\
      view w' = set_sinks (<[fd := Sink (sk_out k ++ l) (sk_room k - length l)]> (v_sinks (view w))) (view w);
  write_short w fd l k : v_sinks (view w) !! fd = Some k -> (sk_room k < length l)%nat ->
    exists r w' l1 l2 n, answer (Write fd l) w = (w', r) /\ r <> Z.of_nat (length l) /\
      l = l1 ++ l2 /\ (length l1 <= sk_room k)%nat /\
      view w' = set_sinks (<[fd := Sink (sk_out k ++ l1) n]> (v_sinks (view w))) (view w)
}.

(** ** A kernel with its files in memory

    The sizes in which streams arrive are a script.  Calls that change names are refused. *)
Record mem := Mem { m_view : uview; m_script : list nat }.
Definition mem_fd (v : uview) : Z :=
  default (-1) (head (List.filter (fun fd => bool_decide (v_fds v !! fd = None /\ v_sinks v !! fd = None)) (seqZ 0 16))).
Definition mem_answer X (e : callE X) (w : mem) : mem * X :=
  let v := m_view w in
  match e in callE Y return mem * Y with
  | Open p mode =>
      match v_names v !! p with
      | Some n => if mem_fd v <? 0 then (w, -1)
                  else (Mem (set_fds (<[mem_fd v := OFile (Some n.1) true n.2]> (v_fds v)) v) (m_script w), mem_fd v)
      | None => (w, -1)
      end
  | Close fd => (Mem (set_fds (delete fd (v_fds v)) v) (m_script w), 0)
  | Read fd n =>
      match v_fds v !! fd with
      | Some f =>
          let k := if of_disk f then Z.to_nat n else arrived n (m_script w) in
          (Mem (set_fds (<[fd := with_rest f (drop k (of_rest f))]> (v_fds v)) v) (tl (m_script w)), Some (take k (of_rest f)))
      | None => (w, None)
      end
  | Write fd l =>
      match v_sinks v !! fd with
      | Some k =>
          let l1 := take (sk_room k) l in
          (Mem (set_sinks (<[fd := Sink (sk_out k ++ l1) (sk_room k - length l1)]> (v_sinks v)) v) (m_script w),
           Z.of_nat (length l1))
      | None => (w, -1)
      end
  | Fstat fd => (w, v_fds v !! fd ≫= of_stat)
  | Mkdir _ | Mknod _ _ _ | Unlink _ | Link _ _ | Dup _ | Kill _ | Sync | Pause _ | Fork | Wait | Exec _ _ => (w, -1)
  end.
#[export] Instance mem_kernel : Kernel mem := mem_answer.

Lemma mem_fd_spec v : (size (dom (v_fds v) ∪ dom (v_sinks v)) < NOFILE)%nat ->
  0 <= mem_fd v /\ v_fds v !! mem_fd v = None /\ v_sinks v !! mem_fd v = None.
Proof.
  intros Hs. unfold mem_fd. set (p := fun fd => bool_decide (v_fds v !! fd = None /\ v_sinks v !! fd = None)).
  destruct (List.filter p (seqZ 0 16)) as [|fd l] eqn:E.
  - exfalso. assert (Hsub : list_to_set (seqZ 0 16) ⊆ dom (v_fds v) ∪ dom (v_sinks v)).
    { intros fd Hfd. apply elem_of_list_to_set in Hfd. rewrite elem_of_union, !elem_of_dom.
      destruct (v_fds v !! fd) as [f|] eqn:E1; [by left|]. destruct (v_sinks v !! fd) as [f|] eqn:E2; [by right|].
      assert (Hin : In fd (List.filter p (seqZ 0 16))); [|by rewrite E in Hin].
      apply filter_In. split; [by apply list_elem_of_In|]. by apply bool_decide_eq_true. }
    apply subseteq_size in Hsub. rewrite size_list_to_set in Hsub by apply NoDup_seqZ.
    rewrite length_seqZ in Hsub. change NOFILE with 16%nat in Hs. lia.
  - cbn. assert (Hin : In fd (List.filter p (seqZ 0 16))) by (rewrite E; by left).
    apply filter_In in Hin as [Hr Hp]. apply list_elem_of_In, elem_of_seqZ in Hr.
    apply bool_decide_eq_true in Hp. split; [lia|done].
Qed.

#[export] Instance mem_laws : KernelLaws mem.
Proof.
  refine {| view := m_view |}.
  - intros w p n Hp Hs. destruct (mem_fd_spec _ Hs) as (H0 & H1 & H2). cbn. unfold answer, mem_kernel, mem_answer.
    rewrite Hp. destruct (Z.ltb_spec (mem_fd (m_view w)) 0); [lia|]. eexists _, _. by repeat split.
  - intros w p Hp. unfold answer, mem_kernel, mem_answer. rewrite Hp. by eexists _, _.
  - intros w fd f _ _. by eexists _, _.
  - intros w fd n f Hf. unfold answer, mem_kernel, mem_answer. rewrite Hf. eexists _, _, _. split; [reflexivity|].
    rewrite take_drop, length_take. unfold arrived. split; [done|]. split; [destruct (of_disk f); lia|].
    split; [|split; [by intros ->|done]]. intros Hn Hne E. apply (f_equal length) in E. rewrite length_take in E.
    destruct (of_rest f); [done|]. cbn in E. destruct (of_disk f); lia.
  - intros w fd f st Hf Hst. unfold answer, mem_kernel, mem_answer. rewrite Hf. cbn. rewrite Hst. by eexists.
  - intros w fd l k Hk Hl. unfold answer, mem_kernel, mem_answer. rewrite Hk. rewrite take_ge by done. by eexists.
  - intros w fd l k Hk Hl. unfold answer, mem_kernel, mem_answer. rewrite Hk.
    eexists _, _, (take (sk_room k) l), (drop (sk_room k) l), _. split; [reflexivity|]. rewrite length_take, take_drop.
    repeat split; lia.
Defined.

(** ** Rules for the calls, on views *)

(** [l] has been written to [fd]; [fd] accepts [n] more bytes. *)
Definition emit (fd : Z) (l : list Z) (v : uview) : uview :=
  set_sinks (alter (fun k => Sink (sk_out k ++ l) (sk_room k - length l)) fd (v_sinks v)) v.
Definition accepts (fd : Z) (n : nat) (v : uview) : Prop :=
  exists k, v_sinks v !! fd = Some k /\ (n <= sk_room k)%nat.
Definition written (fd : Z) (v : uview) : list Z := from_option sk_out [] (v_sinks v !! fd).

Lemma emit_nil fd v : emit fd [] v = v.
Proof.
  unfold emit, set_sinks. destruct v as [na fds sk]. cbn. f_equal. apply map_eq. intros i.
  destruct (decide (i = fd)) as [->|Hi]; [|by rewrite lookup_alter_ne]. rewrite lookup_alter_eq.
  destruct (sk !! fd) as [[o r]|]; [|done]. cbn. by rewrite app_nil_r, Nat.sub_0_r.
Qed.
Lemma emit_emit fd l1 l2 v : emit fd l2 (emit fd l1 v) = emit fd (l1 ++ l2) v.
Proof.
  unfold emit, set_sinks. cbn. f_equal. apply map_eq. intros i.
  destruct (decide (i = fd)) as [->|Hi]; [|by rewrite !lookup_alter_ne]. rewrite !lookup_alter_eq.
  destruct (v_sinks v !! fd) as [[o r]|]; [|done]. cbn. by rewrite length_app, app_assoc, Nat.sub_add_distr.
Qed.
Lemma accepts_emit fd l n v : accepts fd (length l + n) v -> accepts fd n (emit fd l v).
Proof.
  intros (k & Hk & Hn). unfold accepts, emit. cbn. rewrite lookup_alter_eq, Hk. eexists. split; [done|]. cbn. lia.
Qed.
Lemma accepts_mono fd m n v : accepts fd n v -> (m <= n)%nat -> accepts fd m v.
Proof. intros (k & Hk & Hn) Hm. exists k. split; [done|lia]. Qed.
Lemma written_emit fd l v : is_Some (v_sinks v !! fd) -> written fd (emit fd l v) = written fd v ++ l.
Proof. intros [k Hk]. unfold written, emit. cbn. by rewrite lookup_alter_eq, Hk. Qed.
Lemma written_emit_ne fd fd' l v : fd <> fd' -> written fd (emit fd' l v) = written fd v.
Proof. intros Hne. unfold written, emit. cbn. by rewrite lookup_alter_ne. Qed.
Lemma set_fds_emit fd l m v : set_fds m (emit fd l v) = emit fd l (set_fds m v).
Proof. done. Qed.
Lemma set_fds_set_fds m m' v : set_fds m (set_fds m' v) = set_fds m v.
Proof. done. Qed.
Lemma set_fds_id v : set_fds (v_fds v) v = v.
Proof. by destruct v. Qed.
Lemma dom_sinks_emit fd l v : dom (v_sinks (emit fd l v)) = dom (v_sinks v).
Proof. unfold emit. cbn. by rewrite dom_alter_L. Qed.

Section Rules.
Context {W : Type} `{KernelLaws W}.
Implicit Types w : W.

Lemma ends_write w fd l (Q : outcome Z -> W -> Prop) : accepts fd (length l) (view w) ->
  (forall w', view w' = emit fd l (view w) -> Q (Val (Z.of_nat (length l))) w') -> ends (call (Write fd l)) w Q.
Proof.
  intros (k & Hk & Hl) HQ. apply ends_call. destruct (write_fits w fd l k Hk Hl) as (w' & E & Hv). rewrite E. cbn.
  apply HQ. rewrite Hv. unfold emit. f_equal. apply map_eq. intros i. destruct (decide (i = fd)) as [->|Hi].
  - by rewrite lookup_insert_eq, lookup_alter_eq, Hk.
  - by rewrite lookup_insert_ne, lookup_alter_ne.
Qed.

Lemma ends_puts w fd l (Q : outcome unit -> W -> Prop) : accepts fd (length l) (view w) ->
  (forall w', view w' = emit fd l (view w) -> Q (Val tt) w') -> ends (puts fd l) w Q.
Proof.
  revert w. induction l as [|c l IH]; intros w Ha HQ; cbn [puts].
  - tstep. apply HQ. by rewrite emit_nil.
  - unfold putc. do 2 tstep. apply ends_write; [by eapply accepts_mono; [exact Ha|cbn; lia]|]. intros w1 E1. tstep.
    apply IH; [rewrite E1; by apply accepts_emit|]. intros w' E'. apply HQ. by rewrite E', E1, emit_emit.
Qed.

Lemma ends_fprintf w fd fmt ap l (Q : outcome unit -> W -> Prop) : vprintf fmt ap = Some l ->
  accepts fd (length l) (view w) ->
  (forall w', view w' = emit fd l (view w) -> Q (Val tt) w') -> ends (fprintf fd fmt ap) w Q.
Proof. intros Hl Ha HQ. unfold fprintf. rewrite Hl. by apply ends_puts. Qed.

Lemma ends_read w fd n f (Q : outcome (option (list Z)) -> W -> Prop) : v_fds (view w) !! fd = Some f ->
  (forall l rest w', of_rest f = l ++ rest -> Z.of_nat (length l) <= Z.max 0 n ->
     (0 < n -> of_rest f <> [] -> l <> []) -> (of_disk f = true -> l = take (Z.to_nat n) (of_rest f)) ->
     view w' = set_fds (<[fd := with_rest f rest]> (v_fds (view w))) (view w) -> Q (Val (Some l)) w') ->
  ends (call (Read fd n)) w Q.
Proof.
  intros Hf HQ. apply ends_call. destruct (read_open w fd n f Hf) as (l & rest & w' & E & H1 & H2 & H3 & H4 & Hv).
  rewrite E. by apply (HQ l rest).
Qed.

(** A file is opened, read by [body], and closed: nothing changes but what the body wrote. *)
Definition spare (n : nat) (v : uview) : Prop := (size (dom (v_fds v) ∪ dom (v_sinks v)) + n <= NOFILE)%nat.

Lemma ends_open w p n (Q : outcome Z -> W -> Prop) : v_names (view w) !! p = Some n -> spare 1 (view w) ->
  (forall fd w', 0 <= fd -> v_fds (view w) !! fd = None -> v_sinks (view w) !! fd = None ->
     view w' = set_fds (<[fd := OFile (Some n.1) true n.2]> (v_fds (view w))) (view w) -> Q (Val fd) w') ->
  ends (call (Open p O_RDONLY)) w Q.
Proof.
  intros Hp Hs HQ. apply ends_call. unfold spare in Hs.
  destruct (open_found w p n Hp) as (fd & w' & E & Hfd & H1 & H2 & Hv); [lia|]. rewrite E. by apply HQ.
Qed.
Lemma ends_open_missing w p (Q : outcome Z -> W -> Prop) : v_names (view w) !! p = None ->
  (forall r w', r < 0 -> view w' = view w -> Q (Val r) w') -> ends (call (Open p O_RDONLY)) w Q.
Proof. intros Hp HQ. apply ends_call. destruct (open_missing w p Hp) as (r & w' & E & Hr & Hv). rewrite E. by apply HQ. Qed.
Lemma ends_close w fd f (Q : outcome Z -> W -> Prop) : v_fds (view w) !! fd = Some f -> v_sinks (view w) !! fd = None ->
  (forall r w', view w' = set_fds (delete fd (v_fds (view w))) (view w) -> Q (Val r) w') -> ends (call (Close fd)) w Q.
Proof. intros Hf Hk HQ. apply ends_call. destruct (close_open w fd f Hf Hk) as (r & w' & E & Hv). rewrite E. by apply HQ. Qed.
Lemma ends_fstat w fd f st (Q : outcome (option stat) -> W -> Prop) : v_fds (view w) !! fd = Some f -> of_stat f = Some st ->
  (forall w', view w' = view w -> Q (Val (Some st)) w') -> ends (call (Fstat fd)) w Q.
Proof. intros Hf Hst HQ. apply ends_call. destruct (fstat_open w fd f st Hf Hst) as (w' & E & Hv). rewrite E. by apply HQ. Qed.

(** [stat] of an existing and of a missing file. *)
Lemma ends_stat w p (Q : outcome (option stat) -> W -> Prop) : spare 1 (view w) ->
  (forall w', view w' = view w -> Q (Val (fst <$> v_names (view w) !! p)) w') -> ends (stat_ p) w Q.
Proof.
  intros Hs HQ. unfold stat_. tstep. destruct (v_names (view w) !! p) as [n|] eqn:Hp.
  - apply (ends_open _ _ n); [done..|]. intros fd w1 Hfd Hf Hk E1. destruct (Z.ltb_spec fd 0); [lia|].
    tstep. eapply ends_fstat; [by rewrite E1; cbn; rewrite lookup_insert_eq|done|]. intros w2 E2.
    tstep. eapply ends_close; [by rewrite E2, E1; cbn; rewrite lookup_insert_eq|by rewrite E2, E1|]. intros r w3 E3.
    tstep. apply HQ. rewrite E3, E2, E1. cbn. rewrite delete_insert_id, set_fds_set_fds by done. apply set_fds_id.
  - apply ends_open_missing; [done|]. intros r w1 Hr E1. destruct (Z.ltb_spec r 0); [|lia]. tstep. by apply HQ.
Qed.

Lemma ends_exists {A} (t : uprog A) w o (P : uview -> Prop) :
  ends t w (fun o' w' => o' = o /\ P (view w')) -> exists w', runs t w o w' /\ P (view w').
Proof. intros (o' & w' & Hr & -> & HP). by exists w'. Qed.
End Rules.
