(* ===== verification/Ufiles.v ===== *)
(** * cat, wc, echo and the main of grep, on any kernel that keeps its promises *)

From ITree Require Import ITree ITreeFacts.
From S2P Require Import Prelude Kstring State Console Fs Sysfile Ulib Uprintf Grep Uprog Urun.

(** ** Formats *)

(** What [%d] prints. *)
Definition dec (v : Z) : list Z := default [] (printint (s32 v) 10 true).
Lemma dec_ok v : printint (s32 v) 10 true = Some (dec v).
Proof.
  unfold dec. destruct (printint_fits (s32 v) 10 true) as (l & E & _); [|by left|by rewrite E].
  pose proof (s32_range v). lia.
Qed.

(** Runs a constant format over its arguments. *)
Ltac run_format :=
  match goal with |- vprintf ?f _ = _ => let f' := eval vm_compute in f in change f with f' end;
  unfold vprintf, convert; cbn -[chars printint dec s32 str]; repeat (rewrite dec_ok; cbn -[chars printint dec s32 str]); by rewrite <-?app_assoc.

Lemma chars_nul0 l : 0 ∉ l -> chars l = l.
Proof.
  unfold chars. induction l as [|c l IH]; intros Hl; [done|]. apply not_elem_of_cons in Hl as [H1 H2]. cbn.
  destruct (Z.eqb_spec c 0); [congruence|]. by rewrite IH.
Qed.

Lemma print_counts a b c s :
  vprintf (line "%d %d %d %s") [AInt a; AInt b; AInt c; AStr s] =
  Some (dec a ++ [32] ++ dec b ++ [32] ++ dec c ++ [32] ++ chars (default (str "(null)") s) ++ [10]).
Proof. run_format. Qed.
Lemma print_entry a b c s :
  vprintf (line "%s %d %d %d") [AStr s; AInt a; AInt b; AInt c] =
  Some (chars (default (str "(null)") s) ++ [32] ++ dec a ++ [32] ++ dec b ++ [32] ++ dec c ++ [10]).
Proof. run_format. Qed.

(** ** Programs that treat their files one after the other *)

(** The files of the list up to the first that does not exist, and that one. *)
Fixpoint till_missing (names : gmap (list Z) (stat * list Z)) (files : list (list Z)) :
    list (list Z * list Z) * option (list Z) :=
  match files with
  | [] => ([], None)
  | f :: files' =>
      match names !! f with
      | None => ([], Some f)
      | Some n => let r := till_missing names files' in ((f, n.2) :: r.1, r.2)
      end
  end.

(** The open files of [v], with [fd] read to its end. *)
Definition drained (fd : Z) (f : ofile) (v : uview) : uview := set_fds (<[fd := with_rest f []]> (v_fds v)) v.

Section EachFile.
Context {W : Type} `{KernelLaws W}.
Implicit Types w : W.
(** A body that writes [report name data] to descriptor 1 for each file, and the message for a
    file that cannot be opened. *)
Context (body : Z -> list Z -> uprog unit) (report : list Z -> list Z -> list Z).
Context (efd : Z) (efmt : list Z) (emsg : list Z -> list Z).
Definition reports : Prop := forall fd name f w (Q : outcome unit -> W -> Prop),
  v_fds (view w) !! fd = Some f -> accepts 1 (length (report name (of_rest f))) (view w) ->
  (forall w', view w' = emit 1 (report name (of_rest f)) (drained fd f (view w)) -> Q (Val tt) w') ->
  ends (body fd name) w Q.

Definition text_of (r : list (list Z * list Z)) : list Z := concat (map (fun x => report x.1 x.2) r).

Lemma ends_each_file files w (Q : outcome unit -> W -> Prop) : reports ->
  (forall f, vprintf efmt [AStr (Some f)] = Some (emsg f)) -> spare 1 (view w) ->
  let r := till_missing (v_names (view w)) files in
  accepts 1 (length (text_of r.1)) (view w) ->
  (forall f, r.2 = Some f -> accepts efd (length (emsg f)) (emit 1 (text_of r.1) (view w))) ->
  (forall w', view w' = match r.2 with
                        | None => emit 1 (text_of r.1) (view w)
                        | Some f => emit efd (emsg f) (emit 1 (text_of r.1) (view w))
                        end ->
     Q (match r.2 with None => Val tt | Some _ => Exited 1 end) w') ->
  ends (each files (fun f =>
      fd ← call (Open f O_RDONLY);
      if fd <? 0 then fprintf efd efmt [AStr (Some f)];; exit 1
      else body fd f;; call (Close fd);; Ret tt)) w Q.
Proof.
  intros Hbody Hmsg. revert w. induction files as [|f files IH]; intros w Hs r Ha He HQ; cbn [each].
  { tstep. apply HQ. by rewrite emit_nil. }
  subst r. cbn [till_missing] in *. do 2 tstep. destruct (v_names (view w) !! f) as [n|] eqn:Hn.
  - cbn [fst snd] in Ha, He, HQ. set (r := till_missing (v_names (view w)) files) in *.
    assert (Ht : text_of ((f, n.2) :: r.1) = report f n.2 ++ text_of r.1) by done. rewrite Ht, length_app in Ha. rewrite Ht in He, HQ.
    apply (ends_open _ _ n); [done..|]. intros fd w1 Hpos Hfd Hk E1. destruct (Z.ltb_spec fd 0); [lia|].
    tstep. apply (Hbody fd f (OFile (Some n.1) true n.2)); [by rewrite E1; cbn; rewrite lookup_insert_eq| |].
    { rewrite E1. cbn. by eapply accepts_mono; [exact Ha|lia]. }
    intros w2 E2. cbn [of_rest] in E2. unfold drained in E2. rewrite E1 in E2. cbn in E2. rewrite insert_insert_eq, set_fds_set_fds in E2.
    tstep. eapply ends_close; [rewrite E2; cbn; by rewrite lookup_insert_eq|rewrite E2; cbn; by rewrite lookup_alter_None|].
    intros c w3 E3. tstep. rewrite E2 in E3. cbn in E3. rewrite delete_insert_id in E3 by done.
    rewrite set_fds_emit, set_fds_set_fds, set_fds_id in E3.
    assert (Hna : v_names (view w3) = v_names (view w)) by by rewrite E3.
    apply IH; rewrite ?Hna; rewrite ?E3, ?emit_emit; fold r.
    + unfold spare in *. by rewrite dom_sinks_emit.
    + by apply accepts_emit.
    + exact He.
    + exact HQ.
  - cbn [fst snd] in Ha, He, HQ. rewrite emit_nil in HQ. apply ends_open_missing; [done|]. intros c w1 Hc E1.
    destruct (Z.ltb_spec c 0); [|lia]. tstep. specialize (He f eq_refl). rewrite emit_nil in He.
    eapply ends_fprintf; [apply Hmsg|by rewrite E1|]. intros w2 E2. tstep. apply HQ. by rewrite E2, E1.
Qed.
End EachFile.

Section Cat.
Context {W : Type} `{KernelLaws W}.
Implicit Types w : W.

Lemma drained_again fd f v l : drained fd (with_rest f l) (set_fds (<[fd := with_rest f l]> (v_fds v)) v) = drained fd f v.
Proof. unfold drained. cbn. by rewrite insert_insert_eq. Qed.

(** The file read to its end after [l] was read from it and [rest] is left. *)
Lemma drained_rest fd f rest v v' : v' = set_fds (<[fd := with_rest f rest]> (v_fds v)) v ->
  v_fds v' !! fd = Some (with_rest f rest) /\ drained fd (with_rest f rest) v' = drained fd f v.
Proof. intros ->. cbn. rewrite lookup_insert_eq. split; [done|]. apply drained_again. Qed.

(** A reading loop: [step] asks for some bytes and, unless the file has ended, writes [out] and
    goes on from the state [next]; the text and the last state follow from the bytes alone. *)
Section ReadLoop.
Context {I R : Type} (step : I -> uprog (I + R)) (fd : Z).
Context (good : I -> list Z -> Prop) (text : I -> list Z -> list Z) (final : I -> list Z -> R -> Prop).
Definition turn : Prop := forall i f w (Q : outcome (I + R) -> W -> Prop),
  v_fds (view w) !! fd = Some f -> good i (of_rest f) -> accepts 1 (length (text i (of_rest f))) (view w) ->
  (of_rest f = [] -> forall r w', final i [] r -> view w' = emit 1 (text i []) (drained fd f (view w)) -> Q (Val (inr r)) w') ->
  (forall l rest out j w', l <> [] -> of_rest f = l ++ rest -> good j rest ->
     text i (l ++ rest) = out ++ text j rest -> (forall r, final j rest r -> final i (l ++ rest) r) ->
     view w' = emit 1 out (set_fds (<[fd := with_rest f rest]> (v_fds (view w))) (view w)) -> Q (Val (inl j)) w') ->
  ends (step i) w Q.

Lemma ends_read_loop i f w (Q : outcome R -> W -> Prop) : turn ->
  v_fds (view w) !! fd = Some f -> good i (of_rest f) -> accepts 1 (length (text i (of_rest f))) (view w) ->
  (forall r w', final i (of_rest f) r -> view w' = emit 1 (text i (of_rest f)) (drained fd f (view w)) -> Q (Val r) w') ->
  ends (ITree.iter step i) w Q.
Proof.
  intros Hturn. remember (length (of_rest f)) as len eqn:Hlen. revert i f w Hlen.
  induction len as [len IH] using lt_wf_ind. intros i f w Hlen Hfd Hg Ha HQ.
  apply ends_iter. apply (Hturn i f w); [done..| |].
  - intros Hnil r w' Hr Hw'. rewrite Hnil in HQ. by apply HQ.
  - intros l rest out j w' Hl Hrest Hgj Ht Hr Hw'.
    destruct (drained_rest fd f rest (view w) _ eq_refl) as [H1 H2].
    apply (IH (length rest)) with (f := with_rest f rest).
    + subst len. rewrite Hrest, length_app. destruct l; [done|]. cbn. lia.
    + done.
    + by rewrite Hw'.
    + done.
    + rewrite Hw'. apply accepts_emit. rewrite Hrest, Ht, length_app in Ha. exact Ha.
    + intros r w2 Hfin E2. cbn [with_rest of_rest] in E2, Hfin. rewrite Hrest in HQ. apply HQ; [by apply Hr|]. rewrite E2, Hw'. unfold drained in *. rewrite set_fds_emit, emit_emit, <-Ht.
      f_equal. exact H2.
Qed.
End ReadLoop.

Lemma ends_cat fd f w (Q : outcome unit -> W -> Prop) :
  v_fds (view w) !! fd = Some f -> accepts 1 (length (of_rest f)) (view w) ->
  (forall w', view w' = emit 1 (of_rest f) (drained fd f (view w)) -> Q (Val tt) w') -> ends (cat fd) w Q.
Proof.
  intros Hf Ha HQ. unfold cat. tstep.
  apply (ends_read_loop _ fd (fun _ _ => True) (fun _ l => l) (fun _ _ r => r = 0)) with (f := f); [|done|done|done|].
  - intros [] f' w1 Q' Hf' _ Ha' Hend Hgo. tstep. eapply ends_read; [done|]. intros l rest w2 Hrest _ Hne _ E2.
    destruct l as [|x l].
    + destruct (of_rest f') as [|y r] eqn:Er; [|by destruct Hne]. tstep. apply Hend; [done..|]. rewrite E2, emit_nil.
      unfold drained. cbn in Hrest. by subst rest.
    + tstep. rewrite Hrest, length_app in Ha'. apply ends_write.
      { rewrite E2. by eapply accepts_mono; [exact Ha'|lia]. }
      intros w3 E3. rewrite Z.eqb_refl. cbn [negb]. tstep. apply (Hgo (x :: l) rest (x :: l)); [done..|]. by rewrite E3, E2.
  - intros r w' -> E'. cbn. tstep. by apply HQ.
Qed.

(** ** Words and lines, by definition *)
Definition is_blank (x : Z) : bool := bool_decide (x ∈ blanks).
(** The pieces between blanks, the empty ones included; the words are the others. *)
Fixpoint split_blanks (l : list Z) : list (list Z) :=
  match l with
  | [] => [[]]
  | x :: l' =>
      if is_blank x then [] :: split_blanks l'
      else match split_blanks l' with h :: t => (x :: h) :: t | [] => [[x]] end
  end.
Definition words (l : list Z) : list (list Z) := List.filter (fun p => negb (bool_decide (p = []))) (split_blanks l).
Definition newlines (l : list Z) : list Z := List.filter (fun x => x =? 10) l.

(** What [wc] prints for a file. *)
Definition wc_text (name data : list Z) : list Z :=
  dec (Z.of_nat (length (newlines data))) ++ [32] ++ dec (Z.of_nat (length (words data))) ++ [32] ++
  dec (Z.of_nat (length data)) ++ [32] ++ chars name ++ [10].

Lemma count_char_blank s x : count_char s x =
  Counts (if x =? 10 then s32 (c_l s + 1) else c_l s)
    (if is_blank x || c_inword s then c_w s else s32 (c_w s + 1)) (s32 (c_c s + 1)) (negb (is_blank x)).
Proof.
  unfold count_char. assert (Hb : (exists k, strchr blanks x = Some k) <-> is_blank x = true).
  { unfold is_blank. rewrite bool_decide_eq_true. destruct (decide (x = 0)) as [->|Hx].
    - split; [by intros [? ?]|]. intros Hin. repeat (apply elem_of_cons in Hin as [Hin|Hin]; [done|]). by apply elem_of_nil in Hin.
    - rewrite <-(strchr_in blanks x); [|by apply (bool_decide_unpack (0 ∉ blanks))|done].
      destruct (strchr blanks x); [by split; [|eauto]|by split; [intros [? ?]|]]. }
  destruct (strchr blanks x) as [k|].
  - assert (is_blank x = true) as -> by (apply Hb; by exists k). done.
  - destruct (is_blank x); [by destruct Hb as [_ [? ?]]|]. cbn. by destruct (c_inword s).
Qed.

Lemma s32_add a b : s32 (s32 a + b) = s32 (a + b).
Proof.
  unfold s32. f_equal. replace ((a + 2 ^ 31) mod 2 ^ 32 - 2 ^ 31 + b + 2 ^ 31) with ((a + 2 ^ 31) mod 2 ^ 32 + b) by lia.
  rewrite Zplus_mod_idemp_l. f_equal. lia.
Qed.

Definition in_word (l : list Z) : bool := match last l with Some x => negb (is_blank x) | None => false end.

Lemma split_blanks_cons l : exists h t, split_blanks l = h :: t.
Proof. destruct l as [|x l]; cbn; [by eauto|]. destruct (is_blank x); [by eauto|]. destruct (split_blanks l); eauto. Qed.

(** The last piece is not empty exactly inside a word. *)
Lemma split_blanks_snoc l : exists init t, split_blanks l = init ++ [t] /\ in_word l = negb (bool_decide (t = [])) /\
  forall x, split_blanks (l ++ [x]) = if is_blank x then init ++ [t; []] else init ++ [t ++ [x]].
Proof.
  induction l as [|y l (init & t & E & Ht & Hs)].
  { exists [], []. split; [done|]. split; [done|]. intros x. cbn. by destruct (is_blank x). }
  assert (Hl : in_word (y :: l) = if bool_decide (l = []) then negb (is_blank y) else in_word l).
  { unfold in_word. destruct l as [|z l]; [done|]. by rewrite last_cons_cons. }
  cbn [split_blanks app]. rewrite Hl. destruct (is_blank y) eqn:Ey.
  - exists ([] :: init), t. rewrite E. split; [done|]. split.
    + destruct l; [|done]. cbn in E. destruct init as [|? [|]]; simplify_eq/=. done.
    + intros x. rewrite Hs. by destruct (is_blank x).
  - rewrite E. destruct init as [|h init].
    + exists [], (y :: t). split; [done|]. split.
      * destruct l as [|z l]; [done|]. cbn in E |- *. rewrite Ht. cbn in E. destruct (is_blank z).
        -- injection E as _ E. by destruct (split_blanks_cons l) as (? & ? & Es); rewrite Es in E.
        -- by destruct (split_blanks l); simplify_eq/=.
      * intros x. rewrite Hs. cbn. by destruct (is_blank x).
    + exists ((y :: h) :: init), t. split; [done|]. split.
      * destruct l; [by destruct init|]. done.
      * intros x. rewrite Hs. cbn. by destruct (is_blank x).
Qed.

Lemma words_snoc l x :
  length (words (l ++ [x])) = (length (words l) + if is_blank x || in_word l then 0 else 1)%nat.
Proof.
  destruct (split_blanks_snoc l) as (init & t & E & Hw & Hs). unfold words. rewrite Hs, E, Hw.
  assert (Hf : forall (a b : list (list Z)) p, List.filter p (a ++ b) = List.filter p a ++ List.filter p b) by (intros; apply List.filter_app).
  destruct (is_blank x); rewrite !Hf, !length_app; cbn; [destruct t; cbn; lia|].
  rewrite (bool_decide_false (t ++ [x] = [])) by (by destruct t). destruct t; cbn; lia.
Qed.
Lemma newlines_snoc l x : length (newlines (l ++ [x])) = (length (newlines l) + if (x =? 10)%Z then 1 else 0)%nat.
Proof. unfold newlines. rewrite List.filter_app, length_app. cbn. by destruct (x =? 10). Qed.

Lemma counts_of l : fold_left count_char l (Counts 0 0 0 false) =
  Counts (s32 (Z.of_nat (length (newlines l)))) (s32 (Z.of_nat (length (words l)))) (s32 (Z.of_nat (length l))) (in_word l).
Proof.
  induction l as [|x l IH] using rev_ind; [done|].
  rewrite fold_left_app, IH. cbn [fold_left]. rewrite count_char_blank. cbn [c_l c_w c_c c_inword].
  rewrite words_snoc, newlines_snoc, length_app, !s32_add. unfold in_word at 3. rewrite last_snoc. cbn [length].
  rewrite !Nat2Z.inj_add. by destruct (x =? 10), (is_blank x || in_word l); cbn [Z.of_nat]; rewrite ?Z.add_0_r.
Qed.

Lemma dec_s32 v : dec (s32 v) = dec v.
Proof. unfold dec. pose proof (s32_add v 0) as E. rewrite !Z.add_0_r in E. by rewrite E. Qed.

Lemma ends_wc fd f name w (Q : outcome unit -> W -> Prop) :
  v_fds (view w) !! fd = Some f -> accepts 1 (length (wc_text name (of_rest f))) (view w) ->
  (forall w', view w' = emit 1 (wc_text name (of_rest f)) (drained fd f (view w)) -> Q (Val tt) w') ->
  ends (wc fd name) w Q.
Proof.
  intros Hf Ha HQ. unfold wc. tstep.
  apply (ends_read_loop _ fd (fun _ _ => True) (fun _ _ => []) (fun s l r => r = Some (fold_left count_char l s))) with (f := f);
    [|done|done|by eapply accepts_mono; [exact Ha|cbn; lia]|].
  - intros s f' w1 Q' Hf' _ Ha' Hend Hgo. tstep. eapply ends_read; [done|]. intros l rest w2 Hrest _ Hne _ E2.
    destruct l as [|x l].
    + destruct (of_rest f') as [|y r] eqn:Er; [|by destruct Hne]. tstep. apply Hend; [done..|]. rewrite E2, emit_nil.
      unfold drained. cbn in Hrest. by subst rest.
    + tstep. apply (Hgo (x :: l) rest []); [done..| |].
      * by rewrite fold_left_app.
      * by rewrite E2, emit_nil.
  - intros r w' -> E'. rewrite emit_nil in E'. rewrite counts_of. cbn [c_l c_w c_c].
    eapply ends_fprintf; [apply print_counts| |]; rewrite !dec_s32.
    + rewrite E'. exact Ha.
    + intros w2 E2. apply HQ. rewrite E2, E'. done.
Qed.
End Cat.

(** ** cat and wc on their arguments *)
Definition cat_missing (f : list Z) : list Z := str "cat: cannot open " ++ chars f ++ [10].
Definition wc_missing (f : list Z) : list Z := str "wc: cannot open " ++ chars f ++ [10].
Definition grep_missing (f : list Z) : list Z := str "grep: cannot open " ++ chars f ++ [10].
Lemma print_cat_missing f : vprintf (line "cat: cannot open %s") [AStr (Some f)] = Some (cat_missing f).
Proof. run_format. Qed.
Lemma print_wc_missing f : vprintf (line "wc: cannot open %s") [AStr (Some f)] = Some (wc_missing f).
Proof. run_format. Qed.
Lemma print_grep_missing f : vprintf (line "grep: cannot open %s") [AStr (Some f)] = Some (grep_missing f).
Proof. run_format. Qed.

(** ** grep *)
Lemma grep_lines_out fuel pat buf p out : grep_lines fuel pat buf p out =
  let r := grep_lines fuel pat buf p [] in (r.1, out ++ r.2).
Proof.
  revert buf p out. induction fuel as [|fuel IH]; intros buf p out; cbn [grep_lines]; [by rewrite app_nil_r|].
  destruct (strchr (drop p buf) 10) as [k|]; [|cbn; by rewrite app_nil_r].
  destruct (match_ pat _); [|by rewrite IH]. rewrite IH, (IH _ _ ([] ++ _)). cbn. by rewrite app_assoc.
Qed.

Section Grep.
Context {W : Type} `{KernelLaws W}.
Implicit Types w : W.

(** The lines written are those of the pure loop. *)
Lemma ends_grep_lines fuel pat buf p w (Q : outcome (list Z * nat) -> W -> Prop) :
  let r := grep_lines fuel pat buf p [] in accepts 1 (length r.2) (view w) ->
  (forall w', view w' = emit 1 r.2 (view w) -> Q (Val r.1) w') -> ends (grep_lines_io fuel pat buf p) w Q.
Proof.
  revert buf p w. induction fuel as [|fuel IH]; intros buf p w r Ha HQ; subst r; cbn [grep_lines grep_lines_io] in *.
  { tstep. apply HQ. by rewrite emit_nil. }
  destruct (strchr (drop p buf) 10) as [k|]; [|tstep; apply HQ; by rewrite emit_nil].
  destruct (match_ pat _); [|by apply IH]. rewrite grep_lines_out in Ha, HQ. cbn [fst snd app] in Ha, HQ. rewrite length_app in Ha.
  tstep. apply ends_write; [by eapply accepts_mono; [exact Ha|lia]|]. intros w1 E1.
  apply IH; [rewrite E1; by apply accepts_emit|]. intros w2 E2. apply HQ. by rewrite E2, E1, emit_emit.
Qed.

(** A state of the loop: [m] bytes of an unfinished line at the start of the buffer. *)
Definition partial (i : list Z * Z) (rest : list Z) : Prop :=
  exists part junk, i = (part ++ junk, Z.of_nat (length part)) /\ length i.1 = Z.to_nat GBUF /\
    10 ∉ part /\ 0 ∉ part ++ rest /\ short_lines (part ++ rest).
Definition grep_text (pat : list Z) (i : list Z * Z) (rest : list Z) : list Z := grep_spec pat (take (Z.to_nat i.2) i.1 ++ rest).

Lemma ends_grep pat fd f buf w (Q : outcome (list Z) -> W -> Prop) :
  v_fds (view w) !! fd = Some f -> length buf = Z.to_nat GBUF -> 0 ∉ of_rest f -> short_lines (of_rest f) ->
  accepts 1 (length (grep_spec pat (of_rest f))) (view w) ->
  (forall buf' w', length buf' = Z.to_nat GBUF ->
     view w' = emit 1 (grep_spec pat (of_rest f)) (drained fd f (view w)) -> Q (Val buf') w') ->
  ends (grep_io pat fd buf) w Q.
Proof.
  intros Hf Hlen Hz Hs Ha HQ. unfold grep_io.
  apply (ends_read_loop _ fd partial (grep_text pat) (fun _ _ r => length r = Z.to_nat GBUF)) with (f := f);
    [|done|exists [], buf; by repeat split; [|apply not_elem_of_nil|..]|exact Ha|by intros r w' Hr Hw'; apply HQ].
  clear Hf Hlen Hz Hs Ha HQ f w Q buf. intros i f w Q Hf (part & junk & -> & Hlen & Hp & Hz & Hs) Ha Hend Hgo. cbn [fst] in Hlen.
  pose proof (short_lines_head _ _ Hp Hs) as Hm. tstep. eapply ends_read; [done|]. intros l rest w1 Hrest Hl Hne _ E1.
  assert (Hpart : take (Z.to_nat (Z.of_nat (length part))) (part ++ junk) = part) by (by rewrite Nat2Z.id, take_app_length).
  destruct l as [|x l].
  { destruct (of_rest f) as [|y r] eqn:Er; [|by destruct Hne; [unfold GBUF in *; lia|..]].
    tstep. apply Hend; [done..|]. unfold grep_text. cbn [fst snd]. rewrite Hpart, app_nil_r, grep_spec_tail, emit_nil, E1 by done.
    unfold drained. cbn in Hrest. by subst rest. }
  destruct (refill part (x :: l) junk Hlen) as (junk' & Eb & Hlen'); [lia|]. rewrite Eb.
  destruct (grep_lines_spec pat (length ((part ++ x :: l) ++ 0 :: junk')) [] (part ++ x :: l) junk' [])
    as (buf' & d & tail & g & El & Hd & Ht & Hbl & Hdr & Hg).
  { rewrite (length_app (part ++ x :: l)). cbn [length]. lia. }
  { intros Hin. apply Hz. rewrite Hrest, app_assoc. apply elem_of_app. by left. }
  cbn [app length] in El, Hdr, Hbl. cbn [Nat.add] in El, Hdr. destruct (Hg rest) as [Hg1 Hg2].
  assert (Etext : grep_text pat (part ++ junk, Z.of_nat (length part)) ((x :: l) ++ rest) = g ++ grep_spec pat (tail ++ rest)).
  { unfold grep_text. cbn [fst snd]. by rewrite Hpart, app_assoc. }
  tstep. apply ends_grep_lines; rewrite El; cbn [fst snd].
  { rewrite E1. rewrite Hrest, Etext, length_app in Ha. by eapply accepts_mono; [exact Ha|lia]. }
  intros w2 E2. destruct (Z.ltb_spec 0 (Z.of_nat (length part) + Z.of_nat (length (x :: l)))) as [_|]; [|cbn [length] in *; lia].
  assert (Hdl : (length d + length tail = length part + length (x :: l))%nat).
  { apply (f_equal length) in Hd. rewrite !length_app in Hd. lia. }
  assert (Hmt : Z.of_nat (length part) + Z.of_nat (length (x :: l)) - Z.of_nat (length d) = Z.of_nat (length tail)) by lia.
  rewrite Hmt, Nat2Z.id. unfold move_down. rewrite Hdr, take_app_length.
  tstep. apply (Hgo (x :: l) rest g); [done|done| | |done|by rewrite E2, E1].
  - exists tail, (drop (length tail) buf'). split; [done|]. cbn [fst]. repeat split; [|done| |].
    + rewrite length_app, length_drop, Hbl, Hlen'. rewrite <-Hlen', !length_app. cbn [length] in *. lia.
    + intros Hin. apply Hz. rewrite Hrest, app_assoc, Hd. apply elem_of_app in Hin. rewrite !elem_of_app. tauto.
    + unfold short_lines in *. rewrite Hrest, app_assoc in Hs. apply Forall_forall. intros y Hy. apply Hg2 in Hy.
      by eapply Forall_forall in Hs.
  - rewrite Etext. unfold grep_text. cbn [fst snd]. by rewrite Nat2Z.id, take_app_length.
Qed.
Lemma ends_grep_files pat files buf w (Q : outcome unit -> W -> Prop) : length buf = Z.to_nat GBUF -> spare 1 (view w) ->
  let r := till_missing (v_names (view w)) files in
  let out := concat (map (fun x => grep_spec pat x.2) r.1) in
  Forall (fun x => 0 ∉ x.2 /\ short_lines x.2) r.1 ->
  accepts 1 (length out + length (from_option grep_missing [] r.2)) (view w) ->
  (forall w', view w' = emit 1 (out ++ from_option grep_missing [] r.2) (view w) ->
     Q (match r.2 with None => Val tt | Some _ => Exited 1 end) w') ->
  ends (grep_files pat files buf) w Q.
Proof.
  revert buf w. induction files as [|f files IH]; intros buf w Hlen Hs r out Hok Ha HQ; cbn [grep_files].
  { tstep. apply HQ. by rewrite emit_nil. }
  subst r out. cbn [till_missing] in *. tstep. destruct (v_names (view w) !! f) as [n|] eqn:Hn.
  - cbn [fst snd map concat] in Hok, Ha, HQ. set (r := till_missing (v_names (view w)) files) in *.
    apply Forall_cons in Hok as [[Hz Hl] Hok]. cbn [snd] in Hz, Hl. rewrite length_app in Ha.
    apply (ends_open _ _ n); [done..|]. intros fd w1 Hpos Hfd Hk E1. destruct (Z.ltb_spec fd 0); [lia|].
    tstep. apply (ends_grep pat fd (OFile (Some n.1) true n.2)); [by rewrite E1; cbn; rewrite lookup_insert_eq|done..| |].
    { rewrite E1. eapply accepts_mono; [exact Ha|cbn [of_rest]; lia]. }
    intros buf' w2 Hlen' E2. cbn [of_rest] in E2. unfold drained in E2. rewrite E1 in E2. cbn in E2. rewrite insert_insert_eq, set_fds_set_fds in E2.
    tstep. eapply ends_close; [rewrite E2; cbn; by rewrite lookup_insert_eq|rewrite E2; cbn; by rewrite lookup_alter_None|].
    intros c w3 E3. rewrite E2 in E3. cbn in E3. rewrite delete_insert_id in E3 by done.
    rewrite set_fds_emit, set_fds_set_fds, set_fds_id in E3.
    assert (Hna : v_names (view w3) = v_names (view w)) by by rewrite E3.
    apply IH; rewrite ?Hna; rewrite ?E3, ?emit_emit; fold r; [done| |done| |].
    + unfold spare in *. by rewrite dom_sinks_emit.
    + apply accepts_emit. by rewrite Nat.add_assoc.
    + intros w' E'. apply HQ. by rewrite E', <-app_assoc.
  - cbn [fst snd map concat app from_option length] in Ha, HQ. apply ends_open_missing; [done|]. intros c w1 Hc E1.
    destruct (Z.ltb_spec c 0); [|lia]. tstep.
    eapply ends_fprintf; [apply print_grep_missing|by rewrite E1|]. intros w2 E2. tstep. apply HQ. by rewrite E2, E1.
Qed.
End Grep.

Section Mains.
Context {W : Type} `{KernelLaws W}.
Implicit Types w : W.

(** With a list of files as arguments: [cat] copies them to its output, in order. *)
Lemma cat_copies w name files : files <> [] -> spare 1 (view w) ->
  let r := till_missing (v_names (view w)) files in
  let out := concat (map snd r.1) in
  accepts 1 (length out) (view w) -> (forall f, r.2 = Some f -> accepts 2 (length (cat_missing f)) (view w)) ->
  exists w', runs (cat_main (name :: files)) w (Exited (match r.2 with None => 0 | Some _ => 1 end)) w' /\
    view w' = match r.2 with None => emit 1 out (view w) | Some f => emit 2 (cat_missing f) (emit 1 out (view w)) end.
Proof.
  intros Hne Hs r out Ha He.
  assert (Hends : ends (cat_main (name :: files)) w (fun o w' => o = Exited (match r.2 with None => 0 | Some _ => 1 end) /\
    view w' = match r.2 with None => emit 1 out (view w) | Some f => emit 2 (cat_missing f) (emit 1 out (view w)) end)).
  { unfold cat_main. rewrite bool_decide_false by done. cbn [tl]. tstep.
    apply (ends_each_file (fun fd _ => cat fd) (fun _ l => l) 2 _ cat_missing); [|apply print_cat_missing|done|exact Ha| |].
    - intros fd nm f w1 Q. apply ends_cat.
    - intros f Hf. destruct (He f Hf) as (k & Hk & Hl). exists k. by unfold emit; cbn; rewrite lookup_alter_ne.
    - intros w' E'. fold r in E' |- *. destruct r.2; [done|]. tstep. done. }
  destruct Hends as (o & w' & Hr & -> & Hv). by exists w'.
Qed.

(** C29: [wc] reports for each of its files, or for its standard input, the number of newlines,
    of words (the non-empty pieces between blanks, tabs, carriage returns, newlines and vertical
    tabs) and of bytes, as [int]s, with its name, whatever the sizes in which the bytes arrive;
    it stops with status 1 at the first file that cannot be opened, after a message, and closes
    what it opened. *)
Theorem wc_counts w name :
  (forall f, v_fds (view w) !! 0 = Some f -> accepts 1 (length (wc_text [] (of_rest f))) (view w) ->
     exists w', runs (wc_main [name]) w (Exited 0) w' /\
       view w' = emit 1 (wc_text [] (of_rest f)) (drained 0 f (view w))) /\
  (forall files, files <> [] -> spare 1 (view w) ->
     let r := till_missing (v_names (view w)) files in
     let out := concat (map (fun x => wc_text x.1 x.2) r.1) ++ from_option wc_missing [] r.2 in
     accepts 1 (length out) (view w) ->
     exists w', runs (wc_main (name :: files)) w (Exited (match r.2 with None => 0 | Some _ => 1 end)) w' /\
       view w' = emit 1 out (view w)).
Proof.
  split.
  - intros f Hf Ha. apply (ends_exists (wc_main [name]) w (Exited 0) (fun v => v = _)). unfold wc_main.
    rewrite bool_decide_true by done. tstep. apply (ends_wc 0 f); [done..|]. intros w' E'. by tstep.
  - intros files Hne Hs r out Ha. apply (ends_exists (wc_main (name :: files)) w _ (fun v => v = _)).
    unfold wc_main. rewrite bool_decide_false by done. cbn [tl]. tstep. unfold out in Ha. rewrite length_app in Ha.
    apply (ends_each_file wc wc_text 1 _ wc_missing); [|apply print_wc_missing|done| | |].
    + intros fd nm f w1 Q. apply ends_wc.
    + by eapply accepts_mono; [exact Ha|unfold text_of; fold r; lia].
    + intros f Hf. apply accepts_emit. fold r in Hf. rewrite Hf in Ha. exact Ha.
    + intros w' E'. fold r in E' |- *. unfold out. destruct r.2 as [f|]; cbn [from_option]; [by rewrite E', emit_emit|].
      rewrite app_nil_r. by tstep.
Qed.

End Mains.

(** A small world: two files, an input that arrives in pieces, and two sinks. *)
Definition demo_world : mem := Mem {|
  v_names := <[str "a" := (mkstat 1 5 T_FILE 1 8, str "one two" ++ [10])]>
    (<[str "b" := (mkstat 1 6 T_FILE 1 12, str "tone" ++ [9; 10] ++ str "xx yy ")]> ∅);
  v_fds := {[0 := OFile None false (str "p q" ++ [10] ++ str "tone")]};
  v_sinks := <[1 := Sink [] 60]> {[2 := Sink [] 60]} |} [2%nat; 0%nat; 3%nat].

Lemma demo_accepts n (l : list Z) : bool_decide (length l = n /\ n <= 60)%nat = true -> accepts 1 (length l) (view demo_world).
Proof. intros H%bool_decide_eq_true. exists (Sink [] 60). split; [done|]. cbn. lia. Qed.
Lemma demo_spare n : (n <= 13)%nat -> spare n (view demo_world).
Proof. intros Hn. unfold spare. change (size _) with 3%nat. change NOFILE with 16%nat. lia. Qed.

Lemma wc_counts_witness :
  (exists w', runs (wc_main [str "wc"]) demo_world (Exited 0) w' /\ written 1 (view w') = str "1 3 8 " ++ [10]) /\
  (exists w', runs (wc_main [str "wc"; str "a"; str "b"; str "c"; str "a"]) demo_world (Exited 1) w' /\
     written 1 (view w') = str "1 2 8 a" ++ [10] ++ str "1 3 12 b" ++ [10] ++ str "wc: cannot open c" ++ [10]).
Proof.
  destruct (wc_counts demo_world (str "wc")) as [H1 H2]. split.
  - destruct (H1 (OFile None false (str "p q" ++ [10] ++ str "tone")) eq_refl) as (w' & Hr & Hv).
    + apply (demo_accepts 7). vm_compute. reflexivity.
    + exists w'. split; [exact Hr|]. rewrite Hv. vm_compute. reflexivity.
  - destruct (H2 [str "a"; str "b"; str "c"; str "a"]) as (w' & Hr & Hv).
    + discriminate.
    + apply demo_spare. lia.
    + apply (demo_accepts 35). vm_compute. reflexivity.
    + exists w'. split; [exact Hr|]. rewrite Hv. vm_compute. reflexivity.
Defined.

Lemma demo_lines (l : list Z) : bool_decide (0 ∉ l /\ Forall (fun x => Z.of_nat (length x) <= 1022) (split_on 10 l)) = true -> 0 ∉ l /\ short_lines l.
Proof. by intros H%bool_decide_eq_true. Qed.

