(* ===== verification/Uls.v ===== *)
(** * ls, on any kernel that keeps its promises *)

From ITree Require Import ITree ITreeFacts.
From S2P Require Import Prelude Kstring State Console Fs Sysfile Ulib Uprintf Grep Uprog Urun Ufiles.

(** ** Strings *)
Lemma strlen_from_len s n r : 0 ∉ s -> 0 <= n -> n + Z.of_nat (length s) < 2 ^ 31 -> (r = [] \/ hd 0 r = 0) ->
  strlen_from n (s ++ r) = n + Z.of_nat (length s).
Proof.
  revert n. induction s as [|c s IH]; intros n Hz Hn Hl Hr; cbn [app strlen_from].
  - cbn. destruct r as [|x r]; cbn; [lia|]. destruct Hr as [Hr|Hr]; [done|]. cbn in Hr. subst x. cbn. lia.
  - apply not_elem_of_cons in Hz as [Hc Hz]. destruct (Z.eqb_spec c 0); [congruence|]. cbn [negb].
    rewrite length_cons in *. rewrite s32_small by lia. rewrite IH; [lia|done|lia|lia|done].
Qed.
Lemma strlen_len s r : 0 ∉ s -> Z.of_nat (length s) < 2 ^ 31 -> (r = [] \/ hd 0 r = 0) -> strlen (s ++ r) = Z.of_nat (length s).
Proof. intros Hz Hl Hr. unfold strlen. rewrite strlen_from_len by (done || lia). rewrite u32_small; lia. Qed.

Lemma chars_nul s r : 0 ∉ s -> chars (s ++ 0 :: r) = s.
Proof.
  unfold chars. induction s as [|c s IH]; intros Hz; [done|]. apply not_elem_of_cons in Hz as [Hc Hz]. cbn.
  destruct (Z.eqb_spec c 0); [congruence|]. by rewrite IH.
Qed.

Lemma strcpy_ok s t : 0 ∉ t -> (length t < length s)%nat -> strcpy s t = Some (t ++ 0 :: drop (S (length t)) s).
Proof.
  revert s. induction t as [|c t IH]; intros s Hz Hl; destruct s as [|x s]; cbn [length] in Hl; [lia|done|lia|].
  apply not_elem_of_cons in Hz as [Hc Hz]. cbn [strcpy hd tl]. destruct (Z.eqb_spec c 0); [congruence|].
  rewrite IH by (done || lia). done.
Qed.

(** ** Names in a listing *)

(** A name padded with blanks to the width of the column. *)
Definition padded (name : list Z) : list Z := name ++ replicate (14 - length name) 32.

Lemma after_slash_name dir name k : 47 ∉ name -> (k <= length name)%nat -> 
  after_slash (S (length dir) + k) (dir ++ 47 :: name) = S (length dir).
Proof.
  intros Hn. induction k as [|k IH]; intros Hk.
  - rewrite Nat.add_0_r. cbn [after_slash]. destruct (Z.eqb_spec (nth (S (length dir)) (dir ++ 47 :: name) 0) 47) as [E|_].
    + exfalso. rewrite app_nth2 in E by lia. replace (S (length dir) - length dir)%nat with 1%nat in E by lia. cbn in E.
      destruct name as [|x name]; cbn in E; [done|]. subst x. apply Hn. by left.
    + destruct (length dir) eqn:E; cbn [after_slash]; [|].
      * destruct dir; [|done]. done.
      * rewrite <-E. rewrite app_nth2, Nat.sub_diag by lia. done.
  - rewrite Nat.add_succ_r. cbn [after_slash Nat.add].
    destruct (Z.eqb_spec (nth (S (S (length dir + k))) (dir ++ 47 :: name) 0) 47) as [E|_]; [|by apply IH; lia].
    exfalso. rewrite app_nth2 in E by lia. replace (S (S (length dir + k)) - length dir)%nat with (S (S k)) in E by lia.
    cbn in E. destruct (Nat.lt_ge_cases (S k) (length name)).
    + apply Hn. rewrite <-E. apply list_elem_of_In. by apply nth_In.
    + rewrite nth_overflow in E by lia. done.
Qed.
Lemma after_slash_none name k : 47 ∉ name -> after_slash k name = 0%nat.
Proof.
  intros Hn. assert (Hk : forall k, (nth k name 0 =? 47) = false).
  { intros j. apply Z.eqb_neq. intros E. destruct (Nat.lt_ge_cases j (length name)) as [Hj|Hj].
    - apply Hn. rewrite <-E. apply list_elem_of_In. by apply nth_In.
    - by rewrite nth_overflow in E by lia. }
  induction k as [|k IH]; cbn [after_slash]; by rewrite Hk.
Qed.

(** What follows the last slash of a path. *)
Definition basename (path name : list Z) : Prop :=
  47 ∉ name /\ (path = name \/ exists dir, path = dir ++ 47 :: name).

Lemma fmtname_spec path name : 0 ∉ path -> Z.of_nat (length path) < 2 ^ 31 -> basename path name ->
  fmtname path = padded name.
Proof.
  intros Hz Hl [Hn Hp]. unfold fmtname. pose proof (strlen_len path [] Hz Hl (or_introl eq_refl)) as E. rewrite app_nil_r in E.
  rewrite E, Nat2Z.id.
  assert (Hd : drop (after_slash (length path) path) path = name).
  { destruct Hp as [->|[dir ->]]; [by rewrite after_slash_none by done|].
    replace (length (dir ++ 47 :: name)) with (S (length dir) + length name)%nat by (rewrite length_app; cbn; lia).
    rewrite after_slash_name by (done || lia). rewrite <-(drop_app_length (dir ++ [47]) name) at 2.
    rewrite length_app, <-app_assoc. cbn [length app]. by rewrite Nat.add_1_r. }
  assert (Hzn : 0 ∉ name) by (destruct Hp as [->|[dir ->]]; [done|]; intros Hin; apply Hz; apply elem_of_app; right; by right).
  assert (Hln : (length name <= length path)%nat) by (destruct Hp as [->|[dir ->]]; [done|]; rewrite length_app; cbn; lia).
  rewrite Hd. pose proof (strlen_len name [] Hzn ltac:(lia) (or_introl eq_refl)) as En. rewrite app_nil_r in En. rewrite En.
  unfold padded. destruct (Z.leb_spec 14 (Z.of_nat (length name))).
  - replace (14 - length name)%nat with 0%nat by lia. by rewrite app_nil_r, chars_nul0.
  - rewrite Nat2Z.id, take_ge, app_assoc by lia. apply chars_nul. rewrite elem_of_app.
    intros [?|Hin]; [done|]. by apply elem_of_replicate in Hin as [? _].
Qed.

(** ** What is printed for a path *)
Definition entry_line (name : list Z) (st : stat) : list Z :=
  padded name ++ [32] ++ dec (st_type st) ++ [32] ++ dec (st_ino st) ++ [32] ++ dec (st_size st) ++ [10].

(** The name in a directory entry ends at its first NUL, or after 14 characters. *)
Definition entry_name (de : list Z) : list Z := chars (take 14 (de_name de)).
Definition unlisted (q : list Z) : list Z := str "ls: cannot stat " ++ q ++ [10].
Definition entry_text (names : gmap (list Z) (stat * list Z)) (dir de : list Z) : list Z :=
  if de_inum de =? 0 then []
  else match names !! (dir ++ 47 :: entry_name de) with
       | Some n => entry_line (entry_name de) n.1
       | None => unlisted (dir ++ 47 :: entry_name de)
       end.

Lemma print_unlisted q r : 0 ∉ q -> vprintf (line "ls: cannot stat %s") [AStr (Some (q ++ 0 :: r))] = Some (unlisted q).
Proof.
  intros Hq. transitivity (Some (unlisted (chars (q ++ 0 :: r)))); [run_format|]. by rewrite chars_nul.
Qed.

Lemma chars_split l : exists r, (l = chars l ++ r /\ (r = [] \/ hd 1 r = 0)) /\ 0 ∉ chars l.
Proof.
  unfold chars. induction l as [|c l (r & (E & Hr) & Hz)]; [by exists []; repeat split; [left|apply not_elem_of_nil]|]. cbn.
  destruct (Z.eqb_spec c 0) as [->|Hc].
  - exists (0 :: l). repeat split; [by right|apply not_elem_of_nil].
  - exists r. split; [|by apply not_elem_of_cons]. split; [|done]. cbn. by rewrite <-E.
Qed.

(** The buffer of [ls] after an entry was copied in: the path of the entry, as a C string. *)
Lemma entry_path dir de buf : 0 ∉ dir -> length buf = 512%nat -> length de = 16%nat -> (length dir + 16 <= 512)%nat ->
  take (S (length dir)) buf = dir ++ [47] ->
  let buf' := <[(S (length dir) + 14)%nat := 0]> (splice (S (length dir)) (take 14 (de_name de)) buf) in
  exists r, buf' = (dir ++ 47 :: entry_name de) ++ 0 :: r /\ 0 ∉ dir ++ 47 :: entry_name de /\
    length buf' = 512%nat /\ take (S (length dir)) buf' = dir ++ [47].
Proof.
  intros Hz Hlen Hde Hroom Htake buf'. set (nm := take 14 (de_name de)) in *.
  assert (Hnm : length nm = 14%nat) by (unfold nm, de_name; rewrite length_take, length_drop; lia).
  assert (Hsp : splice (S (length dir)) nm buf = (dir ++ [47] ++ nm) ++ drop (S (length dir) + 14) buf).
  { unfold splice. by rewrite Htake, Hnm, <-!app_assoc. }
  destruct (drop (S (length dir) + 14) buf) as [|x tail] eqn:Ed.
  { apply (f_equal length) in Ed. rewrite length_drop in Ed. cbn in Ed. lia. }
  assert (Eb : buf' = (dir ++ [47] ++ nm) ++ 0 :: tail).
  { unfold buf'. rewrite Hsp. replace (S (length dir) + 14)%nat with (length (dir ++ [47] ++ nm)) by (rewrite !length_app, Hnm; cbn; lia).
    apply insert_mid. }
  assert (Hlt : length tail = (512 - S (S (length dir) + 14))%nat).
  { apply (f_equal length) in Ed. rewrite length_drop in Ed. cbn [length] in Ed. lia. }
  unfold entry_name. fold nm. destruct (chars_split nm) as (r & (En & Hr) & Hzn).
  assert (Hpz : 0 ∉ dir ++ 47 :: chars nm).
  { rewrite elem_of_app, elem_of_cons. intros [?|[?|?]]; done. }
  assert (Hend : exists r', (dir ++ [47] ++ nm) ++ 0 :: tail = (dir ++ 47 :: chars nm) ++ 0 :: r').
  { destruct r as [|c r].
    - rewrite app_nil_r in En. exists tail. by rewrite <-En.
    - destruct Hr as [Hr|Hr]; [done|]. cbn in Hr. subst c. exists (r ++ 0 :: tail). rewrite En at 1. by rewrite <-!app_assoc. }
  destruct Hend as [r' Er]. exists r'. rewrite Eb. split; [exact Er|]. split; [done|]. split.
  - rewrite !length_app. cbn [length]. lia.
  - replace ((dir ++ [47] ++ nm) ++ 0 :: tail) with ((dir ++ [47]) ++ nm ++ 0 :: tail) by (by rewrite <-!app_assoc). apply take_app_length'. rewrite length_app. cbn. lia.
Qed.

Lemma emit_comm fd fd' l l' v : fd <> fd' -> emit fd l (emit fd' l' v) = emit fd' l' (emit fd l v).
Proof.
  intros Hne. unfold emit, set_sinks. cbn. f_equal. by apply alter_alter_ne.
Qed.

Definition entries_ok (des : list (list Z)) : Prop :=
  Forall (fun de => length de = 16%nat /\ (de_inum de <> 0 -> 47 ∉ entry_name de)) des.

(** The directory entries in the contents of a directory. *)
Definition dir_entries (data : list Z) : list (list Z) :=
  map (fun i => take 16 (drop (16 * i) data)) (seq 0 (length data / 16)).
Lemma concat_entries data : (length data mod 16 = 0)%nat -> concat (dir_entries data) = data.
Proof.
  intros Hm. unfold dir_entries. assert (Hn : length data = (16 * (length data / 16))%nat) by (pose proof (Nat.div_mod_eq (length data) 16); lia).
  remember (length data / 16)%nat as n eqn:Heq. clear Heq Hm. revert data Hn. induction n as [|n IH]; intros data Hn; [by destruct data|].
  cbn [seq map concat]. rewrite Nat.mul_0_r, drop_0. etransitivity; [|apply (take_drop 16 data)]. f_equal.
  etransitivity; [|apply (IH (drop 16 data)); rewrite length_drop; lia]. rewrite <-seq_shift, map_map. f_equal. apply map_ext.
  intros i. rewrite drop_drop. do 2 f_equal. lia.
Qed.

(** What [ls] writes for a path to descriptors 1 and 2. *)
Definition base (path : list Z) : list Z := List.last (split_on 47 path) [].
Definition ls_out (names : gmap (list Z) (stat * list Z)) (path : list Z) : list Z :=
  match names !! path with
  | None => []
  | Some (st, data) =>
      if (st_type st =? T_DEVICE) || (st_type st =? T_FILE) then entry_line (base path) st
      else if st_type st =? T_DIR then
        if 512 <? Z.of_nat (length path) + 16 then line "ls: path too long"
        else concat (map (entry_text names path) (dir_entries data))
      else []
  end.
Definition ls_err (names : gmap (list Z) (stat * list Z)) (path : list Z) : list Z :=
  match names !! path with
  | None => str "ls: cannot open " ++ path ++ [10]
  | Some _ => []
  end.
Definition dirs_ok (names : gmap (list Z) (stat * list Z)) : Prop :=
  forall p st data, names !! p = Some (st, data) -> st_type st = T_DIR ->
    (length data mod 16 = 0)%nat /\ entries_ok (dir_entries data).
Definition path_ok (p : list Z) : Prop := 0 ∉ p /\ Z.of_nat (length p) < 2 ^ 31.

Lemma base_ok path : basename path (base path).
Proof.
  remember (length path) as n eqn:Hn. revert path Hn. induction n as [n IH] using lt_wf_ind. intros path ->. unfold base.
  destruct (decide (47 ∈ path)) as [Hin|Hin]; [|rewrite split_on_none by done; by split; [|left]].
  apply list_elem_of_split_l in Hin as (a & b & -> & Ha). rewrite split_on_app by done.
  assert (Hl : List.last (a :: split_on 47 b) [] = base b) by (unfold base; by destruct (split_on_cons 47 b) as (h & t & ->)).
  rewrite Hl. destruct (IH (length b)) with (path := b) as [H1 H2]; [rewrite length_app; cbn; lia|done|].
  split; [done|]. right. destruct H2 as [<-|[dir H2]]; [by exists a|]. exists (a ++ 47 :: dir). rewrite H2 at 1. by rewrite <-app_assoc.
Qed.

Section Ls.
Context {W : Type} `{KernelLaws W}.
Implicit Types w : W.

Lemma spare_drained n fd f v v' rest : v_fds v !! fd = Some f -> v' = set_fds (<[fd := with_rest f rest]> (v_fds v)) v ->
  spare n v -> spare n v'.
Proof.
  intros Hf -> Hs. unfold spare in *. cbn. rewrite dom_insert_lookup_L; [exact Hs|]. by exists f.
Qed.

Lemma ends_ls_line name st w (Q : outcome unit -> W -> Prop) : 0 ∉ name ->
  accepts 1 (length (entry_line name st)) (view w) ->
  (forall w', view w' = emit 1 (entry_line name st) (view w) -> Q (Val tt) w') -> ends (ls_line (padded name) st) w Q.
Proof.
  intros Hz Ha HQ. assert (Ep : chars (padded name) = padded name).
  { apply chars_nul0. unfold padded. rewrite elem_of_app, elem_of_replicate. by intros [?|[? _]]. }
  eapply ends_fprintf; [rewrite print_entry; change (default (str "(null)") (Some (padded name))) with (padded name); by rewrite Ep|exact Ha|exact HQ].
Qed.

(** The body of the loop, unfolded in its first turn only. *)
Ltac open_turn := match goal with |- ends ?t _ _ => let t' := eval unfold ls_entry in t in change t with t' end.

Lemma ends_ls_entries dir des fd f buf w (Q : outcome unit -> W -> Prop) :
  0 ∉ dir -> (length dir + 16 <= 512)%nat -> length buf = 512%nat -> take (S (length dir)) buf = dir ++ [47] ->
  v_fds (view w) !! fd = Some f -> of_disk f = true -> of_rest f = concat des -> entries_ok des -> spare 1 (view w) ->
  let text := concat (map (entry_text (v_names (view w)) dir) des) in
  accepts 1 (length text) (view w) ->
  (forall w', view w' = emit 1 text (drained fd f (view w)) -> Q (Val tt) w') ->
  ends (ITree.iter (ls_entry fd (S (length dir))) buf) w Q.
Proof.
  intros Hz Hroom. revert f buf w. induction des as [|de des IH]; intros f buf w Hlen Htake Hf Hd Hrest Hok Hs text Ha HQ;
    apply ends_iter; open_turn; tstep; eapply ends_read; try exact Hf; intros l rest w1 Hl Hle Hne Hdisk E1; specialize (Hdisk Hd).
  { rewrite Hrest in Hl. destruct l as [|x l]; [|done]. cbn [app concat] in Hl. subst rest.
    rewrite bool_decide_false by done. cbn [negb]. tstep. apply HQ. by rewrite E1, emit_nil. }
  apply Forall_cons in Hok as [[Hde Hname] Hok]. cbn [concat] in Hrest.
  change (Z.to_nat 16) with 16%nat in Hdisk. rewrite Hrest, <-Hde, take_app_length in Hdisk. subst l.
  rewrite Hrest in Hl. apply app_inv_head in Hl. subst rest.
  rewrite bool_decide_true by done. cbn [negb].
  destruct (drained_rest fd f (concat des) (view w) _ eq_refl) as [Hf1 Hdr]. rewrite <-E1 in Hf1, Hdr.
  pose proof (spare_drained 1 fd f _ _ _ Hf E1 Hs) as Hs1.
  assert (Hna : v_names (view w1) = v_names (view w)) by by rewrite E1.
  assert (Ha1 : forall n, accepts 1 n (view w) -> accepts 1 n (view w1)) by (intros n; by rewrite E1).
  subst text. cbn [map concat] in Ha, HQ. unfold entry_text at 1 in Ha. unfold entry_text at 1 in HQ.
  destruct (Z.eqb_spec (de_inum de) 0) as [_|Hi].
  { tstep. cbn [app] in Ha, HQ. eapply IH; rewrite ?Hna; [done..|by apply Ha1|]. intros w' E'. apply HQ. by rewrite E', Hdr. }
  destruct (entry_path dir de buf Hz Hlen Hde Hroom Htake) as (r & Eb & Hpz & Hlen' & Htake').
  set (buf' := <[(S (length dir) + 14)%nat := 0]> (splice (S (length dir)) (take 14 (de_name de)) buf)) in *.
  set (q := dir ++ 47 :: entry_name de) in *.
  assert (Hq : chars buf' = q) by (rewrite Eb; by apply chars_nul). rewrite Hq.
  assert (Hfin : forall t w2, view w2 = emit 1 t (view w1) -> accepts 1 (length t + length (concat (map (entry_text (v_names (view w)) dir) des))) (view w) ->
    (forall w', view w' = emit 1 (t ++ concat (map (entry_text (v_names (view w)) dir) des)) (drained fd f (view w)) -> Q (Val tt) w') ->
    ends (ITree.iter (ls_entry fd (S (length dir))) buf') w2 Q).
  { intros t w2 E2 Ha2 HQ2. assert (Hna2 : v_names (view w2) = v_names (view w)) by by rewrite E2, E1.
    eapply (IH (with_rest f (concat des))); rewrite ?Hna2; [done|done|by rewrite E2|done|done|done| | |].
    - rewrite E2. unfold spare in *. by rewrite dom_sinks_emit.
    - rewrite E2. apply accepts_emit. by apply Ha1.
    - intros w' E'. apply HQ2. rewrite E', E2, <-Hdr. unfold drained. by rewrite set_fds_emit, emit_emit. }
  assert (Hzn : 0 ∉ entry_name de) by (intros Hin; apply Hpz; apply elem_of_app; right; by right).
  tstep. apply ends_stat; [done|]. intros w2 E2. rewrite Hna. destruct (v_names (view w) !! q) as [n|]; cbn [fmap option_fmap option_map];
    rewrite length_app in Ha.
  - tstep. rewrite (fmtname_spec q (entry_name de)); [|done| |].
    + apply ends_ls_line; [done|rewrite E2; apply Ha1; by eapply accepts_mono; [exact Ha|lia]|]. intros w3 E3. tstep.
      apply (Hfin (entry_line (entry_name de) n.1)); [by rewrite E3, E2|done|done].
    + apply (f_equal length) in Eb. rewrite Hlen', length_app in Eb. change (2 ^ 31) with 2147483648. lia.
    + split; [by apply Hname|]. right. by exists dir.
  - tstep. eapply ends_fprintf; [rewrite Eb; by apply print_unlisted|rewrite E2; apply Ha1; by eapply accepts_mono; [exact Ha|lia]|].
    intros w3 E3. tstep. apply (Hfin (unlisted q)); [by rewrite E3, E2|done|done].
Qed.

Lemma spare_opened fd f v v' : v' = set_fds (<[fd := f]> (v_fds v)) v -> spare 2 v -> spare 1 v'.
Proof.
  intros -> Hs. unfold spare in *. cbn. rewrite dom_insert_L.
  assert (size ({[fd]} ∪ dom (v_fds v) ∪ dom (v_sinks v)) <= 1 + size (dom (v_fds v) ∪ dom (v_sinks v)))%nat; [|lia].
  rewrite <-(size_singleton (C := gset Z) fd), <-(assoc_L (∪)), size_union_alt. apply Nat.add_le_mono_l.
  apply subseteq_size. apply subseteq_difference_l. done.
Qed.

Lemma print_unopened p : 0 ∉ p -> vprintf (line "ls: cannot open %s") [AStr (Some p)] = Some (str "ls: cannot open " ++ p ++ [10]).
Proof. intros Hz. transitivity (Some (str "ls: cannot open " ++ chars p ++ [10])); [run_format|]. by rewrite chars_nul0. Qed.

(** A directory: the length of the path is checked, and its entries are listed. *)
Lemma ends_ls_dir junk p data f fd w (Q : outcome unit -> W -> Prop) : length junk = 512%nat -> 0 ∉ p -> Z.of_nat (length p) < 2 ^ 31 ->
  v_fds (view w) !! fd = Some f -> of_disk f = true -> of_rest f = data -> (length data mod 16 = 0)%nat -> entries_ok (dir_entries data) ->
  spare 1 (view w) ->
  let text := if 512 <? Z.of_nat (length p) + 16 then line "ls: path too long"
              else concat (map (entry_text (v_names (view w)) p) (dir_entries data)) in
  accepts 1 (length text) (view w) ->
  (forall w', (view w' = emit 1 text (view w) \/ view w' = emit 1 text (drained fd f (view w))) -> Q (Val tt) w') ->
  ends (if 512 <? u32 (strlen p + 1 + 14 + 1) then printf (line "ls: path too long") []
        else match strcpy junk p with
             | None => undefined
             | Some buf =>
                 let n := Z.to_nat (strlen buf) in
                 ITree.iter (ls_entry fd (n + 1)) (<[n := 47]> buf)
             end) w Q.
Proof.
  intros Hjunk Hz Hl Hf Hdisk Hrest Hmod Hok Hs text Ha HQ. subst text.
  pose proof (strlen_len p [] Hz Hl (or_introl eq_refl)) as Hlen. rewrite app_nil_r in Hlen.
  rewrite Hlen, u32_small by lia. replace (Z.of_nat (length p) + 1 + 14 + 1) with (Z.of_nat (length p) + 16) by lia.
  destruct (Z.ltb_spec 512 (Z.of_nat (length p) + 16)).
  { eapply ends_fprintf; [run_format|exact Ha|]. intros w' E'. apply HQ. by left. }
  rewrite strcpy_ok by (done || lia). rewrite strlen_len by (done || lia || by right).
  cbv zeta. rewrite Nat2Z.id, insert_mid, Nat.add_1_r.
  eapply (ends_ls_entries p (dir_entries data)); [done|lia| | |exact Hf|done|by rewrite concat_entries|done|done|exact Ha|].
  - rewrite length_app. cbn [length]. rewrite length_drop. lia.
  - change (p ++ 47 :: drop (S (length p)) junk) with (p ++ [47] ++ drop (S (length p)) junk).
    rewrite app_assoc. apply take_app_length'. rewrite length_app. cbn. lia.
  - intros w' E'. apply HQ. by right.
Qed.

Lemma ends_ls junk p w (Q : outcome unit -> W -> Prop) : length junk = 512%nat -> path_ok p ->
  dirs_ok (v_names (view w)) -> spare 2 (view w) ->
  let out := ls_out (v_names (view w)) p in let err := ls_err (v_names (view w)) p in
  accepts 1 (length out) (view w) -> accepts 2 (length err) (view w) ->
  (forall w', view w' = emit 2 err (emit 1 out (view w)) -> Q (Val tt) w') -> ends (ls junk p) w Q.
Proof.
  intros Hjunk [Hz Hl] Hdirs Hs out err Ha Ha2 HQ. unfold ls. tstep.
  unfold out, ls_out in Ha, HQ. unfold err, ls_err in Ha2, HQ. destruct (v_names (view w) !! p) as [[st data]|] eqn:Hn.
  2: { rewrite emit_nil in HQ. apply ends_open_missing; [done|]. intros r w1 Hr E1. destruct (Z.ltb_spec r 0); [|lia].
    eapply ends_fprintf; [by apply print_unopened|by rewrite E1|]. intros w2 E2. apply HQ. by rewrite E2, E1. }
  rewrite emit_nil in HQ. eapply ends_open; [exact Hn|unfold spare in *; lia|].
  cbn [fst snd]. intros fd w1 Hpos Hfd Hk E1. destruct (Z.ltb_spec fd 0); [lia|].
  set (f := OFile (Some st) true data) in *.
  assert (Hf1 : v_fds (view w1) !! fd = Some f) by (rewrite E1; cbn; by rewrite lookup_insert_eq).
  tstep. eapply ends_fstat; [exact Hf1|done|]. intros w2 E2. rewrite E1 in E2.
  pose proof (spare_opened fd f _ _ E2 Hs) as Hs2. assert (Hf2 : v_fds (view w2) !! fd = Some f) by (rewrite E2; cbn; by rewrite lookup_insert_eq).
  assert (Hna : v_names (view w2) = v_names (view w)) by by rewrite E2.
  assert (Ha' : forall n, accepts 1 n (view w) -> accepts 1 n (view w2)) by (intros n; by rewrite E2).
  (* the listing, then the descriptor is closed *)
  match goal with |- context [if ((st_type st =? T_DEVICE) || _) then ?t else ?u] => set (listing := if (st_type st =? T_DEVICE) || (st_type st =? T_FILE) then t else u) end.
  match type of HQ with forall w', view w' = emit 1 ?t _ -> _ => set (text := t) in * end.
  assert (Hlist : forall Q' : outcome unit -> W -> Prop, (forall w' f', view w' = emit 1 text (set_fds (<[fd := f']> (v_fds (view w))) (view w)) -> Q' (Val tt) w') ->
    ends listing w2 Q').
  2: { tstep. apply Hlist. intros w3 f' E3. tstep.
    eapply ends_close; [rewrite E3; cbn; by rewrite lookup_insert_eq|rewrite E3; cbn; by rewrite lookup_alter_None|].
    intros r w4 E4. tstep. apply HQ. rewrite E4, E3. cbn. rewrite delete_insert_id by done. by rewrite set_fds_emit, set_fds_set_fds, set_fds_id. }
  intros Q' HQ'. subst listing text. destruct ((st_type st =? T_DEVICE) || (st_type st =? T_FILE)).
  { rewrite (fmtname_spec p (base p)) by (done || apply base_ok). apply ends_ls_line; [|by apply Ha'|].
    - destruct (base_ok p) as [_ [E|[dir E]]]; [by rewrite <-E|]. intros Hin. apply Hz. rewrite E. apply elem_of_app. right. by right.
    - intros w' E'. apply (HQ' w' f). by rewrite E', E2. }
  destruct (Z.eqb_spec (st_type st) T_DIR) as [Hdir|_].
  2: { tstep. apply (HQ' _ f). by rewrite emit_nil, E2. }
  destruct (Hdirs p st data Hn Hdir) as [Hmod Hok].
  eapply (ends_ls_dir junk p data f); [done..|rewrite Hna; by apply Ha'|]. intros w' HE. rewrite Hna in HE.
  destruct HE as [E'|E']; rewrite E2 in E'; [by apply (HQ' w' f)|].
  apply (HQ' w' (with_rest f [])). rewrite E'. unfold drained. cbn. by rewrite insert_insert_eq.
Qed.

Lemma ends_ls_each junk files w (Q : outcome unit -> W -> Prop) : length junk = 512%nat -> Forall path_ok files ->
  dirs_ok (v_names (view w)) -> spare 2 (view w) ->
  let out := concat (map (ls_out (v_names (view w))) files) in let err := concat (map (ls_err (v_names (view w))) files) in
  accepts 1 (length out) (view w) -> accepts 2 (length err) (view w) ->
  (forall w', view w' = emit 2 err (emit 1 out (view w)) -> Q (Val tt) w') -> ends (each files (ls junk)) w Q.
Proof.
  intros Hjunk. revert w. induction files as [|p files IH]; intros w Hp Hd Hs out err Ha Ha2 HQ; subst out err; cbn [each map concat] in *.
  { tstep. apply HQ. by rewrite !emit_nil. }
  apply Forall_cons in Hp as [Hp Hps]. rewrite length_app in Ha, Ha2. tstep.
  apply ends_ls; [done..|by eapply accepts_mono; [exact Ha|lia]|by eapply accepts_mono; [exact Ha2|lia]|].
  intros w1 E1. assert (Hna : v_names (view w1) = v_names (view w)) by by rewrite E1.
  apply IH; rewrite ?Hna; [done|done| | | |].
  - rewrite E1. unfold spare in *. by rewrite !dom_sinks_emit.
  - rewrite E1, emit_comm by done. apply accepts_emit. destruct Ha as (k & Hk & Hle). exists k. unfold emit. cbn. by rewrite lookup_alter_ne.
  - rewrite E1. apply accepts_emit. destruct Ha2 as (k & Hk & Hle). exists k. unfold emit. cbn. by rewrite lookup_alter_ne.
  - intros w' E'. apply HQ. rewrite E', E1. rewrite (emit_comm 1 2) by done. by rewrite !emit_emit.
Qed.

(** [ls] prints, for each path among its arguments (or the current directory), a line for a
    file or a device, and for a directory a line for every entry in use, in order: the name,
    padded to the width of its column, the type, the inode number and the size that [stat]
    answers for the path of the entry; a path that is missing or too long gets a message, every
    descriptor is closed again, and nothing else is written. *)
Theorem ls_lists w (name junk : list Z) (files : list (list Z)) : length junk = 512%nat ->
  dirs_ok (v_names (view w)) -> Forall path_ok files -> spare 2 (view w) ->
  let paths := if bool_decide (files = []) then [str "."] else files in
  let out := concat (map (ls_out (v_names (view w))) paths) in
  let err := concat (map (ls_err (v_names (view w))) paths) in
  accepts 1 (length out) (view w) -> accepts 2 (length err) (view w) ->
  exists w', runs (ls_main junk (name :: files)) w (Exited 0) w' /\ view w' = emit 2 err (emit 1 out (view w)).
Proof.
  intros Hj Hd Hp Hs paths out err Ha Ha2. apply (ends_exists (ls_main junk (name :: files)) w (Exited 0) (fun v => v = _)).
  unfold ls_main. cbn [tl]. unfold paths in *. destruct (bool_decide (files = [])).
  - unfold out, err in *. cbn [map concat] in *. rewrite !app_nil_r in *. tstep. apply ends_ls; [done| |done..|].
    + split; [|done]. intros Hin. vm_compute in Hin. apply elem_of_cons in Hin as [Hin|Hin]; [done|by apply elem_of_nil in Hin].
    + intros w' E'. by tstep.
  - tstep. apply ends_ls_each; [done..|]. intros w' E'. by tstep.
Qed.
End Ls.

(** A directory with an unused entry and one whose file is gone. *)
Definition demo_dir : list Z :=
  concat (map (fun e : Z * string => le_bytes 2 e.1 ++ strncpy (replicate 14 0) (str e.2) 14)
    [(1, "."%string); (0, "old"%string); (5, "a"%string); (9, "gone"%string)]).
Definition demo_names : gmap (list Z) (stat * list Z) :=
  <[str "." := (mkstat 1 1 T_DIR 1 64, demo_dir)]> (<[str "./." := (mkstat 1 1 T_DIR 1 64, demo_dir)]>
    (<[str "./a" := (mkstat 1 5 T_FILE 1 8, [])]> ∅)).
Definition ls_world : mem := Mem (View demo_names ∅ (<[1 := Sink [] 100]> {[2 := Sink [] 60]})) [].

Lemma demo_dirs_ok : dirs_ok demo_names.
Proof.
  assert (Hd : (length demo_dir mod 16 = 0)%nat /\ entries_ok (dir_entries demo_dir)).
  { split; [vm_compute; reflexivity|]. unfold entries_ok. apply (bool_decide_unpack (Forall _ (dir_entries demo_dir))).
    vm_compute. reflexivity. }
  intros p st data Hp Ht. unfold demo_names in Hp.
  repeat (apply lookup_insert_Some in Hp as [[_ Hp]|[_ Hp]]; [by injection Hp as <- <-|]). done.
Qed.

Lemma ls_lists_witness : exists w', runs (ls_main (replicate 512 7) [str "ls"; str "."; str "./a"; str "b"]) ls_world (Exited 0) w' /\
  written 1 (view w') = str ".              1 1 64" ++ [10] ++ str "a              2 5 8" ++ [10] ++
    str "ls: cannot stat ./gone" ++ [10] ++ str "a              2 5 8" ++ [10] /\
  written 2 (view w') = str "ls: cannot open b" ++ [10].
Proof.
  destruct (ls_lists ls_world (str "ls") (replicate 512 7) [str "."; str "./a"; str "b"]) as (w' & Hr & Hv).
  - vm_compute. reflexivity.
  - exact demo_dirs_ok.
  - apply (bool_decide_unpack (Forall (fun p => 0 ∉ p /\ Z.of_nat (length p) < 2 ^ 31) _)). vm_compute. reflexivity.
  - unfold spare. change (size _) with 2%nat. change NOFILE with 16%nat. lia.
  - exists (Sink [] 100). split; [reflexivity|]. vm_compute. lia.
  - exists (Sink [] 60). split; [reflexivity|]. vm_compute. lia.
  - exists w'. split; [exact Hr|]. rewrite Hv. vm_compute. split; reflexivity.
Defined.
