(* ===== verification/Uinit.v ===== *)
(** * init: there is always a shell

    The steps of init are taken with what the kernel may answer; processes whose parent has
    exited become children of init at any time. *)

From Paco Require Import paco.
From ITree Require Import ITree ITreeFacts.
From S2P Require Import Prelude Kstring State Console Fs Sysfile Ulib Uprintf Grep Uprog.

(** ** The children of init *)

(** [kids] are the children that have not been collected; [shells] are those that init has
    forked; [failed] tells that a fork has failed. *)
Record env := Env { kids : gset Z; shells : gset Z; failed : bool }.

Definition quiet {X} (c : callE X) : bool := match c with Fork | Wait => false | _ => true end.

(** What the kernel answers to init: [fork] fails or returns a new pid, [wait] returns a child
    that has exited, or fails when there is no child; the other calls do not matter. *)
Inductive answers (e : env) : forall X, callE X -> X -> env -> Prop :=
| an_fork pid : 0 < pid -> pid ∉ kids e ->
    answers e Z Fork pid (Env ({[pid]} ∪ kids e) ({[pid]} ∪ shells e) (failed e))
| an_fork_fails : answers e Z Fork (-1) (Env (kids e) (shells e) true)
| an_wait pid : pid ∈ kids e -> answers e Z Wait pid (Env (kids e ∖ {[pid]}) (shells e ∖ {[pid]}) (failed e))
| an_no_child : kids e = ∅ -> answers e Z Wait (-1) e
| an_quiet X (c : callE X) x : quiet c = true -> answers e X c x e.

Definition config : Type := uprog void * env.
(** A step of init. *)
Inductive prog_step : config -> config -> Prop :=
| step_tau t t' e : observe t = TauF t' -> prog_step (t, e) (t', e)
| step_call t X (c : callE X) k e x e' : observe t = VisF (inl1 c) k -> answers e X c x e' -> prog_step (t, e) (k x, e').
(** A process without a parent becomes a child of init. *)
Definition adopt (pid : Z) (e : env) : env := Env ({[pid]} ∪ kids e) (shells e) (failed e).
Inductive sys_step : config -> config -> Prop :=
| by_init c c' : prog_step c c' -> sys_step c c'
| by_orphan t e pid : 0 < pid -> pid ∉ kids e -> sys_step (t, e) (t, adopt pid e).

(** ** What holds at every step *)
Definition executes_sh (t : uprog void) : Prop :=
  match observe t with
  | VisF (inl1 (Exec p argv)) _ => p = str "sh" /\ argv = [str "sh"]
  | _ => False
  end.
Definition call_ok {X} (c : callE X) (e : env) : (X -> uprog void) -> Prop :=
  match c in callE Y return (Y -> uprog void) -> Prop with
  | Fork => fun k => shells e = ∅ /\ executes_sh (k 0)
  | Wait => fun _ => exists pid, shells e = {[pid]} /\ pid ∈ kids e
  | _ => fun _ => True
  end.
Definition point_ok (t : uprog void) (e : env) : Prop :=
  (match observe t with
   | VisF ev k =>
       match ev with
       | inl1 c => call_ok c e k
       | inr1 _ => failed e = true
       end
   | _ => True
   end) /\ (size (shells e) <= 1)%nat /\ shells e ⊆ kids e.

(** [n] steps from [t]. *)
Fixpoint safe (n : nat) (t : uprog void) (e : env) : Prop :=
  match n with
  | O => point_ok t e
  | S n' =>
      point_ok t e /\
      (forall pid, 0 < pid -> pid ∉ kids e -> safe n' t (adopt pid e)) /\
      match observe t with
      | RetF _ => True
      | TauF t' => safe n' t' e
      | VisF ev k =>
          match ev with
          | inl1 c => forall x e', answers e _ c x e' -> safe n' (k x) e'
          | inr1 _ => True
          end
      end
  end.

(** The answers by call. *)
Definition answer_of (e : env) {X} (c : callE X) : X -> env -> Prop :=
  match c in callE Y return Y -> env -> Prop with
  | Fork => fun x e' =>
      (0 < x /\ x ∉ kids e /\ e' = Env ({[x]} ∪ kids e) ({[x]} ∪ shells e) (failed e)) \/
      (x = -1 /\ e' = Env (kids e) (shells e) true)
  | Wait => fun x e' =>
      (x ∈ kids e /\ e' = Env (kids e ∖ {[x]}) (shells e ∖ {[x]}) (failed e)) \/ (x = -1 /\ kids e = ∅ /\ e' = e)
  | _ => fun _ e' => e' = e
  end.
Lemma answers_inv e X (c : callE X) x e' : answers e X c x e' -> answer_of e c x e'.
Proof. intros [pid ? ?| |pid ?|?|Y c' y Hq]; cbn; [by left|by right|by left|by right|]. by destruct c'. Qed.

Lemma safe_obs n t t' e : observe t = observe t' -> safe n t' e -> safe n t e.
Proof.
  revert t t' e. induction n as [|n IH]; intros t t' e Ho; cbn [safe]; unfold point_ok; rewrite Ho; [done|].
  intros (H1 & H2 & H3). split; [done|]. split; [|done]. intros pid Hp Hk. eapply IH; [exact Ho|by apply H2].
Qed.

Lemma safe_point n t e : safe n t e -> point_ok t e.
Proof. destruct n; [done|]. by intros [H _]. Qed.

Lemma safe_step n c c' : safe (S n) c.1 c.2 -> sys_step c c' -> safe n c'.1 c'.2.
Proof.
  intros Hsafe Hst. destruct Hst as [c c' Hs|t e pid Hp Hk]; [destruct Hs as [t t' e Ho|t X ca k e x e' Ho Hx]|];
    cbn [fst snd] in *; destruct Hsafe as (_ & Ha & Hn); [by rewrite Ho in Hn|rewrite Ho in Hn; by apply Hn|by apply Ha].
Qed.

(** ** The states of init, with the shell that it has forked *)
Record holds (sh : gset Z) (b : bool) (e : env) : Prop := {
  ho_shells : shells e = sh;
  ho_size : (size sh <= 1)%nat;
  ho_kids : sh ⊆ kids e;
  ho_pos : forall pid, pid ∈ kids e -> 0 < pid;
  ho_failed : failed e = b
}.
Lemma holds_adopt sh b e pid : holds sh b e -> 0 < pid -> holds sh b (adopt pid e).
Proof. intros [H1 H2 H3 H4 H5] Hp. split; cbn; [done|done|set_solver| |done]. intros q Hq. apply elem_of_union in Hq as [Hq|Hq]; [|by apply H4]. apply elem_of_singleton in Hq. by subst. Qed.

Definition safe_in (n : nat) (sh : gset Z) (b : bool) (t : uprog void) : Prop := forall e, holds sh b e -> safe n t e.

Lemma safe_in_obs n sh b t t' : observe t = observe t' -> safe_in n sh b t' -> safe_in n sh b t.
Proof. intros Ho Hs e He. eapply safe_obs; [exact Ho|by apply Hs]. Qed.

(** One call of init; [HK] is what follows each answer. *)
Lemma safe_in_call n sh b t X (c : callE X) k : observe t = VisF (inl1 c) k ->
  (forall e, holds sh b e -> call_ok c e k) ->
  (forall m e x e', (m < n)%nat -> holds sh b e -> answers e X c x e' -> safe m (k x) e') -> safe_in n sh b t.
Proof.
  intros Ho Hc. induction n as [|n IH]; intros HK e He;
    assert (Hp : point_ok t e) by (unfold point_ok; rewrite Ho; destruct He as [H1 H2 H3 H4 H5] eqn:E; rewrite H1; split; [by apply Hc|done]).
  { exact Hp. }
  cbn [safe]. split; [exact Hp|]. split; [|rewrite Ho; intros x e' Hx; by eapply HK; eauto].
  intros pid Hpid _. apply IH; [|by apply holds_adopt]. intros m e1 x e2 Hm. apply HK. lia.
Qed.

Lemma safe_in_quiet n sh b t X (c : callE X) k : observe t = VisF (inl1 c) k -> quiet c = true ->
  (forall m x, (m < n)%nat -> safe_in m sh b (k x)) -> safe_in n sh b t.
Proof.
  intros Ho Hq HK. eapply safe_in_call; [exact Ho|by intros; destruct c|].
  intros m e x e' Hm He Hx%answers_inv. assert (e' = e) as -> by (by destruct c). by apply HK.
Qed.

Lemma safe_in_tau n sh b t t' : observe t = TauF t' -> (forall m, (m < n)%nat -> safe_in m sh b t') -> safe_in n sh b t.
Proof.
  intros Ho. induction n as [|n IH]; intros HK e He;
    assert (Hp : point_ok t e) by (unfold point_ok; rewrite Ho; destruct He as [H1 H2 H3 H4 H5] eqn:E; by rewrite H1).
  { exact Hp. }
  cbn [safe]. split; [exact Hp|]. split; [|rewrite Ho; apply HK; [lia|done]].
  intros pid Hpid _. apply IH; [|by apply holds_adopt]. intros m Hm. apply HK. lia.
Qed.

Lemma safe_in_stop n sh t (s : stopE void) k : observe t = VisF (inr1 s) k -> safe_in n sh true t.
Proof.
  intros Ho. induction n as [|n IH]; intros e He;
    assert (Hp : point_ok t e) by (unfold point_ok; rewrite Ho; destruct He as [H1 H2 H3 H4 H5] eqn:E; by rewrite H1).
  { exact Hp. }
  cbn [safe]. split; [exact Hp|]. split; [|by rewrite Ho]. intros pid Hpid _. apply IH. by apply holds_adopt.
Qed.

Lemma safe_in_fork n b t k : observe t = VisF (inl1 Fork) k -> executes_sh (k 0) ->
  (forall m pid, (m < n)%nat -> 0 < pid -> safe_in m {[pid]} b (k pid)) -> (forall m, (m < n)%nat -> safe_in m ∅ true (k (-1))) ->
  safe_in n ∅ b t.
Proof.
  intros Ho Hex HK Hf. eapply safe_in_call; [exact Ho|by intros e He; split; [apply He|]|].
  intros m e x e' Hm [H1 H2 H3 H4 H5] [(Hp & Hk & ->)|[-> ->]]%answers_inv; [apply HK; [done..|]|by apply Hf; [|split]].
  split; cbn; [rewrite H1; set_solver|by rewrite size_singleton|set_solver| |done].
  intros q Hq. apply elem_of_union in Hq as [Hq|Hq]; [apply elem_of_singleton in Hq; by subst|by apply H4].
Qed.

Lemma safe_in_wait n b t k pid : observe t = VisF (inl1 Wait) k ->
  (forall m, (m < n)%nat -> safe_in m ∅ b (k pid)) ->
  (forall m q, (m < n)%nat -> 0 < q -> q <> pid -> safe_in m {[pid]} b (k q)) -> safe_in n {[pid]} b t.
Proof.
  intros Ho HK Hq. eapply safe_in_call; [exact Ho|intros e [H1 H2 H3 H4 H5]; exists pid; split; [done|set_solver]|].
  intros m e x e' Hm [H1 H2 H3 H4 H5] [[Hx ->]|(-> & Hx & _)]%answers_inv; [|set_solver].
  destruct (decide (x = pid)) as [->|Hne]; [apply HK; [done|]|apply Hq; [done|by apply H4|done|]]; split; cbn.
  - rewrite H1. set_solver.
  - by rewrite size_empty; lia.
  - set_solver.
  - intros q Hin. apply H4. set_solver.
  - done.
  - rewrite H1. set_solver.
  - by rewrite size_singleton.
  - set_solver.
  - intros q Hin. apply H4. set_solver.
  - done.
Qed.

Lemma safe_in_puts n sh b fd l k : (forall m, (m <= n)%nat -> safe_in m sh b (k tt)) -> safe_in n sh b (ITree.bind (puts fd l) k).
Proof.
  revert n. induction l as [|c l IH]; intros n HK; cbn [puts].
  - eapply safe_in_obs; [|by apply (HK n)]. done.
  - eapply safe_in_quiet; [cbn; reflexivity|done|]. intros m x Hm.
    eapply safe_in_obs; [|apply (IH m)]; [done|]. intros m' Hm'. apply HK. lia.
Qed.
Lemma safe_in_printf n sh b fmt l k : vprintf fmt [] = Some l ->
  (forall m, (m <= n)%nat -> safe_in m sh b (k tt)) -> safe_in n sh b (ITree.bind (printf fmt []) k).
Proof. intros E HK. unfold printf, fprintf. rewrite E. by apply safe_in_puts. Qed.

(** The next node of a tree, by computation. *)
Ltac next := match goal with |- observe ?t = _ => let r := eval hnf in (observe t) in exact (eq_refl r) end.

(** ** Trees that are equal up to the grouping of their sequences *)
Lemma executes_sh_eq t t' : t ≅ t' -> executes_sh t -> executes_sh t'.
Proof.
  intros He. punfold He. red in He. unfold executes_sh.
  destruct He as [r r' E|u u' E|X ev k k' E|u o C E|o u C E]; done.
Qed.
Lemma point_eq t t' e : t ≅ t' -> point_ok t e -> point_ok t' e.
Proof.
  intros He. punfold He. red in He. unfold point_ok.
  destruct He as [r r' E|u u' E|X ev k k' E|u o C E|o u C E]; try done. intros [Hp Hr]. split; [|done].
  destruct ev as [c|s]; [|done]. destruct c; try done. cbn in *. split; [apply Hp|]. eapply executes_sh_eq; [|apply Hp].
  by destruct (E 0).
Qed.
Lemma safe_eq n t t' e : t ≅ t' -> safe n t e -> safe n t' e.
Proof.
  revert t t' e. induction n as [|n IH]; intros t t' e He Hs; [by eapply point_eq|]. destruct Hs as (Hp & Ha & Hn).
  cbn [safe]. split; [by eapply point_eq|]. split; [intros pid Hpid Hk; eapply IH; [exact He|by apply Ha]|].
  revert Hn. punfold He. red in He. destruct He as [r r' E|u u' E|X ev k k' E|u o C E|o u C E]; try done.
  - apply IH. by destruct E.
  - destruct ev as [c|s]; [|done]. intros Hn x e' Hx. eapply IH; [|by apply Hn]. by destruct (E x).
Qed.
Lemma safe_in_eq n sh b t t' : t ≅ t' -> safe_in n sh b t' -> safe_in n sh b t.
Proof. intros He Hs e Hh. eapply safe_eq; [by symmetry|by apply Hs]. Qed.

(** ** The loops of init *)

(** What follows the answer of [wait], and of [fork]. *)
Definition waited (pid wpid : Z) : uprog (unit + unit) :=
  if wpid =? pid then Ret (inr tt)
  else if wpid <? 0 then printf (line "init: wait returned an error") [];; exit 1
  else Ret (inl tt).
Definition forked (pid : Z) : uprog (unit + void) :=
  if pid <? 0 then printf (line "init: fork failed") [];; exit 1
  else if pid =? 0 then call (Exec (str "sh") [str "sh"]);; printf (line "init: exec sh failed") [];; exit 1
  else wait_for pid;; Ret (inl tt).
Definition again {R} (body : uprog (unit + R)) (lr : unit + R) : uprog R :=
  match lr with inl l => Tau (ITree.iter (fun _ => body) l) | inr r => Ret r end.

Lemma wait_for_safe n pid b k : (forall m, (m <= n)%nat -> safe_in m ∅ b (k tt)) -> safe_in n {[pid]} b (ITree.bind (wait_for pid) k).
Proof.
  induction n as [n IH] using lt_wf_ind. intros HK.
  eapply safe_in_wait; [next| |].
  - intros m Hm. apply (safe_in_obs _ _ _ _ (ITree.bind (ITree.bind (waited pid pid) (again (ITree.bind (call Wait) (waited pid)))) k)); [reflexivity|].
    unfold waited at 1. rewrite Z.eqb_refl. eapply safe_in_obs; [|apply (HK m); lia]. reflexivity.
  - intros m q Hm Hq Hne.
    apply (safe_in_obs _ _ _ _ (ITree.bind (ITree.bind (waited pid q) (again (ITree.bind (call Wait) (waited pid)))) k)); [reflexivity|].
    unfold waited at 1. destruct (Z.eqb_spec q pid); [done|]. destruct (Z.ltb_spec q 0); [lia|].
    eapply safe_in_tau; [next|]. intros m' Hm'.
    eapply safe_in_obs; [|apply (IH m'); [lia|intros; apply HK; lia]]. reflexivity.
Qed.

Lemma shell_loop_safe n b : safe_in n ∅ b (ITree.iter (fun _ : unit => run_sh) tt).
Proof.
  revert b. induction n as [n IH] using lt_wf_ind. intros b.
  eapply safe_in_eq; [rewrite unfold_iter; unfold run_sh at 1; rewrite bind_bind; reflexivity|].
  eapply safe_in_printf; [vm_compute; reflexivity|]. intros m Hm.
  eapply safe_in_fork; [next|split; reflexivity| |].
  - intros m1 pid Hm1 Hpid. apply (safe_in_obs _ _ _ _ (ITree.bind (forked pid) (again run_sh))); [reflexivity|].
    unfold forked. destruct (Z.ltb_spec pid 0); [lia|]. destruct (Z.eqb_spec pid 0); [lia|].
    eapply safe_in_eq; [rewrite bind_bind; reflexivity|].
    apply wait_for_safe. intros m2 Hm2. eapply safe_in_tau; [next|]. intros m3 Hm3. apply IH. lia.
  - intros m1 Hm1. apply (safe_in_obs _ _ _ _ (ITree.bind (forked (-1)) (again run_sh))); [reflexivity|].
    eapply safe_in_eq; [unfold forked; cbn [Z.ltb Z.compare]; rewrite bind_bind; reflexivity|].
    eapply safe_in_printf; [vm_compute; reflexivity|]. intros m2 Hm2. eapply safe_in_stop. next.
Qed.

Lemma init_safe n : safe_in n ∅ false init_main.
Proof.
  set (loop := ITree.iter (fun _ : unit => run_sh) tt).
  set (dups := (call (Dup 0);; call (Dup 0);; loop) : uprog void).
  assert (Hdups : forall m, safe_in m ∅ false dups).
  { intros m. eapply safe_in_quiet; [next|done|]. intros m1 x1 Hm1.
    eapply safe_in_quiet; [next|done|]. intros m2 x2 Hm2. eapply safe_in_obs; [|apply (shell_loop_safe m2)]. reflexivity. }
  eapply safe_in_quiet; [next|done|]. intros m x Hm.
  apply (safe_in_obs _ _ _ _ (ITree.bind (if x <? 0 then call (Mknod (str "console") CONSOLE 0);; call (Open (str "console") O_RDWR);; Ret tt else Ret tt) (fun _ => dups))); [reflexivity|].
  destruct (x <? 0).
  - eapply safe_in_quiet; [next|done|]. intros m1 x1 Hm1. eapply safe_in_quiet; [next|done|]. intros m2 x2 Hm2.
    eapply safe_in_obs; [|apply (Hdups m2)]. reflexivity.
  - eapply safe_in_obs; [|apply (Hdups m)]. reflexivity.
Qed.

(** ** The theorem *)
Lemma safe_steps n c c' : nsteps sys_step n c c' -> safe n c.1 c.2 -> point_ok c'.1 c'.2.
Proof.
  intros Hs. induction Hs as [c|n c c1 c' Hst Hs IH]; intros Hsafe; [by eapply safe_point|].
  apply IH. by eapply safe_step.
Qed.

Lemma answer_exists e X (c : callE X) k : call_ok c e k -> exists x e', answers e X c x e'.
Proof.
  destruct c; intros Hc; try (eexists _, _; apply an_quiet; reflexivity).
  - exists (-1), (Env (kids e) (shells e) true). constructor.
  - destruct Hc as (pid & _ & Hp). eexists pid, _. by constructor.
  Unshelve. all: first [exact 0|exact None].
Qed.

Definition boot_env : env := Env ∅ ∅ false.


